(* ===== verification/_CoqProject ===== *)
-Q . S2P
Prelude.v
Errors.v
Storage.v
Host.v
Events.v
TokenFacts.v
Concrete.v
Accessors.v
Admin.v
Shares.v
RewardMath.v
MultiReward.v
Accumulator.v
Accrual.v
Rewards.v
Checkpoints.v
Balance.v
Pause.v
RewardRate.v
Governance.v
GovernanceProofs.v
Limits.v
Notify.v
Mirror.v
Strategies.v
StrategyProofs.v
Vault.v
ClaimFees.v
Peg.v
Claims.v
ClaimProofs.v
ClaimExact.v
Smoothing.v
Loans.v
Leaderboard.v
Prediction.v
Swaps.v
CapacityAuction.v
Epochs.v
FeeReserve.v
Positions.v
Commitment.v
Auction.v
AuctionProofs.v
Lockdrop.v
InsurancePool.v
CategoryGov.v
Voting.v
SubPools.v
MetaStaking.v
Fractions.v
Presale.v
Disputes.v
Sunset.v
Merkle.v
CategoryProofs.v
VaultBooks.v
VaultInv.v
PositionProofs.v
LoanProofs.v
SwapProofs.v
CapacityProofs.v
EpochProofs.v
VotingProofs.v
VotingSystem.v
SubPoolProofs.v
VaultSystem.v
SunsetProofs.v
HealthCheck.v
VaultExact.v
PresaleProofs.v
PositionExact.v
