(* ===== verification/Prelude.v ===== *)
(** * Stellar DeFi Vault: verification library (root file)

    ** The program

    A Soroban (Stellar smart contract) vault in Rust, under [src/src/].  Users
    deposit a token and receive shares; yield raises the value of a share;
    rewards accrue per ledger on shares and are claimed from a reward pool.
    Around this core the contract has an administrator with timelocks, a
    multisig group, recovery and succession; pauses and an emergency stop;
    extra reward tokens; strategies that lend out idle funds; and campaigns
    (auctions, a presale, a lockdrop, a mutual insurance pool, categorised
    proposals), votes on its parameters, sub-pools, and a sunset that winds it up.

    [vault.rs] holds most entrypoints; the other files are modules it calls.
    All of them share one storage.  The source is the result of an unfinished
    merge: some functions are declared twice and some names are declared
    nowhere.  Where a function has two declarations the file that models it
    says which one is taken and why ([Vault.v], [Pause.v], [Claims.v],
    [Governance.v], [Positions.v]), or models both under two names (the two
    [change_vote]s of [Voting.v]); a name declared nowhere is a field of a class
    ([AuctionNames], [MutualNames], [GovNames], [MarketNames], [VotingNames],
    [Bootstrap]) or an argument of the operation, of which nothing is assumed beyond what the
    class says.

    ** How it is modelled

    An entrypoint is a computation of the monad [M E A] of [Host.v]: it ends
    with a value, with an [Err] of the Rust error type [E], or with a trap
    (failed [require_auth], panic, overflow of a plain operator).  State is the
    contract's typed store ([Storage.v]: one key constructor per storage item,
    with the Rust type stored there), the outside world and the events
    published.  [invoke] commits a success and rolls back everything else.
    The outside world is the class [World]: tokens and contracts that may be
    called.  Theorems take what they use of tokens from [StandardTokens] (an
    SEP-41 token without transfer fee) and of called contracts from
    [GuardedFunds] (a callee cannot take the vault's tokens); [Concrete.v]
    instantiates both, and the witnesses run on it.

    Integers are [Z] with the machine's behaviour written out: [checked_*]
    returns [None] outside [i128], [sat_*] clamps, plain operators trap
    ([plain]), [u32] and [u64] counters likewise.  The helpers of [events.rs] are
    the definitions of [Events.v] under their own names; some earlier files
    write the same [publish] out.

    ** Files

    Foundations: this file (machine integers, sums), [Errors.v] ([errors.rs]),
    [Storage.v] ([storage.rs] and the records of the modules), [Host.v] (the
    monad, frames, inversion tactics), [Events.v] ([events.rs]), [TokenFacts.v]
    (what one transfer does to a balance), [Concrete.v], [Accessors.v] and
    [Balance.v] ([balance.rs]), [Admin.v] ([admin.rs]).

    Shares and rewards: [Shares.v] (conversion, [balance.rs]), [RewardMath.v]
    ([reward_math.rs] and pure helpers of [vault.rs]), [Accrual.v] (the walk of
    [reward_between_ledgers]) and [Rewards.v] (accrual against storage, epochs,
    schedules), [Accumulator.v] ([reward_accumulator.rs]), [Checkpoints.v]
    ([balance_checkpoints.rs]), [MultiReward.v] ([multi_reward_tokens.rs]),
    [RewardRate.v] (rate setters, ramp, ceiling, runway), [Smoothing.v] (pool
    activation and smoothed yield), [Epochs.v] with [EpochProofs.v] (the epoch
    distribution and both vesting lists), [FeeReserve.v] (fee holiday and
    insurance reserve, [vault_extensions_701_704.rs]).

    Deposits and withdrawals: [Limits.v], [Notify.v], [Mirror.v]
    ([position_mirroring.rs]), [Strategies.v] with [StrategyProofs.v]
    ([vault_extensions_765_768.rs]), [Vault.v] ([stake], [do_stake_inner],
    [do_unstake] and the entrypoints, queue, cooldown and tokenised positions),
    [Commitment.v] ([commitment.rs]).

    Positions: [Leaderboard.v] (registry, stake snapshots, leaderboard, ranks),
    [Positions.v] (splits and merges, the three transfers, inheritance and the
    cap: [position_split_merge.rs], [position_transfer.rs], [vault.rs],
    [beneficiary_inheritance.rs], [vault_extensions_546_549.rs]), [Swaps.v] with
    [SwapProofs.v] (offers to swap parts of two positions), [Loans.v] with
    [LoanProofs.v] (loans against a position, flash stakes).

    The share books: [VaultBooks.v] (the invariant), [VaultInv.v] and
    [PositionProofs.v] (each operation keeps it), [VaultSystem.v] (the system
    of all operations and its reachable states), [VaultExact.v] and
    [PositionExact.v] (what single operations do), [HealthCheck.v]
    ([invariants.rs]).

    Claims: [ClaimFees.v] ([claim_fee.rs], [fee_recycle.rs],
    [stake_funded_bug_bounty.rs], [reward_token_audit_trail.rs],
    [claim_receipts.rs], [position_value_appreciation_log.rs]), [Peg.v]
    ([peg_stabilization.rs]), [Claims.v] ([do_claim] and its entrypoints, gas
    rebate, [mev_claim_protection.rs]), [ClaimProofs.v] and [ClaimExact.v],
    [Merkle.v] (rewards and revenue shares claimed with a Merkle proof).

    Authority: [Pause.v], [Governance.v] with [GovernanceProofs.v]; [Voting.v] with
    [VotingProofs.v] (single operations) and [VotingSystem.v] (whole lives):
    proposals, votes, vetoes, bonds and delegation ([vault.rs],
    [governance_params.rs], [guardian_veto.rs], [proposal_cancel.rs],
    [proposal_requirements.rs], [quadratic_vote.rs], [vote_change.rs],
    [batch_vote.rs], [change_vote] of [vault_extensions_757_760.rs]); [Disputes.v] ([slash_dispute.rs], [insurance.rs]); [Sunset.v]
    with [SunsetProofs.v] (the end of the pool, [vault.rs]).

    Beside the main pool: [SubPools.v] with [SubPoolProofs.v]
    ([sub_pool_delegation.rs], [sub_pool_rebalancing.rs], [keeper_registry.rs]),
    [MetaStaking.v] ([meta_staking.rs]), [Fractions.v] ([nft_fractionalize.rs]).

    Campaigns: [Auction.v] with [AuctionProofs.v]
    ([position_sealed_bid_auction.rs]), [Lockdrop.v] ([lockdrop_campaign.rs]),
    [InsurancePool.v] ([mutual_insurance_pool.rs]), [CategoryGov.v] with
    [CategoryProofs.v] ([vault_extensions_761_764.rs]), [CapacityAuction.v] with
    [CapacityProofs.v] (the auction of pool spots), [Prediction.v] (the market on
    the reward rate), [Presale.v] with [PresaleProofs.v] ([pool_presale.rs]).

    Definitions keep the source's names; a definition for part of a function
    (a loop body, a stretch of lines) says so in its comment.

    ** What the theorems show

    - Deposits: over any trace of vault and position operations the shares
      held, split off and parked never exceed the shares issued
      ([VaultSystem.v]); what a stake mints, what
      an unstake pays and that a holder can always unstake under stated
      conditions ([VaultExact.v]); conversions never favour the caller
      ([Shares.v]).
    - Loans and swaps: draws, repayments, liquidations and flash stakes never eat
      into what the vault holds beyond its books; a draw respects the loan to
      value ratio and a repayment is exact to the unit; a swap moves shares and
      creates none unless an offer is made to oneself.
    - Rewards: the accrual walk computes the per-ledger sum, does not depend on
      when it is settled, and ends ([Accrual.v], [Rewards.v]); extra tokens pay
      independently; checkpoints represent the true balance over time; a
      finalized epoch promises no more than its pool and each epoch is paid
      once; smoothed yield depends on the ledger and not on who settles it; the
      insurance reserve pays out of fees alone.
    - Claims: a claim is split without remainder and paid once, the claimer
      keeps a known share of it, queued claims are paid once or restored, the
      audit trail is the gapless list of movements, the peg check halts and
      reopens claims; a Merkle claim pays leaves of the published tree only, up
      to a collision of the hash, every leaf of a tree without ties, and once.
    - Positions: a merge undoes a split, an inheritance hands over the whole
      position once, the leaderboard stays a ranking, ranks number the stakers,
      the health check is exact on the registered shares.
    - Authority: timelocks cannot be bypassed, handovers empty the queues, every
      change of administrator has its authority, rates pass their guards; what
      a pause and an emergency stop guarantee.
    - Voting: tallies are the sums of the receipts, also when a receipt is moved
      to the other side, bonds stay in escrow until
      settled or cancelled, an enactment met every gate and put its value in force
      exactly when the frozen quorum and threshold were met, the integer square
      root is exact.
    - Sub-pools and meta-staking: totals are the sums of positions; the vault
      holds what the sub-pools hold.
    - Sunset: its stages only advance; a forced resolution pays a position in
      full and keeps the share books.
    - Campaigns: each pays for itself out of what it took in; winners, pro-rata
      shares, quorums and caps are what the code promises; an auction of pool
      spots settles every bid once and keeps its escrow whole; a presale
      reservation is redeemed once, at the price before it.

    Several theorems state what the code does where that is surprising: a
    zero-rate tier makes the accrual loop endless, the withdrawal queue takes
    shares twice and never pays, [initialize_multisig] can be called by
    anybody, a claim is paid although the reward pool is empty, a transfer
    leaves unsettled reward behind, a split or transfer fails the health check,
    a swap with oneself creates shares, a loan outlives its collateral and need
    not bear interest, a vested claim discards the entries before it, a second
    bet replaces the first, children of a Merkle root with the same first byte lock
    one side out, a vetoed proposal keeps its slot for ever, a batch vote counts
    delegated stake twice, fractions of a position never come back, a new rate of
    a sub-pool prices the past, and meta rewards are paid out of the principal of
    others without any book being debited.

    ** Bounds and fuel

    Only the accrual walk needs fuel ([walk], one unit per segment, standing
    for the host's execution budget): one unit per ledger of the window is
    always enough when the rate floor is positive ([accrual_terminates]); the
    square root has a bound of 127 rounds, which is enough ([isqrt_exact]).  All other
    loops run over lists the source iterates.  The audit trail's page number is
    a [u32], so its theorem holds for the first [100 * 2^32] movements.

    ** Not modelled

    Features that stand beside the accounting of deposits, shares and rewards
    and that no modelled operation calls: claim variants with streaks, donations
    and a waterfall; insurance snapshots; validators, bridges and further tokens;
    roles and quotas; roadmap votes, content curation, comments and the decay of
    voting power; further rate and fee policies; tips, badges and social features; and in [vault.rs] quizzes, cohorts, lotteries and
    tournaments.  The earlier of two declarations of [do_claim] and of a few
    other functions is replaced by the later one.  Read-only analytics, the
    API-key contract, client traits and deployment carry no accounting state.
    Time-to-live extension and eviction of storage entries are not modelled: an
    entry that is there is read as written. *)

From Stdlib Require Export ZArith Lia.
From stdpp Require Export base option strings gmap numbers.
From stdpp Require Export list.

#[global] Open Scope Z_scope.

(** ** Machine integers

    Soroban amounts are [i128]; ledger numbers, basis points and counters are
    [u32].  Values are [Z]; every operation that can leave the machine range is
    written out ([checked_*] returns [None], [saturating_*] clamps).  The
    release profile keeps [overflow-checks = true], so a plain operator traps;
    that variant lives in [Host.v], where a trap is an outcome. *)

Definition i128_min : Z := - 2 ^ 127.
Definition i128_max : Z := 2 ^ 127 - 1.
Definition u32_max : Z := 2 ^ 32 - 1.

Definition in_i128 (x : Z) : Prop := i128_min <= x <= i128_max.
Definition in_u32 (x : Z) : Prop := 0 <= x <= u32_max.
Definition in_i128b (x : Z) : bool := (i128_min <=? x) && (x <=? i128_max).
Definition in_u32b (x : Z) : bool := (0 <=? x) && (x <=? u32_max).

Definition to_i128 (x : Z) : option Z := if in_i128b x then Some x else None.
Definition to_u32 (x : Z) : option Z := if in_u32b x then Some x else None.

Definition checked_add (a b : Z) : option Z := to_i128 (a + b).
Definition checked_sub (a b : Z) : option Z := to_i128 (a - b).
Definition checked_mul (a b : Z) : option Z := to_i128 (a * b).
(** Rust's [/] and [%] on signed integers truncate towards zero. *)
Definition checked_div (a b : Z) : option Z :=
  if b =? 0 then None else to_i128 (Z.quot a b).
Definition checked_rem (a b : Z) : option Z :=
  if (b =? 0) || ((a =? i128_min) && (b =? -1)) then None else to_i128 (Z.rem a b).

Definition clamp_i128 (x : Z) : Z := Z.max i128_min (Z.min x i128_max).
Definition sat_add (a b : Z) : Z := clamp_i128 (a + b).
Definition sat_sub (a b : Z) : Z := clamp_i128 (a - b).
Definition sat_mul (a b : Z) : Z := clamp_i128 (a * b).

(** Saturating arithmetic on [u32] counters. *)
Definition u32_sat_add (a b : Z) : Z := Z.min (a + b) u32_max.
Definition u32_sat_sub (a b : Z) : Z := Z.max (a - b) 0.
Definition u32_checked_add (a b : Z) : option Z := to_u32 (a + b).

(** [10_i128.checked_pow(n)]. *)
Definition checked_pow10 (n : Z) : option Z := to_i128 (10 ^ n).

Lemma in_i128b_spec x : in_i128b x = true <-> in_i128 x.
Proof. unfold in_i128b, in_i128. rewrite andb_true_iff, !Z.leb_le. lia. Qed.

Lemma in_u32b_spec x : in_u32b x = true <-> in_u32 x.
Proof. unfold in_u32b, in_u32. rewrite andb_true_iff, !Z.leb_le. lia. Qed.

Lemma to_i128_Some x y : to_i128 x = Some y <-> y = x /\ in_i128 x.
Proof.
  unfold to_i128. destruct (in_i128b x) eqn:E.
  - apply in_i128b_spec in E. naive_solver.
  - split; [done|]. intros [_ H]. apply in_i128b_spec in H. congruence.
Qed.

Lemma to_i128_in x : in_i128 x -> to_i128 x = Some x.
Proof. intros. by apply to_i128_Some. Qed.

Lemma to_u32_Some x y : to_u32 x = Some y <-> y = x /\ in_u32 x.
Proof.
  unfold to_u32. destruct (in_u32b x) eqn:E.
  - apply in_u32b_spec in E. naive_solver.
  - split; [done|]. intros [_ H]. apply in_u32b_spec in H. congruence.
Qed.

Lemma to_u32_in x : in_u32 x -> to_u32 x = Some x.
Proof. intros. by apply to_u32_Some. Qed.

Lemma checked_add_Some a b c : checked_add a b = Some c <-> c = a + b /\ in_i128 (a + b).
Proof. apply to_i128_Some. Qed.
Lemma checked_sub_Some a b c : checked_sub a b = Some c <-> c = a - b /\ in_i128 (a - b).
Proof. apply to_i128_Some. Qed.
Lemma checked_mul_Some a b c : checked_mul a b = Some c <-> c = a * b /\ in_i128 (a * b).
Proof. apply to_i128_Some. Qed.
Lemma checked_div_Some a b c :
  checked_div a b = Some c <-> b <> 0 /\ c = Z.quot a b /\ in_i128 (Z.quot a b).
Proof.
  unfold checked_div. destruct (Z.eqb_spec b 0); [naive_solver|].
  rewrite to_i128_Some. naive_solver.
Qed.

(** Truncating division is floor division on the values the vault handles. *)
Lemma quot_floor a b : 0 <= a -> 0 < b -> Z.quot a b = a / b.
Proof. intros. apply Z.quot_div_nonneg; lia. Qed.

Lemma quot_range a b : in_i128 a -> 0 < b -> in_i128 (Z.quot a b).
Proof.
  unfold in_i128. intros Ha Hb. destruct (decide (0 <= a)).
  - rewrite quot_floor by lia. pose proof (Z.div_pos a b). split; [unfold i128_min; lia|].
    transitivity a; [|lia]. apply Z.div_le_upper_bound; nia.
  - replace a with (- (- a)) by lia. rewrite Z.quot_opp_l by lia.
    rewrite quot_floor by lia. pose proof (Z.div_pos (- a) b).
    assert (- a / b <= - a) by (apply Z.div_le_upper_bound; nia).
    unfold i128_min, i128_max in *. lia.
Qed.

Lemma clamp_in x : in_i128 x -> clamp_i128 x = x.
Proof. unfold in_i128, clamp_i128. lia. Qed.

Lemma clamp_range x : in_i128 (clamp_i128 x).
Proof. unfold in_i128, clamp_i128, i128_min, i128_max. lia. Qed.

Lemma clamp_mono x y : x <= y -> clamp_i128 x <= clamp_i128 y.
Proof. unfold clamp_i128. lia. Qed.

Lemma clamp_nonneg x : 0 <= x -> 0 <= clamp_i128 x <= x.
Proof. unfold clamp_i128, i128_min, i128_max. lia. Qed.

Lemma i128_bounds : i128_min < -1 /\ 1 < i128_max.
Proof. unfold i128_min, i128_max. lia. Qed.

(** ** Sums over consecutive ledgers *)

(** [f a + f (a+1) + ... ], [n] terms. *)
Fixpoint sum_from (f : Z -> Z) (a : Z) (n : nat) : Z :=
  match n with O => 0 | S n => f a + sum_from f (a + 1) n end.

Lemma sum_from_app f a n m :
  sum_from f a (n + m) = sum_from f a n + sum_from f (a + Z.of_nat n) m.
Proof.
  revert a. induction n as [|n IH]; intros a; cbn [sum_from Nat.add].
  { by replace (a + Z.of_nat 0) with a by lia. }
  rewrite IH. replace (a + 1 + Z.of_nat n) with (a + Z.of_nat (S n)) by lia. lia.
Qed.

Lemma sum_from_ext f g a n :
  (forall i, a <= i < a + Z.of_nat n -> f i = g i) -> sum_from f a n = sum_from g a n.
Proof.
  revert a. induction n as [|n IH]; intros a H; simpl; [done|].
  rewrite H by lia. f_equal. apply IH. intros i Hi. apply H. lia.
Qed.

Lemma sum_from_const f c a n :
  (forall i, a <= i < a + Z.of_nat n -> f i = c) -> sum_from f a n = c * Z.of_nat n.
Proof.
  revert a. induction n as [|n IH]; intros a H; cbn [sum_from]; [lia|].
  rewrite H, IH by (intros; try apply H; lia). lia.
Qed.

Lemma sum_from_nonneg_range f a n :
  (forall i, a <= i < a + Z.of_nat n -> 0 <= f i) -> 0 <= sum_from f a n.
Proof.
  revert a. induction n as [|n IH]; intros a H; cbn [sum_from]; [lia|].
  pose proof (H a ltac:(lia)). pose proof (IH (a + 1) ltac:(intros; apply H; lia)). lia.
Qed.

Lemma sum_from_nonneg f a n : (forall i, 0 <= f i) -> 0 <= sum_from f a n.
Proof. intros. by apply sum_from_nonneg_range. Qed.

(** Splitting a window at [b]. *)
Lemma sum_from_split f a b c :
  a <= b <= c ->
  sum_from f a (Z.to_nat (c - a)) =
  sum_from f a (Z.to_nat (b - a)) + sum_from f b (Z.to_nat (c - b)).
Proof.
  intros. replace (Z.to_nat (c - a)) with (Z.to_nat (b - a) + Z.to_nat (c - b))%nat by lia.
  rewrite sum_from_app. do 2 f_equal. lia.
Qed.

(** ** Sums over lists *)

Definition sum_of {A} (f : A -> Z) (l : list A) : Z := foldr (fun x a => f x + a) 0 l.

Lemma sum_of_app {A} (f : A -> Z) l k : sum_of f (l ++ k) = sum_of f l + sum_of f k.
Proof. unfold sum_of. induction l; simpl; lia. Qed.
Lemma sum_of_nonneg {A} (f : A -> Z) l : Forall (fun x => 0 <= f x) l -> 0 <= sum_of f l.
Proof. induction 1; simpl; lia. Qed.
Lemma sum_of_ext {A} (f g : A -> Z) l : (forall x, x ∈ l -> f x = g x) -> sum_of f l = sum_of g l.
Proof.
  induction l as [|x l IH]; intros H; [done|]. simpl.
  rewrite (H x) by set_solver. rewrite IH; [done|]. intros y Hy. apply H. set_solver.
Qed.
Lemma sum_of_perm {A} (f : A -> Z) l k : l ≡ₚ k -> sum_of f l = sum_of f k.
Proof. unfold sum_of. induction 1; simpl; lia. Qed.

Lemma sum_of_insert {A} (f : A -> Z) l i x y :
  l !! i = Some x -> sum_of f (<[i := y]> l) = sum_of f l - f x + f y.
Proof.
  intros H. rewrite insert_take_drop by (by eapply lookup_lt_Some).
  rewrite <- (take_drop_middle l i x H) at 3. rewrite !sum_of_app. simpl. lia.
Qed.
Lemma sum_of_delete {A} (f : A -> Z) l i x :
  l !! i = Some x -> sum_of f (delete i l) = sum_of f l - f x.
Proof.
  intros H. rewrite delete_take_drop. rewrite <- (take_drop_middle l i x H) at 3.
  rewrite !sum_of_app. simpl. lia.
Qed.

Lemma sum_of_le {A} (f g : A -> Z) l : (forall x, x ∈ l -> f x <= g x) -> sum_of f l <= sum_of g l.
Proof.
  induction l as [|x l IH]; intros H; simpl; [lia|]. pose proof (H x ltac:(set_solver)).
  assert (sum_of f l <= sum_of g l) by (apply IH; intros y Hy; apply H; set_solver). lia.
Qed.

(** A summand over part of a list of non-negative terms. *)
Lemma sum_of_sub {A} (f : A -> Z) l k :
  NoDup l -> (forall x, x ∈ l -> x ∈ k) -> (forall x, 0 <= f x) -> sum_of f l <= sum_of f k.
Proof.
  intros Hl Hsub Hf. apply NoDup_submseteq in Hsub; [|done]. apply submseteq_Permutation in Hsub as [m Hm].
  rewrite (sum_of_perm f _ _ Hm), sum_of_app.
  pose proof (sum_of_nonneg f m ltac:(by apply Forall_true)). lia.
Qed.

(** Changing the summand at one member of a duplicate-free list. *)
Lemma sum_of_change {A} (f g : A -> Z) l x :
  NoDup l -> x ∈ l -> (forall y, y <> x -> f y = g y) -> sum_of g l = sum_of f l - f x + g x.
Proof.
  intros Hnd Hin Hne. apply list_elem_of_split in Hin as (l1 & l2 & ->).
  apply NoDup_app in Hnd as (_ & Hd1 & Hd2). apply NoDup_cons in Hd2 as [Hx2 _].
  rewrite !sum_of_app. simpl. rewrite (sum_of_ext f g l1), (sum_of_ext f g l2); [lia| |].
  - intros y Hy. apply Hne. by intros ->.
  - intros y Hy. apply Hne. intros ->. apply (Hd1 x Hy). set_solver.
Qed.

(** [f] sums to [t]: zero outside a finite set. *)
Definition sums_to {A} (f : A -> Z) (t : Z) : Prop :=
  exists us, NoDup us /\ (forall u, u ∉ us -> f u = 0) /\ t = sum_of f us.

Lemma sums_to_ext {A} (f g : A -> Z) t : (forall u, g u = f u) -> sums_to f t -> sums_to g t.
Proof.
  intros He (us & H1 & H2 & H3). exists us. split; [done|]. split; [intros u Hu; by rewrite He, H2|].
  rewrite H3. apply sum_of_ext. intros. by rewrite He.
Qed.
Lemma sums_to_zero {A} : sums_to (fun _ : A => 0) 0.
Proof. exists []. by split; [constructor|]. Qed.
Lemma sums_to_change {A} `{EqDecision A} (f g : A -> Z) t u d :
  sums_to f t -> (forall v, v <> u -> g v = f v) -> g u = f u + d -> sums_to g (t + d).
Proof.
  intros (us & Hnd & H0 & ->) Hne Hu. destruct (decide (u ∈ us)) as [Hin|Hin].
  - exists us. split; [done|]. split.
    + intros v Hv. rewrite Hne by (by intros ->). by apply H0.
    + rewrite (sum_of_change f g us u Hnd Hin); [lia|]. intros v Hv. symmetry. by apply Hne.
  - exists (u :: us). split; [by constructor|]. split.
    + intros v Hv. rewrite Hne by set_solver. apply H0. set_solver.
    + simpl. fold (sum_of g us). rewrite (sum_of_ext g f us) by (intros v Hv; apply Hne; by intros ->).
      rewrite Hu, (H0 u Hin). unfold sum_of. lia.
Qed.
Lemma sums_to_bound {A} `{EqDecision A} (f : A -> Z) t u : (forall v, 0 <= f v) -> sums_to f t -> f u <= t.
Proof.
  intros Hp (us & Hnd & H0 & ->). destruct (decide (u ∈ us)) as [Hin|Hin]; [|rewrite H0 by done; by apply sum_of_nonneg, Forall_true].
  transitivity (sum_of f [u]); [simpl; lia|]. apply sum_of_sub; [apply NoDup_singleton|set_solver|done].
Qed.

(** The same for a sum over an interval. *)
Lemma sum_from_change f g a n i :
  a <= i < a + Z.of_nat n -> (forall j, j <> i -> f j = g j) ->
  sum_from g a n = sum_from f a n - f i + g i.
Proof.
  revert a. induction n as [|n IH]; intros a Hi Hne; cbn [sum_from]; [lia|].
  destruct (decide (i = a)) as [->|Ha].
  - rewrite (sum_from_ext f g (a + 1)); [lia|]. intros j Hj. apply Hne. lia.
  - rewrite IH by (lia || done). rewrite (Hne a) by done. lia.
Qed.

#[global] Arguments i128_min : simpl never.
#[global] Arguments i128_max : simpl never.
#[global] Arguments u32_max : simpl never.
