(* ===== verification/Errors.v ===== *)
(** * Error enums of the contract

    The [contracterror] enums of [src/src/errors.rs] that the modelled
    operations return, one module per enum with the source's variants, the
    numeric code each carries on the wire, and the [From] conversions that the
    [?] operator applies at call sites. *)

From S2P Require Import Prelude.

(** [impl From<E1> for E2]: the conversion inserted by [?]. *)
Class From (E1 E2 : Type) := from : E1 -> E2.

#[global] Instance from_refl {E} : From E E := fun e => e.

(** [VaultError] ([errors.rs]). *)
Module VaultError.

Inductive t : Set :=
| NotInitialized
| AlreadyInitialized
| Unauthorized
| ZeroAmount
| InsufficientShares
| VaultPaused
| InvalidTokenInterface
| ArithmeticError
| WithdrawalLimitExceeded
| InvalidPenaltyBps
| BelowMinimumStake
| TooManyBoostTiers
| InvalidBoostSchedule
| InsufficientRewardPool
| NotADelegate
| CannotRescueStakeToken
| CannotRescueRewardToken
| PositionNotFound
| NotWhitelisted
| UseCooldownFlow
| UnstakeFeeTooHigh
| BatchTooLarge
| TooManyStakers
| RecipientAlreadyStaking
| CampaignAlreadyActive
| NoCampaignActive
| DepositorCapReached
| PageSizeTooLarge
| KycNotApproved
| ContractStopped
| PoolCapReached
| DescriptionTooLong
| NonMonotonicWaveId
| TooManyActiveUsers
| InvalidAddress
| RateTooHigh
| MaxPositionsReached
| MaxPositionsTooHigh
| BatchKycTooLarge
| InvalidRate
| MessageTooLong
| EpochModeConflict
| VestingQueueFull
| NothingToWithdraw
| EpochNotFinalized
| RelayerNotApproved
| NotYieldSource
| InvalidHashLength
| PoolShuttingDown
| NoAdmin.

Definition code (e : t) : Z :=
  match e with
  | NotInitialized => 1
  | AlreadyInitialized => 2
  | Unauthorized => 3
  | ZeroAmount => 4
  | InsufficientShares => 5
  | VaultPaused => 6
  | InvalidTokenInterface => 7
  | ArithmeticError => 8
  | WithdrawalLimitExceeded => 9
  | InvalidPenaltyBps => 10
  | BelowMinimumStake => 11
  | TooManyBoostTiers => 12
  | InvalidBoostSchedule => 13
  | InsufficientRewardPool => 14
  | NotADelegate => 15
  | CannotRescueStakeToken => 16
  | CannotRescueRewardToken => 17
  | PositionNotFound => 18
  | NotWhitelisted => 19
  | UseCooldownFlow => 20
  | UnstakeFeeTooHigh => 21
  | BatchTooLarge => 22
  | TooManyStakers => 23
  | RecipientAlreadyStaking => 24
  | CampaignAlreadyActive => 25
  | NoCampaignActive => 26
  | DepositorCapReached => 27
  | PageSizeTooLarge => 28
  | KycNotApproved => 29
  | ContractStopped => 30
  | PoolCapReached => 31
  | DescriptionTooLong => 32
  | NonMonotonicWaveId => 33
  | TooManyActiveUsers => 34
  | InvalidAddress => 35
  | RateTooHigh => 36
  | MaxPositionsReached => 37
  | MaxPositionsTooHigh => 38
  | BatchKycTooLarge => 39
  | InvalidRate => 40
  | MessageTooLong => 41
  | EpochModeConflict => 42
  | VestingQueueFull => 43
  | NothingToWithdraw => 44
  | EpochNotFinalized => 45
  | RelayerNotApproved => 46
  | NotYieldSource => 47
  | InvalidHashLength => 48
  | PoolShuttingDown => 49
  | NoAdmin => 50
  end.

#[global] Instance t_eq_dec : EqDecision t.
Proof. solve_decision. Defined.

End VaultError.

(** [VaultExtError] ([errors.rs]). *)
Module VaultExtError.

Inductive t : Set :=
| Unauthorized
| NotInitialized
| ZeroAmount
| ArithmeticError
| AlreadyInitialized
| PositionNotFound
| InvalidInsuranceRate
| TooManyPositions
| TooManyRecipients
| InvalidFeeAllocation
| TooManyPendingActions
| ActionNotFound
| ActionNotYetExecutable
| InvalidMultisigConfig
| TooManyProposals
| NotAMultisigAdmin
| AlreadyApproved
| ProposalNotReady
| RollbackUnavailable
| SlippageExceeded
| UnsupportedInputToken
| InvalidSplitAmount
| MerkleInvalidProof
| MerkleAlreadyClaimed
| TournamentAlreadyExists
| TournamentNotEnded
| TournamentNotFound
| TooManyPools
| BuybackNotEnabled
| BuybackThresholdNotMet
| RateLimitExceeded
| InvalidBootstrapConfig
| CircularDelegation
| ChainTooLong
| IneligibleForCertificate
| InvalidSmoothingConfig
| ReferralDepthTooDeep
| AuctionNotFound
| InvalidAuctionConfig
| AuctionAlreadyActive
| AuctionClosed
| AuctionNotEnded
| BidBelowMinimum
| TooManyBids
| LotteryAlreadyActive
| LotteryNotReady
| TooManyMilestones
| NoOracleConfigured
| BelowVetoThreshold
| AlreadyVetoed.

Definition code (e : t) : Z :=
  match e with
  | Unauthorized => 1
  | NotInitialized => 2
  | ZeroAmount => 3
  | ArithmeticError => 4
  | AlreadyInitialized => 5
  | PositionNotFound => 6
  | InvalidInsuranceRate => 7
  | TooManyPositions => 8
  | TooManyRecipients => 9
  | InvalidFeeAllocation => 10
  | TooManyPendingActions => 11
  | ActionNotFound => 12
  | ActionNotYetExecutable => 13
  | InvalidMultisigConfig => 14
  | TooManyProposals => 15
  | NotAMultisigAdmin => 16
  | AlreadyApproved => 17
  | ProposalNotReady => 18
  | RollbackUnavailable => 19
  | SlippageExceeded => 20
  | UnsupportedInputToken => 21
  | InvalidSplitAmount => 22
  | MerkleInvalidProof => 23
  | MerkleAlreadyClaimed => 24
  | TournamentAlreadyExists => 25
  | TournamentNotEnded => 26
  | TournamentNotFound => 27
  | TooManyPools => 28
  | BuybackNotEnabled => 29
  | BuybackThresholdNotMet => 30
  | RateLimitExceeded => 31
  | InvalidBootstrapConfig => 32
  | CircularDelegation => 33
  | ChainTooLong => 34
  | IneligibleForCertificate => 35
  | InvalidSmoothingConfig => 36
  | ReferralDepthTooDeep => 37
  | AuctionNotFound => 38
  | InvalidAuctionConfig => 39
  | AuctionAlreadyActive => 40
  | AuctionClosed => 41
  | AuctionNotEnded => 42
  | BidBelowMinimum => 43
  | TooManyBids => 44
  | LotteryAlreadyActive => 45
  | LotteryNotReady => 46
  | TooManyMilestones => 47
  | NoOracleConfigured => 48
  | BelowVetoThreshold => 49
  | AlreadyVetoed => 50
  end.

#[global] Instance t_eq_dec : EqDecision t.
Proof. solve_decision. Defined.

End VaultExtError.

(** [VaultFeatureError] ([errors.rs]). *)
Module VaultFeatureError.

Inductive t : Set :=
| Unauthorized
| NotInitialized
| ZeroAmount
| ArithmeticError
| PositionNotFound
| VaultPaused
| InsufficientRewardPool
| InvalidBrandingField
| InvalidInsuranceConfig
| InsuranceProductNotSet
| InsuranceAlreadyActive
| InsurancePolicyNotFound
| InsuranceFundInsufficient
| TooManyAffectedUsers
| TooManyStakers
| InvalidSeasonConfig
| TooManySeasons
| SeasonOverlap
| SeasonNotFound
| BioTooLong
| InvalidSunsetTransition
| PositionsStillActive
| InvalidFlashStakeFee
| InvalidLoanConfig
| LoanConfigNotSet
| LoanNotFound
| ExceedsMaxLtv
| LoanNotLiquidatable
| InvalidRevenueShareConfig
| RevenueShareInvalidProof
| RevenueShareAlreadyClaimed
| TooManyAccessTiers
| IneligibleForAccessTier
| UserStillEligible
| InvalidLotSize
| FeeBuybackNotEnabled
| NoDexRouterConfigured
| NotAContractDelegate
| ContractDelegateCapExceeded
| ContractDelegatePerCallExceeded
| PositionCollateralized
| FaceValueExceedsPosition
| DebtNftNotFound
| NotNftHolder
| TooManyCompetitors
| TooManyOpenOffers
| OfferNotFound
| OfferExpired
| NotRequestedCounterparty
| InsufficientAmount.

Definition code (e : t) : Z :=
  match e with
  | Unauthorized => 1
  | NotInitialized => 2
  | ZeroAmount => 3
  | ArithmeticError => 4
  | PositionNotFound => 5
  | VaultPaused => 6
  | InsufficientRewardPool => 7
  | InvalidBrandingField => 8
  | InvalidInsuranceConfig => 9
  | InsuranceProductNotSet => 10
  | InsuranceAlreadyActive => 11
  | InsurancePolicyNotFound => 12
  | InsuranceFundInsufficient => 13
  | TooManyAffectedUsers => 14
  | TooManyStakers => 15
  | InvalidSeasonConfig => 16
  | TooManySeasons => 17
  | SeasonOverlap => 18
  | SeasonNotFound => 19
  | BioTooLong => 20
  | InvalidSunsetTransition => 21
  | PositionsStillActive => 22
  | InvalidFlashStakeFee => 23
  | InvalidLoanConfig => 24
  | LoanConfigNotSet => 25
  | LoanNotFound => 26
  | ExceedsMaxLtv => 27
  | LoanNotLiquidatable => 28
  | InvalidRevenueShareConfig => 29
  | RevenueShareInvalidProof => 30
  | RevenueShareAlreadyClaimed => 31
  | TooManyAccessTiers => 32
  | IneligibleForAccessTier => 33
  | UserStillEligible => 34
  | InvalidLotSize => 35
  | FeeBuybackNotEnabled => 36
  | NoDexRouterConfigured => 37
  | NotAContractDelegate => 38
  | ContractDelegateCapExceeded => 39
  | ContractDelegatePerCallExceeded => 40
  | PositionCollateralized => 41
  | FaceValueExceedsPosition => 42
  | DebtNftNotFound => 43
  | NotNftHolder => 44
  | TooManyCompetitors => 45
  | TooManyOpenOffers => 46
  | OfferNotFound => 47
  | OfferExpired => 48
  | NotRequestedCounterparty => 49
  | InsufficientAmount => 50
  end.

#[global] Instance t_eq_dec : EqDecision t.
Proof. solve_decision. Defined.

End VaultFeatureError.

(** [VaultQuizError] ([errors.rs]). *)
Module VaultQuizError.

Inductive t : Set :=
| Unauthorized
| NotInitialized
| ZeroAmount
| ArithmeticError
| VaultPaused
| QuizNotFound
| QuizAlreadyCompleted
| QuizMaxAttemptsReached
| TooManyQuizzes
| TipTooLong
| AlreadySubmittedToday
| TooManyTipsToday
| TipNotFound
| AlreadyVotedToday
| AdminProposalNotFound
| AdminProposalAlreadyCancelled
| AdminProposalAlreadyExecuted
| AdminProposalNotYetExecutable
| InvalidHashLength
| InputTooLong.

Definition code (e : t) : Z :=
  match e with
  | Unauthorized => 1
  | NotInitialized => 2
  | ZeroAmount => 3
  | ArithmeticError => 4
  | VaultPaused => 5
  | QuizNotFound => 6
  | QuizAlreadyCompleted => 7
  | QuizMaxAttemptsReached => 8
  | TooManyQuizzes => 9
  | TipTooLong => 10
  | AlreadySubmittedToday => 11
  | TooManyTipsToday => 12
  | TipNotFound => 13
  | AlreadyVotedToday => 14
  | AdminProposalNotFound => 15
  | AdminProposalAlreadyCancelled => 16
  | AdminProposalAlreadyExecuted => 17
  | AdminProposalNotYetExecutable => 18
  | InvalidHashLength => 19
  | InputTooLong => 20
  end.

#[global] Instance t_eq_dec : EqDecision t.
Proof. solve_decision. Defined.

End VaultQuizError.

(** [VaultCampaignError] ([errors.rs]). *)
Module VaultCampaignError.

Inductive t : Set :=
| Unauthorized
| NotInitialized
| ZeroAmount
| ArithmeticError
| PositionNotFound
| VaultPaused
| RecoveryNotConfigured
| RecoveryNotTriggered
| RecoveryOnCooldown
| InvalidRecoveryConfig
| NoActiveLoan
| LockdropAlreadyActive
| LockdropNotActive
| LockdropEnded
| LockdropNotEnded
| LockdropNotFinalized
| LockdropAlreadyFinalized
| AlreadyCommitted
| CommitmentNotFound
| LockStillActive
| AlreadyClaimed
| NothingToClaim
| LockdropFull
| InvalidLockDuration
| OracleNotConfigured
| BelowHumanityMinStake
| InvalidHumanityConfig
| TooManyRoadmapItems
| RoadmapItemNotFound
| TitleTooLong
| VoteBudgetExceeded
| InvalidVoteWeight
| RegionCodeTooLong
| InvalidRegionCode
| InvalidHashLength
| InputTooLong
| TooManyRegionTags.

Definition code (e : t) : Z :=
  match e with
  | Unauthorized => 1
  | NotInitialized => 2
  | ZeroAmount => 3
  | ArithmeticError => 4
  | PositionNotFound => 5
  | VaultPaused => 6
  | RecoveryNotConfigured => 7
  | RecoveryNotTriggered => 8
  | RecoveryOnCooldown => 9
  | InvalidRecoveryConfig => 10
  | NoActiveLoan => 11
  | LockdropAlreadyActive => 12
  | LockdropNotActive => 13
  | LockdropEnded => 14
  | LockdropNotEnded => 15
  | LockdropNotFinalized => 16
  | LockdropAlreadyFinalized => 17
  | AlreadyCommitted => 18
  | CommitmentNotFound => 19
  | LockStillActive => 20
  | AlreadyClaimed => 21
  | NothingToClaim => 22
  | LockdropFull => 23
  | InvalidLockDuration => 24
  | OracleNotConfigured => 25
  | BelowHumanityMinStake => 26
  | InvalidHumanityConfig => 27
  | TooManyRoadmapItems => 28
  | RoadmapItemNotFound => 29
  | TitleTooLong => 30
  | VoteBudgetExceeded => 31
  | InvalidVoteWeight => 32
  | RegionCodeTooLong => 33
  | InvalidRegionCode => 34
  | InvalidHashLength => 35
  | InputTooLong => 36
  | TooManyRegionTags => 35
  end.

#[global] Instance t_eq_dec : EqDecision t.
Proof. solve_decision. Defined.

End VaultCampaignError.

(** [VaultOpsError] ([errors.rs]). *)
Module VaultOpsError.

Inductive t : Set :=
| Unauthorized
| NotInitialized
| ZeroAmount
| ArithmeticError
| RateTooHigh
| InsufficientRunway
| InvalidRunway
| RecoveryAlreadyPending
| RecoveryNotPending
| RecoveryDelayNotElapsed
| InvalidRecoveryConfig
| DynamicRateActive
| FundingBelowMinimum
| NoSurplus
| TreasuryLimitExceeded.

Definition code (e : t) : Z :=
  match e with
  | Unauthorized => 1
  | NotInitialized => 2
  | ZeroAmount => 3
  | ArithmeticError => 4
  | RateTooHigh => 5
  | InsufficientRunway => 6
  | InvalidRunway => 7
  | RecoveryAlreadyPending => 8
  | RecoveryNotPending => 9
  | RecoveryDelayNotElapsed => 10
  | InvalidRecoveryConfig => 11
  | DynamicRateActive => 12
  | FundingBelowMinimum => 13
  | NoSurplus => 14
  | TreasuryLimitExceeded => 15
  end.

#[global] Instance t_eq_dec : EqDecision t.
Proof. solve_decision. Defined.

End VaultOpsError.

(** [VaultFeature4Error] ([errors.rs]). *)
Module VaultFeature4Error.

Inductive t : Set :=
| Unauthorized
| NotInitialized
| NotPaused
| GracePeriodNotElapsed
| InvalidPauseDuration
| InvalidRateCeiling
| NegativeAccounting
| SharesMismatch
| Undercollateralized.

Definition code (e : t) : Z :=
  match e with
  | Unauthorized => 1
  | NotInitialized => 2
  | NotPaused => 3
  | GracePeriodNotElapsed => 4
  | InvalidPauseDuration => 5
  | InvalidRateCeiling => 6
  | NegativeAccounting => 7
  | SharesMismatch => 8
  | Undercollateralized => 9
  end.

#[global] Instance t_eq_dec : EqDecision t.
Proof. solve_decision. Defined.

End VaultFeature4Error.

(** [VaultFeature5Error] ([errors.rs]). *)
Module VaultFeature5Error.

Inductive t : Set :=
| Unauthorized
| NotInitialized
| InvalidSplitRecipients
| InvalidSplitBpsSum
| UnregisteredToken
| TimelockNotExpired
| ActionNotFound
| AutoCompoundNotEnabled
| NoSharesToTokenize
| NotNftOwner
| WithdrawOnlyMode.

Definition code (e : t) : Z :=
  match e with
  | Unauthorized => 1
  | NotInitialized => 2
  | InvalidSplitRecipients => 3
  | InvalidSplitBpsSum => 4
  | UnregisteredToken => 5
  | TimelockNotExpired => 6
  | ActionNotFound => 7
  | AutoCompoundNotEnabled => 8
  | NoSharesToTokenize => 9
  | NotNftOwner => 10
  | WithdrawOnlyMode => 11
  end.

#[global] Instance t_eq_dec : EqDecision t.
Proof. solve_decision. Defined.

End VaultFeature5Error.

(** [VaultFeature6Error] ([errors.rs]). *)
Module VaultFeature6Error.

Inductive t : Set :=
| Unauthorized
| NotInitialized
| ZeroAmount
| InsufficientShares
| VaultPaused
| ArithmeticError
| WithdrawalLimitExceeded
| UseCooldownFlow
| BelowMinimumStake
| InvalidAmount
| InvalidExpiry
| AllowanceExpired
| InsufficientAllowance
| KeeperLimitReached
| KeeperNotAuthorized
| AutoCompoundNotEnabled
| RewardTokenLimitReached
| RewardTokenAlreadyAdded
| RewardTokenNotFound
| InvalidRate
| InvalidEpochConfig.

Definition code (e : t) : Z :=
  match e with
  | Unauthorized => 1
  | NotInitialized => 2
  | ZeroAmount => 3
  | InsufficientShares => 4
  | VaultPaused => 5
  | ArithmeticError => 6
  | WithdrawalLimitExceeded => 7
  | UseCooldownFlow => 8
  | BelowMinimumStake => 9
  | InvalidAmount => 10
  | InvalidExpiry => 11
  | AllowanceExpired => 12
  | InsufficientAllowance => 13
  | KeeperLimitReached => 14
  | KeeperNotAuthorized => 15
  | AutoCompoundNotEnabled => 16
  | RewardTokenLimitReached => 17
  | RewardTokenAlreadyAdded => 18
  | RewardTokenNotFound => 19
  | InvalidRate => 20
  | InvalidEpochConfig => 21
  end.

#[global] Instance t_eq_dec : EqDecision t.
Proof. solve_decision. Defined.

End VaultFeature6Error.

(** [VaultInvariantError] ([errors.rs]). *)
Module VaultInvariantError.

Inductive t : Set :=
| NegativeBalance.

Definition code (e : t) : Z :=
  match e with
  | NegativeBalance => 1
  end.

#[global] Instance t_eq_dec : EqDecision t.
Proof. solve_decision. Defined.

End VaultInvariantError.

(** [VaultSafetyError] ([errors.rs]). *)
Module VaultSafetyError.

Inductive t : Set :=
| Unauthorized
| NotInitialized
| ZeroAmount
| ArithmeticError
| PositionNotFound
| VaultPaused
| MaxPositionsReached
| InvalidSplitAmount
| IncompatiblePositions
| InvalidBeneficiary
| NoBeneficiary
| InactivityPeriodNotElapsed
| RecipientAlreadyStaking
| DustThresholdNotSet
| NotDustPosition
| PositionLocked
| InvalidTipBps
| EscrowPending.

Definition code (e : t) : Z :=
  match e with
  | Unauthorized => 1
  | NotInitialized => 2
  | ZeroAmount => 3
  | ArithmeticError => 4
  | PositionNotFound => 5
  | VaultPaused => 6
  | MaxPositionsReached => 7
  | InvalidSplitAmount => 8
  | IncompatiblePositions => 9
  | InvalidBeneficiary => 10
  | NoBeneficiary => 11
  | InactivityPeriodNotElapsed => 12
  | RecipientAlreadyStaking => 13
  | DustThresholdNotSet => 14
  | NotDustPosition => 15
  | PositionLocked => 16
  | InvalidTipBps => 17
  | EscrowPending => 18
  end.

#[global] Instance t_eq_dec : EqDecision t.
Proof. solve_decision. Defined.

End VaultSafetyError.

(** [StrategyError] ([errors.rs]). *)
Module StrategyError.

Inductive t : Set :=
| Unauthorized
| NotInitialized
| ArithmeticError
| ZeroAmount
| IdleBufferBreached
| StrategyDisabled
| StrategyNotFound
| InvalidRatio
| InvalidFee
| AdapterFailed
| NoLoss.

Definition code (e : t) : Z :=
  match e with
  | Unauthorized => 1
  | NotInitialized => 2
  | ArithmeticError => 3
  | ZeroAmount => 4
  | IdleBufferBreached => 5
  | StrategyDisabled => 6
  | StrategyNotFound => 7
  | InvalidRatio => 8
  | InvalidFee => 9
  | AdapterFailed => 10
  | NoLoss => 11
  end.

#[global] Instance t_eq_dec : EqDecision t.
Proof. solve_decision. Defined.

End StrategyError.

(** [VaultLockError] ([errors.rs]). *)
Module VaultLockError.

Inductive t : Set :=
| NotInitialized
| Unauthorized
| ZeroAmount
| InsufficientShares
| VaultPaused
| ArithmeticError
| WithdrawalLimitExceeded
| PositionNotFound
| UseCooldownFlow
| PositionLocked
| LockDurationTooLong
| InvalidLockBoostSchedule
| TooManyLockBoostTiers
| LockAlreadyActive
| WithdrawOnlyMode.

Definition code (e : t) : Z :=
  match e with
  | NotInitialized => 1
  | Unauthorized => 3
  | ZeroAmount => 4
  | InsufficientShares => 5
  | VaultPaused => 6
  | ArithmeticError => 8
  | WithdrawalLimitExceeded => 9
  | PositionNotFound => 18
  | UseCooldownFlow => 20
  | PositionLocked => 51
  | LockDurationTooLong => 52
  | InvalidLockBoostSchedule => 53
  | TooManyLockBoostTiers => 54
  | LockAlreadyActive => 55
  | WithdrawOnlyMode => 56
  end.

#[global] Instance t_eq_dec : EqDecision t.
Proof. solve_decision. Defined.

End VaultLockError.

Definition VaultExtError_from_VaultError (e : VaultError.t) : VaultExtError.t :=
  match e with
  | VaultError.Unauthorized => VaultExtError.Unauthorized
  | VaultError.NotInitialized => VaultExtError.NotInitialized
  | VaultError.ZeroAmount => VaultExtError.ZeroAmount
  | VaultError.ArithmeticError => VaultExtError.ArithmeticError
  | VaultError.PositionNotFound => VaultExtError.PositionNotFound
  | _ => VaultExtError.Unauthorized
  end.
#[global] Instance from_VaultExtError : From VaultError.t VaultExtError.t := VaultExtError_from_VaultError.

Definition VaultFeatureError_from_VaultError (e : VaultError.t) : VaultFeatureError.t :=
  match e with
  | VaultError.Unauthorized => VaultFeatureError.Unauthorized
  | VaultError.NotInitialized => VaultFeatureError.NotInitialized
  | VaultError.ZeroAmount => VaultFeatureError.ZeroAmount
  | VaultError.ArithmeticError => VaultFeatureError.ArithmeticError
  | VaultError.PositionNotFound => VaultFeatureError.PositionNotFound
  | VaultError.VaultPaused => VaultFeatureError.VaultPaused
  | VaultError.InsufficientRewardPool => VaultFeatureError.InsufficientRewardPool
  | _ => VaultFeatureError.Unauthorized
  end.
#[global] Instance from_VaultFeatureError : From VaultError.t VaultFeatureError.t := VaultFeatureError_from_VaultError.

Definition VaultQuizError_from_VaultError (e : VaultError.t) : VaultQuizError.t :=
  match e with
  | VaultError.Unauthorized => VaultQuizError.Unauthorized
  | VaultError.NotInitialized => VaultQuizError.NotInitialized
  | VaultError.ZeroAmount => VaultQuizError.ZeroAmount
  | VaultError.ArithmeticError => VaultQuizError.ArithmeticError
  | VaultError.VaultPaused => VaultQuizError.VaultPaused
  | _ => VaultQuizError.Unauthorized
  end.
#[global] Instance from_VaultQuizError : From VaultError.t VaultQuizError.t := VaultQuizError_from_VaultError.

Definition VaultCampaignError_from_VaultError (e : VaultError.t) : VaultCampaignError.t :=
  match e with
  | VaultError.Unauthorized => VaultCampaignError.Unauthorized
  | VaultError.NotInitialized => VaultCampaignError.NotInitialized
  | VaultError.ZeroAmount => VaultCampaignError.ZeroAmount
  | VaultError.ArithmeticError => VaultCampaignError.ArithmeticError
  | VaultError.PositionNotFound => VaultCampaignError.PositionNotFound
  | VaultError.VaultPaused => VaultCampaignError.VaultPaused
  | _ => VaultCampaignError.Unauthorized
  end.
#[global] Instance from_VaultCampaignError : From VaultError.t VaultCampaignError.t := VaultCampaignError_from_VaultError.

Definition VaultOpsError_from_VaultError (e : VaultError.t) : VaultOpsError.t :=
  match e with
  | VaultError.Unauthorized => VaultOpsError.Unauthorized
  | VaultError.NotInitialized => VaultOpsError.NotInitialized
  | VaultError.ZeroAmount => VaultOpsError.ZeroAmount
  | VaultError.ArithmeticError => VaultOpsError.ArithmeticError
  | VaultError.RateTooHigh => VaultOpsError.RateTooHigh
  | _ => VaultOpsError.Unauthorized
  end.
#[global] Instance from_VaultOpsError : From VaultError.t VaultOpsError.t := VaultOpsError_from_VaultError.

Definition VaultFeature4Error_from_VaultError (e : VaultError.t) : VaultFeature4Error.t :=
  match e with
  | VaultError.Unauthorized => VaultFeature4Error.Unauthorized
  | VaultError.NotInitialized => VaultFeature4Error.NotInitialized
  | _ => VaultFeature4Error.Unauthorized
  end.
#[global] Instance from_VaultFeature4Error : From VaultError.t VaultFeature4Error.t := VaultFeature4Error_from_VaultError.

Definition VaultFeature5Error_from_VaultError (e : VaultError.t) : VaultFeature5Error.t :=
  match e with
  | VaultError.Unauthorized => VaultFeature5Error.Unauthorized
  | VaultError.NotInitialized => VaultFeature5Error.NotInitialized
  | _ => VaultFeature5Error.Unauthorized
  end.
#[global] Instance from_VaultFeature5Error : From VaultError.t VaultFeature5Error.t := VaultFeature5Error_from_VaultError.

Definition VaultFeature6Error_from_VaultError (e : VaultError.t) : VaultFeature6Error.t :=
  match e with
  | VaultError.NotInitialized => VaultFeature6Error.NotInitialized
  | VaultError.ZeroAmount => VaultFeature6Error.ZeroAmount
  | VaultError.InsufficientShares => VaultFeature6Error.InsufficientShares
  | VaultError.VaultPaused => VaultFeature6Error.VaultPaused
  | VaultError.ArithmeticError => VaultFeature6Error.ArithmeticError
  | VaultError.WithdrawalLimitExceeded => VaultFeature6Error.WithdrawalLimitExceeded
  | VaultError.UseCooldownFlow => VaultFeature6Error.UseCooldownFlow
  | VaultError.BelowMinimumStake => VaultFeature6Error.BelowMinimumStake
  | _ => VaultFeature6Error.Unauthorized
  end.
#[global] Instance from_VaultFeature6Error : From VaultError.t VaultFeature6Error.t := VaultFeature6Error_from_VaultError.

Definition VaultSafetyError_from_VaultError (e : VaultError.t) : VaultSafetyError.t :=
  match e with
  | VaultError.Unauthorized => VaultSafetyError.Unauthorized
  | VaultError.NotInitialized => VaultSafetyError.NotInitialized
  | VaultError.ArithmeticError => VaultSafetyError.ArithmeticError
  | VaultError.PositionNotFound => VaultSafetyError.PositionNotFound
  | VaultError.VaultPaused => VaultSafetyError.VaultPaused
  | VaultError.MaxPositionsReached => VaultSafetyError.MaxPositionsReached
  | VaultError.RecipientAlreadyStaking => VaultSafetyError.RecipientAlreadyStaking
  | _ => VaultSafetyError.Unauthorized
  end.
#[global] Instance from_VaultSafetyError : From VaultError.t VaultSafetyError.t := VaultSafetyError_from_VaultError.

Definition StrategyError_from_VaultError (e : VaultError.t) : StrategyError.t :=
  match e with
  | VaultError.Unauthorized => StrategyError.Unauthorized
  | VaultError.NotInitialized => StrategyError.NotInitialized
  | VaultError.ArithmeticError => StrategyError.ArithmeticError
  | VaultError.ZeroAmount => StrategyError.ZeroAmount
  | _ => StrategyError.Unauthorized
  end.
#[global] Instance from_StrategyError : From VaultError.t StrategyError.t := StrategyError_from_VaultError.
