(* ===== verification/Storage.v ===== *)
(** * Contract storage

    The data types kept in contract storage ([src/src/storage.rs] and the
    [contracttype] records of the feature modules), the storage keys, and the
    typed key-value store that stands for [env.storage()].  A key is a
    constructor per storage item, named after the [DataKey] or [StorageKey]
    variant or the constant that holds its [Symbol] in the source; items the
    source keeps under two keys (the structured one and the older raw symbol)
    are two constructors.  The value type of each key is the Rust type stored
    there ([val_ty]). *)

From Stdlib Require Strings.Byte.
From S2P Require Import Prelude.

(** Contract and account addresses are opaque identifiers. *)
Abbreviation Address := positive.

(** Host values: symbols, strings, addresses, integers, booleans, bytes and vectors.  They are
    used for storage locations, event topics and data, and cross-contract
    arguments. *)
Inductive val :=
| VSym (s : string)
| VStr (s : string)
| VAddr (a : Address)
| VInt (z : Z)
| VBool (b : bool)
| VBytes (b : list Byte.byte)
| VVoid
| VVec (l : list val).

(** ** Data types *)

(** [Checkpoint] of [balance_checkpoints.rs]: [balance] applies from [ledger]
    onward; [cumulative] is the sum of balance * ledgers up to [ledger]. *)
Record Checkpoint := mkCheckpoint {
  ck_ledger : Z;
  ck_balance : Z;
  ck_cumulative : Z
}.

(** [ExtraRewardToken] of [multi_reward_tokens.rs]. *)
Record ExtraRewardToken := mkExtraRewardToken {
  xr_token : Address;
  xr_rate_bps : Z;
  xr_acc_per_share : Z;
  xr_last_update : Z;
  xr_pool : Z
}.

(** [ActivityKind] and [ActivityEntry] of [activity_log.rs]. *)
Inductive ActivityKind := Deposit | Withdrawal.
Record ActivityEntry := mkActivityEntry {
  ae_kind : ActivityKind;
  ae_amount : Z;
  ae_shares : Z;
  ae_ledger : Z;
  ae_timestamp : Z
}.

(** [Beneficiary] of [beneficiary_inheritance.rs]. *)
Record Beneficiary := mkBeneficiary {
  bf_beneficiary : Address;
  bf_inactivity_ledgers : Z;
  bf_last_interaction : Z
}.

(** [LockedTranche] of [vault_extensions_546_549.rs]. *)
Record LockedTranche := mkLockedTranche { lt_shares : Z; lt_unlock_at : Z }.

(** [MirrorConfig] of [position_mirroring.rs]. *)
Record MirrorConfig := mkMirrorConfig {
  mc_leader : Address;
  mc_mirror_ratio_bps : Z;
  mc_max_mirror_amount : Z;
  mc_active : bool;
  mc_leader_fee_bps : Z
}.

(** [DailyWithdrawalTracker] of [daily_withdrawal_limit.rs]. *)
Record DailyWithdrawalTracker := mkTracker {
  dw_window_start_ledger : Z;
  dw_withdrawn_today : Z
}.

(** [WithdrawalRequest] of [withdrawal_cooldown.rs]. *)
Record WithdrawalRequest := mkWithdrawalRequest {
  wr_shares : Z;
  wr_requested_at_ledger : Z
}.

(** [StrategyRecord] of [vault_extensions_765_768.rs]. *)
Record StrategyRecord := mkStrategyRecord {
  sr_adapter : Address;
  sr_allocated : Z;
  sr_high_water_mark : Z;
  sr_disabled : bool
}.

(** [TreasurySplit] of [vault_extensions_498_501.rs]. *)
Record TreasurySplit := mkTreasurySplit {
  ts_recipients : list Address;
  ts_bps_shares : list Z
}.

(** [RateChange] of [storage.rs]. *)
Record RateChange := mkRateChange {
  rc_old_rate_bps : Z;
  rc_new_rate_bps : Z;
  rc_changed_at : Z
}.

(** [CampaignInfo], [Season] and [HalvingConfig] of [storage.rs]. *)
Record CampaignInfo := mkCampaignInfo {
  cp_multiplier_bps : Z;
  cp_starts_at_ledger : Z;
  cp_ends_at_ledger : Z
}.
Record Season := mkSeason {
  sn_name : string;
  sn_starts_at : Z;
  sn_ends_at : Z;
  sn_multiplier_bps : Z
}.
Record HalvingConfig := mkHalvingConfig {
  hv_interval_ledgers : Z;
  hv_started_at : Z;
  hv_halving_count : Z;
  hv_floor_rate_bps : Z
}.

(** [AdminAction], [PendingAction], [MultisigConfig] and [AdminProposal] of
    [storage.rs] (issues #195, #196). *)
Inductive AdminAction :=
| SetRewardRate | Pause | Unpause | TransferAdmin | SetLockPeriod | SetCap | Slash | RescueToken
| SetEarlyExitPenalty | SetMinStake | FundRewardPool | AddYield | SetBoostSchedule
| SetNftContract | SetRestakeWindow | SetRewardToken.
Record PendingAction := mkPendingAction {
  pa_id : Z;
  pa_action_type : AdminAction;
  pa_params : list Byte.byte;
  pa_queued_at : Z;
  pa_executable_at : Z
}.
Record MultisigConfig := mkMultisigConfig { ms_admins : list Address; ms_threshold : Z }.
Record AdminProposal := mkAdminProposal {
  ap_id : Z;
  ap_action_type : AdminAction;
  ap_params : list Byte.byte;
  ap_approvals : list Address;
  ap_executed : bool
}.

(** [QueuedAction] and [QueueEntry] of [vault_extensions_502_505.rs]. *)
Record QueuedAction := mkQueuedAction { qa_action : AdminAction; qa_executable_at : Z }.
Record QueueEntry := mkQueueEntry {
  qe_user : Address;
  qe_shares : Z;
  qe_requested_at_timestamp_seconds : Z
}.

(** [AdminProposal] of [time_locked_admin_proposal.rs] (issue #455). *)
Record ConfigProposal := mkConfigProposal {
  ac_id : Z;
  ac_change_type : string;
  ac_new_value : Z;
  ac_announced_at : Z;
  ac_executes_at : Z;
  ac_cancelled : bool;
  ac_executed : bool
}.

(** [AdminRecoveryProposal] of [admin_recovery.rs], [SuccessionPlan] of
    [admin_succession.rs]. *)
Record AdminRecoveryProposal := mkAdminRecoveryProposal {
  rp_new_admin : Address;
  rp_proposed_by : Address;
  rp_proposed_at_ledger : Z;
  rp_executable_at_ledger : Z
}.
Record SuccessionPlan := mkSuccessionPlan {
  sp_heir : Address;
  sp_inactivity_threshold_ledgers : Z;
  sp_last_admin_action_at : Z
}.

(** [PauseReason] and [PauseInfo] of [storage.rs]. *)
Inductive PauseReason :=
| Maintenance | SecurityIncident | RateReconfiguration | CapAdjustment | OtherReason.
Record PauseInfo := mkPauseInfo {
  pi_reason : PauseReason;
  pi_message : string;
  pi_paused_at : Z
}.

(** [ChangelogEntry] of [storage.rs], [RateRamp] of
    [vault_extensions_538_541.rs]. *)
Record ChangelogEntry := mkChangelogEntry {
  cl_change_type : string;
  cl_old_value : Z;
  cl_new_value : Z
}.
Record RateRamp := mkRateRamp {
  rr_start_rate_bps : Z;
  rr_target_rate_bps : Z;
  rr_start_ledger : Z;
  rr_duration_ledgers : Z
}.

(** [EpochConfig] and [EpochState] of [reward_epochs.rs]; [BootstrapConfig] of
    [storage.rs]. *)
Record EpochConfig := mkEpochConfig { ec_length_ledgers : Z; ec_budget_per_epoch : Z }.
Record EpochState := mkEpochState { es_id : Z; es_start : Z; es_emitted : Z }.
Record BootstrapConfig := mkBootstrapConfig {
  bc_initial_rate : Z;
  bc_base_rate : Z;
  bc_started_at : Z;
  bc_duration : Z
}.

(** [AuctionListing] and [AuctionBidRecord] of
    [position_sealed_bid_auction.rs]. *)
Record AuctionListing := mkAuctionListing {
  al_seller : Address;
  al_min_bid : Z;
  al_commit_deadline : Z;
  al_reveal_deadline : Z;
  al_highest_bid : Z;
  al_winner : option Address;
  al_settled : bool;
  al_escrowed_shares : Z
}.
Record AuctionBidRecord := mkAuctionBidRecord {
  ab_hash : list Byte.byte;
  ab_locked_amount : Z;
  ab_revealed : bool;
  ab_amount : Z
}.

(** [CommitmentRecord] of [commitment.rs]. *)
Record CommitmentRecord := mkCommitmentRecord {
  cr_hash : list Byte.byte;
  cr_committed_at : Z;
  cr_revealed : bool
}.

(** [LockdropConfig] and [LockdropCommitment] of [lockdrop_campaign.rs]. *)
Record LockdropConfig := mkLockdropConfig {
  ld_total_reward_pool : Z;
  ld_max_lock_ledgers : Z;
  ld_ends_at : Z;
  ld_finalized : bool
}.
Record LockdropCommitment := mkLockdropCommitment {
  lc_locked_amount : Z;
  lc_lock_duration_ledgers : Z;
  lc_score : Z;
  lc_committed_at : Z
}.

(** [MutualInsuranceConfig] and [MutualLossEvent] of
    [mutual_insurance_pool.rs]. *)
Record MutualInsuranceConfig := mkMutualInsuranceConfig {
  mi_contribution_bps : Z;
  mi_voting_period_ledgers : Z;
  mi_active : bool
}.
Record MutualLossEvent := mkMutualLossEvent {
  ml_claimant : Address;
  ml_requested_amount : Z;
  ml_votes_for : Z;
  ml_votes_against : Z;
  ml_voting_ends_at : Z;
  ml_resolved : bool;
  ml_approved : bool;
  ml_payout_amount : Z
}.

(** [ProposableParam] of [storage.rs]; [ProposalCategory], [CategoryParams],
    [CategorizedProposal], [DelegationRecord] and [StrategyConfig] of
    [vault_extensions_761_764.rs]. *)
Inductive ProposableParam := PRewardRate | PUnstakeFee | PPoolCap | PMinStake.
Inductive ProposalCategory := CParameter | CTreasury | CUpgrade | COther.
Record CategoryParams := mkCategoryParams {
  cg_quorum_bps : Z;
  cg_threshold_bps : Z;
  cg_period_ledgers : Z
}.
Record CategorizedProposal := mkCategorizedProposal {
  pp_id : Z;
  pp_proposer : Address;
  pp_category : ProposalCategory;
  pp_snapshotted_quorum_bps : Z;
  pp_snapshotted_threshold_bps : Z;
  pp_snapshotted_period_ledgers : Z;
  pp_parameter : ProposableParam;
  pp_new_value : Z;
  pp_votes_for : Z;
  pp_votes_against : Z;
  pp_created_at : Z;
  pp_ends_at : Z;
  pp_execution_delay_ledgers : Z;
  pp_bond_amount : Z;
  pp_is_expedited : bool;
  pp_vetoed : bool;
  pp_enacted : bool
}.
Record DelegationRecord := mkDelegationRecord {
  dr_delegate : Address;
  dr_expires_at : option Z
}.
Record StrategyConfig := mkStrategyConfig {
  sc_adapter : Address;
  sc_cap_bps : Z;
  sc_allocated : Z
}.

(** [RewardTokenMovement] of [reward_token_audit_trail.rs], [PendingClaim] of
    [mev_claim_protection.rs], [ValueSnapshot] of
    [position_value_appreciation_log.rs], [PegConfig] of
    [peg_stabilization.rs]. *)
Inductive MovementType :=
| RewardPaid | BuybackBurn | TreasuryWithdraw | InsurancePayout | ReserveTopUp
| DeferredClaim | MutualInsurance.
Record RewardTokenMovement := mkMovement {
  mv_movement_id : Z;
  mv_movement_type : MovementType;
  mv_from : Address;
  mv_to : Address;
  mv_amount : Z;
  mv_triggered_by : string;
  mv_ledger : Z
}.
Record PendingClaim := mkPendingClaim {
  pc_amount : Z;
  pc_executable_at : Z
}.
Record ValueSnapshot := mkValueSnapshot {
  vs_principal : Z;
  vs_pending_reward : Z;
  vs_total_value : Z;
  vs_appreciation_bps_since_last : Z;
  vs_snapshot_at : Z
}.
Record PegConfig := mkPegConfig {
  pg_target_price : Z;
  pg_lower_band_bps : Z;
  pg_upper_band_bps : Z;
  pg_oracle : Address;
  pg_asset_id : string
}.

(** [StakePosition] and [LeaderboardEntry] of [storage.rs]. *)
Record StakePosition := mkStakePosition {
  sp_amount : Z;
  sp_staked_at_ledger : Z;
  sp_last_claim_ledger : Z
}.
Record LeaderboardEntry := mkLeaderboardEntry { lb_staker : Address; lb_amount : Z }.

(** Loans, flash stakes and revenue sharing ([storage.rs]). *)
Record LoanConfig := mkLoanConfig { lc_max_ltv_bps : Z; lc_interest_rate_bps : Z }.
Record Loan := mkLoan {
  ln_principal : Z;
  ln_interest_accrued : Z;
  ln_opened_at : Z;
  ln_last_interest_at : Z
}.
Record FlashStakeReceipt := mkFlashStakeReceipt {
  fs_user : Address; fs_amount : Z; fs_ledger : Z; fs_receipt_id : Z
}.
Record RevenueSharingConfig := mkRevenueSharingConfig { rc_governance_token : Address; rc_share_bps : Z }.
Record RevenueShareMerkleRoot := mkRevenueShareMerkleRoot {
  rr_root : list Byte.byte; rr_epoch : Z; rr_total_amount : Z
}.
Record MerkleRoot := mkMerkleRoot {
  mr_root : list Byte.byte; mr_epoch : Z; mr_total_claimable : Z; mr_published_at : Z
}.

(** Yield smoothing and the capacity auction ([storage.rs]). *)
Record SmoothingSchedule := mkSmoothingSchedule {
  sm_total_amount : Z; sm_released : Z; sm_start_ledger : Z; sm_duration_ledgers : Z
}.
Record SmoothingStatus := mkSmoothingStatus {
  ss_total_amount : Z; ss_released : Z; ss_releasable_now : Z; ss_unreleased : Z;
  ss_start_ledger : Z; ss_duration_ledgers : Z; ss_ledgers_remaining : Z
}.
Record CapacityAuction := mkCapacityAuction {
  ca_spots : Z; ca_min_bid : Z; ca_started_at : Z; ca_ends_at : Z; ca_finalized : bool; ca_total_escrowed : Z
}.
Record AuctionBid := mkAuctionBid { cb_bidder : Address; cb_amount : Z; cb_placed_at : Z }.

(** Swap offers and the prediction market ([storage.rs]). *)
Record SwapOffer := mkSwapOffer {
  so_offerer : Address; so_offered_amount : Z; so_requested_address : Address;
  so_requested_amount : Z; so_expires_at : Z
}.
Record PredictionMarket := mkPredictionMarket {
  pm_closes_at : Z; pm_target_ledger : Z; pm_current_rate_bps : Z;
  pm_bets_higher : Z; pm_bets_lower : Z; pm_resolved : bool; pm_outcome : option bool
}.

(** Epoch distribution and vesting ([storage.rs]); the [EpochState] of
    [storage.rs] is [EpochRound] here, apart from the one of [reward_epochs.rs]. *)
Record EpochRound := mkEpochRound {
  er_epoch_number : Z; er_started_at : Z; er_reward_pool : Z; er_total_staked_snapshot : Z
}.
Record VestingEntry := mkVestingEntry { ve_amount : Z; ve_claimable_at_ledger : Z }.
Inductive StakeAction := SStake | SUnstake.
Record StakeHistoryEntry := mkStakeHistoryEntry { sh_action : StakeAction; sh_amount : Z; sh_ledger : Z }.

(** Governance proposals ([storage.rs]) and the records of
    [governance_params.rs], [guardian_veto.rs], [proposal_cancel.rs] and
    [vote_change.rs]; the stages of the sunset workflow ([storage.rs]). *)
Inductive VoteWeightMode := VLinear | VQuadratic.
Record GovernanceProposal := mkGovernanceProposal {
  gp_id : Z;
  gp_parameter : ProposableParam;
  gp_new_value : Z;
  gp_votes_for : Z;
  gp_votes_against : Z;
  gp_ends_at : Z;
  gp_enacted : bool;
  gp_weight_mode : VoteWeightMode
}.
Record VoteReceipt := mkVoteReceipt { vr_support : bool; vr_weight : Z; vr_ledger : Z }.
Record GovernanceParams := mkGovernanceParams { gm_quorum_bps : Z; gm_pass_threshold_bps : Z }.
Record GuardianVetoRecord := mkGuardianVetoRecord {
  gr_guardian : Address; gr_reason_hash : list Byte.byte; gr_ledger : Z
}.
Record ProposalMeta := mkProposalMeta { mt_proposer : Address; mt_created_at : Z; mt_bond_paid : Z }.
Record VoteRecord := mkVoteRecord { vd_support : bool; vd_weight : Z }.
Inductive SunsetState := Active | SunsetAnnounced | GracePeriodActive | ForceResolutionActive | Closed.

(** Sub-pools ([sub_pool_delegation.rs]) and the keepers that rebalance them
    ([keeper_registry.rs]); meta positions ([meta_staking.rs]); fractions of a
    position ([nft_fractionalize.rs]); the presale ([pool_presale.rs]); slashes
    and their disputes ([slash_dispute.rs]). *)
Record SubPool := mkSubPool {
  sp_id : Z;
  sp_name : string;
  sp_sub_admin : Address;
  sp_reward_rate_bps : Z;
  sp_total_staked : Z;
  sp_max_capacity : Z
}.
Record KeeperRecord := mkKeeperRecord {
  kp_address : Address; kp_registered_at : Z; kp_total_triggers : Z; kp_total_earned : Z; kp_active : bool
}.
Record MetaPosition := mkMetaPosition { mp_meta_staked : Z; mp_meta_staked_at : Z; mp_last_meta_claim_at : Z }.
Record FractionalizedNFT := mkFractionalizedNFT { fx_owner : Address; fx_total_fractions : Z }.
Record PresaleConfig := mkPresaleConfig {
  pz_reservation_fee_bps : Z;
  pz_max_reservation_per_user : Z;
  pz_total_reservation_cap : Z;
  pz_total_reserved : Z;
  pz_opens_at : Z;
  pz_active : bool
}.
Record PresaleReservation := mkPresaleReservation { pv_reserved_amount : Z; pv_fee_paid : Z; pv_redeemed : bool }.
Record SlashRecord := mkSlashRecord { sl_slash_id : Z; sl_user : Address; sl_amount : Z; sl_slashed_at : Z }.
Record SlashDispute := mkSlashDispute {
  di_slash_id : Z;
  di_disputer : Address;
  di_reason : string;
  di_votes_overturn : Z;
  di_votes_uphold : Z;
  di_deadline : Z;
  di_resolved : bool
}.

(** ** Keys *)

(** Instance storage. *)
Inductive inst_key :=
| Admin | AdminRenounced | EmergencyAdmin
| PendingAdmin | PendingAdminLegacy
| Token | RewardToken | Paused | Stopped
| TotalShares | TotalDeposited
| RewardRateBps | RewardPoolBalance | TotalRewardsPaid | RateHistory
| AllStakers | TotalStakers
| StakeDecimals | RewardDecimals
| GlobalRewardIndex | GlobalRewardIndexLegacy
| LastAccumulatorLedger | LastAccumulatorLedgerLegacy
| ExtraTokens
| MaxDepositCap | DepositorCap | DepositorCount | MinSeed
| LowThreshold | LowNotified
| LargeThreshold | LargeHoldback
| StakeHooks
| DailyLimit | CooldownLedgers
| IdleRatio | PerfFee | Strategies | InsuranceReserve
| BoostSchedule | BoostCampaign | Seasons | HalvingCfg | HalvingReduction
| MinPoolSize | RewardsActivatedAt | EpochMode.

(** Persistent storage. *)
Inductive pers_key :=
| ShareBalance (u : Address)
| AccruedReward (u : Address)
| UserRewardCheckpoint (u : Address)
| UserRewardCheckpointLegacy (u : Address)
| UserCheckpoints (u : Address)
| TotalCheckpoints
| ExtraCheckpoint (token u : Address)
| ExtraPending (token u : Address)
| DepositorReg (u : Address)
| ActivityLog (u : Address)
| BeneficiaryOf (u : Address)
| Tranches (u : Address)
| MirrorCfg (u : Address)
| MirrorFollowers (u : Address)
| LegacyTracker (u : Address)
| WithdrawalReq (u : Address)
| RewardRemainder (u : Address)
| RewardCheckpointLedger (u : Address)
| StakedAtLedger (u : Address)
| PLock (u : Address)
| AutoCompound (u : Address).

(** Instance storage of the governance modules and of later features. *)
Inductive gov_key :=
| TimelockDelay | PendingActions | ActionIdCtr
| MultisigCfg | MultisigProposals | ProposalIdCtr
| TlNextId | TlActions
| AcpNextId | AcpList
| RecoveryProposal | SuccessionPlanKey
| MinRunway | MaxRate
| AdminActionCount | LastUpdated | ScheduledUnpause
| SunsetDeadline | WithdrawOnly
| WqEnabled | WqQueue
| PauseInfoKey | PauseDeposits | PauseWithdrawals
| MinUnstake | Reentrancy
| SeasonMarker | EpochCfg | EpochSt | BootstrapCfg
| MinRewardFunding
| Changelog | MaxPause | RepauseCooldown | StoppedSym | RateRampKey
| NftOwners | NftBalances | NextNftId
| Guardian | TreasurySplitKey.

(** Temporary storage. *)
Inductive temp_key :=
| DailyTracker (u : Address).

(** Storage of the auction, campaign and proposal modules, instance and
    persistent: [position_sealed_bid_auction.rs], [commitment.rs],
    [lockdrop_campaign.rs], [mutual_insurance_pool.rs],
    [vault_extensions_761_764.rs]. *)
Inductive feat_key :=
| AucNextId | AucListing (id : Z) | AucSeller (u : Address)
| AucBid (id : Z) (u : Address) | AucBidders (id : Z) | SlashTreasury
| CmtWindow | CmtRecord (u : Address)
| LdConfig | LdTotalScore | LdCommitters
| LdCommitment (u : Address) | LdAllocation (u : Address) | LdClaimed (u : Address)
| MiConfig | MiFund | MiNextEvent
| MiMember (u : Address) | MiEvent (id : Z) | MiVoted (id : Z) (u : Address)
| CatParams (c : ProposalCategory) | CatProposals (id : Z) | NextCatPropId | OpenExpedited
| CatVoted (id : Z) (u : Address) | VoteExp (u : Address) | DelegatorList (u : Address)
| StrategyConfigs | UnstakeFeeBps | PoolCap | MinStake.

(** Storage of the claim path, instance and persistent: [claim_fee.rs],
    [fee_recycle.rs], [stake_funded_bug_bounty.rs], [mev_claim_protection.rs],
    [claim_receipts.rs], [reward_token_audit_trail.rs],
    [position_value_appreciation_log.rs], [peg_stabilization.rs] and the claim
    entrypoints of [vault.rs]. *)
Inductive claim_key :=
| ClaimFeeBps | ClaimFeeReserve | FeeRecycleBps
| BbContribution (u : Address) | BbFund
| MevThreshold | PendingClaimOf (u : Address) | PendingDelayOf (u : Address)
| ClaimCount (u : Address)
| AuditCount | AuditSummary | AuditPage (page : Z)
| ValApp (u : Address)
| GasRebateAmount | GasRebatePool | LastClaimAction (u : Address)
| PegCfg | PegMaxBuy | PegHalted
| DexRouter | OutputTokens | ApprovedRelayer (u : Address).

(** Storage of the operations on positions: [balance.rs],
    [vault_extensions_546_549.rs] and the leaderboard of [vault.rs].  The cap
    on positions is kept under two symbols, one per setter. *)
Inductive pos_key :=
| SplitPositions (u : Address) | LastClaimLedger (u : Address) | StakeHistory (u : Address)
| MaxPositions | MaxPositionsVault
| Leaderboard | LeaderboardSize.

(** Storage of loans, flash stakes, revenue sharing, merkle rewards, yield
    smoothing and pool activation ([balance.rs]). *)
Inductive fin_key :=
| LoanCfg | LoanOf (u : Address)
| FlashFee | FlashSeq | FlashReceipt (id : Z)
| RevCfg | RevPool | RevEpoch | RevMerkle | RevClaimed (u : Address) (epoch : Z)
| MerkleKey | MerkleClaimed (u : Address) (epoch : Z)
| SmoothPeriod | SmoothMin | SmoothSchedule
| ActThreshold | PoolWasActive.

(** Storage of the capacity auction, the swap offers, the prediction market,
    epoch distribution and vesting.  Vesting entries are kept under two keys:
    [VestingEntries] is the [DataKey], [VestSym] the symbol [balance.rs] uses. *)
Inductive mkt_key :=
| CapAuction | AuctBids | PoolSpot (u : Address) | AuctMode
| ShuttingDown | FirstStakedAt (u : Address) | TotalEverStaked | StakeActions (u : Address)
| OfferCount | OfferList | OfferOf (id : Z)
| PredMarket | PredBet (u : Address)
| EpochLedgers | EpochRewardPerEpoch | CurrentEpoch
| EpochRewardFactor (n : Z) | EpochSnap (u : Address) (n : Z) | LastEpochClaimed (u : Address)
| VestingPeriod | VestingEntries (u : Address) | VestSym (u : Address)
| UserEpochCap | FeeHoliday | InsShareBps | FeeReserve.

(** Storage of the governance proposals, their bonds, vetoes and votes, and of
    the sunset workflow. *)
Inductive vot_key :=
| NextProposalId | OpenProposals | GovProposal (id : Z)
| VotedOn (id : Z) (u : Address) | VoteReceiptOf (id : Z) (u : Address)
| VetoBps | VetoerOf (id : Z)
| VoteDelegate (u : Address) | DelegSnap (u : Address) | DelegWeight (u : Address)
| VoteMode
| GovParams | GovSnapshot (id : Z) | GovBase (id : Z)
| VetoDelay | VetoLimit | VetoCount | GuardianVeto (id : Z)
| ProposalBond | CancelCutoff | ProposalMetaOf (id : Z) | Cancelled (id : Z)
| MinProposalStake | ProposalQuorum | BondSettled (id : Z)
| VoteRecordOf (id : Z) (u : Address) | VoteChanges (id : Z) (u : Address) | MaxVoteChanges
| LastVoteLedger (u : Address)
| SunsetSt | GracePeriodEnd.

(** Storage of the sub-pools and keepers, the meta layer, fractions, the
    presale, slash disputes and the guarantor's reserve. *)
Inductive mod_key :=
| SubPools | SubPoolCount | SubPos (u : Address) (id : Z) | SubCheckpoint (u : Address) (id : Z) | SubAccrued (u : Address) (id : Z)
| RbBounds (id : Z) | RbMaxAmount | RbCooldown | RbLastLedger
| KeeperOf (u : Address) | KeeperList
| MetaPosOf (u : Address) | MetaAccrued (u : Address) | MetaRate | TotalMeta
| FrLocked (u : Address) | FrMeta (u : Address) | FrHolders (u : Address) | FrBal (owner holder : Address)
| PresaleCfg | PresaleRes (u : Address)
| DispWindow | NextDispute | OpenDisputes | SlashRec (id : Z) | DisputeOf (id : Z) | SlashToDispute (id : Z) | DispVoted (id : Z) (u : Address)
| GtorAddr | GtorCoverage | GtorReserve | GtorRegistered | GtorInsolvent.

Inductive key :=
| KInst (k : inst_key)
| KPers (k : pers_key)
| KGov (k : gov_key)
| KTemp (k : temp_key)
| KFeat (k : feat_key)
| KClaim (k : claim_key)
| KPos (k : pos_key)
| KFin (k : fin_key)
| KMkt (k : mkt_key)
| KVot (k : vot_key)
| KMod (k : mod_key).
Coercion KInst : inst_key >-> key.
Coercion KPers : pers_key >-> key.
Coercion KGov : gov_key >-> key.
Coercion KTemp : temp_key >-> key.
Coercion KFeat : feat_key >-> key.
Coercion KClaim : claim_key >-> key.
Coercion KPos : pos_key >-> key.
Coercion KFin : fin_key >-> key.
Coercion KMkt : mkt_key >-> key.
Coercion KVot : vot_key >-> key.
Coercion KMod : mod_key >-> key.

#[global] Instance inst_key_eq_dec : EqDecision inst_key.
Proof. solve_decision. Defined.
#[global] Instance pers_key_eq_dec : EqDecision pers_key.
Proof. solve_decision. Defined.
#[global] Instance gov_key_eq_dec : EqDecision gov_key.
Proof. solve_decision. Defined.
#[global] Instance temp_key_eq_dec : EqDecision temp_key.
Proof. solve_decision. Defined.
#[global] Instance proposal_category_eq_dec : EqDecision ProposalCategory.
Proof. solve_decision. Defined.
#[global] Instance feat_key_eq_dec : EqDecision feat_key.
Proof. solve_decision. Defined.
#[global] Instance claim_key_eq_dec : EqDecision claim_key.
Proof. solve_decision. Defined.
#[global] Instance pos_key_eq_dec : EqDecision pos_key.
Proof. solve_decision. Defined.
#[global] Instance fin_key_eq_dec : EqDecision fin_key.
Proof. solve_decision. Defined.
#[global] Instance mkt_key_eq_dec : EqDecision mkt_key.
Proof. solve_decision. Defined.
#[global] Instance vot_key_eq_dec : EqDecision vot_key.
Proof. solve_decision. Defined.
#[global] Instance mod_key_eq_dec : EqDecision mod_key.
Proof. solve_decision. Defined.
#[global] Instance key_eq_dec : EqDecision key.
Proof. solve_decision. Defined.

(** The Rust type stored under each key. *)
Definition inst_ty (k : inst_key) : Type :=
  match k with
  | Admin | EmergencyAdmin | PendingAdmin | PendingAdminLegacy
  | Token | RewardToken => Address
  | AdminRenounced | Paused | Stopped | LowNotified | EpochMode => bool
  | BoostSchedule => list (Z * Z)
  | BoostCampaign => CampaignInfo
  | Seasons => list Season
  | HalvingCfg => HalvingConfig
  | RateHistory => list RateChange
  | AllStakers | StakeHooks => list Address
  | ExtraTokens => list ExtraRewardToken
  | Strategies => list StrategyRecord
  | _ => Z
  end.
Definition pers_ty (k : pers_key) : Type :=
  match k with
  | UserCheckpoints _ | TotalCheckpoints => list Checkpoint
  | DepositorReg _ => bool
  | ActivityLog _ => list ActivityEntry
  | BeneficiaryOf _ => Beneficiary
  | Tranches _ => list LockedTranche
  | MirrorCfg _ => MirrorConfig
  | MirrorFollowers _ => list Address
  | LegacyTracker _ => DailyWithdrawalTracker
  | WithdrawalReq _ => WithdrawalRequest
  | PLock _ => Z * Z
  | AutoCompound _ => bool
  | _ => Z
  end.
Definition gov_ty (k : gov_key) : Type :=
  match k with
  | PendingActions => list PendingAction
  | MultisigCfg => MultisigConfig
  | MultisigProposals => list AdminProposal
  | TlActions => gmap Z QueuedAction
  | AcpList => list ConfigProposal
  | RecoveryProposal => AdminRecoveryProposal
  | SuccessionPlanKey => SuccessionPlan
  | Changelog => list ChangelogEntry
  | RateRampKey => RateRamp
  | Guardian => Address
  | TreasurySplitKey => TreasurySplit
  | NftOwners => gmap Z Address
  | NftBalances => gmap Z Z
  | StoppedSym | WithdrawOnly | WqEnabled | PauseDeposits | PauseWithdrawals | Reentrancy => bool
  | PauseInfoKey => PauseInfo
  | EpochCfg => EpochConfig
  | EpochSt => EpochState
  | BootstrapCfg => BootstrapConfig
  | WqQueue => list QueueEntry
  | _ => Z
  end.
Definition temp_ty (k : temp_key) : Type :=
  match k with DailyTracker _ => DailyWithdrawalTracker end.
Definition feat_ty (k : feat_key) : Type :=
  match k with
  | AucListing _ => AuctionListing
  | AucBid _ _ => AuctionBidRecord
  | AucBidders _ | LdCommitters | DelegatorList _ => list Address
  | SlashTreasury => Address
  | CmtRecord _ => CommitmentRecord
  | LdConfig => LockdropConfig
  | LdCommitment _ => LockdropCommitment
  | LdClaimed _ | MiMember _ | MiVoted _ _ | CatVoted _ _ => bool
  | MiConfig => MutualInsuranceConfig
  | MiEvent _ => MutualLossEvent
  | CatParams _ => CategoryParams
  | CatProposals _ => CategorizedProposal
  | VoteExp _ => DelegationRecord
  | StrategyConfigs => list StrategyConfig
  | _ => Z
  end.
Definition claim_ty (k : claim_key) : Type :=
  match k with
  | PendingClaimOf _ => PendingClaim
  | AuditSummary => Z * Z * Z * Z
  | AuditPage _ => list RewardTokenMovement
  | ValApp _ => list ValueSnapshot
  | PegCfg => PegConfig
  | PegHalted => bool
  | DexRouter | ApprovedRelayer _ => Address
  | OutputTokens => list Address
  | _ => Z
  end.
Definition pos_ty (k : pos_key) : Type :=
  match k with
  | SplitPositions _ => list StakePosition
  | StakeHistory _ => list (Z * Z)
  | Leaderboard => list LeaderboardEntry
  | _ => Z
  end.
Definition fin_ty (k : fin_key) : Type :=
  match k with
  | LoanCfg => LoanConfig
  | LoanOf _ => Loan
  | FlashReceipt _ => FlashStakeReceipt
  | RevCfg => RevenueSharingConfig
  | RevMerkle => RevenueShareMerkleRoot
  | RevClaimed _ _ | MerkleClaimed _ _ | PoolWasActive => bool
  | MerkleKey => MerkleRoot
  | SmoothSchedule => SmoothingSchedule
  | _ => Z
  end.
Definition mkt_ty (k : mkt_key) : Type :=
  match k with
  | CapAuction => CapacityAuction
  | AuctBids => list AuctionBid
  | PoolSpot _ | AuctMode | ShuttingDown => bool
  | StakeActions _ => list StakeHistoryEntry
  | OfferList => list Z
  | OfferOf _ => SwapOffer
  | PredMarket => PredictionMarket
  | PredBet _ => bool * Z
  | CurrentEpoch => EpochRound
  | VestingEntries _ | VestSym _ => list VestingEntry
  | _ => Z
  end.
Definition vot_ty (k : vot_key) : Type :=
  match k with
  | GovProposal _ => GovernanceProposal
  | VotedOn _ _ | Cancelled _ | BondSettled _ => bool
  | VoteReceiptOf _ _ => VoteReceipt
  | VetoerOf _ | VoteDelegate _ => Address
  | VoteMode => VoteWeightMode
  | GovParams | GovSnapshot _ => GovernanceParams
  | GuardianVeto _ => GuardianVetoRecord
  | ProposalMetaOf _ => ProposalMeta
  | VoteRecordOf _ _ => VoteRecord
  | SunsetSt => SunsetState
  | _ => Z
  end.
Definition mod_ty (k : mod_key) : Type :=
  match k with
  | SubPools => list SubPool
  | RbBounds _ => Z * Z
  | KeeperOf _ => KeeperRecord
  | KeeperList | FrHolders _ => list Address
  | MetaPosOf _ => MetaPosition
  | FrLocked _ | DispVoted _ _ => bool
  | FrMeta _ => FractionalizedNFT
  | PresaleCfg => PresaleConfig
  | PresaleRes _ => PresaleReservation
  | SlashRec _ => SlashRecord
  | DisputeOf _ => SlashDispute
  | GtorAddr => Address
  | _ => Z
  end.
Definition val_ty (k : key) : Type :=
  match k with
  | KInst k => inst_ty k
  | KPers k => pers_ty k
  | KGov k => gov_ty k
  | KTemp k => temp_ty k
  | KFeat k => feat_ty k
  | KClaim k => claim_ty k
  | KPos k => pos_ty k
  | KFin k => fin_ty k
  | KMkt k => mkt_ty k
  | KVot k => vot_ty k
  | KMod k => mod_ty k
  end.

(** ** The store *)

Definition store : Type := forall k : key, option (val_ty k).

Definition sempty : store := fun _ => None.
Definition sset (k : key) (v : option (val_ty k)) (st : store) : store :=
  fun k' => match decide (k = k') with
            | left e => eq_rect k (fun k => option (val_ty k)) v k' e
            | right _ => st k'
            end.

Lemma sset_eq k v st : sset k v st k = v.
Proof.
  unfold sset. destruct (decide (k = k)) as [e|]; [|done].
  by rewrite (Eqdep_dec.UIP_dec key_eq_dec e eq_refl).
Qed.

Lemma sset_ne k k' v st : k <> k' -> sset k v st k' = st k'.
Proof. intros. unfold sset. by destruct (decide (k = k')). Qed.

