(* ===== verification/Host.v ===== *)
(** * The Soroban host as the contract sees it

    [World] is everything outside the contract: the SEP-41 tokens it holds and
    the contracts it calls.  It is an interface (a type class of operations);
    theorems that need more than its shape take the laws they use from
    [StandardTokens].  [Env] is the read-only part of [env: &Env]; [State] is
    the contract's storage, the outside world and the events published so far.

    A call is a [M E A]: it ends with a value, with an [Err] of type [E], or
    with a trap (a failed [require_auth], [panic_with_error!], an overflowing
    plain operator, an [unwrap] on [None], a trapping token).  An [Err] keeps
    the writes made so far, because a caller inside the contract may discard
    it ([let _ = ...]); at the contract boundary both failures roll the
    transaction back ([invoke]). *)

From S2P Require Export Prelude Errors Storage.

(** ** The outside world *)

Class World := {
  ext : Type;
  tok_balance : ext -> Address -> Address -> Z;
  tok_transfer : ext -> Address -> Address -> Address -> Z -> option ext;
  tok_decimals : ext -> Address -> option Z;
  (** [env.try_invoke_contract]: [None] when the callee fails, in which case
      the host has rolled its effects back. *)
  ext_call : ext -> Address -> string -> list val -> option (ext * val)
}.

(** The documented behaviour of a SEP-41 token that takes no fee on transfer:
    a successful transfer moves exactly [amt] and touches no other balance. *)
Class StandardTokens (W : World) := {
  std_nonneg : forall w t a, 0 <= tok_balance w t a;
  std_amount : forall w t from to amt w',
    tok_transfer w t from to amt = Some w' -> 0 <= amt <= tok_balance w t from;
  std_moves : forall w t from to amt w', from <> to ->
    tok_transfer w t from to amt = Some w' ->
    tok_balance w' t from = tok_balance w t from - amt /\
    tok_balance w' t to = tok_balance w t to + amt;
  std_self : forall w t a amt w',
    tok_transfer w t a a amt = Some w' ->
    tok_balance w' t a = tok_balance w t a;
  std_frame : forall w t from to amt w' t' a,
    tok_transfer w t from to amt = Some w' ->
    t' <> t \/ (a <> from /\ a <> to) ->
    tok_balance w' t' a = tok_balance w t' a
}.

Record Event := mkEvent { ev_topics : list val; ev_data : list val }.

Inductive trap :=
| TOverflow
| TAuth (a : Address)
| TToken
| TUnwrap
| TBudget  (* the host's CPU budget ran out *)
| TPanic (code : Z).

(** Read-only call context: [env.ledger()], [env.current_contract_address()]
    and the set of addresses that signed the transaction. *)
Record Env := mkEnv {
  sequence : Z;
  timestamp : Z;
  self : Address;
  signed : Address -> bool
}.

Section Monad.
Context {W : World}.

Record State := mkState {
  st_store : store;
  st_ext : ext;
  st_events : list Event
}.

Inductive res (E A : Type) :=
| Ok (a : A) (s : State)
| Err (e : E) (s : State)
| Trap (t : trap).
#[global] Arguments Ok {E A} a s.
#[global] Arguments Err {E A} e s.
#[global] Arguments Trap {E A} t.

Definition M (E A : Type) : Type := State -> res E A.

Definition ret {E A} (a : A) : M E A := fun s => Ok a s.
Definition throw {E A} (e : E) : M E A := fun s => Err e s.
Definition panic {E A} (t : trap) : M E A := fun _ => Trap t.
Definition bind {E A B} (m : M E A) (k : A -> M E B) : M E B :=
  fun s => match m s with
           | Ok a s' => k a s'
           | Err e s' => Err e s'
           | Trap t => Trap t
           end.
(** A storage read: pure, and sees the state at the point of the call. *)
Definition reading {E A B} (f : State -> A) (k : A -> M E B) : M E B :=
  fun s => k (f s) s.

(** ** Storage *)

Definition rd (k : key) (s : State) : option (val_ty k) := st_store s k.
Definition has (k : key) (s : State) : bool :=
  match rd k s with Some _ => true | None => false end.
Definition upd (k : key) (v : option (val_ty k)) (s : State) : State :=
  mkState (sset k v (st_store s)) (st_ext s) (st_events s).
Definition emit (e : Event) (s : State) : State :=
  mkState (st_store s) (st_ext s) (st_events s ++ [e]).
Definition set_ext (w : ext) (s : State) : State :=
  mkState (st_store s) w (st_events s).

Definition put {E} (k : key) (v : val_ty k) : M E unit := fun s => Ok tt (upd k (Some v) s).
Definition del {E} (k : key) : M E unit := fun s => Ok tt (upd k None s).
Definition publish {E} (topics data : list val) : M E unit :=
  fun s => Ok tt (emit (mkEvent topics data) s).

(** ** Guards, options and machine arithmetic *)

Definition fail_if {E} (b : bool) (e : E) : M E unit := if b then throw e else ret tt.
Definition panic_if {E} (b : bool) (t : trap) : M E unit := if b then panic t else ret tt.
Definition ok_or {E A} (o : option A) (e : E) : M E A :=
  match o with Some a => ret a | None => throw e end.
Definition unwrap {E A} (o : option A) : M E A :=
  match o with Some a => ret a | None => panic TUnwrap end.
(** Plain [+], [-], [*] on [i128]: they trap on overflow. *)
Definition plain {E} (o : option Z) : M E Z :=
  match o with Some a => ret a | None => panic TOverflow end.
Definition require_auth {E} (env : Env) (a : Address) : M E unit :=
  if signed env a then ret tt else panic (TAuth a).

(** The [?] operator across error types. *)
Definition try_ {E1 E2 A} `{From E1 E2} (m : M E1 A) : M E2 A :=
  fun s => match m s with
           | Ok a s' => Ok a s'
           | Err e s' => Err (from e) s'
           | Trap t => Trap t
           end.
(** [let _ = m;]: the result is dropped, the writes stay. *)
Definition ignore {E E' A} (m : M E A) : M E' unit :=
  fun s => match m s with
           | Ok _ s' => Ok tt s'
           | Err _ s' => Ok tt s'
           | Trap t => Trap t
           end.
(** The [Result] itself as a value, for callers that inspect it. *)
Definition catch {E E' A} (m : M E A) : M E' (A + E) :=
  fun s => match m s with
           | Ok a s' => Ok (inl a) s'
           | Err e s' => Ok (inr e) s'
           | Trap t => Trap t
           end.

(** ** Tokens and other contracts *)

Definition balance_of (token who : Address) (s : State) : Z :=
  tok_balance (st_ext s) token who.
Definition transfer {E} (token from to : Address) (amt : Z) : M E unit :=
  fun s => match tok_transfer (st_ext s) token from to amt with
           | Some w => Ok tt (set_ext w s)
           | None => Trap TToken
           end.
Definition try_call {E} (c : Address) (fn : string) (args : list val) : M E (option val) :=
  fun s => match ext_call (st_ext s) c fn args with
           | Some (w, v) => Ok (Some v) (set_ext w s)
           | None => Ok None s
           end.

(** A top-level invocation commits on success and rolls back otherwise. *)
Definition invoke {E A} (m : M E A) (s : State) : State :=
  match m s with Ok _ s' => s' | _ => s end.

(** ** Loops over vectors *)

Fixpoint for_each {E A} (l : list A) (f : A -> M E unit) : M E unit :=
  match l with
  | [] => ret tt
  | x :: l => bind (f x) (fun _ => for_each l f)
  end.

End Monad.

Declare Scope vault_scope.
Delimit Scope vault_scope with vault.
Open Scope vault_scope.
Notation "'let!' x ':=' c 'in' k" := (bind c (fun x => k))
  (at level 10, x name, c at level 100, k at level 200) : vault_scope.
Notation "'let&' x ':=' f 'in' k" := (reading f (fun x => k))
  (at level 10, x name, f at level 100, k at level 200) : vault_scope.
Notation "c ';;;' k" := (bind c (fun _ => k))
  (at level 199, k at level 200, right associativity) : vault_scope.

(** ** Reading back what was written *)

Section Store.
Context {W : World}.
Implicit Types s : State.

Lemma rd_upd_eq k v s : rd k (upd k v s) = v.
Proof. apply sset_eq. Qed.
Lemma rd_upd_ne k k' v s : k <> k' -> rd k' (upd k v s) = rd k' s.
Proof. apply sset_ne. Qed.
Lemma rd_emit k e s : rd k (emit e s) = rd k s.
Proof. done. Qed.
Lemma rd_set_ext k w s : rd k (set_ext w s) = rd k s.
Proof. done. Qed.
Lemma balance_of_upd k v t a s : balance_of t a (upd k v s) = balance_of t a s.
Proof. done. Qed.
Lemma balance_of_emit e t a s : balance_of t a (emit e s) = balance_of t a s.
Proof. done. Qed.

End Store.

#[global] Opaque rd upd emit set_ext.

(** [rdsimp] evaluates reads of an updated state. *)
Ltac rd_ne := first [ discriminate | congruence | let H := fresh in intros H; injection H; congruence ].
Ltac rdsimp_step :=
  match goal with
  | |- context [rd ?k (upd ?k _ _)] => rewrite (rd_upd_eq k)
  | |- context [rd ?k' (upd ?k ?v ?s)] => rewrite (rd_upd_ne k k' v s) by rd_ne
  | |- context [rd ?k (emit _ _)] => rewrite rd_emit
  | |- context [rd ?k (set_ext _ _)] => rewrite rd_set_ext
  | |- context [balance_of _ _ (upd _ _ _)] => rewrite balance_of_upd
  | |- context [balance_of _ _ (emit _ _)] => rewrite balance_of_emit
  end.
Ltac rdsimp := repeat rdsimp_step.

(** ** Inversion of successful runs *)

Section Inversion.
Context {W : World} {E A B : Type}.
Implicit Types s : State.

Lemma bind_Ok (m : M E A) (k : A -> M E B) s b s' :
  bind m k s = Ok b s' <-> exists a s1, m s = Ok a s1 /\ k a s1 = Ok b s'.
Proof.
  unfold bind. destruct (m s) as [a s1|e s1|t]; split; try naive_solver.
Qed.
Lemma bind_run (m : M E A) (k : A -> M E B) s a s1 :
  m s = Ok a s1 -> bind m k s = k a s1.
Proof. unfold bind. by intros ->. Qed.
Lemma bind_err (m : M E A) (k : A -> M E B) s e s1 :
  m s = Err e s1 -> bind m k s = Err e s1.
Proof. unfold bind. by intros ->. Qed.
Lemma bind_trap (m : M E A) (k : A -> M E B) s t :
  m s = Trap t -> bind m k s = Trap t.
Proof. unfold bind. by intros ->. Qed.
Lemma ret_Ok (a b : A) s s' : ret (E:=E) a s = Ok b s' <-> b = a /\ s' = s.
Proof. unfold ret. naive_solver. Qed.
Lemma fail_if_Ok c (e : E) s u s' :
  fail_if c e s = Ok u s' <-> c = false /\ u = tt /\ s' = s.
Proof. unfold fail_if, throw, ret. destruct c; naive_solver. Qed.
Lemma panic_if_Ok c t s u s' :
  panic_if (E:=E) c t s = Ok u s' <-> c = false /\ u = tt /\ s' = s.
Proof. unfold panic_if, panic, ret. destruct c; naive_solver. Qed.
Lemma ok_or_Ok (o : option A) (e : E) s a s' :
  ok_or o e s = Ok a s' <-> o = Some a /\ s' = s.
Proof. unfold ok_or, throw, ret. destruct o; naive_solver. Qed.
Lemma unwrap_Ok (o : option A) s a s' :
  unwrap (E:=E) o s = Ok a s' <-> o = Some a /\ s' = s.
Proof. unfold unwrap, panic, ret. destruct o; naive_solver. Qed.
Lemma plain_Ok (o : option Z) s a s' :
  plain (E:=E) o s = Ok a s' <-> o = Some a /\ s' = s.
Proof. unfold plain, panic, ret. destruct o; naive_solver. Qed.
Lemma require_auth_Ok env a s u s' :
  require_auth (E:=E) env a s = Ok u s' <-> signed env a = true /\ u = tt /\ s' = s.
Proof. unfold require_auth, panic, ret. destruct (signed env a); naive_solver. Qed.
Lemma put_Ok k v s u s' : put (E:=E) k v s = Ok u s' <-> u = tt /\ s' = upd k (Some v) s.
Proof. unfold put. naive_solver. Qed.
Lemma del_Ok k s u s' : del (E:=E) k s = Ok u s' <-> u = tt /\ s' = upd k None s.
Proof. unfold del. naive_solver. Qed.
Lemma publish_Ok ts ds s u s' :
  publish (E:=E) ts ds s = Ok u s' <-> u = tt /\ s' = emit (mkEvent ts ds) s.
Proof. unfold publish. naive_solver. Qed.
Lemma transfer_Ok t f d amt s u s' :
  transfer (E:=E) t f d amt s = Ok u s' <->
  exists w, tok_transfer (st_ext s) t f d amt = Some w /\ u = tt /\ s' = set_ext w s.
Proof. unfold transfer. destruct (tok_transfer _ _ _ _ _); naive_solver. Qed.
Lemma try_Ok {E1} `{From E1 E} (m : M E1 A) s a s' :
  try_ (E2:=E) m s = Ok a s' <-> m s = Ok a s'.
Proof. unfold try_. destruct (m s); naive_solver. Qed.
Lemma ignore_Ok {E1} (m : M E1 A) s u s' :
  ignore (E':=E) m s = Ok u s' <->
  u = tt /\ ((exists a, m s = Ok a s') \/ (exists e, m s = Err e s')).
Proof. unfold ignore. destruct (m s); naive_solver. Qed.
Lemma throw_Ok (e : E) s (a : A) s' : throw e s = Ok a s' <-> False.
Proof. unfold throw. naive_solver. Qed.
Lemma panic_Ok t s (a : A) s' : panic (E:=E) t s = Ok a s' <-> False.
Proof. unfold panic. naive_solver. Qed.
End Inversion.

(** Thin wrappers that [mrun] looks through. *)
Create HintDb mrun.

(** [mrun H] decomposes [H : m s = Ok a s'] into the runs of its steps. *)
Ltac mrun H :=
  lazymatch type of H with
  | bind _ _ _ = Ok _ _ =>
      let a := fresh "v" in let s1 := fresh "s" in let H1 := fresh "H" in
      apply bind_Ok in H; destruct H as (a & s1 & H1 & H); mrun H1; mrun H
  | reading ?f ?k ?s = Ok _ _ =>
      change (k (f s) s) with (k (f s) s) in H; unfold reading at 1 in H; mrun H
  | ret _ _ = Ok _ _ => apply ret_Ok in H; destruct H; subst
  | fail_if _ _ _ = Ok _ _ => apply fail_if_Ok in H; destruct H as (H & ? & ?); subst
  | panic_if _ _ _ = Ok _ _ => apply panic_if_Ok in H; destruct H as (H & ? & ?); subst
  | ok_or _ _ _ = Ok _ _ => apply ok_or_Ok in H; destruct H as (H & ?); subst
  | unwrap _ _ = Ok _ _ => apply unwrap_Ok in H; destruct H as (H & ?); subst
  | plain _ _ = Ok _ _ => apply plain_Ok in H; destruct H as (H & ?); subst
  | require_auth _ _ _ = Ok _ _ => apply require_auth_Ok in H; destruct H as (H & ? & ?); subst
  | put _ _ _ = Ok _ _ => apply put_Ok in H; destruct H; subst
  | del _ _ = Ok _ _ => apply del_Ok in H; destruct H; subst
  | publish _ _ _ = Ok _ _ => apply publish_Ok in H; destruct H; subst
  | transfer _ _ _ _ _ = Ok _ _ =>
      let w := fresh "w" in apply transfer_Ok in H; destruct H as (w & H & ? & ?); subst
  | try_ _ _ = Ok _ _ => apply try_Ok in H; mrun H
  | throw _ _ = Ok _ _ => apply throw_Ok in H; destruct H
  | panic _ _ = Ok _ _ => apply panic_Ok in H; destruct H
  | (if ?b then _ else _) _ = Ok _ _ => destruct b eqn:?; mrun H
  | match ?o with _ => _ end _ = Ok _ _ => destruct o eqn:?; mrun H
  | (let _ := _ in _) = Ok _ _ => cbv zeta in H; mrun H
  | _ => first [ progress (autounfold with mrun in H); mrun H | idtac ]
  end.

(** The converse: [forward tac] proves [bind m k s = Ok ?b ?s'] by running [m]
    with [tac], usually an [*_Ok] lemma read from right to left. *)
Ltac forward tac := apply bind_Ok; do 2 eexists; split; [tac|].

(** ** Frames

    [touches K m]: whatever the outcome, [m] writes only keys in [K].
    [keeps_ext m]: [m] leaves tokens and other contracts alone. *)

Section Frames.
Context {W : World}.

Definition touches {E A} (K : key -> Prop) (m : M E A) : Prop :=
  forall s, match m s with
            | Ok _ s' | Err _ s' => forall k, ~ K k -> rd k s' = rd k s
            | Trap _ => True
            end.
Definition keeps_ext {E A} (m : M E A) : Prop :=
  forall s, match m s with
            | Ok _ s' | Err _ s' => st_ext s' = st_ext s
            | Trap _ => True
            end.

Lemma touches_Ok {E A} K (m : M E A) s a s' k :
  touches K m -> m s = Ok a s' -> ~ K k -> rd k s' = rd k s.
Proof. intros Ht Hm. specialize (Ht s). rewrite Hm in Ht. auto. Qed.
Lemma keeps_ext_Ok {E A} (m : M E A) s a s' :
  keeps_ext m -> m s = Ok a s' -> st_ext s' = st_ext s.
Proof. intros Ht Hm. specialize (Ht s). by rewrite Hm in Ht. Qed.

Lemma touches_weaken {E A} (K K' : key -> Prop) (m : M E A) :
  (forall k, K k -> K' k) -> touches K m -> touches K' m.
Proof. intros HK Hm s. specialize (Hm s). destruct (m s); naive_solver. Qed.
Lemma touches_ret {E A} K (a : A) : touches K (ret (E:=E) a).
Proof. by intros s k. Qed.
Lemma touches_throw {E A} K (e : E) : touches K (throw (A:=A) e).
Proof. by intros s k. Qed.
Lemma touches_panic {E A} K t : touches K (panic (E:=E) (A:=A) t).
Proof. by intros s. Qed.
Lemma touches_bind {E A B} K (m : M E A) (f : A -> M E B) :
  touches K m -> (forall a, touches K (f a)) -> touches K (bind m f).
Proof.
  intros Hm Hf s. unfold bind. specialize (Hm s). destruct (m s) as [a s1|e s1|t]; [|done..].
  specialize (Hf a s1). destruct (f a s1); [..|done]; intros k Hk; rewrite Hf; auto.
Qed.
Lemma touches_reading {E A B} K (f : State -> A) (k : A -> M E B) :
  (forall a, touches K (k a)) -> touches K (reading f k).
Proof. intros H s. apply H. Qed.
Lemma touches_fail_if {E} K b (e : E) : touches K (fail_if b e).
Proof. by intros s; destruct b. Qed.
Lemma touches_panic_if {E} K b t : touches K (panic_if (E:=E) b t).
Proof. by intros s; destruct b. Qed.
Lemma touches_ok_or {E A} K (o : option A) (e : E) : touches K (ok_or o e).
Proof. by intros s; destruct o. Qed.
Lemma touches_unwrap {E A} K (o : option A) : touches K (unwrap (E:=E) o).
Proof. by intros s; destruct o. Qed.
Lemma touches_plain {E} K (o : option Z) : touches K (plain (E:=E) o).
Proof. by intros s; destruct o. Qed.
Lemma touches_require_auth {E} K env a : touches K (require_auth (E:=E) env a).
Proof. intros s. unfold require_auth. by destruct (signed env a). Qed.
Lemma touches_put {E} (K : key -> Prop) k v : K k -> touches K (put (E:=E) k v).
Proof. intros HK s k' Hk'. apply rd_upd_ne. congruence. Qed.
Lemma touches_del {E} (K : key -> Prop) k : K k -> touches K (del (E:=E) k).
Proof. intros HK s k' Hk'. apply rd_upd_ne. congruence. Qed.
Lemma touches_publish {E} K ts ds : touches K (publish (E:=E) ts ds).
Proof. by intros s k. Qed.
Lemma touches_transfer {E} K t f d a : touches K (transfer (E:=E) t f d a).
Proof. intros s. unfold transfer. by destruct (tok_transfer _ _ _ _ _). Qed.
Lemma touches_try_call {E} K c fn args : touches K (try_call (E:=E) c fn args).
Proof. intros s. unfold try_call. by destruct (ext_call _ _ _ _) as [[]|]. Qed.
Lemma touches_try {E1 E2 A} `{From E1 E2} K (m : M E1 A) :
  touches K m -> touches K (try_ (E2:=E2) m).
Proof. intros Hm s. specialize (Hm s). unfold try_. by destruct (m s). Qed.
Lemma touches_ignore {E E' A} K (m : M E A) : touches K m -> touches K (ignore (E':=E') m).
Proof. intros Hm s. specialize (Hm s). unfold ignore. by destruct (m s). Qed.
Lemma touches_catch {E E' A} K (m : M E A) : touches K m -> touches K (catch (E':=E') m).
Proof. intros Hm s. specialize (Hm s). unfold catch. by destruct (m s). Qed.
Lemma touches_if {E A} K (b : bool) (m1 m2 : M E A) :
  touches K m1 -> touches K m2 -> touches K (if b then m1 else m2).
Proof. by destruct b. Qed.
Lemma touches_option {E A B} K (o : option B) (m1 : B -> M E A) m2 :
  (forall b, touches K (m1 b)) -> touches K m2 ->
  touches K (match o with Some b => m1 b | None => m2 end).
Proof. destruct o; auto. Qed.
Lemma touches_for_each {E A} K (l : list A) (f : A -> M E unit) :
  (forall x, touches K (f x)) -> touches K (for_each l f).
Proof.
  intros Hf. induction l; simpl; [apply touches_ret|].
  apply touches_bind; auto.
Qed.

Lemma keeps_ret {E A} (a : A) : keeps_ext (ret (E:=E) a).
Proof. by intros s. Qed.
Lemma keeps_throw {E A} (e : E) : keeps_ext (throw (A:=A) e).
Proof. by intros s. Qed.
Lemma keeps_panic {E A} t : keeps_ext (panic (E:=E) (A:=A) t).
Proof. by intros s. Qed.
Lemma keeps_bind {E A B} (m : M E A) (f : A -> M E B) :
  keeps_ext m -> (forall a, keeps_ext (f a)) -> keeps_ext (bind m f).
Proof.
  intros Hm Hf s. unfold bind. specialize (Hm s). destruct (m s) as [a s1|e s1|t]; [|done..].
  specialize (Hf a s1). destruct (f a s1); congruence.
Qed.
Lemma keeps_reading {E A B} (f : State -> A) (k : A -> M E B) :
  (forall a, keeps_ext (k a)) -> keeps_ext (reading f k).
Proof. intros H s. apply H. Qed.
Lemma keeps_fail_if {E} b (e : E) : keeps_ext (fail_if b e).
Proof. by intros s; destruct b. Qed.
Lemma keeps_panic_if {E} b t : keeps_ext (panic_if (E:=E) b t).
Proof. by intros s; destruct b. Qed.
Lemma keeps_ok_or {E A} (o : option A) (e : E) : keeps_ext (ok_or o e).
Proof. by intros s; destruct o. Qed.
Lemma keeps_plain {E} (o : option Z) : keeps_ext (plain (E:=E) o).
Proof. by intros s; destruct o. Qed.
Lemma keeps_require_auth {E} env a : keeps_ext (require_auth (E:=E) env a).
Proof. intros s. unfold require_auth. by destruct (signed env a). Qed.
Lemma keeps_put {E} k v : keeps_ext (put (E:=E) k v).
Proof. by intros s. Qed.
Lemma keeps_del {E} k : keeps_ext (del (E:=E) k).
Proof. by intros s. Qed.
Lemma keeps_publish {E} ts ds : keeps_ext (publish (E:=E) ts ds).
Proof. by intros s. Qed.
Lemma keeps_try {E1 E2 A} `{From E1 E2} (m : M E1 A) :
  keeps_ext m -> keeps_ext (try_ (E2:=E2) m).
Proof. intros Hm s. specialize (Hm s). unfold try_. by destruct (m s). Qed.
Lemma keeps_ignore {E E' A} (m : M E A) : keeps_ext m -> keeps_ext (ignore (E':=E') m).
Proof. intros Hm s. specialize (Hm s). unfold ignore. by destruct (m s). Qed.
Lemma keeps_if {E A} (b : bool) (m1 m2 : M E A) :
  keeps_ext m1 -> keeps_ext m2 -> keeps_ext (if b then m1 else m2).
Proof. by destruct b. Qed.
Lemma keeps_option {E A B} (o : option B) (m1 : B -> M E A) m2 :
  (forall b, keeps_ext (m1 b)) -> keeps_ext m2 ->
  keeps_ext (match o with Some b => m1 b | None => m2 end).
Proof. destruct o; auto. Qed.
Lemma keeps_for_each {E A} (l : list A) (f : A -> M E unit) :
  (forall x, keeps_ext (f x)) -> keeps_ext (for_each l f).
Proof.
  intros Hf. induction l; simpl; [apply keeps_ret|].
  apply keeps_bind; auto.
Qed.

End Frames.

Create HintDb frame discriminated.
#[export] Hint Resolve touches_ret touches_throw touches_panic touches_bind touches_reading
  touches_fail_if touches_panic_if touches_ok_or touches_unwrap touches_plain touches_require_auth
  touches_put touches_del touches_publish touches_transfer touches_try_call touches_try
  touches_ignore touches_catch touches_if touches_option touches_for_each : frame.
#[export] Hint Resolve keeps_ret keeps_throw keeps_panic keeps_bind keeps_reading
  keeps_fail_if keeps_panic_if keeps_ok_or keeps_plain keeps_require_auth keeps_put keeps_del
  keeps_publish keeps_try keeps_ignore keeps_if keeps_option keeps_for_each : frame.

(** [frames] proves [touches]/[keeps_ext] goals structurally. *)
Ltac frames := repeat first
  [ progress auto 20 with frame
  | lazymatch goal with
    | |- touches _ (bind _ _) => apply touches_bind; [|intros ?]
    | |- touches _ (reading _ _) => apply touches_reading; intros ?
    | |- touches _ (for_each _ _) => apply touches_for_each; intros ?
    | |- touches _ (if ?b then _ else _) => destruct b
    | |- touches _ (match ?o with _ => _ end) => destruct o
    | |- keeps_ext (bind _ _) => apply keeps_bind; [|intros ?]
    | |- keeps_ext (reading _ _) => apply keeps_reading; intros ?
    | |- keeps_ext (for_each _ _) => apply keeps_for_each; intros ?
    | |- keeps_ext (if ?b then _ else _) => destruct b
    | |- keeps_ext (match ?o with _ => _ end) => destruct o
    end ].
