(* ===== verification/Events.v ===== *)
(** * Event helpers ([events.rs])

    One definition per helper, under the helper's name: the topics and the data
    it publishes.  A unit variant of an enum is published as the vector of its
    name.  The helpers that publish a whole record or an enum value computed by
    the caller are in the file of that caller. *)

From S2P Require Import Prelude Errors Storage Host.

Module Ev.
Section Events.
Context {W : World} (env : Env).

Definition deposit {E} (depositor : Address) (amount : Z) (shares_minted : Z) (ledger : Z) : M E unit :=
  publish [VSym "deposit"; VAddr depositor] [VInt amount; VInt shares_minted; VInt ledger].

Definition referral_bonus_paid {E} (referrer : Address) (referee : Address) (referrer_bonus : Z)
    (referee_bonus : Z) (ledger : Z)
    : M E unit :=
  publish [VSym "ref_bns"; VAddr referrer; VAddr referee]
    [VInt referrer_bonus; VInt referee_bonus; VInt ledger].

Definition referral_earnings_claimed {E} (referrer : Address) (amount : Z) (ledger : Z) : M E unit :=
  publish [VSym "ref_clm"; VAddr referrer] [VInt amount; VInt ledger].

Definition ve_boost_locked {E} (user : Address) (amount : Z) (duration_ledgers : Z) (unlock_ledger : Z)
    : M E unit :=
  publish [VSym "ve_lck"; VAddr user] [VInt amount; VInt duration_ledgers; VInt unlock_ledger].

Definition ve_boost_unlocked {E} (user : Address) (amount : Z) (ledger : Z) : M E unit :=
  publish [VSym "ve_unl"; VAddr user] [VInt amount; VInt ledger].

Definition gauge_voted {E} (user : Address) (ledger : Z) : M E unit :=
  publish [VSym "g_voted"; VAddr user] [VInt ledger].

Definition proposal_vote_changed {E} (user : Address) (proposal_id : Z) (support : bool) (weight : Z)
    (ledger : Z)
    : M E unit :=
  publish [VSym "v_chg"; VAddr user; VInt proposal_id] [VBool support; VInt weight; VInt ledger].

Definition withdraw {E} (withdrawer : Address) (shares_burned : Z) (amount_returned : Z) (ledger : Z)
    : M E unit :=
  publish [VSym "withdraw"; VAddr withdrawer] [VInt shares_burned; VInt amount_returned; VInt ledger].

Definition emergency_withdrawal {E} (user : Address) (amount_returned : Z) (rewards_forfeited : Z)
    (ledger : Z)
    : M E unit :=
  publish [VSym "emg_wdraw"; VAddr user] [VInt amount_returned; VInt rewards_forfeited; VInt ledger].

Definition position_locked {E} (user : Address) (lock_duration_ledgers : Z) (boost_bps : Z)
    (unlocks_at : Z) (ledger : Z)
    : M E unit :=
  publish [VSym "pos_lock"; VAddr user]
    [VInt lock_duration_ledgers; VInt boost_bps; VInt unlocks_at; VInt ledger].

Definition unpaused {E} (admin : Address) (ledger : Z) : M E unit :=
  publish [VSym "unpaused"; VAddr admin] [VInt ledger].

Definition auto_unpaused {E} (ledger : Z) : M E unit :=
  publish [VSym "auto_unp"] [VInt ledger].

Definition yield_added {E} (admin : Address) (amount : Z) : M E unit :=
  publish [VSym "yield_add"; VAddr admin] [VInt amount; VInt (sequence env)].

Definition admin_changed {E} (old_admin : Address) (new_admin : Address) : M E unit :=
  publish [VSym "admin_set"; VAddr old_admin] [VAddr new_admin; VInt (sequence env)].

Definition withdrawal_limit_updated {E} (admin : Address) (new_limit : Z) : M E unit :=
  publish [VSym "wd_limit"; VAddr admin] [VInt new_limit; VInt (sequence env)].

Definition bootstrap_started {E} (initial_rate_bps : Z) (base_rate_bps : Z) (duration_ledgers : Z)
    : M E unit :=
  publish [VSym "boot_str"; VAddr (self env)]
    [VInt initial_rate_bps; VInt base_rate_bps; VInt duration_ledgers; VInt (sequence env)].

Definition bootstrap_ended {E} (base_rate_bps : Z) : M E unit :=
  publish [VSym "boot_end"; VAddr (self env)] [VInt base_rate_bps; VInt (sequence env)].

Definition fee_distributed {E} (recipient : Address) (amount : Z) (ledger : Z) : M E unit :=
  publish [VSym "fee_dist"; VAddr recipient] [VInt amount; VInt ledger].

Definition action_queued {E} (action_id : Z) (executable_at : Z) : M E unit :=
  publish [VSym "act_queue"; VAddr (self env)] [VInt action_id; VInt executable_at; VInt (sequence env)].

Definition action_executed {E} (action_id : Z) : M E unit :=
  publish [VSym "act_exec"; VAddr (self env)] [VInt action_id; VInt (sequence env)].

Definition rate_changed {E} (old_rate_bps : Z) (new_rate_bps : Z) : M E unit :=
  publish [VSym "rate_chg"; VAddr (self env)] [VInt old_rate_bps; VInt new_rate_bps; VInt (sequence env)].

Definition rate_rolled_back {E} (restored_rate : Z) (discarded_rate : Z) : M E unit :=
  publish [VSym "rate_rbk"; VAddr (self env)]
    [VInt restored_rate; VInt discarded_rate; VInt (sequence env)].

Definition position_split {E} (user : Address) (original_amount : Z) (split_amount : Z) : M E unit :=
  publish [VSym "pos_split"; VAddr user] [VInt original_amount; VInt split_amount; VInt (sequence env)].

Definition swapped_and_staked {E} (user : Address) (input_token : Address) (input_amount : Z)
    (stake_amount_received : Z)
    : M E unit :=
  publish [VSym "swap_stk"; VAddr user]
    [VAddr input_token; VInt input_amount; VInt stake_amount_received; VInt (sequence env)].

Definition pool_cap_updated {E} (admin : Address) (new_cap : Z) : M E unit :=
  publish [VSym "cap_upd"; VAddr admin] [VInt new_cap; VInt (sequence env)].

Definition position_opened {E} (user : Address) (amount : Z) : M E unit :=
  publish [VSym "pos_open"; VAddr user] [VInt amount; VInt (sequence env)].

Definition position_closed {E} (user : Address) : M E unit :=
  publish [VSym "pos_clos"; VAddr user] [VInt (sequence env)].

Definition token_rescued {E} (token : Address) (amount : Z) (recipient : Address) : M E unit :=
  publish [VSym "tk_rescue"; VAddr recipient]
    [VAddr token; VInt amount; VAddr recipient; VInt (sequence env)].

Definition admin_action_set_reward_rate {E} (actor : Address) (old_rate : Z) (new_rate : Z) : M E unit :=
  publish [VSym "adm_act"; VAddr actor; VVec [VSym "SetRewardRate"]]
    [VAddr actor; VInt (sequence env); VInt old_rate; VInt new_rate].

Definition admin_action_pause {E} (actor : Address) : M E unit :=
  publish [VSym "adm_act"; VAddr actor; VVec [VSym "Pause"]] [VAddr actor; VInt (sequence env)].

Definition admin_action_unpause {E} (actor : Address) : M E unit :=
  publish [VSym "adm_act"; VAddr actor; VVec [VSym "Unpause"]] [VAddr actor; VInt (sequence env)].

Definition admin_action_transfer_admin {E} (actor : Address) (new_admin : Address) : M E unit :=
  publish [VSym "adm_act"; VAddr actor; VVec [VSym "TransferAdmin"]]
    [VAddr actor; VInt (sequence env); VAddr new_admin].

Definition admin_action_set_lock_period {E} (actor : Address) (new_ledgers : Z) : M E unit :=
  publish [VSym "adm_act"; VAddr actor; VVec [VSym "SetLockPeriod"]]
    [VAddr actor; VInt (sequence env); VInt new_ledgers].

Definition admin_action_set_cap {E} (actor : Address) (new_limit : Z) : M E unit :=
  publish [VSym "adm_act"; VAddr actor; VVec [VSym "SetCap"]]
    [VAddr actor; VInt (sequence env); VInt new_limit].

Definition admin_action_rescue_token {E} (actor : Address) (token : Address) (amount : Z)
    (recipient : Address)
    : M E unit :=
  publish [VSym "adm_act"; VAddr actor; VVec [VSym "RescueToken"]]
    [VAddr actor; VInt (sequence env); VAddr token; VInt amount; VAddr recipient].

Definition admin_action_set_early_exit_penalty {E} (actor : Address) (new_bps : Z) : M E unit :=
  publish [VSym "adm_act"; VAddr actor; VVec [VSym "SetEarlyExitPenalty"]]
    [VAddr actor; VInt (sequence env); VInt new_bps].

Definition admin_action_set_min_stake {E} (actor : Address) (new_amount : Z) : M E unit :=
  publish [VSym "adm_act"; VAddr actor; VVec [VSym "SetMinStake"]]
    [VAddr actor; VInt (sequence env); VInt new_amount].

Definition admin_action_fund_reward_pool {E} (actor : Address) (amount : Z) : M E unit :=
  publish [VSym "adm_act"; VAddr actor; VVec [VSym "FundRewardPool"]]
    [VAddr actor; VInt (sequence env); VInt amount].

Definition admin_action_add_yield {E} (actor : Address) (amount : Z) : M E unit :=
  publish [VSym "adm_act"; VAddr actor; VVec [VSym "AddYield"]]
    [VAddr actor; VInt (sequence env); VInt amount].

Definition admin_action_set_boost_schedule {E} (actor : Address) (num_tiers : Z) : M E unit :=
  publish [VSym "adm_act"; VAddr actor; VVec [VSym "SetBoostSchedule"]]
    [VAddr actor; VInt (sequence env); VInt num_tiers].

Definition admin_action_set_nft_contract {E} (actor : Address) (nft_addr : Address) : M E unit :=
  publish [VSym "adm_act"; VAddr actor; VVec [VSym "SetNftContract"]]
    [VAddr actor; VInt (sequence env); VAddr nft_addr].

Definition admin_action_set_restake_window {E} (actor : Address) (window : Z) : M E unit :=
  publish [VSym "adm_act"; VAddr actor; VVec [VSym "SetRestakeWindow"]]
    [VAddr actor; VInt (sequence env); VInt window].

Definition admin_action_set_reward_token {E} (actor : Address) (token : Address) : M E unit :=
  publish [VSym "adm_act"; VAddr actor; VVec [VSym "SetRewardToken"]]
    [VAddr actor; VInt (sequence env); VAddr token].

Definition slash {E} (admin : Address) (user : Address) (amount : Z) : M E unit :=
  publish [VSym "slash"; VAddr admin] [VAddr user; VInt amount; VInt (sequence env)].

Definition position_transferred {E} (from : Address) (to : Address) (amount : Z) : M E unit :=
  publish [VSym "pos_xfer"; VAddr from] [VAddr to; VInt amount; VInt (sequence env)].

Definition position_transferred_with_rewards {E} (from : Address) (to : Address) (amount : Z)
    (pending_reward_estimate : Z) (ledger : Z)
    : M E unit :=
  publish [VSym "pos_xf_rw"; VAddr from] [VAddr to; VInt amount; VInt pending_reward_estimate; VInt ledger].

Definition campaign_started {E} (admin : Address) (multiplier_bps : Z) (ends_at_ledger : Z) : M E unit :=
  publish [VSym "camp_on"; VAddr admin] [VInt multiplier_bps; VInt ends_at_ledger; VInt (sequence env)].

Definition campaign_ended {E} (admin : Address) : M E unit :=
  publish [VSym "camp_off"; VAddr admin] [VInt (sequence env)].

Definition auto_restaked {E} (user : Address) (amount : Z) : M E unit :=
  publish [VSym "auto_rst"; VAddr user] [VInt amount; VInt (sequence env)].

Definition auto_paused {E} (reward_balance : Z) (threshold : Z) : M E unit :=
  publish [VSym "auto_ps"; VAddr (self env)] [VInt reward_balance; VInt threshold; VInt (sequence env)].

Definition claimed {E} (user : Address) (reward : Z) (ledger : Z) : M E unit :=
  publish [VSym "claimed"; VAddr user] [VInt reward; VInt ledger].

Definition gas_rebate_paid {E} (user : Address) (amount : Z) : M E unit :=
  publish [VSym "gas_rbt"; VAddr user] [VInt amount; VInt (sequence env)].

Definition pool_initialized {E} (admin : Address) (stake_token : Address) (reward_token : Address)
    (reward_rate_bps : Z)
    : M E unit :=
  publish [VSym "init"; VAddr admin]
    [VAddr admin; VAddr stake_token; VAddr reward_token; VInt reward_rate_bps].

Definition frozen_position {E} (admin : Address) (user : Address) (frozen_at : Z) : M E unit :=
  publish [VSym "frz_pos"; VAddr admin] [VAddr user; VInt frozen_at; VInt (sequence env)].

Definition stopped {E} (admin : Address) : M E unit :=
  publish [VSym "stopped"; VAddr admin] [VInt (sequence env)].

Definition shutdown_started {E} (admin : Address) : M E unit :=
  publish [VSym "shutdown"; VAddr admin] [VInt (sequence env)].

Definition description_updated {E} (admin : Address) (description : string) : M E unit :=
  publish [VSym "desc_upd"; VAddr admin] [VStr description; VInt (sequence env)].

Definition positions_merged {E} (user : Address) (count_merged : Z) (total_amount : Z) : M E unit :=
  publish [VSym "merge"; VAddr user] [VInt count_merged; VInt total_amount; VInt (sequence env)].

Definition relayer_approved {E} (user : Address) (relayer : Address) : M E unit :=
  publish [VSym "rlyr_set"; VAddr user] [VAddr relayer; VInt (sequence env)].

Definition relayer_revoked {E} (user : Address) (relayer : Address) : M E unit :=
  publish [VSym "rlyr_rev"; VAddr user] [VAddr relayer; VInt (sequence env)].

Definition claimed_on_behalf {E} (relayer : Address) (user : Address) (reward : Z) : M E unit :=
  publish [VSym "claimed"; VAddr user] [VInt reward; VAddr relayer; VInt (sequence env)].

Definition reward_added {E} (source : Address) (amount : Z) : M E unit :=
  publish [VSym "rwd_add"; VAddr source] [VInt amount; VInt (sequence env)].

Definition yield_source_added {E} (admin : Address) (source : Address) : M E unit :=
  publish [VSym "ys_add"; VAddr admin] [VAddr source; VInt (sequence env)].

Definition yield_source_removed {E} (admin : Address) (source : Address) : M E unit :=
  publish [VSym "ys_rem"; VAddr admin] [VAddr source; VInt (sequence env)].

Definition pool_name_updated {E} (admin : Address) (name : string) : M E unit :=
  publish [VSym "nm_upd"; VAddr admin] [VStr name; VInt (sequence env)].

Definition refill_alert {E} (reward_balance : Z) (ledgers_until_empty : Z) (ledger : Z) : M E unit :=
  publish [VSym "rfil_alt"; VAddr (self env)] [VInt reward_balance; VInt ledgers_until_empty; VInt ledger].

Definition emergency_contact_updated {E} (admin : Address) (contact : string) : M E unit :=
  publish [VSym "emg_cnt"; VAddr admin] [VStr contact; VInt (sequence env)].

Definition migrated {E} (user : Address) (amount : Z) (rewards_settled : Z) (target_pool : Address)
    (ledger : Z)
    : M E unit :=
  publish [VSym "migrated"; VAddr user] [VInt amount; VInt rewards_settled; VAddr target_pool; VInt ledger].

Definition migration_target_set {E} (admin : Address) (target_pool : Address) (ledger : Z) : M E unit :=
  publish [VSym "mig_tgt"; VAddr admin] [VAddr target_pool; VInt ledger].

Definition yield_protocol_set {E} (admin : Address) (protocol : Address) : M E unit :=
  publish [VSym "yld_p_set"; VAddr admin] [VAddr protocol; VInt (sequence env)].

Definition yield_deployed {E} (admin : Address) (amount : Z) (ledger : Z) : M E unit :=
  publish [VSym "yld_dep"; VAddr admin] [VInt amount; VInt ledger].

Definition yield_withdrawn {E} (admin : Address) (amount_returned : Z) (ledger : Z) : M E unit :=
  publish [VSym "yld_wdrw"; VAddr admin] [VInt amount_returned; VInt ledger].

Definition proposal_created {E} (proposer : Address) (proposal_id : Z) (ends_at : Z) : M E unit :=
  publish [VSym "prop_new"; VAddr proposer] [VInt proposal_id; VInt ends_at].

Definition proposal_bond_refunded {E} (proposer : Address) (proposal_id : Z) (amount : Z) (ledger : Z)
    : M E unit :=
  publish [VSym "bond_rfnd"; VAddr proposer] [VInt proposal_id; VInt amount; VInt ledger].

Definition proposal_bond_slashed {E} (proposer : Address) (proposal_id : Z) (amount : Z) (ledger : Z)
    : M E unit :=
  publish [VSym "bond_slsh"; VAddr proposer] [VInt proposal_id; VInt amount; VInt ledger].

Definition proposal_cancelled {E} (proposer : Address) (proposal_id : Z) (bond_refunded : Z) (ledger : Z)
    : M E unit :=
  publish [VSym "prop_cncl"; VAddr proposer] [VInt proposal_id; VInt bond_refunded; VInt ledger].

Definition proposal_voted {E} (voter : Address) (proposal_id : Z) (support : bool) (weight : Z) (ledger : Z)
    : M E unit :=
  publish [VSym "prop_vote"; VAddr voter] [VInt proposal_id; VBool support; VInt weight; VInt ledger].

Definition vote_changed {E} (voter : Address) (proposal_id : Z) (new_support : bool) (weight : Z)
    (change_count : Z) (ledger : Z)
    : M E unit :=
  publish [VSym "vote_chg"; VAddr voter]
    [VInt proposal_id; VBool new_support; VInt weight; VInt change_count; VInt ledger].

Definition merkle_claimed {E} (user : Address) (amount : Z) (epoch : Z) (ledger : Z) : M E unit :=
  publish [VSym "mrk_clm"; VAddr user] [VInt amount; VInt epoch; VInt ledger].

Definition tournament_winner {E} (winner : Address) (score : Z) (prize_paid : Z) (ledger : Z) : M E unit :=
  publish [VSym "tour_win"; VAddr winner] [VAddr winner; VInt score; VInt prize_paid; VInt ledger].

Definition buyback_executed {E} (fee_amount_used : Z) (reward_tokens_burned : Z) (ledger : Z) : M E unit :=
  publish [VSym "buyback"; VAddr (self env)] [VInt fee_amount_used; VInt reward_tokens_burned; VInt ledger].

Definition buyback_toggled {E} (admin : Address) (enabled : bool) : M E unit :=
  publish [VSym "buy_tog"; VAddr admin] [VBool enabled; VInt (sequence env)].

Definition merkle_root_published {E} (admin : Address) (epoch : Z) (total_claimable : Z) : M E unit :=
  publish [VSym "mrk_pub"; VAddr admin] [VInt epoch; VInt total_claimable; VInt (sequence env)].

Definition state_exported {E} (admin : Address) (num_positions : Z) (ledger : Z) : M E unit :=
  publish [VSym "st_exp"; VAddr admin] [VInt num_positions; VInt ledger].

Definition penalty_redistributed {E} (total_amount : Z) (recipient_count : Z) (ledger : Z) : M E unit :=
  publish [VSym "pen_rdst"; VAddr (self env)] [VInt total_amount; VInt recipient_count; VInt ledger].

Definition insurance_deployed {E} (admin : Address) (amount : Z) (new_balance : Z) : M E unit :=
  publish [VSym "ins_dep"; VAddr admin] [VInt amount; VInt new_balance; VInt (sequence env)].

Definition halving_occurred {E} (halving_count : Z) (effective_rate_bps : Z) (ledger : Z) : M E unit :=
  publish [VSym "halving"; VAddr (self env)] [VInt halving_count; VInt effective_rate_bps; VInt ledger].

Definition certificate_issued {E} (user : Address) (certificate_id : Z) (valid_until : Z) (ledger : Z)
    : M E unit :=
  publish [VSym "cert_iss"; VAddr user] [VInt certificate_id; VInt valid_until; VInt ledger].

Definition pool_activated {E} (total_staked : Z) (threshold : Z) (ledger : Z) : M E unit :=
  publish [VSym "pool_act"; VAddr (self env)] [VInt total_staked; VInt threshold; VInt ledger].

Definition pool_deactivated {E} (total_staked : Z) (threshold : Z) (ledger : Z) : M E unit :=
  publish [VSym "pool_dact"; VAddr (self env)] [VInt total_staked; VInt threshold; VInt ledger].

Definition rewards_activated {E} (total_staked : Z) (min_pool_size : Z) (ledger : Z) : M E unit :=
  publish [VSym "rwd_act"; VAddr (self env)] [VInt total_staked; VInt min_pool_size; VInt ledger].

Definition min_pool_size_set {E} (admin : Address) (old_amount : Z) (new_amount : Z) : M E unit :=
  publish [VSym "minpool"; VAddr admin] [VInt old_amount; VInt new_amount; VInt (sequence env)].

Definition smoothing_scheduled {E} (total_amount : Z) (start_ledger : Z) (duration_ledgers : Z)
    : M E unit :=
  publish [VSym "smth_sch"; VAddr (self env)] [VInt total_amount; VInt start_ledger; VInt duration_ledgers].

Definition smoothing_released {E} (amount : Z) (cumulative_released : Z) (total_amount : Z) : M E unit :=
  publish [VSym "smth_rel"; VAddr (self env)]
    [VInt amount; VInt cumulative_released; VInt total_amount; VInt (sequence env)].

Definition auction_started {E} (spots : Z) (min_bid : Z) (ends_at : Z) : M E unit :=
  publish [VSym "auct_st"; VAddr (self env)] [VInt spots; VInt min_bid; VInt ends_at; VInt (sequence env)].

Definition bid_placed {E} (bidder : Address) (amount : Z) (total_bid : Z) : M E unit :=
  publish [VSym "bid_plcd"; VAddr bidder] [VInt amount; VInt total_bid; VInt (sequence env)].

Definition auction_won {E} (bidder : Address) (amount : Z) (rank : Z) : M E unit :=
  publish [VSym "auct_won"; VAddr bidder] [VInt amount; VInt rank; VInt (sequence env)].

Definition bid_refunded {E} (bidder : Address) (amount : Z) : M E unit :=
  publish [VSym "bid_rfnd"; VAddr bidder] [VInt amount; VInt (sequence env)].

Definition auction_finalized {E} (winner_count : Z) (total_staked : Z) (refunded : Z) : M E unit :=
  publish [VSym "auct_fin"; VAddr (self env)]
    [VInt winner_count; VInt total_staked; VInt refunded; VInt (sequence env)].

Definition position_expired {E} (user : Address) (expired_at_ledger : Z) (current_ledger : Z) : M E unit :=
  publish [VSym "pos_exp"; VAddr user] [VInt expired_at_ledger; VInt current_ledger].

Definition dynamic_fee_config_updated {E} (admin : Address) (base_fee_bps : Z) (max_fee_bps : Z)
    (threshold_bps : Z)
    : M E unit :=
  publish [VSym "dfeecfg"; VAddr admin]
    [VInt base_fee_bps; VInt max_fee_bps; VInt threshold_bps; VInt (sequence env)].

Definition lottery_drawn {E} (winner : Address) (prize_amount : Z) (random_seed : Z) (ledger : Z)
    : M E unit :=
  publish [VSym "lot_drwn"; VAddr winner] [VInt prize_amount; VInt random_seed; VInt ledger].

Definition milestone_achieved {E} (user : Address) (milestone_id : Z) (milestone_name : string) (ledger : Z)
    : M E unit :=
  publish [VSym "mstn_ach"; VAddr user] [VInt milestone_id; VStr milestone_name; VInt ledger].

Definition quiz_completed {E} (user : Address) (quiz_id : Z) (tier_unlocked : Z) (ledger : Z) : M E unit :=
  publish [VSym "quiz_comp"; VAddr user] [VInt quiz_id; VInt tier_unlocked; VInt ledger].

Definition quiz_attempt_failed {E} (user : Address) (quiz_id : Z) (remaining_attempts : Z) (ledger : Z)
    : M E unit :=
  publish [VSym "quiz_fail"; VAddr user] [VInt quiz_id; VInt remaining_attempts; VInt ledger].

Definition quiz_added {E} (admin : Address) (quiz_id : Z) (tier_unlocked : Z) (ledger : Z) : M E unit :=
  publish [VSym "quiz_add"; VAddr admin] [VInt quiz_id; VInt tier_unlocked; VInt ledger].

Definition condition_triggered {E} (user : Address) (asset_id : string) (oracle_price : Z)
    (trigger_price : Z) (ledger : Z)
    : M E unit :=
  publish [VSym "cond_trg"; VAddr user] [VStr asset_id; VInt oracle_price; VInt trigger_price; VInt ledger].

Definition proposal_vetoed {E} (user : Address) (proposal_id : Z) (user_stake_bps : Z) (ledger : Z)
    : M E unit :=
  publish [VSym "prop_veto"; VAddr user] [VInt proposal_id; VInt user_stake_bps; VInt ledger].

Definition guardian_proposal_vetoed {E} (guardian : Address) (proposal_id : Z)
    (reason_hash : list Byte.byte) (ledger : Z)
    : M E unit :=
  publish [VSym "proposal_vetoed"; VAddr guardian] [VInt proposal_id; VBytes reason_hash; VInt ledger].

Definition vote_delegated {E} (delegator : Address) (delegate : Address) (weight : Z) (ledger : Z)
    : M E unit :=
  publish [VSym "votedeleg"; VAddr delegator] [VAddr delegate; VInt weight; VInt ledger].

Definition reward_converted {E} (user : Address) (reward_amount : Z) (converted_amount : Z)
    (target_token : Address) (ledger : Z)
    : M E unit :=
  publish [VSym "rwd_conv"; VAddr user]
    [VInt reward_amount; VInt converted_amount; VAddr target_token; VInt ledger].

Definition priority_bid_placed {E} (user : Address) (bid_amount : Z) (previous_position : Z) (ledger : Z)
    : M E unit :=
  publish [VSym "pbid_plc"; VAddr user] [VInt bid_amount; VInt previous_position; VInt ledger].

Definition branding_updated {E} (admin : Address) (display_name : string) (website_url : string)
    (ledger : Z)
    : M E unit :=
  publish [VSym "brand_upd"; VAddr admin] [VStr display_name; VStr website_url; VInt ledger].

Definition insurance_activated {E} (user : Address) (premium_bps : Z) (coverage_amount : Z) (ledger : Z)
    : M E unit :=
  publish [VSym "ins_act"; VAddr user] [VInt premium_bps; VInt coverage_amount; VInt ledger].

Definition insurance_cancelled {E} (user : Address) (coverage_amount : Z) (ledger : Z) : M E unit :=
  publish [VSym "ins_canc"; VAddr user] [VInt coverage_amount; VInt ledger].

Definition insurance_premium_paid {E} (user : Address) (premium : Z) (ledger : Z) : M E unit :=
  publish [VSym "ins_prem"; VAddr user] [VInt premium; VInt ledger].

Definition shortfall_paid {E} (user : Address) (payout : Z) (ledger : Z) : M E unit :=
  publish [VSym "shortfal"; VAddr user] [VInt payout; VInt ledger].

Definition flash_staked {E} (user : Address) (amount : Z) (receipt_id : Z) (ledger : Z) : M E unit :=
  publish [VSym "flash_st"; VAddr user] [VInt amount; VInt receipt_id; VInt ledger].

Definition loan_opened {E} (user : Address) (amount : Z) (total_principal : Z) (ledger : Z) : M E unit :=
  publish [VSym "loan_opn"; VAddr user] [VInt amount; VInt total_principal; VInt ledger].

Definition loan_repaid {E} (user : Address) (amount : Z) (remaining_principal : Z)
    (remaining_interest : Z) (ledger : Z)
    : M E unit :=
  publish [VSym "loan_rpy"; VAddr user]
    [VInt amount; VInt remaining_principal; VInt remaining_interest; VInt ledger].

Definition loan_liquidated {E} (user : Address) (debt_covered : Z) (shares_slashed : Z) (ledger : Z)
    : M E unit :=
  publish [VSym "loan_liq"; VAddr user] [VInt debt_covered; VInt shares_slashed; VInt ledger].

Definition gini_computed {E} (result_bps : Z) (staker_count : Z) (ledger : Z) : M E unit :=
  publish [VSym "gini_cmp"; VAddr (self env)] [VInt result_bps; VInt staker_count; VInt ledger].

Definition season_started {E} (starts_at : Z) (name : string) (multiplier_bps : Z) (ledger : Z)
    : M E unit :=
  publish [VSym "seas_str"; VAddr (self env)] [VInt starts_at; VStr name; VInt multiplier_bps; VInt ledger].

Definition season_ended {E} (starts_at : Z) (ledger : Z) : M E unit :=
  publish [VSym "seas_end"; VAddr (self env)] [VInt starts_at; VInt ledger].

Definition bio_updated {E} (user : Address) (ledger : Z) : M E unit :=
  publish [VSym "bio_upd"; VAddr user] [VInt ledger].

Definition sunset_announced {E} (admin : Address) (grace_period_end : Z) (ledger : Z) : M E unit :=
  publish [VSym "snst_ann"; VAddr admin] [VInt grace_period_end; VInt ledger].

Definition sunset_initiated {E} (admin : Address) (exit_deadline : Z) : M E unit :=
  publish [VSym "snst_ini"; VAddr admin] [VInt exit_deadline; VInt (sequence env)].

Definition force_resolved {E} (user : Address) (principal : Z) (accrued_reward : Z) (ledger : Z)
    : M E unit :=
  publish [VSym "frc_res"; VAddr user] [VInt principal; VInt accrued_reward; VInt ledger].

Definition debt_nft_minted {E} (issuer : Address) (nft_id : Z) (face_value : Z) (ledger : Z) : M E unit :=
  publish [VSym "dbt_mnt"; VAddr issuer] [VInt nft_id; VInt face_value; VInt ledger].

Definition debt_nft_burned {E} (holder : Address) (nft_id : Z) (ledger : Z) : M E unit :=
  publish [VSym "dbt_brn"; VAddr holder] [VInt nft_id; VInt ledger].

Definition debt_nft_transferred {E} (from : Address) (to : Address) (nft_id : Z) (ledger : Z) : M E unit :=
  publish [VSym "dbt_trn"; VAddr from] [VAddr to; VInt nft_id; VInt ledger].

Definition swap_executed {E} (offerer : Address) (counterparty : Address) (offerer_amount : Z)
    (counterparty_amount : Z) (ledger : Z)
    : M E unit :=
  publish [VSym "swap_exe"; VAddr offerer]
    [VAddr counterparty; VInt offerer_amount; VInt counterparty_amount; VInt ledger].

Definition market_resolved {E} (outcome : bool) (winning_side_total : Z) (losing_side_total : Z)
    (ledger : Z)
    : M E unit :=
  publish [VSym "mkt_rsl"; VAddr (self env)]
    [VBool outcome; VInt winning_side_total; VInt losing_side_total; VInt ledger] ;;;
  publish [VSym "mkt_rsl"] [VBool outcome; VInt winning_side_total; VInt losing_side_total; VInt ledger].

Definition higher_yield_detected {E} (competitor : Address) (their_rate : Z) (our_rate : Z) (ledger : Z)
    : M E unit :=
  publish [VSym "hi_yld"; VAddr competitor] [VInt their_rate; VInt our_rate; VInt ledger].

Definition revenue_distributed {E} (merkle_root : list Byte.byte) (total_amount : Z) (ledger : Z)
    : M E unit :=
  publish [VSym "rev_dist"; VAddr (self env)] [VBytes merkle_root; VInt total_amount; VInt ledger].

Definition revenue_share_claimed {E} (user : Address) (amount : Z) (epoch : Z) (ledger : Z) : M E unit :=
  publish [VSym "rev_clm"; VAddr user] [VInt amount; VInt epoch; VInt ledger].

Definition escrow_released {E} (user : Address) (escrowed_amount : Z) (ledger : Z) : M E unit :=
  publish [VSym "esc_rel"; VAddr user] [VAddr user; VInt escrowed_amount; VInt ledger].

Definition access_token_issued {E} (user : Address) (tier_index : Z) (ledger : Z) : M E unit :=
  publish [VSym "acc_iss"; VAddr user] [VInt tier_index; VInt ledger].

Definition access_token_revoked {E} (user : Address) (tier_index : Z) (reason : string) (ledger : Z)
    : M E unit :=
  publish [VSym "acc_rev"; VAddr user] [VInt tier_index; VSym reason; VInt ledger].

Definition gift_staked {E} (sender : Address) (recipient : Address) (amount : Z) (ledger : Z) : M E unit :=
  publish [VSym "gift_stk"; VAddr sender] [VAddr recipient; VInt amount; VInt ledger].

Definition anniversary_bonus_paid {E} (user : Address) (anniversary_number : Z) (bonus_amount : Z)
    (ledger : Z)
    : M E unit :=
  publish [VSym "anniv_bp"; VAddr user] [VInt anniversary_number; VInt bonus_amount; VInt ledger].

Definition withdrawal_receipt_minted {E} (user : Address) (receipt_id : Z) (amount_returned : Z)
    (ledger : Z)
    : M E unit :=
  publish [VSym "wd_rcpt"; VAddr user] [VInt receipt_id; VInt amount_returned; VInt ledger].

Definition fee_buyback_executed {E} (admin : Address) (stake_fees_used : Z) (reward_tokens_burned : Z)
    (ledger : Z)
    : M E unit :=
  publish [VSym "fee_buyb"; VAddr admin] [VInt stake_fees_used; VInt reward_tokens_burned; VInt ledger].

Definition onboarding_completed {E} (user : Address) (ledger : Z) : M E unit :=
  publish [VSym "onb_done"; VAddr user] [VInt ledger].

Definition stake_matched {E} (user : Address) (stake_amount : Z) (match_amount : Z) (ledger : Z)
    : M E unit :=
  publish [VSym "stk_match"; VAddr user] [VInt stake_amount; VInt match_amount; VInt ledger].

Definition insurance_purchased {E} (user : Address) (premium : Z) (coverage : Z) (ledger : Z) : M E unit :=
  publish [VSym "ins_buy"; VAddr user] [VInt premium; VInt coverage; VInt ledger].

Definition keeper_registered {E} (keeper : Address) (ledger : Z) : M E unit :=
  publish [VSym "kpr_reg"; VAddr keeper] [VInt ledger].

Definition keeper_deregistered {E} (keeper : Address) (ledger : Z) : M E unit :=
  publish [VSym "kpr_dreg"; VAddr keeper] [VInt ledger].

Definition reward_deferred {E} (user : Address) (deferred_amount : Z) (next_epoch_start : Z) : M E unit :=
  publish [VSym "rwd_defr"; VAddr user] [VInt deferred_amount; VInt next_epoch_start; VInt (sequence env)].

Definition admin_action_nonce_consumed {E} (admin : Address) (nonce : Z) (ledger : Z) : M E unit :=
  publish [VSym "adm_nonce"; VAddr admin] [VInt nonce; VInt ledger].

Definition proposal_comment_posted {E} (author : Address) (proposal_id : Z) (stake_weight : Z) (ledger : Z)
    : M E unit :=
  publish [VSym "prop_cmt"; VAddr author] [VInt proposal_id; VInt stake_weight; VInt ledger].

Definition position_health_alert {E} (user : Address) (approaching_expiry : bool)
    (lock_ending_soon : bool) (loan_at_risk : bool) (rewards_near_cap : bool) (ledger : Z)
    : M E unit :=
  publish [VSym "pos_hlth"; VAddr user]
    [VBool approaching_expiry; VBool lock_ending_soon; VBool loan_at_risk; VBool rewards_near_cap; VInt ledger].

Definition reward_claimed_in_token {E} (user : Address) (reward_amount : Z) (output_token : Address)
    (output_amount : Z) (ledger : Z)
    : M E unit :=
  publish [VSym "rw_in_tok"; VAddr user]
    [VInt reward_amount; VAddr output_token; VInt output_amount; VInt ledger].

Definition points_awarded {E} (user : Address) (amount : Z) (new_balance : Z) (ledger : Z) : M E unit :=
  publish [VSym "loy_awd"; VAddr user] [VInt amount; VInt new_balance; VInt ledger].

Definition loyalty_config_updated {E} (rules_len : Z) (ledger : Z) : M E unit :=
  publish [VSym "loy_cfg"] [VInt rules_len; VInt ledger].

Definition kyc_status_changed {E} (user : Address) (approved : bool) : M E unit :=
  publish [VSym "kyc_set"; VAddr user] [VBool approved].

Definition deposit_completed {E} (depositor : Address) (amount : Z) (shares_minted : Z)
    (memo : string) (ledger : Z)
    : M E unit :=
  publish [VSym "deposit_completed"; VAddr depositor]
    [VInt amount; VInt shares_minted; VStr memo; VInt ledger].

Definition rate_ramp_started {E} (start_rate_bps : Z) (target_rate_bps : Z) (duration_ledgers : Z)
    (start_ledger : Z)
    : M E unit :=
  publish [VSym "rate_ramp_started"]
    [VInt start_rate_bps; VInt target_rate_bps; VInt duration_ledgers; VInt start_ledger].

Definition rate_ramp_completed {E} (final_rate_bps : Z) (ledger : Z) : M E unit :=
  publish [VSym "rate_ramp_completed"] [VInt final_rate_bps; VInt ledger].

Definition reward_pool_low {E} (pool_balance : Z) (outstanding_obligations : Z) (threshold_bps : Z)
    (ledger : Z)
    : M E unit :=
  publish [VSym "rwpl_low"]
    [VInt pool_balance; VInt outstanding_obligations; VInt threshold_bps; VInt ledger].

Definition apy_snapshot_recorded {E} (apy_bps : Z) (ledger : Z) : M E unit :=
  publish [VSym "apy_snap"] [VInt apy_bps; VInt ledger].

Definition fee_holiday_started {E} (ends_at_ledger : Z) (ledger : Z) : M E unit :=
  publish [VSym "fee_holiday_started"] [VInt ends_at_ledger; VInt ledger].

Definition fee_holiday_ended {E} (ends_at_ledger : Z) (ledger : Z) : M E unit :=
  publish [VSym "fee_holiday_ended"] [VInt ends_at_ledger; VInt ledger].

Definition insurance_reserve_used {E} (admin : Address) (amount : Z) (reason_hash : list Byte.byte)
    (ledger : Z)
    : M E unit :=
  publish [VSym "insurance_reserve_used"; VAddr admin] [VInt amount; VBytes reason_hash; VInt ledger].

Definition admin_proposal_created {E} (admin : Address) (new_admin : Address) : M E unit :=
  publish [VSym "adm_prop"; VAddr admin] [VAddr new_admin; VInt (sequence env)].

Definition admin_proposal_accepted {E} (old_admin : Address) (new_admin : Address) : M E unit :=
  publish [VSym "adm_acpt"; VAddr old_admin] [VAddr new_admin; VInt (sequence env)].

Definition admin_proposal_cancelled {E} (admin : Address) (cancelled_admin : Address) : M E unit :=
  publish [VSym "adm_canc"; VAddr admin] [VAddr cancelled_admin; VInt (sequence env)].

Definition reward_accumulator_updated {E} (global_index : Z) (ledger : Z) : M E unit :=
  publish [VSym "rw_acc"] [VInt global_index; VInt ledger].

Definition min_idle_ratio_updated {E} (admin : Address) (bps : Z) (ledger : Z) : M E unit :=
  publish [VSym "idle_upd"; VAddr admin] [VInt bps; VInt ledger].

Definition strategy_allocated {E} (adapter : Address) (amount : Z) (ledger : Z) : M E unit :=
  publish [VSym "str_alloc"; VAddr adapter] [VInt amount; VInt ledger].

Definition strategy_pulled {E} (adapter : Address) (amount : Z) (ledger : Z) : M E unit :=
  publish [VSym "str_pull"; VAddr adapter] [VInt amount; VInt ledger].

Definition harvested {E} (strategy : Address) (gain : Z) (fee : Z) (ledger : Z) : M E unit :=
  publish [VSym "harvested"; VAddr strategy] [VInt gain; VInt fee; VInt ledger].

Definition strategy_loss_recorded {E} (strategy : Address) (total_loss : Z) (reserve_absorbed : Z)
    (share_price_absorbed : Z) (ledger : Z)
    : M E unit :=
  publish [VSym "strategy_loss_recorded"; VAddr strategy]
    [VInt total_loss; VInt reserve_absorbed; VInt share_price_absorbed; VInt ledger].

Definition strategy_unwound {E} (strategy : Address) (recovered : Z) (loss : Z) (ledger : Z) : M E unit :=
  publish [VSym "strategy_unwound"; VAddr strategy] [VInt recovered; VInt loss; VInt ledger].

End Events.

End Ev.

#[export] Hint Unfold Ev.deposit Ev.referral_bonus_paid Ev.referral_earnings_claimed Ev.ve_boost_locked
  Ev.ve_boost_unlocked Ev.gauge_voted Ev.proposal_vote_changed Ev.withdraw Ev.emergency_withdrawal
  Ev.position_locked Ev.unpaused Ev.auto_unpaused Ev.yield_added Ev.admin_changed
  Ev.withdrawal_limit_updated Ev.bootstrap_started Ev.bootstrap_ended Ev.fee_distributed Ev.action_queued
  Ev.action_executed Ev.rate_changed Ev.rate_rolled_back Ev.position_split Ev.swapped_and_staked
  Ev.pool_cap_updated Ev.position_opened Ev.position_closed Ev.token_rescued
  Ev.admin_action_set_reward_rate Ev.admin_action_pause Ev.admin_action_unpause
  Ev.admin_action_transfer_admin Ev.admin_action_set_lock_period Ev.admin_action_set_cap
  Ev.admin_action_rescue_token Ev.admin_action_set_early_exit_penalty Ev.admin_action_set_min_stake
  Ev.admin_action_fund_reward_pool Ev.admin_action_add_yield Ev.admin_action_set_boost_schedule
  Ev.admin_action_set_nft_contract Ev.admin_action_set_restake_window Ev.admin_action_set_reward_token
  Ev.slash Ev.position_transferred Ev.position_transferred_with_rewards Ev.campaign_started
  Ev.campaign_ended Ev.auto_restaked Ev.auto_paused Ev.claimed Ev.gas_rebate_paid Ev.pool_initialized
  Ev.frozen_position Ev.stopped Ev.shutdown_started Ev.description_updated Ev.positions_merged
  Ev.relayer_approved Ev.relayer_revoked Ev.claimed_on_behalf Ev.reward_added Ev.yield_source_added
  Ev.yield_source_removed Ev.pool_name_updated Ev.refill_alert Ev.emergency_contact_updated Ev.migrated
  Ev.migration_target_set Ev.yield_protocol_set Ev.yield_deployed Ev.yield_withdrawn Ev.proposal_created
  Ev.proposal_bond_refunded Ev.proposal_bond_slashed Ev.proposal_cancelled Ev.proposal_voted
  Ev.vote_changed Ev.merkle_claimed Ev.tournament_winner Ev.buyback_executed Ev.buyback_toggled
  Ev.merkle_root_published Ev.state_exported Ev.penalty_redistributed Ev.insurance_deployed
  Ev.halving_occurred Ev.certificate_issued Ev.pool_activated Ev.pool_deactivated Ev.rewards_activated
  Ev.min_pool_size_set Ev.smoothing_scheduled Ev.smoothing_released Ev.auction_started Ev.bid_placed
  Ev.auction_won Ev.bid_refunded Ev.auction_finalized Ev.position_expired Ev.dynamic_fee_config_updated
  Ev.lottery_drawn Ev.milestone_achieved Ev.quiz_completed Ev.quiz_attempt_failed Ev.quiz_added
  Ev.condition_triggered Ev.proposal_vetoed Ev.guardian_proposal_vetoed Ev.vote_delegated
  Ev.reward_converted Ev.priority_bid_placed Ev.branding_updated Ev.insurance_activated
  Ev.insurance_cancelled Ev.insurance_premium_paid Ev.shortfall_paid Ev.flash_staked Ev.loan_opened
  Ev.loan_repaid Ev.loan_liquidated Ev.gini_computed Ev.season_started Ev.season_ended Ev.bio_updated
  Ev.sunset_announced Ev.sunset_initiated Ev.force_resolved Ev.debt_nft_minted Ev.debt_nft_burned
  Ev.debt_nft_transferred Ev.swap_executed Ev.market_resolved Ev.higher_yield_detected
  Ev.revenue_distributed Ev.revenue_share_claimed Ev.escrow_released Ev.access_token_issued
  Ev.access_token_revoked Ev.gift_staked Ev.anniversary_bonus_paid Ev.withdrawal_receipt_minted
  Ev.fee_buyback_executed Ev.onboarding_completed Ev.stake_matched Ev.insurance_purchased
  Ev.keeper_registered Ev.keeper_deregistered Ev.reward_deferred Ev.admin_action_nonce_consumed
  Ev.proposal_comment_posted Ev.position_health_alert Ev.reward_claimed_in_token Ev.points_awarded
  Ev.loyalty_config_updated Ev.kyc_status_changed Ev.deposit_completed Ev.rate_ramp_started
  Ev.rate_ramp_completed Ev.reward_pool_low Ev.apy_snapshot_recorded Ev.fee_holiday_started
  Ev.fee_holiday_ended Ev.insurance_reserve_used Ev.admin_proposal_created Ev.admin_proposal_accepted
  Ev.admin_proposal_cancelled Ev.reward_accumulator_updated Ev.min_idle_ratio_updated
  Ev.strategy_allocated Ev.strategy_pulled Ev.harvested Ev.strategy_loss_recorded Ev.strategy_unwound : mrun.
