(* ===== verification/TokenFacts.v ===== *)
(** * What a transfer moves

    The laws of [StandardTokens] as one equation on balances, and the slack of
    a contract: what it holds of a token beyond what it has booked. *)

From S2P Require Import Prelude Errors Storage Host.

Section Transfers.
Context {W : World} {HT : StandardTokens W}.
Implicit Types s : State.

(** The change of [who]'s balance by a transfer of [amt] from [f] to [d]. *)
Definition moved_amount (f d who : Address) (amt : Z) : Z :=
  if decide (f = d) then 0
  else (if decide (who = d) then amt else 0) - (if decide (who = f) then amt else 0).

Lemma transfer_moves E t f d amt s x s' :
  transfer (E:=E) t f d amt s = Ok x s' ->
  0 <= amt <= balance_of t f s /\ (forall k, rd k s' = rd k s) /\
  (forall t' who, balance_of t' who s' =
     balance_of t' who s + if decide (t' = t) then moved_amount f d who amt else 0).
Proof.
  intros (w & Hw & _ & ->)%transfer_Ok. split; [by apply (std_amount _ _ _ _ _ _ Hw)|].
  split; [intros k; apply rd_set_ext|]. intros t' who.
  change (tok_balance w t' who = tok_balance (st_ext s) t' who + if decide (t' = t) then moved_amount f d who amt else 0).
  case_decide as Ht; [subst t'|rewrite (std_frame _ _ _ _ _ _ _ _ Hw) by tauto; lia].
  unfold moved_amount. case_decide as Hfd.
  - subst d. rewrite Z.add_0_r. destruct (decide (who = f)) as [->|Hne].
    + by apply (std_self _ _ _ _ _ Hw).
    + apply (std_frame _ _ _ _ _ _ _ _ Hw). tauto.
  - destruct (std_moves _ _ _ _ _ _ Hfd Hw) as [M1 M2].
    repeat case_decide; subst; try done; try lia. rewrite (std_frame _ _ _ _ _ _ _ _ Hw) by tauto. lia.
Qed.

(** To and from a contract [me]. *)
Lemma token_received E t f me amt s x s' :
  f <> me -> transfer (E:=E) t f me amt s = Ok x s' ->
  0 <= amt /\ (forall k, rd k s' = rd k s) /\ balance_of t me s' = balance_of t me s + amt.
Proof.
  intros Hne (Ha & Hk & Hb)%transfer_moves. split; [lia|]. split; [done|]. rewrite Hb.
  rewrite decide_True by done. unfold moved_amount. rewrite decide_False by done.
  rewrite decide_True by done. rewrite decide_False by (intros ->; done). lia.
Qed.
Lemma token_sent E t me d amt s x s' :
  transfer (E:=E) t me d amt s = Ok x s' ->
  0 <= amt /\ (forall k, rd k s' = rd k s) /\ balance_of t me s - amt <= balance_of t me s' /\
  (d <> me -> balance_of t me s' = balance_of t me s - amt /\ balance_of t d s' = balance_of t d s + amt).
Proof.
  intros (Ha & Hk & Hb)%transfer_moves. split; [lia|]. split; [done|]. rewrite !Hb.
  rewrite decide_True by done. unfold moved_amount. repeat case_decide; subst; try done; split; lia || (intros; split; lia).
Qed.

End Transfers.

