(* ===== verification/Concrete.v ===== *)
(** * A concrete host

    One executable instance of [World], on which the theorems' hypotheses are
    shown to hold: plain SEP-41 tokens whose balances are a function of token and
    holder, seven decimals everywhere, and no callable contract.  Nothing in the
    model or the theorems depends on it. *)

From S2P Require Import Prelude Errors Storage Host.

Definition token_ledger : Type := Address -> Address -> Z.

Definition credit (w : token_ledger) (t a : Address) (d : Z) : token_ledger :=
  fun t' a' => if decide (t' = t /\ a' = a) then w t' a' + d else w t' a'.

(** Balances are clipped at zero so that the interface's law holds of every
    value of the type, reachable or not. *)
Definition ledger_balance (w : token_ledger) (t a : Address) : Z := Z.max 0 (w t a).

Definition ledger_transfer (w : token_ledger) (t from to : Address) (amt : Z) : option token_ledger :=
  if (0 <=? amt) && (amt <=? ledger_balance w t from) then
    if decide (from = to) then Some w
    else Some (credit (credit w t from (- amt)) t to
                 (ledger_balance w t to + amt - w t to))
  else None.

Definition token_world : World := {|
  ext := token_ledger;
  tok_balance := ledger_balance;
  tok_transfer := ledger_transfer;
  tok_decimals := fun _ _ => Some 7;
  ext_call := fun _ _ _ _ => None
|}.

#[export] Instance token_world_standard : StandardTokens token_world.
Proof.
  split; simpl.
  - intros. unfold ledger_balance. lia.
  - intros w t from to amt w'. unfold ledger_transfer.
    destruct (Z.leb_spec 0 amt), (Z.leb_spec amt (ledger_balance w t from)); simpl; try done; lia.
  - intros w t from to amt w' Hne. unfold ledger_transfer.
    destruct (Z.leb_spec 0 amt), (Z.leb_spec amt (ledger_balance w t from)); simpl; try done.
    rewrite decide_False by done. intros [= <-]. unfold ledger_balance, credit in *.
    split; repeat case_decide; try (exfalso; naive_solver); lia.
  - intros w t a amt w'. unfold ledger_transfer. destruct (_ && _); [|done].
    rewrite decide_True by done. by intros [= <-].
  - intros w t from to amt w' t' a. unfold ledger_transfer.
    destruct (_ && _); [|done]. case_decide; intros [= <-]; [done|]. intros Hne.
    unfold ledger_balance, credit. rewrite !decide_False by naive_solver. done.
Qed.

(** An empty contract over given token balances, and a context at ledger [l]
    in which everybody signed; the vault's own address is 1. *)
Definition start_state (w : token_ledger) : State (W := token_world) :=
  mkState (W := token_world) sempty w [].
Definition at_ledger (l : Z) : Env := mkEnv l (5 * l) 1%positive (fun _ => true).

(** A run on a concrete state succeeds with a value and state satisfying [p]:
    decided by evaluating the test, without writing the state down. *)
Definition succeeds {W : World} {E A} (r : res E A) (p : A -> State -> bool) : bool :=
  match r with Ok a s => p a s | _ => false end.

Lemma succeeds_run {W : World} {E A} (r : res E A) p :
  succeeds r p = true -> exists a s, r = Ok a s /\ p a s = true.
Proof. destruct r; [|done..]. simpl. eauto. Qed.
