(* ===== verification/Accessors.v ===== *)
(** * Typed storage accessors ([src/src/balance.rs])

    The getters with their defaults, and the setters that write one entry.
    Setters of accounting fields go through [assert_non_negative], which traps
    with [VaultInvariantError::NegativeBalance].  [set_shares] and
    [set_total_shares], which call other modules, are in [Balance.v]. *)

From S2P Require Import Prelude Errors Storage Host.

Section Accessors.
Context {W : World} (env : Env).
Implicit Types s : State.

Definition assert_non_negative {E} (value : Z) : M E unit :=
  panic_if (value <? 0)
    (TPanic (VaultInvariantError.code VaultInvariantError.NegativeBalance)).

(** ** Positions and pool totals *)

Definition get_shares (user : Address) s : Z := default 0 (rd (ShareBalance user) s).
Definition get_total_shares s : Z := default 0 (rd TotalShares s).
Definition get_total_deposited s : Z := default 0 (rd TotalDeposited s).
Definition set_total_deposited {E} (total : Z) : M E unit :=
  assert_non_negative total ;;; put TotalDeposited total.
Definition get_all_stakers s : list Address := default [] (rd AllStakers s).
Definition set_all_stakers {E} (stakers : list Address) : M E unit := put AllStakers stakers.
Definition get_total_stakers s : Z := default 0 (rd TotalStakers s).

Definition get_split_positions (user : Address) s : list StakePosition :=
  default [] (rd (SplitPositions user) s).
Definition set_split_positions {E} (user : Address) (positions : list StakePosition) : M E unit :=
  put (SplitPositions user) positions.
Definition get_stake_history (user : Address) s : option (list (Z * Z)) := rd (StakeHistory user) s.
Definition set_stake_history {E} (user : Address) (history : list (Z * Z)) : M E unit :=
  put (StakeHistory user) history.

(** ** Rewards *)

Definition get_reward_rate_bps s : Z := default 0 (rd RewardRateBps s).
Definition set_reward_rate_bps {E} (rate_bps : Z) : M E unit := put RewardRateBps rate_bps.
Definition get_reward_pool_balance s : Z := default 0 (rd RewardPoolBalance s).
Definition set_reward_pool_balance {E} (balance : Z) : M E unit :=
  assert_non_negative balance ;;; put RewardPoolBalance balance.
Definition get_reward_checkpoint_ledger (user : Address) s : option Z :=
  rd (RewardCheckpointLedger user) s.
Definition set_reward_checkpoint_ledger {E} (user : Address) (ledger : Z) : M E unit :=
  put (RewardCheckpointLedger user) ledger.
Definition get_accrued_reward (user : Address) s : Z := default 0 (rd (AccruedReward user) s).
Definition set_accrued_reward {E} (user : Address) (amount : Z) : M E unit :=
  assert_non_negative amount ;;; put (AccruedReward user) amount.
Definition get_reward_remainder (user : Address) s : Z := default 0 (rd (RewardRemainder user) s).
Definition set_reward_remainder {E} (user : Address) (amount : Z) : M E unit :=
  assert_non_negative amount ;;; put (RewardRemainder user) amount.
Definition get_boost_schedule s : option (list (Z * Z)) := rd BoostSchedule s.
Definition get_seasons s : list Season := default [] (rd Seasons s).
Definition get_halving_config s : option HalvingConfig := rd HalvingCfg s.
Definition DEFAULT_HALVING_REDUCTION_BPS : Z := 5000.
Definition get_halving_reduction_bps s : Z :=
  default DEFAULT_HALVING_REDUCTION_BPS (rd HalvingReduction s).
Definition get_min_pool_size s : Z := default 0 (rd MinPoolSize s).
Definition get_rewards_activated_at s : option Z := rd RewardsActivatedAt s.
Definition get_stake_decimals s : Z := default 7 (rd StakeDecimals s).
Definition get_reward_decimals s : Z := default 7 (rd RewardDecimals s).
Definition get_total_rewards_paid s : Z := default 0 (rd TotalRewardsPaid s).
Definition set_total_rewards_paid {E} (amount : Z) : M E unit :=
  assert_non_negative amount ;;; put TotalRewardsPaid amount.
Definition get_last_claim_action_ledger (user : Address) s : option Z := rd (LastClaimAction user) s.
Definition set_last_claim_action_ledger {E} (user : Address) (ledger : Z) : M E unit :=
  put (LastClaimAction user) ledger.
Definition get_last_claim_ledger (user : Address) s : Z := default 0 (rd (LastClaimLedger user) s).
Definition set_last_claim_ledger {E} (user : Address) (ledger : Z) : M E unit :=
  put (LastClaimLedger user) ledger.
Definition get_reward_token s : option Address := rd RewardToken s.

(** ** Pause and wind-down *)

Definition get_scheduled_unpause s : option Z := rd ScheduledUnpause s.
Definition get_sunset_exit_deadline s : option Z := rd SunsetDeadline s.
Definition set_last_updated_ledger {E} (ledger : Z) : M E unit := put LastUpdated ledger.
Definition set_scheduled_unpause {E} (target_ledger : Z) : M E unit := put ScheduledUnpause target_ledger.
Definition clear_scheduled_unpause {E} : M E unit := del ScheduledUnpause.
Definition get_pause_info s : option PauseInfo := rd PauseInfoKey s.
Definition set_pause_info {E} (info : PauseInfo) : M E unit := put PauseInfoKey info.
Definition clear_pause_info {E} : M E unit := del PauseInfoKey.

(** ** Administration *)

Definition get_admin_action_count s : Z := default 0 (rd AdminActionCount s).
Definition increment_admin_action_count {E} : M E unit :=
  let& count := get_admin_action_count in
  let! n := plain (to_u32 (count + 1)) in
  put AdminActionCount n.

Definition get_timelock_delay s : Z := default 0 (rd TimelockDelay s).
Definition set_timelock_delay_value {E} (ledgers : Z) : M E unit := put TimelockDelay ledgers.
Definition get_pending_actions s : list PendingAction := default [] (rd PendingActions s).
Definition set_pending_actions {E} (actions : list PendingAction) : M E unit :=
  put PendingActions actions.
Definition next_action_id {E} : M E Z :=
  let& stored := rd ActionIdCtr in
  let id := default 0 stored in
  let! next := plain (to_u32 (id + 1)) in
  put ActionIdCtr next ;;;
  ret id.
Definition get_multisig_config s : option MultisigConfig := rd MultisigCfg s.
Definition set_multisig_config {E} (config : MultisigConfig) : M E unit := put MultisigCfg config.
Definition get_admin_proposals s : list AdminProposal := default [] (rd MultisigProposals s).
Definition set_admin_proposals {E} (proposals : list AdminProposal) : M E unit :=
  put MultisigProposals proposals.
Definition next_proposal_id {E} : M E Z :=
  let& stored := rd ProposalIdCtr in
  let id := default 0 stored in
  let! next := plain (to_u32 (id + 1)) in
  put ProposalIdCtr next ;;;
  ret id.

Definition MAX_RATE_HISTORY_ENTRIES : nat := 50.
Definition MAX_RATE_BPS : Z := 50000.
Definition get_rate_history s : list RateChange := default [] (rd RateHistory s).
(** Evicts from the front until there is room for one more. *)
Definition record_rate_change {E} (old_rate_bps new_rate_bps : Z) : M E unit :=
  let& history := get_rate_history in
  put RateHistory (drop (S (length history) - MAX_RATE_HISTORY_ENTRIES) history ++
                   [mkRateChange old_rate_bps new_rate_bps (sequence env)]).

End Accessors.

#[export] Hint Unfold assert_non_negative set_total_deposited set_reward_rate_bps
  set_reward_pool_balance set_total_rewards_paid set_last_claim_action_ledger
  set_last_claim_ledger set_all_stakers set_split_positions set_stake_history
  set_reward_checkpoint_ledger set_accrued_reward set_reward_remainder
  set_last_updated_ledger set_scheduled_unpause clear_scheduled_unpause set_pause_info clear_pause_info
  increment_admin_action_count set_timelock_delay_value set_pending_actions set_multisig_config
  set_admin_proposals next_action_id next_proposal_id record_rate_change : mrun.

Section Facts.
Context {W : World}.

(** A guarded write, as most balance setters are. *)
Lemma assert_put_Ok E (a : Z) (k : key) (v : val_ty k) s x s' :
  (assert_non_negative (E:=E) a ;;; put k v) s = Ok x s' -> 0 <= a /\ s' = upd k (Some v) s.
Proof.
  unfold assert_non_negative. intros (? & ? & H1 & H)%bind_Ok.
  apply panic_if_Ok in H1 as (Hx & _ & ->). apply put_Ok in H as [_ ->]. split; [lia|done].
Qed.

Lemma assert_put_run E (a : Z) (k : key) (v : val_ty k) s :
  0 <= a -> (assert_non_negative (E:=E) a ;;; put k v) s = Ok tt (upd k (Some v) s).
Proof.
  intros Ha. unfold assert_non_negative, bind, panic_if. rewrite (proj2 (Z.ltb_ge _ _)) by done. done.
Qed.

Lemma touches_assert E K v : touches K (assert_non_negative (E:=E) v).
Proof. unfold assert_non_negative. auto with frame. Qed.
Lemma keeps_assert E v : keeps_ext (assert_non_negative (E:=E) v).
Proof. unfold assert_non_negative. auto with frame. Qed.
End Facts.

#[export] Hint Resolve touches_assert keeps_assert : frame.
