(* ===== verification/Admin.v ===== *)
(** * Admin authority ([admin.rs]) *)

From S2P Require Import Prelude Errors Storage Host Accessors.

Section Admin.
Context {W : World} (env : Env).
Implicit Types s : State.

Definition is_renounced s : bool := default false (rd AdminRenounced s).

Definition get_admin : M VaultError.t Address :=
  let& renounced := is_renounced in
  fail_if renounced VaultError.NoAdmin ;;;
  let& admin := rd Admin in
  ok_or admin VaultError.NotInitialized.

Definition require_admin_as (claimed_admin : Address) : M VaultError.t unit :=
  let! admin := get_admin in
  fail_if (negb (bool_decide (admin = claimed_admin))) VaultError.Unauthorized ;;;
  require_auth env admin.

Definition require_admin : M VaultError.t unit :=
  let! admin := get_admin in
  require_auth env admin.

Definition get_pending_admin s : option Address :=
  match rd PendingAdmin s with Some a => Some a | None => rd PendingAdminLegacy s end.

Definition set_pending_admin {E} (pending : Address) : M E unit :=
  put PendingAdmin pending ;;; put PendingAdminLegacy pending.

Definition clear_pending_admin {E} : M E unit :=
  del PendingAdmin ;;; del PendingAdminLegacy.

(** [renounce]: permanently removes primary and emergency authority. *)
Definition renounce (expected_admin : Address) : M VaultError.t unit :=
  let! current_admin := get_admin in
  fail_if (negb (bool_decide (current_admin = expected_admin))) VaultError.Unauthorized ;;;
  require_auth env expected_admin ;;;
  put AdminRenounced true ;;;
  del Admin ;;;
  del EmergencyAdmin ;;;
  clear_pending_admin.

Definition set_emergency_admin (emergency_admin : Address) : M VaultError.t unit :=
  let! primary_admin := get_admin in
  require_auth env primary_admin ;;;
  fail_if (bool_decide (emergency_admin = self env)) VaultError.InvalidAddress ;;;
  put EmergencyAdmin emergency_admin ;;;
  publish [VSym "emer_set"] [VAddr emergency_admin].

Definition get_emergency_admin s : option Address := rd EmergencyAdmin s.

Definition clear_emergency_admin : M VaultError.t unit :=
  let! primary_admin := get_admin in
  require_auth env primary_admin ;;;
  let& present := has EmergencyAdmin in
  if present then del EmergencyAdmin ;;; publish [VSym "emer_rvk"] [] else ret tt.

Definition require_admin_or_emergency_admin (caller : Address) : M VaultError.t unit :=
  let! primary := get_admin in
  if decide (caller = primary) then require_auth env primary
  else
    let& emergency := get_emergency_admin in
    match emergency with
    | Some e => if decide (caller = e) then require_auth env e else throw VaultError.Unauthorized
    | None => throw VaultError.Unauthorized
    end.

End Admin.

Section AdminFacts.
Context {W : World} (env : Env).
Implicit Types s : State.

Lemma get_admin_Ok s a s' :
  get_admin s = Ok a s' <-> rd AdminRenounced s <> Some true /\ rd Admin s = Some a /\ s' = s.
Proof.
  unfold get_admin, reading, is_renounced. rewrite bind_Ok. setoid_rewrite fail_if_Ok.
  setoid_rewrite ok_or_Ok. destruct (rd AdminRenounced s) as [[]|]; naive_solver.
Qed.

Lemma require_admin_as_Ok a s u s' :
  require_admin_as env a s = Ok u s' <->
  rd AdminRenounced s <> Some true /\ rd Admin s = Some a /\ signed env a = true /\ u = tt /\ s' = s.
Proof.
  unfold require_admin_as. rewrite bind_Ok. setoid_rewrite get_admin_Ok.
  split.
  - intros (b & s1 & (Hr & Hb & ->) & H). mrun H.
    apply negb_false_iff, bool_decide_eq_true in H0 as ->. done.
  - intros (Hr & Ha & Hs & -> & ->). exists a, s. split; [done|].
    unfold bind, fail_if. rewrite bool_decide_true by done. simpl. unfold require_auth.
    by rewrite Hs.
Qed.

Lemma require_admin_Ok s u s' :
  require_admin env s = Ok u s' <->
  exists a, rd AdminRenounced s <> Some true /\ rd Admin s = Some a /\ signed env a = true /\
            u = tt /\ s' = s.
Proof.
  unfold require_admin. rewrite bind_Ok. setoid_rewrite get_admin_Ok.
  setoid_rewrite require_auth_Ok. naive_solver.
Qed.

Lemma touches_get_admin K : touches K get_admin.
Proof. unfold get_admin. frames. Qed.
Lemma touches_require_admin_as K a : touches K (require_admin_as env a).
Proof. unfold require_admin_as. frames. apply touches_get_admin. Qed.
Lemma touches_require_admin K : touches K (require_admin env).
Proof. unfold require_admin. frames. apply touches_get_admin. Qed.
End AdminFacts.

#[export] Hint Resolve touches_get_admin touches_require_admin_as touches_require_admin : frame.
