(* ===== verification/Shares.v ===== *)
(** * Share-price conversion ([src/src/balance.rs], "Share math")

    Shares have a fixed seven-decimal precision.  The first deposit scales the
    token amount into that precision; afterwards shares are minted and burned
    at the current [total_shares / total_deposited] ratio, rounding towards
    zero.  The conversions are pure and take the two totals as arguments. *)

From S2P Require Import Prelude.

Definition DEFAULT_TOKEN_DECIMALS : Z := 7.

Definition scale_amount (amount from_decimals to_decimals : Z) : option Z :=
  if from_decimals =? to_decimals then Some amount
  else if from_decimals <? to_decimals then
    p ← checked_pow10 (to_decimals - from_decimals); checked_mul amount p
  else
    p ← checked_pow10 (from_decimals - to_decimals); checked_div amount p.

Definition amount_to_shares_with_decimals
    (total_shares total_deposited amount token_decimals : Z) : option Z :=
  if (total_shares =? 0) || (total_deposited =? 0) then
    scale_amount amount token_decimals DEFAULT_TOKEN_DECIMALS
  else
    v ← checked_mul amount total_shares; checked_div v total_deposited.

Definition amount_to_shares (total_shares total_deposited amount : Z) : option Z :=
  amount_to_shares_with_decimals total_shares total_deposited amount DEFAULT_TOKEN_DECIMALS.

Definition shares_to_amount_with_decimals
    (total_shares total_deposited shares _token_decimals : Z) : option Z :=
  if total_shares =? 0 then Some 0
  else v ← checked_mul shares total_deposited; checked_div v total_shares.

Definition shares_to_amount (total_shares total_deposited shares : Z) : option Z :=
  shares_to_amount_with_decimals total_shares total_deposited shares DEFAULT_TOKEN_DECIMALS.

(** ** Reading the definitions as rounded-down proportions *)

(** A pool with shares outstanding and principal behind them. *)
Record live_pool (S D : Z) : Prop := { live_S : 0 < S; live_D : 0 < D }.

Lemma muldiv_Some a b c r :
  0 <= a -> 0 <= b -> 0 < c ->
  (v ← checked_mul a b; checked_div v c) = Some r <->
  r = a * b / c /\ in_i128 (a * b).
Proof.
  intros Ha Hb Hc. pose proof (Z.mul_nonneg_nonneg a b Ha Hb).
  rewrite bind_Some. split.
  - intros (v & Hv & Hr). apply checked_mul_Some in Hv as [-> Hin].
    apply checked_div_Some in Hr as (_ & -> & _).
    by rewrite quot_floor by lia.
  - intros [-> Hin]. exists (a * b). rewrite checked_mul_Some, checked_div_Some.
    rewrite quot_floor by lia. pose proof (quot_range (a * b) c Hin Hc) as Hq.
    rewrite quot_floor in Hq by lia. split_and!; auto; lia.
Qed.

Lemma a2s_Some S D a d m :
  live_pool S D -> 0 <= a ->
  amount_to_shares_with_decimals S D a d = Some m <->
  m = a * S / D /\ in_i128 (a * S).
Proof.
  intros [HS HD] Ha. unfold amount_to_shares_with_decimals.
  destruct (Z.eqb_spec S 0), (Z.eqb_spec D 0); simpl; try lia.
  apply muldiv_Some; lia.
Qed.

Lemma s2a_Some S D x d r :
  0 < S -> 0 <= D -> 0 <= x ->
  shares_to_amount_with_decimals S D x d = Some r <->
  r = x * D / S /\ in_i128 (x * D).
Proof.
  intros HS HD Hx. unfold shares_to_amount_with_decimals.
  destruct (Z.eqb_spec S 0); [lia|]. apply muldiv_Some; lia.
Qed.

Lemma redeem_Some S D x r :
  0 < S -> 0 <= D -> 0 <= x ->
  shares_to_amount S D x = Some r <-> r = x * D / S /\ in_i128 (x * D).
Proof. apply s2a_Some. Qed.

(** ** Rounding arithmetic shared by the theorems *)

Lemma div_le_mul a c : 0 < c -> a / c * c <= a.
Proof. intros. rewrite Z.mul_comm. by apply Z.mul_div_le. Qed.

(** The minted shares are worth no more than what was paid, at the price after
    the deposit. *)
Lemma mint_value_le S D a :
  0 < S -> 0 < D -> 0 <= a ->
  (a * S / D) * (D + a) / (S + a * S / D) <= a.
Proof.
  intros HS HD Ha. set (m := a * S / D).
  assert (Hm : m * D <= a * S) by (apply (div_le_mul (a * S) D); lia).
  assert (0 <= m) by (apply Z.div_pos; nia).
  apply Z.div_le_upper_bound; nia.
Qed.

(** Minting never lowers the value of shares already held. *)
Lemma mint_price_mono S D a x :
  0 < S -> 0 < D -> 0 <= a -> 0 <= x ->
  x * D / S <= x * (D + a) / (S + a * S / D).
Proof.
  intros HS HD Ha Hx. set (m := a * S / D).
  assert (Hm : m * D <= a * S) by (apply (div_le_mul (a * S) D); lia).
  assert (0 <= m) by (apply Z.div_pos; nia).
  apply Z.div_le_lower_bound; [lia|].
  assert (Hx' : x * D / S * S <= x * D) by (apply (div_le_mul (x * D) S); lia).
  set (q := x * D / S) in *. assert (0 <= q) by (apply Z.div_pos; nia).
  assert (q * m * D <= x * a * D); [|nia].
  transitivity (q * (a * S)); nia.
Qed.

(** Burning [b] shares at the rounded-down price never lowers the value of the
    shares that stay. *)
Lemma burn_price_mono S D b x :
  0 < S -> 0 <= D -> 0 <= b < S -> 0 <= x ->
  x * D / S <= x * (D - b * D / S) / (S - b).
Proof.
  intros HS HD Hb Hx. set (r := b * D / S).
  assert (Hr : r * S <= b * D) by (apply (div_le_mul (b * D) S); lia).
  apply Z.div_le_lower_bound; [lia|].
  assert (Hx' : x * D / S * S <= x * D) by (apply (div_le_mul (x * D) S); lia).
  set (q := x * D / S) in *. assert (0 <= q) by (apply Z.div_pos; nia).
  assert (x * r * S <= x * b * D) by nia.
  assert (q * (S - b) * S <= x * D * (S - b)) by nia.
  apply (Zmult_le_reg_r _ _ S); nia.
Qed.

Create HintDb shares discriminated.
#[export] Hint Resolve live_S live_D Z.lt_le_incl : shares.

(** ** Decimal scaling *)

Lemma checked_pow10_Some n p : checked_pow10 n = Some p <-> p = 10 ^ n /\ in_i128 (10 ^ n).
Proof. apply to_i128_Some. Qed.

Lemma pow10_pos n : 0 <= n -> 0 < 10 ^ n.
Proof. intros. apply Z.pow_pos_nonneg; lia. Qed.

(** Scaling up is exact. *)
Lemma scale_up_Some a f t b :
  f < t -> scale_amount a f t = Some b <->
  b = a * 10 ^ (t - f) /\ in_i128 (10 ^ (t - f)) /\ in_i128 (a * 10 ^ (t - f)).
Proof.
  intros Hft. unfold scale_amount.
  destruct (Z.eqb_spec f t), (Z.ltb_spec f t); try lia.
  rewrite bind_Some. split.
  - intros (p & Hp & Hb). apply checked_pow10_Some in Hp as [-> ?].
    by apply checked_mul_Some in Hb as [-> ?].
  - intros (-> & ? & ?). exists (10 ^ (t - f)).
    by rewrite checked_pow10_Some, checked_mul_Some.
Qed.

(** Scaling down truncates. *)
Lemma scale_down_Some a f t b :
  t < f -> 0 <= a -> in_i128 a -> scale_amount a f t = Some b <->
  b = a / 10 ^ (f - t) /\ in_i128 (10 ^ (f - t)).
Proof.
  intros Hft Ha Hin. unfold scale_amount. pose proof (pow10_pos (f - t) ltac:(lia)) as Hpos.
  destruct (Z.eqb_spec f t), (Z.ltb_spec f t); try lia.
  rewrite bind_Some. pose proof (quot_range a (10 ^ (f - t)) Hin Hpos) as Hq. split.
  - intros (p & Hp & Hb). apply checked_pow10_Some in Hp as [-> ?].
    apply checked_div_Some in Hb as (_ & -> & _). by rewrite quot_floor by lia.
  - intros [-> ?]. exists (10 ^ (f - t)). rewrite checked_pow10_Some, checked_div_Some.
    rewrite quot_floor in Hq by lia. rewrite quot_floor by lia. split_and!; auto; lia.
Qed.

(** ** Theorems *)

(** C32. No value is created by a deposit/withdraw cycle (INV-6): redeeming the
    shares just minted, at the pool totals the deposit produced, pays at most
    the amount deposited; the same holds at the old ratio. *)
Theorem deposit_redeem_no_gain S D a d m :
  live_pool S D -> 0 <= a ->
  amount_to_shares_with_decimals S D a d = Some m ->
  (forall r, shares_to_amount (S + m) (D + a) m = Some r -> r <= a) /\
  (forall r, shares_to_amount S D m = Some r -> r <= a).
Proof.
  intros HL Ha Hm. apply a2s_Some in Hm as [-> _]; [|done..]. destruct HL as [HS HD].
  assert (0 <= a * S / D) by (apply Z.div_pos; nia).
  split; intros r Hr; apply redeem_Some in Hr as [-> _]; try lia.
  - by apply mint_value_le.
  - pose proof (div_le_mul (a * S) D HD). apply Z.div_le_upper_bound; nia.
Qed.

Lemma deposit_redeem_no_gain_witness :
  amount_to_shares_with_decimals 3 7 10 7 = Some 4 /\
  (forall r, shares_to_amount 7 17 4 = Some r -> r <= 10) /\
  (forall r, shares_to_amount 3 7 4 = Some r -> r <= 10).
Proof.
  split; [reflexivity|].
  apply (deposit_redeem_no_gain 3 7 10 7 4); [by constructor|lia|reflexivity].
Defined.

(** C33. The value of the shares a holder keeps never falls when someone else
    deposits, when someone else withdraws at the vault's own conversion, or
    when yield is added (INV-5). *)
Theorem holders_never_diluted S D x v :
  live_pool S D -> 0 <= x ->
  shares_to_amount S D x = Some v ->
  (forall a d m v', 0 <= a ->
     amount_to_shares_with_decimals S D a d = Some m ->
     shares_to_amount (S + m) (D + a) x = Some v' -> v <= v') /\
  (forall b r v', 0 <= b < S ->
     shares_to_amount S D b = Some r ->
     shares_to_amount (S - b) (D - r) x = Some v' -> v <= v') /\
  (forall delta v', 0 <= delta ->
     shares_to_amount S (D + delta) x = Some v' -> v <= v').
Proof.
  intros HL Hx Hv. destruct HL as [HS HD].
  apply redeem_Some in Hv as [-> _]; [|lia..]. split_and!.
  - intros a d m v' Ha Hm Hv'. apply a2s_Some in Hm as [-> _]; [|by constructor|done].
    assert (0 <= a * S / D) by (apply Z.div_pos; nia).
    apply redeem_Some in Hv' as [-> _]; try lia. by apply mint_price_mono.
  - intros b r v' Hb Hr Hv'. apply redeem_Some in Hr as [-> _]; try lia.
    assert (b * D / S <= D) by (apply Z.div_le_upper_bound; nia).
    apply redeem_Some in Hv' as [-> _]; try lia. apply burn_price_mono; lia.
  - intros delta v' Hd Hv'. apply redeem_Some in Hv' as [-> _]; try lia.
    apply Z.div_le_mono; nia.
Qed.

Lemma holders_never_diluted_witness :
  shares_to_amount 100 1000 30 = Some 300 /\
  (forall v', shares_to_amount (100 + 5) (1000 + 55) 30 = Some v' -> 300 <= v').
Proof.
  split; [reflexivity|]. intros v' Hv'.
  destruct (holders_never_diluted 100 1000 30 300) as [H _];
    [by constructor|lia|reflexivity|].
  apply (H 55 7 5 v'); [lia|reflexivity|done].
Defined.

(** Full-pool redeemability (INV-4): as long as the product fits in i128,
    redeeming the whole supply returns exactly the tracked principal, and no
    smaller redemption returns more than it. *)
Theorem full_redeem S D :
  0 < S -> 0 <= D -> S * D <= i128_max ->
  shares_to_amount S D S = Some D /\
  (forall x, 0 <= x <= S -> exists r, shares_to_amount S D x = Some r /\ 0 <= r <= D).
Proof.
  intros HS HD Hmax. pose proof i128_bounds as [Hb _]. split.
  - apply redeem_Some; [lia..|]. rewrite Z.mul_comm, Z.div_mul by lia.
    split; [done|]. unfold in_i128. nia.
  - intros x Hx. exists (x * D / S). rewrite redeem_Some by lia. split_and!; try done.
    + unfold in_i128. nia.
    + apply Z.div_pos; nia.
    + apply Z.div_le_upper_bound; nia.
Qed.

Lemma full_redeem_witness :
  shares_to_amount 9 20 9 = Some 20 /\
  (forall x, 0 <= x <= 9 -> exists r, shares_to_amount 9 20 x = Some r /\ 0 <= r <= 20).
Proof. apply (full_redeem 9 20); [lia|lia|by vm_compute]. Defined.

(** First-deposit scaling (INV-8): on an empty pool the shares minted are
    the amount scaled from the token's precision to seven decimals; scaling a
    coarser token up and back is exact, scaling a finer token down and back
    loses less than one share unit. *)
Theorem first_deposit_scaling D a d m :
  0 <= a -> in_i128 a -> 0 <= d ->
  amount_to_shares_with_decimals 0 D a d = Some m ->
  (d <= 7 -> m = a * 10 ^ (7 - d) /\ scale_amount m 7 d = Some a) /\
  (7 <= d -> m = a / 10 ^ (d - 7) /\
     forall c, scale_amount m 7 d = Some c -> c <= a < c + 10 ^ (d - 7)).
Proof.
  intros Ha Hin Hd Hm. unfold amount_to_shares_with_decimals, DEFAULT_TOKEN_DECIMALS in Hm.
  simpl in Hm. split; intros Hle.
  - destruct (decide (d = 7)) as [->|].
    { injection Hm as <-. change (10 ^ (7 - 7)) with 1. split; [lia|done]. }
    apply scale_up_Some in Hm as (-> & Hp & Hr); [|lia]. split; [done|].
    pose proof (pow10_pos (7 - d) ltac:(lia)).
    apply scale_down_Some; [lia|nia|done|]. by rewrite Z.div_mul by lia.
  - destruct (decide (d = 7)) as [->|].
    { injection Hm as <-. change (10 ^ (7 - 7)) with 1. rewrite Z.div_1_r.
      split; [done|]. intros c [= ->]. lia. }
    apply scale_down_Some in Hm as [-> _]; [|lia|done..]. split; [done|].
    pose proof (pow10_pos (d - 7) ltac:(lia)). intros c Hc.
    apply scale_up_Some in Hc as [-> _]; [|lia].
    pose proof (Z.mul_div_le a (10 ^ (d - 7)) ltac:(lia)).
    pose proof (Z.mul_succ_div_gt a (10 ^ (d - 7)) ltac:(lia)). lia.
Qed.

Lemma first_deposit_scaling_witness :
  amount_to_shares_with_decimals 0 0 1234567891 9 = Some 12345678 /\
  (forall c, scale_amount 12345678 7 9 = Some c -> c <= 1234567891 < c + 10 ^ (9 - 7)).
Proof.
  split; [reflexivity|].
  apply (first_deposit_scaling 0 1234567891 9 12345678);
    [lia|by apply in_i128b_spec; vm_compute|lia|reflexivity|lia].
Defined.
