(* ===== verification/RewardMath.v ===== *)
(** * Reward formulas

    [reward_math.rs] and the pure helpers of [vault.rs] and [balance.rs] that
    price a stretch of ledgers: the multiplier stack (boost tier, campaign,
    season), the boundary helpers that say where a multiplier changes, and the
    halving schedule.  All take the loaded configuration as arguments. *)

From S2P Require Import Prelude Errors Storage.

Definition BPS : Z := 10000.
Definition STELLAR_LEDGERS_PER_YEAR : Z := 17280 * 365.

(** [.ok_or(VaultError::ArithmeticError)?] *)
Definition arith (o : option Z) : Z + VaultError.t :=
  match o with Some z => inl z | None => inr VaultError.ArithmeticError end.
Definition and_then (r : Z + VaultError.t) (f : Z -> Z + VaultError.t) : Z + VaultError.t :=
  match r with inl z => f z | inr e => inr e end.
Notation "'let?' x ':=' r 'in' k" := (and_then r (fun x => k))
  (at level 10, x name, r at level 100, k at level 200).

(** The tier/campaign/season stack, each stage truncated to whole bps. *)
Definition stacked_rate (rate_bps multiplier_bps campaign_multiplier_bps season_multiplier_bps : Z)
    : Z + VaultError.t :=
  let? a := arith (checked_mul rate_bps multiplier_bps) in
  let? effective := arith (checked_div a BPS) in
  let? b := arith (checked_mul effective campaign_multiplier_bps) in
  let? boosted := arith (checked_div b BPS) in
  let? c := arith (checked_mul boosted season_multiplier_bps) in
  arith (checked_div c BPS).

(** [reward_math::reward_for_ledgers]. *)
Definition reward_for_ledgers (amount rate_bps multiplier_bps campaign_multiplier_bps
    season_multiplier_bps elapsed_ledgers : Z) : Z + VaultError.t :=
  if (elapsed_ledgers =? 0) || (amount =? 0) then inl 0
  else
    let? seasoned := stacked_rate rate_bps multiplier_bps
                       campaign_multiplier_bps season_multiplier_bps in
    let? x := arith (checked_mul amount seasoned) in
    let? y := arith (checked_mul x elapsed_ledgers) in
    let? z := arith (checked_div y BPS) in
    arith (checked_div z STELLAR_LEDGERS_PER_YEAR).

(** [VaultContract::reward_dust_for_ledgers]: the undivided numerator. *)
Definition reward_dust_for_ledgers (amount rate_bps multiplier_bps campaign_multiplier_bps
    season_multiplier_bps elapsed_ledgers : Z) : Z + VaultError.t :=
  if (elapsed_ledgers =? 0) || (amount =? 0) then inl 0
  else
    let? seasoned := stacked_rate rate_bps multiplier_bps
                       campaign_multiplier_bps season_multiplier_bps in
    let? x := arith (checked_mul amount seasoned) in
    arith (checked_mul x elapsed_ledgers).

(** [VaultContract::multiplier_for_elapsed]. *)
Fixpoint multiplier_for_elapsed_from (multiplier : Z) (schedule : list (Z * Z)) (elapsed : Z) : Z :=
  match schedule with
  | [] => multiplier
  | (tier_ledger, tier_multiplier) :: schedule =>
      if elapsed <? tier_ledger then multiplier
      else multiplier_for_elapsed_from tier_multiplier schedule elapsed
  end.
Definition multiplier_for_elapsed (schedule : list (Z * Z)) (elapsed : Z) : Z :=
  multiplier_for_elapsed_from BPS schedule elapsed.

(** [VaultContract::campaign_info_at]: multiplier and next boundary. *)
Definition campaign_info_at (cursor : Z) (campaign : option CampaignInfo) : Z * Z :=
  match campaign with
  | Some c =>
      if (cp_starts_at_ledger c <=? cursor) && (cursor <? cp_ends_at_ledger c) then
        (cp_multiplier_bps c, cp_ends_at_ledger c)
      else if cursor <? cp_starts_at_ledger c then (BPS, cp_starts_at_ledger c)
      else (BPS, u32_max)
  | None => (BPS, u32_max)
  end.

(** [VaultContract::find_active_season] (without the index). *)
Fixpoint find_active_season (seasons : list Season) (ledger : Z) : option Season :=
  match seasons with
  | [] => None
  | s :: seasons =>
      if (sn_starts_at s <=? ledger) && (ledger <? sn_ends_at s) then Some s
      else find_active_season seasons ledger
  end.

(** The scan for the next season start inside [season_info_at]. *)
Fixpoint next_season_start (seasons : list Season) (cursor next_start : Z) : Z :=
  match seasons with
  | [] => next_start
  | s :: seasons =>
      next_season_start seasons cursor
        (if (cursor <? sn_starts_at s) && (sn_starts_at s <? next_start)
         then sn_starts_at s else next_start)
  end.

(** [VaultContract::season_info_at]. *)
Definition season_info_at (seasons : list Season) (cursor : Z) : Z * Z :=
  match find_active_season seasons cursor with
  | Some active => (sn_multiplier_bps active, sn_ends_at active)
  | None => (BPS, next_season_start seasons cursor u32_max)
  end.

(** [balance::halving_count_at]. *)
Definition halving_count_at (config : option HalvingConfig) (ledger : Z) : Z :=
  match config with
  | Some c =>
      if (0 <? hv_interval_ledgers c) && (hv_started_at c <? ledger) then
        (ledger - hv_started_at c) / hv_interval_ledgers c
      else 0
  | None => 0
  end.

(** The [while applied < count && effective > floor] loop. *)
Fixpoint halve_loop (count : nat) (effective keep_bps floor : Z) : Z :=
  match count with
  | O => effective
  | S count =>
      if floor <? effective then halve_loop count (Z.quot (effective * keep_bps) BPS) keep_bps floor
      else effective
  end.

(** [balance::halving_adjusted_rate]. *)
Definition halving_adjusted_rate (config : option HalvingConfig) (reduction_bps base_rate_bps ledger : Z)
    : Z :=
  match config with
  | Some c =>
      let keep_bps := BPS - reduction_bps in
      Z.max (halve_loop (Z.to_nat (halving_count_at config ledger)) base_rate_bps keep_bps
               (hv_floor_rate_bps c))
        (hv_floor_rate_bps c)
  | None => base_rate_bps
  end.

(** ** Facts *)

Lemma arith_inl o z : arith o = inl z <-> o = Some z.
Proof. destruct o; simpl; naive_solver. Qed.
Lemma and_then_inl r f z : and_then r f = inl z <-> exists x, r = inl x /\ f x = inl z.
Proof. destruct r; simpl; naive_solver. Qed.

Definition bps_range (x : Z) : Prop := 0 <= x <= u32_max.

(** The stack as plain arithmetic. *)
Definition stacked (r m c s : Z) : Z := r * m / BPS * c / BPS * s / BPS.

Lemma small_in_i128 x : 0 <= x <= 2 ^ 126 -> in_i128 x.
Proof. unfold in_i128, i128_min, i128_max. lia. Qed.

Lemma div_bps_bound x b : 0 <= x <= b -> 0 <= x / BPS <= b.
Proof.
  unfold BPS. intros. pose proof (Z.div_pos x 10000).
  split; [lia|]. apply Z.div_le_upper_bound; lia.
Qed.

Lemma mul_bound x y a b : 0 <= x <= a -> 0 <= y <= b -> 0 <= x * y <= a * b.
Proof. nia. Qed.

(** One multiplier stage never overflows on [u32]-sized factors. *)
Lemma stage_ok x y :
  0 <= x <= 2 ^ 90 -> bps_range y ->
  arith (checked_mul x y) = inl (x * y) /\
  arith (checked_div (x * y) BPS) = inl (x * y / BPS).
Proof.
  intros Hx Hy. assert (Hb : 0 <= x * y <= 2 ^ 90 * u32_max) by by apply mul_bound.
  assert (Hin : in_i128 (x * y)) by (apply small_in_i128; unfold u32_max in *; lia).
  split; apply arith_inl; [by apply checked_mul_Some|].
  apply checked_div_Some. rewrite quot_floor by (unfold BPS; lia).
  split_and!; [done|done|]. rewrite <- quot_floor by (unfold BPS; lia).
  apply quot_range; [done|unfold BPS; lia].
Qed.

Lemma stacked_bound r m c s :
  bps_range r -> bps_range m -> bps_range c -> bps_range s ->
  0 <= r * m / BPS <= 2 ^ 51 /\ 0 <= r * m / BPS * c / BPS <= 2 ^ 70 /\
  0 <= stacked r m c s <= 2 ^ 90.
Proof.
  unfold stacked, bps_range, u32_max, BPS. intros Hr Hm Hc Hs.
  assert (B1 : 0 <= r * m / 10000 <= 2 ^ 51).
  { assert (0 <= r * m <= (2^32-1) * (2^32-1)) by by apply mul_bound.
    split; [apply Z.div_pos; lia|apply Z.div_le_upper_bound; lia]. }
  assert (B2 : 0 <= r * m / 10000 * c / 10000 <= 2 ^ 70).
  { assert (0 <= r * m / 10000 * c <= 2 ^ 51 * (2^32-1)) by by apply mul_bound.
    split; [apply Z.div_pos; lia|apply Z.div_le_upper_bound; lia]. }
  split_and!; try lia.
  - assert (0 <= r * m / 10000 * c / 10000 * s <= 2 ^ 70 * (2^32-1)) by by apply mul_bound.
    apply Z.div_pos; lia.
  - assert (0 <= r * m / 10000 * c / 10000 * s <= 2 ^ 70 * (2^32-1)) by by apply mul_bound.
    apply Z.div_le_upper_bound; lia.
Qed.

Lemma stacked_rate_ok r m c s :
  bps_range r -> bps_range m -> bps_range c -> bps_range s ->
  stacked_rate r m c s = inl (stacked r m c s).
Proof.
  intros Hr Hm Hc Hs. pose proof (stacked_bound r m c s Hr Hm Hc Hs) as (B1 & B2 & _).
  unfold stacked_rate, stacked.
  destruct (stage_ok r m) as [E1 E2]; [unfold bps_range, u32_max in *; lia|done|].
  rewrite E1. cbn [and_then]. rewrite E2. cbn [and_then].
  destruct (stage_ok (r * m / BPS) c) as [E3 E4]; [lia|done|].
  rewrite E3. cbn [and_then]. rewrite E4. cbn [and_then].
  destruct (stage_ok (r * m / BPS * c / BPS) s) as [E5 E6]; [lia|done|].
  rewrite E5. cbn [and_then]. by rewrite E6.
Qed.

(** The dust of a stretch is the product, whenever the product fits. *)
Lemma dust_ok a r m c s n :
  bps_range r -> bps_range m -> bps_range c -> bps_range s ->
  0 <= a -> 0 <= n -> a * stacked r m c s * n <= i128_max ->
  reward_dust_for_ledgers a r m c s n = inl (a * stacked r m c s * n).
Proof.
  intros Hr Hm Hc Hs Ha Hn Hmax. unfold reward_dust_for_ledgers.
  destruct (Z.eqb_spec n 0) as [->|]; simpl; [f_equal; lia|].
  destruct (Z.eqb_spec a 0) as [->|]; simpl; [f_equal; lia|].
  rewrite stacked_rate_ok by done. cbn [and_then].
  destruct (stacked_bound r m c s) as (_ & _ & B); try done.
  pose proof i128_bounds as [Hb _].
  assert (0 <= a * stacked r m c s) by (apply Z.mul_nonneg_nonneg; lia).
  assert (a * stacked r m c s <= a * stacked r m c s * n) by nia.
  unfold checked_mul. rewrite to_i128_in by (unfold in_i128; lia).
  cbn [arith and_then]. rewrite to_i128_in; [done|]. unfold in_i128. nia.
Qed.

(** Whatever the operands, a successful dust computation is that product. *)
Lemma dust_inl a r m c s n d :
  bps_range r -> bps_range m -> bps_range c -> bps_range s ->
  reward_dust_for_ledgers a r m c s n = inl d -> d = a * stacked r m c s * n.
Proof.
  intros Hr Hm Hc Hs. unfold reward_dust_for_ledgers.
  destruct (Z.eqb_spec n 0) as [->|]; simpl; [intros [= <-]; lia|].
  destruct (Z.eqb_spec a 0) as [->|]; simpl; [intros [= <-]; lia|].
  rewrite stacked_rate_ok by done. cbn [and_then]. rewrite and_then_inl.
  intros (x & Hx & Hd). apply arith_inl, checked_mul_Some in Hx as [-> _].
  by apply arith_inl, checked_mul_Some in Hd as [-> _].
Qed.
