(* ===== verification/MultiReward.v ===== *)
(** * Extra reward tokens ([multi_reward_tokens.rs])

    Up to three extra reward tokens, each with a reward-per-share accumulator
    and a funded pool.  [settle_user] moves what a user earned into a stored
    pending balance; [claim_token] and [claim_all] pay pending balances up to
    what each pool holds.  Earnings accrue whether or not the pool is funded. *)

From S2P Require Import Prelude Errors Storage Host Accessors Admin RewardMath Concrete.

Definition MAX_EXTRA_REWARD_TOKENS : nat := 3.
Definition PRECISION : Z := 10 ^ 18.

Section MultiReward.
Context {W : World} (env : Env).
Implicit Types s : State.

Definition load s : list ExtraRewardToken := default [] (rd ExtraTokens s).
Definition save {E} (tokens : list ExtraRewardToken) : M E unit := put ExtraTokens tokens.

Fixpoint find_token (tokens : list ExtraRewardToken) (token : Address) : option nat :=
  match tokens with
  | [] => None
  | t :: tokens => if decide (xr_token t = token) then Some O else S <$> find_token tokens token
  end.

Definition advance (t : ExtraRewardToken) : ExtraRewardToken :=
  let now := sequence env in
  if now <=? xr_last_update t then t
  else
    let elapsed := now - xr_last_update t in
    let increase := Z.quot (sat_mul (sat_mul elapsed (xr_rate_bps t)) PRECISION)
                      (BPS * STELLAR_LEDGERS_PER_YEAR) in
    mkExtraRewardToken (xr_token t) (xr_rate_bps t) (sat_add (xr_acc_per_share t) increase) now
      (xr_pool t).

Definition stored_pending (token user : Address) s : Z := default 0 (rd (ExtraPending token user) s).
Definition user_checkpoint (token user : Address) s : Z :=
  default 0 (rd (ExtraCheckpoint token user) s).

Definition earned_since_checkpoint {E} (t : ExtraRewardToken) (user : Address) (shares : Z) : M E Z :=
  let& checkpoint := user_checkpoint (xr_token t) user in
  if (shares <=? 0) || (xr_acc_per_share t <=? checkpoint) then ret 0
  else
    let! delta := plain (checked_sub (xr_acc_per_share t) checkpoint) in
    ret (Z.quot (sat_mul shares delta) PRECISION).

Definition settle_one {E} (t : ExtraRewardToken) (user : Address) (shares : Z) : M E unit :=
  let! earned := earned_since_checkpoint t user shares in
  (if 0 <? earned then
     let& pending := stored_pending (xr_token t) user in
     put (ExtraPending (xr_token t) user) (sat_add pending earned)
   else ret tt) ;;;
  put (ExtraCheckpoint (xr_token t) user) (xr_acc_per_share t).

(** The loop of [settle_user]: advance and settle each token. *)
Fixpoint settle_each {E} (user : Address) (shares : Z) (tokens : list ExtraRewardToken)
    : M E (list ExtraRewardToken) :=
  match tokens with
  | [] => ret []
  | t :: tokens =>
      settle_one (advance t) user shares ;;;
      let! tokens := settle_each user shares tokens in
      ret (advance t :: tokens)
  end.

Definition settle_user {E} (user : Address) : M E unit :=
  let& tokens := load in
  match tokens with
  | [] => ret tt
  | _ =>
      let& shares := get_shares user in
      let! tokens := settle_each user shares tokens in
      save tokens
  end.

Definition with_pool (t : ExtraRewardToken) (pool : Z) : ExtraRewardToken :=
  mkExtraRewardToken (xr_token t) (xr_rate_bps t) (xr_acc_per_share t) (xr_last_update t) pool.

Definition take_payable {E} (tokens : list ExtraRewardToken) (index : nat) (user : Address)
    : M E (Z * list ExtraRewardToken) :=
  let! t := unwrap (tokens !! index) in
  let& pending := stored_pending (xr_token t) user in
  let pay := Z.min pending (xr_pool t) in
  if 0 <? pay then
    let! pool := plain (checked_sub (xr_pool t) pay) in
    let! rest := plain (checked_sub pending pay) in
    put (ExtraPending (xr_token t) user) rest ;;;
    ret (pay, <[index := with_pool t pool]> tokens)
  else ret (pay, tokens).

Definition pay_out {E} (token_addr user : Address) (amount : Z) : M E unit :=
  if 0 <? amount then
    transfer token_addr (self env) user amount ;;;
    publish [VSym "xr_claim"; VAddr token_addr; VAddr user] [VInt amount]
  else ret tt.

Definition add_reward_token (admin token : Address) (rate_bps : Z) : M VaultFeature6Error.t unit :=
  try_ (require_admin_as env admin) ;;;
  fail_if ((rate_bps =? 0) || (MAX_RATE_BPS <? rate_bps)) VaultFeature6Error.InvalidRate ;;;
  let& tokens := load in
  fail_if (match find_token tokens token with Some _ => true | None => false end)
    VaultFeature6Error.RewardTokenAlreadyAdded ;;;
  fail_if (MAX_EXTRA_REWARD_TOKENS <=? length tokens)%nat
    VaultFeature6Error.RewardTokenLimitReached ;;;
  save (tokens ++ [mkExtraRewardToken token rate_bps 0 (sequence env) 0]) ;;;
  publish [VSym "xr_added"; VAddr token] [VInt rate_bps].

Definition fund_reward_token (funder token : Address) (amount : Z) : M VaultFeature6Error.t unit :=
  require_auth env funder ;;;
  fail_if (amount <=? 0) VaultFeature6Error.ZeroAmount ;;;
  let& tokens := load in
  let! index := ok_or (find_token tokens token) VaultFeature6Error.RewardTokenNotFound in
  let! t := unwrap (tokens !! index) in
  let! pool := ok_or (checked_add (xr_pool t) amount) VaultFeature6Error.ArithmeticError in
  save (<[index := with_pool t pool]> tokens) ;;;
  transfer token funder (self env) amount ;;;
  publish [VSym "xr_fund"; VAddr token; VAddr funder] [VInt amount].

(** One entry of [get_pending_rewards]. *)
Definition pending_entry {E} (user : Address) (shares : Z) (t : ExtraRewardToken)
    : M E (Address * Z) :=
  let! earned := earned_since_checkpoint (advance t) user shares in
  let& pending := stored_pending (xr_token t) user in
  ret (xr_token t, sat_add pending earned).

Fixpoint pending_entries {E} (user : Address) (shares : Z) (tokens : list ExtraRewardToken)
    : M E (list (Address * Z)) :=
  match tokens with
  | [] => ret []
  | t :: tokens =>
      let! x := pending_entry user shares t in
      let! rest := pending_entries user shares tokens in
      ret (x :: rest)
  end.

Definition get_pending_rewards {E} (user : Address) : M E (list (Address * Z)) :=
  let& shares := get_shares user in
  let& tokens := load in
  pending_entries user shares tokens.

Definition claim_token (user token : Address) : M VaultFeature6Error.t Z :=
  require_auth env user ;;;
  settle_user user ;;;
  let& tokens := load in
  let! index := ok_or (find_token tokens token) VaultFeature6Error.RewardTokenNotFound in
  let! r := take_payable tokens index user in
  save r.2 ;;;
  pay_out token user r.1 ;;;
  ret r.1.

(** The first loop of [claim_all], [n] tokens from index [i]. *)
Fixpoint take_each {E} (user : Address) (n i : nat) (tokens : list ExtraRewardToken)
    : M E (list (Address * Z) * list ExtraRewardToken) :=
  match n with
  | O => ret ([], tokens)
  | S n =>
      let! r := take_payable tokens i user in
      let! t := unwrap (r.2 !! i) in
      let! rest := take_each user n (S i) r.2 in
      ret ((xr_token t, r.1) :: rest.1, rest.2)
  end.

Definition claim_all {E} (user : Address) : M E (list (Address * Z)) :=
  require_auth env user ;;;
  settle_user user ;;;
  let& tokens := load in
  let! r := take_each user (length tokens) 0 tokens in
  save r.2 ;;;
  for_each r.1 (fun x => pay_out x.1 user x.2) ;;;
  ret r.1.

End MultiReward.

#[export] Hint Unfold save : mrun.

(** ** Settlement *)

Section Settle.
Context {W : World} (env : Env).
Implicit Types s : State.

(** What a settlement moves for one token. *)
Definition earned (t : ExtraRewardToken) (user : Address) (shares : Z) s : Z :=
  if (shares <=? 0) || (xr_acc_per_share t <=? user_checkpoint (xr_token t) user s) then 0
  else Z.quot (sat_mul shares (xr_acc_per_share t - user_checkpoint (xr_token t) user s)) PRECISION.

Lemma earned_since_Ok E t u shares s e s' :
  earned_since_checkpoint (E:=E) t u shares s = Ok e s' -> e = earned t u shares s /\ s' = s.
Proof.
  unfold earned_since_checkpoint, earned, reading. destruct (_ || _); intros H; mrun H; [done|].
  by apply checked_sub_Some in H0 as [-> _].
Qed.

Lemma sat_add_0 x : in_i128 x -> sat_add x 0 = x.
Proof. intros. unfold sat_add. rewrite Z.add_0_r. by apply clamp_in. Qed.

Lemma settle_one_Ok E t u shares s x s' :
  settle_one (E:=E) t u shares s = Ok x s' ->
  stored_pending (xr_token t) u s' =
    (if 0 <? earned t u shares s then sat_add (stored_pending (xr_token t) u s) (earned t u shares s)
     else stored_pending (xr_token t) u s) /\
  user_checkpoint (xr_token t) u s' = xr_acc_per_share t /\
  (forall k, k <> KPers (ExtraPending (xr_token t) u) ->
             k <> KPers (ExtraCheckpoint (xr_token t) u) -> rd k s' = rd k s) /\
  st_ext s' = st_ext s.
Proof.
  unfold settle_one. intros H. mrun H; apply earned_since_Ok in H0 as [-> ->];
    rewrite Heqb; unfold stored_pending, user_checkpoint; split_and!; rdsimp; try done;
    intros k ? ?; rewrite !rd_upd_ne by congruence; done.
Qed.

Lemma settle_each_Ok E u shares tokens s r s' :
  NoDup (xr_token <$> tokens) ->
  settle_each (E:=E) env u shares tokens s = Ok r s' ->
  r = advance env <$> tokens /\
  (forall t, t ∈ tokens ->
     let t' := advance env t in
     stored_pending (xr_token t) u s' =
       (if 0 <? earned t' u shares s then sat_add (stored_pending (xr_token t) u s) (earned t' u shares s)
        else stored_pending (xr_token t) u s) /\
     user_checkpoint (xr_token t) u s' = xr_acc_per_share t') /\
  (forall k, (forall t, t ∈ tokens -> k <> KPers (ExtraPending (xr_token t) u) /\
                         k <> KPers (ExtraCheckpoint (xr_token t) u)) -> rd k s' = rd k s) /\
  st_ext s' = st_ext s.
Proof.
  assert (Htok : forall t, xr_token (advance env t) = xr_token t).
  { intros t. unfold advance. by destruct (_ <=? _). }
  revert s r. induction tokens as [|t tokens IH]; intros s r Hnd H; cbn [settle_each] in H.
  { mrun H. split_and!; try done. intros t Ht. by apply not_elem_of_nil in Ht. }
  rewrite fmap_cons in Hnd. apply NoDup_cons in Hnd as [Hnt Hnd]. mrun H.
  apply settle_one_Ok in H0 as (Hp & Hc & Hf & He). rewrite Htok in *.
  destruct (IH _ _ Hnd H1) as (-> & Hall & Hf' & He').
  assert (Hother : forall t', t' ∈ tokens -> xr_token t' <> xr_token t).
  { intros t' Ht' Heq. apply Hnt. rewrite <- Heq. by apply list_elem_of_fmap_2. }
  split_and!; [done| |..].
  - intros t' [->|Ht'] % elem_of_cons; simpl.
    + unfold stored_pending, user_checkpoint in *. rewrite !Hf'; [done|..];
        intros t' Ht'; specialize (Hother t' Ht'); split; congruence.
    + destruct (Hall t' Ht') as [Hp' Hc']. simpl in Hp', Hc'. pose proof (Hother t' Ht').
      assert (Heq : earned (advance env t') u shares s0 = earned (advance env t') u shares s).
      { unfold earned, user_checkpoint. rewrite !Htok. rewrite !Hf by congruence. done. }
      rewrite Hp', Hc', Heq. unfold stored_pending. rewrite !Hf by congruence. done.
  - intros k Hk. rewrite Hf', Hf; [done| | |]; try (apply Hk; by constructor).
    intros t' Ht'. apply Hk. by constructor.
  - congruence.
Qed.

(** Everything a settlement does. *)
Lemma settle_user_Ok E u s x s' :
  NoDup (xr_token <$> load s) ->
  settle_user (E:=E) env u s = Ok x s' ->
  load s' = advance env <$> load s /\
  (forall t, t ∈ load s ->
     let t' := advance env t in
     stored_pending (xr_token t) u s' =
       (if 0 <? earned t' u (get_shares u s) s
        then sat_add (stored_pending (xr_token t) u s) (earned t' u (get_shares u s) s)
        else stored_pending (xr_token t) u s) /\
     user_checkpoint (xr_token t) u s' = xr_acc_per_share t') /\
  (forall k, k <> KInst ExtraTokens ->
             (forall t, k <> KPers (ExtraPending t u) /\ k <> KPers (ExtraCheckpoint t u)) ->
             rd k s' = rd k s) /\
  st_ext s' = st_ext s.
Proof.
  intros Hnd. unfold settle_user, reading. destruct (load s) as [|t0 ts] eqn:El.
  { intros H. mrun H. rewrite El. split_and!; try done. intros t Ht. by apply not_elem_of_nil in Ht. }
  intros H. mrun H. apply settle_each_Ok in H0 as (-> & Hall & Hf & He); [|done].
  split_and!.
  - unfold load. by rdsimp.
  - intros t Ht. unfold stored_pending, user_checkpoint. rdsimp. by apply Hall.
  - intros k Hk1 Hk2. rewrite rd_upd_ne by done. apply Hf. intros t _. apply Hk2.
  - done.
Qed.

End Settle.

(** ** Claims *)

Section Claims.
Context {W : World} (env : Env).
Implicit Types s : State.

(** What the pool of [t] can pay [u] now. *)
Definition payable (t : ExtraRewardToken) (u : Address) s : Z :=
  Z.min (stored_pending (xr_token t) u s) (xr_pool t).
Definition pay_down (u : Address) s (t : ExtraRewardToken) : ExtraRewardToken :=
  if 0 <? payable t u s then with_pool t (xr_pool t - payable t u s) else t.

Lemma take_payable_Ok E tokens i u s r s' :
  take_payable (E:=E) tokens i u s = Ok r s' ->
  exists t, tokens !! i = Some t /\ r.1 = payable t u s /\ r.2 = <[i := pay_down u s t]> tokens /\
    stored_pending (xr_token t) u s' = stored_pending (xr_token t) u s - Z.max 0 (payable t u s) /\
    (forall k, k <> KPers (ExtraPending (xr_token t) u) -> rd k s' = rd k s) /\
    st_ext s' = st_ext s.
Proof.
  unfold take_payable. intros H. mrun H; exists v; split; try done;
    unfold pay_down, payable; rewrite Heqb.
  - apply checked_sub_Some in H1 as [-> _], H2 as [-> _]. simpl. apply Z.ltb_lt in Heqb.
    rewrite Z.max_r by lia. split_and!; try done.
    + unfold stored_pending. by rdsimp.
    + intros k ?. by rewrite rd_upd_ne by congruence.
  - apply Z.ltb_ge in Heqb. rewrite Z.max_l by done. rewrite list_insert_id by done.
    split_and!; try done. lia.
Qed.

Lemma pay_down_token u s t : xr_token (pay_down u s t) = xr_token t.
Proof. unfold pay_down. by destruct (0 <? _). Qed.

Lemma take_each_Ok E u rest : forall pre s r s',
  NoDup (xr_token <$> rest) ->
  take_each (E:=E) u (length rest) (length pre) (pre ++ rest) s = Ok r s' ->
  r.1 = (fun t => (xr_token t, payable t u s)) <$> rest /\
  r.2 = pre ++ (pay_down u s <$> rest) /\
  (forall t, t ∈ rest -> stored_pending (xr_token t) u s' =
     stored_pending (xr_token t) u s - Z.max 0 (payable t u s)) /\
  (forall k, (forall t, t ∈ rest -> k <> KPers (ExtraPending (xr_token t) u)) -> rd k s' = rd k s) /\
  st_ext s' = st_ext s.
Proof.
  induction rest as [|t rest IH]; intros pre s r s' Hnd H; cbn [take_each length] in H.
  { mrun H. split_and!; try done. intros t Ht. by apply not_elem_of_nil in Ht. }
  rewrite fmap_cons in Hnd. apply NoDup_cons in Hnd as [Hnt Hnd]. mrun H.
  apply take_payable_Ok in H0 as (t1 & Ht1 & Hv1 & Hv2 & Hp & Hf & He).
  rewrite lookup_app_r, Nat.sub_diag in Ht1 by lia. injection Ht1 as <-.
  rewrite Hv2, insert_app_r_alt, Nat.sub_diag in H1, H2 by lia. simpl in H1, H2.
  rewrite lookup_app_r, Nat.sub_diag in H1 by lia. injection H1 as <-.
  replace (S (length pre)) with (length (pre ++ [pay_down u s t])) in H2
    by (rewrite length_app; simpl; lia).
  replace (pre ++ pay_down u s t :: rest) with ((pre ++ [pay_down u s t]) ++ rest) in H2
    by (by rewrite <- app_assoc).
  destruct (IH _ _ _ _ Hnd H2) as (Hr1 & Hr2 & Hall & Hf' & He'). simpl.
  assert (Hother : forall t', t' ∈ rest -> xr_token t' <> xr_token t).
  { intros t' Ht' Heq. apply Hnt. rewrite <- Heq. by apply list_elem_of_fmap_2. }
  assert (Hsame : forall t', t' ∈ rest ->
            stored_pending (xr_token t') u s0 = stored_pending (xr_token t') u s).
  { intros t' Ht'. unfold stored_pending. rewrite Hf; [done|]. pose proof (Hother t' Ht'). congruence. }
  assert (Hpay : forall t', t' ∈ rest -> payable t' u s0 = payable t' u s).
  { intros t' Ht'. unfold payable. by rewrite Hsame. }
  rewrite pay_down_token, Hr1, Hr2, Hv1. split_and!.
  - f_equal. apply list_fmap_ext. intros i t' Ht'. apply list_elem_of_lookup_2 in Ht'. by rewrite Hpay.
  - rewrite <- app_assoc. simpl. do 2 f_equal. apply list_fmap_ext.
    intros i t' Ht'. apply list_elem_of_lookup_2 in Ht'. unfold pay_down. by rewrite Hpay.
  - intros t' [->|Ht'] % elem_of_cons.
    + rewrite <- Hp. unfold stored_pending. rewrite Hf'; [done|].
      intros t' Ht'. pose proof (Hother t' Ht'). congruence.
    + by rewrite Hall, Hsame, Hpay.
  - intros k Hk. rewrite Hf', Hf; [done|apply Hk; by constructor|].
    intros t' Ht'. apply Hk. by constructor.
  - congruence.
Qed.

Lemma pay_out_frame E token u a k s x s' :
  pay_out (E:=E) env token u a s = Ok x s' -> rd k s' = rd k s.
Proof. unfold pay_out. intros H. mrun H; by rdsimp. Qed.

Lemma pay_outs_frame E u l k s x s' :
  for_each l (fun y => pay_out (E:=E) env y.1 u y.2) s = Ok x s' -> rd k s' = rd k s.
Proof.
  revert s. induction l as [|y l IH]; intros s H; cbn [for_each] in H; [by mrun H|].
  apply bind_Ok in H as (v & s1 & H1 & H2). rewrite (IH _ H2).
  by apply (pay_out_frame _ _ _ _ k) in H1.
Qed.

(** [claim_all] pays every extra token independently of the others.  After
    the settlement, the amount reported for each token is the smaller of what
    the user has pending on it and what its own pool holds; exactly that much
    leaves the pending balance and the pool, the rest stays pending, and no
    position or pool total of the vault changes.  A token with an empty pool
    pays zero and takes nothing from the others. *)
Theorem claim_all_independent u s r s' :
  NoDup (xr_token <$> load s) ->
  claim_all (E:=VaultFeature6Error.t) env u s = Ok r s' ->
  exists s1, settle_user (E:=VaultFeature6Error.t) env u s = Ok tt s1 /\
    signed env u = true /\
    r = (fun t => (xr_token t, Z.min (stored_pending (xr_token t) u s1) (xr_pool t))) <$> load s1 /\
    (forall t, t ∈ load s1 ->
       stored_pending (xr_token t) u s' + Z.max 0 (Z.min (stored_pending (xr_token t) u s1) (xr_pool t))
       = stored_pending (xr_token t) u s1) /\
    load s' = (fun t => with_pool t (xr_pool t -
                Z.max 0 (Z.min (stored_pending (xr_token t) u s1) (xr_pool t)))) <$> load s1 /\
    (forall v, get_shares v s' = get_shares v s) /\
    get_total_shares s' = get_total_shares s /\ get_total_deposited s' = get_total_deposited s.
Proof.
  intros Hnd H. unfold claim_all in H.
  apply bind_Ok in H as (a0 & s0 & H0 & H). apply require_auth_Ok in H0 as (Hs & _ & ->).
  apply bind_Ok in H as (a1 & s1 & H1 & H). destruct a1. exists s1. split; [done|]. split; [done|].
  apply settle_user_Ok in H1 as (Hload & _ & Hf & _); [|done].
  assert (Hnd1 : NoDup (xr_token <$> load s1)).
  { rewrite Hload, <- list_fmap_compose.
    rewrite (list_fmap_ext _ xr_token (load s)); [done|].
    intros i t _. unfold compose, advance. by destruct (_ <=? _). }
  unfold reading at 1 in H. apply bind_Ok in H as (p & s2 & H2 & H).
  destruct (take_each_Ok _ u (load s1) [] s1 p s2 Hnd1 H2) as (Hp1 & Hp2 & Hall & Hf2 & _).
  apply bind_Ok in H as (a3 & s3 & H3 & H). mrun H3. apply bind_Ok in H as (a4 & s4 & H4 & H).
  mrun H. pose proof (fun k => pay_outs_frame _ u _ k _ _ _ H4) as Hk.
  assert (Hrd : forall k, k <> KInst ExtraTokens ->
    (forall t, k <> KPers (ExtraPending t u) /\ k <> KPers (ExtraCheckpoint t u)) ->
    rd k s4 = rd k s).
  { intros k Hk1 Hk2. rewrite Hk, rd_upd_ne by done. rewrite Hf2; [by apply Hf|].
    intros t _. apply Hk2. }
  split_and!.
  - done.
  - intros t Ht. unfold stored_pending at 1. rewrite Hk. rdsimp.
    fold (stored_pending (xr_token t) u s2). rewrite Hall by done. unfold payable. lia.
  - unfold load at 1. rewrite Hk. rdsimp. rewrite Hp2. simpl. apply list_fmap_ext.
    intros i t _. unfold pay_down, payable. destruct (Z.ltb_spec 0 (Z.min (stored_pending (xr_token t) u s1) (xr_pool t))).
    + by rewrite Z.max_r by lia.
    + rewrite Z.max_l, Z.sub_0_r by lia. by destruct t.
  - intros v. unfold get_shares. by rewrite Hrd.
  - unfold get_total_shares. by rewrite Hrd.
  - unfold get_total_deposited. by rewrite Hrd.
Qed.

End Claims.

(** Two extra tokens, 5 and 6, both with a rate; user 7 holds 1000 shares and
    has 30 and 40 pending.  The pool of 5 holds 100 units, that of 6 none. *)
Definition two_tokens : State (W := token_world) :=
  upd (ShareBalance 7) (Some 1000) (upd (ExtraPending 5 7) (Some 30) (upd (ExtraPending 6 7) (Some 40)
    (upd ExtraTokens (Some [mkExtraRewardToken 5 2000 0 10 100; mkExtraRewardToken 6 1000 0 10 0])
      (start_state (fun t a => if decide (t = 5%positive) then if decide (a = 1%positive) then 100 else 0 else 0))))).

Lemma claim_all_independent_witness :
  exists s', claim_all (E:=VaultFeature6Error.t) (at_ledger 20) 7 two_tokens
      = Ok [(5%positive, 30); (6%positive, 0)] s' /\
    xr_pool <$> load s' = [70; 0] /\ get_shares 7 s' = get_shares 7 two_tokens.
Proof.
  assert (Hnd : NoDup (xr_token <$> load two_tokens)).
  { replace (xr_token <$> load two_tokens) with [5; 6]%positive by (by vm_compute).
    repeat constructor; set_solver. }
  destruct (claim_all (E:=VaultFeature6Error.t) (at_ledger 20) 7 two_tokens) as [r s'| |] eqn:H;
    [|by vm_compute in H..].
  destruct (claim_all_independent (at_ledger 20) 7 two_tokens r s' Hnd H)
    as (s1 & Hs & _ & -> & _ & Hl & Hsh & _).
  vm_compute in Hs. injection Hs as <-.
  exists s'. split; [|split].
  - f_equal.
  - rewrite Hl. by vm_compute.
  - apply Hsh.
Defined.
