(* ===== verification/Accumulator.v ===== *)
(** * Global reward-per-share accumulator ([reward_accumulator.rs])

    The index grows with the ledger count and the base rate; each position
    stores the index at its last checkpoint.  Every entry is kept under two
    storage keys, the structured [StorageKey] and the older raw symbol; reads
    prefer the first. *)

From S2P Require Import Prelude Errors Storage Host Accessors RewardMath Concrete.

Definition ACCUMULATOR_SCALE : Z := 10 ^ 12.

Section Accumulator.
Context {W : World} (env : Env).
Implicit Types s : State.

Definition get_global_reward_per_share s : Z :=
  match rd GlobalRewardIndex s with
  | Some v => v
  | None => default 0 (rd GlobalRewardIndexLegacy s)
  end.

Definition set_global_reward_per_share {E} (index : Z) : M E unit :=
  put GlobalRewardIndex index ;;; put GlobalRewardIndexLegacy index.

Definition get_last_accumulator_ledger s : option Z :=
  match rd LastAccumulatorLedger s with
  | Some v => Some v
  | None => rd LastAccumulatorLedgerLegacy s
  end.

Definition set_last_accumulator_ledger {E} (ledger : Z) : M E unit :=
  put LastAccumulatorLedger ledger ;;; put LastAccumulatorLedgerLegacy ledger.

Definition get_user_checkpoint (user : Address) s : Z :=
  match rd (UserRewardCheckpoint user) s with
  | Some v => v
  | None => match rd (UserRewardCheckpointLegacy user) s with
            | Some v => v
            | None => get_global_reward_per_share s
            end
  end.

Definition checkpoint_user {E} (user : Address) : M E unit :=
  let& global_index := get_global_reward_per_share in
  put (UserRewardCheckpoint user) global_index ;;;
  put (UserRewardCheckpointLegacy user) global_index.

Definition init_accumulator {E} : M E unit :=
  set_last_accumulator_ledger (sequence env) ;;;
  let& present := has GlobalRewardIndexLegacy in
  if present then ret tt else set_global_reward_per_share 0.

Definition update_global_accumulator : M VaultError.t Z :=
  let current_ledger := sequence env in
  let& last := get_last_accumulator_ledger in
  let last_ledger := default current_ledger last in
  let& index := get_global_reward_per_share in
  if last_ledger <? current_ledger then
    let elapsed := current_ledger - last_ledger in
    let& total_shares := get_total_shares in
    let& rate_bps := get_reward_rate_bps in
    let! index :=
      (if (0 <? total_shares) && (0 <? rate_bps) then
         let! x := ok_or (checked_mul rate_bps elapsed) VaultError.ArithmeticError in
         let! numerator := ok_or (checked_mul x ACCUMULATOR_SCALE) VaultError.ArithmeticError in
         let! denominator :=
           ok_or (checked_mul BPS STELLAR_LEDGERS_PER_YEAR) VaultError.ArithmeticError in
         let! delta_index := ok_or (checked_div numerator denominator) VaultError.ArithmeticError in
         let! index := ok_or (checked_add index delta_index) VaultError.ArithmeticError in
         set_global_reward_per_share index ;;;
         publish [VSym "rw_acc"] [VInt index; VInt current_ledger] ;;;
         ret index
       else ret index) in
    set_last_accumulator_ledger current_ledger ;;;
    ret index
  else ret index.

Definition compute_accumulated_reward (user : Address) (shares : Z) : M VaultError.t Z :=
  if shares <=? 0 then ret 0
  else
    let& global_index := get_global_reward_per_share in
    let& user_checkpoint := get_user_checkpoint user in
    if global_index <=? user_checkpoint then ret 0
    else
      let! delta := ok_or (checked_sub global_index user_checkpoint) VaultError.ArithmeticError in
      let! x := ok_or (checked_mul shares delta) VaultError.ArithmeticError in
      ok_or (checked_div x ACCUMULATOR_SCALE) VaultError.ArithmeticError.

End Accumulator.

#[export] Hint Unfold set_global_reward_per_share set_last_accumulator_ledger checkpoint_user : mrun.

Section Facts.
Context {W : World} (env : Env).
Implicit Types s : State.

Definition accumulator_key (k : key) : Prop :=
  k = KInst GlobalRewardIndex \/ k = KInst GlobalRewardIndexLegacy \/
  k = KInst LastAccumulatorLedger \/ k = KInst LastAccumulatorLedgerLegacy.

Lemma update_touches : touches accumulator_key (update_global_accumulator env).
Proof.
  unfold update_global_accumulator, set_global_reward_per_share, set_last_accumulator_ledger.
  frames; apply touches_put; unfold accumulator_key; auto.
Qed.
Lemma update_keeps : keeps_ext (update_global_accumulator env).
Proof.
  unfold update_global_accumulator, set_global_reward_per_share, set_last_accumulator_ledger. frames.
Qed.
Lemma checkpoint_user_touches E u :
  touches (fun k => k = KPers (UserRewardCheckpoint u) \/ k = KPers (UserRewardCheckpointLegacy u))
    (checkpoint_user (E:=E) u).
Proof. unfold checkpoint_user. frames; apply touches_put; auto. Qed.
Lemma checkpoint_user_keeps E u : keeps_ext (checkpoint_user (E:=E) u).
Proof. unfold checkpoint_user. frames. Qed.

(** The index growth of a stretch of ledgers. *)
Definition index_delta (rate_bps elapsed : Z) : Z :=
  rate_bps * elapsed * ACCUMULATOR_SCALE / (BPS * STELLAR_LEDGERS_PER_YEAR).

(** The accumulator update is total on machine-sized inputs and exact: it
    never fails for a u32 rate and ledger distance while the index has
    headroom, it advances the index by rate * ledgers * scale / (10_000 *
    ledgers per year) when there are shares and a rate and leaves it alone
    otherwise, records the current ledger, and a second update in the same
    ledger changes nothing. *)
Theorem update_global_accumulator_exact s last :
  get_last_accumulator_ledger s = Some last -> 0 <= last -> in_u32 (sequence env) ->
  bps_range (get_reward_rate_bps s) ->
  0 <= get_global_reward_per_share s <= 2 ^ 100 ->
  let index := if (last <? sequence env) && (0 <? get_total_shares s)
               then get_global_reward_per_share s +
                    index_delta (get_reward_rate_bps s) (sequence env - last)
               else get_global_reward_per_share s in
  exists s', update_global_accumulator env s = Ok index s' /\
    get_global_reward_per_share s' = index /\
    get_last_accumulator_ledger s' = Some (Z.max last (sequence env)) /\
    update_global_accumulator env s' = Ok index s'.
Proof.
  intros Hlast H0 Hseq Hrate Hidx index. unfold in_u32, bps_range in *.
  assert (Hidem : forall s', get_global_reward_per_share s' = index ->
     get_last_accumulator_ledger s' = Some (Z.max last (sequence env)) ->
     update_global_accumulator env s' = Ok index s').
  { intros s' Hi Hl. unfold update_global_accumulator, reading. rewrite Hl, Hi.
    simpl. by rewrite (proj2 (Z.ltb_ge (Z.max last (sequence env)) (sequence env))) by lia. }
  enough (exists s', update_global_accumulator env s = Ok index s' /\
     get_global_reward_per_share s' = index /\
     get_last_accumulator_ledger s' = Some (Z.max last (sequence env))) as (s' & H1 & H2 & H3)
    by eauto 10.
  unfold update_global_accumulator, reading. rewrite Hlast. cbn [from_option id]. subst index.
  destruct (Z.ltb_spec last (sequence env)) as [Hlt|Hge]; cbn [andb].
  2: { exists s. split_and!; [done..|]. rewrite Hlast. f_equal. lia. }
  set (r := get_reward_rate_bps s) in *. set (n := sequence env - last).
  set (g := get_global_reward_per_share s) in *.
  assert (Hfin : forall s1 s2 i, get_global_reward_per_share s1 = i ->
    (set_last_accumulator_ledger (E:=VaultError.t) (sequence env) ;;; ret i) s1 = Ok i s2 ->
    get_global_reward_per_share s2 = i /\
    get_last_accumulator_ledger s2 = Some (Z.max last (sequence env))).
  { intros s1 s2 i Hi Hrun. mrun Hrun. unfold get_global_reward_per_share, get_last_accumulator_ledger in *.
    rdsimp. split; [done|]. f_equal. lia. }
  destruct (0 <? get_total_shares s); cbn [andb].
  2: { eexists. split; [reflexivity|]. by apply (Hfin s). }
  destruct (Z.ltb_spec 0 r).
  - assert (B1 : 0 <= r * n <= u32_max * u32_max) by (apply mul_bound; lia).
    assert (B2 : 0 <= r * n * ACCUMULATOR_SCALE <= u32_max * u32_max * ACCUMULATOR_SCALE)
      by (apply mul_bound; [done|unfold ACCUMULATOR_SCALE; lia]).
    unfold index_delta. set (den := BPS * STELLAR_LEDGERS_PER_YEAR).
    assert (B3 : 0 <= r * n * ACCUMULATOR_SCALE / den <= r * n * ACCUMULATOR_SCALE).
    { split; [apply Z.div_pos; [lia|by vm_compute]|].
      apply Z.div_le_upper_bound; [by vm_compute|]. unfold den, BPS, STELLAR_LEDGERS_PER_YEAR. lia. }
    unfold checked_mul, checked_add. fold den. unfold ACCUMULATOR_SCALE, u32_max in *.
    rewrite (to_i128_in (r * n)) by (apply small_in_i128; lia).
    cbn [ok_or]. unfold bind at 2, ret at 1.
    rewrite to_i128_in by (apply small_in_i128; lia). cbn [ok_or]. unfold bind at 2, ret at 1.
    rewrite (to_i128_in den) by (apply small_in_i128; unfold den, BPS, STELLAR_LEDGERS_PER_YEAR; lia).
    cbn [ok_or]. unfold bind at 2, ret at 1.
    unfold checked_div. replace (den =? 0) with false by reflexivity.
    rewrite quot_floor by (lia || by vm_compute).
    rewrite to_i128_in by (apply small_in_i128; lia). cbn [ok_or]. unfold bind at 2, ret at 1.
    rewrite to_i128_in by (apply small_in_i128; lia). cbn [ok_or]. unfold bind at 2, ret at 1.
    eexists. split; [reflexivity|]. eapply Hfin; [|reflexivity].
    unfold get_global_reward_per_share. by rdsimp.
  - replace r with 0 by lia. assert (Hz : index_delta 0 n = 0) by reflexivity.
    rewrite Hz, Z.add_0_r. eexists. split; [reflexivity|]. by apply (Hfin s).
Qed.
End Facts.

(** 500 shares at 12% and an index last updated at ledger 100. *)
Definition indexed : State (W := token_world) :=
  upd TotalShares (Some 500) (upd RewardRateBps (Some 1200)
    (upd GlobalRewardIndex (Some 77) (upd LastAccumulatorLedger (Some 100)
      (start_state (fun _ _ => 0))))).

Lemma update_global_accumulator_exact_witness :
  exists s', update_global_accumulator (at_ledger 400) indexed
      = Ok (77 + index_delta 1200 300) s' /\
    get_last_accumulator_ledger s' = Some 400 /\
    update_global_accumulator (at_ledger 400) s' = Ok (77 + index_delta 1200 300) s'.
Proof.
  destruct (update_global_accumulator_exact (at_ledger 400) indexed 100) as (s' & H1 & _ & H2 & H3);
    [by vm_compute|done|by vm_compute|by vm_compute|split; by vm_compute|].
  exists s'. split; [exact H1|]. split; [exact H2|exact H3].
Defined.
