(* ===== verification/Accrual.v ===== *)
(** * Reward accrual between two ledgers

    [VaultContract::reward_between_ledgers] of [vault.rs]: the walk over the
    segments cut out by halving, boost-tier, campaign and season boundaries,
    the carried sub-unit remainder, and its callers [accrue_rewards] and
    [pending_reward].

    The source loop has no bound of its own; a run that does not end exhausts
    the host's budget.  [walk] takes that budget as [fuel] and traps with
    [TBudget] when it is spent.  [accrual_terminates] shows that one unit per ledger
    of the window is always enough on a schedule with a positive floor, and
    that the result is the per-ledger sum [ref_dust]; [zero_rate_tier_diverges]
    shows the configuration on which no budget is enough. *)

From Stdlib Require Import Sorted.
From S2P Require Import Prelude Errors Storage Host Concrete RewardMath.

(** The configuration the walk loads once. *)
Record AccrualCfg := mkAccrualCfg {
  ac_halving : option HalvingConfig;
  ac_reduction_bps : Z;
  ac_campaign : option CampaignInfo;
  ac_seasons : list Season;
  ac_schedule : list (Z * Z)
}.

Section Walk.
Context {W : World} (env : Env).

(** [u32] arithmetic of [config.started_at + (count + 1) * interval]. *)
Definition next_halving_boundary (cfg : AccrualCfg) (cursor : Z) : M VaultError.t Z :=
  match ac_halving cfg with
  | Some config =>
      if 0 <? hv_interval_ledgers config then
        let count := halving_count_at (ac_halving cfg) cursor in
        let! n := plain (to_u32 (count + 1)) in
        let! d := plain (to_u32 (n * hv_interval_ledgers config)) in
        plain (to_u32 (hv_started_at config + d))
      else ret u32_max
  | None => ret u32_max
  end.

(** [seg_rate]: [None] is the [continue] of a non-positive halved rate. *)
Definition segment_rate (cfg : AccrualCfg) (base_rate cursor : Z) : option Z :=
  match ac_halving cfg with
  | Some _ =>
      let r := halving_adjusted_rate (ac_halving cfg) (ac_reduction_bps cfg) base_rate cursor in
      if r <=? 0 then None else Some (r mod 2 ^ 32)
  | None => Some base_rate
  end.

(** The tiers already elapsed at the start of the window. *)
Fixpoint skip_tiers (staked_at cursor current_multiplier : Z) (tiers : list (Z * Z))
    : Z * list (Z * Z) :=
  match tiers with
  | [] => (current_multiplier, [])
  | (tier_ledger, tier_mult) :: rest =>
      if u32_sat_add staked_at tier_ledger <=? cursor
      then skip_tiers staked_at cursor tier_mult rest
      else (current_multiplier, tiers)
  end.

Definition lift_arith (r : Z + VaultError.t) : M VaultError.t Z :=
  match r with inl z => ret z | inr e => throw e end.

Definition emit_halving (cfg : AccrualCfg) (base_rate ledger : Z) : M VaultError.t unit :=
  publish [VSym "halving"; VAddr (self env)]
    [VInt (halving_count_at (ac_halving cfg) ledger);
     VInt (halving_adjusted_rate (ac_halving cfg) (ac_reduction_bps cfg) base_rate ledger);
     VInt ledger].

(** The [while cursor < end_ledger] loop.  [tiers] is the schedule from
    [tier_index] on.  Returns the dust, the final cursor and multiplier. *)
Fixpoint walk (fuel : nat) (cfg : AccrualCfg) (shares base_rate staked_at end_ledger cursor
    current_multiplier : Z) (tiers : list (Z * Z)) (total_dust : Z) {struct fuel}
    : M VaultError.t (Z * Z * Z) :=
  if end_ledger <=? cursor then ret (total_dust, cursor, current_multiplier)
  else
    match fuel with
    | O => panic TBudget
    | S fuel =>
      let! next_halving := next_halving_boundary cfg cursor in
      let next_tier := match tiers with
                       | (tier_ledger, _) :: _ => u32_sat_add staked_at tier_ledger
                       | [] => u32_max
                       end in
      let (campaign_mult, next_campaign) := campaign_info_at cursor (ac_campaign cfg) in
      let (season_mult, next_season) := season_info_at (ac_seasons cfg) cursor in
      let seg_end := Z.min (Z.min (Z.min (Z.min next_halving next_tier)
                       next_campaign) next_season) end_ledger in
      match segment_rate cfg base_rate cursor with
      | None =>
          walk fuel cfg shares base_rate staked_at end_ledger seg_end
            current_multiplier tiers total_dust
      | Some seg_rate =>
          let! elapsed := plain (to_u32 (seg_end - cursor)) in
          let! segment_dust := lift_arith (reward_dust_for_ledgers shares seg_rate
                                 current_multiplier campaign_mult season_mult elapsed) in
          let! total_dust := ok_or (checked_add total_dust segment_dust)
                               VaultError.ArithmeticError in
          (if (seg_end =? next_halving) && (next_halving <? end_ledger)
           then emit_halving cfg base_rate seg_end else ret tt) ;;;
          match tiers with
          | (_, tier_mult) :: rest =>
              if seg_end =? next_tier
              then walk fuel cfg shares base_rate staked_at end_ledger seg_end
                     tier_mult rest total_dust
              else walk fuel cfg shares base_rate staked_at end_ledger seg_end
                     current_multiplier tiers total_dust
          | [] => walk fuel cfg shares base_rate staked_at end_ledger seg_end
                    current_multiplier tiers total_dust
          end
      end
    end.

(** The body of [reward_between_ledgers] from the tier skip to the final
    segment: total dust of [[start_ledger, end_ledger)]. *)
Definition window_dust (fuel : nat) (cfg : AccrualCfg)
    (shares base_rate staked_at start_ledger end_ledger : Z) : M VaultError.t Z :=
  let (mult, tiers) := skip_tiers staked_at start_ledger BPS (ac_schedule cfg) in
  let! r := walk fuel cfg shares base_rate staked_at end_ledger start_ledger mult tiers 0 in
  let '(total_dust, cursor, current_multiplier) := r in
  let! left := plain (to_u32 (end_ledger - cursor)) in
  let! final := lift_arith (reward_dust_for_ledgers shares base_rate current_multiplier
                  BPS BPS left) in
  ok_or (checked_add total_dust final) VaultError.ArithmeticError.

End Walk.

(** ** Reference: the sum over ledgers *)

(** The multiplier in force at ledger [l], from the tiers passed by then. *)
Fixpoint tier_at (staked_at l mult : Z) (tiers : list (Z * Z)) : Z :=
  match tiers with
  | [] => mult
  | (t, m) :: rest =>
      if u32_sat_add staked_at t <=? l then tier_at staked_at l m rest else mult
  end.

Definition rate_at (cfg : AccrualCfg) (base_rate l : Z) : Z :=
  default 0 (segment_rate cfg base_rate l).

(** Dust earned by [shares] during ledger [l] alone. *)
Definition ledger_dust (cfg : AccrualCfg) (shares base_rate staked_at mult : Z)
    (tiers : list (Z * Z)) (l : Z) : Z :=
  shares * stacked (rate_at cfg base_rate l) (tier_at staked_at l mult tiers)
             (campaign_info_at l (ac_campaign cfg)).1 (season_info_at (ac_seasons cfg) l).1.

Definition ref_dust (cfg : AccrualCfg) (shares base_rate staked_at a b : Z) : Z :=
  sum_from (ledger_dust cfg shares base_rate staked_at BPS (ac_schedule cfg)) a (Z.to_nat (b - a)).

(** ** Well-formed configurations

    What the admin setters enforce: [set_halving_schedule] (positive interval,
    reduction between 1 and 10_000 bps), [set_boost_schedule] (strictly
    increasing tiers), [add_season] (non-empty, pairwise disjoint ranges).
    [wf_floor] is the extra condition [floor_rate_bps > 0], which
    [set_halving_schedule] does not enforce. *)

Definition season_disjoint (a b : Season) : Prop :=
  sn_ends_at a <= sn_starts_at b \/ sn_ends_at b <= sn_starts_at a.

Record wf_cfg (cfg : AccrualCfg) (end_ledger : Z) : Prop := {
  wf_interval : forall c, ac_halving cfg = Some c ->
    0 < hv_interval_ledgers c /\ 0 <= hv_started_at c /\
    hv_started_at c + hv_interval_ledgers c <= u32_max /\
    end_ledger + hv_interval_ledgers c <= u32_max;
  wf_floor : forall c, ac_halving cfg = Some c -> 0 < hv_floor_rate_bps c <= u32_max;
  wf_reduction : 0 <= ac_reduction_bps cfg <= BPS;
  wf_campaign : forall c, ac_campaign cfg = Some c -> bps_range (cp_multiplier_bps c);
  wf_season : forall s, s ∈ ac_seasons cfg -> bps_range (sn_multiplier_bps s);
  wf_seasons : ForallOrdPairs season_disjoint (ac_seasons cfg);
  wf_tiers : StronglySorted (fun x y => x.1 < y.1) (ac_schedule cfg);
  wf_tier : forall t m, (t, m) ∈ ac_schedule cfg -> 0 <= t /\ bps_range m
}.

(** ** Boundaries: a multiplier is constant up to its next boundary *)

Lemma halving_count_const config c l interval started :
  config = Some c -> 0 < interval -> hv_interval_ledgers c = interval ->
  hv_started_at c = started ->
  forall cursor, cursor <= l < started + (halving_count_at config cursor + 1) * interval ->
  halving_count_at config l = halving_count_at config cursor.
Proof.
  intros -> Hi <- <- cursor. cbn [halving_count_at].
  destruct (Z.ltb_spec 0 (hv_interval_ledgers c)); [|lia]. cbn [andb].
  set (i := hv_interval_ledgers c) in *. set (st := hv_started_at c).
  destruct (Z.ltb_spec st cursor), (Z.ltb_spec st l); intros Hl; try lia.
  - symmetry. apply (Z.div_unique _ i _ (l - st - i * ((cursor - st) / i))); [left|lia].
    pose proof (Z.mul_div_le (cursor - st) i Hi). lia.
  - apply Z.div_small. lia.
Qed.

Lemma halving_boundary_gt config c cursor :
  config = Some c -> 0 < hv_interval_ledgers c ->
  cursor < hv_started_at c + (halving_count_at config cursor + 1) * hv_interval_ledgers c
        <= Z.max cursor (hv_started_at c) + hv_interval_ledgers c.
Proof.
  intros -> Hi. cbn [halving_count_at].
  destruct (Z.ltb_spec 0 (hv_interval_ledgers c)); [|lia]. cbn [andb].
  set (i := hv_interval_ledgers c) in *. set (st := hv_started_at c).
  destruct (Z.ltb_spec st cursor); [|lia].
  pose proof (Z.mul_div_le (cursor - st) i Hi).
  pose proof (Z.mul_succ_div_gt (cursor - st) i Hi). lia.
Qed.

Lemma campaign_const campaign cursor l :
  cursor <= l < (campaign_info_at cursor campaign).2 ->
  (campaign_info_at l campaign).1 = (campaign_info_at cursor campaign).1.
Proof.
  unfold campaign_info_at. destruct campaign as [c|]; [|done].
  destruct (Z.leb_spec (cp_starts_at_ledger c) cursor), (Z.ltb_spec cursor (cp_ends_at_ledger c)),
    (Z.ltb_spec cursor (cp_starts_at_ledger c)),
    (Z.leb_spec (cp_starts_at_ledger c) l), (Z.ltb_spec l (cp_ends_at_ledger c)),
    (Z.ltb_spec l (cp_starts_at_ledger c)); simpl; intros; try done; lia.
Qed.

Lemma campaign_boundary_gt campaign cursor :
  cursor < u32_max -> cursor < (campaign_info_at cursor campaign).2.
Proof.
  unfold campaign_info_at. destruct campaign as [c|]; [|done].
  destruct (Z.leb_spec (cp_starts_at_ledger c) cursor), (Z.ltb_spec cursor (cp_ends_at_ledger c)),
    (Z.ltb_spec cursor (cp_starts_at_ledger c)); simpl; lia.
Qed.

Lemma find_active_Some seasons l s :
  find_active_season seasons l = Some s -> s ∈ seasons /\ sn_starts_at s <= l < sn_ends_at s.
Proof.
  induction seasons as [|s' rest IH]; simpl; [done|].
  destruct (Z.leb_spec (sn_starts_at s') l), (Z.ltb_spec l (sn_ends_at s')); simpl;
    try (intros Hf; apply IH in Hf as [? ?]; split; [by constructor|lia]).
  intros [= ->]. split; [by constructor|lia].
Qed.

Lemma find_active_None seasons l :
  find_active_season seasons l = None ->
  forall s, s ∈ seasons -> ~ (sn_starts_at s <= l < sn_ends_at s).
Proof.
  induction seasons as [|s' rest IH]; simpl; [set_solver|].
  destruct (Z.leb_spec (sn_starts_at s') l), (Z.ltb_spec l (sn_ends_at s')); simpl;
    intros Hf s Hs; try done; apply elem_of_cons in Hs as [->|Hs]; try lia; by apply IH.
Qed.

(** With disjoint seasons the active season is the one containing the ledger. *)
Lemma find_active_in seasons l s :
  ForallOrdPairs season_disjoint seasons -> s ∈ seasons ->
  sn_starts_at s <= l < sn_ends_at s -> find_active_season seasons l = Some s.
Proof.
  induction 1 as [|s' rest Hall Hrest IH]; [set_solver|]. intros Hs Hl. simpl.
  apply elem_of_cons in Hs as [->|Hs].
  - destruct (Z.leb_spec (sn_starts_at s') l), (Z.ltb_spec l (sn_ends_at s')); simpl; done || lia.
  - rewrite List.Forall_forall in Hall. pose proof (Hall s (proj1 (list_elem_of_In _ _) Hs)) as Hd.
    unfold season_disjoint in Hd.
    destruct (Z.leb_spec (sn_starts_at s') l), (Z.ltb_spec l (sn_ends_at s')); simpl; auto; lia.
Qed.

Lemma next_season_start_spec seasons cursor n :
  next_season_start seasons cursor n <= n /\
  (cursor < n -> cursor < next_season_start seasons cursor n) /\
  (forall s, s ∈ seasons -> cursor < sn_starts_at s ->
             next_season_start seasons cursor n <= sn_starts_at s).
Proof.
  revert n. induction seasons as [|s rest IH]; intros n; simpl.
  { split_and!; [done|done|set_solver]. }
  destruct (IH (if (cursor <? sn_starts_at s) && (sn_starts_at s <? n)
                then sn_starts_at s else n)) as (H1 & H2 & H3).
  destruct (Z.ltb_spec cursor (sn_starts_at s)), (Z.ltb_spec (sn_starts_at s) n);
    simpl in *; split_and!; try lia;
    intros s' Hs'; apply elem_of_cons in Hs' as [->|Hs']; auto; lia.
Qed.

Lemma season_const seasons cursor l :
  ForallOrdPairs season_disjoint seasons ->
  cursor <= l < (season_info_at seasons cursor).2 ->
  (season_info_at seasons l).1 = (season_info_at seasons cursor).1.
Proof.
  intros Hd. unfold season_info_at.
  destruct (find_active_season seasons cursor) as [s|] eqn:Ec; simpl; intros Hl.
  - apply find_active_Some in Ec as [Hin Hr]. by rewrite (find_active_in _ l s) by (done || lia).
  - destruct (find_active_season seasons l) as [s|] eqn:El; [|done].
    apply find_active_Some in El as [Hin Hr].
    pose proof (find_active_None _ _ Ec s Hin).
    destruct (next_season_start_spec seasons cursor u32_max) as (_ & _ & Hn).
    specialize (Hn s Hin). lia.
Qed.

Lemma season_boundary_gt seasons cursor :
  cursor < u32_max -> cursor < (season_info_at seasons cursor).2.
Proof.
  intros. unfold season_info_at.
  destruct (find_active_season seasons cursor) as [s|] eqn:Ec; simpl.
  - apply find_active_Some in Ec. lia.
  - by apply (next_season_start_spec seasons cursor u32_max).
Qed.

(** ** The walk is the per-ledger sum *)

Section WalkCorrect.
Context {W : World} (env : Env).
Context (cfg : AccrualCfg) (shares base_rate staked_at end_ledger : Z).
Context (Hwf : wf_cfg cfg end_ledger) (Hshares : 0 <= shares) (Hbase : bps_range base_rate)
  (Hend : in_u32 end_ledger).

Lemma halve_loop_range n e k f :
  0 <= k <= BPS -> 0 <= e <= u32_max -> 0 <= halve_loop n e k f <= u32_max.
Proof.
  intros Hk. revert e. induction n as [|n IH]; intros e He; simpl; [done|].
  destruct (f <? e); [|done]. apply IH.
  assert (0 <= e * k <= e * BPS) by (unfold BPS in *; nia).
  rewrite quot_floor by (unfold BPS in *; lia). unfold BPS in *.
  split; [apply Z.div_pos; lia|]. apply Z.div_le_upper_bound; lia.
Qed.

Lemma segment_rate_ok cursor :
  exists r, segment_rate cfg base_rate cursor = Some r /\ bps_range r.
Proof.
  unfold segment_rate. destruct (ac_halving cfg) as [c|] eqn:Ec; [|by exists base_rate].
  pose proof (wf_floor _ _ Hwf c Ec) as Hf. pose proof (wf_reduction _ _ Hwf) as Hr.
  cbn [halving_adjusted_rate].
  set (h := halve_loop _ _ _ _).
  assert (0 <= h <= u32_max) by (apply halve_loop_range; [lia|exact Hbase]).
  destruct (Z.leb_spec (Z.max h (hv_floor_rate_bps c)) 0); [lia|].
  exists (Z.max h (hv_floor_rate_bps c)). unfold bps_range.
  rewrite Z.mod_small by (unfold u32_max in *; lia). split; [done|lia].
Qed.

Lemma next_halving_boundary_ok cursor :
  0 <= cursor < end_ledger ->
  exists b, (forall s, next_halving_boundary cfg cursor s = Ok b s) /\ cursor < b /\
    forall l, cursor <= l < b -> segment_rate cfg base_rate l = segment_rate cfg base_rate cursor.
Proof.
  intros Hc. unfold next_halving_boundary, segment_rate.
  destruct (ac_halving cfg) as [c|] eqn:Ec.
  2: { exists u32_max. unfold in_u32 in Hend. split_and!; [done|lia|done]. }
  destruct (wf_interval _ _ Hwf c Ec) as (Hi & Hst & Hsi & Hei).
  destruct (Z.ltb_spec 0 (hv_interval_ledgers c)); [|lia].
  set (n := halving_count_at (Some c) cursor).
  destruct (halving_boundary_gt (Some c) c cursor eq_refl Hi) as [Hlt Hle]. fold n in Hlt, Hle.
  assert (Hn : 0 <= n).
  { subst n. cbn [halving_count_at]. destruct (_ && _) eqn:E; [|lia].
    apply andb_true_iff in E as [_ E%Z.ltb_lt]. apply Z.div_pos; lia. }
  assert (n + 1 <= (n + 1) * hv_interval_ledgers c) by nia.
  exists (hv_started_at c + (n + 1) * hv_interval_ledgers c). split_and!; [|lia|].
  - intros s. unfold to_u32 at 1.
    rewrite (proj2 (in_u32b_spec (n + 1))) by (unfold in_u32; lia).
    unfold bind, plain at 1, ret at 1.
    unfold to_u32 at 1. rewrite (proj2 (in_u32b_spec _)) by (unfold in_u32; lia).
    unfold plain at 1, ret at 1. unfold to_u32.
    by rewrite (proj2 (in_u32b_spec _)) by (unfold in_u32; lia).
  - intros l Hl. unfold halving_adjusted_rate.
    by rewrite (halving_count_const (Some c) c l _ _ eq_refl Hi eq_refl eq_refl cursor) by exact Hl.
Qed.

(** Tiers left at [cursor]: sorted, in range, the first one still ahead. *)
Definition tiers_ahead (cursor : Z) (tiers : list (Z * Z)) : Prop :=
  StronglySorted (fun x y => x.1 < y.1) tiers /\
  (forall t m, (t, m) ∈ tiers -> bps_range m) /\
  (cursor < end_ledger -> match tiers with (t, _) :: _ => cursor < u32_sat_add staked_at t | [] => True end).

Lemma tiers_ahead_step cursor t m rest :
  tiers_ahead cursor ((t, m) :: rest) -> tiers_ahead (u32_sat_add staked_at t) rest.
Proof.
  intros (Hs & Hb & Hc). apply StronglySorted_inv in Hs as [Hs Hf]. split_and!; [done| |].
  - intros t' m' ?. apply (Hb t' m'). by constructor.
  - destruct rest as [|[t' m'] rest]; [done|]. apply List.Forall_inv in Hf. simpl in Hf.
    unfold u32_sat_add, in_u32 in *. lia.
Qed.

Lemma tier_at_range mult tiers l :
  bps_range mult -> (forall t m, (t, m) ∈ tiers -> bps_range m) ->
  bps_range (tier_at staked_at l mult tiers).
Proof.
  revert mult. induction tiers as [|[t m] rest IH]; intros mult Hm Hb; simpl; [done|].
  destruct (_ <=? _); [|done]. apply IH.
  - apply (Hb t). by constructor.
  - intros t' m' ?. apply (Hb t'). by constructor.
Qed.

Lemma campaign_range l : bps_range (campaign_info_at l (ac_campaign cfg)).1.
Proof.
  unfold campaign_info_at. destruct (ac_campaign cfg) as [c|] eqn:Ec; [|by vm_compute].
  pose proof (wf_campaign _ _ Hwf c Ec). by repeat destruct (_ && _) || destruct (_ <? _).
Qed.

Lemma season_range l : bps_range (season_info_at (ac_seasons cfg) l).1.
Proof.
  unfold season_info_at. destruct (find_active_season _ _) as [s|] eqn:Es; [|by vm_compute].
  apply find_active_Some in Es as [? _]. by apply (wf_season _ _ Hwf).
Qed.

Lemma ledger_dust_nonneg mult tiers l :
  bps_range mult -> (forall t m, (t, m) ∈ tiers -> bps_range m) ->
  0 <= ledger_dust cfg shares base_rate staked_at mult tiers l.
Proof.
  intros Hm Hb. unfold ledger_dust. apply Z.mul_nonneg_nonneg; [done|].
  destruct (segment_rate_ok l) as (r & Hr & Hrr). unfold rate_at. rewrite Hr.
  apply stacked_bound; [done|by apply tier_at_range|apply campaign_range|apply season_range].
Qed.

Lemma emit_halving_Ok (b : bool) ledger (s : State) :
  exists s', (if b then emit_halving env cfg base_rate ledger else ret tt) s = Ok tt s' /\
    (forall k, rd k s' = rd k s) /\ st_ext s' = st_ext s.
Proof. destruct b; [|by exists s]. eexists. by split. Qed.

(** One segment: the dust added is the sum over its ledgers. *)
Lemma segment_dust_ok cursor seg_end mult tiers r :
  segment_rate cfg base_rate cursor = Some r -> bps_range r -> bps_range mult ->
  cursor <= seg_end ->
  (forall l, cursor <= l < seg_end ->
     segment_rate cfg base_rate l = Some r /\ tier_at staked_at l mult tiers = mult) ->
  seg_end <= (campaign_info_at cursor (ac_campaign cfg)).2 ->
  seg_end <= (season_info_at (ac_seasons cfg) cursor).2 ->
  let F := ledger_dust cfg shares base_rate staked_at mult tiers in
  let D := sum_from F cursor (Z.to_nat (seg_end - cursor)) in
  D <= i128_max ->
  reward_dust_for_ledgers shares r mult (campaign_info_at cursor (ac_campaign cfg)).1
    (season_info_at (ac_seasons cfg) cursor).1 (seg_end - cursor) = inl D.
Proof.
  intros Hr Hrr Hm Hle Hl Hc Hs F D HD.
  assert (E : D = shares * stacked r mult (campaign_info_at cursor (ac_campaign cfg)).1
                    (season_info_at (ac_seasons cfg) cursor).1 * (seg_end - cursor)).
  { unfold D. erewrite sum_from_const; [by rewrite Z2Nat.id by lia|].
    intros l Hlr. unfold F, ledger_dust, rate_at.
    destruct (Hl l) as [-> ->]; [lia|].
    rewrite (campaign_const _ cursor l), (season_const _ cursor l) by
      (try apply (wf_seasons _ _ Hwf); lia). done. }
  rewrite E in HD |- *.
  apply dust_ok; auto using campaign_range, season_range; lia.
Qed.

Definition same_state (s s' : State) : Prop :=
  (forall k, rd k s' = rd k s) /\ st_ext s' = st_ext s.

Lemma tier_boundary cursor mult tiers :
  tiers_ahead cursor tiers -> cursor < end_ledger ->
  let b := match tiers with (t, _) :: _ => u32_sat_add staked_at t | [] => u32_max end in
  cursor < b /\ forall l, cursor <= l < b -> tier_at staked_at l mult tiers = mult.
Proof.
  intros (_ & _ & Hc) Hlt. unfold in_u32 in Hend. destruct tiers as [|[t m] rest]; simpl.
  - split; [lia|done].
  - split; [auto|]. intros l Hl. by destruct (Z.leb_spec (u32_sat_add staked_at t) l); [lia|].
Qed.

Lemma walk_ok fuel : forall cursor mult tiers total s,
  0 <= cursor -> bps_range mult -> tiers_ahead cursor tiers -> 0 <= total ->
  (Z.to_nat (end_ledger - cursor) <= fuel)%nat ->
  let D := sum_from (ledger_dust cfg shares base_rate staked_at mult tiers) cursor
             (Z.to_nat (end_ledger - cursor)) in
  total + D <= i128_max ->
  exists m s', walk env fuel cfg shares base_rate staked_at end_ledger cursor mult tiers total s
      = Ok (total + D, Z.max cursor end_ledger, m) s' /\ same_state s s'.
Proof.
  induction fuel as [|fuel IH]; intros cursor mult tiers total s Hc0 Hm Ht Htot Hfuel D HD; simpl.
  { destruct (Z.leb_spec end_ledger cursor); [|lia]. exists mult, s. unfold D.
    replace (Z.to_nat (end_ledger - cursor)) with O by lia. simpl.
    by rewrite Z.add_0_r, Z.max_l by lia. }
  destruct (Z.leb_spec end_ledger cursor) as [|Hlt].
  { exists mult, s. unfold D. replace (Z.to_nat (end_ledger - cursor)) with O by lia. simpl.
    by rewrite Z.add_0_r, Z.max_l by lia. }
  destruct (next_halving_boundary_ok cursor ltac:(lia)) as (nh & Hnh & Hnhgt & Hnhc).
  destruct (tier_boundary cursor mult tiers Ht Hlt) as [Hntgt Hntc].
  set (nt := match tiers with (t, _) :: _ => u32_sat_add staked_at t | [] => u32_max end) in *.
  assert (Hu : cursor < u32_max) by (unfold in_u32 in Hend; lia).
  pose proof (campaign_boundary_gt (ac_campaign cfg) cursor Hu) as Hcgt.
  pose proof (season_boundary_gt (ac_seasons cfg) cursor Hu) as Hsgt.
  rewrite (bind_run _ _ _ _ _ (Hnh s)).
  destruct (campaign_info_at cursor (ac_campaign cfg)) as [cm nc] eqn:Ecm.
  destruct (season_info_at (ac_seasons cfg) cursor) as [sm ns] eqn:Esm. simpl in Hcgt, Hsgt.
  set (se := Z.min (Z.min (Z.min (Z.min nh nt) nc) ns) end_ledger).
  assert (Hse : cursor < se <= end_ledger) by lia. assert (Hsent : se <= nt) by lia.
  destruct (segment_rate_ok cursor) as (r & Hr & Hrr). rewrite Hr.
  unfold to_u32 at 1. rewrite (proj2 (in_u32b_spec (se - cursor))) by (unfold in_u32 in *; lia).
  unfold plain at 1. unfold bind at 1, ret at 1.
  assert (Hnn : forall l, 0 <= ledger_dust cfg shares base_rate staked_at mult tiers l).
  { intros l. apply ledger_dust_nonneg; [done|apply Ht]. }
  unfold D in HD |- *. clear D. rewrite (sum_from_split _ cursor se end_ledger) in HD |- * by lia.
  set (D1 := sum_from _ cursor _) in *. set (D2 := sum_from _ se _) in *.
  assert (0 <= D1) by by apply sum_from_nonneg. assert (0 <= D2) by by apply sum_from_nonneg.
  pose proof (segment_dust_ok cursor se mult tiers r Hr Hrr Hm) as Hseg.
  rewrite Ecm, Esm in Hseg. simpl in Hseg. fold D1 in Hseg.
  rewrite Hseg; [|lia| |lia|lia|lia].
  2: { intros l Hl. split; [rewrite Hnhc by lia; done|]. apply Hntc. lia. }
  pose proof i128_bounds. unfold lift_arith. unfold bind at 1, ret at 1.
  unfold checked_add. rewrite to_i128_in by (unfold in_i128; lia).
  unfold ok_or. unfold bind at 1, ret at 1.
  destruct (emit_halving_Ok ((se =? nh) && (nh <? end_ledger)) se s) as (s1 & Hs1 & Hrd & Hext).
  rewrite (bind_run _ _ _ _ _ Hs1). clearbody se.
  assert (Hgo : forall mult' tiers',
     bps_range mult' -> tiers_ahead se tiers' ->
     (forall l, se <= l -> tier_at staked_at l mult tiers = tier_at staked_at l mult' tiers') ->
     exists m s', walk env fuel cfg shares base_rate staked_at end_ledger se mult' tiers'
         (total + D1) s1 = Ok (total + (D1 + D2), Z.max cursor end_ledger, m) s' /\ same_state s s').
  { intros mult' tiers' Hm' Ht' Heq.
    assert (HD2 : D2 = sum_from (ledger_dust cfg shares base_rate staked_at mult' tiers') se
                    (Z.to_nat (end_ledger - se))).
    { apply sum_from_ext. intros l Hl. unfold ledger_dust. by rewrite Heq by lia. }
    destruct (IH se mult' tiers' (total + D1) s1) as (m & s' & Hw & Hs' & He'); try done; try lia.
    exists m, s'. rewrite Hw, <- HD2. split; [do 3 f_equal; lia|].
    split; [intros k; rewrite Hs'; apply Hrd|congruence]. }
  destruct tiers as [|[t m] rest].
  { apply Hgo; [done| |done]. split_and!; [constructor|intros ?? [] % not_elem_of_nil|done]. }
  destruct (Z.eqb_spec se nt) as [->|].
  - apply Hgo; [by apply (proj1 (proj2 Ht) t); constructor|by apply (tiers_ahead_step cursor t m)|].
    intros l Hl. simpl. destruct (Z.leb_spec (u32_sat_add staked_at t) l); [done|lia].
  - apply Hgo; [done| |done]. destruct Ht as (? & ? & _). split_and!; try done. intros _.
    change (se < nt). lia.
Qed.

Lemma skip_tiers_ok start tiers mult mult' tiers' :
  skip_tiers staked_at start mult tiers = (mult', tiers') ->
  bps_range mult -> StronglySorted (fun x y => x.1 < y.1) tiers ->
  (forall t m, (t, m) ∈ tiers -> bps_range m) ->
  bps_range mult' /\ tiers_ahead start tiers' /\
  forall l, start <= l -> tier_at staked_at l mult tiers = tier_at staked_at l mult' tiers'.
Proof.
  revert mult. induction tiers as [|[t m] rest IH]; intros mult Hsk Hm Hs Hb; simpl in Hsk.
  { injection Hsk as <- <-. split_and!; try done. }
  destruct (Z.leb_spec (u32_sat_add staked_at t) start).
  - apply StronglySorted_inv in Hs as [Hs _].
    destruct (IH m) as (? & ? & Heq); try done.
    + apply (Hb t). by constructor.
    + intros t' m' ?. apply (Hb t'). by constructor.
    + split_and!; try done. intros l Hl. rewrite <- Heq by done. simpl.
      destruct (Z.leb_spec (u32_sat_add staked_at t) l); [done|lia].
  - injection Hsk as <- <-. split_and!; (done || lia).
Qed.

Lemma ref_dust_nonneg a b : 0 <= ref_dust cfg shares base_rate staked_at a b.
Proof.
  apply sum_from_nonneg. intros l. apply ledger_dust_nonneg; [by vm_compute|].
  intros t m Hin. by destruct (wf_tier _ _ Hwf t m Hin).
Qed.

(** The whole window, whatever the budget beyond one unit per ledger. *)
Lemma window_dust_ok fuel start s :
  0 <= start -> (Z.to_nat (end_ledger - start) <= fuel)%nat -> start <= end_ledger ->
  ref_dust cfg shares base_rate staked_at start end_ledger <= i128_max ->
  exists s', window_dust env fuel cfg shares base_rate staked_at start end_ledger s
      = Ok (ref_dust cfg shares base_rate staked_at start end_ledger) s' /\ same_state s s'.
Proof.
  intros H0 Hfuel Hle Hmax. unfold window_dust.
  destruct (skip_tiers staked_at start BPS (ac_schedule cfg)) as [mult tiers] eqn:Esk.
  destruct (skip_tiers_ok _ _ _ _ _ Esk) as (Hm & Ht & Heq).
  { by vm_compute. } { apply (wf_tiers _ _ Hwf). }
  { intros t m Hin. by destruct (wf_tier _ _ Hwf t m Hin). }
  assert (HD : ref_dust cfg shares base_rate staked_at start end_ledger =
    sum_from (ledger_dust cfg shares base_rate staked_at mult tiers) start
      (Z.to_nat (end_ledger - start))).
  { apply sum_from_ext. intros l Hl. unfold ledger_dust. by rewrite Heq by lia. }
  pose proof (ref_dust_nonneg start end_ledger) as Hnn. rewrite HD in Hmax, Hnn |- *.
  destruct (walk_ok fuel start mult tiers 0 s) as (m & s' & Hw & Hs'); try done.
  exists s'. split; [|done]. rewrite (bind_run _ _ _ _ _ Hw). simpl. rewrite Z.max_r by lia.
  rewrite Z.sub_diag. unfold bind, reward_dust_for_ledgers. simpl.
  pose proof i128_bounds. unfold checked_add.
  rewrite to_i128_in by (unfold in_i128; lia). unfold ok_or, ret. f_equal. lia.
Qed.

End WalkCorrect.

(** ** Windows add up *)

Lemma ref_dust_split cfg shares base_rate staked_at a b c :
  a <= b <= c ->
  ref_dust cfg shares base_rate staked_at a c =
  ref_dust cfg shares base_rate staked_at a b + ref_dust cfg shares base_rate staked_at b c.
Proof. apply sum_from_split. Qed.

(** ** A floor of zero can stop the walk *)

Section Divergence.
Context {W : World} (env : Env).

(** A schedule accepted by [set_halving_schedule] and [set_boost_schedule]
    can make accrual impossible.  If the halved rate is zero over the whole
    window (possible because the floor may be set to zero) and a boost tier
    starts strictly inside the window, the loop reaches the tier boundary, never
    advances past it, and every budget is exhausted: the call traps for every
    amount of fuel, so the position can no longer be settled, staked or
    claimed over that window. *)
Theorem zero_rate_tier_diverges cfg shares base_rate staked_at start_ledger end_ledger t m mult rest :
  skip_tiers staked_at start_ledger BPS (ac_schedule cfg) = (mult, (t, m) :: rest) ->
  0 <= start_ledger -> end_ledger <= u32_max ->
  start_ledger <= u32_sat_add staked_at t < end_ledger ->
  (forall l, start_ledger <= l <= u32_sat_add staked_at t ->
     segment_rate cfg base_rate l = None /\
     exists b, l < b /\ forall s, next_halving_boundary cfg l s = Ok b s) ->
  forall fuel s,
    window_dust env fuel cfg shares base_rate staked_at start_ledger end_ledger s = Trap TBudget.
Proof.
  intros Hsk H0 Hend Hb Hzero fuel s. unfold window_dust. rewrite Hsk.
  apply bind_trap. set (b := u32_sat_add staked_at t) in *.
  assert (Hgo : forall fuel cursor, start_ledger <= cursor <= b ->
    walk env fuel cfg shares base_rate staked_at end_ledger cursor mult ((t, m) :: rest) 0 s
    = Trap TBudget).
  { clear fuel. induction fuel as [|fuel IH]; intros cursor Hc; cbn [walk];
      destruct (Z.leb_spec end_ledger cursor); try lia; [done|].
    destruct (Hzero cursor Hc) as [Hn (nh & Hnh & Hrun)]. rewrite (bind_run _ _ _ _ _ (Hrun s)).
    pose proof (campaign_boundary_gt (ac_campaign cfg) cursor ltac:(lia)) as Hcg.
    pose proof (season_boundary_gt (ac_seasons cfg) cursor ltac:(lia)) as Hsg.
    destruct (campaign_info_at cursor (ac_campaign cfg)) as [cm nc].
    destruct (season_info_at (ac_seasons cfg) cursor) as [sm ns]. simpl in Hcg, Hsg.
    rewrite Hn. fold b. apply IH. lia. }
  apply Hgo. lia.
Qed.
End Divergence.

(** A 100% reduction every ledger with floor zero, and a tier at ledger 3. *)
Definition zero_floor_cfg : AccrualCfg :=
  mkAccrualCfg (Some (mkHalvingConfig 1 0 0 0)) 10000 None [] [(3, 12000)].

Lemma zero_rate_tier_diverges_witness :
  window_dust (at_ledger 5) 1000 zero_floor_cfg 1000 500 0 2 5 (start_state (fun _ _ => 0))
  = Trap TBudget.
Proof.
  apply (zero_rate_tier_diverges (at_ledger 5) zero_floor_cfg 1000 500 0 2 5 3 12000 BPS []);
    [reflexivity|lia|by vm_compute|vm_compute; split; congruence|].
  intros l Hl. assert (Hc : l = 2 \/ l = 3).
  { change (u32_sat_add 0 3) with 3 in Hl. lia. }
  destruct Hc as [-> | ->].
  - split; [reflexivity|]. exists 3. split; [lia|]. intros s. reflexivity.
  - split; [reflexivity|]. exists 4. split; [lia|]. intros s. reflexivity.
Defined.

(** ** Termination *)

(** C16. The accrual loop ends within the window.  The [while] of
    [reward_between_ledgers] has no bound of its own.  On a schedule as the
    setters enforce it, with a positive floor, any budget of at least one
    iteration per ledger of the window is enough, whatever mix of halving,
    tier, campaign and season boundaries lies in it, and the result is the sum
    of what each ledger earns by itself, which does not depend on the budget.
    The floor is needed: [zero_floor_cfg] meets every other condition, and no
    budget is enough for it. *)
Theorem accrual_terminates {W : World} (env : Env) cfg shares base_rate staked_at a b :
  wf_cfg cfg b -> 0 <= shares -> 0 <= base_rate <= u32_max -> in_u32 b -> 0 <= a <= b ->
  ref_dust cfg shares base_rate staked_at a b <= i128_max ->
  (forall fuel (s : State), (Z.to_nat (b - a) <= fuel)%nat ->
     exists s', window_dust env fuel cfg shares base_rate staked_at a b s
       = Ok (ref_dust cfg shares base_rate staked_at a b) s' /\ same_state s s') /\
  (forall fuel (s : State), window_dust env fuel zero_floor_cfg 1000 500 0 2 5 s = Trap TBudget).
Proof.
  intros Hwf Hsh Hrate Hb Hab Hmax. split.
  - intros fuel s Hfuel. apply window_dust_ok; try done; unfold bps_range; lia.
  - apply (zero_rate_tier_diverges env zero_floor_cfg 1000 500 0 2 5 3 12000 BPS []);
      [reflexivity|lia|by vm_compute|vm_compute; split; congruence|].
    intros l Hl. assert (l = 2 \/ l = 3) as [-> | ->] by (change (u32_sat_add 0 3) with 3 in Hl; lia).
    + split; [reflexivity|]. exists 3. split; [lia|]. intros s. reflexivity.
    + split; [reflexivity|]. exists 4. split; [lia|]. intros s. reflexivity.
Qed.

(** A halving every forty ledgers down to a floor of ten, and two tiers. *)
Definition floored_cfg : AccrualCfg :=
  mkAccrualCfg (Some (mkHalvingConfig 40 1 0 10)) 5000 None [] [(5, 12000); (30, 20000)].

Lemma accrual_terminates_witness :
  exists s', window_dust (W:=token_world) (at_ledger 200) 190 floored_cfg 1000 500 0 10 200 (start_state (fun _ _ => 0))
    = Ok (ref_dust floored_cfg 1000 500 0 10 200) s'.
Proof.
  assert (Hwf : wf_cfg floored_cfg 200).
  { split; cbn [floored_cfg ac_halving ac_reduction_bps ac_campaign ac_seasons ac_schedule].
    - intros c [= <-]. cbn. unfold u32_max. lia.
    - intros c [= <-]. cbn. unfold u32_max. lia.
    - unfold BPS. lia.
    - intros c [=].
    - intros s Hs%elem_of_nil. destruct Hs.
    - constructor.
    - by repeat constructor.
    - intros t m Hin. rewrite !elem_of_cons, elem_of_nil in Hin. unfold bps_range, u32_max.
      destruct Hin as [[= -> ->] | [[= -> ->] | []]]; lia. }
  destruct (accrual_terminates (W:=token_world) (at_ledger 200) floored_cfg 1000 500 0 10 200 Hwf) as [H _].
  - lia.
  - by vm_compute; split; congruence.
  - by vm_compute; split; congruence.
  - lia.
  - by vm_compute.
  - destruct (H 190%nat (start_state (fun _ _ => 0))) as (s' & Hs & _); [lia|].
    exists s'. exact Hs.
Defined.
