(* ===== verification/Rewards.v ===== *)
(** * Reward accrual against storage ([vault.rs], [reward_epochs.rs])

    The admin setters of the accrual configuration, the loading of that
    configuration, [reward_between_ledgers] with the carried remainder, the
    emission budget of the current epoch, and [accrue_rewards], which puts them
    together.  [Accrual.v] holds the walk itself and its correctness.

    The source calls two functions it does not define,
    [effective_rate_at_ledger] (the bootstrap rate at one ledger) and
    [maybe_settle_bootstrap]; they are the parameters of [Bootstrap]. *)

From Stdlib Require Import Sorted.
From S2P Require Import Prelude Errors Storage Host Concrete Accessors Admin RewardMath.
From S2P Require Import MultiReward Accumulator Accrual.

Definition MAX_BOOST_TIERS : nat := 5.
Definition MAX_SEASONS : nat := 10.

Class Bootstrap {W : World} := {
  effective_rate_at_ledger : State -> Z -> Z;
  maybe_settle_bootstrap : M VaultError.t unit
}.
#[global] Arguments Bootstrap W : clear implicits.

Section Config.
Context {W : World} (env : Env).
Implicit Types s : State.

Definition set_halving_schedule (admin : Address) (interval_ledgers reduction_bps floor_rate_bps : Z)
    : M VaultError.t unit :=
  require_admin_as env admin ;;;
  fail_if (interval_ledgers =? 0) VaultError.ZeroAmount ;;;
  fail_if ((reduction_bps =? 0) || (BPS <? reduction_bps)) VaultError.InvalidRate ;;;
  fail_if (floor_rate_bps <? 0) VaultError.ZeroAmount ;;;
  put HalvingCfg (mkHalvingConfig interval_ledgers (sequence env) 0 floor_rate_bps) ;;;
  put HalvingReduction reduction_bps.

(** The validation loop of [set_boost_schedule]; [last] is [None] before the
    first tier. *)
Fixpoint boost_schedule_valid (last : option Z) (tiers : list (Z * Z)) : bool :=
  match tiers with
  | [] => true
  | (tier_ledger, multiplier_bps) :: tiers =>
      negb (multiplier_bps <? BPS) &&
      match last with Some l => negb (tier_ledger <=? l) | None => true end &&
      boost_schedule_valid (Some tier_ledger) tiers
  end.

Definition set_boost_schedule (tiers : list (Z * Z)) : M VaultError.t unit :=
  require_admin env ;;;
  fail_if (MAX_BOOST_TIERS <? length tiers)%nat VaultError.TooManyBoostTiers ;;;
  fail_if (negb (boost_schedule_valid None tiers)) VaultError.InvalidBoostSchedule ;;;
  put BoostSchedule tiers ;;;
  let! admin := get_admin in
  publish [VSym "adm_act"; VAddr admin; VVec [VSym "SetBoostSchedule"]]
    [VAddr admin; VInt (sequence env); VInt (Z.of_nat (length tiers))] ;;;
  increment_admin_action_count.

Definition season_overlaps (starts_at ends_at : Z) (existing : Season) : bool :=
  (starts_at <? sn_ends_at existing) && (sn_starts_at existing <? ends_at).

Definition add_season (admin : Address) (name : string) (starts_at ends_at multiplier_bps : Z)
    : M VaultFeatureError.t unit :=
  try_ (require_admin_as env admin) ;;;
  fail_if ((ends_at <=? starts_at) || (multiplier_bps =? 0)) VaultFeatureError.InvalidSeasonConfig ;;;
  let& seasons := get_seasons in
  fail_if (MAX_SEASONS <=? length seasons)%nat VaultFeatureError.TooManySeasons ;;;
  fail_if (existsb (season_overlaps starts_at ends_at) seasons) VaultFeatureError.SeasonOverlap ;;;
  put Seasons (seasons ++ [mkSeason name starts_at ends_at multiplier_bps]).

Definition remove_season (admin : Address) (index : Z) : M VaultFeatureError.t unit :=
  try_ (require_admin_as env admin) ;;;
  let& seasons := get_seasons in
  fail_if (Z.of_nat (length seasons) <=? index) VaultFeatureError.SeasonNotFound ;;;
  put Seasons (delete (Z.to_nat index) seasons).

(** ** Epoch emission budget *)

Definition rolled (config : EpochConfig) (state : EpochState) (now : Z) : EpochState * bool :=
  let elapsed := u32_sat_sub now (es_start state) in
  if elapsed <? ec_length_ledgers config then (state, false)
  else
    let epochs := elapsed / ec_length_ledgers config in
    (mkEpochState (u32_sat_add (es_id state) epochs)
       (u32_sat_add (es_start state) (Z.min (epochs * ec_length_ledgers config) u32_max)) 0, true).

Definition apply_budget {E} (amount : Z) : M E Z :=
  let& config := rd EpochCfg in
  let& stored := rd EpochSt in
  match config, stored with
  | Some config, Some stored =>
      let (state, did_roll) := rolled config stored (sequence env) in
      (if did_roll then
         publish [VSym "epoch_rolled"]
           [VInt (es_id stored); VInt (es_id state); VInt (es_emitted stored);
            VInt (ec_budget_per_epoch config)]
       else ret tt) ;;;
      let! left := plain (checked_sub (ec_budget_per_epoch config) (es_emitted state)) in
      let allowed := Z.min amount (Z.max left 0) in
      let! emitted := plain (checked_add (es_emitted state) allowed) in
      put EpochSt (mkEpochState (es_id state) (es_start state) emitted) ;;;
      ret allowed
  | _, _ => ret amount
  end.

Definition set_epoch_config (admin : Address) (length_ledgers budget_per_epoch : Z)
    : M VaultFeature6Error.t unit :=
  try_ (require_admin_as env admin) ;;;
  fail_if ((length_ledgers =? 0) || (budget_per_epoch <? 0)) VaultFeature6Error.InvalidEpochConfig ;;;
  let& state := rd EpochSt in
  let id := match state with Some st => u32_sat_add (es_id st) 1 | None => 0 end in
  put EpochCfg (mkEpochConfig length_ledgers budget_per_epoch) ;;;
  put EpochSt (mkEpochState id (sequence env) 0).

Definition get_current_epoch s : Z * Z * Z * Z :=
  match rd EpochCfg s, rd EpochSt s with
  | Some config, Some state =>
      let (state, _) := rolled config state (sequence env) in
      (es_id state, u32_sat_add (es_start state) (ec_length_ledgers config), es_emitted state,
       ec_budget_per_epoch config)
  | _, _ => (0, 0, 0, 0)
  end.

(** ** Season transitions *)

Definition maybe_emit_season_transition {E} : M E unit :=
  let& seasons := get_seasons in
  let ledger := sequence env in
  let& last_marker := rd SeasonMarker in
  match find_active_season seasons ledger, last_marker with
  | Some sn, None =>
      publish [VSym "seas_str"; VAddr (self env)]
        [VInt (sn_starts_at sn); VStr (sn_name sn); VInt (sn_multiplier_bps sn); VInt ledger] ;;;
      put SeasonMarker (sn_starts_at sn)
  | Some sn, Some marker =>
      if marker =? sn_starts_at sn then ret tt
      else
        publish [VSym "seas_str"; VAddr (self env)]
          [VInt (sn_starts_at sn); VStr (sn_name sn); VInt (sn_multiplier_bps sn); VInt ledger] ;;;
        put SeasonMarker (sn_starts_at sn)
  | None, Some marker =>
      publish [VSym "seas_end"; VAddr (self env)] [VInt marker; VInt ledger] ;;;
      del SeasonMarker
  | None, None => ret tt
  end.

End Config.

Section Rewards.
Context {W : World} {B : Bootstrap W} (env : Env).
Implicit Types s : State.

(** The configuration [reward_between_ledgers] loads once. *)
Definition load_cfg s : AccrualCfg :=
  mkAccrualCfg (get_halving_config s) (get_halving_reduction_bps s) (rd BoostCampaign s)
    (get_seasons s) (default [] (get_boost_schedule s)).

Definition reward_accrual_floor s : option Z :=
  if get_min_pool_size s <=? 0 then Some 0 else get_rewards_activated_at s.

Definition effective_rate_bps_for_window (start_ledger end_ledger : Z) s : Z :=
  let base_rate := get_reward_rate_bps s in
  if end_ledger <=? start_ledger then base_rate
  else
    match rd BootstrapCfg s with
    | None => base_rate
    | Some config =>
        let bootstrap_end := u32_sat_add (bc_started_at config) (bc_duration config) in
        let clip_start := Z.max start_ledger (bc_started_at config) in
        let clip_end := Z.min end_ledger bootstrap_end in
        if clip_end <=? clip_start then base_rate
        else
          let window_len := end_ledger - start_ledger in
          let bootstrap_ledgers := clip_end - clip_start in
          let outside_ledgers := window_len - bootstrap_ledgers in
          let mid := clip_start + (clip_end - clip_start) / 2 in
          let weighted := effective_rate_at_ledger s mid * bootstrap_ledgers
                          + base_rate * outside_ledgers in
          (weighted / window_len) mod 2 ^ 32
    end.

(** [reward_between_ledgers]; [fuel] is the host's budget for the walk. *)
Definition reward_between_ledgers (fuel : nat) (user : Address)
    (current_shares start_ledger end_ledger : Z) (persist : bool) : M VaultError.t Z :=
  if (current_shares =? 0) || (end_ledger <=? start_ledger) then ret 0
  else
    let& floor := reward_accrual_floor in
    match floor with
    | None => ret 0
    | Some floor =>
        let start_ledger := Z.max start_ledger floor in
        if end_ledger <=? start_ledger then ret 0
        else
          let& base_rate := effective_rate_bps_for_window start_ledger end_ledger in
          if base_rate =? 0 then ret 0
          else
            let& staked_at := rd (StakedAtLedger user) in
            match staked_at with
            | None => ret 0
            | Some staked_at =>
                let& cfg := load_cfg in
                let! total_dust := window_dust env fuel cfg current_shares base_rate staked_at
                                     start_ledger end_ledger in
                let! divisor :=
                  ok_or (checked_mul BPS STELLAR_LEDGERS_PER_YEAR) VaultError.ArithmeticError in
                let& current_remainder := get_reward_remainder user in
                let! total :=
                  ok_or (checked_add total_dust current_remainder) VaultError.ArithmeticError in
                let! reward := ok_or (checked_div total divisor) VaultError.ArithmeticError in
                let! new_remainder := ok_or (checked_rem total divisor) VaultError.ArithmeticError in
                (if persist then set_reward_remainder user new_remainder else ret tt) ;;;
                ret reward
            end
    end.

Definition pending_reward (fuel : nat) (user : Address) : M VaultError.t Z :=
  let& current_shares := get_shares user in
  let& accrued := get_accrued_reward user in
  let& cp := get_reward_checkpoint_ledger user in
  let checkpoint := default (sequence env) cp in
  let! pending := reward_between_ledgers fuel user current_shares checkpoint (sequence env) false in
  ok_or (checked_add accrued pending) VaultError.ArithmeticError.

Definition accrue_rewards (fuel : nat) (user : Address) (current_shares : Z) : M VaultError.t unit :=
  let current_ledger := sequence env in
  let& epoch_mode := rd EpochMode in
  if default false epoch_mode then set_reward_checkpoint_ledger user current_ledger
  else
    let& cp := get_reward_checkpoint_ledger user in
    let checkpoint := default current_ledger cp in
    let! additional_reward :=
      reward_between_ledgers fuel user current_shares checkpoint current_ledger true in
    let! additional_reward := apply_budget env additional_reward in
    (if 0 <? additional_reward then
       let& accrued := get_accrued_reward user in
       let! updated_accrued :=
         ok_or (checked_add accrued additional_reward) VaultError.ArithmeticError in
       set_accrued_reward user updated_accrued
     else ret tt) ;;;
    set_reward_checkpoint_ledger user current_ledger ;;;
    ignore (update_global_accumulator env) ;;;
    checkpoint_user user ;;;
    maybe_settle_bootstrap ;;;
    maybe_emit_season_transition env.

End Rewards.

(** ** Facts about the setters *)

Section ConfigFacts.
Context {W : World} (env : Env).
Implicit Types s : State.

Lemma boost_schedule_valid_sorted last tiers :
  boost_schedule_valid last tiers = true ->
  StronglySorted (fun x y => x.1 < y.1) tiers /\
  (forall t m, (t, m) ∈ tiers -> BPS <= m) /\
  (forall l, last = Some l -> forall t m, (t, m) ∈ tiers -> l < t).
Proof.
  revert last. induction tiers as [|[t m] rest IH]; intros last; simpl.
  { intros _. split_and!; [constructor|set_solver..]. }
  rewrite !andb_true_iff, negb_true_iff, Z.ltb_ge. intros [[Hm Hl] Hrest].
  destruct (IH _ Hrest) as (Hs & Hb & Hlast). split_and!.
  - constructor; [done|]. apply List.Forall_forall. intros [t' m'] Hin. simpl.
    apply (Hlast t eq_refl t' m'). by apply list_elem_of_In.
  - intros t' m' [[= -> ->]|Hin] % elem_of_cons; [done|by apply (Hb t')].
  - intros l -> t' m'. apply negb_true_iff, Z.leb_gt in Hl.
    intros [[= -> ->]|Hin] % elem_of_cons; [done|]. specialize (Hlast t eq_refl t' m' Hin). lia.
Qed.

Lemma seasons_snoc seasons name a b m :
  ForallOrdPairs season_disjoint seasons ->
  (forall x, x ∈ seasons -> sn_starts_at x < sn_ends_at x) -> a < b ->
  existsb (season_overlaps a b) seasons = false ->
  ForallOrdPairs season_disjoint (seasons ++ [mkSeason name a b m]).
Proof.
  intros Hd Hne Hab Hov.
  assert (Hall : forall x, x ∈ seasons -> season_disjoint x (mkSeason name a b m)).
  { intros x Hx. unfold season_disjoint. simpl.
    assert (season_overlaps a b x = false) as Ho.
    { destruct (season_overlaps a b x) eqn:E; [|done]. rewrite <- Hov. symmetry.
      apply existsb_exists. exists x. split; [by apply list_elem_of_In|done]. }
    unfold season_overlaps in Ho. pose proof (Hne x Hx).
    apply andb_false_iff in Ho as [Ho%Z.ltb_ge|Ho%Z.ltb_ge]; lia. }
  clear Hov Hne. induction Hd as [|x l Hx Hl IH]; simpl; [by repeat constructor|].
  constructor.
  - apply List.Forall_app. split; [done|]. constructor; [|done]. apply Hall. by constructor.
  - apply IH. intros y Hy. apply Hall. by constructor.
Qed.

(** The part of [wf_cfg] that storage itself carries. *)
Record cfg_ok s : Prop := {
  ok_tiers : StronglySorted (fun x y => x.1 < y.1) (default [] (get_boost_schedule s));
  ok_tier : forall t m, (t, m) ∈ default [] (get_boost_schedule s) -> BPS <= m;
  ok_seasons : ForallOrdPairs season_disjoint (get_seasons s);
  ok_season : forall x, x ∈ get_seasons s -> sn_starts_at x < sn_ends_at x /\ 0 < sn_multiplier_bps x;
  ok_halving : forall c, get_halving_config s = Some c ->
    0 < hv_interval_ledgers c /\ 0 <= hv_floor_rate_bps c;
  ok_reduction : 0 < get_halving_reduction_bps s <= BPS
}.

Lemma cfg_ok_frame s s' :
  cfg_ok s ->
  rd BoostSchedule s' = rd BoostSchedule s -> rd Seasons s' = rd Seasons s ->
  rd HalvingCfg s' = rd HalvingCfg s -> rd HalvingReduction s' = rd HalvingReduction s ->
  cfg_ok s'.
Proof.
  intros [] E1 E2 E3 E4.
  unfold get_boost_schedule, get_seasons, get_halving_config, get_halving_reduction_bps in *.
  split; unfold get_boost_schedule, get_seasons, get_halving_config, get_halving_reduction_bps;
    rewrite ?E1, ?E2, ?E3, ?E4; auto.
Qed.

(** The admin operations on the accrual configuration, u32 arguments as the
    wire type has them. *)
Inductive config_op :=
| OpHalving (admin : Address) (interval reduction floor : Z)
| OpBoost (tiers : list (Z * Z))
| OpAddSeason (admin : Address) (name : string) (starts_at ends_at multiplier_bps : Z)
| OpRemoveSeason (admin : Address) (index : Z).

Definition run_config (op : config_op) (s : State) : State :=
  match op with
  | OpHalving a i r f => invoke (set_halving_schedule env a i r f) s
  | OpBoost tiers => invoke (set_boost_schedule env tiers) s
  | OpAddSeason a n st e m => invoke (add_season env a n st e m) s
  | OpRemoveSeason a i => invoke (remove_season env a i) s
  end.

Definition op_u32 (op : config_op) : Prop :=
  match op with
  | OpHalving _ i r _ => in_u32 i /\ in_u32 r
  | OpBoost _ => True
  | OpAddSeason _ _ st e m => in_u32 st /\ in_u32 e /\ in_u32 m
  | OpRemoveSeason _ i => in_u32 i
  end.

Lemma invoke_Ok E A (m : M E A) s :
  (exists a s', m s = Ok a s' /\ invoke m s = s') \/ invoke m s = s.
Proof. unfold invoke. destruct (m s); eauto. Qed.

(** The accrual configuration stays well formed under every sequence of
    admin calls: whatever order of [set_halving_schedule],
    [set_boost_schedule], [add_season] and [remove_season] is invoked, with any
    arguments and signers, the stored tiers stay strictly increasing with
    multipliers of at least 10_000 bps, the seasons stay non-empty and pairwise
    disjoint, the halving interval stays positive and the reduction stays
    between 1 and 10_000 bps.  (A positive floor is not enforced.) *)
Theorem config_ops_preserve ops s :
  Forall op_u32 ops -> cfg_ok s -> cfg_ok (fold_left (fun s op => run_config op s) ops s).
Proof.
  intros Hops. revert s. induction Hops as [|op ops Hop Hops IH]; intros s Hok; [done|].
  simpl. apply IH. clear IH Hops. destruct op as [a i r f|tiers|a n st e m|a i]; simpl in *.
  - destruct (invoke_Ok _ _ (set_halving_schedule env a i r f) s) as [(x & s' & H & ->)| ->]; [|done].
    unfold set_halving_schedule in H. apply bind_Ok in H as (u & s1 & H1 & H).
    apply require_admin_as_Ok in H1 as (_ & _ & _ & _ & ->). mrun H.
    apply Z.eqb_neq in H0. apply orb_false_iff in H1 as [?%Z.eqb_neq ?%Z.ltb_ge].
    apply Z.ltb_ge in H2. unfold in_u32 in *. destruct Hok. split;
      unfold get_boost_schedule, get_seasons, get_halving_config, get_halving_reduction_bps in *;
      rdsimp; auto; simpl; [|lia]. intros c [= <-]. simpl. lia.
  - destruct (invoke_Ok _ _ (set_boost_schedule env tiers) s) as [(x & s' & H & ->)| ->]; [|done].
    unfold set_boost_schedule in H. apply bind_Ok in H as (u & s1 & H1 & H).
    apply require_admin_Ok in H1 as (_ & _ & _ & _ & _ & ->).
    apply bind_Ok in H as (? & ? & H1 & H). mrun H1. apply bind_Ok in H as (? & ? & H2 & H). mrun H2.
    apply bind_Ok in H as (? & ? & H3 & H). mrun H3. apply bind_Ok in H as (adm & ? & H3 & H).
    apply get_admin_Ok in H3 as (_ & _ & ->). unfold increment_admin_action_count in H. mrun H.
    apply negb_false_iff in H2. apply boost_schedule_valid_sorted in H2 as (Hs & Hb & _).
    destruct Hok. split;
      unfold get_boost_schedule, get_seasons, get_halving_config, get_halving_reduction_bps in *;
      rdsimp; auto.
  - destruct (invoke_Ok _ _ (add_season env a n st e m) s) as [(x & s' & H & ->)| ->]; [|done].
    unfold add_season in H. apply bind_Ok in H as (u & s1 & H1 & H).
    apply try_Ok, require_admin_as_Ok in H1 as (_ & _ & _ & _ & ->). mrun H.
    apply orb_false_iff in H0 as [?%Z.leb_gt ?%Z.eqb_neq]. unfold in_u32 in *.
    destruct Hok. split;
      unfold get_boost_schedule, get_seasons, get_halving_config, get_halving_reduction_bps in *;
      rdsimp; auto; simpl.
    + apply seasons_snoc; auto. intros y Hy. by apply ok_season0.
    + intros y [Hy|Hy] % elem_of_app; [auto|]. apply list_elem_of_singleton in Hy as ->. simpl. lia.
  - destruct (invoke_Ok _ _ (remove_season env a i) s) as [(x & s' & H & ->)| ->]; [|done].
    unfold remove_season in H. apply bind_Ok in H as (u & s1 & H1 & H).
    apply try_Ok, require_admin_as_Ok in H1 as (_ & _ & _ & _ & ->). mrun H.
    destruct Hok. split;
      unfold get_boost_schedule, get_seasons, get_halving_config, get_halving_reduction_bps in *;
      rdsimp; auto; simpl.
    + clear - ok_seasons0. generalize (Z.to_nat i) as j.
      induction ok_seasons0 as [|y l Hy Hl IH]; intros [|j]; simpl; [constructor..|done|].
      constructor; [|apply IH]. apply List.Forall_forall. intros z Hz.
      rewrite List.Forall_forall in Hy. apply Hy. apply list_elem_of_In.
      eapply elem_of_submseteq; [by apply list_elem_of_In|]. by apply submseteq_delete.
    + intros y Hy. apply ok_season0. eapply elem_of_submseteq; [done|]. by apply submseteq_delete.
Qed.

End ConfigFacts.

(** ** Accrual is exact *)

(** [reward * DIVISOR] dust units make one unit of reward. *)
Definition DIVISOR : Z := BPS * STELLAR_LEDGERS_PER_YEAR.

Lemma DIVISOR_pos : 0 < DIVISOR.
Proof. by vm_compute. Qed.

Lemma divisor_checked : checked_mul BPS STELLAR_LEDGERS_PER_YEAR = Some DIVISOR.
Proof. reflexivity. Qed.

Lemma ref_dust_empty cfg shares r st a b : b <= a -> ref_dust cfg shares r st a b = 0.
Proof. intros. unfold ref_dust. by replace (Z.to_nat (b - a)) with O by lia. Qed.

Lemma ref_dust_no_shares cfg r st a b : ref_dust cfg 0 r st a b = 0.
Proof. unfold ref_dust. rewrite (sum_from_const _ 0); [lia|]. intros. unfold ledger_dust. lia. Qed.

Section Exact.
Context {W : World} {B : Bootstrap W} (env : Env).
Implicit Types s : State.

(** A position whose accrual up to [b] is covered by the theorems: a staked
    position, a rate and no bootstrap in force, accrual active, a well-formed
    schedule with a positive floor, and no i128 overflow in the dust. *)
Record accruing (u : Address) (staked_at floor b : Z) s : Prop := {
  ac_wf : wf_cfg (load_cfg s) b;
  ac_b : in_u32 b;
  ac_boot : rd BootstrapCfg s = None;
  ac_rate : 0 < get_reward_rate_bps s <= u32_max;
  ac_staked : rd (StakedAtLedger u) s = Some staked_at;
  ac_floor : reward_accrual_floor s = Some floor;
  ac_rem : 0 <= get_reward_remainder u s < DIVISOR
}.

(** The dust of [[a, b)], summed ledger by ledger. *)
Definition dust_of (shares staked_at floor a b : Z) s : Z :=
  ref_dust (load_cfg s) shares (get_reward_rate_bps s) staked_at (Z.max a floor) b.

Lemma between_exact fuel u staked_at floor shares a b persist s :
  accruing u staked_at floor b s -> 0 <= shares -> 0 <= a ->
  (Z.to_nat (b - a) <= fuel)%nat ->
  get_reward_remainder u s + dust_of shares staked_at floor a b s <= i128_max ->
  exists s', reward_between_ledgers env fuel u shares a b persist s =
      Ok ((get_reward_remainder u s + dust_of shares staked_at floor a b s) / DIVISOR) s' /\
    get_reward_remainder u s' =
      (if persist then (get_reward_remainder u s + dust_of shares staked_at floor a b s) mod DIVISOR
       else get_reward_remainder u s) /\
    (forall k, k <> KPers (RewardRemainder u) -> rd k s' = rd k s) /\ st_ext s' = st_ext s.
Proof.
  intros [Hwf Hb Hboot Hrate Hst Hfl Hrem] Hsh Ha Hfuel Hmax.
  pose proof DIVISOR_pos as HD. pose proof i128_bounds as Hi.
  assert (Hzero : dust_of shares staked_at floor a b s = 0 ->
    exists s', ret (E:=VaultError.t) 0 s =
      Ok ((get_reward_remainder u s + dust_of shares staked_at floor a b s) / DIVISOR) s' /\
    get_reward_remainder u s' =
      (if persist then (get_reward_remainder u s + dust_of shares staked_at floor a b s) mod DIVISOR
       else get_reward_remainder u s) /\
    (forall k, k <> KPers (RewardRemainder u) -> rd k s' = rd k s) /\ st_ext s' = st_ext s).
  { intros ->. exists s. rewrite Z.add_0_r, Z.div_small, Z.mod_small by lia. by destruct persist. }
  unfold reward_between_ledgers.
  destruct (Z.eqb_spec shares 0) as [->|]; cbn [orb].
  { apply Hzero. apply ref_dust_no_shares. }
  destruct (Z.leb_spec b a).
  { apply Hzero. apply ref_dust_empty. lia. }
  unfold reading at 1. rewrite Hfl.
  destruct (Z.leb_spec b (Z.max a floor)).
  { apply Hzero. by apply ref_dust_empty. }
  unfold reading at 1. unfold effective_rate_bps_for_window. rewrite Hboot.
  destruct (Z.leb_spec b (Z.max a floor)); [lia|].
  destruct (Z.eqb_spec (get_reward_rate_bps s) 0); [lia|].
  unfold reading at 1. rewrite Hst. unfold reading at 1.
  unfold dust_of in *. set (D := ref_dust _ _ _ _ _ _) in *.
  assert (HDn : 0 <= D) by (apply (ref_dust_nonneg _ _ _ _ _ Hwf Hsh); unfold bps_range; lia).
  destruct (window_dust_ok env (load_cfg s) shares (get_reward_rate_bps s) staked_at b Hwf Hsh
     ltac:(unfold bps_range; lia) Hb fuel (Z.max a floor) s) as (s1 & Hw & Hrd & He);
    try (fold D); try lia.
  rewrite (bind_run _ _ _ _ _ Hw). fold D. rewrite divisor_checked.
  cbn [ok_or]. unfold bind at 1, ret at 1. unfold reading at 1.
  assert (Hr1 : get_reward_remainder u s1 = get_reward_remainder u s)
    by (unfold get_reward_remainder; by rewrite Hrd).
  rewrite Hr1. set (r := get_reward_remainder u s) in *.
  unfold checked_add. rewrite to_i128_in by (unfold in_i128; lia).
  cbn [ok_or]. unfold bind at 1, ret at 1. rewrite (Z.add_comm D r).
  unfold checked_div, checked_rem. replace (DIVISOR =? 0) with false by reflexivity.
  replace (DIVISOR =? -1) with false by reflexivity. rewrite andb_false_r. cbn [orb].
  rewrite quot_floor, Z.rem_mod_nonneg by lia.
  assert (Hq : 0 <= (r + D) / DIVISOR <= r + D).
  { split; [apply Z.div_pos; lia|]. apply Z.div_le_upper_bound; nia. }
  pose proof (Z.mod_pos_bound (r + D) DIVISOR HD) as Hm.
  pose proof (Z.mod_le (r + D) DIVISOR ltac:(lia) HD) as Hm'.
  rewrite to_i128_in by (unfold in_i128; lia). cbn [ok_or]. unfold bind at 1, ret at 1.
  rewrite to_i128_in by (unfold in_i128; lia). cbn [ok_or]. unfold bind at 1, ret at 1.
  destruct persist.
  - unfold set_reward_remainder, assert_non_negative, panic_if.
    rewrite (proj2 (Z.ltb_ge _ _)) by lia. eexists. split; [reflexivity|].
    split_and!; [unfold get_reward_remainder; by rdsimp| |done].
    intros k Hk. rewrite rd_upd_ne by done. apply Hrd.
  - eexists. split; [reflexivity|]. split_and!; [done| |done]. intros. apply Hrd.
Qed.

(** Two consecutive windows are the whole. *)
Lemma dust_of_split shares st fl a b c s :
  a <= b <= c ->
  dust_of shares st fl a c s = dust_of shares st fl a b s + dust_of shares st fl b c s.
Proof.
  intros. unfold dust_of. destruct (decide (Z.max a fl <= b)).
  - rewrite (ref_dust_split _ _ _ _ (Z.max a fl) b c) by lia. by replace (Z.max b fl) with b by lia.
  - rewrite (ref_dust_empty _ _ _ _ _ b) by lia. by replace (Z.max b fl) with (Z.max a fl) by lia.
Qed.

Lemma divide_twice r d1 d2 :
  (r + d1) / DIVISOR + ((r + d1) mod DIVISOR + d2) / DIVISOR = (r + (d1 + d2)) / DIVISOR /\
  ((r + d1) mod DIVISOR + d2) mod DIVISOR = (r + (d1 + d2)) mod DIVISOR.
Proof.
  pose proof DIVISOR_pos. pose proof (Z.div_mod (r + d1) DIVISOR ltac:(lia)) as E.
  replace (r + (d1 + d2)) with ((r + d1) mod DIVISOR + d2 + (r + d1) / DIVISOR * DIVISOR) by lia.
  rewrite Z.div_add, Z_mod_plus_full by lia. lia.
Qed.

Lemma dust_nonneg u st fl b b' a shares s :
  accruing u st fl b s -> 0 <= shares -> 0 <= dust_of shares st fl a b' s.
Proof.
  intros [Hwf _ _ Hrate _ _ _] Hsh. apply (ref_dust_nonneg (load_cfg s) shares _ _ b); auto.
  unfold bps_range. lia.
Qed.

(** C15. Rewards do not depend on how often a position is settled.  Settling
    [[a, b)] and then [[b, c)] credits exactly the reward, and leaves exactly
    the sub-unit remainder, of settling [[a, c)] at once; nothing is lost to
    rounding at the intermediate settlement.  This is for an accruing position:
    a positive rate, a well-formed schedule whose halving floor is positive, no
    bootstrap phase, and a sum that fits the width.  There the three runs end,
    with one unit of budget per ledger, and write nothing but the remainder;
    without a positive rate they need not end ([Accrual.v]). *)
Theorem settlement_path_independent u st fl shares a b c s :
  accruing u st fl c s -> wf_cfg (load_cfg s) b ->
  0 <= shares -> 0 <= a <= b -> b <= c ->
  get_reward_remainder u s + dust_of shares st fl a c s <= i128_max ->
  exists r1 s1 r2 s2 r s3,
    reward_between_ledgers env (Z.to_nat (b - a)) u shares a b true s = Ok r1 s1 /\
    reward_between_ledgers env (Z.to_nat (c - b)) u shares b c true s1 = Ok r2 s2 /\
    reward_between_ledgers env (Z.to_nat (c - a)) u shares a c true s = Ok r s3 /\
    r = r1 + r2 /\ get_reward_remainder u s2 = get_reward_remainder u s3 /\
    r * DIVISOR + get_reward_remainder u s3 = get_reward_remainder u s + dust_of shares st fl a c s /\
    (forall k, k <> KPers (RewardRemainder u) -> rd k s3 = rd k s).
Proof.
  intros Hac Hwfb Hsh Hab Hbc Hmax.
  pose proof (dust_nonneg u st fl c b a shares s Hac Hsh) as Hn1.
  pose proof (dust_nonneg u st fl c c b shares s Hac Hsh) as Hn2.
  assert (Hdc : 0 <= get_reward_remainder u s < DIVISOR) by apply Hac. pose proof DIVISOR_pos as HD.
  rewrite (dust_of_split shares st fl a b c s) in Hmax |- * by lia.
  set (d1 := dust_of shares st fl a b s) in *. set (d2 := dust_of shares st fl b c s) in *.
  assert (Hab' : accruing u st fl b s).
  { destruct Hac. split; auto. unfold in_u32 in *. lia. }
  destruct (between_exact (Z.to_nat (b - a)) u st fl shares a b true s) as (s1 & H1 & Hr1 & Hf1 & _);
    auto; try (fold d1); try lia. fold d1 in H1, Hr1.
  assert (Hsame : forall k, k <> KPers (RewardRemainder u) -> rd k s1 = rd k s) by done.
  assert (Hcfg : load_cfg s1 = load_cfg s).
  { unfold load_cfg, get_halving_config, get_halving_reduction_bps, get_seasons, get_boost_schedule.
    by rewrite !Hsame. }
  assert (Hrate : get_reward_rate_bps s1 = get_reward_rate_bps s)
    by (unfold get_reward_rate_bps; by rewrite Hsame).
  assert (Hd2 : dust_of shares st fl b c s1 = d2) by (unfold d2, dust_of; by rewrite Hcfg, Hrate).
  assert (Hac1 : accruing u st fl c s1).
  { destruct Hac. split; rewrite ?Hcfg, ?Hrate; auto.
    - by rewrite Hsame.
    - by rewrite Hsame.
    - unfold reward_accrual_floor, get_min_pool_size, get_rewards_activated_at in *. by rewrite !Hsame.
    - rewrite Hr1. by apply Z.mod_pos_bound. }
  pose proof (Z.mod_le (get_reward_remainder u s + d1) DIVISOR ltac:(lia) HD).
  destruct (between_exact (Z.to_nat (c - b)) u st fl shares b c true s1) as (s2 & H2 & Hr2 & _);
    auto; try lia. rewrite Hd2, Hr1 in H2, Hr2.
  destruct (between_exact (Z.to_nat (c - a)) u st fl shares a c true s) as (s3 & H3 & Hr3 & Hf3 & _);
    auto; try lia; [rewrite (dust_of_split shares st fl a b c s) by lia; fold d1 d2; lia|].
  rewrite (dust_of_split shares st fl a b c s) in H3, Hr3 by lia. fold d1 d2 in H3, Hr3.
  destruct (divide_twice (get_reward_remainder u s) d1 d2) as [Eq Em].
  do 6 eexists. split; [exact H1|]. split; [exact H2|]. split; [exact H3|].
  rewrite Hr2, Hr3, Em, Eq. split_and!; try done.
  pose proof (Z.div_mod (get_reward_remainder u s + (d1 + d2)) DIVISOR ltac:(lia)). lia.
Qed.

End Exact.

(** ** The whole handler *)

(** What the source says of the function it does not define: settling the
    bootstrap replaces its configuration by the base rate, and nothing else. *)
Class BootstrapLaws (W : World) (B : Bootstrap W) : Prop :=
  settle_bootstrap : forall s, exists s', maybe_settle_bootstrap s = Ok tt s' /\
    (forall k, k <> KGov BootstrapCfg -> k <> KInst RewardRateBps -> rd k s' = rd k s) /\
    st_ext s' = st_ext s.

Section Handler.
Context {W : World} {B : Bootstrap W} {BL : BootstrapLaws W B} (env : Env).
Implicit Types s : State.

Lemma update_no_trap s :
  exists r s', catch (E':=VaultError.t) (update_global_accumulator env) s = Ok r s'.
Proof.
  unfold catch, update_global_accumulator, reading, set_global_reward_per_share,
    set_last_accumulator_ledger, bind, put, publish, ok_or, ret, throw.
  repeat case_match; eauto; congruence.
Qed.

Lemma ignore_update_Ok s :
  exists s', ignore (E':=VaultError.t) (update_global_accumulator env) s = Ok tt s' /\
    (forall k, ~ accumulator_key k -> rd k s' = rd k s) /\ st_ext s' = st_ext s.
Proof.
  destruct (update_no_trap s) as (r & s' & H). unfold catch in H. unfold ignore.
  pose proof (update_touches env s) as Ht. pose proof (update_keeps env s) as Hk.
  destruct (update_global_accumulator env s); [..|done]; eexists; split; try reflexivity; auto.
Qed.

Lemma season_transition_Ok s :
  exists s', maybe_emit_season_transition (E:=VaultError.t) env s = Ok tt s' /\
    (forall k, k <> KGov SeasonMarker -> rd k s' = rd k s) /\ st_ext s' = st_ext s.
Proof.
  unfold maybe_emit_season_transition, reading. repeat case_match; eexists;
    (split; [reflexivity|]); (split; [|done]); intros k Hk; rewrite ?rd_upd_ne by congruence; done.
Qed.

(** The keys [accrue_rewards] may write. *)
Definition accrual_key (u : Address) (k : key) : Prop :=
  k = KPers (RewardRemainder u) \/ k = KPers (AccruedReward u) \/
  k = KPers (RewardCheckpointLedger u) \/ k = KPers (UserRewardCheckpoint u) \/
  k = KPers (UserRewardCheckpointLegacy u) \/ k = KGov BootstrapCfg \/ k = KInst RewardRateBps \/
  k = KGov SeasonMarker \/ accumulator_key k.

(** The keys the part of [accrue_rewards] behind the credit may write. *)
Definition closing_key (u : Address) (k : key) : Prop :=
  k = KPers (RewardCheckpointLedger u) \/ k = KPers (UserRewardCheckpoint u) \/
  k = KPers (UserRewardCheckpointLegacy u) \/ k = KGov BootstrapCfg \/ k = KInst RewardRateBps \/
  k = KGov SeasonMarker \/ accumulator_key k.

(** That part always succeeds. *)
Lemma close_accrual_Ok u s :
  exists s', (set_reward_checkpoint_ledger u (sequence env) ;;;
              ignore (update_global_accumulator env) ;;;
              checkpoint_user u ;;;
              maybe_settle_bootstrap ;;;
              maybe_emit_season_transition env) s = Ok (E:=VaultError.t) tt s' /\
    get_reward_checkpoint_ledger u s' = Some (sequence env) /\
    (forall k, ~ closing_key u k -> rd k s' = rd k s) /\ st_ext s' = st_ext s.
Proof.
  set (s3 := upd (RewardCheckpointLedger u) (Some (sequence env)) s).
  assert (H3 : set_reward_checkpoint_ledger (E:=VaultError.t) u (sequence env) s = Ok tt s3) by done.
  rewrite (bind_run _ _ _ _ _ H3). clear H3.
  destruct (ignore_update_Ok s3) as (s4 & H4 & Hf4 & He4). rewrite (bind_run _ _ _ _ _ H4).
  set (s5 := upd (UserRewardCheckpointLegacy u) (Some (get_global_reward_per_share s4))
               (upd (UserRewardCheckpoint u) (Some (get_global_reward_per_share s4)) s4)).
  assert (H5 : checkpoint_user (E:=VaultError.t) u s4 = Ok tt s5) by done.
  rewrite (bind_run _ _ _ _ _ H5).
  destruct (settle_bootstrap s5) as (s6 & H6 & Hf6 & He6). rewrite (bind_run _ _ _ _ _ H6).
  destruct (season_transition_Ok s6) as (s7 & H7 & Hf7 & He7).
  exists s7. split; [exact H7|]. split; [|split].
  - unfold get_reward_checkpoint_ledger. rewrite Hf7, Hf6 by done. subst s5. rewrite !rd_upd_ne by congruence.
    rewrite Hf4 by (unfold accumulator_key; naive_solver). subst s3. by rdsimp.
  - intros k Hk. unfold closing_key in Hk. rewrite Hf7, Hf6 by naive_solver. subst s5.
    rewrite !rd_upd_ne by naive_solver. rewrite Hf4 by naive_solver. subst s3. by rewrite rd_upd_ne by naive_solver.
  - rewrite He7, He6. subst s5. change (st_ext s4 = st_ext s). by rewrite He4.
Qed.

(** The credit itself. *)
Lemma credit_Ok u q s :
  0 <= get_accrued_reward u s -> 0 <= q -> get_accrued_reward u s + q <= i128_max ->
  exists s', (if 0 <? q then
                let& accrued := get_accrued_reward u in
                let! updated_accrued := ok_or (checked_add accrued q) VaultError.ArithmeticError in
                set_accrued_reward u updated_accrued
              else ret tt) s = Ok tt s' /\
    get_accrued_reward u s' = get_accrued_reward u s + q /\
    (forall k, k <> KPers (AccruedReward u) -> rd k s' = rd k s) /\ st_ext s' = st_ext s.
Proof.
  intros Ha Hq Hmax. pose proof i128_bounds. destruct (Z.ltb_spec 0 q).
  - exists (upd (AccruedReward u) (Some (get_accrued_reward u s + q)) s). split; [|split; [|split; [|done]]].
    + unfold reading, checked_add. rewrite to_i128_in by (unfold in_i128; lia). unfold ok_or, bind, ret at 1.
      unfold set_accrued_reward, assert_non_negative, panic_if, bind.
      by rewrite (proj2 (Z.ltb_ge _ _)) by lia.
    + unfold get_accrued_reward at 1. by rdsimp.
    + intros k Hk. by rewrite rd_upd_ne by congruence.
  - exists s. split_and!; [done|lia|done|done].
Qed.

(** Accrual credits exactly what was earned, and the view agrees with it.
    For a position settled at ledger [a], outside epoch mode and with no epoch
    budget configured, [accrue_rewards] ends successfully, adds to the accrued
    reward the whole units of (remainder + per-ledger dust of [[a, now)]),
    stores the rest as the new remainder and the current ledger as the new
    checkpoint; [pending_reward] called just before returns exactly the accrued
    reward that results.  Positions, pool totals and token balances are
    untouched. *)
Theorem accrue_rewards_exact u st fl a s :
  accruing u st fl (sequence env) s -> rd EpochMode s <> Some true -> rd EpochCfg s = None ->
  get_reward_checkpoint_ledger u s = Some a -> 0 <= a ->
  0 <= get_shares u s -> 0 <= get_accrued_reward u s ->
  let earned := get_reward_remainder u s + dust_of (get_shares u s) st fl a (sequence env) s in
  earned <= i128_max -> get_accrued_reward u s + earned / DIVISOR <= i128_max ->
  exists s', accrue_rewards env (Z.to_nat (sequence env - a)) u (get_shares u s) s = Ok tt s' /\
    get_accrued_reward u s' = get_accrued_reward u s + earned / DIVISOR /\
    get_reward_remainder u s' = earned mod DIVISOR /\
    get_reward_checkpoint_ledger u s' = Some (sequence env) /\
    (exists s2, pending_reward env (Z.to_nat (sequence env - a)) u s = Ok (get_accrued_reward u s') s2) /\
    (forall k, ~ accrual_key u k -> rd k s' = rd k s) /\ st_ext s' = st_ext s.
Proof.
  intros Hac Hmode Hcfg Hcp Ha Hsh Hacc earned Hmax Hmax2. pose proof DIVISOR_pos as HD.
  pose proof i128_bounds as Hi.
  assert (Hn : 0 <= earned).
  { pose proof (dust_nonneg u st fl _ (sequence env) a _ s Hac Hsh). pose proof (ac_rem _ _ _ _ _ Hac).
    unfold earned. lia. }
  set (q := earned / DIVISOR) in *. assert (Hq : 0 <= q) by (apply Z.div_pos; lia).
  destruct (between_exact env (Z.to_nat (sequence env - a)) u st fl (get_shares u s) a (sequence env) true s)
    as (s1 & H1 & Hr1 & Hf1 & He1); auto. fold earned in H1, Hr1. fold q in H1.
  destruct (between_exact env (Z.to_nat (sequence env - a)) u st fl (get_shares u s) a (sequence env) false s)
    as (sv & Hv & _); auto. fold earned in Hv. fold q in Hv.
  assert (Hpend : exists s2, pending_reward env (Z.to_nat (sequence env - a)) u s
                             = Ok (get_accrued_reward u s + q) s2).
  { exists sv. unfold pending_reward, reading. rewrite Hcp. cbn [from_option id].
    rewrite (bind_run _ _ _ _ _ Hv). unfold checked_add. rewrite to_i128_in by (unfold in_i128; lia). done. }
  assert (Hacc1 : get_accrued_reward u s1 = get_accrued_reward u s)
    by (unfold get_accrued_reward; by rewrite Hf1).
  destruct (credit_Ok u q s1) as (s2 & H2 & Hcred & Hf2 & He2); [lia..|].
  destruct (close_accrual_Ok u s2) as (s3 & H3 & Hck & Hf3 & He3).
  exists s3. split.
  { unfold accrue_rewards. unfold reading at 1.
    replace (default false (rd EpochMode s)) with false by (destruct (rd EpochMode s) as [[]|]; done).
    unfold reading at 1. rewrite Hcp. cbn [from_option id]. rewrite (bind_run _ _ _ _ _ H1).
    assert (Hbud : apply_budget (E:=VaultError.t) env q s1 = Ok q s1).
    { unfold apply_budget, reading. by rewrite Hf1, Hcfg. }
    rewrite (bind_run _ _ _ _ _ Hbud), (bind_run _ _ _ _ _ H2). exact H3. }
  assert (Hacc' : get_accrued_reward u s3 = get_accrued_reward u s + q).
  { unfold get_accrued_reward at 1. rewrite Hf3 by (unfold closing_key, accumulator_key; naive_solver).
    by rewrite <- Hacc1. }
  split_and!; [done| |done|by rewrite Hacc'| |by rewrite He3, He2, He1].
  - unfold get_reward_remainder. rewrite Hf3, Hf2 by (done || unfold closing_key, accumulator_key; naive_solver).
    apply Hr1.
  - intros k Hk. unfold accrual_key in Hk. rewrite Hf3, Hf2, Hf1 by (unfold closing_key; naive_solver). done.
Qed.

End Handler.

(** ** The epoch budget *)

Section Budget.
Context {W : World} (env : Env).
Implicit Types s : State.

Definition at_sequence (l : Z) : Env := mkEnv l (timestamp env) (self env) (signed env).

(** A series of accruals, each with the ledger it happens at; the sum of what
    was allowed. *)
Fixpoint budget_run {E} (calls : list (Z * Z)) : M E Z :=
  match calls with
  | [] => ret 0
  | (l, amount) :: calls =>
      let! x := apply_budget (at_sequence l) amount in
      let! y := budget_run calls in
      ret (x + y)
  end.

Definition requested (calls : list (Z * Z)) : Z := fold_right (fun c n => c.2 + n) 0 calls.

(** An epoch never emits more than its budget, and is not stingier than it:
    over any series of accruals inside the epoch in force, the total allowed
    is exactly the smaller of the total requested and what was left of the
    budget when the series began. *)
Theorem epoch_budget_respected E config state calls s :
  rd EpochCfg s = Some config -> rd EpochSt s = Some state ->
  0 <= es_emitted state <= ec_budget_per_epoch config -> in_i128 (ec_budget_per_epoch config) ->
  (forall l amount, (l, amount) ∈ calls ->
     0 <= amount /\ es_start state <= l < es_start state + ec_length_ledgers config) ->
  exists s', budget_run (E:=E) calls s =
    Ok (Z.min (requested calls) (ec_budget_per_epoch config - es_emitted state)) s' /\
    rd EpochSt s' = Some (mkEpochState (es_id state) (es_start state) (es_emitted state +
       Z.min (requested calls) (ec_budget_per_epoch config - es_emitted state))).
Proof.
  intros Hcfg Hst Hem Hin. unfold in_i128 in Hin. pose proof i128_bounds as Hi. revert s state Hcfg Hst Hem.
  induction calls as [|[l amount] calls IH]; intros s state Hcfg Hst Hem Hcalls.
  { exists s. simpl. rewrite Z.min_l, Z.add_0_r by lia. split; [done|]. rewrite Hst. by destruct state. }
  destruct (Hcalls l amount ltac:(by constructor)) as [Ham Hl].
  assert (Hrest : forall l' a', (l', a') ∈ calls -> 0 <= a' /\
     es_start state <= l' < es_start state + ec_length_ledgers config)
    by (intros; apply Hcalls; by constructor).
  assert (Hreq : 0 <= requested calls).
  { clear - Hrest. induction calls as [|[l a] calls IH]; simpl; [lia|].
    destruct (Hrest l a ltac:(by constructor)) as [? _].
    assert (0 <= requested calls) by (apply IH; intros; apply Hrest; by constructor).
    unfold requested in *. lia. }
  cbn [budget_run]. set (allowed := Z.min amount (Z.max (ec_budget_per_epoch config - es_emitted state) 0)).
  set (s1 := upd EpochSt (Some (mkEpochState (es_id state) (es_start state) (es_emitted state + allowed))) s).
  assert (H1 : apply_budget (E:=E) (at_sequence l) amount s = Ok allowed s1).
  { unfold apply_budget. unfold reading at 1. unfold reading at 1. rewrite Hcfg, Hst. unfold rolled.
    cbn [sequence at_sequence]. unfold u32_sat_sub.
    rewrite (proj2 (Z.ltb_lt _ _)) by lia.
    unfold checked_sub, checked_add.
    unfold bind at 1, ret at 1. rewrite to_i128_in by (unfold in_i128; lia).
    unfold plain at 1. unfold bind at 1, ret at 1. fold allowed.
    rewrite to_i128_in by (unfold in_i128; lia). reflexivity. }
  rewrite (bind_run _ _ _ _ _ H1).
  destruct (IH s1 (mkEpochState (es_id state) (es_start state) (es_emitted state + allowed)))
    as (s2 & H2 & Hs2); simpl; try (subst s1; by rdsimp); try lia; try done.
  exists s2. rewrite (bind_run _ _ _ _ _ H2). simpl in *. unfold ret. rewrite Hs2.
  split; [f_equal; subst allowed; lia|]. do 2 f_equal. subst allowed. lia.
Qed.

End Budget.

(** ** Witnesses *)

#[local] Instance no_bootstrap : Bootstrap token_world :=
  {| effective_rate_at_ledger := fun _ _ => 0; maybe_settle_bootstrap := ret tt |}.
#[local] Instance no_bootstrap_laws : BootstrapLaws token_world no_bootstrap.
Proof. intros s. by exists s. Qed.

(** A 7% pool with one tier of 1.2x from ledger 50 on, one season from ledger 20
    to 30, and a user staked at ledger 10. *)
Definition earning : State (W := token_world) :=
  upd RewardRateBps (Some 700) (upd BoostSchedule (Some [(40, 12000)])
  (upd Seasons (Some [mkSeason "spring" 20 30 15000])
  (upd (StakedAtLedger 2) (Some 10) (upd (RewardCheckpointLedger 2) (Some 10)
  (upd (ShareBalance 2) (Some 5000000000) (start_state (fun _ _ => 0))))))).

Ltac earning_reads :=
  unfold load_cfg, get_halving_config, get_halving_reduction_bps, get_seasons, get_boost_schedule,
    get_reward_rate_bps, reward_accrual_floor, get_min_pool_size, get_reward_remainder,
    get_reward_checkpoint_ledger, get_shares, get_accrued_reward, earning in *; rdsimp.

Lemma earning_cfg : load_cfg earning =
  mkAccrualCfg None 5000 None [mkSeason "spring" 20 30 15000] [(40, 12000)].
Proof. earning_reads. reflexivity. Qed.

Lemma earning_wf b : wf_cfg (load_cfg earning) b.
Proof.
  rewrite earning_cfg. split; simpl; try done.
  - intros x ->%list_elem_of_singleton. by vm_compute.
  - by repeat constructor.
  - by repeat constructor.
  - intros t m [= -> ->]%list_elem_of_singleton. by vm_compute.
Qed.

Lemma earning_accruing b : in_u32 b -> accruing 2 10 0 b earning.
Proof.
  intros Hb. split; [apply earning_wf|done|..]; earning_reads; by vm_compute.
Qed.

Lemma earning_cfg_ok : cfg_ok earning.
Proof.
  split; earning_reads; simpl.
  - by repeat constructor.
  - intros t m [= -> ->]%list_elem_of_singleton. by vm_compute.
  - by repeat constructor.
  - intros x ->%list_elem_of_singleton. simpl. lia.
  - done.
  - split; by vm_compute.
Qed.

Lemma config_ops_preserve_witness :
  cfg_ok (fold_left (fun s op => run_config (at_ledger 9) op s)
    [OpHalving 7 100 5000 10; OpAddSeason 7 "summer" 30 40 11000;
     OpBoost [(5, 10000); (9, 20000)]; OpRemoveSeason 7 0]
    (upd Admin (Some 7%positive) earning)).
Proof.
  apply (config_ops_preserve (at_ledger 9)).
  - repeat constructor; by vm_compute.
  - apply (cfg_ok_frame earning _ earning_cfg_ok); by rewrite rd_upd_ne.
Defined.

Lemma settlement_path_independent_witness :
  exists r1 s1 r2 s2 r s3,
    reward_between_ledgers (at_ledger 60) 15 2 5000000000 10 25 true earning = Ok r1 s1 /\
    reward_between_ledgers (at_ledger 60) 35 2 5000000000 25 60 true s1 = Ok r2 s2 /\
    reward_between_ledgers (at_ledger 60) 50 2 5000000000 10 60 true earning = Ok r s3 /\
    r = r1 + r2.
Proof.
  destruct (settlement_path_independent (at_ledger 60) 2%positive 10 0 5000000000 10 25 60 earning)
    as (r1 & s1 & r2 & s2 & r & s3 & H1 & H2 & H3 & H4 & _);
    [by apply earning_accruing|apply earning_wf|lia..| |].
  - unfold dust_of. rewrite earning_cfg. earning_reads. by vm_compute.
  - exists r1, s1, r2, s2, r, s3. exact (conj H1 (conj H2 (conj H3 H4))).
Defined.

Lemma accrue_rewards_exact_witness :
  exists s', accrue_rewards (at_ledger 60) 50 2 (get_shares 2 earning) earning = Ok tt s' /\
    get_accrued_reward 2 s' = 3163 /\ get_reward_checkpoint_ledger 2 s' = Some 60.
Proof.
  destruct (accrue_rewards_exact (at_ledger 60) 2%positive 10 0 10 earning)
    as (s' & H1 & H2 & _ & H3 & _);
    [by apply earning_accruing|by earning_reads|by earning_reads|by earning_reads|lia|..].
  1, 2, 3, 4: by vm_compute.
  exists s'. split; [exact H1|]. split; [|exact H3]. rewrite H2.
  vm_compute. reflexivity.
Defined.

Definition budgeted : State (W := token_world) :=
  upd EpochCfg (Some (mkEpochConfig 100 1000)) (upd EpochSt (Some (mkEpochState 3 500 0)) earning).

Lemma epoch_budget_respected_witness :
  exists s', budget_run (E:=VaultError.t) (at_ledger 0) [(510, 400); (520, 500); (599, 300)] budgeted
    = Ok 1000 s' /\ rd EpochSt s' = Some (mkEpochState 3 500 1000).
Proof.
  apply (epoch_budget_respected (at_ledger 0) VaultError.t (mkEpochConfig 100 1000)
    (mkEpochState 3 500 0) [(510, 400); (520, 500); (599, 300)] budgeted).
  - unfold budgeted. by rdsimp.
  - unfold budgeted. by rdsimp.
  - simpl. lia.
  - by apply in_i128b_spec; vm_compute.
  - simpl. intros l a. rewrite !elem_of_cons, elem_of_nil. naive_solver lia.
Defined.
