(* ===== verification/Checkpoints.v ===== *)
(** * Historical balance checkpoints ([balance_checkpoints.rs])

    A bounded list of [Checkpoint]s per user (and one for the pool) records
    every share-balance change.  The definitions are the module's own; the
    reference is the true balance as a function of the ledger, [f : Z -> Z].
    [hist_ok h f] says that the list [h] represents [f]; [push] preserves it and
    the queries read [f] back ([history_replay], [balance_at_exact],
    [twab_exact]). *)

From Stdlib Require Import Sorted.
From stdpp Require Import sorting.
From S2P Require Import Prelude Errors Storage Host Concrete.

Definition MAX_CHECKPOINTS : nat := 100.

(** [push]: returns whether the history changed, and the new history. *)
Definition push (history : list Checkpoint) (ledger balance : Z) : bool * list Checkpoint :=
  match last history with
  | None =>
      if balance =? 0 then (false, history)
      else (true, history ++ [mkCheckpoint ledger balance 0])
  | Some lst =>
      if ck_balance lst =? balance then (false, history)
      else if ck_ledger lst =? ledger then
        (true, <[(length history - 1)%nat := mkCheckpoint ledger balance (ck_cumulative lst)]> history)
      else
        let elapsed := u32_sat_sub ledger (ck_ledger lst) in
        let history := history ++
          [mkCheckpoint ledger balance
             (sat_add (ck_cumulative lst) (sat_mul (ck_balance lst) elapsed))] in
        (true, if (MAX_CHECKPOINTS <? length history)%nat then drop 1 history else history)
  end.

(** The binary search of [find]; [fuel] bounds the halvings. *)
Fixpoint find_low (fuel : nat) (history : list Checkpoint) (ledger : Z) (low high : nat) : nat :=
  match fuel with
  | O => low
  | S fuel =>
      if (low <? high)%nat then
        let mid := (low + (high - low) / 2)%nat in
        match history !! mid with
        | Some c =>
            if ck_ledger c <=? ledger then find_low fuel history ledger (S mid) high
            else find_low fuel history ledger low mid
        | None => low
        end
      else low
  end.

Definition find (history : list Checkpoint) (ledger : Z) : option Checkpoint :=
  match find_low (length history) history ledger 0 (length history) with
  | O => None
  | S low => history !! low
  end.

Definition balance_in (history : list Checkpoint) (ledger : Z) : Z :=
  default 0 (ck_balance <$> find history ledger).

Definition cumulative_in (history : list Checkpoint) (ledger : Z) : Z :=
  match find history ledger with
  | Some c =>
      sat_add (ck_cumulative c) (sat_mul (ck_balance c) (u32_sat_sub ledger (ck_ledger c)))
  | None => 0
  end.

Section Component.
Context {W : World} (env : Env).

Definition twab_in (history : list Checkpoint) (from_ledger to_ledger : Z) : M VaultError.t Z :=
  fail_if (to_ledger <=? from_ledger) VaultError.ZeroAmount ;;;
  fail_if (sequence env <? to_ledger) VaultError.EpochNotFinalized ;;;
  fail_if (match find history from_ledger with None => true | Some _ => false end &&
           match head history with Some c => negb (ck_cumulative c =? 0) | None => false end)
    VaultError.EpochNotFinalized ;;;
  let accumulated := sat_sub (cumulative_in history to_ledger) (cumulative_in history from_ledger) in
  ret (Z.quot accumulated (to_ledger - from_ledger)).

Definition require_past (ledger : Z) : M VaultError.t unit :=
  fail_if (sequence env <? ledger) VaultError.EpochNotFinalized.

Definition user_history (user : Address) (s : State) : list Checkpoint :=
  default [] (rd (UserCheckpoints user) s).
Definition total_history (s : State) : list Checkpoint := default [] (rd TotalCheckpoints s).

Definition record_user {E} (user : Address) (balance : Z) : M E unit :=
  let& history := user_history user in
  let (changed, history) := push history (sequence env) balance in
  if changed then put (UserCheckpoints user) history else ret tt.

Definition record_total {E} (total : Z) : M E unit :=
  let& history := total_history in
  let (changed, history) := push history (sequence env) total in
  if changed then put TotalCheckpoints history else ret tt.

Definition balance_at (user : Address) (ledger : Z) : M VaultError.t Z :=
  require_past ledger ;;;
  let& history := user_history user in
  ret (balance_in history ledger).

Definition total_supply_at (ledger : Z) : M VaultError.t Z :=
  require_past ledger ;;;
  let& history := total_history in
  ret (balance_in history ledger).

Definition get_twab (user : Address) (from_ledger to_ledger : Z) : M VaultError.t Z :=
  let& history := user_history user in twab_in history from_ledger to_ledger.

Definition get_total_twab (from_ledger to_ledger : Z) : M VaultError.t Z :=
  let& history := total_history in twab_in history from_ledger to_ledger.

End Component.

(** ** Binary search is the latest-checkpoint scan *)

Definition by_ledger (a b : Checkpoint) : Prop := ck_ledger a < ck_ledger b.

(** The scan the search stands for. *)
Fixpoint latest (l : Z) (acc : option Checkpoint) (h : list Checkpoint) : option Checkpoint :=
  match h with
  | [] => acc
  | c :: h => if ck_ledger c <=? l then latest l (Some c) h else acc
  end.

(** Where the list splits at [l]. *)
Definition cut (h : list Checkpoint) (l : Z) (n : nat) : Prop :=
  (n <= length h)%nat /\
  (forall i c, h !! i = Some c -> (i < n)%nat -> ck_ledger c <= l) /\
  (forall i c, h !! i = Some c -> (n <= i)%nat -> l < ck_ledger c).

Lemma sorted_lookup h i j a b :
  StronglySorted by_ledger h -> h !! i = Some a -> h !! j = Some b -> (i < j)%nat ->
  ck_ledger a < ck_ledger b.
Proof.
  intros Hs. revert i j. induction Hs as [|c h Hs IH Hf]; intros i j Ha Hb Hij; [done|].
  destruct j as [|j]; [lia|]. destruct i as [|i]; simpl in *.
  - injection Ha as ->. rewrite List.Forall_forall in Hf. apply Hf.
    apply list_elem_of_In. by eapply list_elem_of_lookup_2.
  - apply (IH i j); auto. lia.
Qed.

Lemma half_bound d : (0 < d -> d / 2 < d)%nat.
Proof. intros. apply Nat.div_lt; lia. Qed.

Lemma find_low_cut fuel h l low high :
  StronglySorted by_ledger h -> (high <= length h)%nat -> (high - low <= fuel)%nat ->
  (low <= high)%nat ->
  (forall i c, h !! i = Some c -> (i < low)%nat -> ck_ledger c <= l) ->
  (forall i c, h !! i = Some c -> (high <= i)%nat -> l < ck_ledger c) ->
  cut h l (find_low fuel h l low high).
Proof.
  intros Hs. revert low high.
  induction fuel as [|fuel IH]; intros low high Hlen Hf Hle Hlo Hhi; cbn [find_low].
  { replace high with low in * by lia. done. }
  destruct (Nat.ltb_spec low high).
  2: { replace high with low in * by lia. done. }
  pose proof (half_bound (high - low)) as Hhalf. set (mid := (low + (high - low) / 2)%nat).
  destruct (h !! mid) as [c|] eqn:Ec; [|apply lookup_ge_None in Ec; lia].
  destruct (Z.leb_spec (ck_ledger c) l).
  - apply IH; try lia; try done. intros i c' Hi Him.
    destruct (decide (i = mid)) as [->|]; [congruence|].
    pose proof (sorted_lookup h i mid c' c Hs Hi Ec). lia.
  - apply IH; try lia; try done. intros i c' Hi Him.
    destruct (decide (i = mid)) as [->|]; [congruence|].
    pose proof (sorted_lookup h mid i c c' Hs Ec Hi). lia.
Qed.

Lemma latest_cut h l acc n :
  cut h l n -> latest l acc h = match n with O => acc | S m => h !! m end.
Proof.
  revert acc n. induction h as [|c h IH]; intros acc n (Hn & Hlo & Hhi); simpl in *.
  { by replace n with O by lia. }
  destruct (Z.leb_spec (ck_ledger c) l) as [Hc|Hc].
  - destruct n as [|m]; [pose proof (Hhi O c eq_refl ltac:(lia)); lia|].
    rewrite (IH (Some c) m); [by destruct m|]. split_and!; [lia| |].
    + intros i c' Hi Him. apply (Hlo (S i)); [done|lia].
    + intros i c' Hi Him. apply (Hhi (S i)); [done|lia].
  - destruct n as [|m]; [done|]. pose proof (Hlo O c eq_refl ltac:(lia)). lia.
Qed.

Lemma find_latest h l : StronglySorted by_ledger h -> find h l = latest l None h.
Proof.
  intros Hs. pose proof (find_low_cut (length h) h l 0 (length h) Hs) as Hc.
  rewrite (latest_cut h l None (find_low (length h) h l 0 (length h))); [done|].
  apply Hc; [lia..| |].
  - intros; lia.
  - intros i c Hi Hge. apply lookup_lt_Some in Hi. lia.
Qed.

(** ** A history that represents a balance function *)

(** Sum of the balance over all ledgers before [l]. *)
Definition area (f : Z -> Z) (l : Z) : Z := sum_from f 0 (Z.to_nat l).

Record hist_ok (h : list Checkpoint) (f : Z -> Z) : Prop := {
  hk_sorted : StronglySorted by_ledger h;
  hk_len : (length h <= MAX_CHECKPOINTS)%nat;
  hk_nonneg : forall l, 0 <= l -> 0 <= f l;
  hk_start : forall c, c ∈ h -> 0 <= ck_ledger c;
  hk_cum : forall c, c ∈ h -> ck_cumulative c = area f (ck_ledger c);
  hk_bal : forall l c, latest l None h = Some c -> f l = ck_balance c;
  hk_empty : h = [] -> forall l, 0 <= l -> f l = 0
}.

(** The balance after a write of [b] at ledger [L]. *)
Definition set_from (f : Z -> Z) (L b : Z) : Z -> Z := fun l => if L <=? l then b else f l.

Lemma area_ext f g l : (forall i, 0 <= i < l -> f i = g i) -> area f l = area g l.
Proof. intros. apply sum_from_ext. intros. apply H. lia. Qed.

Lemma area_split f a b : 0 <= a <= b -> area f b = area f a + sum_from f a (Z.to_nat (b - a)).
Proof.
  intros. unfold area. pose proof (sum_from_split f 0 a b ltac:(lia)) as E.
  by rewrite !Z.sub_0_r in E.
Qed.

Lemma area_nonneg f l : (forall i, 0 <= i -> 0 <= f i) -> 0 <= area f l.
Proof. intros H. apply sum_from_nonneg_range. intros. apply H. lia. Qed.

Lemma area_set_from f L b l : l <= L -> area (set_from f L b) l = area f l.
Proof. intros. apply area_ext. intros i ?. unfold set_from. by destruct (Z.leb_spec L i); [lia|]. Qed.

Lemma latest_elem l acc h c : latest l acc h = Some c -> acc = Some c \/ (c ∈ h /\ ck_ledger c <= l).
Proof.
  revert acc. induction h as [|x h IH]; intros acc; simpl; [auto|].
  destruct (Z.leb_spec (ck_ledger x) l); [|auto].
  intros [[= ->]|[? ?]] % IH; right; (split; [by constructor|done]).
Qed.

Lemma latest_snoc l acc h c :
  StronglySorted by_ledger (h ++ [c]) ->
  latest l acc (h ++ [c]) = if ck_ledger c <=? l then Some c else latest l acc h.
Proof.
  revert acc. induction h as [|x h IH]; intros acc Hs; simpl in *; [done|].
  apply StronglySorted_inv in Hs as [Hs Hf]. rewrite IH by done.
  apply List.Forall_app in Hf as [_ Hc]. apply List.Forall_inv in Hc. unfold by_ledger in Hc.
  by destruct (Z.leb_spec (ck_ledger x) l), (Z.leb_spec (ck_ledger c) l); [..|lia|].
Qed.

(** From its ledger up to the queried one, the latest checkpoint is the same. *)
Lemma latest_stable h l c i :
  StronglySorted by_ledger h -> latest l None h = Some c -> ck_ledger c <= i <= l ->
  latest i None h = Some c.
Proof.
  intros Hs. induction h as [|x h IH] using rev_ind; [done|].
  rewrite !latest_snoc by done. pose proof (StronglySorted_app_1_l _ _ _ Hs) as Hs'.
  destruct (Z.leb_spec (ck_ledger x) l).
  - intros [= ->] Hi. by destruct (Z.leb_spec (ck_ledger c) i); [|lia].
  - intros Hl Hi. destruct (Z.leb_spec (ck_ledger x) i); [lia|]. by apply IH.
Qed.

Lemma sorted_snoc h c :
  StronglySorted by_ledger h -> (forall x, x ∈ h -> ck_ledger x < ck_ledger c) ->
  StronglySorted by_ledger (h ++ [c]).
Proof.
  intros Hs Hc. apply StronglySorted_app_2; [|done|by repeat constructor].
  intros x y Hx Hy. apply list_elem_of_singleton in Hy as ->. by apply Hc.
Qed.

Lemma sorted_snoc_inv h c :
  StronglySorted by_ledger (h ++ [c]) ->
  StronglySorted by_ledger h /\ forall x, x ∈ h -> ck_ledger x < ck_ledger c.
Proof.
  intros (Hx & Hs & _) % StronglySorted_app. split; [done|].
  intros x Hin. apply Hx; [done|]. by constructor.
Qed.

Lemma hist_last h c f :
  hist_ok (h ++ [c]) f -> forall l, ck_ledger c <= l -> f l = ck_balance c.
Proof.
  intros H l Hl. apply (hk_bal _ _ H). rewrite latest_snoc by apply (hk_sorted _ _ H).
  by destruct (Z.leb_spec (ck_ledger c) l); [|lia].
Qed.

(** What a query at [l] sees, up to the i128 range. *)
Lemma cumulative_exact h f l c :
  hist_ok h f -> 0 <= l -> area f l <= i128_max ->
  latest l None h = Some c ->
  sat_add (ck_cumulative c) (sat_mul (ck_balance c) (u32_sat_sub l (ck_ledger c))) = area f l.
Proof.
  intros H Hl Hmax Hc. apply latest_elem in Hc as Hin. destruct Hin as [?|[Hin Hle]]; [done|].
  pose proof (hk_start _ _ H c Hin) as Hs. rewrite (hk_cum _ _ H c Hin).
  pose proof (area_nonneg f (ck_ledger c) (hk_nonneg _ _ H)) as Hn.
  rewrite (area_split f (ck_ledger c) l) in Hmax |- * by lia.
  rewrite (sum_from_const f (ck_balance c)) in Hmax |- *.
  2, 3: intros i Hi; apply (hk_bal _ _ H); apply (latest_stable h l); [apply (hk_sorted _ _ H)|done|lia].
  pose proof (hk_nonneg _ _ H (ck_ledger c) Hs) as Hb.
  rewrite (hk_bal _ _ H (ck_ledger c) c) in Hb by
    (apply (latest_stable h l); [apply (hk_sorted _ _ H)|done|lia]).
  rewrite Z2Nat.id in Hmax |- * by lia. unfold u32_sat_sub. rewrite Z.max_l by lia.
  pose proof (Z.mul_nonneg_nonneg (ck_balance c) (l - ck_ledger c) Hb ltac:(lia)).
  pose proof i128_bounds. unfold sat_add, sat_mul. rewrite (clamp_in (_ * _)) by (unfold in_i128; lia).
  apply clamp_in. unfold in_i128. lia.
Qed.

Lemma hist_ext h f g :
  hist_ok h f -> (forall l, f l = g l) -> hist_ok h g.
Proof.
  intros [Hs Hl Hn Hst Hc Hb He] E. split; try done.
  - intros l ?. rewrite <- E. auto.
  - intros c Hin. rewrite Hc by done. by apply area_ext.
  - intros l c ?. rewrite <- E. auto.
  - intros ? l ?. rewrite <- E. auto.
Qed.

(** Appending a checkpoint with the right cumulative value. *)
Lemma hist_append h f L b :
  StronglySorted by_ledger h -> (length h < MAX_CHECKPOINTS)%nat ->
  (forall c, c ∈ h -> 0 <= ck_ledger c < L) -> 0 <= L -> 0 <= b ->
  (forall l, 0 <= l -> 0 <= f l) ->
  (forall c, c ∈ h -> ck_cumulative c = area f (ck_ledger c)) ->
  (forall l c, l < L -> latest l None h = Some c -> f l = ck_balance c) ->
  hist_ok (h ++ [mkCheckpoint L b (area f L)]) (set_from f L b).
Proof.
  intros Hs Hlen Hlt HL Hb Hn Hc Hbal.
  assert (Hs' : StronglySorted by_ledger (h ++ [mkCheckpoint L b (area f L)])).
  { apply sorted_snoc; [done|]. intros x Hx. by apply Hlt. }
  split; try done.
  - rewrite length_app. simpl. lia.
  - intros l Hl. unfold set_from. destruct (L <=? l); auto.
  - intros c [Hin|Hin] % elem_of_app; [by apply Hlt|].
    by apply list_elem_of_singleton in Hin as ->.
  - intros c [Hin|Hin] % elem_of_app.
    + rewrite Hc by done. rewrite area_set_from; [done|]. pose proof (Hlt c Hin). lia.
    + apply list_elem_of_singleton in Hin as ->. simpl. by rewrite area_set_from.
  - intros l c. rewrite latest_snoc by done. simpl. unfold set_from.
    destruct (Z.leb_spec L l); [by intros [= <-]|]. by apply Hbal.
  - intros Habs % app_eq_nil. naive_solver.
Qed.

Lemma latest_acc l h c acc : latest l None h = Some c -> latest l acc h = Some c.
Proof. destruct h as [|x h]; simpl; [done|]. by destruct (ck_ledger x <=? l). Qed.

Lemma latest_drop h l c :
  StronglySorted by_ledger h -> latest l None (drop 1 h) = Some c -> latest l None h = Some c.
Proof.
  destruct h as [|x h]; [done|]. simpl. rewrite drop_0. intros Hs Hc.
  apply StronglySorted_inv in Hs as [_ Hf].
  apply latest_elem in Hc as Hin. destruct Hin as [?|[Hin Hle]]; [done|].
  rewrite List.Forall_forall in Hf. pose proof (Hf c (proj1 (list_elem_of_In _ _) Hin)) as Hx.
  unfold by_ledger in Hx. destruct (Z.leb_spec (ck_ledger x) l); [|lia]. by apply latest_acc.
Qed.

Lemma sorted_drop h : StronglySorted by_ledger h -> StronglySorted by_ledger (drop 1 h).
Proof. intros Hs. destruct h as [|x h]; [done|]. by apply StronglySorted_inv in Hs as [Hs _]. Qed.

Lemma elem_of_drop1 {A} (h : list A) c : c ∈ drop 1 h -> c ∈ h.
Proof. destruct h; [done|]. simpl. rewrite drop_0. by constructor. Qed.

Lemma push_ok h f L b :
  hist_ok h f -> 0 <= L -> 0 <= b -> (forall c, c ∈ h -> ck_ledger c <= L) ->
  area f L <= i128_max ->
  hist_ok (push h L b).2 (set_from f L b).
Proof.
  intros H HL Hb Hlast Hmax. unfold push.
  destruct h as [|x0 h0 _] using rev_ind.
  { simpl. destruct (Z.eqb_spec b 0) as [->|].
    - destruct H as [Hs Hl Hn Hst Hc Hbal He]. specialize (He eq_refl). split; try done.
      + intros l ?. unfold set_from. destruct (L <=? l); [done|auto].
      + intros c Hin. by apply not_elem_of_nil in Hin.
      + intros _ l ?. unfold set_from. destruct (L <=? l); [done|auto].
    - assert (E : area f L = 0).
      { unfold area. rewrite (sum_from_const f 0); [lia|]. intros. apply (hk_empty _ _ H); [done|lia]. }
      pose proof (hist_append [] f L b) as Ha. rewrite E in Ha.
      apply Ha; [constructor|unfold MAX_CHECKPOINTS; simpl; lia| |done..|apply H| |done];
        intros c Hin; by apply not_elem_of_nil in Hin. }
  rewrite last_snoc. set (h := h0 ++ [x0]) in *.
  pose proof (hk_sorted _ _ H) as Hs. destruct (sorted_snoc_inv h0 x0 Hs) as [Hs0 Hlt0].
  assert (Hx0 : x0 ∈ h) by (apply elem_of_app; right; by constructor).
  pose proof (Hlast x0 Hx0) as HxL. pose proof (hk_start _ _ H x0 Hx0) as Hx0nn.
  destruct (Z.eqb_spec (ck_balance x0) b) as [Heq|Hne].
  { apply (hist_ext h f); [done|]. intros l. unfold set_from.
    destruct (Z.leb_spec L l); [|done]. rewrite (hist_last h0 x0) by (done || lia). done. }
  destruct (Z.eqb_spec (ck_ledger x0) L) as [HeqL|HneL].
  - cbn [snd]. unfold h. rewrite insert_app_r_alt by (rewrite length_app; simpl; lia).
    rewrite length_app. cbn [length]. replace (length h0 + 1 - 1 - length h0)%nat with O by lia.
    simpl. fold h. rewrite (hk_cum _ _ H x0 Hx0), HeqL.
    pose proof (hk_len _ _ H) as Hlen. subst h. rewrite length_app in Hlen. simpl in Hlen.
    apply hist_append; try done; try lia; [..|apply H| |].
    + intros c Hc. pose proof (Hlt0 c Hc). split; [|lia]. apply (hk_start _ _ H). set_solver.
    + intros c Hc. apply (hk_cum _ _ H). set_solver.
    + intros l c Hl Hc. apply (hk_bal _ _ H). rewrite latest_snoc by done.
      by destruct (Z.leb_spec (ck_ledger x0) l); [lia|].
  - assert (Hlx : latest L None h = Some x0).
    { unfold h. rewrite latest_snoc by done. by destruct (Z.leb_spec (ck_ledger x0) L); [|lia]. }
    rewrite (cumulative_exact h f L x0) by done. cbn [snd].
    assert (Hall : forall c, c ∈ h -> 0 <= ck_ledger c < L).
    { intros c Hc. split; [by apply (hk_start _ _ H)|].
      unfold h in Hc. apply elem_of_app in Hc as [Hc|Hc]; [specialize (Hlt0 c Hc); lia|].
      apply list_elem_of_singleton in Hc as ->. lia. }
    rewrite length_app. pose proof (hk_len _ _ H) as Hlen. cbn [length].
    destruct (Nat.ltb_spec MAX_CHECKPOINTS (length h + 1)).
    + rewrite drop_app_le by (unfold MAX_CHECKPOINTS in *; lia).
      apply hist_append; auto using sorted_drop; try (apply H).
      * rewrite length_drop. unfold MAX_CHECKPOINTS in *. lia.
      * intros c Hc % elem_of_drop1. by apply Hall.
      * intros c Hc % elem_of_drop1. by apply (hk_cum _ _ H).
      * intros l c _ Hc. apply (hk_bal _ _ H). by apply latest_drop.
    + apply hist_append; auto; try (apply H); [lia|..].
      intros l c _ Hc. by apply (hk_bal _ _ H).
Qed.

(** ** Queries *)

(** The history reaches back to [l]: a checkpoint applies there, or nothing was
    dropped that had accumulated anything. *)
Definition answered (h : list Checkpoint) (l : Z) : bool :=
  match find h l with Some _ => true | None => false end ||
  match head h with Some c => ck_cumulative c =? 0 | None => true end.

(** Before the oldest checkpoint of an unpruned list the balance was zero. *)
Lemma before_oldest h f l :
  hist_ok h f -> answered h l = true -> find h l = None -> 0 <= l ->
  forall i, 0 <= i <= l -> f i = 0.
Proof.
  intros H Ha Hf Hl i Hi. unfold answered in Ha. rewrite Hf in Ha. simpl in Ha.
  rewrite find_latest in Hf by apply (hk_sorted _ _ H).
  destruct h as [|c h]; [apply (hk_empty _ _ H); [done|lia]|]. simpl in Ha, Hf. apply Z.eqb_eq in Ha.
  destruct (Z.leb_spec (ck_ledger c) l) as [Hcl|Hcl].
  { exfalso. clear -Hf. revert c Hf. induction h as [|x h IH]; intros c; simpl; [done|].
    destruct (ck_ledger x <=? l); [apply IH|done]. }
  pose proof (hk_cum _ _ H c ltac:(by constructor)) as Hc. rewrite Ha in Hc.
  rewrite (area_split f (i + 1) (ck_ledger c)), (area_split f i (i + 1)) in Hc by lia.
  replace (Z.to_nat (i + 1 - i)) with 1%nat in Hc by lia. cbn [sum_from] in Hc.
  pose proof (area_nonneg f i (hk_nonneg _ _ H)).
  pose proof (hk_nonneg _ _ H i ltac:(lia)).
  assert (0 <= sum_from f (i + 1) (Z.to_nat (ck_ledger c - (i + 1)))).
  { apply sum_from_nonneg_range. intros. apply (hk_nonneg _ _ H). lia. }
  lia.
Qed.

Lemma balance_in_ok h f l :
  hist_ok h f -> 0 <= l -> answered h l = true -> balance_in h l = f l.
Proof.
  intros H Hl Ha. unfold balance_in. destruct (find h l) as [c|] eqn:Hf.
  - rewrite find_latest in Hf by apply (hk_sorted _ _ H). symmetry. by apply (hk_bal _ _ H).
  - symmetry. apply (before_oldest h f l); auto. lia.
Qed.

Lemma cumulative_in_ok h f l :
  hist_ok h f -> 0 <= l -> answered h l = true -> area f l <= i128_max ->
  cumulative_in h l = area f l.
Proof.
  intros H Hl Ha Hmax. unfold cumulative_in. destruct (find h l) as [c|] eqn:Hf.
  - rewrite find_latest in Hf by apply (hk_sorted _ _ H). by apply (cumulative_exact h).
  - unfold area. rewrite (sum_from_const f 0); [lia|].
    intros i Hi. apply (before_oldest h f l); auto. lia.
Qed.

Lemma answered_mono h l l' :
  StronglySorted by_ledger h -> l <= l' -> answered h l = true -> answered h l' = true.
Proof.
  intros Hs Hle. unfold answered. rewrite !find_latest by done.
  destruct h as [|c h]; [done|]. simpl. destruct (Z.leb_spec (ck_ledger c) l).
  - destruct (Z.leb_spec (ck_ledger c) l'); [|lia]. intros _.
    assert (Hx : forall h c, exists x, latest l' (Some c) h = Some x).
    { clear. intros h. induction h as [|x h IH]; intros c; simpl; [eauto|].
      destruct (ck_ledger x <=? l'); eauto. }
    by destruct (Hx h c) as [x ->].
  - simpl. intros ->. apply orb_true_r.
Qed.

(** ** Theorems *)

Section Theorems.
Context {W : World} (env : Env).

Lemma user_history_put u h (s : State) :
  user_history u (upd (UserCheckpoints u) (Some h) s) = h.
Proof. unfold user_history. by rdsimp. Qed.

(** Recording keeps the stored history faithful.  Whenever the stored list
    represents the user's true balance [f], [record_user] leaves a list of at
    most [MAX_CHECKPOINTS] entries representing the balance after the write. *)
Theorem record_user_faithful E u b f (s : State) :
  hist_ok (user_history u s) f -> 0 <= sequence env -> 0 <= b ->
  (forall c, c ∈ user_history u s -> ck_ledger c <= sequence env) ->
  area f (sequence env) <= i128_max ->
  exists s', record_user (E:=E) env u b s = Ok tt s' /\
    hist_ok (user_history u s') (set_from f (sequence env) b) /\
    (forall k, k <> KPers (UserCheckpoints u) -> rd k s' = rd k s).
Proof.
  intros H HL Hb Hlast Hmax. pose proof (push_ok _ _ _ _ H HL Hb Hlast Hmax) as Hp.
  unfold record_user, reading. destruct (push _ _ _) as [changed h'] eqn:Epush. simpl in Hp.
  destruct changed.
  - eexists. split; [reflexivity|]. rewrite user_history_put. split; [done|].
    intros k Hk. by apply rd_upd_ne.
  - exists s. split_and!; [done| |done].
    replace (user_history u s) with h'; [done|].
    revert Epush. unfold push. repeat case_match; congruence.
Qed.

(** Point queries are exact: [balance_at] returns the true balance at any
    past ledger the history still reaches, and rejects future ledgers. *)
Theorem balance_at_exact u f l (s : State) :
  hist_ok (user_history u s) f -> 0 <= l -> answered (user_history u s) l = true ->
  balance_at env u l s =
    if sequence env <? l then Err VaultError.EpochNotFinalized s else Ok (f l) s.
Proof.
  intros H Hl Ha. unfold balance_at, require_past, reading, bind, fail_if.
  destruct (sequence env <? l); [done|]. unfold ret at 1. by rewrite (balance_in_ok _ f).
Qed.

(** [get_twab] is the exact average: on every past window the history
    reaches it returns the sum of the true balances of the window's ledgers
    divided by its length, and a window whose start was pruned is refused
    instead of being overstated. *)
Theorem get_twab_exact u f a b (s : State) :
  hist_ok (user_history u s) f -> 0 <= a < b -> b <= sequence env -> area f b <= i128_max ->
  get_twab env u a b s =
    if answered (user_history u s) a
    then Ok (sum_from f a (Z.to_nat (b - a)) / (b - a)) s
    else Err VaultError.EpochNotFinalized s.
Proof.
  intros H Hab Hb Hmax. unfold get_twab, twab_in, reading, bind, fail_if.
  set (h := user_history u s) in *.
  destruct (Z.leb_spec b a), (Z.ltb_spec (sequence env) b); try lia. unfold ret at 1 2.
  assert (E : (match find h a with None => true | Some _ => false end &&
      match head h with Some c => negb (ck_cumulative c =? 0) | None => false end)
      = negb (answered h a)).
  { unfold answered. destruct (find h a), (head h); simpl; try done. }
  rewrite E. destruct (answered h a) eqn:Ha; simpl; [|done]. unfold ret. f_equal.
  pose proof (area_nonneg f a (hk_nonneg _ _ H)).
  assert (Hs : area f b = area f a + sum_from f a (Z.to_nat (b - a))) by (apply area_split; lia).
  assert (0 <= sum_from f a (Z.to_nat (b - a))).
  { apply sum_from_nonneg_range. intros. apply (hk_nonneg _ _ H). lia. }
  assert (Ha' : answered h b = true).
  { apply (answered_mono h a b); [apply (hk_sorted _ _ H)|lia|done]. }
  rewrite !(cumulative_in_ok h f) by (done || lia).
  pose proof i128_bounds. unfold sat_sub. rewrite clamp_in by (unfold in_i128; lia).
  rewrite quot_floor by lia. f_equal. lia.
Qed.

End Theorems.

(** ** Witnesses *)

Lemma hist_empty : hist_ok [] (fun _ => 0).
Proof. split; simpl; try done; [constructor|unfold MAX_CHECKPOINTS; lia|set_solver..]. Qed.

(** Five shares from ledger 10, as the contract records them. *)
Definition five_at_10 : State (W := token_world) :=
  upd (UserCheckpoints 2) (Some [mkCheckpoint 10 5 0]) (start_state (fun _ _ => 0)).

Lemma five_at_10_ok :
  hist_ok (user_history 2 five_at_10) (set_from (fun _ => 0) 10 5).
Proof.
  unfold five_at_10. rewrite user_history_put.
  apply (push_ok [] (fun _ => 0) 10 5 hist_empty); [lia..|set_solver|by vm_compute].
Qed.

Lemma record_user_faithful_witness :
  exists s', record_user (E:=VaultError.t) (at_ledger 20) 2%positive 8 five_at_10 = Ok tt s' /\
    hist_ok (user_history 2 s') (set_from (set_from (fun _ => 0) 10 5) 20 8) /\
    (forall k, k <> KPers (UserCheckpoints 2) -> rd k s' = rd k five_at_10).
Proof.
  apply (record_user_faithful (at_ledger 20) VaultError.t 2%positive 8 _ five_at_10 five_at_10_ok);
    [simpl; lia|lia| |by vm_compute].
  intros c. unfold five_at_10. rewrite user_history_put.
  intros Hc % list_elem_of_singleton. subst c. simpl. lia.
Defined.

Lemma balance_at_exact_witness :
  balance_at (at_ledger 30) 2%positive 12 five_at_10 = Ok 5 five_at_10.
Proof.
  rewrite (balance_at_exact (at_ledger 30) 2%positive _ 12 five_at_10 five_at_10_ok);
    [reflexivity|lia|]. unfold five_at_10. by rewrite user_history_put.
Defined.

Lemma get_twab_exact_witness :
  get_twab (at_ledger 30) 2%positive 8 13 five_at_10 = Ok 3 five_at_10.
Proof.
  rewrite (get_twab_exact (at_ledger 30) 2%positive _ 8 13 five_at_10 five_at_10_ok);
    [|lia|simpl; lia|by vm_compute].
  unfold five_at_10. by rewrite user_history_put.
Defined.
