(* ===== verification/Balance.v ===== *)
(** * Share and pool writes ([balance.rs])

    [set_shares] is the single choke point for share changes: it refuses a
    negative value, settles the extra reward tokens at the old share count,
    writes the balance and records a checkpoint.  [set_total_shares] does the
    same for the pool total. *)

From S2P Require Import Prelude Errors Storage Host Accessors Admin RewardMath MultiReward Checkpoints.

Section Balance.
Context {W : World} (env : Env).
Implicit Types s : State.

Definition set_shares {E} (user : Address) (amount : Z) : M E unit :=
  assert_non_negative amount ;;;
  settle_user env user ;;;
  put (ShareBalance user) amount ;;;
  record_user env user amount.

Definition set_total_shares {E} (total : Z) : M E unit :=
  assert_non_negative total ;;;
  put TotalShares total ;;;
  record_total env total.

Definition register_staker {E} (user : Address) : M E unit :=
  let& stakers := get_all_stakers in
  if bool_decide (user ∈ stakers) then put TotalStakers (Z.of_nat (length stakers))
  else
    put AllStakers (stakers ++ [user]) ;;;
    put TotalStakers (Z.of_nat (length (stakers ++ [user]))).

(** Lazily lifts a [pause_until] pause. *)
Definition apply_scheduled_unpause_if_due {E} : M E unit :=
  let& scheduled := get_scheduled_unpause in
  match scheduled with
  | Some target_ledger =>
      if target_ledger <=? sequence env then
        put Paused false ;;;
        del PauseInfoKey ;;;
        clear_scheduled_unpause ;;;
        publish [VSym "auto_unp"] [VInt (sequence env)] ;;;
        set_last_updated_ledger (sequence env)
      else ret tt
  | None => ret tt
  end.

End Balance.

(** ** What a share write touches *)

Section Facts.
Context {W : World} (env : Env).
Implicit Types s : State.

Definition share_write_keys (u : Address) (k : key) : Prop :=
  k = KPers (ShareBalance u) \/ k = KInst ExtraTokens \/ k = KPers (UserCheckpoints u) \/
  exists t, k = KPers (ExtraPending t u) \/ k = KPers (ExtraCheckpoint t u).

Lemma record_user_Ok E u b s x s' :
  record_user (E:=E) env u b s = Ok x s' ->
  user_history u s' = (push (user_history u s) (sequence env) b).2 /\
  (forall k, k <> KPers (UserCheckpoints u) -> rd k s' = rd k s) /\ st_ext s' = st_ext s.
Proof.
  unfold record_user, reading. destruct (push _ _ _) as [c h] eqn:Ep. intros H. simpl.
  mrun H.
  - rewrite user_history_put. split_and!; [done| |done]. intros. by apply rd_upd_ne.
  - split_and!; try done. revert Ep. unfold push. repeat case_match; congruence.
Qed.

Lemma settle_touches E u K :
  K (KInst ExtraTokens) -> (forall t, K (KPers (ExtraPending t u)) /\ K (KPers (ExtraCheckpoint t u))) ->
  touches K (settle_user (E:=E) env u).
Proof.
  intros H1 H2. unfold settle_user. apply touches_reading. intros [|t ts]; [auto with frame|].
  apply touches_reading. intros sh. apply touches_bind; [|intros ?; by apply touches_put].
  induction (t :: ts) as [|x l IH]; cbn [settle_each]; [auto with frame|].
  apply touches_bind; [|intros ?; apply touches_bind; auto with frame].
  unfold settle_one, earned_since_checkpoint. frames; apply touches_put; apply H2.
Qed.

Lemma set_shares_touches E u a : touches (share_write_keys u) (set_shares (E:=E) env u a).
Proof.
  unfold set_shares. apply touches_bind; [auto with frame|intros _].
  apply touches_bind; [apply settle_touches; unfold share_write_keys; [auto|naive_solver]|intros _].
  apply touches_bind; [apply touches_put; by left|intros _].
  unfold record_user. apply touches_reading. intros h. destruct (push _ _ _) as [[] ?].
  - apply touches_put. unfold share_write_keys. eauto.
  - auto with frame.
Qed.

Lemma settle_keeps E u : keeps_ext (settle_user (E:=E) env u).
Proof.
  unfold settle_user. apply keeps_reading. intros [|t ts]; [auto with frame|].
  apply keeps_reading. intros sh. apply keeps_bind; [|intros ?; apply keeps_put].
  induction (t :: ts) as [|x l IH]; cbn [settle_each]; [auto with frame|].
  apply keeps_bind; [|intros ?; apply keeps_bind; auto with frame].
  unfold settle_one, earned_since_checkpoint. frames.
Qed.

Lemma record_user_keeps E u b : keeps_ext (record_user (E:=E) env u b).
Proof. unfold record_user. apply keeps_reading. intros h. destruct (push _ _ _) as [[] ?]; auto with frame. Qed.
Lemma record_total_keeps E b : keeps_ext (record_total (E:=E) env b).
Proof. unfold record_total. apply keeps_reading. intros h. destruct (push _ _ _) as [[] ?]; auto with frame. Qed.
Lemma set_shares_keeps E u a : keeps_ext (set_shares (E:=E) env u a).
Proof.
  unfold set_shares. repeat (apply keeps_bind; [|intros _]);
    auto using settle_keeps, record_user_keeps with frame.
Qed.
Lemma set_total_shares_keeps E t : keeps_ext (set_total_shares (E:=E) env t).
Proof.
  unfold set_total_shares. repeat (apply keeps_bind; [|intros _]);
    auto using record_total_keeps with frame.
Qed.

Lemma set_total_shares_touches E t :
  touches (fun k => k = KInst TotalShares \/ k = KPers TotalCheckpoints) (set_total_shares (E:=E) env t).
Proof.
  unfold set_total_shares. repeat (apply touches_bind; [|intros _]); auto with frame.
  unfold record_total. apply touches_reading. intros h. destruct (push _ _ _) as [[] ?];
    auto with frame.
Qed.

(** Inversion of a successful share write. *)
Lemma set_shares_Ok E u a s x s' :
  set_shares (E:=E) env u a s = Ok x s' ->
  0 <= a /\ get_shares u s' = a /\ (forall v, v <> u -> get_shares v s' = get_shares v s) /\
  (forall k, ~ share_write_keys u k -> rd k s' = rd k s) /\ st_ext s' = st_ext s.
Proof.
  intros H. pose proof (fun k => touches_Ok _ _ _ _ _ k (set_shares_touches E u a) H) as Ht.
  pose proof (keeps_ext_Ok _ _ _ _ (set_shares_keeps E u a) H) as He.
  assert (Hv : forall v, v <> u -> get_shares v s' = get_shares v s).
  { intros v Hv. unfold get_shares. rewrite Ht; [done|]. unfold share_write_keys. naive_solver. }
  unfold set_shares in H. mrun H. apply Z.ltb_ge in H0. apply record_user_Ok in H as (_ & Hf & _).
  split_and!; try done. unfold get_shares. rewrite Hf by done. by rdsimp.
Qed.

Lemma set_total_shares_Ok E t s x s' :
  set_total_shares (E:=E) env t s = Ok x s' ->
  0 <= t /\ get_total_shares s' = t /\
  (forall k, k <> KInst TotalShares -> k <> KPers TotalCheckpoints -> rd k s' = rd k s) /\
  st_ext s' = st_ext s.
Proof.
  intros H. pose proof (fun k => touches_Ok _ _ _ _ _ k (set_total_shares_touches E t) H) as Ht.
  pose proof (keeps_ext_Ok _ _ _ _ (set_total_shares_keeps E t) H) as He.
  unfold set_total_shares in H. mrun H. apply Z.ltb_ge in H0. split_and!; try done.
  - unfold record_total, reading in H. destruct (push _ _ _) as [c h]. unfold get_total_shares.
    mrun H; by rdsimp.
  - intros k ? ?. apply Ht. naive_solver.
Qed.
(** Share and total writes go through when no extra reward token is
    configured. *)
Lemma set_shares_goes E u a s :
  load s = [] -> 0 <= a -> exists s', set_shares (E:=E) env u a s = Ok tt s'.
Proof.
  intros Hl Ha. unfold set_shares, assert_non_negative, settle_user, record_user.
  rewrite (proj2 (Z.ltb_ge a 0)) by done. unfold bind, panic_if, ret, reading. rewrite Hl.
  unfold put. destruct (push _ _ _) as [[] h]; by eexists.
Qed.
Lemma set_total_shares_goes E t s : 0 <= t -> exists s', set_total_shares (E:=E) env t s = Ok tt s'.
Proof.
  intros Ht. unfold set_total_shares, assert_non_negative, record_total.
  rewrite (proj2 (Z.ltb_ge t 0)) by done. unfold bind, panic_if, ret, reading, put.
  destruct (push _ _ _) as [[] h]; by eexists.
Qed.
End Facts.
