(* ===== verification/Pause.v ===== *)
(** * Pausing, forced unpause and emergency stop

    [vault.rs] ([pause], [unpause], [pause_until], [pause_by], [unpause_by],
    [emergency_stop], [require_not_paused], [require_not_stopped],
    [append_changelog]) and [pause_grace_period.rs] (the maximum pause duration
    and the permissionless [force_unpause]).

    [vault.rs] declares [require_not_stopped], [require_not_paused] and
    [append_changelog] twice; the first definitions are modelled for the two
    guards (they check more) and the second for the change log (the first is
    an empty body). *)

From S2P Require Import Prelude Errors Storage Host Concrete Accessors Admin RewardMath MultiReward.
From S2P Require Import Checkpoints Balance.

Definition MAX_PAUSE_MESSAGE_LEN : Z := 200.
Definition MAX_CHANGELOG_ENTRIES : nat := 10.
Definition LEDGERS_PER_DAY : Z := 17280.
Definition MIN_MAX_PAUSE_LEDGERS : Z := LEDGERS_PER_DAY.

Definition reason_val (r : PauseReason) : val :=
  VVec [VSym match r with
             | Maintenance => "Maintenance" | SecurityIncident => "SecurityIncident"
             | RateReconfiguration => "RateReconfiguration" | CapAdjustment => "CapAdjustment"
             | OtherReason => "Other"
             end].

Section Pause.
Context {W : World} (env : Env).
Implicit Types s : State.

(** ** Guards and the change log *)

Definition paused s : bool := default false (rd Paused s).
Definition set_paused {E} (p : bool) : M E unit := put Paused p.

Definition require_not_paused : M VaultError.t unit :=
  apply_scheduled_unpause_if_due env ;;;
  let& p := paused in
  fail_if p VaultError.VaultPaused.

Definition is_paused {E} : M E bool :=
  apply_scheduled_unpause_if_due env ;;;
  let& p := paused in
  ret p.

Definition require_not_stopped : M VaultError.t unit :=
  let& a := rd Stopped in
  fail_if (default false a) VaultError.ContractStopped ;;;
  let& b := rd StoppedSym in
  fail_if (default false b) VaultError.ContractStopped.

Definition require_no_sunset : M VaultError.t unit :=
  let& deadline := get_sunset_exit_deadline in
  let& wd_only := rd WithdrawOnly in
  fail_if (match deadline with Some _ => true | None => false end || default false wd_only)
    VaultError.PoolShuttingDown.

Definition append_changelog {E} (change_type : string) (old_value new_value : Z) : M E unit :=
  let& stored := rd Changelog in
  let log := default [] stored ++ [mkChangelogEntry change_type old_value new_value] in
  put Changelog (drop (length log - MAX_CHANGELOG_ENTRIES) log).

(** ** Maximum pause duration *)

Definition read_max_pause_ledgers s : Z := default 0 (rd MaxPause s).

Definition is_paused_raw {E} : M E bool := is_paused.

Definition pause_deadline {E} : M E (option Z) :=
  let& max := read_max_pause_ledgers in
  if max =? 0 then ret None
  else
    let! p := is_paused_raw in
    if negb p then ret None
    else
      let& info := get_pause_info in
      ret (Some (u32_sat_add (match info with Some i => pi_paused_at i | None => 0 end) max)).

Definition repause_blocked s : bool := sequence env <? default 0 (rd RepauseCooldown s).

Definition set_max_pause_duration (ledgers : Z) : M VaultFeature4Error.t unit :=
  try_ (require_admin env) ;;;
  let! p := is_paused_raw in
  fail_if p VaultFeature4Error.InvalidPauseDuration ;;;
  fail_if (negb (ledgers =? 0) && (ledgers <? MIN_MAX_PAUSE_LEDGERS))
    VaultFeature4Error.InvalidPauseDuration ;;;
  let& old := read_max_pause_ledgers in
  put MaxPause ledgers ;;;
  publish [VSym "max_pse"] [VInt old; VInt ledgers].

Definition force_unpause (caller : Address) : M VaultFeature4Error.t unit :=
  require_auth env caller ;;;
  let! p := is_paused_raw in
  fail_if (negb p) VaultFeature4Error.NotPaused ;;;
  let! d := pause_deadline in
  let! deadline := ok_or d VaultFeature4Error.GracePeriodNotElapsed in
  let now := sequence env in
  fail_if (now <? deadline) VaultFeature4Error.GracePeriodNotElapsed ;;;
  put Paused false ;;;
  clear_pause_info ;;;
  clear_scheduled_unpause ;;;
  let& max := read_max_pause_ledgers in
  let cooldown_until := u32_sat_add now max in
  put RepauseCooldown cooldown_until ;;;
  set_last_updated_ledger now ;;;
  publish [VSym "frc_unps"] [VAddr caller; VInt now; VInt cooldown_until].

(** ** Pause and unpause *)

Definition pause_by (actor : Address) (reason : PauseReason) (message : string)
    : M VaultError.t unit :=
  require_not_stopped ;;;
  fail_if (MAX_PAUSE_MESSAGE_LEN <? Z.of_nat (String.length message)) VaultError.DescriptionTooLong ;;;
  set_paused true ;;;
  let current_ledger := sequence env in
  set_pause_info (mkPauseInfo reason message current_ledger) ;;;
  publish [VSym "paused"; VAddr actor] [reason_val reason; VStr message; VInt current_ledger] ;;;
  publish [VSym "adm_act"; VAddr actor; VVec [VSym "Pause"]] [VAddr actor; VInt current_ledger] ;;;
  increment_admin_action_count ;;;
  set_last_updated_ledger current_ledger ;;;
  append_changelog "paused" 0 1.

Definition unpause_by (actor : Address) : M VaultError.t unit :=
  require_not_stopped ;;;
  set_paused false ;;;
  clear_pause_info ;;;
  clear_scheduled_unpause ;;;
  publish [VSym "unpaused"; VAddr actor] [VInt (sequence env)] ;;;
  publish [VSym "adm_act"; VAddr actor; VVec [VSym "Unpause"]] [VAddr actor; VInt (sequence env)] ;;;
  increment_admin_action_count ;;;
  set_last_updated_ledger (sequence env) ;;;
  append_changelog "unpaused" 1 0.

Definition pause (reason : PauseReason) (message : string) : M VaultError.t unit :=
  require_admin env ;;;
  require_not_stopped ;;;
  let& blocked := repause_blocked in
  fail_if blocked VaultError.Unauthorized ;;;
  fail_if (MAX_PAUSE_MESSAGE_LEN <? Z.of_nat (String.length message)) VaultError.DescriptionTooLong ;;;
  set_paused true ;;;
  let! admin := get_admin in
  pause_by admin reason message.

Definition unpause : M VaultError.t unit :=
  require_admin env ;;;
  let! admin := get_admin in
  unpause_by admin.

Definition pause_until (target_ledger : Z) (reason : PauseReason) (message : string)
    : M VaultError.t unit :=
  require_admin env ;;;
  require_not_stopped ;;;
  let& blocked := repause_blocked in
  fail_if blocked VaultError.Unauthorized ;;;
  fail_if (MAX_PAUSE_MESSAGE_LEN <? Z.of_nat (String.length message)) VaultError.DescriptionTooLong ;;;
  set_paused true ;;;
  let! admin := get_admin in
  let current_ledger := sequence env in
  set_pause_info (mkPauseInfo reason message current_ledger) ;;;
  set_scheduled_unpause target_ledger ;;;
  publish [VSym "paused"; VAddr admin] [reason_val reason; VStr message; VInt current_ledger] ;;;
  publish [VSym "adm_act"; VAddr admin; VVec [VSym "Pause"]] [VAddr admin; VInt current_ledger] ;;;
  increment_admin_action_count ;;;
  set_last_updated_ledger current_ledger ;;;
  append_changelog "paused_until" 0 1.

Definition emergency_stop : M VaultError.t unit :=
  require_admin env ;;;
  put Stopped true ;;;
  let! admin := get_admin in
  publish [VSym "stopped"; VAddr admin] [VInt (sequence env)].

Definition is_stopped s : bool := default false (rd Stopped s).

(** ** Winding down ([initiate_sunset], [withdraw_only_mode.rs]) *)

Definition initiate_sunset (admin : Address) (exit_deadline : Z) : M VaultError.t unit :=
  require_auth env admin ;;;
  let! stored_admin := get_admin in
  fail_if (negb (bool_decide (admin = stored_admin))) VaultError.Unauthorized ;;;
  put SunsetDeadline exit_deadline ;;;
  publish [VSym "snst_ini"; VAddr admin] [VInt exit_deadline; VInt (sequence env)].

Definition enter_withdraw_only_mode (admin : Address) : M VaultSafetyError.t unit :=
  try_ (require_admin_as env admin) ;;;
  put WithdrawOnly true ;;;
  publish [VSym "wd_only"; VAddr admin] [VBool true; VInt (sequence env)].

Definition exit_withdraw_only_mode (admin : Address) : M VaultSafetyError.t unit :=
  try_ (require_admin_as env admin) ;;;
  del WithdrawOnly ;;;
  publish [VSym "wd_only"; VAddr admin] [VBool false; VInt (sequence env)].

Inductive PoolMode := Normal | PoolPaused | WithdrawOnlyMode.

Definition get_pool_mode {E} : M E PoolMode :=
  let! p := is_paused in
  let& active := rd WithdrawOnly in
  ret (if p then PoolPaused else if default false active then WithdrawOnlyMode else Normal).

(** ** Deposit and withdrawal switches ([vault_extensions_490_493.rs])

    [admin::require_admin(&env).unwrap()]: an error becomes a trap. *)

Definition unwrap_ok {E1 E A} (m : M E1 A) : M E A :=
  fun s => match m s with Ok a s' => Ok a s' | Err _ _ => Trap TUnwrap | Trap t => Trap t end.

Definition pause_deposits {E} : M E unit := unwrap_ok (require_admin env) ;;; put PauseDeposits true.
Definition unpause_deposits {E} : M E unit := unwrap_ok (require_admin env) ;;; put PauseDeposits false.
Definition pause_withdrawals {E} : M E unit :=
  unwrap_ok (require_admin env) ;;; put PauseWithdrawals true.
Definition unpause_withdrawals {E} : M E unit :=
  unwrap_ok (require_admin env) ;;; put PauseWithdrawals false.
Definition get_pause_state s : bool * bool :=
  (default false (rd PauseDeposits s), default false (rd PauseWithdrawals s)).

(** ** The guardian ([guardian_pause.rs]) *)

Definition get_guardian s : option Address := rd Guardian s.

Definition set_guardian (guardian : Address) : M VaultError.t unit :=
  require_admin env ;;;
  put Guardian guardian ;;;
  publish [VSym "grd_set"] [VAddr guardian; VInt (sequence env)].

Definition remove_guardian : M VaultError.t unit :=
  require_admin env ;;;
  del Guardian ;;;
  publish [VSym "grd_rm"] [VInt (sequence env)].

Definition is_guardian (user : Address) s : bool := bool_decide (get_guardian s = Some user).

Definition guardian_pause (guardian : Address) (message : string) : M VaultError.t unit :=
  require_auth env guardian ;;;
  let& stored := get_guardian in
  let! configured := ok_or stored VaultError.NotInitialized in
  fail_if (negb (bool_decide (configured = guardian))) VaultError.Unauthorized ;;;
  let& stopped := is_stopped in
  fail_if stopped VaultError.ContractStopped ;;;
  fail_if (MAX_PAUSE_MESSAGE_LEN <? Z.of_nat (String.length message)) VaultError.DescriptionTooLong ;;;
  put Paused true ;;;
  let current_ledger := sequence env in
  set_pause_info (mkPauseInfo SecurityIncident message current_ledger) ;;;
  publish [VSym "grd_paus"; VAddr guardian] [VStr message; VInt current_ledger].

End Pause.

#[export] Hint Unfold set_paused is_paused_raw append_changelog : mrun.

(** ** Traces of pause operations *)

Inductive PauseOp :=
| OpPause (reason : PauseReason) (message : string)
| OpUnpause
| OpPauseUntil (target_ledger : Z) (reason : PauseReason) (message : string)
| OpForceUnpause (caller : Address)
| OpSetMaxPause (ledgers : Z)
| OpIsPaused
| OpStop.

Section Traces.
Context {W : World}.
Implicit Types s : State.

(** One top-level call; a failing call rolls back. *)
Definition run_pause (env : Env) (op : PauseOp) s : State :=
  match op with
  | OpPause r m => invoke (pause env r m) s
  | OpUnpause => invoke (unpause env) s
  | OpPauseUntil t r m => invoke (pause_until env t r m) s
  | OpForceUnpause c => invoke (force_unpause env c) s
  | OpSetMaxPause n => invoke (set_max_pause_duration env n) s
  | OpIsPaused => invoke (is_paused (E:=VaultError.t) env) s
  | OpStop => invoke (emergency_stop env) s
  end.

Definition run_trace (l : list (Env * PauseOp)) s : State :=
  fold_left (fun s eo => run_pause eo.1 eo.2 s) l s.

Lemma invoke_inv {E A} (P : State -> Prop) (m : M E A) s :
  P s -> (forall a s', m s = Ok a s' -> P s') -> P (invoke m s).
Proof. intros H Hm. unfold invoke. destruct (m s) eqn:Eq; [by eapply Hm|done..]. Qed.

Lemma trace_inv (P : State -> Prop) (Q : Env -> Prop) l s :
  (forall env op s, Q env -> P s -> P (run_pause env op s)) ->
  Forall (fun eo => Q eo.1) l -> P s -> P (run_trace l s).
Proof.
  intros Hstep. revert s. induction l as [|[e o] l IH]; intros s Hl Hs; [done|].
  apply Forall_cons in Hl as [He Hl]. apply (IH (run_pause e o s)); auto.
Qed.

(** What the lazy unpause does to the entries the other operations read. *)
Lemma scheduled_frame E env s x s' k :
  apply_scheduled_unpause_if_due (E:=E) env s = Ok x s' ->
  k <> KInst Paused -> k <> KGov PauseInfoKey -> k <> KGov ScheduledUnpause ->
  k <> KGov LastUpdated -> rd k s' = rd k s.
Proof.
  unfold apply_scheduled_unpause_if_due, reading. intros H ? ? ? ?. mrun H; try done.
  by repeat first [rewrite rd_upd_ne by done|rewrite rd_emit].
Qed.

Lemma scheduled_unpaused E env s x s' :
  apply_scheduled_unpause_if_due (E:=E) env s = Ok x s' -> paused s = false -> paused s' = false.
Proof.
  unfold apply_scheduled_unpause_if_due, reading. intros H Hp.
  mrun H; unfold paused; by rdsimp.
Qed.

Lemma is_paused_Ok E env s p s' :
  is_paused (E:=E) env s = Ok p s' ->
  apply_scheduled_unpause_if_due (E:=E) env s = Ok tt s' /\ p = paused s'.
Proof. unfold is_paused, reading. intros H. mrun H. by destruct v. Qed.

Lemma require_not_stopped_Ok s u s' :
  require_not_stopped s = Ok u s' <->
  is_stopped s = false /\ default false (rd StoppedSym s) = false /\ u = tt /\ s' = s.
Proof.
  unfold require_not_stopped, reading, is_stopped. rewrite bind_Ok. setoid_rewrite fail_if_Ok.
  naive_solver.
Qed.

(** What every successful pausing or unpausing call has checked. *)
Lemma pause_checks env r m s x s' :
  pause env r m s = Ok x s' -> is_stopped s = false /\ repause_blocked env s = false.
Proof.
  unfold pause, reading. intros H. apply bind_Ok in H as (? & ? & Ha & H).
  apply require_admin_Ok in Ha as (? & ? & ? & ? & -> & ->).
  apply bind_Ok in H as (? & ? & Hs & H). apply require_not_stopped_Ok in Hs as (Hs & _ & -> & ->).
  mrun H. done.
Qed.
Lemma pause_until_checks env t r m s x s' :
  pause_until env t r m s = Ok x s' -> is_stopped s = false /\ repause_blocked env s = false.
Proof.
  unfold pause_until, reading. intros H. apply bind_Ok in H as (? & ? & Ha & H).
  apply require_admin_Ok in Ha as (? & ? & ? & ? & -> & ->).
  apply bind_Ok in H as (? & ? & Hs & H). apply require_not_stopped_Ok in Hs as (Hs & _ & -> & ->).
  mrun H. done.
Qed.
Lemma unpause_Ok env s x s' :
  unpause env s = Ok x s' ->
  is_stopped s = false /\ paused s' = false /\ rd RepauseCooldown s' = rd RepauseCooldown s /\
  is_stopped s' = false.
Proof.
  unfold unpause. intros H. apply bind_Ok in H as (? & ? & Ha & H).
  apply require_admin_Ok in Ha as (? & ? & ? & ? & -> & ->).
  apply bind_Ok in H as (? & ? & Hg & H). apply get_admin_Ok in Hg as (_ & _ & ->).
  unfold unpause_by in H. apply bind_Ok in H as (? & ? & Hs & H).
  apply require_not_stopped_Ok in Hs as (Hs & _ & -> & ->). mrun H.
  unfold paused, is_stopped in *. split_and!; by rdsimp.
Qed.
Lemma emergency_stop_Ok env s x s' :
  emergency_stop env s = Ok x s' ->
  is_stopped s' = true /\ (forall k, k <> KInst Stopped -> rd k s' = rd k s).
Proof.
  unfold emergency_stop. intros H. apply bind_Ok in H as (? & ? & Ha & H).
  apply require_admin_Ok in Ha as (? & ? & ? & ? & -> & ->).
  apply bind_Ok in H as (? & ? & Hput & H). mrun Hput.
  apply bind_Ok in H as (? & ? & Hg & H). apply get_admin_Ok in Hg as (_ & _ & ->).
  mrun H. unfold is_stopped. split; [by rdsimp|].
  intros k Hk. by rewrite rd_emit, rd_upd_ne.
Qed.

Lemma set_max_pause_Ok env n s x s' :
  set_max_pause_duration env n s = Ok x s' ->
  exists s1, apply_scheduled_unpause_if_due (E:=VaultFeature4Error.t) env s = Ok tt s1 /\
    paused s1 = false /\ (forall k, k <> KGov MaxPause -> rd k s' = rd k s1).
Proof.
  unfold set_max_pause_duration. intros H. apply bind_Ok in H as (? & ? & Ha & H).
  apply try_Ok, require_admin_Ok in Ha as (? & ? & ? & ? & -> & ->).
  apply bind_Ok in H as (p & s1 & Hp & H). apply is_paused_Ok in Hp as [Hp ->].
  exists s1. split; [done|]. mrun H. split; [done|].
  intros k Hk. by rewrite rd_emit, rd_upd_ne.
Qed.

Lemma pause_deadline_stopped E env s d s' :
  pause_deadline (E:=E) env s = Ok d s' -> is_stopped s' = is_stopped s.
Proof.
  unfold pause_deadline, reading. destruct (_ =? 0); intros H; [by mrun H|].
  apply bind_Ok in H as (p & s1 & Hp & H). apply is_paused_Ok in Hp as [Hp ->].
  assert (Heq : is_stopped s1 = is_stopped s)
    by (unfold is_stopped; by rewrite (scheduled_frame _ _ _ _ _ (KInst Stopped) Hp)).
  rewrite <- Heq. by destruct (paused s1); simpl in H; mrun H.
Qed.
Lemma force_unpause_stopped env c s x s' :
  force_unpause env c s = Ok x s' -> is_stopped s' = is_stopped s.
Proof.
  unfold force_unpause. intros H. apply bind_Ok in H as (? & ? & Ha & H).
  apply require_auth_Ok in Ha as (_ & _ & ->).
  apply bind_Ok in H as (p & s1 & Hp & H). apply is_paused_Ok in Hp as [Hp _].
  apply bind_Ok in H as (? & ? & Hf & H). apply fail_if_Ok in Hf as (_ & _ & ->).
  apply bind_Ok in H as (d & s2 & Hd & H). apply pause_deadline_stopped in Hd.
  transitivity (is_stopped s2).
  - unfold reading in H. mrun H. unfold is_stopped. by rdsimp.
  - rewrite Hd. unfold is_stopped. by rewrite (scheduled_frame _ _ _ _ _ (KInst Stopped) Hp).
Qed.

(** ** The cooldown after a forced unpause *)

Definition cooling (until : Z) s : Prop :=
  paused s = false /\ until <= default 0 (rd RepauseCooldown s).

Lemma scheduled_cooling E env u s x s' :
  apply_scheduled_unpause_if_due (E:=E) env s = Ok x s' -> cooling u s -> cooling u s'.
Proof.
  intros H [Hp Hc]. split; [by eapply scheduled_unpaused|].
  by rewrite (scheduled_frame _ _ _ _ _ (KGov RepauseCooldown) H).
Qed.

Lemma cooling_step env op u s :
  sequence env < u -> cooling u s -> cooling u (run_pause env op s).
Proof.
  intros Hseq Hc. pose proof Hc as [Hp Hu].
  assert (Hb : repause_blocked env s = true) by (unfold repause_blocked; apply Z.ltb_lt; lia).
  destruct op; cbn [run_pause]; apply (invoke_inv (cooling u)); try done; intros a s' H.
  - apply pause_checks in H as [_ ?]. congruence.
  - apply unpause_Ok in H as (_ & Hp' & Hr & _). split; [done|]. by rewrite Hr.
  - apply pause_until_checks in H as [_ ?]. congruence.
  - unfold force_unpause in H. mrun H. apply is_paused_Ok in H1 as [H1 ->].
    apply (scheduled_cooling _ _ u) in H1 as [Hp' _]; [|done]. rewrite Hp' in H2. discriminate H2.
  - apply set_max_pause_Ok in H as (s1 & H1 & _ & Hf).
    apply (scheduled_cooling _ _ u) in H1 as [Hp' Hc']; [|done].
    unfold cooling, paused in *. by rewrite !Hf.
  - apply is_paused_Ok in H as [H _]. by eapply scheduled_cooling.
  - apply emergency_stop_Ok in H as [_ H]. unfold cooling, paused. by rewrite !H.
Qed.

(** A pause held since [p], with nothing scheduled to lift it. *)
Definition held (p max : Z) s : Prop :=
  paused s = true /\ rd ScheduledUnpause s = None /\
  (exists i, rd PauseInfoKey s = Some i /\ pi_paused_at i = p) /\ rd MaxPause s = Some max.

Lemma held_is_paused E env p max s : held p max s -> is_paused (E:=E) env s = Ok true s.
Proof.
  intros (Hp & Hs & _). unfold is_paused, bind, apply_scheduled_unpause_if_due, reading,
    get_scheduled_unpause. rewrite Hs. unfold ret. by rewrite Hp.
Qed.

Lemma held_deadline E env p max s : 0 < max -> held p max s ->
  pause_deadline (E:=E) env s = Ok (Some (u32_sat_add p max)) s.
Proof.
  intros Hm Hh. pose proof Hh as (_ & _ & (i & Hi & Hpi) & Hmax).
  unfold pause_deadline, reading, read_max_pause_ledgers, is_paused_raw. rewrite Hmax. simpl.
  rewrite (proj2 (Z.eqb_neq max 0)) by lia. unfold bind.
  rewrite (held_is_paused _ env p max) by done. simpl.
  unfold get_pause_info. by rewrite Hi, Hpi.
Qed.

Lemma force_unpause_early env p max c s :
  0 < max -> held p max s -> signed env c = true -> sequence env < p + max -> sequence env < u32_max ->
  force_unpause env c s = Err VaultFeature4Error.GracePeriodNotElapsed s.
Proof.
  intros Hm Hh Hc Hl Hu. unfold force_unpause. unfold bind at 1, require_auth. rewrite Hc.
  unfold ret at 1, is_paused_raw. unfold bind at 1. rewrite (held_is_paused _ env p max) by done.
  unfold bind at 1, fail_if. simpl. unfold ret at 1. unfold bind at 1.
  rewrite (held_deadline _ env p max) by done. unfold bind at 1, ok_or, ret at 1.
  unfold u32_sat_add. rewrite (proj2 (Z.ltb_lt _ _)) by lia. done.
Qed.

(** A pause cannot be held past the configured maximum against the users'
    will: once it has lasted [max] ledgers any signer's [force_unpause]
    succeeds, and whatever the admin and anyone else do with the operations of
    [PauseOp] during the next [max] ledgers, the vault stays open.  (The
    guardian, and a queued [AdminAction::Pause], do not look at the cooldown;
    see [guardian_ignores_cooldown].) *)
Theorem force_unpause_frees env c p max s :
  0 < max -> held p max s -> signed env c = true ->
  p + max <= sequence env -> sequence env + max <= u32_max ->
  exists s', force_unpause env c s = Ok tt s' /\ paused s' = false /\
    forall trace, Forall (fun eo => sequence eo.1 < sequence env + max) trace ->
      paused (run_trace trace s') = false.
Proof.
  intros Hm Hh Hc Hl Hu.
  assert (Hrun : exists s', force_unpause env c s = Ok tt s' /\ cooling (sequence env + max) s').
  { unfold force_unpause, require_auth, is_paused_raw. rewrite Hc. unfold bind at 1, ret at 1.
    unfold bind at 1. rewrite (held_is_paused _ env p max) by done.
    unfold bind at 1, fail_if. simpl. unfold ret at 1, bind at 1.
    rewrite (held_deadline _ env p max) by done. unfold bind at 1, ok_or, ret at 1, u32_sat_add.
    rewrite (proj2 (Z.ltb_ge _ _)) by lia.
    eexists. split; [reflexivity|]. destruct Hh as (_ & _ & _ & Hmax).
    split; [unfold paused; by rdsimp|]. rdsimp. unfold read_max_pause_ledgers. rdsimp.
    rewrite Hmax. simpl. lia. }
  destruct Hrun as (s' & Hs' & Hcool). exists s'. split; [done|]. split; [apply Hcool|].
  intros trace Ht. enough (cooling (sequence env + max) (run_trace trace s')) as [? _] by done.
  apply (trace_inv _ (fun e => sequence e < sequence env + max)); [|done|done].
  intros e op s1 He. by apply cooling_step.
Qed.

(** The guardian can pause again in the very ledger of a forced unpause. *)
Lemma guardian_ignores_cooldown env g until s :
  cooling until s -> sequence env < until -> is_stopped s = false ->
  rd Guardian s = Some g -> signed env g = true ->
  exists s', guardian_pause env g "" s = Ok tt s' /\ paused s' = true.
Proof.
  intros _ _ Hst Hg Hs. unfold guardian_pause, require_auth. rewrite Hs. unfold bind at 1, ret at 1.
  unfold reading, get_guardian. rewrite Hg. unfold bind at 1, ok_or, ret at 1.
  rewrite bool_decide_true by done. cbn [negb fail_if]. unfold bind at 1, ret at 1. rewrite Hst.
  unfold bind at 1, fail_if, ret at 1. eexists. split; [reflexivity|]. unfold paused. by rdsimp.
Qed.

(** ** Re-pausing while paused *)

(** The admin [a] can pause [n] more times: signature aside, nothing in the
    state stands in the way. *)
Definition can_pause (a : Address) (n : Z) s : Prop :=
  rd AdminRenounced s <> Some true /\ rd Admin s = Some a /\ is_stopped s = false /\
  default false (rd StoppedSym s) = false /\ default 0 (rd RepauseCooldown s) <= 0 /\
  0 <= get_admin_action_count s /\ get_admin_action_count s + n <= u32_max.

Lemma pause_again env a n p max r m s :
  signed env a = true -> 0 <= sequence env -> 0 <= n -> can_pause a (n + 1) s -> held p max s ->
  Z.of_nat (String.length m) <= MAX_PAUSE_MESSAGE_LEN ->
  exists s', pause env r m s = Ok tt s' /\ can_pause a n s' /\ held (sequence env) max s'.
Proof.
  intros Hsig Hseq Hn (Hren & Hadm & Hst & Hst2 & Hcd & Hc0 & Hc) (_ & Hsch & _ & Hmax) Hm.
  assert (Hns : forall s0, rd Stopped s0 = rd Stopped s -> rd StoppedSym s0 = rd StoppedSym s ->
            require_not_stopped s0 = Ok tt s0).
  { intros s0 H1 H2. apply require_not_stopped_Ok. unfold is_stopped in *. by rewrite H1, H2. }
  assert (Hga : forall s0, rd AdminRenounced s0 = rd AdminRenounced s -> rd Admin s0 = rd Admin s ->
            get_admin s0 = Ok a s0).
  { intros s0 H1 H2. apply get_admin_Ok. by rewrite H1, H2. }
  assert (Hra : require_admin env s = Ok tt s) by (apply require_admin_Ok; by exists a).
  unfold pause. rewrite (bind_run _ _ _ _ _ Hra), (bind_run _ _ _ _ _ (Hns s eq_refl eq_refl)).
  unfold reading, repause_blocked. rewrite (proj2 (Z.ltb_ge _ _)) by lia.
  rewrite (proj2 (Z.ltb_ge _ _)) by done. unfold fail_if. do 2 unfold bind at 1, ret at 1.
  unfold set_paused at 1, put at 1, bind at 1.
  assert (Hga1 := Hga (upd Paused (Some true) s)). rewrite !rd_upd_ne in Hga1 by done.
  assert (Hns1 := Hns (upd Paused (Some true) s)). rewrite !rd_upd_ne in Hns1 by done.
  rewrite (bind_run _ _ _ _ _ (Hga1 eq_refl eq_refl)). unfold pause_by.
  rewrite (bind_run _ _ _ _ _ (Hns1 eq_refl eq_refl)).
  rewrite (proj2 (Z.ltb_ge _ _)) by done. unfold fail_if. unfold bind at 1, ret at 1.
  unfold set_paused, set_pause_info, put, publish. do 4 unfold bind at 1.
  unfold increment_admin_action_count, reading. unfold bind at 1, get_admin_action_count. rdsimp.
  fold (get_admin_action_count s). unfold bind at 2, plain at 1.
  rewrite (proj2 (to_u32_Some (get_admin_action_count s + 1) _)) by (unfold in_u32; split; [done|lia]).
  eexists. split; [reflexivity|]. split.
  - unfold can_pause, is_stopped, get_admin_action_count. rdsimp. simpl.
    fold (get_admin_action_count s). split_and!; try done; lia.
  - unfold held, paused. rdsimp. split_and!; try done. eexists. split; [done|]. done.
Qed.

(** Each pause comes less than [max] ledgers after the previous one. *)
Fixpoint steady (p max : Z) (envs : list Env) : Prop :=
  match envs with
  | [] => True
  | e :: envs => 0 <= sequence e < p + max /\ steady (sequence e) max envs
  end.
Fixpoint last_ledger (p : Z) (envs : list Env) : Z :=
  match envs with [] => p | e :: envs => last_ledger (sequence e) envs end.

(** The bound is on the time since the last call of [pause], not on how
    long the vault has been paused: [pause] does not refuse a paused vault and
    restarts the clock, so an admin that calls it again less than [max]
    ledgers after its previous call keeps the vault paused for as long as it
    likes and every [force_unpause] in between fails. *)
Theorem repausing_holds_forever a max r m envs : forall p s,
  0 < max -> held p max s -> can_pause a (Z.of_nat (length envs)) s ->
  Z.of_nat (String.length m) <= MAX_PAUSE_MESSAGE_LEN ->
  Forall (fun e => signed e a = true) envs -> steady p max envs ->
  let s' := run_trace ((fun e => (e, OpPause r m)) <$> envs) s in
  held (last_ledger p envs) max s' /\
  forall env c, signed env c = true -> sequence env < last_ledger p envs + max ->
    sequence env < u32_max ->
    force_unpause env c s' = Err VaultFeature4Error.GracePeriodNotElapsed s'.
Proof.
  intros p s Hm Hh Hc Hmsg Hsig Hst s'.
  enough (held (last_ledger p envs) max s') as Hheld
    by (split; [done|]; intros; by apply (force_unpause_early _ (last_ledger p envs) max)).
  subst s'. revert p s Hh Hc Hst. induction envs as [|e envs IH]; intros p s Hh Hc Hst; [done|].
  apply Forall_cons in Hsig as [Hs Hsig]. destruct Hst as [He Hst].
  destruct (pause_again e a (Z.of_nat (length envs)) p max r m s) as (s1 & H1 & Hc1 & Hh1);
    [done|lia|lia|by replace (Z.of_nat (length envs) + 1) with (Z.of_nat (length (e :: envs)))
                     by (simpl; lia)|done|done|].
  rewrite fmap_cons. cbn [run_trace fold_left run_pause fst snd last_ledger].
  unfold invoke. rewrite H1. by apply IH.
Qed.

(** ** Emergency stop *)

(** An emergency stop is final: after it no sequence of pause operations
    clears the flag, and no [pause], [unpause] or [pause_until] ever succeeds
    again. *)
Theorem emergency_stop_is_final env s x s' trace :
  emergency_stop env s = Ok x s' ->
  let s2 := run_trace trace s' in
  is_stopped s2 = true /\
  forall env2 r m t u s3, pause env2 r m s2 <> Ok u s3 /\ unpause env2 s2 <> Ok u s3 /\
    pause_until env2 t r m s2 <> Ok u s3.
Proof.
  intros H s2. apply emergency_stop_Ok in H as [Hs _].
  assert (Hs2 : is_stopped s2 = true).
  { apply (trace_inv (fun s => is_stopped s = true) (fun _ => True)); [|by apply Forall_true|done].
    clear. intros env op s _ Hs. destruct op; cbn [run_pause];
      apply (invoke_inv (fun s => is_stopped s = true)); try done; intros a s' H.
    - apply pause_checks in H as [? _]. congruence.
    - apply unpause_Ok in H as [? _]. congruence.
    - apply pause_until_checks in H as [? _]. congruence.
    - by apply force_unpause_stopped in H as ->.
    - apply set_max_pause_Ok in H as (s1 & H & _ & Hf).
      unfold is_stopped. rewrite Hf by done. by rewrite (scheduled_frame _ _ _ _ _ (KInst Stopped) H).
    - apply is_paused_Ok in H as [H _]. unfold is_stopped.
      by rewrite (scheduled_frame _ _ _ _ _ (KInst Stopped) H).
    - by apply emergency_stop_Ok in H as [? _]. }
  split; [done|]. intros env2 r m t u s3. split_and!; intros H.
  - apply pause_checks in H as [? _]. congruence.
  - apply unpause_Ok in H as [? _]. congruence.
  - apply pause_until_checks in H as [? _]. congruence.
Qed.

End Traces.

(** ** Witnesses *)

(** Admin 7 paused the vault at ledger 100; the maximum pause is 20000 ledgers. *)
Definition paused_at_100 : State (W := token_world) :=
  upd Admin (Some 7%positive) (upd Paused (Some true)
    (upd PauseInfoKey (Some (mkPauseInfo Maintenance "upgrade" 100))
      (upd MaxPause (Some 20000) (start_state (fun _ _ => 0))))).

Lemma paused_at_100_held : held 100 20000 paused_at_100.
Proof. unfold held, paused_at_100, paused. rdsimp. split_and!; try done. by eexists. Qed.

Lemma paused_at_100_can n : 0 <= n <= 100 -> can_pause 7 n paused_at_100.
Proof.
  intros Hn. unfold can_pause, is_stopped, get_admin_action_count, paused_at_100. rdsimp.
  split_and!; try done. unfold start_state. change (0 + n <= u32_max). unfold u32_max. lia.
Qed.

Lemma force_unpause_frees_witness :
  exists s', force_unpause (at_ledger 20100) 3 paused_at_100 = Ok tt s' /\
    paused (run_trace [(at_ledger 20100, OpPause Maintenance "again");
                       (at_ledger 40099, OpPauseUntil 90000 Maintenance "again")] s') = false.
Proof.
  destruct (force_unpause_frees (at_ledger 20100) 3 100 20000 paused_at_100) as (s' & H1 & _ & H2);
    [lia|apply paused_at_100_held|done|simpl; lia|by vm_compute|].
  exists s'. split; [exact H1|]. apply H2. repeat constructor; simpl; lia.
Defined.

Lemma repausing_holds_forever_witness :
  force_unpause (at_ledger 59000) 3
    (run_trace [(at_ledger 20000, OpPause Maintenance "x"); (at_ledger 39999, OpPause Maintenance "x")]
       paused_at_100) =
  Err VaultFeature4Error.GracePeriodNotElapsed
    (run_trace [(at_ledger 20000, OpPause Maintenance "x"); (at_ledger 39999, OpPause Maintenance "x")]
       paused_at_100).
Proof.
  apply (repausing_holds_forever 7 20000 Maintenance "x" [at_ledger 20000; at_ledger 39999] 100
    paused_at_100); [lia|apply paused_at_100_held|apply paused_at_100_can; simpl; lia|by vm_compute
    |by repeat constructor|simpl; lia|done|simpl; lia|by vm_compute].
Defined.

Lemma emergency_stop_is_final_witness :
  exists s', emergency_stop (at_ledger 200) paused_at_100 = Ok tt s' /\
    is_stopped (run_trace [(at_ledger 20100, OpForceUnpause 3); (at_ledger 20101, OpUnpause)] s') = true.
Proof.
  destruct (emergency_stop (at_ledger 200) paused_at_100) as [[] s'| |] eqn:H; [|by vm_compute in H..].
  exists s'. split; [done|].
  apply (emergency_stop_is_final (at_ledger 200) paused_at_100 tt s'
    [(at_ledger 20100, OpForceUnpause 3); (at_ledger 20101, OpUnpause)] H).
Defined.
