(* ===== verification/RewardRate.v ===== *)
(** * The reward rate and its guards

    The direct setter ([vault.rs], [set_reward_rate_bps]), the scheduled ramp
    ([vault_extensions_538_541.rs]), the lower-only ceiling
    ([reward_rate_ceiling.rs]) and the reward-pool runway guard
    ([runway_guard.rs]).  [apply_reward_rate], the setter behind the role-gated
    entrypoint, first asks [dynamic_reward_rate.rs] whether the rate is
    algorithmic; that module is not modelled, its answer is an argument. *)

From S2P Require Import Prelude Errors Storage Host Concrete Accessors Admin RewardMath Accumulator.
From S2P Require Import Pause.

Definition MIN_RUNWAY_LEDGERS_FLOOR : Z := LEDGERS_PER_DAY.

(** [ledger_boundary.rs]. *)
Definition is_before (now boundary : Z) : bool := now <? boundary.
Definition is_reached (now boundary : Z) : bool := boundary <=? now.
Definition duration_elapsed (now started_at duration : Z) : bool :=
  duration <=? u32_sat_sub now started_at.

Section RewardRate.
Context {W : World} (env : Env).
Implicit Types s : State.

(** ** Scheduled ramp *)

Definition get_rate_ramp s : option RateRamp := rd RateRampKey s.
Definition clear_rate_ramp {E} : M E unit := del RateRampKey.

(** [u64] arithmetic on [u32] inputs cannot overflow; a plain [u32] addition
    or subtraction, and a division by zero, trap. *)
Definition ramp_rate {E} (ramp : RateRamp) (current_ledger : Z) : M E Z :=
  if current_ledger <=? rr_start_ledger ramp then ret (rr_start_rate_bps ramp)
  else
    let elapsed := u32_sat_sub current_ledger (rr_start_ledger ramp) in
    let duration := rr_duration_ledgers ramp in
    if duration_elapsed current_ledger (rr_start_ledger ramp) (rr_duration_ledgers ramp) then
      ret (rr_target_rate_bps ramp)
    else if rr_start_rate_bps ramp <=? rr_target_rate_bps ramp then
      let diff := rr_target_rate_bps ramp - rr_start_rate_bps ramp in
      if duration =? 0 then panic TOverflow
      else plain (to_u32 (rr_start_rate_bps ramp + (diff * elapsed) / duration))
    else
      let diff := rr_start_rate_bps ramp - rr_target_rate_bps ramp in
      if duration =? 0 then panic TOverflow
      else plain (to_u32 (rr_start_rate_bps ramp - (diff * elapsed) / duration)).

Definition compute_current_rate {E} : M E Z :=
  let& stored := get_rate_ramp in
  match stored with
  | Some ramp => ramp_rate ramp (sequence env)
  | None => let& rate := get_reward_rate_bps in ret rate
  end.

Definition set_rate_ramp (admin : Address) (target_bps ramp_duration_ledgers : Z)
    : M VaultError.t unit :=
  let! stored_admin := get_admin in
  fail_if (negb (bool_decide (admin = stored_admin))) VaultError.Unauthorized ;;;
  require_auth env admin ;;;
  fail_if (ramp_duration_ledgers =? 0) VaultError.InvalidRate ;;;
  fail_if (MAX_RATE_BPS <? target_bps) VaultError.RateTooHigh ;;;
  let! start_rate_bps := compute_current_rate in
  put RateRampKey (mkRateRamp start_rate_bps target_bps (sequence env) ramp_duration_ledgers) ;;;
  publish [VSym "rate_ramp_started"]
    [VInt start_rate_bps; VInt target_bps; VInt ramp_duration_ledgers; VInt (sequence env)].

Definition cancel_rate_ramp (admin : Address) : M VaultError.t unit :=
  let! stored_admin := get_admin in
  fail_if (negb (bool_decide (admin = stored_admin))) VaultError.Unauthorized ;;;
  require_auth env admin ;;;
  let& ramp := get_rate_ramp in
  match ramp with
  | Some _ =>
      let! frozen_rate := compute_current_rate in
      set_reward_rate_bps frozen_rate ;;;
      clear_rate_ramp
  | None => throw VaultError.NoCampaignActive
  end.

Definition complete_rate_ramp : M VaultError.t Z :=
  let& stored := get_rate_ramp in
  let! ramp := ok_or stored VaultError.NoCampaignActive in
  let current_ledger := sequence env in
  fail_if (negb (duration_elapsed current_ledger (rr_start_ledger ramp) (rr_duration_ledgers ramp)))
    VaultError.InvalidRate ;;;
  let target := rr_target_rate_bps ramp in
  set_reward_rate_bps target ;;;
  clear_rate_ramp ;;;
  publish [VSym "rate_ramp_completed"] [VInt target; VInt current_ledger] ;;;
  ret target.

(** ** The direct setter ([VaultContract::set_reward_rate_bps]) *)

Definition validate_rate_bps (rate_bps : Z) : M VaultError.t unit :=
  fail_if (MAX_RATE_BPS <? rate_bps) VaultError.RateTooHigh.

Definition vault_set_reward_rate_bps (rate_bps : Z) : M VaultError.t unit :=
  require_admin env ;;;
  validate_rate_bps rate_bps ;;;
  clear_rate_ramp ;;;
  update_global_accumulator env ;;;
  let& old_rate := get_reward_rate_bps in
  set_reward_rate_bps rate_bps ;;;
  record_rate_change env old_rate rate_bps.

(** ** Ceiling *)

Definition read_max_reward_rate s : Z := default MAX_RATE_BPS (rd MaxRate s).
Definition within_ceiling (rate_bps : Z) s : bool := rate_bps <=? read_max_reward_rate s.

Definition set_max_reward_rate (max_bps : Z) : M VaultFeature4Error.t unit :=
  try_ (require_admin env) ;;;
  let& current_ceiling := read_max_reward_rate in
  let& rate := get_reward_rate_bps in
  fail_if ((max_bps =? 0) || (current_ceiling <? max_bps) || (max_bps <? rate))
    VaultFeature4Error.InvalidRateCeiling ;;;
  put MaxRate max_bps ;;;
  publish [VSym "max_rate"] [VInt current_ceiling; VInt max_bps].

(** ** Runway *)

Definition read_min_runway_ledgers s : Z := default 0 (rd MinRunway s).

Definition projected_runway_ledgers (rate_bps : Z) s : Z :=
  if rate_bps =? 0 then u32_max
  else
    let total_deposited := get_total_deposited s in
    if total_deposited <=? 0 then u32_max
    else
      let reward_pool := get_reward_pool_balance s in
      if reward_pool <=? 0 then 0
      else
        let denominator := sat_mul rate_bps total_deposited in
        if denominator <=? 0 then u32_max
        else
          match checked_mul reward_pool BPS with
          | Some v =>
              match checked_mul v STELLAR_LEDGERS_PER_YEAR with
              | Some numerator =>
                  let ledgers := Z.quot numerator denominator in
                  if u32_max <=? ledgers then u32_max else if ledgers <=? 0 then 0 else ledgers
              | None => u32_max
              end
          | None => u32_max
          end.

Definition enforce_runway (rate_bps : Z) : M VaultOpsError.t unit :=
  let& minimum := read_min_runway_ledgers in
  if minimum =? 0 then ret tt
  else
    let& runway := projected_runway_ledgers rate_bps in
    fail_if (runway <? minimum) VaultOpsError.InsufficientRunway.

Definition set_min_runway_ledgers (admin_addr : Address) (ledgers : Z) : M VaultOpsError.t unit :=
  require_auth env admin_addr ;;;
  try_ (require_admin env) ;;;
  fail_if (negb (ledgers =? 0) && (ledgers <? MIN_RUNWAY_LEDGERS_FLOOR)) VaultOpsError.InvalidRunway ;;;
  put MinRunway ledgers.

Definition apply_reward_rate (dynamic_enabled : bool) (rate_bps : Z) : M VaultOpsError.t unit :=
  fail_if dynamic_enabled VaultOpsError.DynamicRateActive ;;;
  fail_if (MAX_RATE_BPS <? rate_bps) VaultOpsError.RateTooHigh ;;;
  enforce_runway rate_bps ;;;
  let& old_rate := get_reward_rate_bps in
  set_reward_rate_bps rate_bps ;;;
  record_rate_change env old_rate rate_bps ;;;
  publish [VSym "rate_chg"; VAddr (self env)] [VInt old_rate; VInt rate_bps; VInt (sequence env)].

End RewardRate.

#[export] Hint Unfold clear_rate_ramp : mrun.

(** ** The ramp *)

Section RampFacts.
Context {W : World}.
Implicit Types s : State.

Definition ramp_wf (r : RateRamp) : Prop :=
  in_u32 (rr_start_rate_bps r) /\ in_u32 (rr_target_rate_bps r) /\
  in_u32 (rr_start_ledger r) /\ 0 < rr_duration_ledgers r <= u32_max.

(** Ledgers of the ramp that have elapsed at [l]. *)
Definition ramp_elapsed (r : RateRamp) (l : Z) : Z :=
  Z.max 0 (Z.min (l - rr_start_ledger r) (rr_duration_ledgers r)).

(** The straight line, rounded towards the start rate. *)
Definition ramp_line (r : RateRamp) (l : Z) : Z :=
  rr_start_rate_bps r +
  Z.quot ((rr_target_rate_bps r - rr_start_rate_bps r) * ramp_elapsed r l) (rr_duration_ledgers r).

Lemma frac_bound d e n : 0 <= d -> 0 <= e <= n -> 0 < n -> 0 <= d * e / n <= d.
Proof.
  intros. split; [apply Z.div_pos; nia|]. apply Z.div_le_upper_bound; nia.
Qed.

Lemma ramp_rate_line E r l s :
  ramp_wf r -> ramp_rate (E:=E) r l s = Ok (ramp_line r l) s.
Proof.
  intros (Hs & Ht & Hl & Hd). unfold in_u32 in *. unfold ramp_rate, ramp_line, ramp_elapsed.
  destruct (Z.leb_spec l (rr_start_ledger r)) as [Hle|Hgt].
  { replace (Z.max 0 _) with 0 by lia. rewrite Z.mul_0_r, Z.quot_0_l, Z.add_0_r by lia. done. }
  unfold duration_elapsed, u32_sat_sub.
  rewrite (Z.max_l (l - rr_start_ledger r)) by lia.
  destruct (Z.leb_spec (rr_duration_ledgers r) (l - rr_start_ledger r)) as [Hend|Hin].
  { replace (Z.max 0 _) with (rr_duration_ledgers r) by lia.
    rewrite Z.quot_mul by lia. unfold ret. f_equal. lia. }
  replace (Z.max 0 _) with (l - rr_start_ledger r) by lia. set (e := l - rr_start_ledger r) in *.
  rewrite (proj2 (Z.eqb_neq _ 0)) by lia.
  destruct (Z.leb_spec (rr_start_rate_bps r) (rr_target_rate_bps r)).
  - rewrite Z.quot_div_nonneg by nia.
    pose proof (frac_bound (rr_target_rate_bps r - rr_start_rate_bps r) e (rr_duration_ledgers r)
      ltac:(lia) ltac:(lia) ltac:(lia)).
    unfold plain. rewrite to_u32_in by (unfold in_u32; lia). done.
  - pose proof (frac_bound (rr_start_rate_bps r - rr_target_rate_bps r) e (rr_duration_ledgers r)
      ltac:(lia) ltac:(lia) ltac:(lia)).
    replace ((rr_target_rate_bps r - rr_start_rate_bps r) * e)
      with (- ((rr_start_rate_bps r - rr_target_rate_bps r) * e)) by lia.
    rewrite Z.quot_opp_l, Z.quot_div_nonneg by nia.
    unfold plain. rewrite to_u32_in by (unfold in_u32; lia). done.
Qed.

Lemma ramp_line_mono r l l' : ramp_wf r -> l <= l' ->
  (rr_start_rate_bps r <= rr_target_rate_bps r -> ramp_line r l <= ramp_line r l') /\
  (rr_target_rate_bps r <= rr_start_rate_bps r -> ramp_line r l' <= ramp_line r l).
Proof.
  intros (_ & _ & _ & Hd) Hl. unfold ramp_line.
  assert (He : 0 <= ramp_elapsed r l <= ramp_elapsed r l') by (unfold ramp_elapsed; lia).
  set (e := ramp_elapsed r l) in *. set (e' := ramp_elapsed r l') in *.
  split; intros H; apply Z.add_le_mono_l; apply Z.quot_le_mono; nia.
Qed.

(** A running ramp is the straight line from its start rate to its target:
    the current rate never traps, equals the start rate until the ramp
    begins and the target from its last ledger on, stays between the two, and
    moves in one direction only; cancelling the ramp freezes exactly the rate
    it had reached. *)
Theorem rate_ramp_interpolates env s r :
  rd RateRampKey s = Some r -> ramp_wf r ->
  compute_current_rate (E:=VaultError.t) env s = Ok (ramp_line r (sequence env)) s /\
  (sequence env <= rr_start_ledger r -> ramp_line r (sequence env) = rr_start_rate_bps r) /\
  (rr_start_ledger r + rr_duration_ledgers r <= sequence env ->
     ramp_line r (sequence env) = rr_target_rate_bps r) /\
  Z.min (rr_start_rate_bps r) (rr_target_rate_bps r) <= ramp_line r (sequence env)
    <= Z.max (rr_start_rate_bps r) (rr_target_rate_bps r) /\
  (forall l, l <= sequence env ->
     (rr_start_rate_bps r <= rr_target_rate_bps r -> ramp_line r l <= ramp_line r (sequence env)) /\
     (rr_target_rate_bps r <= rr_start_rate_bps r -> ramp_line r (sequence env) <= ramp_line r l)) /\
  (forall a x s', cancel_rate_ramp env a s = Ok x s' ->
     compute_current_rate (E:=VaultError.t) env s' = Ok (ramp_line r (sequence env)) s').
Proof.
  intros Hr Hwf.
  assert (Hcur : compute_current_rate (E:=VaultError.t) env s = Ok (ramp_line r (sequence env)) s).
  { unfold compute_current_rate, reading, get_rate_ramp. rewrite Hr. by apply ramp_rate_line. }
  assert (Hlow : forall l, l <= rr_start_ledger r -> ramp_line r l = rr_start_rate_bps r).
  { intros l Hl. unfold ramp_line, ramp_elapsed. replace (Z.max 0 _) with 0
      by (destruct Hwf as (_ & _ & _ & ?); lia).
    rewrite Z.mul_0_r, Z.quot_0_l by (destruct Hwf as (_ & _ & _ & ?); lia). lia. }
  assert (Hhigh : forall l, rr_start_ledger r + rr_duration_ledgers r <= l ->
            ramp_line r l = rr_target_rate_bps r).
  { intros l Hl. destruct Hwf as (_ & _ & _ & ?). unfold ramp_line, ramp_elapsed.
    replace (Z.max 0 _) with (rr_duration_ledgers r) by lia. rewrite Z.quot_mul by lia. lia. }
  destruct (ramp_line_mono r (Z.min (sequence env) (rr_start_ledger r)) (sequence env) Hwf)
    as [H1 H2]; [lia|]. rewrite (Hlow (Z.min _ _)) in H1, H2 by lia.
  destruct (ramp_line_mono r (sequence env)
    (Z.max (sequence env) (rr_start_ledger r + rr_duration_ledgers r)) Hwf) as [H3 H4]; [lia|].
  rewrite (Hhigh (Z.max _ _)) in H3, H4 by lia.
  split_and!; [done|apply Hlow|apply Hhigh|lia|lia|..].
  - intros l Hl. by apply ramp_line_mono.
  - intros a x s' H. unfold cancel_rate_ramp in H.
    apply bind_Ok in H as (? & ? & Hg & H). apply get_admin_Ok in Hg as (_ & _ & ->).
    apply bind_Ok in H as (? & ? & Hf & H). apply fail_if_Ok in Hf as (_ & _ & ->).
    apply bind_Ok in H as (? & ? & Ha & H). apply require_auth_Ok in Ha as (_ & _ & ->).
    unfold reading, get_rate_ramp in H. rewrite Hr in H.
    rewrite (bind_run _ _ _ _ _ Hcur) in H. mrun H.
    unfold compute_current_rate, reading, get_rate_ramp, get_reward_rate_bps. by rdsimp.
Qed.

(** ** The runway guard *)

(** When the runway guard is on, the setter it protects accepts a rate only
    if the reward pool can pay that rate on the current deposits for the whole
    required number of ledgers; nothing else about the pool changes. *)
Theorem runway_guard_sound env dyn rate s x s' :
  apply_reward_rate env dyn rate s = Ok x s' ->
  0 < read_min_runway_ledgers s -> 0 <= rate -> 0 <= get_total_deposited s ->
  in_i128 (rate * get_total_deposited s) ->
  in_i128 (get_reward_pool_balance s * BPS * STELLAR_LEDGERS_PER_YEAR) ->
  rate * get_total_deposited s * read_min_runway_ledgers s
    <= Z.max 0 (get_reward_pool_balance s) * BPS * STELLAR_LEDGERS_PER_YEAR /\
  get_reward_rate_bps s' = rate /\ rate <= MAX_RATE_BPS /\
  get_reward_pool_balance s' = get_reward_pool_balance s.
Proof.
  intros H Hm Hr Hd Hin Hin2. unfold apply_reward_rate in H.
  apply bind_Ok in H as (? & ? & Hf & H). apply fail_if_Ok in Hf as (_ & _ & ->).
  apply bind_Ok in H as (? & ? & Hf & H). apply fail_if_Ok in Hf as (Hmax & _ & ->).
  apply bind_Ok in H as (? & s1 & Hrun & H).
  assert (s1 = s /\ read_min_runway_ledgers s <= projected_runway_ledgers rate s) as [-> Hrw].
  { unfold enforce_runway, reading in Hrun. rewrite (proj2 (Z.eqb_neq _ 0)) in Hrun by lia.
    apply fail_if_Ok in Hrun as (Hlt & _ & ->). apply Z.ltb_ge in Hlt. done. }
  unfold reading in H. mrun H. split_and!.
  2: unfold get_reward_rate_bps; by rdsimp.
  2: by apply Z.ltb_ge in Hmax.
  2: unfold get_reward_pool_balance; by rdsimp.
  unfold projected_runway_ledgers in Hrw. set (m := read_min_runway_ledgers s) in *.
  set (D := get_total_deposited s) in *. set (P := get_reward_pool_balance s) in *.
  assert (HB : 0 < BPS * STELLAR_LEDGERS_PER_YEAR) by done.
  destruct (Z.eqb_spec rate 0) as [->|]; [nia|].
  destruct (Z.leb_spec D 0); [replace D with 0 by lia; nia|].
  destruct (Z.leb_spec P 0); [lia|]. unfold sat_mul in Hrw. rewrite clamp_in in Hrw by done.
  destruct (Z.leb_spec (rate * D) 0); [nia|].
  assert (in_i128 (P * BPS)).
  { unfold in_i128, BPS, STELLAR_LEDGERS_PER_YEAR in *. pose proof i128_bounds. lia. }
  unfold checked_mul in Hrw. rewrite !to_i128_in in Hrw by done.
  rewrite Z.quot_div_nonneg in Hrw by nia. rewrite Z.max_r by lia.
  set (N := P * BPS * STELLAR_LEDGERS_PER_YEAR) in *.
  assert (m <= N / (rate * D)) by (revert Hrw; repeat case_match; lia).
  transitivity (rate * D * (N / (rate * D))); [nia|]. apply Z.mul_div_le. lia.
Qed.

(** ** The ceiling *)

Lemma set_max_reward_rate_Ok env c s x s' :
  set_max_reward_rate env c s = Ok x s' ->
  read_max_reward_rate s' = c /\ c <= read_max_reward_rate s /\ get_reward_rate_bps s <= c.
Proof.
  unfold set_max_reward_rate, reading. intros H. apply bind_Ok in H as (? & ? & Ha & H).
  apply try_Ok, require_admin_Ok in Ha as (? & _ & _ & _ & -> & ->).
  apply bind_Ok in H as (? & ? & Hf & H). apply fail_if_Ok in Hf as (Hf & _ & ->). mrun H.
  apply orb_false_elim in Hf as [[_ Hc]%orb_false_elim Hr].
  apply Z.ltb_ge in Hc, Hr. split; [|done]. unfold read_max_reward_rate. by rdsimp.
Qed.

(** The ceiling is not enforced on the direct setter: whenever the admin
    can lower the ceiling to [c], the very next [set_reward_rate_bps] accepts
    any rate above [c] up to the hard maximum, and the vault pays a rate its
    own ceiling check rejects. *)
Theorem direct_setter_ignores_ceiling env a c rate s :
  rd AdminRenounced s <> Some true -> rd Admin s = Some a -> signed env a = true ->
  0 < c <= read_max_reward_rate s -> get_reward_rate_bps s <= c -> c < rate <= MAX_RATE_BPS ->
  sequence env <= default (sequence env) (get_last_accumulator_ledger s) ->
  exists s1 s2, set_max_reward_rate env c s = Ok tt s1 /\
    vault_set_reward_rate_bps env rate s1 = Ok tt s2 /\
    get_reward_rate_bps s2 = rate /\ within_ceiling rate s2 = false.
Proof.
  intros Hren Ha Hs Hc Hr Hrate Hacc.
  assert (Hra : forall s, rd AdminRenounced s <> Some true -> rd Admin s = Some a ->
     require_admin env s = Ok tt s) by (intros s0 ? ?; apply require_admin_Ok; by exists a).
  assert (Hup : forall s0, rd LastAccumulatorLedger s0 = rd LastAccumulatorLedger s ->
     rd LastAccumulatorLedgerLegacy s0 = rd LastAccumulatorLedgerLegacy s ->
     update_global_accumulator env s0 = Ok (get_global_reward_per_share s0) s0).
  { intros s0 H1 H2. unfold update_global_accumulator, reading, get_last_accumulator_ledger in *.
    rewrite H1, H2. by rewrite (proj2 (Z.ltb_ge _ _)) by done. }
  eexists. eexists. split_and!.
  - unfold set_max_reward_rate. rewrite (bind_run _ _ s tt s).
    2: { unfold try_. by rewrite Hra. }
    unfold reading. rewrite (proj2 (Z.eqb_neq c 0)) by lia. rewrite !(proj2 (Z.ltb_ge _ _)) by lia.
    reflexivity.
  - unfold vault_set_reward_rate_bps.
    match goal with |- _ ?s0 = Ok tt _ => rewrite (bind_run _ _ s0 tt s0) end;
      [|apply Hra; by rdsimp].
    unfold validate_rate_bps. rewrite (proj2 (Z.ltb_ge _ _)) by lia.
    unfold fail_if. unfold bind at 1, ret at 1.
    unfold clear_rate_ramp, del. unfold bind at 1.
    match goal with |- bind _ _ ?s0 = _ =>
      rewrite (bind_run _ _ s0 (get_global_reward_per_share s0) s0) end; [reflexivity|].
    apply Hup; by rdsimp.
  - unfold get_reward_rate_bps. by rdsimp.
  - unfold within_ceiling, read_max_reward_rate. rdsimp. simpl. apply Z.leb_gt. lia.
Qed.

End RampFacts.

(** ** Witnesses *)

Definition ramping : State (W := token_world) :=
  upd RateRampKey (Some (mkRateRamp 2000 500 1000 4000)) (start_state (fun _ _ => 0)).

Lemma rate_ramp_interpolates_witness :
  compute_current_rate (E:=VaultError.t) (at_ledger 2001) ramping = Ok 1625 ramping.
Proof.
  destruct (rate_ramp_interpolates (at_ledger 2001) ramping (mkRateRamp 2000 500 1000 4000))
    as (H & _); [unfold ramping; by rdsimp|repeat split; by vm_compute|exact H].
Defined.

(** One million tokens at 10% with a pool of 100_000 and a 30-day runway. *)
Definition guarded : State (W := token_world) :=
  upd TotalDeposited (Some 10000000000000) (upd RewardPoolBalance (Some 1000000000000)
    (upd MinRunway (Some 518400) (start_state (fun _ _ => 0)))).

Lemma runway_guard_sound_witness :
  exists s', apply_reward_rate (at_ledger 5) false 1000 guarded = Ok tt s' /\
    1000 * 10000000000000 * 518400 <= 1000000000000 * BPS * STELLAR_LEDGERS_PER_YEAR.
Proof.
  destruct (apply_reward_rate (at_ledger 5) false 1000 guarded) as [[] s'| |] eqn:H;
    [|by vm_compute in H..].
  exists s'. split; [done|].
  apply (runway_guard_sound (at_ledger 5) false 1000 guarded tt s' H);
    [by vm_compute|lia|by vm_compute|by apply in_i128b_spec; vm_compute
    |by apply in_i128b_spec; vm_compute].
Defined.

Definition ceilinged : State (W := token_world) :=
  upd Admin (Some 7%positive) (upd RewardRateBps (Some 800) (start_state (fun _ _ => 0))).

Lemma direct_setter_ignores_ceiling_witness :
  exists s1 s2, set_max_reward_rate (at_ledger 9) 1000 ceilinged = Ok tt s1 /\
    vault_set_reward_rate_bps (at_ledger 9) 50000 s1 = Ok tt s2 /\
    get_reward_rate_bps s2 = 50000 /\ within_ceiling 50000 s2 = false.
Proof.
  apply (direct_setter_ignores_ceiling (at_ledger 9) 7%positive 1000 50000 ceilinged);
    [by vm_compute|by vm_compute|done|split; by vm_compute|by vm_compute|split; by vm_compute|by vm_compute].
Defined.
