(* ===== verification/Governance.v ===== *)
(** * Governance

    Everything that can change who administers the vault, or act with the
    administrator's authority after a delay: the admin handover ([vault.rs],
    [admin.rs]), the timelocked action queue (issue #195) and the multisig
    group (issue #196) of [vault.rs], the second action queue of
    [vault_extensions_502_505.rs] (#503), the public configuration
    announcements of [time_locked_admin_proposal.rs] (#455), the admin recovery
    of [admin_recovery.rs] and the succession plan of [admin_succession.rs].

    In [execute_admin_action] and [cancel_admin_action] the source leaves a
    stray [Ok(())] behind the final [match]; the [match] is taken as the
    result. *)

From S2P Require Import Prelude Errors Storage Host Concrete Accessors Admin RewardMath Pause RewardRate.

Definition MAX_MULTISIG_ADMINS : nat := 5.
Definition MAX_PENDING_ACTIONS : nat := 5.
Definition MAX_OPEN_PROPOSALS : nat := 10.
Definition MAX_ADMIN_PROPOSALS : nat := 50.
Definition MAX_CHANGE_TYPE_LEN : Z := 64.
Definition ADMIN_RECOVERY_DELAY_LEDGERS : Z := 30 * LEDGERS_PER_DAY.

#[global] Instance AdminAction_eq_dec : EqDecision AdminAction.
Proof. solve_decision. Defined.

(** [iter().position(p)]. *)
Fixpoint position {A} (p : A -> bool) (l : list A) : option nat :=
  match l with
  | [] => None
  | x :: l => if p x then Some O else S <$> position p l
  end.

Definition action_name (a : AdminAction) : string :=
  match a with
  | SetRewardRate => "SetRewardRate" | Storage.Pause => "Pause" | Unpause => "Unpause"
  | TransferAdmin => "TransferAdmin" | SetLockPeriod => "SetLockPeriod" | SetCap => "SetCap"
  | Slash => "Slash" | RescueToken => "RescueToken"
  | SetEarlyExitPenalty => "SetEarlyExitPenalty" | SetMinStake => "SetMinStake"
  | FundRewardPool => "FundRewardPool" | AddYield => "AddYield"
  | SetBoostSchedule => "SetBoostSchedule" | SetNftContract => "SetNftContract"
  | SetRestakeWindow => "SetRestakeWindow" | SetRewardToken => "SetRewardToken"
  end.
Definition action_val (a : AdminAction) : val := VVec [VSym (action_name a)].

Section Governance.
Context {W : World} (env : Env).
Implicit Types s : State.

(** ** Handover *)

Definition get_proposals s : list ConfigProposal := default [] (rd AcpList s).

Definition is_open (p : ConfigProposal) : bool := negb (ac_executed p) && negb (ac_cancelled p).
Definition cancel_one (p : ConfigProposal) : ConfigProposal :=
  if is_open p then
    mkConfigProposal (ac_id p) (ac_change_type p) (ac_new_value p) (ac_announced_at p)
      (ac_executes_at p) true (ac_executed p)
  else p.

Definition cancel_open_proposals {E} : M E Z :=
  let& proposals := get_proposals in
  let cancelled := Z.of_nat (length (filter is_open proposals)) in
  (if 0 <? cancelled then put AcpList (cancel_one <$> proposals) else ret tt) ;;;
  ret cancelled.

Definition clear_queued_admin_actions {E} : M E Z :=
  let& stored := rd TlActions in
  match stored with
  | Some m =>
      let n := size (m : gmap Z QueuedAction) in
      if (n =? 0)%nat then ret 0
      else del TlActions ;;; ret (Z.of_nat n)
  | None => ret 0
  end.

Definition invalidate_pending_timelocked_actions {E} (old_admin new_admin : Address) : M E unit :=
  let& queued := get_pending_actions in
  let queued_count := Z.of_nat (length queued) in
  (if 0 <? queued_count then set_pending_actions [] else ret tt) ;;;
  let! timelocked_count := clear_queued_admin_actions in
  let! announced_count := cancel_open_proposals in
  publish [VSym "adm_inval"; VAddr old_admin]
    [VAddr new_admin; VInt queued_count; VInt timelocked_count; VInt announced_count].

Definition set_admin {E} (admin : Address) : M E unit :=
  let& previous := rd Admin in
  put Admin admin ;;;
  clear_pending_admin ;;;
  match previous with
  | Some previous =>
      if decide (previous = admin) then ret tt
      else invalidate_pending_timelocked_actions previous admin
  | None => ret tt
  end.

Definition propose_admin (admin new_admin : Address) : M VaultError.t unit :=
  require_admin_as env admin ;;;
  fail_if (bool_decide (new_admin = self env)) VaultError.InvalidAddress ;;;
  fail_if (bool_decide (new_admin = admin)) VaultError.InvalidAddress ;;;
  set_pending_admin new_admin ;;;
  publish [VSym "adm_prop"; VAddr admin] [VAddr new_admin; VInt (sequence env)].

(** The events and counters of a completed transfer. *)
Definition announce_transfer {E} (old_admin new_admin : Address) : M E unit :=
  publish [VSym "admin_set"; VAddr old_admin] [VAddr new_admin; VInt (sequence env)] ;;;
  publish [VSym "adm_act"; VAddr old_admin; action_val TransferAdmin]
    [VAddr old_admin; VInt (sequence env); VAddr new_admin].

Definition accept_admin (new_admin : Address) : M VaultError.t unit :=
  let& stored := get_pending_admin in
  let! pending := ok_or stored VaultError.Unauthorized in
  fail_if (negb (bool_decide (new_admin = pending))) VaultError.Unauthorized ;;;
  require_auth env new_admin ;;;
  let! old_admin := get_admin in
  clear_pending_admin ;;;
  set_admin new_admin ;;;
  announce_transfer old_admin new_admin ;;;
  publish [VSym "adm_acpt"; VAddr old_admin] [VAddr new_admin; VInt (sequence env)] ;;;
  increment_admin_action_count ;;;
  append_changelog "admin_transferred" 0 0.

Definition cancel_admin_proposal (admin : Address) : M VaultError.t unit :=
  require_admin_as env admin ;;;
  let& stored := get_pending_admin in
  let! pending := ok_or stored VaultError.Unauthorized in
  clear_pending_admin ;;;
  publish [VSym "adm_canc"; VAddr admin] [VAddr pending; VInt (sequence env)].

Definition transfer_admin (new_admin : Address) : M VaultError.t unit :=
  require_admin env ;;;
  fail_if (bool_decide (new_admin = self env)) VaultError.InvalidAddress ;;;
  let! old_admin := get_admin in
  clear_pending_admin ;;;
  set_admin new_admin ;;;
  announce_transfer old_admin new_admin ;;;
  increment_admin_action_count ;;;
  append_changelog "admin_transferred" 0 0.

(** ** Timelocked actions (#195) *)

Definition set_timelock_delay (ledgers : Z) : M VaultError.t unit :=
  require_admin env ;;;
  set_timelock_delay_value ledgers.

Definition queue_action (action_type : AdminAction) (params : list Byte.byte) : M VaultExtError.t Z :=
  try_ (require_admin env) ;;;
  let& pending := get_pending_actions in
  fail_if (MAX_PENDING_ACTIONS <=? length pending)%nat VaultExtError.TooManyPendingActions ;;;
  let! id := next_action_id in
  let queued_at := sequence env in
  let& delay := get_timelock_delay in
  let executable_at := u32_sat_add queued_at delay in
  set_pending_actions (pending ++ [mkPendingAction id action_type params queued_at executable_at]) ;;;
  publish [VSym "act_queue"; VAddr (self env)] [VInt id; VInt executable_at; VInt (sequence env)] ;;;
  ret id.

Definition cancel_action (action_id : Z) : M VaultExtError.t unit :=
  try_ (require_admin env) ;;;
  let& pending := get_pending_actions in
  match position (fun a => pa_id a =? action_id) pending with
  | Some idx => set_pending_actions (delete idx pending)
  | None => throw VaultExtError.ActionNotFound
  end.

Definition decode_u32_bytes (bytes : list Byte.byte) : option Z :=
  match bytes with
  | [b0; b1; b2; b3] =>
      let n b := Z.of_N (Byte.to_N b) in
      Some (((n b0 * 256 + n b1) * 256 + n b2) * 256 + n b3)
  | _ => None
  end.

(** [.map_err(|_| e)?]. *)
Definition map_err {E1 E2 A} (m : M E1 A) (e : E2) : M E2 A :=
  fun s => match m s with Ok a s' => Ok a s' | Err _ s' => Err e s' | Trap t => Trap t end.

Definition dispatch_admin_action (action_type : AdminAction) (params : list Byte.byte)
    : M VaultExtError.t unit :=
  match action_type with
  | SetRewardRate =>
      let! rate_bps := ok_or (decode_u32_bytes params) VaultExtError.ActionNotFound in
      map_err (enforce_runway rate_bps) VaultExtError.ActionNotFound ;;;
      let& within := within_ceiling rate_bps in
      fail_if (negb within) VaultExtError.ActionNotFound ;;;
      set_reward_rate_bps rate_bps
  | Storage.Pause => put Paused true
  | Unpause => put Paused false
  | _ => throw VaultExtError.ActionNotFound
  end.

Definition execute_action (action_id : Z) : M VaultExtError.t unit :=
  try_ (require_admin env) ;;;
  let& pending := get_pending_actions in
  let! idx := ok_or (position (fun a => pa_id a =? action_id) pending) VaultExtError.ActionNotFound in
  let! action := unwrap (pending !! idx) in
  fail_if (sequence env <? pa_executable_at action) VaultExtError.ActionNotYetExecutable ;;;
  dispatch_admin_action (pa_action_type action) (pa_params action) ;;;
  set_pending_actions (delete idx pending) ;;;
  publish [VSym "act_exec"; VAddr (self env)] [VInt action_id; VInt (sequence env)].

(** ** Multisig (#196) *)

Definition initialize_multisig (admins : list Address) (threshold : Z) : M VaultExtError.t unit :=
  fail_if ((length admins =? 0)%nat || (MAX_MULTISIG_ADMINS <? length admins)%nat)
    VaultExtError.InvalidMultisigConfig ;;;
  fail_if ((threshold =? 0) || (Z.of_nat (length admins) <? threshold))
    VaultExtError.InvalidMultisigConfig ;;;
  set_multisig_config (mkMultisigConfig admins threshold).

Definition require_multisig_admin (caller : Address) : M VaultExtError.t MultisigConfig :=
  require_auth env caller ;;;
  let& stored := get_multisig_config in
  let! config := ok_or stored VaultExtError.NotAMultisigAdmin in
  fail_if (negb (bool_decide (caller ∈ ms_admins config))) VaultExtError.NotAMultisigAdmin ;;;
  ret config.

Definition propose_action (admin_addr : Address) (action_type : AdminAction) (params : list Byte.byte)
    : M VaultExtError.t Z :=
  require_multisig_admin admin_addr ;;;
  let& proposals := get_admin_proposals in
  let open_count := length (filter (fun p => negb (ap_executed p)) proposals) in
  fail_if (MAX_OPEN_PROPOSALS <=? open_count)%nat VaultExtError.TooManyProposals ;;;
  let! id := next_proposal_id in
  set_admin_proposals (proposals ++ [mkAdminProposal id action_type params [admin_addr] false]) ;;;
  ret id.

Definition open_with_id (proposal_id : Z) (p : AdminProposal) : bool :=
  (ap_id p =? proposal_id) && negb (ap_executed p).

Definition approve_action (admin_addr : Address) (proposal_id : Z) : M VaultExtError.t unit :=
  require_multisig_admin admin_addr ;;;
  let& proposals := get_admin_proposals in
  let! idx := ok_or (position (open_with_id proposal_id) proposals) VaultExtError.ProposalNotReady in
  let! p := unwrap (proposals !! idx) in
  fail_if (bool_decide (admin_addr ∈ ap_approvals p)) VaultExtError.AlreadyApproved ;;;
  set_admin_proposals
    (<[idx := mkAdminProposal (ap_id p) (ap_action_type p) (ap_params p)
                (ap_approvals p ++ [admin_addr]) (ap_executed p)]> proposals).

Definition execute_proposal (proposal_id : Z) : M VaultExtError.t unit :=
  let& stored := get_multisig_config in
  let! config := ok_or stored VaultExtError.NotAMultisigAdmin in
  let& proposals := get_admin_proposals in
  let! idx := ok_or (position (open_with_id proposal_id) proposals) VaultExtError.ProposalNotReady in
  let! p := unwrap (proposals !! idx) in
  fail_if (Z.of_nat (length (ap_approvals p)) <? ms_threshold config) VaultExtError.ProposalNotReady ;;;
  dispatch_admin_action (ap_action_type p) (ap_params p) ;;;
  set_admin_proposals
    (<[idx := mkAdminProposal (ap_id p) (ap_action_type p) (ap_params p) (ap_approvals p) true]>
       proposals).

(** ** The second action queue (#503) *)

Definition queue_admin_action (admin : Address) (action : AdminAction) : M VaultError.t Z :=
  require_auth env admin ;;;
  require_admin env ;;;
  let& delay := get_timelock_delay in
  let& stored_id := rd TlNextId in
  let action_id := default 1 stored_id in
  let! next := plain (to_u32 (action_id + 1)) in
  put TlNextId next ;;;
  let! executable_at := plain (to_u32 (sequence env + delay)) in
  let& stored := rd TlActions in
  let actions : gmap Z QueuedAction := default ∅ stored in
  put TlActions (<[action_id := mkQueuedAction action executable_at]> actions) ;;;
  publish [VSym "act_queue"] [VInt action_id; action_val action] ;;;
  ret action_id.

Definition execute_admin_action (admin : Address) (action_id : Z) : M VaultFeature5Error.t unit :=
  require_auth env admin ;;;
  try_ (require_admin env) ;;;
  let& stored := rd TlActions in
  let actions : gmap Z QueuedAction := default ∅ stored in
  match actions !! action_id with
  | Some queued =>
      fail_if (sequence env <? qa_executable_at queued) VaultFeature5Error.TimelockNotExpired ;;;
      publish [VSym "act_exec"] [VInt action_id] ;;;
      put TlActions (delete action_id actions)
  | None => throw VaultFeature5Error.ActionNotFound
  end.

Definition cancel_admin_action (admin : Address) (action_id : Z) : M VaultFeature5Error.t unit :=
  require_auth env admin ;;;
  try_ (require_admin env) ;;;
  let& stored := rd TlActions in
  let actions : gmap Z QueuedAction := default ∅ stored in
  match actions !! action_id with
  | Some _ =>
      put TlActions (delete action_id actions) ;;;
      publish [VSym "act_canc"] [VInt action_id]
  | None => throw VaultFeature5Error.ActionNotFound
  end.

End Governance.

Section Announcements.
Context {W : World} (env : Env).
Implicit Types s : State.

(** ** Announced configuration changes (#455) *)

Definition next_id {E} : M E Z :=
  let& stored := rd AcpNextId in
  let id := default 0 stored in
  let! next := plain (to_u32 (id + 1)) in
  put AcpNextId next ;;;
  ret id.

Definition announce_config_change (admin_addr : Address) (change_type : string)
    (new_value delay_ledgers : Z) : M VaultQuizError.t Z :=
  require_auth env admin_addr ;;;
  try_ (require_admin env) ;;;
  fail_if (MAX_CHANGE_TYPE_LEN <? Z.of_nat (String.length change_type)) VaultQuizError.InputTooLong ;;;
  let& proposals := get_proposals in
  let now := sequence env in
  let! id := next_id in
  let proposal := mkConfigProposal id change_type new_value now (u32_sat_add now delay_ledgers)
                    false false in
  put AcpList (drop (S (length proposals) - MAX_ADMIN_PROPOSALS) proposals ++ [proposal]) ;;;
  publish [VSym "acp_ann"; VAddr admin_addr]
    [VInt id; VStr change_type; VInt new_value; VInt now; VInt delay_ledgers] ;;;
  ret id.

Definition mark (p : ConfigProposal) (cancelled executed : bool) : ConfigProposal :=
  mkConfigProposal (ac_id p) (ac_change_type p) (ac_new_value p) (ac_announced_at p)
    (ac_executes_at p) cancelled executed.

Definition cancel_config_change (admin_addr : Address) (proposal_id : Z) : M VaultQuizError.t unit :=
  require_auth env admin_addr ;;;
  try_ (require_admin env) ;;;
  let& proposals := get_proposals in
  match position (fun p => ac_id p =? proposal_id) proposals with
  | Some i =>
      let! p := unwrap (proposals !! i) in
      fail_if (ac_executed p) VaultQuizError.AdminProposalAlreadyExecuted ;;;
      fail_if (ac_cancelled p) VaultQuizError.AdminProposalAlreadyCancelled ;;;
      put AcpList (<[i := mark p true (ac_executed p)]> proposals) ;;;
      publish [VSym "acp_cncl"; VAddr admin_addr] [VInt proposal_id]
  | None => throw VaultQuizError.AdminProposalNotFound
  end.

Definition execute_config_change (admin_addr : Address) (proposal_id : Z) : M VaultQuizError.t unit :=
  require_auth env admin_addr ;;;
  try_ (require_admin env) ;;;
  let& proposals := get_proposals in
  match position (fun p => ac_id p =? proposal_id) proposals with
  | Some i =>
      let! p := unwrap (proposals !! i) in
      fail_if (ac_cancelled p) VaultQuizError.AdminProposalAlreadyCancelled ;;;
      fail_if (ac_executed p) VaultQuizError.AdminProposalAlreadyExecuted ;;;
      fail_if (sequence env <? ac_executes_at p) VaultQuizError.AdminProposalNotYetExecutable ;;;
      put AcpList (<[i := mark p (ac_cancelled p) true]> proposals) ;;;
      publish [VSym "acp_exec"; VAddr admin_addr]
        [VInt proposal_id; VStr (ac_change_type p); VInt (ac_new_value p)]
  | None => throw VaultQuizError.AdminProposalNotFound
  end.

(** ** Admin recovery *)

Definition get_recovery_proposal s : option AdminRecoveryProposal := rd RecoveryProposal s.

Definition propose_admin_recovery (proposer new_admin : Address) : M VaultOpsError.t unit :=
  require_auth env proposer ;;;
  let! current_admin := try_ get_admin in
  fail_if (bool_decide (new_admin = current_admin)) VaultOpsError.InvalidRecoveryConfig ;;;
  let& active := get_recovery_proposal in
  fail_if (match active with Some _ => true | None => false end) VaultOpsError.RecoveryAlreadyPending ;;;
  let now := sequence env in
  let executable_at_ledger := u32_sat_add now ADMIN_RECOVERY_DELAY_LEDGERS in
  put RecoveryProposal (mkAdminRecoveryProposal new_admin proposer now executable_at_ledger) ;;;
  publish [VSym "adm_recp"] [VAddr new_admin; VInt executable_at_ledger].

Definition execute_admin_recovery : M VaultOpsError.t unit :=
  let& active := get_recovery_proposal in
  let! proposal := ok_or active VaultOpsError.RecoveryNotPending in
  fail_if (sequence env <? rp_executable_at_ledger proposal) VaultOpsError.RecoveryDelayNotElapsed ;;;
  set_admin (rp_new_admin proposal) ;;;
  del RecoveryProposal ;;;
  publish [VSym "adm_rece"] [VAddr (rp_new_admin proposal)].

Definition cancel_admin_recovery (admin_addr : Address) : M VaultOpsError.t unit :=
  require_auth env admin_addr ;;;
  let! current_admin := try_ get_admin in
  fail_if (negb (bool_decide (admin_addr = current_admin))) VaultOpsError.Unauthorized ;;;
  let& active := get_recovery_proposal in
  fail_if (match active with Some _ => false | None => true end) VaultOpsError.RecoveryNotPending ;;;
  del RecoveryProposal ;;;
  publish [VSym "adm_recc"] [VAddr admin_addr].

(** ** Succession *)

Definition get_plan s : option SuccessionPlan := rd SuccessionPlanKey s.

(** Declared, and called from nowhere in the contract. *)
Definition touch_admin_activity {E} : M E unit :=
  let& stored := get_plan in
  match stored with
  | Some plan =>
      put SuccessionPlanKey
        (mkSuccessionPlan (sp_heir plan) (sp_inactivity_threshold_ledgers plan) (sequence env))
  | None => ret tt
  end.

Definition set_succession_plan (admin heir : Address) (inactivity_threshold_ledgers : Z)
    : M VaultError.t unit :=
  let! stored_admin := get_admin in
  fail_if (negb (bool_decide (admin = stored_admin))) VaultError.Unauthorized ;;;
  require_auth env admin ;;;
  fail_if (inactivity_threshold_ledgers =? 0) VaultError.ZeroAmount ;;;
  put SuccessionPlanKey (mkSuccessionPlan heir inactivity_threshold_ledgers (sequence env)) ;;;
  publish [VSym "succ_set"] [VAddr heir].

Definition claim_succession (heir : Address) : M VaultError.t unit :=
  require_auth env heir ;;;
  let& stored := get_plan in
  let! plan := ok_or stored VaultError.NotInitialized in
  fail_if (negb (bool_decide (sp_heir plan = heir))) VaultError.Unauthorized ;;;
  let current_ledger := sequence env in
  let elapsed := u32_sat_sub current_ledger (sp_last_admin_action_at plan) in
  fail_if (elapsed <=? sp_inactivity_threshold_ledgers plan) VaultError.Unauthorized ;;;
  set_admin heir ;;;
  del SuccessionPlanKey ;;;
  publish [VSym "succ_clm"] [VAddr heir].

End Announcements.

#[export] Hint Unfold set_admin propose_admin announce_transfer clear_queued_admin_actions
  cancel_open_proposals invalidate_pending_timelocked_actions next_id clear_pending_admin
  set_pending_admin : mrun.

(** ** Traces of governance operations *)

Inductive GovOp :=
| GProposeAdmin (admin new_admin : Address) | GAcceptAdmin (new_admin : Address)
| GCancelAdminProposal (admin : Address) | GTransferAdmin (new_admin : Address)
| GRenounce (admin : Address)
| GSetDelay (ledgers : Z) | GQueue (a : AdminAction) (params : list Byte.byte)
| GCancel (id : Z) | GExecute (id : Z)
| GInitMultisig (admins : list Address) (threshold : Z)
| GPropose (admin : Address) (a : AdminAction) (params : list Byte.byte)
| GApprove (admin : Address) (id : Z) | GExecProposal (id : Z)
| GQueue503 (admin : Address) (a : AdminAction) | GExec503 (admin : Address) (id : Z)
| GCancel503 (admin : Address) (id : Z)
| GAnnounce (admin : Address) (what : string) (value delay : Z)
| GCancelAnnounced (admin : Address) (id : Z) | GExecAnnounced (admin : Address) (id : Z)
| GProposeRecovery (proposer new_admin : Address) | GExecRecovery
| GCancelRecovery (admin : Address)
| GSetPlan (admin heir : Address) (threshold : Z) | GClaimSuccession (heir : Address).

Section GovTraces.
Context {W : World}.
Implicit Types s : State.

Definition run_gov (env : Env) (op : GovOp) s : State :=
  match op with
  | GProposeAdmin a b => invoke (propose_admin env a b) s
  | GAcceptAdmin b => invoke (accept_admin env b) s
  | GCancelAdminProposal a => invoke (cancel_admin_proposal env a) s
  | GTransferAdmin b => invoke (transfer_admin env b) s
  | GRenounce a => invoke (renounce env a) s
  | GSetDelay n => invoke (set_timelock_delay env n) s
  | GQueue a p => invoke (queue_action env a p) s
  | GCancel i => invoke (cancel_action env i) s
  | GExecute i => invoke (execute_action env i) s
  | GInitMultisig l t => invoke (initialize_multisig l t) s
  | GPropose x a p => invoke (propose_action env x a p) s
  | GApprove x i => invoke (approve_action env x i) s
  | GExecProposal i => invoke (execute_proposal i) s
  | GQueue503 x a => invoke (queue_admin_action env x a) s
  | GExec503 x i => invoke (execute_admin_action env x i) s
  | GCancel503 x i => invoke (cancel_admin_action env x i) s
  | GAnnounce x w v d => invoke (announce_config_change env x w v d) s
  | GCancelAnnounced x i => invoke (cancel_config_change env x i) s
  | GExecAnnounced x i => invoke (execute_config_change env x i) s
  | GProposeRecovery x b => invoke (propose_admin_recovery env x b) s
  | GExecRecovery => invoke (execute_admin_recovery env) s
  | GCancelRecovery x => invoke (cancel_admin_recovery env x) s
  | GSetPlan a h t => invoke (set_succession_plan env a h t) s
  | GClaimSuccession h => invoke (claim_succession env h) s
  end.

Definition run_govs (l : list (Env * GovOp)) s : State :=
  fold_left (fun s eo => run_gov eo.1 eo.2 s) l s.

Lemma govs_inv (P : State -> Prop) (Q : Env -> GovOp -> Prop) l s :
  (forall env op s, Q env op -> P s -> P (run_gov env op s)) ->
  Forall (fun eo => Q eo.1 eo.2) l -> P s -> P (run_govs l s).
Proof.
  intros Hstep. revert s. induction l as [|[e o] l IH]; intros s Hl Hs; [done|].
  apply Forall_cons in Hl as [He Hl]. apply (IH (run_gov e o s)); auto.
Qed.

End GovTraces.

(** ** What each operation writes *)

Definition handover_writes : list key :=
  [KInst Admin; KInst PendingAdmin; KInst PendingAdminLegacy; KGov PendingActions; KGov TlActions;
   KGov AcpList].
Definition transfer_writes : list key :=
  handover_writes ++ [KGov AdminActionCount; KGov Changelog].

Definition op_writes (op : GovOp) : list key :=
  match op with
  | GProposeAdmin _ _ | GCancelAdminProposal _ => [KInst PendingAdmin; KInst PendingAdminLegacy]
  | GAcceptAdmin _ | GTransferAdmin _ => transfer_writes
  | GRenounce _ => [KInst AdminRenounced; KInst Admin; KInst EmergencyAdmin; KInst PendingAdmin;
                    KInst PendingAdminLegacy]
  | GSetDelay _ => [KGov TimelockDelay]
  | GQueue _ _ => [KGov ActionIdCtr; KGov PendingActions]
  | GCancel _ => [KGov PendingActions]
  | GExecute _ => [KInst RewardRateBps; KInst Paused; KGov PendingActions]
  | GInitMultisig _ _ => [KGov MultisigCfg]
  | GPropose _ _ _ => [KGov ProposalIdCtr; KGov MultisigProposals]
  | GApprove _ _ => [KGov MultisigProposals]
  | GExecProposal _ => [KInst RewardRateBps; KInst Paused; KGov MultisigProposals]
  | GQueue503 _ _ => [KGov TlNextId; KGov TlActions]
  | GExec503 _ _ | GCancel503 _ _ => [KGov TlActions]
  | GAnnounce _ _ _ _ => [KGov AcpNextId; KGov AcpList]
  | GCancelAnnounced _ _ | GExecAnnounced _ _ => [KGov AcpList]
  | GProposeRecovery _ _ | GCancelRecovery _ => [KGov RecoveryProposal]
  | GExecRecovery => handover_writes ++ [KGov RecoveryProposal]
  | GSetPlan _ _ _ => [KGov SuccessionPlanKey]
  | GClaimSuccession _ => handover_writes ++ [KGov SuccessionPlanKey]
  end.

Ltac writes :=
  repeat first
    [ progress frames
    | apply touches_put; unfold transfer_writes, handover_writes; simpl; set_solver
    | apply touches_del; unfold transfer_writes, handover_writes; simpl; set_solver ].

Section GovFrames.
Context {W : World}.
Implicit Types s : State.

Lemma set_admin_touches E a (K : key -> Prop) :
  (forall k, k ∈ handover_writes -> K k) -> touches K (set_admin (E:=E) a).
Proof.
  intros HK. apply (touches_weaken (fun k => k ∈ handover_writes)); [done|].
  unfold set_admin, clear_pending_admin, invalidate_pending_timelocked_actions,
    clear_queued_admin_actions, cancel_open_proposals, set_pending_actions.
  writes.
Qed.

Lemma map_err_touches {E1 E2 A} K (m : M E1 A) (e : E2) : touches K m -> touches K (map_err m e).
Proof. intros Hm s. specialize (Hm s). unfold map_err. by destruct (m s). Qed.

Lemma dispatch_touches a p (K : key -> Prop) :
  K (KInst RewardRateBps) -> K (KInst Paused) -> touches K (dispatch_admin_action a p).
Proof.
  intros H1 H2. unfold dispatch_admin_action, set_reward_rate_bps.
  destruct a; try (by apply touches_put); try apply touches_throw.
  apply touches_bind; [apply touches_ok_or|intros r].
  apply touches_bind; [apply map_err_touches; unfold enforce_runway; frames|intros _].
  frames.
Qed.

Lemma invoke_touches {E A} K (m : M E A) s k : touches K m -> ~ K k -> rd k (invoke m s) = rd k s.
Proof. intros Hm Hk. specialize (Hm s). unfold invoke. destruct (m s); auto. Qed.

Lemma run_gov_frame env op s k : k ∉ op_writes op -> rd k (run_gov env op s) = rd k s.
Proof.
  intros Hk. destruct op; cbn [run_gov];
    (eapply (invoke_touches (fun k => k ∈ op_writes _)); [|exact Hk]); clear Hk; cbn [op_writes];
    try (unfold renounce, propose_admin, cancel_admin_proposal, set_timelock_delay,
         queue_action, cancel_action, initialize_multisig, propose_action, approve_action,
         require_multisig_admin, queue_admin_action, execute_admin_action, cancel_admin_action,
         announce_config_change, next_id, cancel_config_change, execute_config_change,
         propose_admin_recovery, cancel_admin_recovery, set_succession_plan,
         set_pending_admin, clear_pending_admin, set_timelock_delay_value, next_action_id,
         next_proposal_id, set_pending_actions, set_multisig_config, set_admin_proposals;
       writes; fail).
  all: try (unfold accept_admin, transfer_admin, execute_admin_recovery, claim_succession,
    clear_pending_admin, announce_transfer, increment_admin_action_count, append_changelog;
    repeat first [ apply set_admin_touches; unfold transfer_writes; set_solver | progress writes ]; fail).
  - unfold execute_action, set_pending_actions.
    repeat first [ apply dispatch_touches; set_solver | progress writes ].
  - unfold execute_proposal, set_admin_proposals.
    repeat first [ apply dispatch_touches; set_solver | progress writes ].
Qed.

End GovFrames.

(** ** Handover facts *)

Section HandoverFacts.
Context {W : World}.
Implicit Types s : State.

(** Nothing queued or announced by an admin is still executable. *)
Definition nothing_pending s : Prop :=
  get_pending_actions s = [] /\ default ∅ (rd TlActions s) = (∅ : gmap Z QueuedAction) /\
  Forall (fun p => is_open p = false) (get_proposals s) /\ get_pending_admin s = None.

Lemma cancel_one_closed p : is_open (cancel_one p) = false.
Proof. unfold cancel_one. destruct (is_open p) eqn:Ho; [|done]. apply andb_false_r. Qed.

Lemma filter_open_nil (l : list ConfigProposal) :
  length (filter is_open l) = O -> Forall (fun p => is_open p = false) l.
Proof.
  intros H. apply Forall_forall. intros p Hp. destruct (is_open p) eqn:Ho; [|done].
  assert (p ∈ filter is_open l) as He by (apply list_elem_of_filter; by rewrite Ho).
  apply nil_length_inv in H. rewrite H in He. by apply not_elem_of_nil in He.
Qed.

Lemma set_admin_total E a s : exists s', set_admin (E:=E) a s = Ok tt s'.
Proof.
  unfold set_admin, clear_pending_admin, reading, put, del, bind. destruct (rd Admin s); [|by eexists].
  destruct (decide _); [by eexists|].
  unfold invalidate_pending_timelocked_actions, clear_queued_admin_actions, cancel_open_proposals,
    set_pending_actions, reading, bind, publish, put, del, ret.
  repeat case_match; simplify_eq; by eexists.
Qed.

Lemma clear_queued_Ok E s n s' :
  clear_queued_admin_actions (E:=E) s = Ok n s' ->
  default ∅ (rd TlActions s') = (∅ : gmap Z QueuedAction) /\
  forall k, k <> KGov TlActions -> rd k s' = rd k s.
Proof.
  unfold clear_queued_admin_actions, reading. destruct (rd TlActions s) as [m|] eqn:Em.
  - destruct (_ =? _)%nat eqn:Ez; intros H; mrun H.
    + apply Nat.eqb_eq, map_size_empty_iff in Ez. by rewrite Em.
    + split; [by rdsimp|]. intros. by apply rd_upd_ne.
  - intros H. mrun H. by rewrite Em.
Qed.

Lemma cancel_open_Ok E s n s' :
  cancel_open_proposals (E:=E) s = Ok n s' ->
  Forall (fun p => is_open p = false) (get_proposals s') /\
  forall k, k <> KGov AcpList -> rd k s' = rd k s.
Proof.
  unfold cancel_open_proposals, reading. intros H. apply bind_Ok in H as (? & ? & Hc & H). mrun H.
  destruct (Z.ltb_spec 0 (Z.of_nat (length (filter is_open (get_proposals s))))); mrun Hc.
  - split; [|intros; by apply rd_upd_ne]. unfold get_proposals at 1. rdsimp. simpl.
    apply Forall_fmap, Forall_true. intros. apply cancel_one_closed.
  - split; [|done]. apply filter_open_nil. lia.
Qed.

Lemma invalidate_Ok E a b s x s' :
  invalidate_pending_timelocked_actions (E:=E) a b s = Ok x s' ->
  get_pending_actions s' = [] /\ default ∅ (rd TlActions s') = (∅ : gmap Z QueuedAction) /\
  Forall (fun p => is_open p = false) (get_proposals s') /\
  forall k, k ∉ [KGov PendingActions; KGov TlActions; KGov AcpList] -> rd k s' = rd k s.
Proof.
  unfold invalidate_pending_timelocked_actions, reading. intros H.
  apply bind_Ok in H as (? & s1 & Hq & H). apply bind_Ok in H as (? & s2 & Ht & H).
  apply bind_Ok in H as (? & s3 & Hc & H). mrun H.
  apply clear_queued_Ok in Ht as [Ht Hft]. apply cancel_open_Ok in Hc as [Hc Hfc].
  assert (get_pending_actions s1 = [] /\ forall k, k <> KGov PendingActions -> rd k s1 = rd k s)
    as [Hq1 Hfq].
  { destruct (get_pending_actions s) as [|y l] eqn:El; simpl in Hq; mrun Hq; [done|].
    split; [unfold get_pending_actions; by rdsimp|]. intros. by apply rd_upd_ne. }
  unfold get_pending_actions, get_proposals in *. rewrite !rd_emit. split_and!.
  - by rewrite Hfc, Hft.
  - by rewrite Hfc.
  - done.
  - intros k Hk. rewrite rd_emit, Hfc, Hft, Hfq; set_solver.
Qed.

Lemma set_admin_Ok E a s x s' :
  set_admin (E:=E) a s = Ok x s' ->
  rd Admin s' = Some a /\ (forall b, rd Admin s = Some b -> b <> a -> nothing_pending s') /\
  (forall k, k ∉ handover_writes -> rd k s' = rd k s).
Proof.
  intros H. split_and!; [| |intros k; apply (touches_Ok _ _ _ _ _ k (set_admin_touches E a
      (fun k => k ∈ handover_writes) (fun k Hk => Hk)) H)].
  all: unfold set_admin, reading, clear_pending_admin in H.
  all: apply bind_Ok in H as (? & ? & Hp & H); mrun Hp.
  all: apply bind_Ok in H as (? & ? & Hp & H); mrun Hp.
  - destruct (rd Admin s); [destruct (decide _)|]; mrun H; by rdsimp.
  - intros b Hb Hne. rewrite Hb, decide_False in H by done.
    apply invalidate_Ok in H as (H1 & H2 & H3 & H4). split_and!; [done..|].
    unfold get_pending_admin. rewrite !H4 by set_solver. by rdsimp.
Qed.

End HandoverFacts.
