(* ===== verification/GovernanceProofs.v ===== *)
(** * What governance guarantees, and what it does not

    Theorems over arbitrary traces of the operations of [Governance.v]. *)

From S2P Require Import Prelude Errors Storage Host Concrete Accessors Admin RewardMath Pause RewardRate.
From S2P Require Import Governance.

Ltac tail_touches :=
  unfold announce_transfer, increment_admin_action_count, append_changelog;
  repeat first [apply touches_put; set_solver | apply touches_del; set_solver | progress frames].

Section Handover.
Context {W : World}.
Implicit Types s : State.

Lemma nothing_pending_frame s s' :
  (forall k, k ∈ handover_writes -> rd k s' = rd k s) -> nothing_pending s -> nothing_pending s'.
Proof.
  intros Hf (H1 & H2 & H3 & H4).
  unfold nothing_pending, get_pending_actions, get_proposals, get_pending_admin in *.
  by rewrite !Hf by set_solver.
Qed.

(** A call whose state changes are a [set_admin] followed by bookkeeping. *)
Lemma set_admin_then E b (m : M E unit) s x s' :
  touches (fun k => k ∉ handover_writes) m ->
  (set_admin b ;;; m) s = Ok x s' ->
  rd Admin s' = Some b /\ (forall a, rd Admin s = Some a -> a <> b -> nothing_pending s').
Proof.
  intros Hm H. apply bind_Ok in H as (y & s1 & H1 & H2). apply set_admin_Ok in H1 as (Ha & Hp & _).
  assert (Hf : forall k, k ∈ handover_writes -> rd k s' = rd k s1).
  { intros k Hk. apply (touches_Ok _ _ _ _ _ k Hm H2). auto. }
  split; [by rewrite Hf by set_solver|]. intros a Hsa Hne.
  apply (nothing_pending_frame s1); [done|]. by apply (Hp a).
Qed.

Lemma clear_pending_Ok E s x s' :
  clear_pending_admin (E:=E) s = Ok x s' -> rd Admin s' = rd Admin s.
Proof. unfold clear_pending_admin. intros H. mrun H. by rdsimp. Qed.

Lemma accept_admin_Ok env b s x s' :
  accept_admin env b s = Ok x s' ->
  signed env b = true /\ get_pending_admin s = Some b /\
  rd Admin s' = Some b /\ (forall a, rd Admin s = Some a -> a <> b -> nothing_pending s').
Proof.
  unfold accept_admin, reading. intros H.
  apply bind_Ok in H as (p & ? & Hp & H). apply ok_or_Ok in Hp as (Hp & ->).
  apply bind_Ok in H as (? & ? & Hf & H). apply fail_if_Ok in Hf as (Hf & _ & ->).
  apply negb_false_iff, bool_decide_eq_true in Hf as <-.
  apply bind_Ok in H as (? & ? & Hs & H). apply require_auth_Ok in Hs as (Hs & _ & ->).
  apply bind_Ok in H as (? & ? & Hg & H). apply get_admin_Ok in Hg as (_ & _ & ->).
  apply bind_Ok in H as (? & ? & Hc & H). apply clear_pending_Ok in Hc.
  apply set_admin_then in H as [H1 H2]; [|tail_touches]. rewrite Hc in H2. done.
Qed.

Lemma transfer_admin_Ok env b s x s' :
  transfer_admin env b s = Ok x s' ->
  (exists a, rd Admin s = Some a /\ signed env a = true) /\
  rd Admin s' = Some b /\ (forall a, rd Admin s = Some a -> a <> b -> nothing_pending s').
Proof.
  unfold transfer_admin. intros H.
  apply bind_Ok in H as (? & ? & Ha & H). apply require_admin_Ok in Ha as (a & _ & Ha & Hs & _ & ->).
  apply bind_Ok in H as (? & ? & Hf & H). apply fail_if_Ok in Hf as (_ & _ & ->).
  apply bind_Ok in H as (? & ? & Hg & H). apply get_admin_Ok in Hg as (_ & _ & ->).
  apply bind_Ok in H as (? & ? & Hc & H). apply clear_pending_Ok in Hc.
  apply set_admin_then in H as [H1 H2]; [|tail_touches]. rewrite Hc in H2. eauto.
Qed.

Lemma renounce_Ok env e s x s' :
  renounce env e s = Ok x s' ->
  rd AdminRenounced s <> Some true /\ rd Admin s = Some e /\ signed env e = true /\
  rd Admin s' = None /\ rd AdminRenounced s' = Some true.
Proof.
  unfold renounce. intros H.
  apply bind_Ok in H as (? & ? & Hg & H). apply get_admin_Ok in Hg as (Hr & Ha & ->).
  apply bind_Ok in H as (? & ? & Hf & H). apply fail_if_Ok in Hf as (Hf & _ & ->).
  apply negb_false_iff, bool_decide_eq_true in Hf as <-.
  apply bind_Ok in H as (? & ? & Hs & H). apply require_auth_Ok in Hs as (Hs & _ & ->).
  unfold clear_pending_admin in H. mrun H. split_and!; try done; by rdsimp.
Qed.

Lemma execute_admin_recovery_Ok env s x s' :
  execute_admin_recovery env s = Ok x s' ->
  exists p, rd RecoveryProposal s = Some p /\ rp_executable_at_ledger p <= sequence env /\
  rd Admin s' = Some (rp_new_admin p) /\
  (forall a, rd Admin s = Some a -> a <> rp_new_admin p -> nothing_pending s').
Proof.
  unfold execute_admin_recovery, reading, get_recovery_proposal. intros H.
  apply bind_Ok in H as (p & ? & Hp & H). apply ok_or_Ok in Hp as (Hp & ->).
  apply bind_Ok in H as (? & ? & Hf & H). apply fail_if_Ok in Hf as (Hf & _ & ->).
  apply Z.ltb_ge in Hf. exists p. split; [done|]. split; [done|].
  eapply set_admin_then; [|exact H]. tail_touches.
Qed.

Lemma claim_succession_Ok env h s x s' :
  claim_succession env h s = Ok x s' ->
  exists p, rd SuccessionPlanKey s = Some p /\ sp_heir p = h /\ signed env h = true /\
  sp_inactivity_threshold_ledgers p < u32_sat_sub (sequence env) (sp_last_admin_action_at p) /\
  rd Admin s' = Some h /\ (forall a, rd Admin s = Some a -> a <> h -> nothing_pending s').
Proof.
  unfold claim_succession, reading, get_plan. intros H.
  apply bind_Ok in H as (? & ? & Hs & H). apply require_auth_Ok in Hs as (Hs & _ & ->).
  apply bind_Ok in H as (p & ? & Hp & H). apply ok_or_Ok in Hp as (Hp & ->).
  apply bind_Ok in H as (? & ? & Hf & H). apply fail_if_Ok in Hf as (Hf & _ & ->).
  apply negb_false_iff, bool_decide_eq_true in Hf.
  apply bind_Ok in H as (? & ? & Hf2 & H). apply fail_if_Ok in Hf2 as (Hf2 & _ & ->).
  apply Z.leb_gt in Hf2. exists p. split_and!; [done..| |];
    eapply set_admin_then in H as [H1 H2]; try done; tail_touches.
Qed.

(** C38. However the administrator changes - accepted proposal, direct
    transfer, recovery or succession - the new administrator starts with empty
    queues: nothing waits in either timelock queue, no announced change is still
    open and nobody is nominated as the next administrator.  Recovery proposals
    and succession plans are outside this: [set_admin] does not clear them. *)
Theorem handover_starts_clean env op s a b :
  rd Admin s = Some a -> rd Admin (run_gov env op s) = Some b -> a <> b ->
  nothing_pending (run_gov env op s).
Proof.
  intros Ha Hb Hne. destruct (decide (KInst Admin ∈ op_writes op)) as [Hw|Hw].
  2: { rewrite run_gov_frame in Hb by done. congruence. }
  destruct op; cbn [op_writes] in Hw; try (exfalso; set_solver); cbn [run_gov] in *;
    unfold invoke in *; match goal with H : context [match ?m with _ => _ end] |- _ =>
      destruct m as [x s'| |] eqn:Hm end; try congruence.
  - apply accept_admin_Ok in Hm as (_ & _ & Hn & Hp). apply (Hp a); congruence.
  - apply transfer_admin_Ok in Hm as (_ & Hn & Hp). apply (Hp a); congruence.
  - apply renounce_Ok in Hm as (_ & _ & _ & Hn & _). congruence.
  - apply execute_admin_recovery_Ok in Hm as (p & _ & _ & Hn & Hp). apply (Hp a); congruence.
  - apply claim_succession_Ok in Hm as (p & _ & _ & _ & _ & Hn & Hp). apply (Hp a); congruence.
Qed.

(** The administrator changes only with authority: any call that alters
    the stored admin was signed by the current one, or by the address it had
    proposed, or executes a recovery whose delay has run out, or is made by the
    designated heir after the inactivity threshold. *)
Theorem admin_changes_with_authority env op s :
  rd Admin (run_gov env op s) <> rd Admin s ->
  (exists a, rd Admin s = Some a /\ signed env a = true) \/
  (exists b, get_pending_admin s = Some b /\ signed env b = true) \/
  (exists p, rd RecoveryProposal s = Some p /\ rp_executable_at_ledger p <= sequence env) \/
  (exists p, rd SuccessionPlanKey s = Some p /\ signed env (sp_heir p) = true /\
     sp_inactivity_threshold_ledgers p < u32_sat_sub (sequence env) (sp_last_admin_action_at p)).
Proof.
  intros Hch. destruct (decide (KInst Admin ∈ op_writes op)) as [Hw|Hw].
  2: { by rewrite run_gov_frame in Hch by done. }
  destruct op; cbn [op_writes] in Hw; try (exfalso; set_solver); cbn [run_gov] in *;
    unfold invoke in *; match goal with H : context [match ?m with _ => _ end] |- _ =>
      destruct m as [x s'| |] eqn:Hm end; try done.
  - apply accept_admin_Ok in Hm as (H1 & H2 & _). eauto.
  - apply transfer_admin_Ok in Hm as (H1 & _). auto.
  - apply renounce_Ok in Hm as (_ & H1 & H2 & _). eauto.
  - apply execute_admin_recovery_Ok in Hm as (p & H1 & H2 & _). eauto 6.
  - apply claim_succession_Ok in Hm as (p & H1 & <- & H2 & H3 & _). eauto 8.
Qed.

End Handover.

(** ** The timelock queue *)

Lemma position_Some {A} (p : A -> bool) l i :
  position p l = Some i -> exists x, l !! i = Some x /\ p x = true.
Proof.
  revert i. induction l as [|y l IH]; simpl; [done|]. intros i. destruct (p y) eqn:Hy.
  - intros [= <-]. by exists y.
  - destruct (position p l); [|done]. intros [= <-]. simpl. by apply IH.
Qed.

Section Timelock.
Context {W : World}.
Implicit Types s : State.

Definition next_action s : Z := default 0 (rd ActionIdCtr s).

Lemma queue_action_Ok env a p s id s' :
  queue_action env a p s = Ok id s' ->
  id = next_action s /\ next_action s' = id + 1 /\
  get_pending_actions s' = get_pending_actions s ++
    [mkPendingAction id a p (sequence env) (u32_sat_add (sequence env) (get_timelock_delay s))].
Proof.
  unfold queue_action, reading. intros H.
  apply bind_Ok in H as (? & ? & Ha & H).
  apply try_Ok, require_admin_Ok in Ha as (? & _ & _ & _ & _ & ->).
  apply bind_Ok in H as (? & ? & Hf & H). apply fail_if_Ok in Hf as (_ & _ & ->).
  apply bind_Ok in H as (i & ? & Hi & H). unfold next_action_id, reading in Hi. mrun Hi.
  apply to_u32_Some in H0 as [-> _]. mrun H. unfold next_action, get_pending_actions, get_timelock_delay.
  rdsimp. done.
Qed.

Lemma execute_action_Ok env id s x s' :
  execute_action env id s = Ok x s' ->
  exists i a s1, get_pending_actions s !! i = Some a /\ pa_id a = id /\
    pa_executable_at a <= sequence env /\
    dispatch_admin_action (pa_action_type a) (pa_params a) s = Ok tt s1 /\
    get_pending_actions s' = delete i (get_pending_actions s) /\
    (forall k, k <> KGov PendingActions -> rd k s' = rd k s1).
Proof.
  unfold execute_action, reading. intros H.
  apply bind_Ok in H as (? & ? & Ha & H).
  apply try_Ok, require_admin_Ok in Ha as (? & _ & _ & _ & _ & ->).
  apply bind_Ok in H as (i & ? & Hi & H). apply ok_or_Ok in Hi as (Hi & ->).
  apply position_Some in Hi as (y & Hy & Hid).
  apply bind_Ok in H as (a & ? & Hu & H). apply unwrap_Ok in Hu as (Hu & ->).
  assert (y = a) as -> by congruence. clear Hu.
  apply bind_Ok in H as (? & ? & Hf & H). apply fail_if_Ok in Hf as (Hf & _ & ->).
  apply bind_Ok in H as ([] & s1 & Hd & H). apply Z.ltb_ge in Hf. apply Z.eqb_eq in Hid.
  exists i, a, s1. unfold set_pending_actions in H. mrun H. split_and!; try done.
  intros k Hk. rewrite rd_emit, rd_upd_ne by congruence. done.
Qed.

Lemma cancel_action_Ok env id s x s' :
  cancel_action env id s = Ok x s' ->
  exists i, get_pending_actions s' = delete i (get_pending_actions s).
Proof.
  unfold cancel_action, reading. intros H.
  apply bind_Ok in H as (? & ? & Ha & H).
  apply try_Ok, require_admin_Ok in Ha as (? & _ & _ & _ & _ & ->).
  destruct (position _ _) as [i|]; [|by mrun H]. exists i. unfold set_pending_actions in H. mrun H.
  unfold get_pending_actions. by rdsimp.
Qed.

Lemma set_admin_pending E b (m : M E unit) s x s' :
  touches (fun k => k ∉ handover_writes) m -> (set_admin b ;;; m) s = Ok x s' ->
  get_pending_actions s' = get_pending_actions s \/ get_pending_actions s' = [].
Proof.
  intros Hm H. apply bind_Ok in H as (y & s1 & H1 & H2).
  assert (Heq : get_pending_actions s' = get_pending_actions s1).
  { unfold get_pending_actions. rewrite (touches_Ok _ _ _ _ _ (KGov PendingActions) Hm H2); [done|].
    set_solver. }
  rewrite Heq. unfold set_admin, reading, clear_pending_admin in H1.
  apply bind_Ok in H1 as (? & ? & Hp & H1). mrun Hp.
  apply bind_Ok in H1 as (? & ? & Hp & H1). mrun Hp.
  destruct (rd Admin s); [destruct (decide _)|].
  - left. mrun H1. unfold get_pending_actions. by rdsimp.
  - right. by apply invalidate_Ok in H1 as (? & _).
  - left. mrun H1. unfold get_pending_actions. by rdsimp.
Qed.

(** Every operation keeps, drops from, or appends a fresh action to the queue. *)
Lemma run_gov_pending env op s :
  let l := get_pending_actions s in
  let l' := get_pending_actions (run_gov env op s) in
  next_action s <= next_action (run_gov env op s) /\
  ((forall a, a ∈ l' -> a ∈ l) \/
   exists a, l' = l ++ [a] /\ pa_id a = next_action s /\ next_action (run_gov env op s) = pa_id a + 1).
Proof.
  intros l l'. destruct (decide (KGov PendingActions ∈ op_writes op)) as [Hw|Hw].
  2: { split.
       - unfold next_action. rewrite run_gov_frame; [done|]. destruct op; cbn [op_writes] in *; set_solver.
       - left. subst l l'. unfold get_pending_actions. by rewrite run_gov_frame. }
  assert (Hctr : (forall a p, op <> GQueue a p) -> next_action (run_gov env op s) = next_action s).
  { intros Hnq. unfold next_action. rewrite run_gov_frame; [done|].
    destruct op; cbn [op_writes]; set_solver. }
  assert (Hsub : forall (m : M VaultError.t unit) (s1 : State),
     get_pending_actions s1 = l \/ get_pending_actions s1 = [] ->
     forall a, a ∈ get_pending_actions s1 -> a ∈ l) by (intros _ s1 [->| ->] a; set_solver).
  destruct op; cbn [op_writes] in Hw; try (exfalso; set_solver).
  all: subst l'; cbn [run_gov] in *; unfold invoke in *;
    match goal with |- context [match ?m with _ => _ end] => destruct m as [x s'|e s'|t] eqn:Hm end;
    try (split; [done|by left]).
  - split; [by rewrite Hctr|]. left. unfold accept_admin, reading in Hm.
    apply bind_Ok in Hm as (p & ? & Hp & Hm). apply ok_or_Ok in Hp as (_ & ->).
    apply bind_Ok in Hm as (? & ? & Hp & Hm). apply fail_if_Ok in Hp as (_ & _ & ->).
    apply bind_Ok in Hm as (? & ? & Hp & Hm). apply require_auth_Ok in Hp as (_ & _ & ->).
    apply bind_Ok in Hm as (? & ? & Hp & Hm). apply get_admin_Ok in Hp as (_ & _ & ->).
    apply bind_Ok in Hm as (? & ? & Hp & Hm). unfold clear_pending_admin in Hp. mrun Hp.
    apply (Hsub (ret tt)). apply set_admin_pending in Hm; [|tail_touches].
    revert Hm. unfold get_pending_actions. by rdsimp.
  - split; [by rewrite Hctr|]. left. unfold transfer_admin in Hm.
    apply bind_Ok in Hm as (? & ? & Hp & Hm). apply require_admin_Ok in Hp as (? & _ & _ & _ & _ & ->).
    apply bind_Ok in Hm as (? & ? & Hp & Hm). apply fail_if_Ok in Hp as (_ & _ & ->).
    apply bind_Ok in Hm as (? & ? & Hp & Hm). apply get_admin_Ok in Hp as (_ & _ & ->).
    apply bind_Ok in Hm as (? & ? & Hp & Hm). unfold clear_pending_admin in Hp. mrun Hp.
    apply (Hsub (ret tt)). apply set_admin_pending in Hm; [|tail_touches].
    revert Hm. unfold get_pending_actions. by rdsimp.
  - apply queue_action_Ok in Hm as (-> & Hn & Hl). split; [lia|]. right.
    eexists. split; [exact Hl|]. done.
  - split; [by rewrite Hctr|]. left. apply cancel_action_Ok in Hm as [i ->].
    intros a. apply list_elem_of_delete_inv.
  - split; [by rewrite Hctr|]. left. apply execute_action_Ok in Hm as (i & b & s1 & _ & _ & _ & _ & -> & _).
    intros a. apply list_elem_of_delete_inv.
  - split; [by rewrite Hctr|]. left. unfold execute_admin_recovery, reading in Hm.
    apply bind_Ok in Hm as (p & ? & Hp & Hm). apply ok_or_Ok in Hp as (_ & ->).
    apply bind_Ok in Hm as (? & ? & Hp & Hm). apply fail_if_Ok in Hp as (_ & _ & ->).
    apply (Hsub (ret tt)). eapply set_admin_pending; [|exact Hm]. tail_touches.
  - split; [by rewrite Hctr|]. left. unfold claim_succession, reading in Hm.
    apply bind_Ok in Hm as (? & ? & Hp & Hm). apply require_auth_Ok in Hp as (_ & _ & ->).
    apply bind_Ok in Hm as (p & ? & Hp & Hm). apply ok_or_Ok in Hp as (_ & ->).
    apply bind_Ok in Hm as (? & ? & Hp & Hm). apply fail_if_Ok in Hp as (_ & _ & ->).
    apply bind_Ok in Hm as (? & ? & Hp & Hm). apply fail_if_Ok in Hp as (_ & _ & ->).
    apply (Hsub (ret tt)). eapply set_admin_pending; [|exact Hm]. tail_touches.
Qed.

(** Action identifiers in the queue have all been handed out already. *)
Definition ids_below s : Prop := Forall (fun a => pa_id a < next_action s) (get_pending_actions s).

(** C37. The timelock cannot be shortened or bypassed: once an action is queued,
    whatever anyone does next - including changing the delay, the admin or
    the queue - a call that executes it comes no earlier than the delay in
    force at queueing time, and runs exactly the action and parameters that
    were queued: outside the queue itself, the storage it leaves is the one that
    dispatching them leaves. *)
Theorem timelock_not_bypassed env1 a p s id s1 trace env2 x s2 :
  ids_below s ->
  queue_action env1 a p s = Ok id s1 ->
  execute_action env2 id (run_govs trace s1) = Ok x s2 ->
  u32_sat_add (sequence env1) (get_timelock_delay s) <= sequence env2 /\
  exists s3, dispatch_admin_action a p (run_govs trace s1) = Ok tt s3 /\
    (forall k, k <> KGov PendingActions -> rd k s2 = rd k s3).
Proof.
  intros Hb Hq He. apply queue_action_Ok in Hq as (-> & Hn & Hl).
  set (A := mkPendingAction (next_action s) a p (sequence env1)
              (u32_sat_add (sequence env1) (get_timelock_delay s))) in *.
  set (P := fun s0 : State => next_action s < next_action s0 /\
     Forall (fun b => pa_id b < next_action s0) (get_pending_actions s0) /\
     forall b, b ∈ get_pending_actions s0 -> pa_id b = next_action s -> b = A).
  assert (HP : P (run_govs trace s1)).
  { apply (govs_inv P (fun _ _ => True)); [|by apply Forall_true|].
    - intros env op s0 _ (H1 & H2 & H3). rewrite Forall_forall in H2.
      destruct (run_gov_pending env op s0) as (Hle & [Hsub|(b & Hb1 & Hb2 & Hb3)]).
      + split; [lia|]. split; [|naive_solver]. apply Forall_forall. intros b Hb1.
        apply Hsub in Hb1. specialize (H2 b Hb1). lia.
      + split; [lia|]. rewrite Hb1. split.
        * apply Forall_app. split; [|repeat constructor; lia]. apply Forall_forall. intros c Hc.
          specialize (H2 c Hc). lia.
        * intros c [Hc|Hc%list_elem_of_singleton]%elem_of_app Hid; [by apply H3|]. subst c. lia.
    - unfold ids_below in Hb. rewrite Forall_forall in Hb. split; [lia|]. rewrite Hl. split.
      + apply Forall_app. split; [|repeat constructor; simpl; lia]. apply Forall_forall.
        intros c Hc. specialize (Hb c Hc). lia.
      + intros c [Hc|Hc%list_elem_of_singleton]%elem_of_app Hid; [|done].
        specialize (Hb c Hc). lia. }
  destruct HP as (_ & _ & Hu).
  apply execute_action_Ok in He as (i & b & s3 & Hi & Hid & Hx & Hd & _ & Hk).
  apply list_elem_of_lookup_2 in Hi. apply Hu in Hi; [|done]. subst b. simpl in *. eauto.
Qed.

End Timelock.

(** ** Guards of the delayed rate change *)

Section Guards.
Context {W : World}.
Implicit Types s : State.

Lemma execute_proposal_Ok id s x s' :
  execute_proposal id s = Ok x s' ->
  exists c p s1, get_multisig_config s = Some c /\ p ∈ get_admin_proposals s /\ ap_id p = id /\
    ms_threshold c <= Z.of_nat (length (ap_approvals p)) /\
    dispatch_admin_action (ap_action_type p) (ap_params p) s = Ok tt s1 /\
    (forall k, k <> KGov MultisigProposals -> rd k s' = rd k s1).
Proof.
  unfold execute_proposal, reading. intros H.
  apply bind_Ok in H as (c & ? & Hc & H). apply ok_or_Ok in Hc as (Hc & ->).
  apply bind_Ok in H as (i & ? & Hi & H). apply ok_or_Ok in Hi as (Hi & ->).
  apply position_Some in Hi as (y & Hy & Hid).
  apply bind_Ok in H as (p & ? & Hu & H). apply unwrap_Ok in Hu as (Hu & ->).
  assert (y = p) as -> by congruence.
  apply bind_Ok in H as (? & ? & Hf & H). apply fail_if_Ok in Hf as (Hf & _ & ->).
  apply bind_Ok in H as ([] & s1 & Hd & H). apply Z.ltb_ge in Hf.
  apply andb_true_iff in Hid as [Hid _]. apply Z.eqb_eq in Hid.
  exists c, p, s1. unfold set_admin_proposals in H. mrun H. split_and!; try done.
  - by apply list_elem_of_lookup_2 in Hu.
  - intros k Hk. rewrite rd_upd_ne by congruence. done.
Qed.

Lemma enforce_runway_Ok r s x s' :
  enforce_runway r s = Ok x s' ->
  s' = s /\ (read_min_runway_ledgers s = 0 \/ read_min_runway_ledgers s <= projected_runway_ledgers r s).
Proof.
  unfold enforce_runway, reading. destruct (Z.eqb_spec (read_min_runway_ledgers s) 0); intros H; mrun H.
  - auto.
  - apply Z.ltb_ge in H. auto.
Qed.

Lemma dispatch_rate a p s x s' :
  dispatch_admin_action a p s = Ok x s' ->
  get_reward_rate_bps s' = get_reward_rate_bps s \/
  within_ceiling (get_reward_rate_bps s') s = true /\
  (read_min_runway_ledgers s = 0 \/
   read_min_runway_ledgers s <= projected_runway_ledgers (get_reward_rate_bps s') s).
Proof.
  unfold dispatch_admin_action. intros H. destruct a; try (by mrun H).
  - right. apply bind_Ok in H as (r & ? & Hr & H). apply ok_or_Ok in Hr as (_ & ->).
    apply bind_Ok in H as (? & s1 & Hm & H). unfold map_err in Hm.
    destruct (enforce_runway r s) eqn:He; try done. apply enforce_runway_Ok in He as (-> & He).
    injection Hm as _ <-. unfold reading in H.
    apply bind_Ok in H as (? & ? & Hf & H). apply fail_if_Ok in Hf as (Hf & _ & ->).
    apply negb_false_iff in Hf. unfold set_reward_rate_bps in H. mrun H.
    assert (Hg : forall s0, get_reward_rate_bps (upd RewardRateBps (Some r) s0) = r)
      by (intros; unfold get_reward_rate_bps; by rdsimp).
    by rewrite Hg.
  - left. mrun H. unfold get_reward_rate_bps. by rdsimp.
  - left. mrun H. unfold get_reward_rate_bps. by rdsimp.
Qed.

(** No governance call can install a reward rate above the ceiling or one
    that breaks the configured runway: if a call changes the rate, the new
    rate passed both checks against the state it was made in. *)
Theorem governance_rate_guarded env op s :
  get_reward_rate_bps (run_gov env op s) <> get_reward_rate_bps s ->
  within_ceiling (get_reward_rate_bps (run_gov env op s)) s = true /\
  (read_min_runway_ledgers s = 0 \/
   read_min_runway_ledgers s <= projected_runway_ledgers (get_reward_rate_bps (run_gov env op s)) s).
Proof.
  intros Hch. destruct (decide (KInst RewardRateBps ∈ op_writes op)) as [Hw|Hw].
  2: { exfalso. apply Hch. unfold get_reward_rate_bps. by rewrite run_gov_frame. }
  destruct op; cbn [op_writes] in Hw; try (exfalso; set_solver); cbn [run_gov] in *;
    unfold invoke in *; match goal with H : context [match ?m with _ => _ end] |- _ =>
      destruct m as [x s'| |] eqn:Hm end; try done.
  - apply execute_action_Ok in Hm as (i & a & s1 & _ & _ & _ & Hd & _ & Hf).
    apply dispatch_rate in Hd. unfold get_reward_rate_bps in *. rewrite Hf in * by done. naive_solver.
  - apply execute_proposal_Ok in Hm as (c & p & s1 & _ & _ & _ & _ & Hd & Hf).
    apply dispatch_rate in Hd. unfold get_reward_rate_bps in *. rewrite Hf in * by done. naive_solver.
Qed.

(** ** Recovery and succession *)

Lemma propose_admin_recovery_Ok env x b s y s' :
  propose_admin_recovery env x b s = Ok y s' ->
  rd RecoveryProposal s' = Some (mkAdminRecoveryProposal b x (sequence env)
    (u32_sat_add (sequence env) ADMIN_RECOVERY_DELAY_LEDGERS)).
Proof.
  unfold propose_admin_recovery, reading. intros H.
  apply bind_Ok in H as (? & ? & Hs & H). apply require_auth_Ok in Hs as (_ & _ & ->).
  apply bind_Ok in H as (? & ? & Hg & H). apply try_Ok, get_admin_Ok in Hg as (_ & _ & ->).
  apply bind_Ok in H as (? & ? & Hf & H). apply fail_if_Ok in Hf as (_ & _ & ->).
  apply bind_Ok in H as (? & ? & Hf & H). apply fail_if_Ok in Hf as (_ & _ & ->).
  mrun H. by rdsimp.
Qed.

Lemma cancel_admin_recovery_run env a p s :
  rd AdminRenounced s <> Some true -> rd Admin s = Some a -> signed env a = true ->
  rd RecoveryProposal s = Some p ->
  exists s', cancel_admin_recovery env a s = Ok tt s' /\ rd RecoveryProposal s' = None.
Proof.
  intros Hr Ha Hs Hp. assert (Hg : try_ (E2:=VaultOpsError.t) get_admin s = Ok a s).
  { unfold try_. rewrite (proj2 (get_admin_Ok s a s)); done. }
  unfold cancel_admin_recovery. unfold bind at 1, require_auth. rewrite Hs. unfold ret at 1.
  rewrite (bind_run _ _ _ _ _ Hg). rewrite bool_decide_true by done. unfold fail_if. simpl.
  unfold bind at 1, ret at 1, reading, get_recovery_proposal. rewrite Hp. simpl.
  eexists. split; [reflexivity|]. by rdsimp.
Qed.

Lemma execute_recovery_clears env s x s' :
  execute_admin_recovery env s = Ok x s' -> rd RecoveryProposal s' = None.
Proof.
  unfold execute_admin_recovery, reading. intros H.
  apply bind_Ok in H as (p & ? & Hp & H). apply ok_or_Ok in Hp as (Hp & ->).
  apply bind_Ok in H as (? & ? & Hf & H). apply fail_if_Ok in Hf as (_ & _ & ->).
  apply bind_Ok in H as (? & ? & Hs & H). mrun H. by rdsimp.
Qed.

Lemma cancel_recovery_clears env a s x s' :
  cancel_admin_recovery env a s = Ok x s' -> rd RecoveryProposal s' = None.
Proof.
  unfold cancel_admin_recovery, reading. intros H.
  apply bind_Ok in H as (? & ? & Hs & H). apply require_auth_Ok in Hs as (_ & _ & ->).
  apply bind_Ok in H as (? & ? & Hg & H). apply try_Ok, get_admin_Ok in Hg as (_ & _ & ->).
  apply bind_Ok in H as (? & ? & Hf & H). apply fail_if_Ok in Hf as (_ & _ & ->).
  apply bind_Ok in H as (? & ? & Hf & H). apply fail_if_Ok in Hf as (_ & _ & ->).
  mrun H. by rdsimp.
Qed.

(** A live admin always has thirty days to stop a recovery: counted from
    any moment with no recovery pending, nobody can execute one before the
    full delay has passed, and as long as one is pending the admin's
    cancellation succeeds and makes execution impossible. *)
Theorem recovery_leaves_time_to_cancel l0 trace s :
  rd RecoveryProposal s = None ->
  Forall (fun eo => l0 <= sequence eo.1) trace ->
  let s1 := run_govs trace s in
  (forall env x s2, execute_admin_recovery env s1 = Ok x s2 ->
     u32_sat_add l0 ADMIN_RECOVERY_DELAY_LEDGERS <= sequence env) /\
  (forall env a p, rd AdminRenounced s1 <> Some true -> rd Admin s1 = Some a -> signed env a = true ->
     rd RecoveryProposal s1 = Some p ->
     exists s2, cancel_admin_recovery env a s1 = Ok tt s2 /\
       forall env2, execute_admin_recovery env2 s2 = Err VaultOpsError.RecoveryNotPending s2).
Proof.
  intros Hnone Htr s1.
  set (P := fun s : State => forall p, rd RecoveryProposal s = Some p ->
    u32_sat_add l0 ADMIN_RECOVERY_DELAY_LEDGERS <= rp_executable_at_ledger p).
  assert (HP : P s1).
  { apply (govs_inv P (fun env _ => l0 <= sequence env)); [|done|by intros p; rewrite Hnone].
    intros env op s0 Hl HP. destruct (decide (KGov RecoveryProposal ∈ op_writes op)) as [Hw|Hw].
    2: { unfold P. by rewrite run_gov_frame. }
    destruct op; cbn [op_writes] in Hw; try (exfalso; set_solver); cbn [run_gov];
      apply (invoke_inv P); try done; intros a s' H p Hp.
    - apply propose_admin_recovery_Ok in H. rewrite H in Hp. injection Hp as <-. simpl.
      unfold u32_sat_add. lia.
    - apply execute_recovery_clears in H. congruence.
    - apply cancel_recovery_clears in H. congruence. }
  split.
  - intros env x s2 H. apply execute_admin_recovery_Ok in H as (p & Hp & Hx & _).
    specialize (HP p Hp). lia.
  - intros env a p Hr Ha Hs Hp.
    destruct (cancel_admin_recovery_run env a p s1 Hr Ha Hs Hp) as (s2 & H2 & Hn).
    exists s2. split; [done|]. intros env2. unfold execute_admin_recovery, reading,
      get_recovery_proposal. by rewrite Hn.
Qed.

(** The succession clock is not an inactivity clock: it runs from the
    moment the plan was set, whatever the admin does.  After any sequence of
    governance calls other than a new plan or a claim - admin-signed ones and
    even completed handovers included - the heir's claim succeeds as soon as
    the threshold has passed. *)
Theorem succession_ignores_activity env p trace s :
  rd SuccessionPlanKey s = Some p -> 0 <= sp_inactivity_threshold_ledgers p ->
  Forall (fun eo => (forall a h t, eo.2 <> GSetPlan a h t) /\ forall h, eo.2 <> GClaimSuccession h) trace ->
  sp_last_admin_action_at p + sp_inactivity_threshold_ledgers p < sequence env ->
  signed env (sp_heir p) = true ->
  exists s', claim_succession env (sp_heir p) (run_govs trace s) = Ok tt s' /\
    rd Admin s' = Some (sp_heir p).
Proof.
  intros Hp Ht0 Htr Hlate Hs.
  assert (Hp1 : rd SuccessionPlanKey (run_govs trace s) = Some p).
  { apply (govs_inv (fun s => rd SuccessionPlanKey s = Some p) (fun _ op =>
      (forall a h t, op <> GSetPlan a h t) /\ forall h, op <> GClaimSuccession h)); [|done|done].
    clear. intros env op s [H1 H2] Hp. rewrite run_gov_frame; [done|].
    destruct op; cbn [op_writes]; set_solver. }
  set (s1 := run_govs trace s) in *.
  destruct (set_admin_total VaultError.t (sp_heir p) s1) as [s2 Hs2].
  pose proof (set_admin_Ok _ _ _ _ _ Hs2) as (Ha & _ & _).
  unfold claim_succession. unfold bind at 1, require_auth. rewrite Hs. unfold ret at 1.
  unfold reading, get_plan. rewrite Hp1. unfold bind at 1, ok_or, ret at 1.
  rewrite bool_decide_true by done. cbn [negb].
  rewrite (proj2 (Z.leb_gt _ _)) by (unfold u32_sat_sub; lia).
  unfold fail_if. do 2 unfold bind at 1, ret at 1.
  rewrite (bind_run _ _ _ _ _ Hs2). eexists. split; [reflexivity|]. by rdsimp.
Qed.

End Guards.

(** ** The multisig group *)

Section Multisig.
Context {W : World}.
Implicit Types s : State.

Lemma position_snoc {A} (p : A -> bool) l x :
  Forall (fun y => p y = false) l -> p x = true -> position p (l ++ [x]) = Some (length l).
Proof.
  intros Hl Hx. induction Hl as [|y l Hy Hl IH]; simpl; [by rewrite Hx|]. by rewrite Hy, IH.
Qed.

Definition next_proposal s : Z := default 0 (rd ProposalIdCtr s).
Definition open_proposals s : nat :=
  length (filter (fun p => negb (ap_executed p)) (get_admin_proposals s)).

(** Proposal identifiers have all been handed out already, and there is room. *)
Definition proposals_wf s : Prop :=
  Forall (fun p => ap_id p < next_proposal s) (get_admin_proposals s) /\
  in_u32 (next_proposal s + 1) /\ (open_proposals s < MAX_OPEN_PROPOSALS)%nat.

(** The multisig group can be taken over by anyone at any time:
    [initialize_multisig] asks for no signature and replaces an existing
    group, so from every state a single address that never was an admin of
    any kind pauses (or unpauses) the vault with three calls signed by
    itself alone. *)
Theorem multisig_takeover env x pausing s :
  signed env = (fun a => bool_decide (a = x)) -> proposals_wf s ->
  rd Paused (run_govs
    [(env, GInitMultisig [x] 1);
     (env, GPropose x (if pausing : bool then Storage.Pause else Unpause) []);
     (env, GExecProposal (next_proposal s))] s) = Some pausing.
Proof.
  intros Hsig (Hids & Hctr & Hopen). set (act := if pausing then Storage.Pause else Unpause).
  cbn [run_govs fold_left fst snd run_gov].
  set (s1 := upd MultisigCfg (Some (mkMultisigConfig [x] 1)) s).
  assert (H1 : initialize_multisig [x] 1 s = Ok tt s1) by reflexivity.
  unfold invoke at 3. rewrite H1.
  set (np := mkAdminProposal (next_proposal s) act [] [x] false).
  set (s2 := upd MultisigProposals (Some (get_admin_proposals s ++ [np]))
               (upd ProposalIdCtr (Some (next_proposal s + 1)) s1)).
  assert (H2 : propose_action env x act [] s1 = Ok (next_proposal s) s2).
  { assert (Hrm : require_multisig_admin env x s1 = Ok (mkMultisigConfig [x] 1) s1).
    { unfold require_multisig_admin, require_auth, bind, reading, get_multisig_config. rewrite Hsig.
      rewrite bool_decide_true by done. subst s1. cbn [ret]. rdsimp. cbn [ok_or ret ms_admins].
      rewrite bool_decide_true by set_solver. done. }
    unfold propose_action. rewrite (bind_run _ _ _ _ _ Hrm).
    unfold reading, open_proposals, get_admin_proposals in *. subst s1. rdsimp.
    rewrite (proj2 (Nat.leb_gt _ _)) by done. unfold fail_if, next_proposal_id, reading.
    unfold bind at 1, ret at 1. unfold bind at 1. rdsimp. fold (next_proposal s).
    unfold bind at 1, plain. rewrite to_u32_in by done. reflexivity. }
  unfold invoke at 2. rewrite H2.
  assert (Hgp : get_admin_proposals s2 = get_admin_proposals s ++ [np])
    by (subst s2; unfold get_admin_proposals; by rdsimp).
  unfold invoke, execute_proposal, reading. unfold get_multisig_config at 1. subst s2 s1. rdsimp.
  unfold bind at 1, ok_or at 1, ret at 1. rewrite Hgp.
  rewrite position_snoc; [|eapply Forall_impl; [exact Hids|]; simpl; intros p Hp; unfold open_with_id;
    by rewrite (proj2 (Z.eqb_neq _ _)) by lia|unfold open_with_id; simpl; by rewrite Z.eqb_refl].
  unfold bind at 1, ok_or, ret at 1. unfold bind at 1. rewrite lookup_app_r by lia.
  rewrite Nat.sub_diag. simpl. unfold bind at 1.
  destruct pausing; simpl; unfold put, bind; by rdsimp.
Qed.

End Multisig.

(** ** Witnesses *)

(** Admin 7; everybody signs; a delay of 100 ledgers. *)
Definition governed : State (W := token_world) :=
  upd Admin (Some 7%positive) (upd TimelockDelay (Some 100)
    (upd PendingAdmin (Some 8%positive) (start_state (fun _ _ => 0)))).

Lemma handover_starts_clean_witness :
  nothing_pending (run_gov (at_ledger 60) (GAcceptAdmin 8)
    (run_gov (at_ledger 50) (GQueue Storage.Pause []) governed)).
Proof.
  apply (handover_starts_clean (at_ledger 60) (GAcceptAdmin 8)
    (run_gov (at_ledger 50) (GQueue Storage.Pause []) governed) 7%positive 8%positive);
    [by vm_compute|by vm_compute|done].
Defined.

Lemma admin_changes_with_authority_witness :
  exists b, get_pending_admin governed = Some b /\ signed (at_ledger 60) b = true.
Proof.
  destruct (admin_changes_with_authority (at_ledger 60) (GAcceptAdmin 8) governed)
    as [(a & _)|[H|[(p & H & _)|(p & H & _)]]].
  - by vm_compute.
  - by exists 8%positive.
  - exact H.
  - by vm_compute in H.
  - by vm_compute in H.
Defined.

Lemma timelock_not_bypassed_witness :
  exists s1 s2, queue_action (at_ledger 50) Storage.Pause [] governed = Ok 0 s1 /\
    execute_action (at_ledger 151) 0 (run_govs [(at_ledger 51, GSetDelay 0)] s1) = Ok tt s2 /\
    u32_sat_add 50 100 <= 151 /\ rd Paused s2 = Some true.
Proof.
  destruct (queue_action (at_ledger 50) Storage.Pause [] governed) as [id s1| |] eqn:Hq;
    [|by vm_compute in Hq..].
  assert (Hid : id = 0) by (vm_compute in Hq; by injection Hq). subst id.
  destruct (execute_action (at_ledger 151) 0 (run_govs [(at_ledger 51, GSetDelay 0)] s1))
    as [[] s2| |] eqn:He; [|vm_compute in Hq; injection Hq as <-; by vm_compute in He..].
  exists s1, s2. split; [done|]. split; [exact He|].
  destruct (timelock_not_bypassed (at_ledger 50) Storage.Pause [] governed 0 s1
    [(at_ledger 51, GSetDelay 0)] (at_ledger 151) tt s2) as (Hd & s3 & H3 & Hk); [|done|exact He|].
  { unfold ids_below. by replace (get_pending_actions governed) with (@nil PendingAction) by by vm_compute. }
  split; [exact Hd|]. rewrite Hk by done. unfold dispatch_admin_action in H3. apply put_Ok in H3 as [_ ->]. by rdsimp.
Defined.

(** Rate 5%, ceiling 12%; the queued parameters encode 1000 bps. *)
Definition governed_rate : State (W := token_world) :=
  upd MaxRate (Some 1200) (upd RewardRateBps (Some 500)
    (upd PendingActions (Some [mkPendingAction 0 SetRewardRate
      [Byte.x00; Byte.x00; Byte.x03; Byte.xe8] 10 20]) governed)).

Lemma governance_rate_guarded_witness :
  within_ceiling (get_reward_rate_bps (run_gov (at_ledger 30) (GExecute 0) governed_rate)) governed_rate
    = true.
Proof. apply (governance_rate_guarded (at_ledger 30) (GExecute 0) governed_rate). by vm_compute. Defined.

Lemma recovery_leaves_time_to_cancel_witness :
  exists s2, execute_admin_recovery (at_ledger 518410)
      (run_govs [(at_ledger 10, GProposeRecovery 3 9)] governed) = Ok tt s2 /\
    u32_sat_add 10 ADMIN_RECOVERY_DELAY_LEDGERS <= 518410.
Proof.
  destruct (recovery_leaves_time_to_cancel 10 [(at_ledger 10, GProposeRecovery 3 9)] governed)
    as [H _]; [by vm_compute|by repeat constructor|].
  destruct (execute_admin_recovery (at_ledger 518410)
    (run_govs [(at_ledger 10, GProposeRecovery 3 9)] governed)) as [[] s2| |] eqn:He;
    [|by vm_compute in He..].
  exists s2. split; [done|]. exact (H (at_ledger 518410) tt s2 He).
Defined.

Lemma succession_ignores_activity_witness :
  exists s', claim_succession (at_ledger 2000) 9
      (run_govs [(at_ledger 1999, GSetDelay 5); (at_ledger 1999, GTransferAdmin 8)]
        (run_gov (at_ledger 900) (GSetPlan 7 9 1000) governed)) = Ok tt s' /\
    rd Admin s' = Some 9%positive.
Proof.
  apply (succession_ignores_activity (at_ledger 2000) (mkSuccessionPlan 9 1000 900)
    [(at_ledger 1999, GSetDelay 5); (at_ledger 1999, GTransferAdmin 8)]
    (run_gov (at_ledger 900) (GSetPlan 7 9 1000) governed));
    [by vm_compute|by vm_compute|repeat constructor; simpl; intros; discriminate|by vm_compute|done].
Defined.

Lemma multisig_takeover_witness :
  rd Paused (run_govs
    [(mkEnv 5 25 1 (fun a => bool_decide (a = 66%positive)), GInitMultisig [66%positive] 1);
     (mkEnv 5 25 1 (fun a => bool_decide (a = 66%positive)), GPropose 66 Storage.Pause []);
     (mkEnv 5 25 1 (fun a => bool_decide (a = 66%positive)), GExecProposal 0)] governed) = Some true.
Proof.
  apply (multisig_takeover (mkEnv 5 25 1 (fun a => bool_decide (a = 66%positive))) 66 true governed
    eq_refl).
  split; [|split; [apply in_u32b_spec; by vm_compute|vm_compute; lia]].
  by replace (get_admin_proposals governed) with (@nil AdminProposal) by by vm_compute.
Defined.
