(* ===== verification/Limits.v ===== *)
(** * Limits on deposits and withdrawals

    The checks the deposit and withdrawal paths run: the per-user deposit cap
    ([max_deposit_cap.rs]), the unique-depositor cap ([vault.rs],
    [register_depositor]), the minimum unstake ([minimum_unstake_amount.rs]),
    the daily withdrawal limit ([daily_withdrawal_limit.rs]), the holdback of
    large deposits and the minimum reward funding
    ([vault_extensions_546_549.rs]), the seed gate
    ([vault_extensions_542_545.rs]) and the measured token transfer
    ([transfer_safety.rs]).

    The daily tracker lives in temporary storage with a time to live of one
    day from its last write.  A tracker can therefore only be evicted once its
    window is over, when [current_tracker] ignores it anyway; eviction is not
    modelled. *)

From S2P Require Import Prelude Errors Storage Host Concrete Accessors Admin Shares RewardMath Pause RewardRate.

(** [DepositCapError] ([max_deposit_cap.rs]). *)
Module DepositCapError.
Inductive t : Set := Unauthorized | InvalidCap | NotInitialized | DepositCapExceeded.
Definition code (e : t) : Z :=
  match e with Unauthorized => 1 | InvalidCap => 2 | NotInitialized => 3 | DepositCapExceeded => 51 end.
End DepositCapError.

Section Limits.
Context {W : World} (env : Env).
Implicit Types s : State.

(** ** Per-user deposit cap *)

Definition get_cap s : Z := default 0 (rd MaxDepositCap s).

Definition enforce_deposit_cap {E} (user : Address) (amount : Z) : M E unit :=
  let& cap := get_cap in
  if cap =? 0 then ret tt
  else
    let& shares := get_shares user in
    let& total_shares := get_total_shares in
    let& total_deposited := get_total_deposited in
    let existing := if shares =? 0 then 0
                    else default 0 (shares_to_amount total_shares total_deposited shares) in
    let resulting := default i128_max (checked_add existing amount) in
    panic_if (cap <? resulting) (TPanic (DepositCapError.code DepositCapError.DepositCapExceeded)).

Definition set_max_deposit_cap (admin : Address) (amount : Z) : M DepositCapError.t unit :=
  require_auth env admin ;;;
  let! r := catch get_admin in
  let! stored := match r with
                 | inl a => ret a
                 | inr _ => throw DepositCapError.NotInitialized
                 end in
  fail_if (negb (bool_decide (admin = stored))) DepositCapError.Unauthorized ;;;
  fail_if (amount <? 0) DepositCapError.InvalidCap ;;;
  let& old_cap := get_cap in
  put MaxDepositCap amount ;;;
  publish [VSym "max_deposit_cap_updated"]
    [VAddr admin; VInt old_cap; VInt amount; VInt (sequence env)].

(** ** Unique-depositor cap *)

Definition depositor_count s : Z := default 0 (rd DepositorCount s).
Definition depositor_registered (user : Address) s : bool := default false (rd (DepositorReg user) s).

Definition register_depositor (user : Address) : M VaultError.t unit :=
  let& registered := depositor_registered user in
  if registered then ret tt
  else
    let& stored := rd DepositorCap in
    let cap := default 0 stored in
    let& count := depositor_count in
    fail_if (negb (cap =? 0) && (cap <=? count)) VaultError.DepositorCapReached ;;;
    put (DepositorReg user) true ;;;
    let& count := depositor_count in
    let! n := plain (to_u32 (count + 1)) in
    put DepositorCount n.

Definition set_max_depositor_count (admin : Address) (count : Z) : M VaultError.t unit :=
  require_auth env admin ;;;
  let! stored := get_admin in
  fail_if (negb (bool_decide (admin = stored))) VaultError.Unauthorized ;;;
  put DepositorCap count.

(** ** Minimum unstake *)

Definition get_min_unstake_amount s : Z := default 0 (rd MinUnstake s).
Definition set_min_unstake_amount {E} (amount : Z) : M E unit := put MinUnstake amount.
Definition enforce_min_unstake (amount position_amount : Z) : M VaultError.t unit :=
  let& min := get_min_unstake_amount in
  fail_if ((0 <? min) && (amount <? min) && negb (amount =? position_amount))
    VaultError.BelowMinimumStake.

(** ** Daily withdrawal limit *)

Definition get_limit s : Z := default 0 (rd DailyLimit s).
Definition set_limit {E} (max_per_day : Z) : M E unit := put DailyLimit max_per_day.

Definition get_raw_tracker {E} (user : Address) : M E (option DailyWithdrawalTracker) :=
  let& current := rd (DailyTracker user) in
  match current with
  | Some tracker => ret (Some tracker)
  | None =>
      let& legacy := rd (LegacyTracker user) in
      match legacy with
      | Some tracker =>
          put (DailyTracker user) tracker ;;;
          del (LegacyTracker user) ;;;
          ret legacy
      | None => ret None
      end
  end.

Definition set_tracker {E} (user : Address) (tracker : DailyWithdrawalTracker) : M E unit :=
  put (DailyTracker user) tracker.

Definition current_tracker {E} (user : Address) : M E DailyWithdrawalTracker :=
  let now := sequence env in
  let! raw := get_raw_tracker user in
  ret (match raw with
       | Some t => if u32_sat_sub now (dw_window_start_ledger t) <? LEDGERS_PER_DAY then t
                   else mkTracker now 0
       | None => mkTracker now 0
       end).

Definition enforce_and_record (user : Address) (amount : Z) : M VaultError.t unit :=
  let& limit := get_limit in
  if limit =? 0 then ret tt
  else
    let! tracker := current_tracker user in
    let new_total := sat_add (dw_withdrawn_today tracker) amount in
    fail_if (limit <? new_total) VaultError.WithdrawalLimitExceeded ;;;
    set_tracker user (mkTracker (dw_window_start_ledger tracker) new_total).

Definition remaining {E} (user : Address) : M E Z :=
  let& limit := get_limit in
  if limit =? 0 then ret 0
  else
    let! tracker := current_tracker user in
    ret (Z.max (sat_sub limit (dw_withdrawn_today tracker)) 0).

Definition set_daily_withdrawal_limit (amount : Z) : M VaultError.t unit :=
  require_admin env ;;;
  fail_if (amount <? 0) VaultError.ZeroAmount ;;;
  set_limit amount.

(** ** Large-deposit holdback *)

Definition get_large_threshold s : Z := default 0 (rd LargeThreshold s).
Definition get_large_holdback s : Z := default 0 (rd LargeHoldback s).
Definition get_tranches (user : Address) s : list LockedTranche := default [] (rd (Tranches user) s).
Definition set_tranches {E} (user : Address) (tranches : list LockedTranche) : M E unit :=
  match tranches with
  | [] => del (Tranches user)
  | _ => put (Tranches user) tranches
  end.

Definition tranche_live (t : LockedTranche) : bool :=
  (sequence env <? lt_unlock_at t) && (0 <? lt_shares t).

Definition prune_expired {E} (user : Address) : M E unit :=
  let& tranches := get_tranches user in
  let live := filter tranche_live tranches in
  if (length live =? length tranches)%nat then ret tt else set_tranches user live.

Fixpoint sum_locked (locked : Z) (tranches : list LockedTranche) : Z :=
  match tranches with
  | [] => locked
  | t :: tranches =>
      sum_locked (if sequence env <? lt_unlock_at t then sat_add locked (lt_shares t) else locked)
        tranches
  end.

Definition locked_shares_inner {E} (user : Address) : M E Z :=
  prune_expired user ;;;
  let& tranches := get_tranches user in
  let& shares := get_shares user in
  ret (Z.min (sum_locked 0 tranches) (Z.max shares 0)).

Definition maybe_lock_deposit {E} (user : Address) (deposit_amount shares_minted : Z) : M E unit :=
  let& threshold := get_large_threshold in
  let& holdback := get_large_holdback in
  if (threshold <=? 0) || (holdback =? 0) then ret tt
  else if (deposit_amount <? threshold) || (shares_minted <=? 0) then ret tt
  else
    prune_expired user ;;;
    let& tranches := get_tranches user in
    set_tranches user
      (tranches ++ [mkLockedTranche shares_minted (u32_sat_add (sequence env) holdback)]).

Definition enforce_unlocked (user : Address) (requested_shares : Z) : M VaultError.t unit :=
  let& threshold := get_large_threshold in
  let& holdback := get_large_holdback in
  if (threshold <=? 0) || (holdback =? 0) then ret tt
  else if requested_shares <=? 0 then ret tt
  else
    let! locked := locked_shares_inner user in
    let& total := get_shares user in
    fail_if (sat_sub total locked <? requested_shares) VaultError.UseCooldownFlow.

Definition set_large_deposit_threshold (admin_addr : Address) (amount holdback_ledgers : Z)
    : M VaultError.t unit :=
  require_auth env admin_addr ;;;
  require_admin env ;;;
  let! stored := get_admin in
  fail_if (negb (bool_decide (admin_addr = stored))) VaultError.Unauthorized ;;;
  fail_if (amount <? 0) VaultError.ZeroAmount ;;;
  put LargeThreshold amount ;;;
  put LargeHoldback holdback_ledgers ;;;
  publish [VSym "lg_thr"] [VInt amount; VInt holdback_ledgers; VInt (sequence env)].

(** ** Minimum reward funding and the seed gate *)

Definition get_min_reward_funding_inner s : Z := default 0 (rd MinRewardFunding s).
Definition enforce_min_reward_funding (amount : Z) : M VaultOpsError.t unit :=
  let& min := get_min_reward_funding_inner in
  fail_if ((0 <? min) && (amount <? min)) VaultOpsError.FundingBelowMinimum.

Definition get_min_seed s : Z := default 0 (rd MinSeed s).
Definition is_seeded_inner s : bool := get_min_seed s <=? get_reward_pool_balance s.
Definition require_pool_seeded : M VaultError.t unit :=
  let& seeded := is_seeded_inner in
  fail_if (negb seeded) VaultError.InsufficientRewardPool.
Definition set_min_seed_liquidity (admin_addr : Address) (amount : Z) : M VaultError.t unit :=
  require_auth env admin_addr ;;;
  require_admin env ;;;
  fail_if (amount <? 0) VaultError.ZeroAmount ;;;
  put MinSeed amount ;;;
  publish [VSym "seed_set"; VAddr admin_addr] [VInt amount; VInt (sequence env)].

(** ** Measured transfers *)

Definition pull_tokens (token_addr from : Address) (amount : Z) : M VaultError.t Z :=
  let vault := self env in
  let& before := balance_of token_addr vault in
  transfer token_addr from vault amount ;;;
  let& after := balance_of token_addr vault in
  let! received := ok_or (checked_sub after before) VaultError.ArithmeticError in
  fail_if (received <=? 0) VaultError.ZeroAmount ;;;
  (if received <? amount then
     publish [VSym "short_rcv"; VAddr from] [VInt amount; VInt received]
   else ret tt) ;;;
  ret (Z.min received amount).

(** ** Locks ([get_lock_status]) *)

Definition get_lock_status (user : Address) s : option (Z * Z) :=
  match rd (PLock user) s with
  | Some l => if is_before (sequence env) l.1 then Some l else None
  | None => None
  end.

Definition token_address : M VaultError.t Address :=
  let& token := rd Token in
  ok_or token VaultError.NotInitialized.

End Limits.

#[export] Hint Unfold set_tracker set_limit set_min_unstake_amount set_tranches : mrun.

(** ** What the daily limit bounds *)

Section DailyLimit.
Context {W : World}.
Implicit Types s : State.

(** Withdrawals recorded one after another, each at its own ledger. *)
Fixpoint record_all (user : Address) (l : list (Env * Z)) : M VaultError.t unit :=
  match l with
  | [] => ret tt
  | (env, amount) :: l => enforce_and_record env user amount ;;; record_all user l
  end.

Definition total (l : list (Env * Z)) : Z := foldr (fun x acc => snd x + acc) 0 l.

(** The tracker of [u] is [t], wherever it is stored. *)
Definition tracker_is (u : Address) (t : DailyWithdrawalTracker) s : Prop :=
  rd (DailyTracker u) s = Some t.

Lemma record_step env u amount limit s x s' :
  get_limit s = limit -> limit <> 0 ->
  enforce_and_record env u amount s = Ok x s' ->
  exists t, current_tracker (E:=VaultError.t) env u s = Ok t
      (match current_tracker (E:=VaultError.t) env u s with Ok _ s1 => s1 | _ => s end) /\
    sat_add (dw_withdrawn_today t) amount <= limit /\
    tracker_is u (mkTracker (dw_window_start_ledger t) (sat_add (dw_withdrawn_today t) amount)) s' /\
    get_limit s' = limit.
Proof.
  intros Hl Hnz H. unfold enforce_and_record, reading in H. rewrite Hl in H.
  rewrite (proj2 (Z.eqb_neq _ _)) in H by done.
  apply bind_Ok in H as (t & s1 & Ht & H). exists t. rewrite Ht. split; [done|].
  apply bind_Ok in H as (? & ? & Hf & H). apply fail_if_Ok in Hf as (Hf & _ & ->).
  apply Z.ltb_ge in Hf. split; [done|]. unfold set_tracker in H. mrun H.
  unfold tracker_is, get_limit in *. rdsimp. split; [done|]. try rewrite <- Hl.
  unfold current_tracker, get_raw_tracker, reading in Ht. mrun Ht; rdsimp; done.
Qed.

Lemma current_tracker_in env u t s :
  tracker_is u t s -> u32_sat_sub (sequence env) (dw_window_start_ledger t) < LEDGERS_PER_DAY ->
  current_tracker (E:=VaultError.t) env u s = Ok t s.
Proof.
  intros Ht Hw. unfold current_tracker, get_raw_tracker, reading, bind. rewrite Ht. unfold ret.
  by rewrite (proj2 (Z.ltb_lt _ _)) by done.
Qed.

Lemma current_tracker_out env u t s :
  tracker_is u t s -> LEDGERS_PER_DAY <= u32_sat_sub (sequence env) (dw_window_start_ledger t) ->
  current_tracker (E:=VaultError.t) env u s = Ok (mkTracker (sequence env) 0) s.
Proof.
  intros Ht Hw. unfold current_tracker, get_raw_tracker, reading, bind. rewrite Ht. unfold ret.
  by rewrite (proj2 (Z.ltb_ge _ _)) by done.
Qed.

Lemma record_run env u t amount s :
  get_limit s <> 0 -> current_tracker (E:=VaultError.t) env u s = Ok t s ->
  sat_add (dw_withdrawn_today t) amount <= get_limit s ->
  enforce_and_record env u amount s = Ok tt
    (upd (DailyTracker u) (Some (mkTracker (dw_window_start_ledger t)
       (sat_add (dw_withdrawn_today t) amount))) s).
Proof.
  intros Hnz Ht Hle. unfold enforce_and_record, reading. rewrite (proj2 (Z.eqb_neq _ _)) by done.
  rewrite (bind_run _ _ _ _ _ Ht). rewrite (proj2 (Z.ltb_ge _ _)) by done. done.
Qed.

(** The daily limit bounds what a user withdraws in one fixed window, not in
    any twenty-four hours: within a window opened by its first withdrawal the
    recorded total never exceeds the limit, but a window that was opened with
    one unit can be filled in its last ledger and a fresh one in the next, so
    almost twice the limit leaves within two consecutive ledgers. *)
Theorem daily_limit_per_window u limit s :
  get_limit s = limit -> 0 < limit < i128_max ->
  (forall t l s', tracker_is u t s -> 0 <= dw_withdrawn_today t ->
     Forall (fun x => u32_sat_sub (sequence x.1) (dw_window_start_ledger t) < LEDGERS_PER_DAY /\
                      0 <= x.2) l ->
     record_all u l s = Ok tt s' -> dw_withdrawn_today t + total l <= Z.max limit (dw_withdrawn_today t)) /\
  (rd (DailyTracker u) s = None -> rd (LegacyTracker u) s = None ->
   forall e0 e1 e2, 0 <= sequence e0 ->
     sequence e1 = sequence e0 + LEDGERS_PER_DAY - 1 -> sequence e2 = sequence e1 + 1 ->
     exists s', record_all u [(e0, 1); (e1, limit - 1); (e2, limit)] s = Ok tt s').
Proof.
  intros Hlim Hl. split.
  - intros t l s' Ht Hw. revert t s Hlim Ht Hw. induction l as [|[e a] l IH]; intros t s Hlim Ht Hw Hall H.
    { simpl. lia. }
    apply Forall_cons in Hall as [[Hin Ha] Hall]. cbn [record_all fst snd total foldr] in *.
    apply bind_Ok in H as ([] & s1 & H1 & H2).
    destruct (record_step e u a limit s tt s1) as (t' & Hcur & Hle & Htr & Hlim1); [done|lia|done|].
    rewrite (current_tracker_in e u t s) in Hcur by done. injection Hcur as <-.
    assert (Hsum : sat_add (dw_withdrawn_today t) a = dw_withdrawn_today t + a).
    { unfold sat_add, clamp_i128 in *. pose proof i128_bounds. lia. }
    specialize (IH (mkTracker (dw_window_start_ledger t) (sat_add (dw_withdrawn_today t) a)) s1).
    cbn [dw_withdrawn_today dw_window_start_ledger] in IH. rewrite Hsum in *.
    specialize (IH Hlim1 Htr ltac:(lia) Hall H2). unfold total in IH. lia.
  - intros Hn1 Hn2 e0 e1 e2 H0 He1 He2. pose proof i128_bounds as Hb.
    assert (Hsat : forall a b, 0 <= a -> 0 <= b -> a + b <= limit -> sat_add a b = a + b).
    { intros a b ? ? ?. unfold sat_add, clamp_i128. lia. }
    assert (Hc0 : current_tracker (E:=VaultError.t) e0 u s = Ok (mkTracker (sequence e0) 0) s).
    { unfold current_tracker, get_raw_tracker, reading, bind. rewrite Hn1, Hn2. done. }
    unfold LEDGERS_PER_DAY in *. unfold record_all.
    rewrite (bind_run _ _ _ _ _ (record_run e0 u _ 1 s ltac:(lia) Hc0
      ltac:(rewrite Hsat; cbn [dw_withdrawn_today]; lia))).
    cbn [dw_withdrawn_today dw_window_start_ledger]. rewrite Hsat by lia.
    set (s1 := upd (DailyTracker u) (Some (mkTracker (sequence e0) (0 + 1))) s).
    assert (Hl1 : get_limit s1 = limit) by (subst s1; unfold get_limit in *; by rdsimp).
    assert (Hc1 : current_tracker (E:=VaultError.t) e1 u s1 = Ok (mkTracker (sequence e0) (0 + 1)) s1).
    { apply current_tracker_in; [by unfold tracker_is, s1; rdsimp|].
      unfold u32_sat_sub, LEDGERS_PER_DAY. cbn. lia. }
    rewrite (bind_run _ _ _ _ _ (record_run e1 u _ (limit - 1) s1 ltac:(lia) Hc1
      ltac:(rewrite Hsat; cbn [dw_withdrawn_today]; lia))).
    cbn [dw_withdrawn_today dw_window_start_ledger]. rewrite Hsat by lia.
    set (s2 := upd (DailyTracker u) (Some (mkTracker (sequence e0) (0 + 1 + (limit - 1)))) s1).
    assert (Hl2 : get_limit s2 = limit) by (subst s2; unfold get_limit in *; by rdsimp).
    assert (Hc2 : current_tracker (E:=VaultError.t) e2 u s2 = Ok (mkTracker (sequence e2) 0) s2).
    { eapply current_tracker_out; [by unfold tracker_is, s2; rdsimp|].
      unfold u32_sat_sub, LEDGERS_PER_DAY. cbn [dw_window_start_ledger]. lia. }
    rewrite (bind_run _ _ _ _ _ (record_run e2 u _ limit s2 ltac:(lia) Hc2
      ltac:(rewrite Hsat; cbn [dw_withdrawn_today]; lia))).
    by eexists.
Qed.

End DailyLimit.

Lemma daily_limit_per_window_witness :
  let s := upd DailyLimit (Some 1000) (start_state (fun _ _ => 0)) in
  exists s', record_all 4 [(at_ledger 10, 1); (at_ledger 17289, 999); (at_ledger 17290, 1000)] s
    = Ok tt s'.
Proof.
  intros s. apply (daily_limit_per_window 4 1000 s); try done; by vm_compute.
Defined.
