(* ===== verification/Notify.v ===== *)
(** * Bookkeeping and notifications of the deposit path

    The activity log ([activity_log.rs]) and the inactivity clock it resets
    ([beneficiary_inheritance.rs]), the low-balance alert
    ([vault_extensions_542_545.rs]) and the external stake hooks
    ([stake_hooks.rs]).  None of them can fail, or move tokens by itself; a
    hook is an external call whose failure is contained. *)

From S2P Require Import Prelude Errors Storage Host Accessors Admin RewardRate.

Definition MAX_ACTIVITY_ENTRIES : nat := 100.
Definition MAX_ACTIVITY_PAGE : Z := 50.
Definition MAX_HOOKS : nat := 3.

Section Notify.
Context {W : World} (env : Env).
Implicit Types s : State.

(** ** Beneficiaries *)

Definition get_record (user : Address) s : option Beneficiary := rd (BeneficiaryOf user) s.

Definition touch {E} (user : Address) : M E unit :=
  let& stored := get_record user in
  match stored with
  | Some record =>
      put (BeneficiaryOf user)
        (mkBeneficiary (bf_beneficiary record) (bf_inactivity_ledgers record) (sequence env))
  | None => ret tt
  end.

Definition set_beneficiary (user beneficiary : Address) (inactivity_ledgers : Z)
    : M VaultSafetyError.t unit :=
  require_auth env user ;;;
  fail_if (inactivity_ledgers =? 0) VaultSafetyError.ZeroAmount ;;;
  fail_if (bool_decide (beneficiary = user)) VaultSafetyError.InvalidBeneficiary ;;;
  let ledger := sequence env in
  put (BeneficiaryOf user) (mkBeneficiary beneficiary inactivity_ledgers ledger) ;;;
  publish [VSym "ben_set"; VAddr user] [VAddr beneficiary; VInt inactivity_ledgers; VInt ledger].

Definition clear_beneficiary (user : Address) : M VaultSafetyError.t unit :=
  require_auth env user ;;;
  let& stored := get_record user in
  fail_if (match stored with None => true | Some _ => false end) VaultSafetyError.NoBeneficiary ;;;
  del (BeneficiaryOf user) ;;;
  publish [VSym "ben_clr"; VAddr user] [VInt (sequence env)].

(** ** Activity log *)

Definition read_log (user : Address) s : list ActivityEntry := default [] (rd (ActivityLog user) s).

Definition record {E} (user : Address) (kind : ActivityKind) (amount shares : Z) : M E unit :=
  touch user ;;;
  let& log := read_log user in
  let log := if (MAX_ACTIVITY_ENTRIES <=? length log)%nat then drop 1 log else log in
  put (ActivityLog user)
    (log ++ [mkActivityEntry kind amount shares (sequence env) (timestamp env)]).

Definition get_activity_log (user : Address) (start limit : Z) s : list ActivityEntry :=
  let log := read_log user s in
  let len := Z.of_nat (length log) in
  if (len <=? start) || (limit =? 0) then []
  else
    let end_ := Z.min (u32_sat_add start (Z.min limit MAX_ACTIVITY_PAGE)) len in
    take (Z.to_nat (end_ - start)) (drop (Z.to_nat start) log).

Definition get_activity_count (user : Address) s : Z := Z.of_nat (length (read_log user s)).

(** ** Low-balance alert *)

Definition total_outstanding_rewards s : Z :=
  fold_left (fun total staker => sat_add total (get_accrued_reward staker s)) (get_all_stakers s) 0.

Definition get_low_threshold_bps s : Z := default 0 (rd LowThreshold s).

Definition required_pool_balance s : Z :=
  let bps := get_low_threshold_bps s in
  if bps =? 0 then 0
  else default i128_max (checked_div (sat_mul (total_outstanding_rewards s) bps) 10000).

Definition is_low_inner s : bool :=
  let bps := get_low_threshold_bps s in
  if bps =? 0 then false else get_reward_pool_balance s <? required_pool_balance s.

Definition check_and_emit_low_balance {E} : M E unit :=
  let& low := is_low_inner in
  let& flagged := has LowNotified in
  let& already := rd LowNotified in
  if negb low then
    if flagged then del LowNotified else ret tt
  else if default false already then ret tt
  else
    put LowNotified true ;;;
    let& pool := get_reward_pool_balance in
    let& outstanding := total_outstanding_rewards in
    let& bps := get_low_threshold_bps in
    publish [VSym "rwpl_low"] [VInt pool; VInt outstanding; VInt bps; VInt (sequence env)].

Definition set_low_balance_threshold (admin_addr : Address) (bps_of_obligations : Z)
    : M VaultError.t unit :=
  require_auth env admin_addr ;;;
  require_admin env ;;;
  fail_if (100000 <? bps_of_obligations) VaultError.InvalidRate ;;;
  put LowThreshold bps_of_obligations ;;;
  publish [VSym "low_thr"; VAddr admin_addr] [VInt bps_of_obligations; VInt (sequence env)] ;;;
  check_and_emit_low_balance.

(** ** Hooks *)

Definition hooks s : list Address := default [] (rd StakeHooks s).

Definition notify {E} (user : Address) (action : string) (amount : Z) : M E unit :=
  let& registered := hooks in
  for_each registered (fun hook =>
    let! result := try_call hook "on_action" [VAddr user; VSym action; VInt amount] in
    match result with
    | Some _ => ret tt
    | None =>
        publish [VSym "hook_fail"; VAddr user]
          [VAddr hook; VSym action; VInt amount; VInt (sequence env)]
    end).

Definition register_hook (admin hook : Address) : M VaultError.t unit :=
  require_admin_as env admin ;;;
  fail_if (bool_decide (hook = self env)) VaultError.InvalidAddress ;;;
  let& registered := hooks in
  fail_if (bool_decide (hook ∈ registered)) VaultError.AlreadyInitialized ;;;
  fail_if (MAX_HOOKS <=? length registered)%nat VaultError.MaxPositionsReached ;;;
  put StakeHooks (registered ++ [hook]).

Fixpoint first_index_of (hook : Address) (l : list Address) : option nat :=
  match l with
  | [] => None
  | h :: l => if decide (h = hook) then Some O else S <$> first_index_of hook l
  end.

Definition remove_hook (admin hook : Address) : M VaultError.t unit :=
  require_admin_as env admin ;;;
  let& registered := hooks in
  let! index := ok_or (first_index_of hook registered) VaultError.PositionNotFound in
  put StakeHooks (delete index registered).

End Notify.

#[export] Hint Unfold touch record : mrun.
