(* ===== verification/Mirror.v ===== *)
(** * Position mirroring ([position_mirroring.rs])

    A follower opts into repeating a fraction of a leader's stakes and
    unstakes.  [maybe_mirror_action] runs inside the leader's call. *)

From S2P Require Import Prelude Errors Storage Host Accessors Admin Shares RewardMath MultiReward.
From S2P Require Import Checkpoints Balance.

Definition MAX_LEADER_FEE_BPS : Z := 1000.
Definition MAX_FOLLOWERS : nat := 10.

Inductive MirrorAction := MStake | MUnstake.
Definition action_sym (a : MirrorAction) : val :=
  VSym match a with MStake => "stake" | MUnstake => "unstake" end.

Section Mirror.
Context {W : World} (env : Env).
Implicit Types s : State.

Definition get_mirror_config_inner (follower : Address) s : option MirrorConfig :=
  rd (MirrorCfg follower) s.
Definition get_followers (leader : Address) s : list Address := default [] (rd (MirrorFollowers leader) s).
Definition set_followers {E} (leader : Address) (l : list Address) : M E unit :=
  put (MirrorFollowers leader) l.

Definition add_follower (leader follower : Address) : M VaultExtError.t unit :=
  let& l := get_followers leader in
  if bool_decide (follower ∈ l) then ret tt
  else
    fail_if (MAX_FOLLOWERS <=? length l)%nat VaultExtError.TooManyRecipients ;;;
    set_followers leader (l ++ [follower]).

Definition remove_follower {E} (leader follower : Address) : M E unit :=
  let& l := get_followers leader in
  set_followers leader (filter (fun a => a <> follower) l).

Definition mirror_failed {E} (leader follower : Address) (action : MirrorAction) (capped : Z)
    : M E unit :=
  publish [VSym "mir_fail"; VAddr leader]
    [VAddr follower; action_sym action; VInt capped; VInt (sequence env)].
Definition mirror_executed {E} (leader follower : Address) (action : MirrorAction) (capped : Z)
    : M E unit :=
  publish [VSym "mir_exec"; VAddr leader]
    [VAddr follower; action_sym action; VInt capped; VInt (sequence env)].

(** The amount a configuration mirrors of [amount]; zero or less means none. *)
Definition mirror_amount_of (cfg : MirrorConfig) (amount : Z) : Z :=
  Z.quot (sat_mul amount (mc_mirror_ratio_bps cfg)) BPS.
Definition capped_amount (cfg : MirrorConfig) (mirror_amount : Z) : Z :=
  if (0 <? mc_max_mirror_amount cfg) && (mc_max_mirror_amount cfg <? mirror_amount)
  then mc_max_mirror_amount cfg else mirror_amount.

Definition mirror_stake {E} (leader follower : Address) (capped : Z) : M E unit :=
  let& token_addr := rd Token in
  match token_addr with
  | None => mirror_failed leader follower MStake capped
  | Some token =>
      let& follower_balance := balance_of token follower in
      if follower_balance <? capped then mirror_failed leader follower MStake capped
      else
        let& total_shares := get_total_shares in
        let& total_deposited := get_total_deposited in
        let shares := default capped (amount_to_shares total_shares total_deposited capped) in
        let& cur := get_shares follower in
        let! new_shares := plain (checked_add cur shares) in
        set_shares env follower new_shares ;;;
        let! new_total := plain (checked_add total_shares shares) in
        set_total_shares env new_total ;;;
        let! new_deposited := plain (checked_add total_deposited capped) in
        set_total_deposited new_deposited ;;;
        mirror_executed leader follower MStake capped
  end.

Definition mirror_unstake {E} (leader follower : Address) (capped : Z) : M E unit :=
  let& cur_shares := get_shares follower in
  if (cur_shares =? 0) || (cur_shares <? capped) then mirror_failed leader follower MUnstake capped
  else
    let& total_shares := get_total_shares in
    let& total_deposited := get_total_deposited in
    let shares_to_burn := Z.min capped cur_shares in
    let out_amount := default shares_to_burn
                        (shares_to_amount total_shares total_deposited shares_to_burn) in
    let! new_shares := plain (checked_sub cur_shares shares_to_burn) in
    set_shares env follower new_shares ;;;
    let! new_total := plain (checked_sub total_shares shares_to_burn) in
    set_total_shares env new_total ;;;
    let! new_deposited := plain (checked_sub total_deposited out_amount) in
    set_total_deposited new_deposited ;;;
    mirror_executed leader follower MUnstake capped.

Definition mirror_one {E} (leader : Address) (action : MirrorAction) (amount : Z) (follower : Address)
    : M E unit :=
  let& cfg_opt := get_mirror_config_inner follower in
  match cfg_opt with
  | None => ret tt
  | Some cfg =>
      if negb (mc_active cfg) || negb (bool_decide (mc_leader cfg = leader)) then ret tt
      else
        let mirror_amount := mirror_amount_of cfg amount in
        if mirror_amount <=? 0 then ret tt
        else
          let capped := capped_amount cfg mirror_amount in
          match action with
          | MStake => mirror_stake leader follower capped
          | MUnstake => mirror_unstake leader follower capped
          end
  end.

Definition maybe_mirror_action {E} (leader : Address) (action : MirrorAction) (amount : Z) : M E unit :=
  let& followers := get_followers leader in
  for_each followers (mirror_one leader action amount).

(** The leader's performance fee on a follower's claim.  The event helper it
    calls, [events::mirror_fee_paid], is declared nowhere; the event carries
    its name and arguments. *)
Definition apply_mirror_perf_fee (follower : Address) (reward_after_claim_fee : Z) : M VaultError.t Z :=
  if reward_after_claim_fee <=? 0 then ret reward_after_claim_fee
  else
    let& stored := get_mirror_config_inner follower in
    match stored with
    | Some cfg =>
        if mc_active cfg && (0 <? mc_leader_fee_bps cfg) then
          let! x := ok_or (checked_mul reward_after_claim_fee (mc_leader_fee_bps cfg))
                      VaultError.ArithmeticError in
          let! fee_amount := ok_or (checked_div x BPS) VaultError.ArithmeticError in
          if fee_amount <=? 0 then ret reward_after_claim_fee
          else
            let! net_payout := ok_or (checked_sub reward_after_claim_fee fee_amount)
                                 VaultError.ArithmeticError in
            let& reward_token := get_reward_token in
            let& token := rd Token in
            let! reward_token_addr :=
              ok_or (match reward_token with Some a => Some a | None => token end)
                VaultError.NotInitialized in
            transfer reward_token_addr (self env) (mc_leader cfg) fee_amount ;;;
            publish [VSym "mirror_fee_paid"; VAddr follower; VAddr (mc_leader cfg)]
              [VInt fee_amount; VInt net_payout; VInt (sequence env)] ;;;
            ret net_payout
        else ret reward_after_claim_fee
    | None => ret reward_after_claim_fee
    end.

Definition set_mirror_config (follower leader : Address)
    (mirror_ratio_bps max_mirror_amount leader_fee_bps : Z) : M VaultExtError.t unit :=
  require_auth env follower ;;;
  fail_if (bool_decide (follower = leader)) VaultExtError.InvalidMultisigConfig ;;;
  fail_if ((mirror_ratio_bps =? 0) || (BPS <? mirror_ratio_bps)) VaultExtError.InvalidFeeAllocation ;;;
  fail_if (max_mirror_amount <=? 0) VaultExtError.ZeroAmount ;;;
  fail_if (MAX_LEADER_FEE_BPS <? leader_fee_bps) VaultExtError.InvalidFeeAllocation ;;;
  let& old := get_mirror_config_inner follower in
  (match old with
   | Some old_cfg =>
       if bool_decide (mc_leader old_cfg = leader) then ret tt
       else remove_follower (mc_leader old_cfg) follower
   | None => ret tt
   end) ;;;
  put (MirrorCfg follower)
    (mkMirrorConfig leader mirror_ratio_bps max_mirror_amount true leader_fee_bps) ;;;
  add_follower leader follower ;;;
  publish [VSym "mir_cfg"; VAddr follower]
    [VAddr leader; VInt mirror_ratio_bps; VInt max_mirror_amount; VInt leader_fee_bps;
     VInt (sequence env)].

Definition cancel_mirroring (follower : Address) : M VaultExtError.t unit :=
  require_auth env follower ;;;
  let& stored := get_mirror_config_inner follower in
  let! cfg := ok_or stored VaultExtError.PositionNotFound in
  remove_follower (mc_leader cfg) follower ;;;
  del (MirrorCfg follower) ;;;
  publish [VSym "mir_canc"; VAddr follower] [VInt (sequence env)].

End Mirror.
