(* ===== verification/Strategies.v ===== *)
(** * Strategy adapters ([vault_extensions_765_768.rs])

    Idle funds lent to external adapter contracts: allocation under an idle
    buffer, liquidity pulled back on withdrawals, harvest with a performance
    fee, loss accounting and emergency unwind.  Adapters are the external
    contracts of [World]; what they answer and do is arbitrary. *)

From S2P Require Import Prelude Errors Storage Host Concrete Accessors Admin RewardMath Pause Limits.

Definition MAX_PERFORMANCE_FEE_BPS : Z := 5000.
Definition MAX_IDLE_BUFFER_BPS : Z := 10000.
Definition KEEPER_TIP_SHARE_BPS : Z := 500.

Section Strategies.
Context {W : World} (env : Env).
Implicit Types s : State.

Definition get_strategy_records s : list StrategyRecord := default [] (rd Strategies s).
Definition set_strategy_records {E} (records : list StrategyRecord) : M E unit := put Strategies records.
Definition get_min_idle_ratio s : Z := default 0 (rd IdleRatio s).
Definition get_perf_fee_bps s : Z := default 0 (rd PerfFee s).
Definition get_reserve s : Z := default 0 (rd InsuranceReserve s).
Definition set_reserve {E} (amount : Z) : M E unit := put InsuranceReserve amount.

Definition get_total_allocated_to_strategies s : Z :=
  fold_left (fun total rec =>
    if negb (sr_disabled rec) && (0 <? sr_allocated rec) then sat_add total (sr_allocated rec) else total)
    (get_strategy_records s) 0.

Definition with_allocated (r : StrategyRecord) (a : Z) : StrategyRecord :=
  mkStrategyRecord (sr_adapter r) a (sr_high_water_mark r) (sr_disabled r).

(** A contained call returning an [i128]; [None] when it fails or returns
    something else. *)
Definition try_i128 {E} (c : Address) (fn : string) (args : list val) : M E (option Z) :=
  let! r := try_call c fn args in
  ret (match r with Some (VInt z) => Some z | _ => None end).

(** One round of the loop of [pull_from_strategies]. *)
Definition pull_one {E} (amount_needed total_pulled : Z) (rec : StrategyRecord)
    : M E (Z * StrategyRecord * bool) :=
  if sr_disabled rec || (sr_allocated rec <=? 0) then ret (total_pulled, rec, false)
  else
    let! left := plain (checked_sub amount_needed total_pulled) in
    let to_pull := Z.min left (sr_allocated rec) in
    let! pull_res := try_i128 (sr_adapter rec) "withdraw" [VAddr (self env); VInt to_pull] in
    let pulled_amount := match pull_res with Some amt => Z.max amt 0 | None => 0 end in
    if 0 <? pulled_amount then
      publish [VSym "str_pull"; VAddr (sr_adapter rec)] [VInt pulled_amount; VInt (sequence env)] ;;;
      ret (sat_add total_pulled pulled_amount,
           with_allocated rec (sat_sub (sr_allocated rec) pulled_amount), true)
    else ret (total_pulled, rec, false).

Fixpoint pull_loop {E} (amount_needed total_pulled : Z) (records : list StrategyRecord)
    : M E (Z * list StrategyRecord * bool) :=
  match records with
  | [] => ret (total_pulled, [], false)
  | rec :: rest =>
      if amount_needed <=? total_pulled then ret (total_pulled, rec :: rest, false)
      else
        let! r := pull_one amount_needed total_pulled rec in
        let! rs := pull_loop amount_needed r.1.1 rest in
        ret (rs.1.1, r.1.2 :: rs.1.2, r.2 || rs.2)
  end.

Definition pull_from_strategies (amount_needed : Z) : M StrategyError.t Z :=
  if amount_needed <=? 0 then ret 0
  else
    let& records := get_strategy_records in
    let! r := pull_loop amount_needed 0 records in
    (if r.2 then set_strategy_records r.1.2 else ret tt) ;;;
    ret r.1.1.

Definition set_min_idle_ratio_bps (admin : Address) (bps : Z) : M StrategyError.t unit :=
  require_auth env admin ;;;
  try_ (require_admin_as env admin) ;;;
  fail_if (MAX_IDLE_BUFFER_BPS <? bps) StrategyError.InvalidRatio ;;;
  put IdleRatio bps ;;;
  publish [VSym "idle_upd"; VAddr admin] [VInt bps; VInt (sequence env)].

Fixpoint find_adapter (adapter : Address) (records : list StrategyRecord) : option nat :=
  match records with
  | [] => None
  | r :: records => if decide (sr_adapter r = adapter) then Some O else S <$> find_adapter adapter records
  end.

Definition allocate_to_strategy (admin adapter : Address) (amount : Z) : M StrategyError.t unit :=
  require_auth env admin ;;;
  try_ (require_admin_as env admin) ;;;
  fail_if (amount <=? 0) StrategyError.ZeroAmount ;;;
  let! token_addr := try_ token_address in
  let contract_addr := self env in
  let& idle_balance := balance_of token_addr contract_addr in
  fail_if (idle_balance <? amount) StrategyError.IdleBufferBreached ;;;
  let& deployed_to_strategies := get_total_allocated_to_strategies in
  let! tvl := ok_or (checked_add idle_balance deployed_to_strategies) StrategyError.ArithmeticError in
  let& min_idle_bps := get_min_idle_ratio in
  (if 0 <? min_idle_bps then
     let! v := ok_or (checked_mul tvl min_idle_bps) StrategyError.ArithmeticError in
     let! required_idle := ok_or (checked_div v BPS) StrategyError.ArithmeticError in
     let! remaining_idle := plain (checked_sub idle_balance amount) in
     fail_if (remaining_idle <? required_idle) StrategyError.IdleBufferBreached
   else ret tt) ;;;
  let& records := get_strategy_records in
  (match find_adapter adapter records with
   | Some idx =>
       let! rec := unwrap (records !! idx) in
       fail_if (sr_disabled rec) StrategyError.StrategyDisabled ;;;
       let! allocated := ok_or (checked_add (sr_allocated rec) amount) StrategyError.ArithmeticError in
       let! hwm := ok_or (checked_add (sr_high_water_mark rec) amount) StrategyError.ArithmeticError in
       set_strategy_records
         (<[idx := mkStrategyRecord (sr_adapter rec) allocated hwm (sr_disabled rec)]> records)
   | None => set_strategy_records (records ++ [mkStrategyRecord adapter amount amount false])
   end) ;;;
  transfer token_addr contract_addr adapter amount ;;;
  try_call adapter "deposit" [VAddr contract_addr; VInt amount] ;;;
  publish [VSym "str_alloc"; VAddr adapter] [VInt amount; VInt (sequence env)].

Definition get_strategy_allocation (adapter : Address) s : Z :=
  match find_adapter adapter (get_strategy_records s) with
  | Some i => default 0 (sr_allocated <$> get_strategy_records s !! i)
  | None => 0
  end.

Definition get_strategies s : list Address := sr_adapter <$> get_strategy_records s.

Definition set_performance_fee_bps (admin : Address) (bps : Z) : M StrategyError.t unit :=
  require_auth env admin ;;;
  try_ (require_admin_as env admin) ;;;
  fail_if (MAX_PERFORMANCE_FEE_BPS <? bps) StrategyError.InvalidFee ;;;
  put PerfFee bps.

(** ** Treasury split ([vault_extensions_498_501.rs]) *)

Fixpoint split_transfers {E} (token_addr : Address) (fee : Z) (recipients : list Address)
    (bps_shares : list Z) : M E unit :=
  match recipients with
  | [] => ret tt
  | recipient :: recipients =>
      let! bps := unwrap (head bps_shares) in
      let! x := plain (checked_mul fee bps) in
      let amount := Z.quot x BPS in
      (if 0 <? amount then transfer token_addr (self env) recipient amount else ret tt) ;;;
      split_transfers token_addr fee recipients (tail bps_shares)
  end.

Definition apply_treasury_split (fee : Z) : M VaultError.t unit :=
  let& split_opt := rd TreasurySplitKey in
  let! token_addr := token_address in
  match split_opt with
  | Some split => split_transfers token_addr fee (ts_recipients split) (ts_bps_shares split)
  | None => ret tt
  end.

(** ** Harvest *)

Definition harvest_one (caller token_addr : Address) (fee_bps : Z) (rec : StrategyRecord)
    : M StrategyError.t (Z * StrategyRecord * bool) :=
  if sr_disabled rec then ret (0, rec, false)
  else
    let! asset_query := try_i128 (sr_adapter rec) "assets" [] in
    let current_value := match asset_query with Some v => v | None => sr_allocated rec end in
    if sr_high_water_mark rec <? current_value then
      let! gain := plain (checked_sub current_value (sr_high_water_mark rec)) in
      let! fee := (if 0 <? fee_bps then
                     let! x := plain (checked_mul gain fee_bps) in ret (Z.quot x BPS)
                   else ret 0) in
      (if 0 <? fee then
         let! x := plain (checked_mul fee KEEPER_TIP_SHARE_BPS) in
         let keeper_tip := Z.quot x BPS in
         let! treasury_portion := plain (checked_sub fee keeper_tip) in
         let& idle := balance_of token_addr (self env) in
         (if (0 <? keeper_tip) && (keeper_tip <=? idle) then
            transfer token_addr (self env) caller keeper_tip
          else ret tt) ;;;
         (if 0 <? treasury_portion then ignore (apply_treasury_split treasury_portion) else ret tt)
       else ret tt) ;;;
      publish [VSym "harvested"; VAddr (sr_adapter rec)] [VInt gain; VInt fee; VInt (sequence env)] ;;;
      ret (gain, mkStrategyRecord (sr_adapter rec) current_value current_value (sr_disabled rec), true)
    else ret (0, rec, false).

Fixpoint harvest_loop (caller token_addr : Address) (fee_bps total_harvested : Z)
    (records : list StrategyRecord) : M StrategyError.t (Z * list StrategyRecord * bool) :=
  match records with
  | [] => ret (total_harvested, [], false)
  | rec :: rest =>
      let! r := harvest_one caller token_addr fee_bps rec in
      let! rs := harvest_loop caller token_addr fee_bps (sat_add total_harvested r.1.1) rest in
      ret (rs.1.1, r.1.2 :: rs.1.2, r.2 || rs.2)
  end.

Definition harvest (caller : Address) : M StrategyError.t Z :=
  require_auth env caller ;;;
  let& records := get_strategy_records in
  let& fee_bps := get_perf_fee_bps in
  let! token_addr := try_ token_address in
  let! r := harvest_loop caller token_addr fee_bps 0 records in
  (if r.2 then set_strategy_records r.1.2 else ret tt) ;;;
  ret r.1.1.

(** ** Losses *)

(** The two absorption layers: insurance reserve, then share price. *)
Definition absorb_loss {E} (total_loss : Z) : M E (Z * Z) :=
  let& available_reserve := get_reserve in
  let reserve_absorbed := Z.min total_loss available_reserve in
  (if 0 <? reserve_absorbed then
     let! rest := plain (checked_sub available_reserve reserve_absorbed) in
     set_reserve rest
   else ret tt) ;;;
  let! share_price_absorbed := plain (checked_sub total_loss reserve_absorbed) in
  (if 0 <? share_price_absorbed then
     let& total_deposited := get_total_deposited in
     let! x := plain (checked_sub total_deposited share_price_absorbed) in
     set_total_deposited (Z.max x 0)
   else ret tt) ;;;
  ret (reserve_absorbed, share_price_absorbed).

Definition report_strategy_loss (caller adapter : Address) : M StrategyError.t Z :=
  require_auth env caller ;;;
  let& records := get_strategy_records in
  let! idx := ok_or (find_adapter adapter records) StrategyError.StrategyNotFound in
  let! rec := unwrap (records !! idx) in
  let! asset_query := try_i128 (sr_adapter rec) "assets" [] in
  let current_value := match asset_query with Some v => Z.max v 0 | None => 0 end in
  fail_if (sr_allocated rec <=? current_value) StrategyError.NoLoss ;;;
  let! total_loss := plain (checked_sub (sr_allocated rec) current_value) in
  let! absorbed := absorb_loss total_loss in
  set_strategy_records
    (<[idx := mkStrategyRecord (sr_adapter rec) current_value current_value (sr_disabled rec)]> records) ;;;
  publish [VSym "strategy_loss_recorded"; VAddr adapter]
    [VInt total_loss; VInt absorbed.1; VInt absorbed.2; VInt (sequence env)] ;;;
  ret total_loss.

Definition emergency_unwind (caller adapter : Address) : M StrategyError.t Z :=
  require_auth env caller ;;;
  let! r := catch (require_admin_as env caller) in
  let is_admin := match r with inl _ => true | inr _ => false end in
  let& guardian := is_guardian caller in
  fail_if (negb is_admin && negb guardian) StrategyError.Unauthorized ;;;
  let& records := get_strategy_records in
  let! idx := ok_or (find_adapter adapter records) StrategyError.StrategyNotFound in
  let! rec := unwrap (records !! idx) in
  let allocated := sr_allocated rec in
  let! withdraw_res := try_i128 adapter "withdraw" [VAddr (self env); VInt allocated] in
  let recovered := match withdraw_res with Some amt => Z.max amt 0 | None => 0 end in
  let! diff := plain (checked_sub allocated recovered) in
  let loss := Z.max diff 0 in
  (if 0 <? loss then absorb_loss loss ;;; ret tt else ret tt) ;;;
  set_strategy_records (<[idx := mkStrategyRecord (sr_adapter rec) 0 0 true]> records) ;;;
  publish [VSym "strategy_unwound"; VAddr adapter] [VInt recovered; VInt loss; VInt (sequence env)] ;;;
  ret recovered.

Definition is_strategy_disabled (adapter : Address) s : bool :=
  match find_adapter adapter (get_strategy_records s) with
  | Some i => default false (sr_disabled <$> get_strategy_records s !! i)
  | None => false
  end.

End Strategies.

#[export] Hint Unfold set_strategy_records set_reserve : mrun.
