(* ===== verification/StrategyProofs.v ===== *)
(** * Strategy accounting

    What [Strategies.v] promises: allocations keep the idle buffer, and a
    realised loss is split without remainder between the insurance reserve and
    the share price, in that order. *)

From S2P Require Import Prelude Errors Storage Host Concrete Accessors Admin RewardMath Pause Limits Strategies.

(** A contract the vault calls cannot take the vault's tokens: a transfer out
    of the vault needs the vault's own authorisation, which it grants to no
    callee. *)
Class GuardedFunds (W : World) := {
  call_keeps_funds : forall w c fn args w' v t a,
    ext_call w c fn args = Some (w', v) -> tok_balance w t a <= tok_balance w' t a
}.

#[export] Instance token_world_guarded : GuardedFunds token_world.
Proof. by split. Qed.

Section StrategyProofs.
Context {W : World} (env : Env).
Implicit Types s : State.

Lemma find_adapter_Some adapter l i :
  find_adapter adapter l = Some i -> exists r, l !! i = Some r /\ sr_adapter r = adapter.
Proof.
  revert i. induction l as [|r l IH]; intros i H; simpl in H; [done|].
  destruct (decide _) as [<-|Hne]; [injection H as <-; by exists r|].
  apply fmap_Some in H as (j & Hj & ->). by apply IH.
Qed.

(** The reserve pays first; what it cannot cover comes off the deposits. *)
Lemma absorb_loss_Ok E loss s r s' :
  0 <= get_reserve s -> 0 < loss -> absorb_loss (E:=E) loss s = Ok r s' ->
  r.1 = Z.min loss (get_reserve s) /\ r.2 = loss - r.1 /\
  get_reserve s' = get_reserve s - r.1 /\
  get_total_deposited s' = (if 0 <? r.2 then Z.max (get_total_deposited s - r.2) 0 else get_total_deposited s) /\
  (forall k, k <> KInst TotalDeposited -> k <> KInst InsuranceReserve -> rd k s' = rd k s).
Proof.
  intros Hr Hl H. unfold absorb_loss in H. unfold reading at 1 in H. set (ra := Z.min loss (get_reserve s)) in *.
  apply bind_Ok in H as (? & s1 & H1 & H).
  assert (get_reserve s1 = get_reserve s - ra /\
    (forall k, k <> KInst InsuranceReserve -> rd k s1 = rd k s)) as [Hres Hf].
  { destruct (Z.ltb_spec 0 ra).
    - apply bind_Ok in H1 as (rest & ? & H1 & H2). apply plain_Ok in H1 as [[-> _]%checked_sub_Some ->].
      apply put_Ok in H2 as [_ ->]. split; [unfold get_reserve at 1; by rdsimp|].
      intros k Hk. apply rd_upd_ne. congruence.
    - apply ret_Ok in H1 as [_ ->]. split; [lia|done]. }
  apply bind_Ok in H as (spa & ? & H2 & H). apply plain_Ok in H2 as [[-> _]%checked_sub_Some ->].
  apply bind_Ok in H as (? & s2 & H2 & H). apply ret_Ok in H as [-> ->]. cbn [fst snd].
  do 2 (split; [done|]). assert (Hd : get_total_deposited s1 = get_total_deposited s)
    by (unfold get_total_deposited; by rewrite Hf).
  destruct (Z.ltb_spec 0 (loss - ra)).
  - unfold reading in H2. apply bind_Ok in H2 as (rest & ? & H2 & H3).
    apply plain_Ok in H2 as [[-> _]%checked_sub_Some ->]. unfold set_total_deposited in H3.
    apply bind_Ok in H3 as (? & ? & H3 & H4). unfold assert_non_negative in H3.
    apply panic_if_Ok in H3 as (_ & _ & ->). apply put_Ok in H4 as [_ ->].
    split; [unfold get_reserve at 1; by rdsimp|]. split.
    + unfold get_total_deposited at 1. rdsimp. by rewrite Hd.
    + intros k Hk1 Hk2. rewrite rd_upd_ne by congruence. by apply Hf.
  - apply ret_Ok in H2 as [_ ->]. split; [done|]. split; [done|]. intros k _ Hk. by apply Hf.
Qed.

(** A reported loss is booked in full and in order.  The loss is the gap
    between what the strategy was given and what it reports; the insurance
    reserve covers what it can, only then the deposits on the books go down,
    the two parts add up to the loss, the reserve stays non-negative, the
    strategy is written down to its reported value, and no shares are
    touched. *)
Theorem loss_waterfall caller adapter s loss s' :
  0 <= get_reserve s -> report_strategy_loss env caller adapter s = Ok loss s' ->
  exists i rec value ra sa,
    find_adapter adapter (get_strategy_records s) = Some i /\ get_strategy_records s !! i = Some rec /\
    0 <= value < sr_allocated rec /\ loss = sr_allocated rec - value /\ loss = ra + sa /\
    0 <= ra /\ 0 <= sa /\ (0 < sa -> get_reserve s' = 0) /\
    get_reserve s' = get_reserve s - ra /\ 0 <= get_reserve s' /\
    (sa <= get_total_deposited s -> get_total_deposited s' = get_total_deposited s - sa) /\
    get_strategy_records s' = <[i := mkStrategyRecord (sr_adapter rec) value value (sr_disabled rec)]>
                                (get_strategy_records s) /\
    get_total_shares s' = get_total_shares s /\ (forall u, get_shares u s' = get_shares u s).
Proof.
  intros Hr H. unfold report_strategy_loss in H.
  apply bind_Ok in H as (? & ? & H1 & H). apply require_auth_Ok in H1 as (_ & _ & ->). unfold reading at 1 in H.
  apply bind_Ok in H as (i & ? & H1 & H). apply ok_or_Ok in H1 as [Hi ->].
  apply bind_Ok in H as (rec & ? & H1 & H). apply unwrap_Ok in H1 as [Hrec ->].
  apply bind_Ok in H as (q & s1 & H1 & H).
  assert (Hs1 : forall k, rd k s1 = rd k s).
  { intros k. unfold try_i128 in H1. apply bind_Ok in H1 as (v & s2 & H1 & H2). apply ret_Ok in H2 as [_ ->].
    apply (touches_Ok (fun _ => False) _ _ _ _ k (touches_try_call _ _ _ _) H1). tauto. }
  clear H1. cbv zeta in H. set (value := match q with Some v => Z.max v 0 | None => 0 end) in *.
  assert (Hv : 0 <= value) by (subst value; destruct q; lia).
  apply bind_Ok in H as (? & ? & H1 & H). apply fail_if_Ok in H1 as (Hlt%Z.leb_gt & _ & ->).
  apply bind_Ok in H as (l & ? & H1 & H). apply plain_Ok in H1 as [[-> _]%checked_sub_Some ->].
  apply bind_Ok in H as ([ra sa] & s2 & H1 & H).
  assert (Hr1 : get_reserve s1 = get_reserve s) by (unfold get_reserve; by rewrite Hs1).
  apply absorb_loss_Ok in H1 as (Hra & Hsa & Hres & Hdep & Hf); [|lia|lia]. cbn [fst snd] in *.
  apply bind_Ok in H as (? & ? & H1 & H). apply put_Ok in H1 as [_ ->].
  apply bind_Ok in H as (? & ? & H1 & H). apply publish_Ok in H1 as [_ ->]. apply ret_Ok in H as [-> ->].
  exists i, rec, value, ra, sa. do 2 (split; [done|]). rewrite Hr1 in *.
  unfold get_reserve, get_total_deposited, get_strategy_records, get_total_shares, get_shares in *. rdsimp.
  rewrite Hs1 in *. split; [lia|]. split; [done|]. split; [lia|]. split; [lia|]. split; [lia|].
  split; [lia|]. split; [done|]. split; [lia|]. split.
  { intros Hle. rewrite Hdep. destruct (Z.ltb_spec 0 sa); lia. }
  split; [done|]. split; [by rewrite Hf, Hs1|]. intros u. rdsimp. by rewrite Hf, Hs1.
Qed.

Lemma total_allocated_nonneg s : 0 <= get_total_allocated_to_strategies s.
Proof.
  unfold get_total_allocated_to_strategies. generalize (get_strategy_records s). intros l.
  assert (H : forall l acc, 0 <= acc -> 0 <= fold_left (fun total rec =>
    if negb (sr_disabled rec) && (0 <? sr_allocated rec) then sat_add total (sr_allocated rec) else total) l acc).
  { clear l. induction l as [|r l IH]; intros acc Ha; simpl; [done|]. apply IH.
    destruct (_ && _) eqn:Hb; [|done]. apply andb_true_iff in Hb as [_ Hb%Z.ltb_lt].
    pose proof (clamp_nonneg (acc + sr_allocated r)). unfold sat_add. lia. }
  by apply H.
Qed.

Lemma find_adapter_insert adapter l i r :
  find_adapter adapter l = Some i -> sr_adapter r = adapter -> find_adapter adapter (<[i := r]> l) = Some i.
Proof.
  revert i. induction l as [|x l IH]; intros i Hi Hr; simpl in *; [done|].
  destruct (decide (sr_adapter x = adapter)) as [Hx|Hx].
  - injection Hi as <-. simpl. by rewrite decide_True.
  - apply fmap_Some in Hi as (j & Hj & ->). simpl. rewrite decide_False by done. by rewrite (IH j).
Qed.
Lemma find_adapter_app adapter l r :
  find_adapter adapter l = None -> sr_adapter r = adapter -> find_adapter adapter (l ++ [r]) = Some (length l).
Proof.
  induction l as [|x l IH]; simpl; intros Hl Hr; [by rewrite decide_True|].
  destruct (decide _); [done|]. apply fmap_None in Hl. by rewrite IH.
Qed.

Lemma records_put l s : get_strategy_records (upd Strategies (Some l) s) = l.
Proof. unfold get_strategy_records. by rewrite rd_upd_eq. Qed.

(** What the allocation books for the adapter. *)
Definition booked (adapter : Address) (amount : Z) s s' : Prop :=
  get_strategy_allocation adapter s' = get_strategy_allocation adapter s + amount /\
  st_ext s' = st_ext s.

(** The branch on a known or new adapter books the amount either way. *)
Lemma allocation_booked adapter amount s s' :
  (match find_adapter adapter (get_strategy_records s) with
   | Some idx =>
       let! rec := unwrap (get_strategy_records s !! idx) in
       fail_if (sr_disabled rec) StrategyError.StrategyDisabled ;;;
       let! allocated := ok_or (checked_add (sr_allocated rec) amount) StrategyError.ArithmeticError in
       let! hwm := ok_or (checked_add (sr_high_water_mark rec) amount) StrategyError.ArithmeticError in
       set_strategy_records (<[idx := mkStrategyRecord (sr_adapter rec) allocated hwm (sr_disabled rec)]>
         (get_strategy_records s))
   | None => set_strategy_records (get_strategy_records s ++ [mkStrategyRecord adapter amount amount false])
   end) s = Ok tt s' -> booked adapter amount s s'.
Proof.
  intros H. destruct (find_adapter adapter (get_strategy_records s)) as [i|] eqn:Hi.
  - apply find_adapter_Some in Hi as Hr. destruct Hr as (r & Hr & Ha). rewrite Hr in H.
    unfold unwrap at 1, bind at 1, ret at 1 in H.
    apply bind_Ok in H as (? & ? & H1 & H). apply fail_if_Ok in H1 as (_ & _ & ->).
    apply bind_Ok in H as (al & ? & H1 & H). apply ok_or_Ok in H1 as [[-> _]%checked_add_Some ->].
    apply bind_Ok in H as (hw & ? & H1 & H). apply ok_or_Ok in H1 as [[-> _]%checked_add_Some ->].
    apply put_Ok in H as [_ ->]. split; [|done]. unfold get_strategy_allocation.
    rewrite Hi, Hr, !records_put.
    rewrite (find_adapter_insert _ _ _ _ Hi) by done. rewrite list_lookup_insert_eq; [done|].
    by apply lookup_lt_Some in Hr.
  - apply put_Ok in H as [_ ->]. split; [|done]. unfold get_strategy_allocation. rewrite Hi.
    unfold get_strategy_records at 1 2. rewrite rd_upd_eq. simpl.
    rewrite (find_adapter_app _ _ _ Hi) by done. rewrite records_put, lookup_app_r, Nat.sub_diag by done. simpl. lia.
Qed.

(** Lending to a strategy never breaks the idle buffer: only the admin
    can do it, the vault must hold the amount, and what stays in the vault is
    at least the configured share of the idle and deployed funds together; the
    strategy's record grows by exactly the amount.  Stated for plain tokens
    and adapters that cannot take the vault's funds. *)
Theorem allocation_keeps_buffer `{!StandardTokens W} `{!GuardedFunds W} admin adapter amount token s s' :
  rd Token s = Some token -> adapter <> self env -> 0 <= get_min_idle_ratio s ->
  allocate_to_strategy env admin adapter amount s = Ok tt s' ->
  let idle := balance_of token (self env) s in
  rd Admin s = Some admin /\ signed env admin = true /\ 0 < amount <= idle /\
  (idle + get_total_allocated_to_strategies s) * get_min_idle_ratio s / BPS <= idle - amount /\
  idle - amount <= balance_of token (self env) s' /\
  get_strategy_allocation adapter s' = get_strategy_allocation adapter s + amount.
Proof.
  intros Htok Hne Hbps H idle. unfold allocate_to_strategy in H.
  apply bind_Ok in H as (? & ? & H1 & H). apply require_auth_Ok in H1 as (Hsig & _ & ->).
  apply bind_Ok in H as (? & s1 & H1 & H). apply (proj1 (try_Ok _ _ _ _)), require_admin_as_Ok in H1 as (_ & Hadm & _ & _ & ->).
  apply bind_Ok in H as (? & ? & H1 & H). apply fail_if_Ok in H1 as (Ha%Z.leb_gt & _ & ->).
  apply bind_Ok in H as (t & s1 & H1 & H). apply (proj1 (try_Ok _ _ _ _)) in H1. unfold token_address, reading in H1.
  rewrite Htok in H1. apply ok_or_Ok in H1 as [[= <-] ->]. unfold reading at 1 in H. cbv zeta in H. fold idle in H.
  apply bind_Ok in H as (? & ? & H1 & H). apply fail_if_Ok in H1 as (Hi%Z.ltb_ge & _ & ->). unfold reading at 1 in H.
  pose proof (total_allocated_nonneg s) as Hdep. set (dep := get_total_allocated_to_strategies s) in *.
  apply bind_Ok in H as (tvl & ? & H1 & H). apply ok_or_Ok in H1 as [[-> _]%checked_add_Some ->]. unfold reading at 1 in H.
  set (bps := get_min_idle_ratio s) in *.
  apply bind_Ok in H as (? & s1 & H1 & H).
  assert (s1 = s /\ (idle + dep) * bps / BPS <= idle - amount) as [-> Hbuf].
  { destruct (Z.ltb_spec 0 bps).
    - apply bind_Ok in H1 as (v & ? & H1 & H2). apply ok_or_Ok in H1 as [[-> _]%checked_mul_Some ->].
      apply bind_Ok in H2 as (r & ? & H1 & H2). apply ok_or_Ok in H1 as [(_ & -> & _)%checked_div_Some ->].
      apply bind_Ok in H2 as (rem & ? & H1 & H2). apply plain_Ok in H1 as [[-> _]%checked_sub_Some ->].
      apply fail_if_Ok in H2 as (Hle%Z.ltb_ge & _ & ->). split; [done|].
      rewrite quot_floor in Hle; [done|nia|done].
    - apply ret_Ok in H1 as [_ ->]. split; [done|]. replace bps with 0 by lia.
      rewrite Z.mul_0_r, Z.div_0_l by done. lia. }
  clear H1. unfold reading at 1 in H. apply bind_Ok in H as ([] & s1 & H1 & H). apply allocation_booked in H1 as [Hbook He].
  apply bind_Ok in H as (? & s2 & H1 & H). apply transfer_Ok in H1 as (w & Hw & _ & ->). rewrite He in Hw.
  destruct (std_moves _ _ _ _ _ _ (not_eq_sym Hne) Hw) as [Hfrom _].
  apply bind_Ok in H as (v & s2 & H1 & H). apply publish_Ok in H as [_ ->].
  assert (Hst : forall k, rd k s2 = rd k s1).
  { intros k. transitivity (rd k (set_ext w s1)); [|apply rd_set_ext].
    apply (touches_Ok (fun _ => False) _ _ _ _ k (touches_try_call _ _ _ _) H1). tauto. }
  assert (Hbal : tok_balance w token (self env) <= balance_of token (self env) s2).
  { unfold try_call in H1. change (st_ext (set_ext w s1)) with w in H1.
    destruct (ext_call w adapter "deposit" _) as [[w' r]|] eqn:Hc; injection H1 as _ <-; [|done].
    apply (call_keeps_funds _ _ _ _ _ _ _ _ Hc). }
  split; [done|]. split; [done|]. split; [lia|]. split; [done|]. split.
  - rewrite balance_of_emit. unfold balance_of in *. lia.
  - rewrite <- Hbook. unfold get_strategy_allocation, get_strategy_records. by rewrite rd_emit, Hst.
Qed.

End StrategyProofs.

Definition lending_vault : State (W := token_world) :=
  upd Token (Some 9%positive) (upd Admin (Some 7%positive) (upd IdleRatio (Some 2000)
    (upd Strategies (Some [mkStrategyRecord 5 400 400 false])
      (upd InsuranceReserve (Some 150) (upd TotalDeposited (Some 1000) (start_state (fun _ _ => 600))))))).

(** 600 idle and 400 deployed: at 20%, 200 must stay. *)
Lemma allocation_keeps_buffer_witness :
  exists s', allocate_to_strategy (at_ledger 10) 7%positive 5 400 lending_vault = Ok tt s' /\
    200 <= balance_of 9 1 s' /\ get_strategy_allocation 5 s' = 800.
Proof.
  destruct (succeeds_run (allocate_to_strategy (at_ledger 10) 7%positive 5 400 lending_vault) (fun _ _ => true))
    as ([] & s' & H & _); [vm_compute; reflexivity|].
  exists s'. split; [exact H|].
  destruct (allocation_keeps_buffer (at_ledger 10) 7%positive 5 400 9%positive lending_vault s')
    as (_ & _ & _ & H1 & H2 & H3); [reflexivity|discriminate|vm_compute; discriminate|exact H|].
  split.
  - etransitivity; [|exact H2]. vm_compute. discriminate.
  - rewrite H3. vm_compute. reflexivity.
Defined.

(** No callable contract answers, so the whole allocation of 400 counts as
    lost: 150 from the reserve, 250 from the deposits. *)
Lemma loss_waterfall_witness :
  exists s', report_strategy_loss (at_ledger 10) 3 5 lending_vault = Ok 400 s' /\
    get_reserve s' = 0.
Proof.
  destruct (succeeds_run (report_strategy_loss (at_ledger 10) 3 5 lending_vault)
    (fun a s' => (a =? 400) && (get_total_deposited s' =? 750)))
    as (a & s' & H & [->%Z.eqb_eq Hd%Z.eqb_eq]%andb_true_iff); [vm_compute; reflexivity|].
  exists s'. split; [exact H|].
  destruct (loss_waterfall (at_ledger 10) 3 5 lending_vault 400 s')
    as (i & rec & v & ra & sa & _ & _ & _ & _ & Hsum & _ & _ & Hz & Hres & Hnn & _);
    [vm_compute; discriminate|exact H|].
  change (get_reserve lending_vault) with 150 in Hres. apply Hz. lia.
Defined.
