(* ===== verification/Vault.v ===== *)
(** * Deposits and withdrawals ([vault.rs])

    [stake], [do_stake_inner], [do_unstake] and the entrypoints in front of it,
    the emergency exit, yield injection, the withdrawal queue, cooldown and
    position tokens that park shares outside a user's balance
    ([vault_extensions_502_505.rs], [withdrawal_cooldown.rs]).

    [vault.rs] is the result of an unfinished merge and declares some functions
    more than once.  The definitions modelled are [do_unstake] of line 3467 and
    [do_stake_inner] of line 3409, the ones the public entrypoints of the first
    [impl] block are written against.  [do_unstake] reads [user_shares] on its
    paying branch without defining it there; it is read as
    [balance::get_shares], its definition on the queueing branch.
    [unstake_all] returns [VaultLockError::PositionNotFound] from a function
    typed [VaultError]; the [VaultError] variant of that name is used. *)

From S2P Require Import Prelude Errors Storage Host Concrete Accessors Admin Shares RewardMath MultiReward.
From S2P Require Import Checkpoints Balance Pause RewardRate Limits Notify Mirror Strategies.

Section Vault.
Context {W : World} (env : Env).
Implicit Types s : State.

(** ** Staking *)

Definition stake (user : Address) (amount : Z) : M VaultError.t Z :=
  require_auth env user ;;;
  require_no_sunset ;;;
  fail_if (amount <=? 0) VaultError.ZeroAmount ;;;
  require_pool_seeded ;;;
  register_depositor user ;;;
  let! token_addr := token_address in
  let! amount := pull_tokens env token_addr user amount in
  enforce_deposit_cap user amount ;;;
  let& total_shares := get_total_shares in
  let& total_deposited := get_total_deposited in
  let& decimals := get_stake_decimals in
  let! shares_minted :=
    ok_or (amount_to_shares_with_decimals total_shares total_deposited amount decimals)
      VaultError.ArithmeticError in
  let& current_shares := get_shares user in
  let! new_shares := ok_or (checked_add current_shares shares_minted) VaultError.ArithmeticError in
  set_shares env user new_shares ;;;
  let! new_total := ok_or (checked_add total_shares shares_minted) VaultError.ArithmeticError in
  set_total_shares env new_total ;;;
  let! new_deposited := ok_or (checked_add total_deposited amount) VaultError.ArithmeticError in
  set_total_deposited new_deposited ;;;
  (if current_shares =? 0 then register_staker user else ret tt) ;;;
  maybe_lock_deposit env user amount shares_minted ;;;
  maybe_mirror_action env user MStake amount ;;;
  record env user Deposit amount shares_minted ;;;
  check_and_emit_low_balance env ;;;
  notify env user "stake" amount ;;;
  ret shares_minted.

Definition do_stake_inner (user : Address) (amount min_shares_out : Z) : M VaultError.t Z :=
  let& p := get_pause_state in
  fail_if p.1 VaultError.VaultPaused ;;;
  require_no_sunset ;;;
  fail_if (amount <=? 0) VaultError.ZeroAmount ;;;
  require_pool_seeded ;;;
  register_depositor user ;;;
  let! token_addr := token_address in
  let! amount := pull_tokens env token_addr user amount in
  let& total_shares := get_total_shares in
  let& total_deposited := get_total_deposited in
  let& decimals := get_stake_decimals in
  let! shares :=
    ok_or (amount_to_shares_with_decimals total_shares total_deposited amount decimals)
      VaultError.ArithmeticError in
  fail_if ((0 <? min_shares_out) && (shares <? min_shares_out)) VaultError.InvalidRate ;;;
  let& cur := get_shares user in
  let! new_shares := plain (checked_add cur shares) in
  set_shares env user new_shares ;;;
  let! new_total := plain (checked_add total_shares shares) in
  set_total_shares env new_total ;;;
  let! new_deposited := ok_or (checked_add total_deposited amount) VaultError.ArithmeticError in
  set_total_deposited new_deposited ;;;
  (if cur =? 0 then register_staker user else ret tt) ;;;
  maybe_lock_deposit env user amount shares ;;;
  maybe_mirror_action env user MStake amount ;;;
  record env user Deposit amount shares ;;;
  check_and_emit_low_balance env ;;;
  ret shares.

(** ** The withdrawal queue *)

Definition is_withdrawal_queue_enabled s : bool := default false (rd WqEnabled s).
Definition get_queue s : list QueueEntry := default [] (rd WqQueue s).

Definition enqueue_withdrawal {E} (user : Address) (shares : Z) : M E unit :=
  let& q := get_queue in
  put WqQueue (q ++ [mkQueueEntry user shares (timestamp env)]) ;;;
  publish [VSym "wq_queued"] [VAddr user; VInt shares].

(** ** Unstaking *)

Definition do_unstake (staker : Address) (shares : Z) : M VaultError.t Z :=
  fail_if (shares <=? 0) VaultError.ZeroAmount ;;;
  let& p := get_pause_state in
  fail_if p.2 VaultError.VaultPaused ;;;
  let& lock := get_lock_status env staker in
  fail_if (match lock with Some _ => true | None => false end) VaultError.UseCooldownFlow ;;;
  let& queueing := is_withdrawal_queue_enabled in
  let& user_shares := get_shares staker in
  if queueing then
    fail_if (user_shares <? shares) VaultError.InsufficientShares ;;;
    enqueue_withdrawal staker shares ;;;
    let! rest := plain (checked_sub user_shares shares) in
    set_shares env staker rest ;;;
    ret 0
  else
    let& total_shares := get_total_shares in
    let& total_deposited := get_total_deposited in
    let& decimals := get_stake_decimals in
    let! amount := ok_or (shares_to_amount_with_decimals total_shares total_deposited shares decimals)
                     VaultError.ArithmeticError in
    let! token_addr := token_address in
    let& current_idle := balance_of token_addr (self env) in
    (if current_idle <? amount then
       let! needed := plain (checked_sub amount current_idle) in
       ignore (pull_from_strategies env needed)
     else ret tt) ;;;
    transfer token_addr (self env) staker amount ;;;
    let! rest := plain (checked_sub user_shares shares) in
    set_shares env staker rest ;;;
    let! new_total := plain (checked_sub total_shares shares) in
    set_total_shares env new_total ;;;
    let! new_deposited := plain (checked_sub total_deposited amount) in
    set_total_deposited new_deposited ;;;
    maybe_mirror_action env staker MUnstake amount ;;;
    ret amount.

Definition projected_unstake_amount (shares : Z) : M VaultError.t Z :=
  let& total_shares := get_total_shares in
  let& total_deposited := get_total_deposited in
  ok_or (shares_to_amount total_shares total_deposited shares) VaultError.ArithmeticError.

Definition unstake (staker : Address) (shares : Z) : M VaultError.t Z :=
  let& position_amount := get_shares staker in
  enforce_min_unstake shares position_amount ;;;
  let! projected := projected_unstake_amount shares in
  enforce_and_record env staker projected ;;;
  do_unstake staker shares.

Definition unstake_all (user : Address) : M VaultError.t Z :=
  let& shares := get_shares user in
  fail_if (shares =? 0) VaultError.PositionNotFound ;;;
  let! projected := projected_unstake_amount shares in
  enforce_and_record env user projected ;;;
  do_unstake user shares.

(** The guard is released by [Drop] on every path out of [withdraw]; a failed
    call rolls the flag back with everything else. *)
Definition withdraw (withdrawer : Address) (shares : Z) : M VaultError.t Z :=
  let& entered := rd Reentrancy in
  fail_if (default false entered) VaultError.Unauthorized ;;;
  put Reentrancy true ;;;
  let! projected := projected_unstake_amount shares in
  enforce_and_record env withdrawer projected ;;;
  let! r := do_unstake withdrawer shares in
  del Reentrancy ;;;
  ret r.

(** ** Emergency exit and yield *)

Definition emergency_withdraw (user : Address) : M VaultError.t Z :=
  require_auth env user ;;;
  apply_scheduled_unpause_if_due env ;;;
  let& p := paused in
  fail_if (negb p) VaultError.VaultPaused ;;;
  let& shares := get_shares user in
  fail_if (shares <=? 0) VaultError.PositionNotFound ;;;
  let& total_shares := get_total_shares in
  let& total_deposited := get_total_deposited in
  let! amount_returned := ok_or (shares_to_amount total_shares total_deposited shares)
                            VaultError.ArithmeticError in
  let& rewards_forfeited := get_accrued_reward user in
  let! token_addr := token_address in
  transfer token_addr (self env) user amount_returned ;;;
  set_shares env user 0 ;;;
  let! new_total := plain (checked_sub total_shares shares) in
  set_total_shares env new_total ;;;
  let! new_deposited := plain (checked_sub total_deposited amount_returned) in
  set_total_deposited new_deposited ;;;
  set_accrued_reward user 0 ;;;
  publish [VSym "emg_wdraw"; VAddr user]
    [VInt amount_returned; VInt rewards_forfeited; VInt (sequence env)] ;;;
  ret amount_returned.

Definition add_yield (admin_addr : Address) (amount : Z) : M VaultError.t unit :=
  require_admin_as env admin_addr ;;;
  require_auth env admin_addr ;;;
  require_admin env ;;;
  require_not_paused env ;;;
  fail_if (amount <=? 0) VaultError.ZeroAmount ;;;
  let! token_addr := token_address in
  let! amount := pull_tokens env token_addr admin_addr amount in
  let& total_deposited := get_total_deposited in
  let! new_deposited := ok_or (checked_add total_deposited amount) VaultError.ArithmeticError in
  set_total_deposited new_deposited ;;;
  let! admin_actual := get_admin in
  publish [VSym "yield_add"; VAddr admin_actual] [VInt amount; VInt (sequence env)] ;;;
  publish [VSym "adm_act"; VAddr admin_actual; VVec [VSym "AddYield"]]
    [VAddr admin_actual; VInt (sequence env); VInt amount] ;;;
  increment_admin_action_count.

(** ** Queue processing *)

Definition enable_withdrawal_queue (admin : Address) (enabled : bool) : M VaultError.t unit :=
  require_auth env admin ;;;
  require_admin env ;;;
  put WqEnabled enabled.

(** The loop works on a local copy of the queue; [n] bounds the rounds left. *)
Fixpoint process_loop (n : nat) (q : list QueueEntry) : M VaultError.t (list QueueEntry) :=
  match n, q with
  | S n, entry :: rest =>
      let! r := catch (do_unstake (qe_user entry) (qe_shares entry)) in
      match r with
      | inl _ =>
          publish [VSym "wq_proc"] [VAddr (qe_user entry); VInt (qe_shares entry)] ;;;
          process_loop n rest
      | inr _ => ret q
      end
  | _, _ => ret q
  end.

Definition process_withdrawal_queue (admin : Address) (max_entries : Z) : M VaultError.t unit :=
  require_auth env admin ;;;
  require_admin env ;;;
  let& q := get_queue in
  let! q := process_loop (Z.to_nat max_entries) q in
  put WqQueue q.

Fixpoint get_queue_position_from (i : Z) (q : list QueueEntry) (user : Address) : option Z :=
  match q with
  | [] => None
  | e :: q => if decide (qe_user e = user) then Some i else get_queue_position_from (i + 1) q user
  end.
Definition get_queue_position (user : Address) s : option Z :=
  get_queue_position_from 0 (get_queue s) user.

(** ** Withdrawal cooldown *)

Definition get_cooldown_ledgers s : Z := default 0 (rd CooldownLedgers s).
Definition get_request (user : Address) s : option WithdrawalRequest := rd (WithdrawalReq user) s.

Definition set_withdrawal_cooldown (admin : Address) (cooldown_ledgers : Z) : M VaultError.t unit :=
  require_auth env admin ;;;
  let! stored := get_admin in
  fail_if (negb (bool_decide (admin = stored))) VaultError.Unauthorized ;;;
  put CooldownLedgers cooldown_ledgers ;;;
  publish [VSym "wd_cd_s"] [VInt cooldown_ledgers].

Definition request_withdrawal (user : Address) (shares : Z) : M VaultError.t unit :=
  require_auth env user ;;;
  fail_if (shares <=? 0) VaultError.ZeroAmount ;;;
  let& current_shares := get_shares user in
  fail_if (current_shares <? shares) VaultError.InsufficientShares ;;;
  let! rest := plain (checked_sub current_shares shares) in
  set_shares env user rest ;;;
  put (WithdrawalReq user) (mkWithdrawalRequest shares (sequence env)) ;;;
  publish [VSym "wd_req_e"] [VAddr user; VInt shares].

Definition execute_withdrawal (user : Address) : M VaultError.t Z :=
  require_auth env user ;;;
  let& stored := get_request user in
  let! req := ok_or stored VaultError.PositionNotFound in
  let& cooldown := get_cooldown_ledgers in
  let now := sequence env in
  fail_if ((0 <? cooldown) && negb (duration_elapsed now (wr_requested_at_ledger req) cooldown))
    VaultError.UseCooldownFlow ;;;
  del (WithdrawalReq user) ;;;
  let& current := get_shares user in
  let! back := plain (checked_add current (wr_shares req)) in
  set_shares env user back ;;;
  do_unstake user (wr_shares req).

(** ** Tokenized positions *)

Definition nft_owners s : gmap Z Address := default ∅ (rd NftOwners s).
Definition nft_balances s : gmap Z Z := default ∅ (rd NftBalances s).

Definition tokenize_position (user : Address) : M VaultFeature5Error.t Z :=
  require_auth env user ;;;
  let& shares := get_shares user in
  fail_if (shares <=? 0) VaultFeature5Error.NoSharesToTokenize ;;;
  set_shares env user 0 ;;;
  let& stored_id := rd NextNftId in
  let token_id := default 1 stored_id in
  let! next := plain (to_u32 (token_id + 1)) in
  put NextNftId next ;;;
  let& owns := nft_owners in
  put NftOwners (<[token_id := user]> owns) ;;;
  let& bals := nft_balances in
  put NftBalances (<[token_id := shares]> bals) ;;;
  publish [VSym "tok_pos"] [VAddr user; VInt token_id; VInt shares] ;;;
  ret token_id.

Definition redeem_position_nft (user : Address) (token_id : Z) : M VaultFeature5Error.t unit :=
  require_auth env user ;;;
  let& owns := nft_owners in
  fail_if (negb (bool_decide (owns !! token_id = Some user))) VaultFeature5Error.NotNftOwner ;;;
  let& bals := nft_balances in
  let shares := default 0 (bals !! token_id) in
  put NftOwners (delete token_id owns) ;;;
  put NftBalances (delete token_id bals) ;;;
  let& current := get_shares user in
  let! back := plain (checked_add current shares) in
  set_shares env user back ;;;
  publish [VSym "nft_redeem"] [VAddr user; VInt token_id; VInt shares].

End Vault.
