(* ===== verification/ClaimFees.v ===== *)
(** * What is taken out of a claim, and the reward audit trail

    The claim fee ([claim_fee.rs]) with its recycled part ([fee_recycle.rs]),
    the voluntary bug-bounty contribution ([stake_funded_bug_bounty.rs] and
    its entrypoints in [vault.rs]), the append-only audit trail of reward
    movements ([reward_token_audit_trail.rs]), the claim receipts
    ([claim_receipts.rs]) and the value log of a position
    ([position_value_appreciation_log.rs]). *)

From S2P Require Import Prelude Errors Storage Host Accessors Admin RewardMath Pause Limits.

Definition MAX_CLAIM_FEE_BPS : Z := 500.
Definition MAX_FEE_RECYCLE_BPS : Z := 10000.
Definition MAX_BUG_BOUNTY_BPS : Z := 1000.
Definition BUG_BOUNTY_DESCRIPTION_HASH_LEN : nat := 32.
Definition MAX_TRIGGERED_BY_LEN : nat := 128.
Definition AUDIT_PAGE_SIZE : Z := 100.
Definition MAX_SNAPSHOT_ENTRIES : nat := 52.

Definition u64_max : Z := 2 ^ 64 - 1.
Definition u64_sat_add (a b : Z) : Z := Z.min (a + b) u64_max.

Section ClaimFees.
Context {W : World} (env : Env).
Implicit Types s : State.

(** ** Fee recycling *)

Definition get_fee_recycle_bps_internal s : Z := default 0 (rd FeeRecycleBps s).

Definition recycle_fee (fee : Z) : M VaultError.t Z :=
  let& bps := get_fee_recycle_bps_internal in
  if (bps =? 0) || (fee <=? 0) then ret 0
  else
    let! recycled := ok_or (match checked_mul fee bps with
                            | Some value => checked_div value BPS
                            | None => None
                            end) VaultError.ArithmeticError in
    if recycled <=? 0 then ret 0
    else
      let& pool := get_reward_pool_balance in
      let! new_pool_balance := ok_or (checked_add pool recycled) VaultError.ArithmeticError in
      set_reward_pool_balance new_pool_balance ;;;
      publish [VSym "fees_recycled"] [VInt recycled; VInt new_pool_balance] ;;;
      ret recycled.

Definition set_fee_recycle_bps (admin : Address) (bps : Z) : M VaultError.t unit :=
  require_admin_as env admin ;;;
  fail_if (MAX_FEE_RECYCLE_BPS <? bps) VaultError.InvalidRate ;;;
  put FeeRecycleBps bps ;;;
  publish [VSym "frc_set"] [VInt bps; VInt (sequence env)].

Definition preview_fee_recycle (fee : Z) s : Z * Z :=
  if fee <=? 0 then (0, 0)
  else
    let bps := get_fee_recycle_bps_internal s in
    if bps =? 0 then (0, fee)
    else
      let recycled := default 0 (match checked_mul fee bps with
                                 | Some value => checked_div value BPS
                                 | None => None
                                 end) in
      let recycled := Z.max 0 (Z.min fee recycled) in
      (recycled, fee - recycled).

(** ** The claim fee *)

Definition get_claim_fee_bps_internal s : Z := default 0 (rd ClaimFeeBps s).
Definition get_claim_fee_reserve_internal s : Z := default 0 (rd ClaimFeeReserve s).
Definition set_claim_fee_reserve {E} (amount : Z) : M E unit := put ClaimFeeReserve amount.
(** [withdraw_only_mode::is_active]. *)
Definition is_active s : bool := default false (rd WithdrawOnly s).

Definition set_claim_fee_bps (admin_addr : Address) (fee_bps : Z) : M VaultError.t unit :=
  require_auth env admin_addr ;;;
  let! stored := get_admin in
  fail_if (negb (bool_decide (admin_addr = stored))) VaultError.Unauthorized ;;;
  fail_if (MAX_CLAIM_FEE_BPS <? fee_bps) VaultError.UnstakeFeeTooHigh ;;;
  put ClaimFeeBps fee_bps.

Definition apply_claim_fee (user : Address) (reward_before_fee : Z) : M VaultError.t Z :=
  let& fee_bps := get_claim_fee_bps_internal in
  let& withdraw_only := is_active in
  if (fee_bps =? 0) || (reward_before_fee <=? 0) || withdraw_only then ret reward_before_fee
  else
    let! x := ok_or (checked_mul reward_before_fee fee_bps) VaultError.ArithmeticError in
    let! fee_amount := ok_or (checked_div x BPS) VaultError.ArithmeticError in
    if fee_amount =? 0 then ret reward_before_fee
    else
      let! user_received := ok_or (checked_sub reward_before_fee fee_amount)
                              VaultError.ArithmeticError in
      let! recycled := recycle_fee fee_amount in
      let! recyclable_fee := ok_or (checked_sub fee_amount recycled) VaultError.ArithmeticError in
      let& old_reserve := get_claim_fee_reserve_internal in
      let! reserve := ok_or (checked_add old_reserve recyclable_fee) VaultError.ArithmeticError in
      set_claim_fee_reserve reserve ;;;
      publish [VSym "claim_fee_collected"]
        [VAddr user; VInt reward_before_fee; VInt fee_amount; VInt user_received;
         VInt (sequence env)] ;;;
      ret user_received.

Definition withdraw_claim_fees (admin_addr : Address) (amount : Z) : M VaultError.t unit :=
  require_auth env admin_addr ;;;
  let! stored := get_admin in
  fail_if (negb (bool_decide (admin_addr = stored))) VaultError.Unauthorized ;;;
  fail_if (amount <=? 0) VaultError.ZeroAmount ;;;
  let& reserve := get_claim_fee_reserve_internal in
  fail_if (reserve <? amount) VaultError.InsufficientRewardPool ;;;
  let& token := rd Token in
  let! token_addr := ok_or token VaultError.NotInitialized in
  transfer token_addr (self env) admin_addr amount ;;;
  let! rest := plain (checked_sub reserve amount) in
  set_claim_fee_reserve rest ;;;
  publish [VSym "claim_fees_withdrawn"] [VAddr admin_addr; VInt amount; VInt (sequence env)].

(** ** The audit trail *)

Definition get_audit_log_count s : Z := default 0 (rd AuditCount s).
(** [(total_paid, total_burned, total_withdrawn, total_topped_up)]. *)
Definition get_audit_log_summary s : Z * Z * Z * Z := default (0, 0, 0, 0) (rd AuditSummary s).
Definition get_audit_log_page (page : Z) s : list RewardTokenMovement :=
  default [] (rd (AuditPage page) s).

(** The page a movement goes to; the cast to [u32] truncates. *)
Definition audit_page_of (movement_id : Z) : Z := ((movement_id - 1) / AUDIT_PAGE_SIZE) mod 2 ^ 32.

Definition summary_with (movement_type : MovementType) (amount : Z) (t : Z * Z * Z * Z)
    : Z * Z * Z * Z :=
  let '(total_paid, total_burned, total_withdrawn, total_topped_up) := t in
  match movement_type with
  | RewardPaid | DeferredClaim => (sat_add total_paid amount, total_burned, total_withdrawn, total_topped_up)
  | BuybackBurn => (total_paid, sat_add total_burned amount, total_withdrawn, total_topped_up)
  | TreasuryWithdraw => (total_paid, total_burned, sat_add total_withdrawn amount, total_topped_up)
  | ReserveTopUp => (total_paid, total_burned, total_withdrawn, sat_add total_topped_up amount)
  | InsurancePayout | MutualInsurance => t
  end.

Definition log_reward_movement {E} (movement_type : MovementType) (from to : Address) (amount : Z)
    (triggered_by : string) : M E Z :=
  let& current_count := get_audit_log_count in
  let movement_id := u64_sat_add current_count 1 in
  let page := audit_page_of movement_id in
  let& page_entries := get_audit_log_page page in
  put (AuditPage page)
    (page_entries ++ [mkMovement movement_id movement_type from to amount triggered_by (sequence env)]) ;;;
  put AuditCount movement_id ;;;
  let& summary := get_audit_log_summary in
  put AuditSummary (summary_with movement_type amount summary) ;;;
  ret movement_id.

(** [VaultContract::log_reward_movement], the admin's entrypoint. *)
Definition admin_log_reward_movement (movement_type : MovementType) (from to : Address) (amount : Z)
    (triggered_by : string) : M VaultError.t Z :=
  require_admin env ;;;
  fail_if (MAX_TRIGGERED_BY_LEN <? String.length triggered_by)%nat VaultError.DescriptionTooLong ;;;
  log_reward_movement movement_type from to amount triggered_by.

(** [VaultContract::get_audit_log_page]. *)
Definition admin_get_audit_log_page (page : Z) : M VaultError.t (list RewardTokenMovement) :=
  require_admin env ;;;
  let& entries := get_audit_log_page page in
  ret entries.

(** ** The bug bounty *)

Definition get_contribution_bps (user : Address) s : Z := default 0 (rd (BbContribution user) s).
Definition set_contribution_bps {E} (user : Address) (bps : Z) : M E unit := put (BbContribution user) bps.
Definition get_fund_balance s : Z := default 0 (rd BbFund s).
Definition set_fund_balance {E} (balance : Z) : M E unit := put BbFund balance.

Definition deduct_bounty_contribution {E} (user : Address) (reward : Z) : M E Z :=
  if reward <=? 0 then ret 0
  else
    let& bps := get_contribution_bps user in
    if bps =? 0 then ret 0
    else
      let contribution := Z.quot (sat_mul reward bps) BPS in
      if contribution <=? 0 then ret 0
      else
        let& current_fund := get_fund_balance in
        let new_fund := sat_add current_fund contribution in
        set_fund_balance new_fund ;;;
        publish [VSym "bb_cnt"; VAddr user] [VInt contribution; VInt new_fund; VInt (sequence env)] ;;;
        ret contribution.

Definition set_bug_bounty_contribution_bps (user : Address) (bps : Z) : M VaultError.t unit :=
  require_auth env user ;;;
  fail_if (MAX_BUG_BOUNTY_BPS <? bps) VaultError.InvalidRate ;;;
  set_contribution_bps user bps.

Definition hash_val (h : list Byte.byte) : val := VVec (map (fun b => VInt (Z.of_N (Byte.to_N b))) h).

Definition pay_bug_bounty (admin reporter : Address) (amount : Z) (description_hash : list Byte.byte)
    : M VaultError.t unit :=
  let! stored_admin := get_admin in
  fail_if (negb (bool_decide (admin = stored_admin))) VaultError.Unauthorized ;;;
  require_auth env admin ;;;
  fail_if (amount <=? 0) VaultError.ZeroAmount ;;;
  fail_if (negb (length description_hash =? BUG_BOUNTY_DESCRIPTION_HASH_LEN)%nat)
    VaultError.InvalidHashLength ;;;
  let& current_fund := get_fund_balance in
  fail_if (current_fund <? amount) VaultError.InsufficientRewardPool ;;;
  let new_fund := sat_sub current_fund amount in
  set_fund_balance new_fund ;;;
  let& token := rd Token in
  let! token_addr := ok_or token VaultError.NotInitialized in
  transfer token_addr (self env) reporter amount ;;;
  log_reward_movement InsurancePayout (self env) reporter amount "pay_bug_bounty" ;;;
  publish [VSym "bb_paid"; VAddr reporter]
    [VInt amount; hash_val description_hash; VInt new_fund; VInt (sequence env)].

(** ** Claim receipts *)

Definition get_count (user : Address) s : Z := default 0 (rd (ClaimCount user) s).
Definition set_count {E} (user : Address) (count : Z) : M E unit := put (ClaimCount user) count.

Definition record_receipt {E} (user : Address) (amount : Z) (reward_token destination : Address)
    : M E Z :=
  let& count := get_count user in
  let claim_id := u32_sat_add count 1 in
  set_count user claim_id ;;;
  publish [VSym "clm_rcpt"; VAddr user]
    [VInt claim_id; VInt amount; VAddr reward_token; VInt (sequence env); VAddr destination] ;;;
  ret claim_id.

(** ** The value log *)

Definition get_appreciation_log (user : Address) s : list ValueSnapshot := default [] (rd (ValApp user) s).
Definition set_appreciation_log {E} (user : Address) (log : list ValueSnapshot) : M E unit :=
  put (ValApp user) log.

(** [(now - before) * BPS / before] in saturating arithmetic. *)
Definition appreciation_bps (before now : Z) : Z :=
  if 0 <? before then Z.quot (sat_mul (sat_sub now before) BPS) before else 0.

Definition take_value_snapshot_inner {E} (user : Address) : M E ValueSnapshot :=
  let& principal := get_shares user in
  let& pending_reward := get_accrued_reward user in
  let total_value := sat_add principal pending_reward in
  let& log := get_appreciation_log user in
  let appreciation := match last log with
                      | Some l => appreciation_bps (vs_total_value l) total_value
                      | None => 0
                      end in
  let snapshot := mkValueSnapshot principal pending_reward total_value appreciation (sequence env) in
  let log := if (MAX_SNAPSHOT_ENTRIES <=? length log)%nat then drop 1 log else log in
  set_appreciation_log user (log ++ [snapshot]) ;;;
  publish [VSym "snap_tkn"; VAddr user] [VInt total_value; VInt appreciation; VInt (sequence env)] ;;;
  ret snapshot.

Definition maybe_auto_snapshot {E} (user : Address) : M E unit :=
  let& log := get_appreciation_log user in
  let should_snapshot := match last log with
                         | None => true
                         | Some l => LEDGERS_PER_DAY * 7 <=? u32_sat_sub (sequence env) (vs_snapshot_at l)
                         end in
  if should_snapshot then take_value_snapshot_inner user ;;; ret tt else ret tt.

Definition calculate_total_appreciation_bps (user : Address) s : Z :=
  let log := get_appreciation_log user s in
  match log, last log with
  | first :: _ :: _, Some latest => appreciation_bps (vs_total_value first) (vs_total_value latest)
  | _, _ => 0
  end.

End ClaimFees.
