(* ===== verification/Peg.v ===== *)
(** * Peg stabilization ([peg_stabilization.rs])

    A price oracle is compared with the configured band: below it the vault
    buys reward tokens back, above it emissions are halted until the price is
    inside the band again.  The oracle and the DEX router are external
    contracts of [World]; what they answer and do is arbitrary. *)

From S2P Require Import Prelude Errors Storage Host Accessors Admin RewardMath Limits.

Section Peg.
Context {W : World} (env : Env).
Implicit Types s : State.

(** A generated client's call returning an [i128]: it traps when the callee
    fails or returns something else. *)
Definition call_i128 {E} (c : Address) (fn : string) (args : list val) : M E Z :=
  let! r := try_call c fn args in
  match r with
  | Some (VInt z) => ret z
  | _ => panic TUnwrap
  end.

Definition emissions_halted s : bool := default false (rd PegHalted s).
Definition set_emissions_halted {E} (halted : bool) : M E unit := put PegHalted halted.
Definition get_peg_config s : option PegConfig := rd PegCfg s.
Definition get_max_buyback_per_check s : Z := default 0 (rd PegMaxBuy s).
Definition get_dex_router s : option Address := rd DexRouter s.

Definition validate_config (config : PegConfig) : M VaultError.t unit :=
  fail_if (pg_target_price config <=? 0) VaultError.ZeroAmount ;;;
  fail_if ((pg_lower_band_bps config =? 0) || (pg_upper_band_bps config =? 0)
           || (BPS <? pg_lower_band_bps config) || (BPS <? pg_upper_band_bps config))
    VaultError.InvalidRate.

(** [target * scale / 10000], with [scale] the band's edge in basis points. *)
Definition band_edge (config : PegConfig) (scale : Z) : option Z :=
  match checked_mul (pg_target_price config) scale with
  | Some v => checked_div v BPS
  | None => None
  end.
Definition lower_bound (config : PegConfig) : M VaultError.t Z :=
  ok_or (band_edge config (sat_sub BPS (pg_lower_band_bps config))) VaultError.ArithmeticError.
Definition upper_bound (config : PegConfig) : M VaultError.t Z :=
  ok_or (band_edge config (sat_add BPS (pg_upper_band_bps config))) VaultError.ArithmeticError.

Definition execute_buyback (spend_amount : Z) : M VaultError.t Z :=
  if spend_amount <=? 0 then ret 0
  else
    let! stake_token := token_address in
    let& configured := get_reward_token in
    let reward_token := default stake_token configured in
    if bool_decide (stake_token = reward_token) then ret spend_amount
    else
      let& router := get_dex_router in
      let! router_address := ok_or router VaultError.NotYieldSource in
      call_i128 router_address "swap"
        [VAddr stake_token; VAddr reward_token; VInt spend_amount; VInt 1; VAddr (self env)].

Definition set_peg_config (admin_addr : Address) (config : PegConfig) : M VaultError.t unit :=
  require_auth env admin_addr ;;;
  let! stored := get_admin in
  fail_if (negb (bool_decide (admin_addr = stored))) VaultError.Unauthorized ;;;
  validate_config config ;;;
  put PegCfg config.

Definition set_max_buyback_per_check (admin_addr : Address) (amount : Z) : M VaultError.t unit :=
  require_auth env admin_addr ;;;
  let! stored := get_admin in
  fail_if (negb (bool_decide (admin_addr = stored))) VaultError.Unauthorized ;;;
  fail_if (amount <=? 0) VaultError.ZeroAmount ;;;
  put PegMaxBuy amount.

(** What one check spends when the price is below the band. *)
Definition buyback_amount (max_buyback available : Z) : Z :=
  if (0 <? max_buyback) && (max_buyback <? available) then max_buyback else available.

Definition check_peg : M VaultError.t unit :=
  let& stored := get_peg_config in
  let! config := ok_or stored VaultError.NotInitialized in
  let! price := call_i128 (pg_oracle config) "get_price" [VStr (pg_asset_id config)] in
  let! lower := lower_bound config in
  if price <? lower then
    let& available := get_reward_pool_balance in
    let& max_buyback := get_max_buyback_per_check in
    let amount_to_spend := buyback_amount max_buyback available in
    (if 0 <? amount_to_spend then
       execute_buyback amount_to_spend ;;;
       set_reward_pool_balance (sat_sub available amount_to_spend)
     else ret tt) ;;;
    publish [VSym "peg_buyback_triggered"]
      [VInt price; VInt (pg_target_price config); VInt amount_to_spend; VInt (sequence env)]
  else
    let! upper := upper_bound config in
    let& halted := emissions_halted in
    if upper <? price then
      (if negb halted then
         set_emissions_halted true ;;;
         publish [VSym "emissions_halted_by_peg"]
           [VInt price; VInt (pg_target_price config); VInt (sequence env)]
       else ret tt)
    else if halted then
      set_emissions_halted false ;;;
      publish [VSym "emissions_restored_by_peg"]
        [VInt price; VInt (pg_target_price config); VInt (sequence env)]
    else ret tt.

End Peg.
