(* ===== verification/Claims.v ===== *)
(** * Claiming rewards ([vault.rs])

    [do_claim] and the entrypoints in front of it: [claim], [claim_partial],
    [stake_and_claim], [claim_for_user], [claim_on_behalf] and
    [claim_in_token]; the gas-rebate pool; the queue of large claims
    ([mev_claim_protection.rs]).

    [vault.rs] declares [do_claim] and [check_claim_rate_limit] twice.  The
    definitions modelled are [do_claim] of line 13646, which pays in the reward
    token as the entrypoints document, and the empty [check_claim_rate_limit]
    of line 3407, which [claim]'s documentation describes.

    The delay of a queued claim is drawn from the host's generator
    ([env.prng()]): a parameter of the section. *)

From S2P Require Import Prelude Errors Storage Host Accessors Admin RewardMath Notify Mirror Limits.
From S2P Require Import Vault ClaimFees Peg.

Definition MIN_DELAY_LEDGERS : Z := 1.
Definition MAX_DELAY_LEDGERS : Z := 10.

Section Claims.
Context {W : World} (env : Env) (gen_range : Z -> Z -> State -> Z).
Implicit Types s : State.

Definition reward_token_address : M VaultError.t Address :=
  let& reward_token := get_reward_token in
  match reward_token with
  | Some a => ret a
  | None => token_address
  end.

(** [ReentrancyGuard]: taken on entry, dropped on every way out of the body. *)
Definition guarded {A} (body : M VaultError.t A) : M VaultError.t A :=
  let& entered := rd Reentrancy in
  fail_if (default false entered) VaultError.Unauthorized ;;;
  put Reentrancy true ;;;
  let! r := catch body in
  del Reentrancy ;;;
  match r with
  | inl a => ret a
  | inr e => throw e
  end.

Definition claimed {E} (user : Address) (reward : Z) : M E unit :=
  publish [VSym "claimed"; VAddr user] [VInt reward; VInt (sequence env)].

(** ** The gas rebate *)

Definition gas_rebate_pool s : Z := default 0 (rd GasRebatePool s).
Definition set_gas_rebate_pool {E} (amount : Z) : M E unit := put GasRebatePool amount.
Definition get_gas_rebate_amount s : Z := default 0 (rd GasRebateAmount s).

Definition fund_gas_rebate_pool (admin : Address) (amount : Z) : M VaultError.t unit :=
  require_auth env admin ;;;
  let! stored := get_admin in
  fail_if (negb (bool_decide (admin = stored))) VaultError.Unauthorized ;;;
  fail_if (amount <=? 0) VaultError.ZeroAmount ;;;
  let! token_addr := token_address in
  let! amount := pull_tokens env token_addr admin amount in
  let& pool := gas_rebate_pool in
  let! new_pool := plain (checked_add pool amount) in
  set_gas_rebate_pool new_pool.

Definition set_gas_rebate_amount (admin : Address) (amount : Z) : M VaultError.t unit :=
  require_auth env admin ;;;
  let! stored := get_admin in
  fail_if (negb (bool_decide (admin = stored))) VaultError.Unauthorized ;;;
  fail_if (amount <? 0) VaultError.ZeroAmount ;;;
  put GasRebateAmount amount.

(** The rebate part of [do_claim]. *)
Definition pay_gas_rebate {E} (token_addr staker : Address) : M E unit :=
  let& rebate_amount := get_gas_rebate_amount in
  if 0 <? rebate_amount then
    let& rebate_pool := gas_rebate_pool in
    if rebate_amount <=? rebate_pool then
      let! rest := plain (checked_sub rebate_pool rebate_amount) in
      set_gas_rebate_pool rest ;;;
      transfer token_addr (self env) staker rebate_amount ;;;
      publish [VSym "gas_rbt"; VAddr staker] [VInt rebate_amount; VInt (sequence env)]
    else ret tt
  else ret tt.

(** ** The claim *)

(** What the claimer is paid out of [gross], after the bounty contribution, the
    claim fee and the leader's performance fee, each booked or paid. *)
Definition net_of_deductions (staker : Address) (gross : Z) : M VaultError.t Z :=
  let! bounty_contribution := deduct_bounty_contribution env staker gross in
  let reward_after_bounty := sat_sub gross bounty_contribution in
  let! after_fee := apply_claim_fee env staker reward_after_bounty in
  apply_mirror_perf_fee env staker after_fee.

Definition pay_reward {E} (reward_token_addr staker : Address) (user_payout : Z) : M E unit :=
  if 0 <? user_payout then transfer reward_token_addr (self env) staker user_payout else ret tt.

Definition do_claim (staker : Address) : M VaultError.t Z :=
  let& accrued := get_accrued_reward staker in
  if accrued =? 0 then ret 0
  else
    let& halted := emissions_halted in
    if halted then ret 0
    else
      let! reward_token_addr := reward_token_address in
      let! token_addr := token_address in
      set_accrued_reward staker 0 ;;;
      let& total_paid := get_total_rewards_paid in
      let! new_total_paid := plain (checked_add total_paid accrued) in
      set_total_rewards_paid new_total_paid ;;;
      let! user_payout := net_of_deductions staker accrued in
      pay_reward reward_token_addr staker user_payout ;;;
      pay_gas_rebate token_addr staker ;;;
      log_reward_movement env RewardPaid (self env) staker user_payout "claim" ;;;
      maybe_auto_snapshot env staker ;;;
      claimed staker user_payout ;;;
      record_receipt env staker user_payout reward_token_addr staker ;;;
      check_and_emit_low_balance env ;;;
      ret user_payout.

(** ** Large claims wait ([mev_claim_protection.rs]) *)

Definition get_mev_protection_threshold s : Z := default 0 (rd MevThreshold s).
Definition get_pending_claim (user : Address) s : option PendingClaim := rd (PendingClaimOf user) s.

Definition set_mev_protection_threshold (admin_addr : Address) (amount : Z) : M VaultError.t unit :=
  require_auth env admin_addr ;;;
  let! stored_admin := get_admin in
  fail_if (negb (bool_decide (admin_addr = stored_admin))) VaultError.Unauthorized ;;;
  fail_if (amount <? 0) VaultError.ZeroAmount ;;;
  put MevThreshold amount.

Definition maybe_queue_large_claim (user : Address) : M VaultError.t bool :=
  let& threshold := get_mev_protection_threshold in
  if threshold <=? 0 then ret false
  else
    let& amount := get_accrued_reward user in
    if amount <? threshold then ret false
    else
      let& queued := get_pending_claim user in
      fail_if (match queued with Some _ => true | None => false end) VaultError.AlreadyInitialized ;;;
      let& delay := gen_range MIN_DELAY_LEDGERS MAX_DELAY_LEDGERS in
      let current_ledger := sequence env in
      let! executable_at := ok_or (to_u32 (current_ledger + delay)) VaultError.ArithmeticError in
      put (PendingClaimOf user) (mkPendingClaim amount executable_at) ;;;
      put (PendingDelayOf user) delay ;;;
      set_accrued_reward user 0 ;;;
      publish [VSym "claim_queued"; VAddr user] [VInt amount; VInt executable_at; VInt current_ledger] ;;;
      ret true.

Definition execute_pending_claim (user : Address) : M VaultError.t Z :=
  require_auth env user ;;;
  let& stored := get_pending_claim user in
  let! pending := ok_or stored VaultError.PositionNotFound in
  let current_ledger := sequence env in
  fail_if (current_ledger <? pc_executable_at pending) VaultError.EpochNotFinalized ;;;
  let& token := rd Token in
  let! token_addr := ok_or token VaultError.NotInitialized in
  transfer token_addr (self env) user (pc_amount pending) ;;;
  del (PendingClaimOf user) ;;;
  let& delay := rd (PendingDelayOf user) in
  let delay_used := default 0 delay in
  del (PendingDelayOf user) ;;;
  let& total_paid := get_total_rewards_paid in
  let! new_total_paid := plain (checked_add total_paid (pc_amount pending)) in
  set_total_rewards_paid new_total_paid ;;;
  log_reward_movement env RewardPaid (self env) user (pc_amount pending) "execute_pending_claim" ;;;
  claimed user (pc_amount pending) ;;;
  publish [VSym "claim_executed"; VAddr user]
    [VInt (pc_amount pending); VInt delay_used; VInt current_ledger] ;;;
  ret (pc_amount pending).

Definition cancel_pending_claim (user : Address) : M VaultError.t unit :=
  require_auth env user ;;;
  let& stored := get_pending_claim user in
  let! pending := ok_or stored VaultError.PositionNotFound in
  let& accrued := get_accrued_reward user in
  let! restored := ok_or (checked_add accrued (pc_amount pending)) VaultError.ArithmeticError in
  set_accrued_reward user restored ;;;
  del (PendingClaimOf user) ;;;
  del (PendingDelayOf user).

(** ** Entrypoints *)

(** The empty hook in front of explicit claims. *)
Definition check_claim_rate_limit {E} (user : Address) : M E unit := ret tt.

(** The body [claim] and [claim_for_user] share. *)
Definition queue_or_claim (staker : Address) : M VaultError.t Z :=
  let! queued := maybe_queue_large_claim staker in
  if queued then
    set_last_claim_action_ledger staker (sequence env) ;;;
    ret 0
  else
    let! result := do_claim staker in
    set_last_claim_action_ledger staker (sequence env) ;;;
    ret result.

Definition claim (staker : Address) : M VaultError.t Z :=
  guarded (
    require_auth env staker ;;;
    touch env staker ;;;
    check_claim_rate_limit staker ;;;
    queue_or_claim staker).

Definition claim_for_user (user : Address) : M VaultError.t Z :=
  guarded (
    check_claim_rate_limit user ;;;
    queue_or_claim user).

(** [claim_partial] past its guards: [amount] of the [pending] reward is paid. *)
Definition pay_part (staker : Address) (pending amount : Z) : M VaultError.t Z :=
  let! rest := ok_or (checked_sub pending amount) VaultError.ArithmeticError in
  set_accrued_reward staker rest ;;;
  let& total_paid := get_total_rewards_paid in
  let! new_total_paid := ok_or (checked_add total_paid amount) VaultError.ArithmeticError in
  set_total_rewards_paid new_total_paid ;;;
  let! user_payout := net_of_deductions staker amount in
  let! reward_token_addr := reward_token_address in
  pay_reward reward_token_addr staker user_payout ;;;
  log_reward_movement env RewardPaid (self env) staker user_payout "claim_partial" ;;;
  claimed staker user_payout ;;;
  record_receipt env staker user_payout reward_token_addr staker ;;;
  set_last_claim_action_ledger staker (sequence env) ;;;
  ret user_payout.

Definition claim_partial (staker : Address) (amount : Z) : M VaultError.t Z :=
  guarded (
    require_auth env staker ;;;
    touch env staker ;;;
    check_claim_rate_limit staker ;;;
    fail_if (amount <=? 0) VaultError.ZeroAmount ;;;
    let& halted := emissions_halted in
    if halted then ret 0
    else
      let& pending := get_accrued_reward staker in
      fail_if (pending <? amount) VaultError.InsufficientRewardPool ;;;
      pay_part staker pending amount).

Definition stake_and_claim (user : Address) (amount : Z) : M VaultError.t Z :=
  require_auth env user ;;;
  let! claimed_amount := do_claim user in
  do_stake_inner env user amount 0 ;;;
  ret claimed_amount.

Definition get_approved_relayer (user : Address) s : option Address := rd (ApprovedRelayer user) s.

Definition approve_relayer {E} (user relayer : Address) : M E unit :=
  require_auth env user ;;;
  put (ApprovedRelayer user) relayer ;;;
  publish [VSym "rlyr_set"; VAddr user] [VAddr relayer; VInt (sequence env)].

Definition revoke_relayer {E} (user relayer : Address) : M E unit :=
  require_auth env user ;;;
  let& existing := get_approved_relayer user in
  match existing with
  | Some e =>
      if bool_decide (e = relayer) then
        del (ApprovedRelayer user) ;;;
        publish [VSym "rlyr_rev"; VAddr user] [VAddr relayer; VInt (sequence env)]
      else ret tt
  | None => ret tt
  end.

Definition is_approved_relayer (user relayer : Address) s : bool :=
  match get_approved_relayer user s with
  | Some existing => bool_decide (existing = relayer)
  | None => false
  end.

Definition claim_on_behalf (relayer user : Address) : M VaultError.t Z :=
  require_auth env relayer ;;;
  let& approved := is_approved_relayer user relayer in
  fail_if (negb approved) VaultError.RelayerNotApproved ;;;
  let! reward := do_claim user in
  publish [VSym "claimed"; VAddr user] [VInt reward; VAddr relayer; VInt (sequence env)] ;;;
  ret reward.

Definition get_output_tokens s : list Address := default [] (rd OutputTokens s).

Definition reward_claimed_in_token {E} (user : Address) (reward_amount : Z) (output_token : Address)
    (output_amount : Z) : M E unit :=
  publish [VSym "rw_in_tok"; VAddr user]
    [VInt reward_amount; VAddr output_token; VInt output_amount; VInt (sequence env)].

Definition claim_in_token (user output_token : Address) (min_output : Z) : M VaultExtError.t Z :=
  require_auth env user ;;;
  let! stake_token := try_ token_address in
  let& configured := get_reward_token in
  let reward_token := default stake_token configured in
  let& listed := get_output_tokens in
  fail_if (negb (bool_decide (output_token = reward_token)) && negb (bool_decide (output_token ∈ listed)))
    VaultExtError.UnsupportedInputToken ;;;
  let! reward_amount := try_ (do_claim user) in
  if bool_decide (output_token = reward_token) then
    fail_if ((0 <? min_output) && (reward_amount <? min_output)) VaultExtError.SlippageExceeded ;;;
    reward_claimed_in_token user reward_amount output_token reward_amount ;;;
    ret reward_amount
  else if reward_amount =? 0 then
    fail_if (0 <? min_output) VaultExtError.SlippageExceeded ;;;
    reward_claimed_in_token user 0 output_token 0 ;;;
    ret 0
  else
    let& router := get_dex_router in
    let! router_address := ok_or router VaultExtError.UnsupportedInputToken in
    transfer reward_token user (self env) reward_amount ;;;
    let! output_amount := call_i128 router_address "swap"
      [VAddr reward_token; VAddr output_token; VInt reward_amount; VInt min_output; VAddr user] in
    fail_if (output_amount <? min_output) VaultExtError.SlippageExceeded ;;;
    reward_claimed_in_token user reward_amount output_token output_amount ;;;
    ret output_amount.

End Claims.
