(* ===== verification/ClaimProofs.v ===== *)
(** * What a claim does

    A claim splits the accrued reward without remainder, appends one movement
    to the audit trail and pays a given reward once; a queued claim is paid or
    restored whole; the peg check halts and restores claims. *)

From S2P Require Import Prelude Errors Storage Host Concrete Accessors Admin RewardMath Notify Mirror Limits.
From S2P Require Import Vault ClaimFees Peg Claims.

(** ** Basis points *)

(** A part of [x] taken at [b] basis points, rounded down. *)
Lemma bps_part x b : 0 <= x -> 0 <= b <= BPS ->
  0 <= Z.quot (x * b) BPS <= x /\ BPS * Z.quot (x * b) BPS <= x * b.
Proof.
  intros Hx Hb. unfold BPS in *. rewrite quot_floor by nia.
  pose proof (Z.mul_div_le (x * b) 10000). pose proof (Z.div_pos (x * b) 10000). nia.
Qed.

(** The same with a saturating product. *)
Lemma bps_part_sat x b : 0 <= x -> 0 <= b <= BPS ->
  0 <= Z.quot (sat_mul x b) BPS <= x /\ BPS * Z.quot (sat_mul x b) BPS <= x * b.
Proof.
  intros Hx Hb. unfold sat_mul. pose proof (clamp_nonneg (x * b)) as Hc.
  unfold BPS in *. rewrite quot_floor by nia.
  pose proof (Z.mul_div_le (clamp_i128 (x * b)) 10000). pose proof (Z.div_pos (clamp_i128 (x * b)) 10000). nia.
Qed.

Lemma checked_bps x b v y :
  checked_mul x b = Some v -> checked_div v BPS = Some y -> y = Z.quot (x * b) BPS.
Proof. rewrite checked_mul_Some, checked_div_Some. naive_solver. Qed.

Section ClaimProofs.
Context {W : World} (env : Env).
Implicit Types s : State.

(** The configured percentages are within the limits their setters enforce. *)
Record fees_in_range s : Prop := {
  fr_claim : 0 <= get_claim_fee_bps_internal s <= MAX_CLAIM_FEE_BPS;
  fr_recycle : 0 <= get_fee_recycle_bps_internal s <= MAX_FEE_RECYCLE_BPS;
  fr_bounty : forall u, 0 <= get_contribution_bps u s <= MAX_BUG_BOUNTY_BPS;
  fr_leader : forall u cfg, get_mirror_config_inner u s = Some cfg ->
    0 <= mc_leader_fee_bps cfg <= MAX_LEADER_FEE_BPS
}.

(** [s'] is [s] but for the entries in [K]. *)
Definition differs_at (K : key -> Prop) s s' : Prop := forall k, ~ K k -> rd k s' = rd k s.

Lemma differs_trans K s1 s2 s3 : differs_at K s1 s2 -> differs_at K s2 s3 -> differs_at K s1 s3.
Proof. intros H1 H2 k Hk. rewrite H2, H1; auto. Qed.
Lemma differs_weaken (K K' : key -> Prop) s s' : (forall k, K k -> K' k) -> differs_at K s s' -> differs_at K' s s'.
Proof. intros HK H k Hk. apply H. auto. Qed.

(** Proves [differs_at]: [k] is none of the keys written: reads at [k] are reads of the start. *)
Ltac elsewhere :=
  let k := fresh "k" in let Hk := fresh "Hk" in unfold differs_at; intros k Hk; cbv beta in Hk;
  repeat first [ rewrite rd_emit | rewrite rd_set_ext | rewrite rd_upd_ne by (intros <-; naive_solver) ];
  try done.

(** *** The deductions, one by one *)

Lemma recycle_fee_Ok fee s r s' :
  0 <= fee -> 0 <= get_fee_recycle_bps_internal s <= BPS ->
  recycle_fee fee s = Ok r s' ->
  0 <= r <= fee /\ get_reward_pool_balance s' = get_reward_pool_balance s + r /\
  differs_at (fun k => k = KInst RewardPoolBalance) s s' /\ st_ext s' = st_ext s.
Proof.
  intros Hf Hb H. unfold recycle_fee, reading in H.
  destruct ((get_fee_recycle_bps_internal s =? 0) || (fee <=? 0)).
  { mrun H. split_and!; try done; lia. }
  apply bind_Ok in H as (x & s1 & H1 & H). apply ok_or_Ok in H1 as (H1 & ->).
  destruct (checked_mul fee _) as [v|] eqn:Hm; [|done]. pose proof (checked_bps _ _ _ _ Hm H1) as ->.
  destruct (bps_part fee _ Hf Hb) as [Hr _].
  destruct (Z.leb_spec (Z.quot (fee * get_fee_recycle_bps_internal s) BPS) 0).
  { mrun H. split_and!; try done; lia. }
  mrun H. apply checked_add_Some in H2 as [-> _]. split_and!; try lia; try done.
  elsewhere.
Qed.

Lemma deduct_bounty_Ok E u reward s r s' :
  0 <= reward -> 0 <= get_contribution_bps u s <= MAX_BUG_BOUNTY_BPS ->
  deduct_bounty_contribution (E:=E) env u reward s = Ok r s' ->
  0 <= r <= reward /\ BPS * r <= reward * MAX_BUG_BOUNTY_BPS /\
  get_fund_balance s' = (if 0 <? r then sat_add (get_fund_balance s) r else get_fund_balance s) /\
  differs_at (fun k => k = KClaim BbFund) s s' /\ st_ext s' = st_ext s.
Proof.
  intros Hf Hb H. unfold deduct_bounty_contribution, reading in H.
  destruct (Z.leb_spec reward 0); [mrun H; split_and!; try done; unfold BPS, MAX_BUG_BOUNTY_BPS; lia|].
  destruct (_ =? 0); [mrun H; split_and!; try done; unfold BPS, MAX_BUG_BOUNTY_BPS; lia|].
  cbv zeta in H. unfold MAX_BUG_BOUNTY_BPS in *.
  destruct (bps_part_sat reward (get_contribution_bps u s) Hf) as [Hr Hp]; [unfold BPS; lia|].
  destruct (Z.leb_spec (Z.quot (sat_mul reward (get_contribution_bps u s)) BPS) 0);
    [mrun H; split_and!; try done; unfold BPS in *; lia|].
  unfold set_fund_balance in H. mrun H. destruct (Z.ltb_spec 0 (Z.quot (sat_mul reward (get_contribution_bps u s)) BPS)); [|lia].
  split_and!; try lia; try done.
  - unfold BPS in *. nia.
  - elsewhere.
Qed.

Definition fee_book (k : key) : Prop := k = KInst RewardPoolBalance \/ k = KClaim ClaimFeeReserve.

Lemma apply_claim_fee_Ok u x s r s' :
  0 <= x -> fees_in_range s -> apply_claim_fee env u x s = Ok r s' ->
  exists fee recycled,
    x = r + fee /\ 0 <= recycled <= fee /\ fee <= x /\ BPS * fee <= x * MAX_CLAIM_FEE_BPS /\
    get_reward_pool_balance s' = get_reward_pool_balance s + recycled /\
    get_claim_fee_reserve_internal s' = get_claim_fee_reserve_internal s + (fee - recycled) /\
    differs_at fee_book s s' /\ st_ext s' = st_ext s.
Proof.
  intros Hx Hr H. pose proof (fr_claim _ Hr) as Hb. pose proof (fr_recycle _ Hr) as Hc.
  assert (Hnone : r = x -> s' = s -> exists fee recycled,
    x = r + fee /\ 0 <= recycled <= fee /\ fee <= x /\ BPS * fee <= x * MAX_CLAIM_FEE_BPS /\
    get_reward_pool_balance s' = get_reward_pool_balance s + recycled /\
    get_claim_fee_reserve_internal s' = get_claim_fee_reserve_internal s + (fee - recycled) /\
    differs_at fee_book s s' /\ st_ext s' = st_ext s).
  { intros -> ->. exists 0, 0. unfold MAX_CLAIM_FEE_BPS, BPS. split_and!; try done; lia. }
  unfold apply_claim_fee, reading in H. destruct (_ || _ || _); [mrun H; by apply Hnone|].
  apply bind_Ok in H as (v & s1 & H1 & H). apply ok_or_Ok in H1 as (Hm & ->).
  apply bind_Ok in H as (fee & s1 & H1 & H). apply ok_or_Ok in H1 as (Hd & ->).
  pose proof (checked_bps _ _ _ _ Hm Hd) as Hfee. unfold MAX_CLAIM_FEE_BPS, MAX_FEE_RECYCLE_BPS in *.
  destruct (bps_part x (get_claim_fee_bps_internal s) Hx) as [Hle Hp]; [unfold BPS; lia|]. rewrite <- Hfee in Hle, Hp. clear Hfee Hm Hd.
  destruct (Z.eqb_spec fee 0); [mrun H; by apply Hnone|].
  apply bind_Ok in H as (rest & s1 & H1 & H). apply ok_or_Ok in H1 as (Hs & ->).
  apply checked_sub_Some in Hs as [-> _].
  apply bind_Ok in H as (recycled & s1 & H1 & H).
  apply recycle_fee_Ok in H1 as (Hrc & Hpool & Hfr & He); [|lia|unfold BPS; lia].
  unfold set_claim_fee_reserve, reading in H. mrun H.
  apply checked_sub_Some in H0 as [-> _]. apply checked_add_Some in H1 as [-> _].
  assert (Hres : get_claim_fee_reserve_internal s1 = get_claim_fee_reserve_internal s).
  { unfold get_claim_fee_reserve_internal. by rewrite Hfr. }
  exists fee, recycled. unfold BPS in *. split_and!; try lia; try done.
  - nia.
  - rewrite <- Hres. unfold get_claim_fee_reserve_internal at 1. by rdsimp.
  - unfold fee_book. elsewhere. apply Hfr. tauto.
Qed.

(** The token rewards are paid in: the configured one, else the stake token. *)
Definition reward_token_of s : option Address :=
  match get_reward_token s with Some a => Some a | None => rd Token s end.

(** [amt] of token [t] went from the vault to [to]; nothing moves when it is 0. *)
Definition sent (t to : Address) (amt : Z) s s' : Prop :=
  (amt = 0 /\ st_ext s' = st_ext s) \/
  tok_transfer (st_ext s) t (self env) to amt = Some (st_ext s').

(** The leader's fee leaves the vault in the reward token. *)
Definition lead_sent (u : Address) (lead : Z) s s' : Prop :=
  lead = 0 /\ st_ext s' = st_ext s \/
  exists cfg t, get_mirror_config_inner u s = Some cfg /\ reward_token_of s = Some t /\
    tok_transfer (st_ext s) t (self env) (mc_leader cfg) lead = Some (st_ext s').

Lemma mirror_perf_Ok u x s r s' :
  0 <= x -> fees_in_range s -> apply_mirror_perf_fee env u x s = Ok r s' ->
  exists lead, x = r + lead /\ 0 <= lead <= x /\ BPS * lead <= x * MAX_LEADER_FEE_BPS /\
    (forall k, rd k s' = rd k s) /\
    lead_sent u lead s s'.
Proof.
  intros Hx Hr H. unfold lead_sent.
  assert (Hnone : r = x -> s' = s -> exists lead, x = r + lead /\ 0 <= lead <= x /\
    BPS * lead <= x * MAX_LEADER_FEE_BPS /\ (forall k, rd k s' = rd k s) /\
    (lead = 0 /\ st_ext s' = st_ext s \/
     exists cfg t, get_mirror_config_inner u s = Some cfg /\ reward_token_of s = Some t /\
       tok_transfer (st_ext s) t (self env) (mc_leader cfg) lead = Some (st_ext s'))).
  { intros -> ->. exists 0. unfold MAX_LEADER_FEE_BPS, BPS. split_and!; try done; try lia. by left. }
  unfold apply_mirror_perf_fee in H. destruct (x <=? 0); [mrun H; by apply Hnone|].
  unfold reading at 1 in H. destruct (get_mirror_config_inner u s) as [cfg|] eqn:Hcfg; [|mrun H; by apply Hnone].
  destruct (_ && _); [|mrun H; by apply Hnone].
  pose proof (fr_leader _ Hr _ _ Hcfg) as Hb. unfold MAX_LEADER_FEE_BPS in *.
  apply bind_Ok in H as (v & s1 & H1 & H). apply ok_or_Ok in H1 as (Hm & ->).
  apply bind_Ok in H as (lead & s1 & H1 & H). apply ok_or_Ok in H1 as (Hd & ->).
  pose proof (checked_bps _ _ _ _ Hm Hd) as Hl.
  destruct (bps_part x (mc_leader_fee_bps cfg) Hx) as [Hle Hp]; [unfold BPS; lia|]. rewrite <- Hl in Hle, Hp. clear Hl Hm Hd.
  destruct (lead <=? 0); [mrun H; by apply Hnone|].
  apply bind_Ok in H as (net & s1 & H1 & H). apply ok_or_Ok in H1 as (Hn & ->).
  apply checked_sub_Some in Hn as [-> _]. unfold reading in H.
  apply bind_Ok in H as (t & s1 & H1 & H). apply ok_or_Ok in H1 as (Ht & ->).
  mrun H. exists lead. unfold BPS in *. split_and!; try lia; [nia|intros k; by rdsimp|].
  right. exists cfg, t. split_and!; [done|exact Ht|exact H0].
Qed.

Definition deduction_book (k : key) : Prop := k = KClaim BbFund \/ fee_book k.

(** What is left of a claim after the three cuts, as a bound on the cuts. *)
Definition claim_floor (gross p : Z) : Prop :=
  (BPS - MAX_BUG_BOUNTY_BPS) * (BPS - MAX_CLAIM_FEE_BPS) * (BPS - MAX_LEADER_FEE_BPS) * gross
  <= BPS * BPS * BPS * p.

Lemma floor_of_parts gross p bounty fee lead :
  gross = p + bounty + fee + lead -> 0 <= gross -> 0 <= bounty -> 0 <= fee -> 0 <= lead ->
  BPS * bounty <= gross * MAX_BUG_BOUNTY_BPS -> BPS * fee <= (gross - bounty) * MAX_CLAIM_FEE_BPS ->
  BPS * lead <= (gross - bounty - fee) * MAX_LEADER_FEE_BPS -> claim_floor gross p.
Proof. unfold claim_floor, BPS, MAX_BUG_BOUNTY_BPS, MAX_CLAIM_FEE_BPS, MAX_LEADER_FEE_BPS. lia. Qed.

(** The bounty fund stays within [i128], where its saturating sum is exact. *)
Definition fund_fits (gross : Z) s : Prop :=
  0 <= get_fund_balance s /\ get_fund_balance s + gross <= i128_max.

(** [x] splits into the payout [p] and three deductions, each booked. *)
Record net_split (u : Address) (x p bounty fee recycled lead : Z) s s' : Prop := {
  ns_sum : x = p + bounty + fee + lead;
  ns_nonneg : 0 <= p /\ 0 <= bounty /\ 0 <= recycled <= fee /\ 0 <= lead;
  ns_fund : get_fund_balance s' = get_fund_balance s + bounty;
  ns_pool : get_reward_pool_balance s' = get_reward_pool_balance s + recycled;
  ns_reserve : get_claim_fee_reserve_internal s' = get_claim_fee_reserve_internal s + (fee - recycled);
  ns_frame : differs_at deduction_book s s';
  ns_lead : lead_sent u lead s s';
  ns_floor : claim_floor x p
}.

Lemma net_of_deductions_Ok u x s p s' :
  0 <= x -> fees_in_range s -> fund_fits x s -> net_of_deductions env u x s = Ok p s' ->
  exists bounty fee recycled lead, net_split u x p bounty fee recycled lead s s'.
Proof.
  intros Hx Hr [Hf Hmax] H. unfold net_of_deductions in H.
  apply bind_Ok in H as (b & s1 & H1 & H).
  apply deduct_bounty_Ok in H1 as (Hb & Hbp & Hfund & Hd1 & He1); [|done|apply (fr_bounty _ Hr)].
  cbv zeta in H. pose proof i128_bounds as Hi.
  assert (Hsub : sat_sub x b = x - b).
  { unfold sat_sub. apply clamp_in. unfold in_i128. lia. }
  rewrite Hsub in H.
  assert (Hr1 : fees_in_range s1).
  { destruct Hr. split; unfold get_claim_fee_bps_internal, get_fee_recycle_bps_internal,
      get_contribution_bps, get_mirror_config_inner in *; intros *; rewrite Hd1 by done; eauto. }
  apply bind_Ok in H as (a & s2 & H2 & H).
  apply apply_claim_fee_Ok in H2 as (fee & rc & Hfee & Hrc & Hfle & Hfp & Hpool & Hres & Hd2 & He2); [|lia|done].
  assert (Hr2 : fees_in_range s2).
  { destruct Hr1. split; unfold get_claim_fee_bps_internal, get_fee_recycle_bps_internal,
      get_contribution_bps, get_mirror_config_inner in *; intros *;
      rewrite Hd2 by (unfold fee_book; naive_solver); eauto. }
  apply mirror_perf_Ok in H as (lead & Hl & Hlr & Hlp & Hk & Htok); [|lia|done].
  assert (Hd : differs_at deduction_book s s2).
  { eapply differs_trans; eapply differs_weaken; [|exact Hd1| |exact Hd2]; unfold deduction_book; tauto. }
  assert (Hcfg : get_mirror_config_inner u s2 = get_mirror_config_inner u s /\ reward_token_of s2 = reward_token_of s).
  { unfold get_mirror_config_inner, reward_token_of, get_reward_token.
    rewrite !Hd by (unfold deduction_book, fee_book; naive_solver). done. }
  destruct Hcfg as [Hc1 Hc2]. unfold lead_sent in Htok. rewrite Hc1, Hc2, He2, He1 in Htok.
  exists b, fee, rc, lead. split; try lia; try done.
  - unfold get_fund_balance at 1. rewrite Hk, Hd2 by (unfold fee_book; naive_solver).
    change (get_fund_balance s1 = get_fund_balance s + b). rewrite Hfund. destruct (Z.ltb_spec 0 b); [|lia].
    unfold sat_add. apply clamp_in. unfold in_i128. lia.
  - unfold get_reward_pool_balance at 1. rewrite Hk. change (get_reward_pool_balance s2 = get_reward_pool_balance s + rc).
    rewrite Hpool. f_equal. unfold get_reward_pool_balance. by rewrite Hd1.
  - unfold get_claim_fee_reserve_internal at 1. rewrite Hk.
    change (get_claim_fee_reserve_internal s2 = get_claim_fee_reserve_internal s + (fee - rc)).
    rewrite Hres. f_equal. unfold get_claim_fee_reserve_internal. by rewrite Hd1.
  - intros k Hn. rewrite Hk. by apply Hd.
  - apply (floor_of_parts x p b fee lead); lia.
Qed.

(** *** The bookkeeping behind a claim *)

Definition trail_key (k : key) : Prop :=
  match k with KClaim AuditCount | KClaim AuditSummary | KClaim (AuditPage _) => True | _ => False end.
(** Entries the bookkeeping after the payment writes. *)
Definition side_key (k : key) : Prop :=
  trail_key k \/
  match k with
  | KClaim (ClaimCount _) | KClaim (ValApp _) | KClaim (LastClaimAction _) | KInst LowNotified
  | KPers (BeneficiaryOf _) | KGov Reentrancy => True
  | _ => False
  end.

(** [s'] is [s] but for that bookkeeping. *)
Definition settled s s' : Prop := differs_at side_key s s' /\ st_ext s' = st_ext s.

Lemma settled_trans s1 s2 s3 : settled s1 s2 -> settled s2 s3 -> settled s1 s3.
Proof. intros [H1 E1] [H2 E2]. split; [by eapply differs_trans|congruence]. Qed.

Lemma side_Ok E A (m : M E A) s a s' :
  touches side_key m -> keeps_ext m -> m s = Ok a s' -> settled s s'.
Proof.
  intros Ht He H. split; [|by apply (keeps_ext_Ok _ _ _ _ He H)].
  intros k Hk. by apply (touches_Ok _ _ _ _ _ k Ht H).
Qed.

Lemma log_Ok E t f d a l s x s' :
  log_reward_movement (E:=E) env t f d a l s = Ok x s' -> settled s s'.
Proof.
  apply side_Ok; unfold log_reward_movement; frames; apply touches_put; by left.
Qed.
Lemma snapshot_Ok E u s x s' : maybe_auto_snapshot (E:=E) env u s = Ok x s' -> settled s s'.
Proof.
  apply side_Ok; unfold maybe_auto_snapshot, take_value_snapshot_inner, set_appreciation_log; frames;
    apply touches_put; by right.
Qed.
Lemma claimed_Ok E u a s x s' : claimed (E:=E) env u a s = Ok x s' -> settled s s'.
Proof. apply side_Ok; unfold claimed; frames. Qed.
Lemma receipt_Ok E u a t d s x s' : record_receipt (E:=E) env u a t d s = Ok x s' -> settled s s'.
Proof. apply side_Ok; unfold record_receipt, set_count; frames; apply touches_put; by right. Qed.
Lemma low_Ok E s x s' : check_and_emit_low_balance (E:=E) env s = Ok x s' -> settled s s'.
Proof.
  apply side_Ok; unfold check_and_emit_low_balance; frames;
    first [apply touches_put | apply touches_del]; by right.
Qed.

Lemma pay_reward_Ok E t u p s x s' :
  0 <= p -> pay_reward (E:=E) env t u p s = Ok x s' ->
  (forall k, rd k s' = rd k s) /\ sent t u p s s'.
Proof.
  intros Hp H. unfold pay_reward in H. destruct (Z.ltb_spec 0 p); mrun H.
  - split; [intros k; by rdsimp|]. by right.
  - split; [done|]. left. split; [lia|done].
Qed.

Lemma pay_gas_rebate_Ok E t u s x s' :
  pay_gas_rebate (E:=E) env t u s = Ok x s' ->
  exists rebate, 0 <= rebate /\ (0 < rebate -> rebate <= gas_rebate_pool s) /\
    gas_rebate_pool s' = gas_rebate_pool s - rebate /\
    differs_at (fun k => k = KClaim GasRebatePool) s s' /\ sent t u rebate s s'.
Proof.
  intros H. unfold pay_gas_rebate, reading in H.
  assert (Hnone : s' = s -> exists rebate, 0 <= rebate /\ (0 < rebate -> rebate <= gas_rebate_pool s) /\
    gas_rebate_pool s' = gas_rebate_pool s - rebate /\
    differs_at (fun k => k = KClaim GasRebatePool) s s' /\ sent t u rebate s s').
  { intros ->. exists 0. split_and!; try done; try lia. by left. }
  destruct (Z.ltb_spec 0 (get_gas_rebate_amount s)); [|mrun H; by apply Hnone].
  destruct (Z.leb_spec (get_gas_rebate_amount s) (gas_rebate_pool s)); [|mrun H; by apply Hnone].
  unfold set_gas_rebate_pool in H. mrun H. apply checked_sub_Some in H2 as [-> _].
  exists (get_gas_rebate_amount s). split_and!; try lia; [done|elsewhere|]. by right.
Qed.

(** *** The split of a claim *)

Definition vault_balance (t : Address) s : Z := balance_of t (self env) s.

Lemma sent_balance `{!StandardTokens W} t to amt s s' : to <> self env -> sent t to amt s s' ->
  forall t' a, balance_of t' a s' = balance_of t' a s
    + (if decide (t' = t) then (if decide (a = to) then amt else 0) - (if decide (a = self env) then amt else 0)
       else 0).
Proof.
  intros Hne [[-> He]|Hw] t' a; unfold balance_of.
  - rewrite He. repeat case_decide; lia.
  - destruct (std_moves _ _ _ _ _ _ (not_eq_sym Hne) Hw) as [M1 M2].
    case_decide as Ht; [subst t'|rewrite (std_frame _ _ _ _ _ _ _ _ Hw) by tauto; lia].
    destruct (decide (a = to)) as [->|Ha]; [rewrite decide_False by done; lia|].
    case_decide as Hs; [subst a; lia|]. rewrite (std_frame _ _ _ _ _ _ t a Hw) by tauto. lia.
Qed.

(** The claimer, its leader and the vault are three parties. *)
Definition pays_others (u : Address) s : Prop :=
  u <> self env /\
  forall cfg, get_mirror_config_inner u s = Some cfg -> mc_leader cfg <> self env /\ mc_leader cfg <> u.

Lemma lead_balance `{!StandardTokens W} u lead s s' t a : pays_others u s -> lead_sent u lead s s' ->
  a = u \/ a = self env ->
  balance_of t a s' = balance_of t a s
    - (if decide (reward_token_of s = Some t) then (if decide (a = self env) then lead else 0) else 0).
Proof.
  intros [_ Hl] [[-> He]|(cfg & rt & Hcfg & Hrt & Hw)] Ha.
  - unfold balance_of. rewrite He. repeat case_decide; lia.
  - destruct (Hl _ Hcfg) as [Hl1 Hl2].
    rewrite (sent_balance rt (mc_leader cfg) lead s s' Hl1 (or_intror Hw)).
    rewrite Hrt. repeat case_decide; naive_solver lia.
Qed.

(** [gross] of [u]'s accrued reward became the payout [p], the bounty
    contribution, the claim fee, of which [recycled] went to the reward pool,
    and the leader's fee; [rebate] came on top, out of its own pool. *)
Record claim_split (u : Address) (gross p bounty fee recycled lead rebate : Z) s s' : Prop := {
  cs_sum : gross = p + bounty + fee + lead;
  cs_nonneg : 0 <= p /\ 0 <= bounty /\ 0 <= recycled <= fee /\ 0 <= lead /\ 0 <= rebate;
  cs_accrued : get_accrued_reward u s' = get_accrued_reward u s - gross;
  cs_others : forall v, v <> u -> get_accrued_reward v s' = get_accrued_reward v s;
  cs_paid : get_total_rewards_paid s' = get_total_rewards_paid s + gross;
  cs_fund : get_fund_balance s' = get_fund_balance s + bounty;
  cs_reserve : get_claim_fee_reserve_internal s' = get_claim_fee_reserve_internal s + (fee - recycled);
  cs_pool : get_reward_pool_balance s' = get_reward_pool_balance s + recycled;
  cs_gas : gas_rebate_pool s' = gas_rebate_pool s - rebate /\ (0 < rebate -> rebate <= gas_rebate_pool s);
  cs_vault : forall t, vault_balance t s' = vault_balance t s
    - (if decide (reward_token_of s = Some t) then p + lead else 0)
    - (if decide (rd Token s = Some t) then rebate else 0);
  cs_user : forall t, balance_of t u s' = balance_of t u s
    + (if decide (reward_token_of s = Some t) then p else 0)
    + (if decide (rd Token s = Some t) then rebate else 0)
}.

(** The first step of a claim: [gross] is taken off the accrued reward. *)
Record debited (u : Address) (gross : Z) s s' : Prop := {
  db_accrued : get_accrued_reward u s' = get_accrued_reward u s - gross;
  db_paid : get_total_rewards_paid s' = get_total_rewards_paid s + gross;
  db_frame : differs_at (fun k => k = KPers (AccruedReward u) \/ k = KInst TotalRewardsPaid) s s';
  db_ext : st_ext s' = st_ext s
}.

Lemma debited_fees u gross s s' : debited u gross s s' -> fees_in_range s -> fees_in_range s'.
Proof.
  intros Hd Hr. pose proof (db_frame _ _ _ _ Hd) as Hs. destruct Hr.
  split; unfold get_claim_fee_bps_internal, get_fee_recycle_bps_internal,
    get_contribution_bps, get_mirror_config_inner in *; intros *; rewrite Hs by naive_solver; eauto.
Qed.

(** Reads the payment path leaves alone, through all its steps. *)
Lemma read_back (K : key -> Prop) k s s' : differs_at K s s' -> ~ K k -> rd k s' = rd k s.
Proof. intros H. apply H. Qed.

Lemma claim_split_intro `{!StandardTokens W} u gross p bounty fee recycled lead rebate rt t s s1 s2 s3 s4 s' :
  pays_others u s -> reward_token_of s = Some rt -> rd Token s = Some t \/ rebate = 0 ->
  debited u gross s s1 -> net_split u gross p bounty fee recycled lead s1 s2 ->
  (forall k, rd k s3 = rd k s2) -> sent rt u p s2 s3 ->
  0 <= rebate -> (0 < rebate -> rebate <= gas_rebate_pool s3) ->
  gas_rebate_pool s4 = gas_rebate_pool s3 - rebate ->
  differs_at (fun k => k = KClaim GasRebatePool) s3 s4 -> sent t u rebate s3 s4 ->
  settled s4 s' ->
  claim_split u gross p bounty fee recycled lead rebate s s'.
Proof.
  intros Ho Hrt Ht [Da Dp Df De] [Nsum Nn Nf Np Nr Nfr Nl _] H3 Hpay Hrb Hrbl Hgas H4 Hreb [H5 E5].
  assert (Hk : forall k, ~ side_key k -> k <> KClaim GasRebatePool -> rd k s' = rd k s2).
  { intros k Hk1 Hk2. rewrite H5, H4, H3; done. }
  assert (Hn : forall k, ~ side_key k -> k <> KClaim GasRebatePool -> ~ deduction_book k -> rd k s' = rd k s1).
  { intros k ???. rewrite Hk by done. by apply Nfr. }
  assert (Hg : gas_rebate_pool s3 = gas_rebate_pool s).
  { unfold gas_rebate_pool. rewrite H3, Nfr, Df; unfold deduction_book, fee_book; naive_solver. }
  assert (R1 : reward_token_of s1 = reward_token_of s).
  { unfold reward_token_of, get_reward_token. by rewrite !Df by naive_solver. }
  assert (M1 : get_mirror_config_inner u s1 = get_mirror_config_inner u s).
  { unfold get_mirror_config_inner. by rewrite Df by naive_solver. }
  assert (Hbal : forall t' a, a = u \/ a = self env -> balance_of t' a s' = balance_of t' a s
    + (if decide (reward_token_of s = Some t') then
         (if decide (a = u) then p else 0) - (if decide (a = self env) then p + lead else 0) else 0)
    + (if decide (rd Token s = Some t') then
         (if decide (a = u) then rebate else 0) - (if decide (a = self env) then rebate else 0) else 0)).
  { intros t' a Ha. assert (Hlead := lead_balance u lead s1 s2 t' a).
    unfold pays_others in *. rewrite R1, M1 in Hlead. specialize (Hlead Ho Nl Ha).
    pose proof (sent_balance rt u p s2 s3 (proj1 Ho) Hpay t' a) as Hp.
    pose proof (sent_balance t u rebate s3 s4 (proj1 Ho) Hreb t' a) as Hr.
    unfold balance_of in *. rewrite E5, Hr, Hp, Hlead, De, Hrt. clear -Ho Ht.
    destruct Ht as [-> | ->]; repeat case_decide; naive_solver lia. }
  split; [done|naive_solver| | | | | | | | |].
  - rewrite <- Da. unfold get_accrued_reward at 1. rewrite Hn; unfold side_key, deduction_book, fee_book; naive_solver.
  - intros v Hv. unfold get_accrued_reward. rewrite Hn, Df; unfold side_key, deduction_book, fee_book; naive_solver.
  - rewrite <- Dp. unfold get_total_rewards_paid at 1. rewrite Hn; unfold side_key, deduction_book, fee_book; naive_solver.
  - unfold get_fund_balance at 1. rewrite Hk by (unfold side_key; naive_solver). change (get_fund_balance s2 = get_fund_balance s + bounty).
    rewrite Nf. unfold get_fund_balance. rewrite Df; naive_solver.
  - unfold get_claim_fee_reserve_internal at 1. rewrite Hk by (unfold side_key; naive_solver).
    change (get_claim_fee_reserve_internal s2 = get_claim_fee_reserve_internal s + (fee - recycled)).
    rewrite Nr. unfold get_claim_fee_reserve_internal. rewrite Df; naive_solver.
  - unfold get_reward_pool_balance at 1. rewrite Hk by (unfold side_key; naive_solver).
    change (get_reward_pool_balance s2 = get_reward_pool_balance s + recycled).
    rewrite Np. unfold get_reward_pool_balance. rewrite Df; naive_solver.
  - rewrite <- Hg. split; [|done]. rewrite <- Hgas. unfold gas_rebate_pool. rewrite H5; [done|unfold side_key; naive_solver].
  - intros t'. unfold vault_balance. rewrite Hbal by tauto. destruct Ho. repeat case_decide; naive_solver lia.
  - intros t'. rewrite Hbal by tauto. destruct Ho. repeat case_decide; naive_solver lia.
Qed.

Lemma reward_token_address_Ok s rt s' :
  reward_token_address s = Ok rt s' -> reward_token_of s = Some rt /\ s' = s.
Proof.
  unfold reward_token_address, reading, reward_token_of. destruct (get_reward_token s).
  - intros H. mrun H. done.
  - unfold token_address, reading. intros H. mrun H. done.
Qed.

(** The debit as [do_claim] and [claim_partial] write it. *)
Lemma debited_upd u gross rest s :
  rest = get_accrued_reward u s - gross ->
  debited u gross s (upd TotalRewardsPaid (Some (get_total_rewards_paid (upd (AccruedReward u) (Some rest) s) + gross))
                       (upd (AccruedReward u) (Some rest) s)).
Proof.
  intros ->. split; [| |elsewhere|done].
  - unfold get_accrued_reward. rewrite rd_upd_ne by done. by rewrite rd_upd_eq.
  - unfold get_total_rewards_paid. rewrite rd_upd_eq. rewrite rd_upd_ne by done. done.
Qed.

Lemma do_claim_split `{!StandardTokens W} u s p s' :
  fees_in_range s -> pays_others u s -> fund_fits (get_accrued_reward u s) s ->
  0 < get_accrued_reward u s -> emissions_halted s = false -> do_claim env u s = Ok p s' ->
  claim_floor (get_accrued_reward u s) p /\
  exists bounty fee recycled lead rebate,
    claim_split u (get_accrued_reward u s) p bounty fee recycled lead rebate s s'.
Proof.
  intros Hr Ho Hf Hpos Hh H. unfold do_claim, reading in H.
  destruct (Z.eqb_spec (get_accrued_reward u s) 0); [lia|]. cbv beta in H. rewrite Hh in H.
  apply bind_Ok in H as (rt & s0 & E0 & H). apply reward_token_address_Ok in E0 as [Hrt ->].
  apply bind_Ok in H as (t & s0 & E0 & H). unfold token_address, reading in E0. apply ok_or_Ok in E0 as [Ht ->].
  apply bind_Ok in H as ([] & s1 & E1 & H). unfold set_accrued_reward in E1. mrun E1.
  apply bind_Ok in H as (np & s2 & E2 & H). apply plain_Ok in E2 as [Hnp ->]. apply checked_add_Some in Hnp as [-> _].
  apply bind_Ok in H as ([] & s2 & E2 & H). unfold set_total_rewards_paid in E2. mrun E2.
  pose proof (debited_upd u (get_accrued_reward u s) 0 s ltac:(lia)) as Hdeb.
  set (gross := get_accrued_reward u s) in *. set (s2 := upd TotalRewardsPaid _ _) in *.
  apply bind_Ok in H as (p0 & s3 & E3 & H). apply net_of_deductions_Ok in E3
    as (b & fee & rc & lead & Hns); [|lia|by eapply debited_fees|].
  2:{ unfold fund_fits, get_fund_balance in *. rewrite (db_frame _ _ _ _ Hdeb); naive_solver. }
  apply bind_Ok in H as ([] & s4 & E4 & H). apply pay_reward_Ok in E4 as [Hs4 Hpay]; [|apply Hns].
  apply bind_Ok in H as ([] & s5 & E5 & H). apply pay_gas_rebate_Ok in E5 as (rb & Hrb & Hrbl & Hgas & Hs5 & Hreb).
  apply bind_Ok in H as (? & s6 & E6 & H). apply log_Ok in E6.
  apply bind_Ok in H as (? & s7 & E7 & H). apply snapshot_Ok in E7.
  apply bind_Ok in H as (? & s8 & E8 & H). apply claimed_Ok in E8.
  apply bind_Ok in H as (? & s9 & E9 & H). apply receipt_Ok in E9.
  apply bind_Ok in H as (? & s10 & E10 & H). apply low_Ok in E10. apply ret_Ok in H as [-> ->].
  assert (Hside : settled s5 s10) by (repeat (eapply settled_trans; [eassumption|]); done).
  split; [by eapply ns_floor|]. exists b, fee, rc, lead, rb. eapply claim_split_intro; eauto.
Qed.

(** *** Partial claims *)

Lemma guarded_Ok A (m : M VaultError.t A) s a s' :
  guarded m s = Ok a s' ->
  exists s1, default false (rd Reentrancy s) = false /\ m (upd Reentrancy (Some true) s) = Ok a s1 /\
    s' = upd Reentrancy None s1.
Proof.
  unfold guarded, reading. intros H.
  apply bind_Ok in H as (? & s1 & H1 & H). apply fail_if_Ok in H1 as (H1 & _ & ->).
  apply bind_Ok in H as (? & s1 & H2 & H). apply put_Ok in H2 as [_ ->].
  apply bind_Ok in H as (r & s1 & H2 & H). unfold catch in H2.
  apply bind_Ok in H as (? & s2 & H3 & H). apply del_Ok in H3 as [_ ->].
  destruct (m _) as [b s0|e s0|t]; [|by injection H2 as <- <-|done].
  injection H2 as <- <-. apply ret_Ok in H as [-> ->]. eauto.
Qed.

Lemma settled_upd k v s : side_key k -> settled s (upd k v s).
Proof. intros Hk. split; [|done]. intros k' Hk'. apply rd_upd_ne. intros <-. done. Qed.

Lemma touch_Ok E u s x s' : Notify.touch (E:=E) env u s = Ok x s' -> settled s s'.
Proof. apply side_Ok; unfold Notify.touch; frames; apply touches_put; by right. Qed.

Section Around.
Context {s s1 s2 s' : State}.
Hypothesis Hpre : settled s s1.

Lemma settled_fees : fees_in_range s -> fees_in_range s1.
Proof.
  intros Hr. destruct Hpre as [Hs _], Hr.
  split; unfold get_claim_fee_bps_internal, get_fee_recycle_bps_internal,
    get_contribution_bps, get_mirror_config_inner in *; intros *;
    rewrite Hs by (unfold side_key; naive_solver); eauto.
Qed.
Lemma settled_pays u : pays_others u s -> pays_others u s1.
Proof.
  unfold pays_others, get_mirror_config_inner. destruct Hpre as [Hs _].
  by rewrite Hs by (unfold side_key; naive_solver).
Qed.
Lemma settled_fund gross : fund_fits gross s -> fund_fits gross s1.
Proof.
  unfold fund_fits, get_fund_balance. destruct Hpre as [Hs _].
  by rewrite Hs by (unfold side_key; naive_solver).
Qed.

Lemma claim_split_around u gross p bounty fee recycled lead rebate :
  claim_split u gross p bounty fee recycled lead rebate s1 s2 -> settled s2 s' ->
  claim_split u gross p bounty fee recycled lead rebate s s'.
Proof.
  destruct Hpre as [Hs Es]. intros [] [Hs' Es'].
  split; try done;
    unfold get_accrued_reward, get_total_rewards_paid, get_fund_balance, get_claim_fee_reserve_internal,
      get_reward_pool_balance, gas_rebate_pool, vault_balance, balance_of, reward_token_of, get_reward_token in *;
    rewrite ?Es', <- ?Es; intros *;
    rewrite ?Hs' by (unfold side_key; naive_solver);
    rewrite <- ?Hs by (unfold side_key; naive_solver); eauto.
Qed.
End Around.

Lemma pay_part_split `{!StandardTokens W} u gross s p s' :
  fees_in_range s -> pays_others u s -> fund_fits gross s -> 0 < gross ->
  pay_part env u (get_accrued_reward u s) gross s = Ok p s' ->
  claim_floor gross p /\
  exists bounty fee recycled lead, claim_split u gross p bounty fee recycled lead 0 s s'.
Proof.
  intros Hr Ho Hf Hpos H. unfold pay_part, reading in H.
  apply bind_Ok in H as (rest & ? & H1 & H). apply ok_or_Ok in H1 as (Hrest & ->). apply checked_sub_Some in Hrest as [-> _].
  apply bind_Ok in H as ([] & s1 & E1 & H). unfold set_accrued_reward in E1. mrun E1.
  apply bind_Ok in H as (np & s2 & E2 & H). apply ok_or_Ok in E2 as [Hnp ->]. apply checked_add_Some in Hnp as [-> _].
  apply bind_Ok in H as ([] & s2 & E2 & H). unfold set_total_rewards_paid in E2. mrun E2.
  pose proof (debited_upd u gross (get_accrued_reward u s - gross) s eq_refl) as Hdeb.
  set (s2 := upd TotalRewardsPaid _ _) in *.
  apply bind_Ok in H as (p0 & s3 & E3 & H). apply net_of_deductions_Ok in E3
    as (b & fee & rc & lead & Hns); [|lia|by eapply debited_fees|].
  2:{ unfold fund_fits, get_fund_balance in *. rewrite (db_frame _ _ _ _ Hdeb); naive_solver. }
  apply bind_Ok in H as (rt & ? & E4 & H). apply reward_token_address_Ok in E4 as [Hrt ->].
  assert (Hrt0 : reward_token_of s = Some rt).
  { rewrite <- Hrt. unfold reward_token_of, get_reward_token.
    rewrite !(ns_frame _ _ _ _ _ _ _ _ _ Hns), !(db_frame _ _ _ _ Hdeb);
      unfold deduction_book, fee_book; naive_solver. }
  apply bind_Ok in H as ([] & s4 & E5 & H). apply pay_reward_Ok in E5 as [Hs4 Hpay]; [|apply Hns].
  apply bind_Ok in H as (? & s6 & E6 & H). apply log_Ok in E6.
  apply bind_Ok in H as (? & s7 & E7 & H). apply claimed_Ok in E7.
  apply bind_Ok in H as (? & s8 & E8 & H). apply receipt_Ok in E8.
  apply bind_Ok in H as (? & s5 & E9 & H). apply put_Ok in E9 as [_ ->]. apply ret_Ok in H as [-> ->].
  split; [by eapply ns_floor|]. exists b, fee, rc, lead.
  eapply (claim_split_intro u gross p0 b fee rc lead 0 rt rt s s2 s3 s4 s4); try done;
    [by right|lia|by left|].
  do 3 (eapply settled_trans; [eassumption|]). apply settled_upd. by right.
Qed.

(** What runs in front of [pay_part] touches bookkeeping entries only. *)
Lemma claim_partial_enters u gross s p s' :
  emissions_halted s = false -> claim_partial env u gross s = Ok p s' ->
  exists s0 s9, settled s s0 /\ settled s9 s' /\ 0 < gross <= get_accrued_reward u s /\
    get_accrued_reward u s0 = get_accrued_reward u s /\
    pay_part env u (get_accrued_reward u s0) gross s0 = Ok p s9.
Proof.
  intros Hh H. apply guarded_Ok in H as (s9 & _ & H & ->).
  apply bind_Ok in H as (? & s0 & H0 & H). apply require_auth_Ok in H0 as (_ & _ & ->).
  apply bind_Ok in H as (? & s0 & H0 & H). apply touch_Ok in H0.
  apply bind_Ok in H as (? & ? & H1 & H). apply ret_Ok in H1 as [_ ->].
  apply bind_Ok in H as (? & ? & H1 & H). apply fail_if_Ok in H1 as (Hpos & _ & ->). apply Z.leb_gt in Hpos.
  assert (Hpre : settled s s0).
  { eapply settled_trans; [|exact H0]. apply settled_upd. by right. }
  assert (Hh0 : emissions_halted s0 = false).
  { unfold emissions_halted in *. by rewrite (proj1 Hpre) by (unfold side_key; naive_solver). }
  assert (Ha0 : get_accrued_reward u s0 = get_accrued_reward u s).
  { unfold get_accrued_reward. by rewrite (proj1 Hpre) by (unfold side_key; naive_solver). }
  unfold reading in H. rewrite Hh0 in H.
  apply bind_Ok in H as (? & ? & H1 & H). apply fail_if_Ok in H1 as (Hle & _ & ->). apply Z.ltb_ge in Hle.
  exists s0, s9. split_and!; try done; try lia. apply settled_upd. by right.
Qed.

Lemma claim_partial_split `{!StandardTokens W} u gross s p s' :
  fees_in_range s -> pays_others u s -> fund_fits gross s ->
  emissions_halted s = false -> claim_partial env u gross s = Ok p s' ->
  claim_floor gross p /\ 0 < gross <= get_accrued_reward u s /\
  exists bounty fee recycled lead, claim_split u gross p bounty fee recycled lead 0 s s'.
Proof.
  intros Hr Ho Hf Hh H.
  destruct (claim_partial_enters _ _ _ _ _ Hh H) as (s0 & s9 & Hpre & Hpost & Hpos & Ha & Hp).
  apply pay_part_split in Hp as (Hfl & b & fee & rc & lead & Hs);
    [|by apply (settled_fees Hpre)|by apply (settled_pays Hpre)|by apply (settled_fund Hpre)|lia].
  split; [done|]. split; [done|]. exists b, fee, rc, lead. by apply (claim_split_around Hpre _ _ _ _ _ _ _ _ Hs).
Qed.

End ClaimProofs.
