(* ===== verification/ClaimExact.v ===== *)
(** * What claims promise

    The split of a claim and its bound, the life of a queued claim, the audit
    trail as a gapless list, and the peg check in front of claims. *)

From S2P Require Import Prelude Errors Storage Host Concrete Accessors Admin RewardMath Notify Mirror Limits.
From S2P Require Import Vault ClaimFees Peg Claims ClaimProofs.

(** ** The split *)

Section Split.
Context {W : World} `{!StandardTokens W} (env : Env).
Implicit Types s : State.


End Split.

(** ** The bound on the deductions *)

(** The operations that set a percentage taken out of a claim. *)
Inductive fee_op :=
| FSetClaimFee (admin : Address) (bps : Z)
| FSetRecycle (admin : Address) (bps : Z)
| FSetBounty (user : Address) (bps : Z)
| FSetMirror (follower leader : Address) (ratio max fee_bps : Z)
| FCancelMirror (follower : Address).

(** Basis points are [u32]. *)
Definition fee_args_ok (o : fee_op) : Prop :=
  match o with
  | FSetClaimFee _ b | FSetRecycle _ b | FSetBounty _ b | FSetMirror _ _ _ _ b => 0 <= b
  | FCancelMirror _ => True
  end.

Section Bound.
Context {W : World}.
Implicit Types s : State.

Definition run_fee_op (env : Env) (o : fee_op) (s : State) : State :=
  match o with
  | FSetClaimFee a b => invoke (set_claim_fee_bps env a b) s
  | FSetRecycle a b => invoke (set_fee_recycle_bps env a b) s
  | FSetBounty u b => invoke (set_bug_bounty_contribution_bps env u b) s
  | FSetMirror f l r m b => invoke (set_mirror_config env f l r m b) s
  | FCancelMirror f => invoke (cancel_mirroring env f) s
  end.
Definition replay_fees (h : list (Env * fee_op)) (s : State) : State :=
  fold_left (fun s eo => run_fee_op eo.1 eo.2 s) h s.

Definition percent_key (k : key) : bool :=
  match k with
  | KClaim ClaimFeeBps | KClaim FeeRecycleBps | KClaim (BbContribution _) | KPers (MirrorCfg _) => true
  | _ => false
  end.

Lemma fees_same s s' : (forall k, percent_key k = true -> rd k s' = rd k s) ->
  fees_in_range s -> fees_in_range s'.
Proof.
  intros H []. split; unfold get_claim_fee_bps_internal, get_fee_recycle_bps_internal,
    get_contribution_bps, get_mirror_config_inner in *; intros *; rewrite H by done; eauto.
Qed.

Lemma fees_upd_claim b s : 0 <= b <= MAX_CLAIM_FEE_BPS -> fees_in_range s ->
  fees_in_range (upd ClaimFeeBps (Some b) s).
Proof.
  intros Hb []. split; unfold get_claim_fee_bps_internal, get_fee_recycle_bps_internal,
    get_contribution_bps, get_mirror_config_inner in *; intros *; rdsimp; eauto.
Qed.
Lemma fees_upd_recycle b s : 0 <= b <= MAX_FEE_RECYCLE_BPS -> fees_in_range s ->
  fees_in_range (upd FeeRecycleBps (Some b) s).
Proof.
  intros Hb []. split; unfold get_claim_fee_bps_internal, get_fee_recycle_bps_internal,
    get_contribution_bps, get_mirror_config_inner in *; intros *; rdsimp; eauto.
Qed.
Lemma fees_upd_bounty u b s : 0 <= b <= MAX_BUG_BOUNTY_BPS -> fees_in_range s ->
  fees_in_range (upd (BbContribution u) (Some b) s).
Proof.
  intros Hb []. split; unfold get_claim_fee_bps_internal, get_fee_recycle_bps_internal,
    get_contribution_bps, get_mirror_config_inner in *; intros *; [rdsimp; eauto..| |rdsimp; eauto].
  destruct (decide (u = u0)) as [<-|Hne]; rdsimp; eauto.
Qed.
Lemma fees_upd_mirror f v s : (forall cfg, v = Some cfg -> 0 <= mc_leader_fee_bps cfg <= MAX_LEADER_FEE_BPS) ->
  fees_in_range s -> fees_in_range (upd (MirrorCfg f) v s).
Proof.
  intros Hb []. split; unfold get_claim_fee_bps_internal, get_fee_recycle_bps_internal,
    get_contribution_bps, get_mirror_config_inner in *; intros *; [rdsimp; eauto..|].
  destruct (decide (f = u)) as [<-|Hne]; rdsimp; eauto.
Qed.
Lemma fees_upd_other k v s : percent_key k = false -> fees_in_range s -> fees_in_range (upd k v s).
Proof. intros Hk. apply fees_same. intros k' Hk'. apply rd_upd_ne. congruence. Qed.
Lemma fees_emit e s : fees_in_range s -> fees_in_range (emit e s).
Proof. by apply fees_same. Qed.

Lemma followers_keep_fees {E} l f s x s' :
  (add_follower l f s = Ok x s' \/ remove_follower (E:=E) l f s = Ok x s') ->
  fees_in_range s -> fees_in_range s'.
Proof.
  intros [H|H]; apply fees_same; intros k Hk.
  - eapply (touches_Ok (fun k => percent_key k = false)); [|exact H|congruence].
    unfold add_follower, set_followers. frames.
  - eapply (touches_Ok (fun k => percent_key k = false)); [|exact H|congruence].
    unfold remove_follower, set_followers. frames.
Qed.

Lemma mirror_keeps_fees env f l r m b s x s' : 0 <= b ->
  set_mirror_config env f l r m b s = Ok x s' -> fees_in_range s -> fees_in_range s'.
Proof.
  intros Hb H Hr. unfold set_mirror_config in H.
  apply bind_Ok in H as (? & ? & H1 & H). apply require_auth_Ok in H1 as (_ & _ & ->).
  do 3 (apply bind_Ok in H as (? & ? & H1 & H); apply fail_if_Ok in H1 as (_ & _ & ->)).
  apply bind_Ok in H as (? & ? & H1 & H). apply fail_if_Ok in H1 as (Hle & _ & ->). apply Z.ltb_ge in Hle. unfold reading in H.
  apply bind_Ok in H as (? & s1 & H1 & H).
  assert (Hr1 : fees_in_range s1).
  { destruct (get_mirror_config_inner f s) as [old|]; [|by mrun H1].
    destruct (bool_decide _); [by mrun H1|]. eapply followers_keep_fees; [right; exact H1|done]. }
  apply bind_Ok in H as (? & ? & H2 & H). apply put_Ok in H2 as [_ ->].
  apply bind_Ok in H as (? & s2 & H2 & H). apply publish_Ok in H as [_ ->]. apply fees_emit.
  eapply (followers_keep_fees (E:=VaultExtError.t)); [left; exact H2|]. apply fees_upd_mirror; [|done].
  intros cfg [= <-]. done.
Qed.

Lemma cancel_keeps_fees env f s x s' :
  cancel_mirroring env f s = Ok x s' -> fees_in_range s -> fees_in_range s'.
Proof.
  intros H Hr. unfold cancel_mirroring in H.
  apply bind_Ok in H as (? & ? & H1 & H). apply require_auth_Ok in H1 as (_ & _ & ->). unfold reading in H.
  apply bind_Ok in H as (cfg & ? & H1 & H). apply ok_or_Ok in H1 as [_ ->].
  apply bind_Ok in H as (? & s1 & H1 & H). apply bind_Ok in H as (? & ? & H2 & H). apply del_Ok in H2 as [_ ->].
  apply publish_Ok in H as [_ ->]. apply fees_emit, fees_upd_mirror; [done|].
  eapply followers_keep_fees; [right; exact H1|done].
Qed.

Lemma run_fee_op_ok env o s : fee_args_ok o -> fees_in_range s -> fees_in_range (run_fee_op env o s).
Proof.
  intros Ha Hr. destruct o as [a b|a b|u b|f l r m b|f]; simpl in *; unfold invoke.
  - destruct (set_claim_fee_bps env a b s) as [x s'| |] eqn:H; try done. unfold set_claim_fee_bps in H.
    apply bind_Ok in H as (? & ? & H1 & H). apply require_auth_Ok in H1 as (_ & _ & ->).
    apply bind_Ok in H as (? & ? & H1 & H). apply get_admin_Ok in H1 as (? & ? & ->).
    mrun H. apply fees_upd_claim; [lia|done].
  - destruct (set_fee_recycle_bps env a b s) as [x s'| |] eqn:H; try done. unfold set_fee_recycle_bps in H.
    apply bind_Ok in H as (? & ? & H1 & H). apply require_admin_as_Ok in H1 as (_ & _ & _ & _ & ->).
    mrun H. apply fees_emit, fees_upd_recycle; [lia|done].
  - destruct (set_bug_bounty_contribution_bps env u b s) as [x s'| |] eqn:H; try done.
    unfold set_bug_bounty_contribution_bps, set_contribution_bps in H. mrun H. apply fees_upd_bounty; [lia|done].
  - destruct (set_mirror_config env f l r m b s) as [x s'| |] eqn:H; try done. by eapply mirror_keeps_fees.
  - destruct (cancel_mirroring env f s) as [x s'| |] eqn:H; try done. by eapply cancel_keeps_fees.
Qed.

Lemma replay_fees_ok h s : Forall (fun eo => fee_args_ok eo.2) h -> fees_in_range s -> fees_in_range (replay_fees h s).
Proof.
  intros Hh. revert s. induction Hh as [|[e o] h Ho _ IH]; intros s Hr; [done|].
  simpl. apply IH, run_fee_op_ok; done.
Qed.

(** However the admin, the users and the leaders set their percentages, a
    claimer receives at least 76.95 % of the reward it gives up (90 % of 95 %
    of 90 %), in full and partial claims alike. *)
Theorem claimant_keeps_most `{!StandardTokens W} (h : list (Env * fee_op)) (s0 : State) (env : Env)
    (u : Address) (gross p : Z) s'
    (Hstart : fees_in_range s0) (Hargs : Forall (fun eo => fee_args_ok eo.2) h)
    (Hparties : pays_others env u (replay_fees h s0)) (Hfund : fund_fits gross (replay_fees h s0))
    (Hopen : emissions_halted (replay_fees h s0) = false) (Hpos : 0 < gross)
    (Hrun : (gross = get_accrued_reward u (replay_fees h s0) /\
             do_claim env u (replay_fees h s0) = Ok p s') \/
            claim_partial env u gross (replay_fees h s0) = Ok p s') :
  7695 * gross <= 10000 * p.
Proof.
  pose proof (replay_fees_ok h s0 Hargs Hstart) as Hr.
  assert (Hf : claim_floor gross p).
  { destruct Hrun as [[-> H]|H].
    - by apply do_claim_split in H as [? _].
    - by apply claim_partial_split in H as (? & _). }
  unfold claim_floor, BPS, MAX_BUG_BOUNTY_BPS, MAX_CLAIM_FEE_BPS, MAX_LEADER_FEE_BPS in Hf. lia.
Qed.

End Bound.

(** ** The life of a queued claim *)

Section Queue.
Context {W : World} (gen_range : Z -> Z -> State -> Z).
Hypothesis gen_range_bounds : forall lo hi s, lo <= hi -> lo <= gen_range lo hi s <= hi.
Implicit Types s : State.

(** What queueing a claim leaves behind. *)
Lemma queued_Ok env u s s1 :
  maybe_queue_large_claim env gen_range u s = Ok true s1 ->
  get_mev_protection_threshold s <= get_accrued_reward u s /\ 0 < get_mev_protection_threshold s /\
  get_accrued_reward u s1 = 0 /\ st_ext s1 = st_ext s /\
  get_total_rewards_paid s1 = get_total_rewards_paid s /\
  exists at_, get_pending_claim u s1 = Some (mkPendingClaim (get_accrued_reward u s) at_) /\
    sequence env + MIN_DELAY_LEDGERS <= at_ <= sequence env + MAX_DELAY_LEDGERS.
Proof.
  intros H. unfold maybe_queue_large_claim, reading in H.
  destruct (Z.leb_spec (get_mev_protection_threshold s) 0); [mrun H; congruence|].
  destruct (Z.ltb_spec (get_accrued_reward u s) (get_mev_protection_threshold s)); [mrun H; congruence|].
  unfold set_accrued_reward in H. mrun H. apply to_u32_Some in H3 as [-> _].
  split_and!; try done.
  - unfold get_accrued_reward. by rdsimp.
  - eexists. split; [unfold get_pending_claim; by rdsimp|].
    pose proof (gen_range_bounds MIN_DELAY_LEDGERS MAX_DELAY_LEDGERS s ltac:(done)). lia.
Qed.

Lemma execute_early env u s pc :
  signed env u = true -> get_pending_claim u s = Some pc -> sequence env < pc_executable_at pc ->
  execute_pending_claim env u s = Err VaultError.EpochNotFinalized s.
Proof.
  intros Hs Hp Hlt. unfold execute_pending_claim, require_auth. rewrite Hs.
  unfold bind, ret, reading. rewrite Hp. simpl. apply Z.ltb_lt in Hlt. by rewrite Hlt.
Qed.

Lemma execute_due env u s pc t w :
  signed env u = true -> get_pending_claim u s = Some pc -> pc_executable_at pc <= sequence env ->
  rd Token s = Some t -> tok_transfer (st_ext s) t (self env) u (pc_amount pc) = Some w ->
  0 <= get_total_rewards_paid s + pc_amount pc <= i128_max ->
  exists s', execute_pending_claim env u s = Ok (pc_amount pc) s' /\
    get_pending_claim u s' = None /\ get_accrued_reward u s' = get_accrued_reward u s /\
    get_total_rewards_paid s' = get_total_rewards_paid s + pc_amount pc /\ st_ext s' = w.
Proof.
  intros Hs Hp Hle Ht Hw Hfit. apply Z.ltb_ge in Hle.
  eexists. split.
  - unfold execute_pending_claim, require_auth. rewrite Hs. unfold bind, ret, reading at 1. rewrite Hp. simpl.
    rewrite Hle. simpl. unfold reading at 1. rewrite Ht. simpl. unfold transfer. rewrite Hw. simpl.
    unfold reading. unfold get_total_rewards_paid at 1. rdsimp.
    change (default 0 (rd TotalRewardsPaid s)) with (get_total_rewards_paid s).
    unfold checked_add. rewrite to_i128_in by (unfold in_i128; pose proof i128_bounds; lia). simpl.
    unfold set_total_rewards_paid, assert_non_negative, panic_if, bind.
    destruct (Z.ltb_spec (get_total_rewards_paid s + pc_amount pc) 0); [lia|]. simpl. reflexivity.
  - unfold get_pending_claim, get_accrued_reward, get_total_rewards_paid. by rdsimp.
Qed.

Lemma cancel_restores env u s pc :
  signed env u = true -> get_pending_claim u s = Some pc ->
  0 <= get_accrued_reward u s + pc_amount pc <= i128_max ->
  exists s', cancel_pending_claim env u s = Ok tt s' /\ get_pending_claim u s' = None /\
    get_accrued_reward u s' = get_accrued_reward u s + pc_amount pc /\ st_ext s' = st_ext s.
Proof.
  intros Hs Hp Hfit. eexists. split.
  - unfold cancel_pending_claim, require_auth. rewrite Hs. unfold bind, ret, reading. rewrite Hp. simpl.
    unfold checked_add. rewrite to_i128_in by (unfold in_i128; pose proof i128_bounds; lia). simpl.
    unfold set_accrued_reward, assert_non_negative, panic_if, bind.
    destruct (Z.ltb_spec (get_accrued_reward u s + pc_amount pc) 0); [lia|]. simpl. reflexivity.
  - unfold get_pending_claim, get_accrued_reward. by rdsimp.
Qed.

(** A claim at or above the threshold is queued whole and nothing is paid.
    From the queue it cannot be executed for at least one ledger; ten ledgers
    later at the latest its owner is paid exactly the queued amount in the
    stake token, with no deduction, if the vault's transfer succeeds; or the
    owner cancels and gets the whole amount back on the accrued reward.  Either
    way the entry is gone and the claim cannot be executed again. *)
Theorem queued_claim_lifecycle (env : Env) (u : Address) s s1
    (Hq : maybe_queue_large_claim env gen_range u s = Ok true s1) :
  let amount := get_accrued_reward u s in
  get_mev_protection_threshold s <= amount /\
  get_accrued_reward u s1 = 0 /\ st_ext s1 = st_ext s /\
  (forall env' s2, signed env' u = true -> get_pending_claim u s2 = get_pending_claim u s1 ->
     sequence env' <= sequence env -> execute_pending_claim env' u s2 = Err VaultError.EpochNotFinalized s2) /\
  (forall env' s2 t w, signed env' u = true -> get_pending_claim u s2 = get_pending_claim u s1 ->
     sequence env + MAX_DELAY_LEDGERS <= sequence env' -> rd Token s2 = Some t ->
     tok_transfer (st_ext s2) t (self env') u amount = Some w ->
     0 <= get_total_rewards_paid s2 + amount <= i128_max ->
     exists s3, execute_pending_claim env' u s2 = Ok amount s3 /\ st_ext s3 = w /\
       get_accrued_reward u s3 = get_accrued_reward u s2 /\
       (forall env'', signed env'' u = true ->
          execute_pending_claim env'' u s3 = Err VaultError.PositionNotFound s3)) /\
  (forall env' s2, signed env' u = true -> get_pending_claim u s2 = get_pending_claim u s1 ->
     0 <= get_accrued_reward u s2 + amount <= i128_max ->
     exists s3, cancel_pending_claim env' u s2 = Ok tt s3 /\ st_ext s3 = st_ext s2 /\
       get_accrued_reward u s3 = get_accrued_reward u s2 + amount /\ get_pending_claim u s3 = None).
Proof.
  apply queued_Ok in Hq as (Hthr & Hpos & Ha & He & _ & at_ & Hp & Hat). cbv zeta.
  unfold MIN_DELAY_LEDGERS, MAX_DELAY_LEDGERS in *.
  split; [done|]. split; [done|]. split; [done|]. split; [|split].
  - intros env' s2 Hs Hs2 Hle. rewrite Hp in Hs2. eapply execute_early; [done|exact Hs2|simpl; lia].
  - intros env' s2 t w Hs Hs2 Hle Ht Hw Hfit. rewrite Hp in Hs2.
    destruct (execute_due env' u s2 _ t w Hs Hs2 ltac:(simpl; lia) Ht Hw Hfit) as (s3 & Hx & Hgone & Hacc & _ & He3).
    exists s3. split_and!; try done. intros env'' Hs''.
    unfold execute_pending_claim, require_auth. rewrite Hs''. unfold bind, ret, reading. by rewrite Hgone.
  - intros env' s2 Hs Hs2 Hfit. rewrite Hp in Hs2.
    destruct (cancel_restores env' u s2 _ Hs Hs2 Hfit) as (s3 & Hx & Hgone & Hacc & He3).
    exists s3. done.
Qed.

End Queue.

(** ** The audit trail *)

Section Trail.
Context {W : World}.
Implicit Types s : State.

(** [s] stores the movements [ms]: one hundred to a page, in order, numbered
    from one, with the running totals. *)
Record trail s (ms : list RewardTokenMovement) : Prop := {
  tr_count : get_audit_log_count s = Z.of_nat (length ms);
  tr_pages : forall page, 0 <= page < 2 ^ 32 ->
    get_audit_log_page page s = take 100 (drop (Z.to_nat (100 * page)) ms);
  tr_ids : forall i m, ms !! i = Some m -> mv_movement_id m = Z.of_nat i + 1;
  tr_summary : get_audit_log_summary s =
    fold_left (fun t m => summary_with (mv_movement_type m) (mv_amount m) t) ms (0, 0, 0, 0)
}.

(** How many movements the page numbers can tell apart. *)
Definition TRAIL_CAPACITY : Z := 100 * 2 ^ 32.

Lemma trail_same s s' ms : (forall k, trail_key k -> rd k s' = rd k s) -> trail s ms -> trail s' ms.
Proof.
  intros H []. split; try done; unfold get_audit_log_count, get_audit_log_page, get_audit_log_summary in *;
    intros; rewrite H; eauto; done.
Qed.

(** Appending in the page of the end. *)
Lemma take_drop_snoc {A} (n k : nat) (l : list A) x :
  take n (drop k (l ++ [x])) =
    if decide (k <= length l < k + n)%nat then take n (drop k l) ++ [x] else take n (drop k l).
Proof.
  case_decide as H.
  - rewrite drop_app_le by lia. rewrite take_ge by (rewrite length_app, length_drop; simpl; lia).
    by rewrite take_ge by (rewrite length_drop; lia).
  - destruct (decide (length l < k)%nat) as [Hk|Hk].
    + rewrite !drop_ge by (rewrite ?length_app; simpl; lia). done.
    + rewrite drop_app_le by lia. apply take_app_le. rewrite length_drop. lia.
Qed.

Lemma audit_page_of_end n : 0 <= n < TRAIL_CAPACITY -> audit_page_of (n + 1) = n / 100.
Proof.
  intros Hn. unfold audit_page_of, AUDIT_PAGE_SIZE, TRAIL_CAPACITY in *. replace (n + 1 - 1) with n by lia.
  apply Z.mod_small. split; [apply Z.div_pos; lia|apply Z.div_lt_upper_bound; lia].
Qed.

Lemma log_appends E env t f d a l s ms id s' :
  trail s ms -> Z.of_nat (length ms) < TRAIL_CAPACITY ->
  log_reward_movement (E:=E) env t f d a l s = Ok id s' ->
  id = Z.of_nat (length ms) + 1 /\
  trail s' (ms ++ [mkMovement (Z.of_nat (length ms) + 1) t f d a l (sequence env)]).
Proof.
  intros [Hc Hp Hi Hsum] Hcap H. unfold log_reward_movement, reading in H.
  assert (Hid : u64_sat_add (get_audit_log_count s) 1 = Z.of_nat (length ms) + 1).
  { rewrite Hc. unfold u64_sat_add, u64_max, TRAIL_CAPACITY in *. lia. }
  rewrite Hid, audit_page_of_end in H by lia. set (n := Z.of_nat (length ms)) in *.
  assert (Hpage : 0 <= n / 100 < 2 ^ 32).
  { unfold TRAIL_CAPACITY in Hcap. split; [apply Z.div_pos; lia|apply Z.div_lt_upper_bound; lia]. }
  mrun H. split; [done|]. set (m := mkMovement (n + 1) t f d a l (sequence env)). split.
  - unfold get_audit_log_count. rdsimp. simpl. rewrite length_app. simpl. lia.
  - intros page Hr. rewrite take_drop_snoc. pose proof (Z.div_mod n 100 ltac:(lia)). pose proof (Z.mod_pos_bound n 100 ltac:(lia)).
    destruct (decide (page = n / 100)) as [->|Hne].
    + rewrite decide_True by lia. rewrite <- Hp by done. unfold get_audit_log_page. by rdsimp.
    + rewrite decide_False; [|intros [H1 H2]; apply Hne; apply Z.div_unique_pos with (n - 100 * page); lia].
      rewrite <- Hp by done. unfold get_audit_log_page. by rdsimp.
  - intros i mv Hmv. apply lookup_snoc_Some in Hmv as [[_ Hmv]|[-> <-]]; [by apply Hi|]. done.
  - rewrite fold_left_app. simpl. rewrite <- Hsum. unfold get_audit_log_summary. by rdsimp.
Qed.

(** One movement is logged, by a claim or by anybody else who logs one, or
    something happens that leaves the trail's entries alone. *)
Inductive trail_step : State * list RewardTokenMovement -> State * list RewardTokenMovement -> Prop :=
| ts_log E env t f d a l s ms id s' :
    log_reward_movement (E:=E) env t f d a l s = Ok id s' ->
    trail_step (s, ms) (s', ms ++ [mkMovement (Z.of_nat (length ms) + 1) t f d a l (sequence env)])
| ts_claim env u p s ms s' :
    get_accrued_reward u s <> 0 -> emissions_halted s = false -> do_claim env u s = Ok p s' ->
    trail_step (s, ms)
      (s', ms ++ [mkMovement (Z.of_nat (length ms) + 1) RewardPaid (self env) u p "claim" (sequence env)])
| ts_other s s' ms : (forall k, trail_key k -> rd k s' = rd k s) -> trail_step (s, ms) (s', ms).

(** [m] never writes the trail. *)
Definition trail_free {E A} (m : M E A) : Prop := touches (fun k => ~ trail_key k) m.

Lemma trail_free_Ok {E A} (m : M E A) s a s' :
  trail_free m -> m s = Ok a s' -> forall k, trail_key k -> rd k s' = rd k s.
Proof. intros Hm H k Hk. eapply (touches_Ok _ _ _ _ _ k Hm H). tauto. Qed.

Lemma free_recycle fee : trail_free (recycle_fee fee).
Proof. unfold trail_free, recycle_fee, set_reward_pool_balance. frames. Qed.
Lemma free_bounty E env u x : trail_free (deduct_bounty_contribution (E:=E) env u x).
Proof. unfold trail_free, deduct_bounty_contribution, set_fund_balance. frames. Qed.
Lemma free_claim_fee env u x : trail_free (apply_claim_fee env u x).
Proof.
  pose proof free_recycle. unfold trail_free, apply_claim_fee, set_claim_fee_reserve in *. frames.
Qed.
Lemma free_mirror env u x : trail_free (apply_mirror_perf_fee env u x).
Proof. unfold trail_free, apply_mirror_perf_fee. frames. Qed.
Lemma free_net env u x : trail_free (net_of_deductions env u x).
Proof.
  pose proof (free_bounty VaultError.t env u). pose proof (free_claim_fee env u). pose proof (free_mirror env u).
  unfold trail_free, net_of_deductions in *. frames.
Qed.
Lemma free_pay E env t u p : trail_free (pay_reward (E:=E) env t u p).
Proof. unfold trail_free, pay_reward. frames. Qed.
Lemma free_rebate E env t u : trail_free (pay_gas_rebate (E:=E) env t u).
Proof. unfold trail_free, pay_gas_rebate, set_gas_rebate_pool. frames. Qed.
Lemma free_snapshot E env u : trail_free (maybe_auto_snapshot (E:=E) env u).
Proof. unfold trail_free, maybe_auto_snapshot, take_value_snapshot_inner, set_appreciation_log. frames. Qed.
Lemma free_receipt E env u a t d : trail_free (record_receipt (E:=E) env u a t d).
Proof. unfold trail_free, record_receipt, set_count. frames. Qed.
Lemma free_low E env : trail_free (check_and_emit_low_balance (E:=E) env).
Proof. unfold trail_free, check_and_emit_low_balance. frames. Qed.

(** A paid claim logs its payout, once. *)
Lemma do_claim_logs env u s p s' :
  get_accrued_reward u s <> 0 -> emissions_halted s = false -> do_claim env u s = Ok p s' ->
  exists s1 s2 id, (forall k, trail_key k -> rd k s1 = rd k s) /\
    log_reward_movement (E:=VaultError.t) env RewardPaid (self env) u p "claim" s1 = Ok id s2 /\
    (forall k, trail_key k -> rd k s' = rd k s2).
Proof.
  intros Hpos Hh H. unfold do_claim, reading in H.
  destruct (Z.eqb_spec (get_accrued_reward u s) 0); [lia|]. cbv beta in H. rewrite Hh in H.
  apply bind_Ok in H as (rt & s0 & E0 & H). apply reward_token_address_Ok in E0 as [Hrt ->].
  apply bind_Ok in H as (t & s0 & E0 & H). unfold token_address, reading in E0. apply ok_or_Ok in E0 as [Ht ->].
  apply bind_Ok in H as ([] & s1 & E1 & H). unfold set_accrued_reward in E1. mrun E1.
  apply bind_Ok in H as (np & s2 & E2 & H). apply plain_Ok in E2 as [_ ->].
  apply bind_Ok in H as ([] & s2 & E2 & H). unfold set_total_rewards_paid in E2. mrun E2.
  apply bind_Ok in H as (p0 & s3 & E3 & H). pose proof (trail_free_Ok _ _ _ _ (free_net env u _) E3) as F3.
  apply bind_Ok in H as ([] & s4 & E4 & H). pose proof (trail_free_Ok _ _ _ _ (free_pay _ env rt u p0) E4) as F4.
  apply bind_Ok in H as ([] & s5 & E5 & H). pose proof (trail_free_Ok _ _ _ _ (free_rebate _ env t u) E5) as F5.
  apply bind_Ok in H as (id & s6 & E6 & H).
  apply bind_Ok in H as (? & s7 & E7 & H). pose proof (trail_free_Ok _ _ _ _ (free_snapshot _ env u) E7) as F7.
  apply bind_Ok in H as (? & s8 & E8 & H). unfold claimed in E8. apply publish_Ok in E8 as [_ ->].
  apply bind_Ok in H as (? & s9 & E9 & H). pose proof (trail_free_Ok _ _ _ _ (free_receipt _ env u p0 rt u) E9) as F9.
  apply bind_Ok in H as (? & s10 & E10 & H). pose proof (trail_free_Ok _ _ _ _ (free_low _ env) E10) as F10.
  apply ret_Ok in H as [-> ->]. exists s5, s6, id. split; [|split; [done|]].
  - intros k Hk. rewrite F5, F4, F3 by done. rewrite !rd_upd_ne; [done|..]; intros <-; done.
  - intros k Hk. rewrite F10, F9, rd_emit, F7 by done. done.
Qed.


End Trail.

(** ** The peg check *)

Section PegCheck.
Context {W : World}.
Implicit Types s : State.

(** What [set_peg_config] accepts. *)
Definition peg_valid (c : PegConfig) : Prop :=
  0 < pg_target_price c /\ 1 <= pg_lower_band_bps c <= BPS /\ 1 <= pg_upper_band_bps c <= BPS.

Definition peg_lower (c : PegConfig) : Z := pg_target_price c * (BPS - pg_lower_band_bps c) / BPS.
Definition peg_upper (c : PegConfig) : Z := pg_target_price c * (BPS + pg_upper_band_bps c) / BPS.

Lemma set_peg_config_valid env a c s x s' :
  0 <= pg_lower_band_bps c -> 0 <= pg_upper_band_bps c ->
  set_peg_config env a c s = Ok x s' -> peg_valid c /\ get_peg_config s' = Some c.
Proof.
  intros Hl Hu H. unfold set_peg_config, validate_config in H.
  apply bind_Ok in H as (? & ? & H1 & H). apply require_auth_Ok in H1 as (_ & _ & ->).
  apply bind_Ok in H as (? & ? & H1 & H). apply get_admin_Ok in H1 as (_ & _ & ->).
  apply bind_Ok in H as (? & ? & H1 & H). apply fail_if_Ok in H1 as (_ & _ & ->).
  apply bind_Ok in H as (? & ? & H1 & H). apply bind_Ok in H1 as (? & ? & H2 & H1).
  apply fail_if_Ok in H2 as (H2 & _ & ->). apply fail_if_Ok in H1 as (H1 & _ & ->). mrun H.
  split; [unfold peg_valid; lia|]. unfold get_peg_config. by rdsimp.
Qed.

Lemma band_edge_Some c scale v : 0 < pg_target_price c -> 0 <= scale ->
  band_edge c scale = Some v -> v = pg_target_price c * scale / BPS.
Proof.
  intros Ht Hs H. unfold band_edge in H. destruct (checked_mul _ _) as [x|] eqn:Hx; [|done].
  rewrite (checked_bps _ _ _ _ Hx H). apply quot_floor; unfold BPS; nia.
Qed.

Lemma call_i128_Ok E c fn args s z s' :
  call_i128 (E:=E) c fn args s = Ok z s' ->
  exists w, ext_call (st_ext s) c fn args = Some (w, VInt z) /\ s' = set_ext w s.
Proof.
  unfold call_i128, bind, try_call, ret, panic. destruct (ext_call _ _ _ _) as [[w v]|]; [|done].
  destruct v; try done. intros [= <- <-]. eauto.
Qed.

Lemma buyback_stores_nothing env x s r s' k :
  execute_buyback env x s = Ok r s' -> rd k s' = rd k s.
Proof.
  intros H. eapply (touches_Ok (fun _ => False)); [|exact H|tauto].
  unfold execute_buyback, token_address, call_i128. frames.
Qed.

Lemma buyback_range m available : 0 <= available ->
  0 <= buyback_amount m available <= available /\ (0 < m -> buyback_amount m available <= m).
Proof.
  intros Ha. unfold buyback_amount.
  destruct (Z.ltb_spec 0 m), (Z.ltb_spec m available); simpl; lia.
Qed.

Lemma halted_blocks u s : emissions_halted s = true -> forall env, do_claim env u s = Ok 0 s.
Proof. intros Hh env. unfold do_claim, reading. destruct (_ =? 0); [done|]. cbv beta. by rewrite Hh. Qed.

Lemma halted_blocks_partial env u a s p s' : emissions_halted s = true ->
  claim_partial env u a s = Ok p s' -> p = 0 /\ settled s s'.
Proof.
  intros Hh H. apply guarded_Ok in H as (s9 & _ & H & ->).
  apply bind_Ok in H as (? & s0 & H0 & H). apply require_auth_Ok in H0 as (_ & _ & ->).
  apply bind_Ok in H as (? & s0 & H0 & H). apply touch_Ok in H0.
  apply bind_Ok in H as (? & ? & H1 & H). apply ret_Ok in H1 as [_ ->].
  apply bind_Ok in H as (? & ? & H1 & H). apply fail_if_Ok in H1 as (_ & _ & ->).
  assert (Hpre : settled s s0).
  { eapply settled_trans; [|exact H0]. apply settled_upd. by right. }
  assert (Hh0 : emissions_halted s0 = true).
  { unfold emissions_halted in *. by rewrite (proj1 Hpre) by (unfold side_key; naive_solver). }
  unfold reading in H. rewrite Hh0 in H. apply ret_Ok in H as [-> ->]. split; [done|].
  eapply settled_trans; [exact Hpre|]. apply settled_upd. by right.
Qed.

(** A successful peg check acts on the price the oracle answered: below the
    band the reward pool is debited by the buyback, never by more than the cap
    or the pool, and the halt is left as it was; inside the band emissions are
    open; above it they are halted, and from then on full and partial claims
    pay nothing and take nothing off the accrued rewards. *)
Theorem peg_check_outcome (env : Env) (c : PegConfig) s x s'
    (Hc : get_peg_config s = Some c) (Hv : peg_valid c)
    (Hpool : 0 <= get_reward_pool_balance s <= i128_max) (Hrun : check_peg env s = Ok x s') :
  exists price w,
    ext_call (st_ext s) (pg_oracle c) "get_price" [VStr (pg_asset_id c)] = Some (w, VInt price) /\
    (price < peg_lower c ->
       let spent := buyback_amount (get_max_buyback_per_check s) (get_reward_pool_balance s) in
       get_reward_pool_balance s' = get_reward_pool_balance s - spent /\
       0 <= spent <= get_reward_pool_balance s /\
       (0 < get_max_buyback_per_check s -> spent <= get_max_buyback_per_check s) /\
       emissions_halted s' = emissions_halted s) /\
    (peg_lower c <= price <= peg_upper c ->
       get_reward_pool_balance s' = get_reward_pool_balance s /\ emissions_halted s' = false) /\
    (peg_upper c < price -> peg_lower c <= price ->
       get_reward_pool_balance s' = get_reward_pool_balance s /\ emissions_halted s' = true /\
       forall env' u, do_claim env' u s' = Ok 0 s' /\
         forall a p s'', claim_partial env' u a s' = Ok p s'' ->
           p = 0 /\ st_ext s'' = st_ext s' /\ get_accrued_reward u s'' = get_accrued_reward u s').
Proof.
  unfold check_peg, reading in Hrun. rewrite Hc in Hrun. destruct Hv as (Ht & Hl & Hu).
  assert (Hsub : sat_sub BPS (pg_lower_band_bps c) = BPS - pg_lower_band_bps c)
    by (apply clamp_in; unfold in_i128, i128_min, i128_max, BPS in *; lia).
  assert (Hadd : sat_add BPS (pg_upper_band_bps c) = BPS + pg_upper_band_bps c)
    by (apply clamp_in; unfold in_i128, i128_min, i128_max, BPS in *; lia).
  apply bind_Ok in Hrun as (c' & ? & H1 & H). apply ok_or_Ok in H1 as [[= <-] ->].
  apply bind_Ok in H as (price & s1 & H1 & H). apply call_i128_Ok in H1 as (w & Hw & ->).
  apply bind_Ok in H as (lower & ? & H1 & H). apply ok_or_Ok in H1 as [Hlow ->].
  rewrite Hsub in Hlow. apply band_edge_Some in Hlow as ->; [|done|lia]. fold (peg_lower c) in H.
  exists price, w. split; [done|].
  change (get_reward_pool_balance (set_ext w s)) with (get_reward_pool_balance s) in H.
  destruct (Z.ltb_spec price (peg_lower c)) as [Hlt|Hge].
  - split; [intros _; cbv zeta|split; intros; lia].
    pose proof (buyback_range (get_max_buyback_per_check s) (get_reward_pool_balance s) ltac:(lia)) as [Hb1 Hb2].
    change (get_max_buyback_per_check (set_ext w s)) with (get_max_buyback_per_check s) in H.
    set (spent := buyback_amount _ _) in *.
    apply bind_Ok in H as (? & s2 & H1 & H). apply publish_Ok in H as [_ ->].
    destruct (Z.ltb_spec 0 spent).
    + apply bind_Ok in H1 as (r & s3 & H2 & H1). pose proof (fun k => buyback_stores_nothing _ _ _ _ _ k H2) as Hk.
      unfold set_reward_pool_balance in H1. mrun H1. split_and!; try done; try lia.
      * unfold get_reward_pool_balance at 1. rdsimp. simpl. apply clamp_in.
        unfold in_i128, i128_min in *. lia.
      * unfold emissions_halted. rdsimp. by rewrite Hk.
    + mrun H1. split_and!; try done; try lia. change (get_reward_pool_balance s = get_reward_pool_balance s - spent). lia.
  - split; [intros; lia|].
    apply bind_Ok in H as (upper & ? & H1 & H). apply ok_or_Ok in H1 as [Hup ->].
    rewrite Hadd in Hup. apply band_edge_Some in Hup as ->; [|done|unfold BPS in *; lia]. fold (peg_upper c) in H.
    change (emissions_halted (set_ext w s)) with (emissions_halted s) in H.
    destruct (Z.ltb_spec (peg_upper c) price) as [Hgt|Hle].
    + split; [intros; lia|]. intros _ _.
      assert (Hs : get_reward_pool_balance s' = get_reward_pool_balance s /\ emissions_halted s' = true).
      { destruct (emissions_halted s) eqn:Hh; simpl in H; unfold set_emissions_halted in H; mrun H; [done|].
        done. }
      split; [apply Hs|]. split; [apply Hs|]. intros env' u. split; [apply halted_blocks, Hs|].
      intros a p s'' Hp. apply halted_blocks_partial in Hp as [-> [Hd He]]; [|apply Hs]. split_and!; try done.
      unfold get_accrued_reward. rewrite Hd; [done|]. unfold side_key. naive_solver.
    + split; [|intros; lia]. intros _. destruct (emissions_halted s) eqn:Hh; simpl in H; unfold set_emissions_halted in H; mrun H; [|done].
      split; [done|]. unfold emissions_halted. by rdsimp.
Qed.

End PegCheck.

(** ** On the concrete host

    The vault is account 1, the admin 2, the claimer 3, its leader 4; every
    account starts with 5000 of token 9. *)

Definition claim_env (l : Z) : Env := at_ledger l.
Definition fee_history : list (Env * fee_op) :=
  [(claim_env 5, FSetClaimFee 2 500); (claim_env 5, FSetRecycle 2 5000);
   (claim_env 6, FSetBounty 3 1000); (claim_env 6, FSetMirror 3 4 5000 100 1000)].
(** 5000 deposited, 1000 accrued to the claimer, an empty reward pool. *)
Definition deposits_only : State (W := token_world) :=
  upd (AccruedReward 3) (Some 1000) (upd TotalDeposited (Some 5000) (upd TotalShares (Some 5000)
    (upd Admin (Some 2%positive) (upd Token (Some 9%positive) (start_state (fun _ _ => 5000)))))).
Definition claim_vault : State (W := token_world) := replay_fees fee_history deposits_only.

Lemma deposits_only_fees : fees_in_range deposits_only.
Proof. unfold deposits_only. do 5 (apply fees_upd_other; [done|]). by split. Qed.
Lemma fee_history_args : Forall (fun eo => fee_args_ok eo.2) fee_history.
Proof. repeat constructor; discriminate. Qed.
Lemma claim_vault_fees : fees_in_range claim_vault.
Proof. apply replay_fees_ok; [exact fee_history_args|exact deposits_only_fees]. Qed.
Lemma claim_vault_mirror : get_mirror_config_inner 3 claim_vault = Some (mkMirrorConfig 4 5000 100 true 1000).
Proof. vm_compute. reflexivity. Qed.
Lemma claim_vault_parties : pays_others (claim_env 10) 3 claim_vault.
Proof. split; [done|]. intros cfg Hc. rewrite claim_vault_mirror in Hc. by injection Hc as <-. Qed.
Lemma claim_vault_fund : fund_fits 1000 claim_vault.
Proof. split; vm_compute; discriminate. Qed.
Lemma claim_vault_accrued : 1000 = get_accrued_reward 3 claim_vault.
Proof. vm_compute. reflexivity. Qed.
Lemma claim_vault_open : emissions_halted claim_vault = false.
Proof. vm_compute. reflexivity. Qed.
Lemma claim_vault_pays :
  exists s', do_claim (claim_env 10) 3 claim_vault = Ok 770 s'.
Proof.
  destruct (succeeds_run (do_claim (claim_env 10) 3 claim_vault) (fun p _ => p =? 770)) as (p & s' & H & Hp);
    [vm_compute; reflexivity|]. apply Z.eqb_eq in Hp as ->. by exists s'.
Qed.


Lemma claimant_keeps_most_witness :
  (exists s', do_claim (claim_env 10) 3 claim_vault = Ok 770 s') /\ 7695 * 1000 <= 10000 * 770.
Proof.
  split; [exact claim_vault_pays|]. destruct claim_vault_pays as [s' H].
  exact (claimant_keeps_most fee_history deposits_only (claim_env 10) 3 1000 770 s' deposits_only_fees
    fee_history_args claim_vault_parties claim_vault_fund claim_vault_open eq_refl
    (or_introl (conj claim_vault_accrued H))).
Defined.

(** A claim neither checks nor debits the reward pool: with an empty pool
    and a vault that holds exactly its deposits, a claim succeeds, the deposits
    on the books stay what they were, and the vault holds less than it owes its
    depositors. *)
Theorem claim_paid_from_deposits :
  get_reward_pool_balance deposits_only = 0 /\
  balance_of 9 1 deposits_only = get_total_deposited deposits_only /\
  exists s', do_claim (claim_env 10) 3 deposits_only = Ok 1000 s' /\
    get_total_deposited s' = get_total_deposited deposits_only /\
    balance_of 9 1 s' = get_total_deposited s' - 1000.
Proof.
  split; [by vm_compute|]. split; [by vm_compute|].
  destruct (succeeds_run (do_claim (claim_env 10) 3 deposits_only)
    (fun p s' => (p =? 1000) && (get_total_deposited s' =? 5000) && (balance_of 9 1 s' =? 4000)))
    as (p & s' & H & Hp); [vm_compute; reflexivity|].
  apply andb_prop in Hp as [[->%Z.eqb_eq Ht%Z.eqb_eq]%andb_prop Hb%Z.eqb_eq].
  exists s'. split; [exact H|]. rewrite Ht, Hb. split; by vm_compute.
Qed.

(** *** A queued claim *)

Definition middle (lo hi : Z) (s : State (W := token_world)) : Z := (lo + hi) / 2.
Lemma middle_bounds lo hi s : lo <= hi -> lo <= middle lo hi s <= hi.
Proof. intros H. unfold middle. pose proof (Z.div_mod (lo + hi) 2 ltac:(lia)). pose proof (Z.mod_pos_bound (lo + hi) 2 ltac:(lia)). lia. Qed.
Definition queueing_vault : State (W := token_world) := upd MevThreshold (Some 500) deposits_only.

Lemma queued_claim_lifecycle_witness :
  exists s1, maybe_queue_large_claim (claim_env 10) middle 3 queueing_vault = Ok true s1 /\
    get_accrued_reward 3 queueing_vault = 1000 /\ get_accrued_reward 3 s1 = 0 /\
    execute_pending_claim (claim_env 10) 3 s1 = Err VaultError.EpochNotFinalized s1.
Proof.
  destruct (succeeds_run (maybe_queue_large_claim (claim_env 10) middle 3 queueing_vault) (fun b _ => b))
    as (b & s1 & H & ->); [vm_compute; reflexivity|].
  destruct (queued_claim_lifecycle middle middle_bounds (claim_env 10) 3 queueing_vault s1 H)
    as (_ & Ha & _ & Hearly & _).
  exists s1. split; [exact H|]. split; [vm_compute; reflexivity|]. split; [exact Ha|].
  apply Hearly; [reflexivity|reflexivity|simpl; lia].
Defined.

(** *** The trail of one claim *)

Lemma empty_trail : trail deposits_only [].
Proof.
  split; [reflexivity| | |reflexivity].
  - intros page _. rewrite drop_nil, take_nil. reflexivity.
  - intros i m Hm. by rewrite lookup_nil in Hm.
Qed.


(** *** An oracle answering 150 against a band of 90 to 110 *)

Definition oracle_world (price : Z) : World := {|
  ext := token_ledger;
  tok_balance := ledger_balance;
  tok_transfer := ledger_transfer;
  tok_decimals := fun _ _ => Some 7;
  ext_call := fun w _ _ _ => Some (w, VInt price)
|}.
Definition band : PegConfig := mkPegConfig 100 1000 1000 8 "XLM".
Definition pegged_vault : State (W := oracle_world 150) :=
  upd (W := oracle_world 150) PegCfg (Some band)
    (upd (W := oracle_world 150) (AccruedReward 3) (Some 1000)
      (mkState (W := oracle_world 150) sempty (fun _ _ => 5000) [])).

Lemma peg_check_outcome_witness :
  exists s', check_peg (W := oracle_world 150) (claim_env 10) pegged_vault = Ok tt s' /\
    peg_valid band /\ emissions_halted (W := oracle_world 150) s' = true /\
    do_claim (W := oracle_world 150) (claim_env 11) 3 s' = Ok 0 s'.
Proof.
  destruct (succeeds_run (check_peg (W := oracle_world 150) (claim_env 10) pegged_vault) (fun _ _ => true))
    as ([] & s' & H & _); [vm_compute; reflexivity|].
  assert (Hv : peg_valid band) by (split_and!; vm_compute; congruence).
  destruct (peg_check_outcome (W := oracle_world 150) (claim_env 10) band pegged_vault tt s' eq_refl Hv
    ltac:(split; vm_compute; discriminate) H) as (price & w & Hw & _ & _ & Hhigh).
  injection Hw as _ <-. destruct Hhigh as (_ & Hh & Hblock); [vm_compute; reflexivity|vm_compute; discriminate|].
  exists s'. split; [exact H|]. split; [exact Hv|]. split; [exact Hh|]. apply Hblock.
Defined.
