(* ===== verification/Smoothing.v ===== *)
(** * Pool activation and yield smoothing ([vault.rs], issues #233 to #235)

    Two latches follow the pool's deposits: whether the pool counts as active,
    and the ledger from which rewards accrue.  A smoothed yield addition is
    credited to the deposits linearly over a window; [settle_smoothing] credits
    what has vested so far.  [vault.rs] declares [check_activation] and
    [maybe_activate_rewards] twice, the first time with an empty body; the
    definitions with a body, of the impl block of this feature, are the ones
    modelled. *)

From S2P Require Import Prelude Errors Storage Host Events Concrete Accessors Admin RewardMath Rewards.

Definition MAX_SMOOTHING_PERIOD_LEDGERS : Z := STELLAR_LEDGERS_PER_YEAR.

Section Activation.
Context {W : World} (env : Env).
Implicit Types s : State.

(** ** Activation *)

Definition get_activation_threshold s : Z := default 0 (rd ActThreshold s).
Definition get_pool_was_active s : bool := default false (rd PoolWasActive s).
Definition set_pool_was_active {E} (active : bool) : M E unit := put PoolWasActive active.
Definition set_rewards_activated_at {E} (ledger : Z) : M E unit := put RewardsActivatedAt ledger.

Definition set_activation_threshold (admin : Address) (amount : Z) : M VaultError.t unit :=
  require_admin_as env admin ;;;
  fail_if (amount <? 0) VaultError.ZeroAmount ;;;
  put ActThreshold amount.

Definition pool_is_active s : bool :=
  let threshold := get_activation_threshold s in
  if threshold <=? 0 then true else threshold <=? get_total_deposited s.

Definition check_activation {E} : M E unit :=
  let& threshold := get_activation_threshold in
  if threshold <=? 0 then ret tt
  else
    let& total_staked := get_total_deposited in
    let& was_active := get_pool_was_active in
    let is_active := threshold <=? total_staked in
    if is_active && negb was_active then
      set_pool_was_active true ;;;
      Ev.pool_activated env total_staked threshold (sequence env)
    else if negb is_active && was_active then
      set_pool_was_active false ;;;
      Ev.pool_deactivated env total_staked threshold (sequence env)
    else ret tt.

Definition maybe_activate_rewards {E} : M E unit :=
  let& threshold := get_min_pool_size in
  let& activated := get_rewards_activated_at in
  if (threshold <=? 0) || match activated with Some _ => true | None => false end then ret tt
  else
    let& total_staked := get_total_deposited in
    if total_staked <? threshold then ret tt
    else
      let current_ledger := sequence env in
      set_rewards_activated_at current_ledger ;;;
      Ev.rewards_activated env total_staked threshold current_ledger.

Definition set_min_pool_size_to_activate (admin : Address) (amount : Z) : M VaultExtError.t unit :=
  try_ (require_admin_as env admin) ;;;
  fail_if (amount <? 0) VaultExtError.ZeroAmount ;;;
  let& old_amount := get_min_pool_size in
  put MinPoolSize amount ;;;
  let! admin_actual := try_ get_admin in
  Ev.min_pool_size_set env admin_actual old_amount amount ;;;
  maybe_activate_rewards.

Definition minimum_pool_size_to_activate s : Z := get_min_pool_size s.
Definition rewards_are_active s : bool :=
  if get_min_pool_size s <=? 0 then true
  else match get_rewards_activated_at s with Some _ => true | None => false end.
Definition rewards_activated_at s : option Z :=
  if get_min_pool_size s <=? 0 then Some 0 else get_rewards_activated_at s.
Definition tvl_until_rewards_active s : Z :=
  let threshold := get_min_pool_size s in
  if (threshold <=? 0) || match get_rewards_activated_at s with Some _ => true | None => false end then 0
  else
    let total_staked := get_total_deposited s in
    if threshold <=? total_staked then 0 else threshold - total_staked.

(** ** Smoothing *)

Definition get_smoothing_period s : Z := default 0 (rd SmoothPeriod s).
Definition get_smoothing_min_amount s : Z := default 0 (rd SmoothMin s).
Definition get_smoothing_schedule s : option SmoothingSchedule := rd SmoothSchedule s.
Definition set_smoothing_schedule {E} (schedule : SmoothingSchedule) : M E unit := put SmoothSchedule schedule.

(** What has vested but is not credited yet. *)
Definition releasable_smoothing (schedule : SmoothingSchedule) : Z :=
  let outstanding := sat_sub (sm_total_amount schedule) (sm_released schedule) in
  if outstanding <=? 0 then 0
  else if sm_duration_ledgers schedule =? 0 then outstanding
  else
    let elapsed := u32_sat_sub (sequence env) (sm_start_ledger schedule) in
    if sm_duration_ledgers schedule <=? elapsed then outstanding
    else
      let vested_total := Z.quot (sat_mul (sm_total_amount schedule) elapsed) (sm_duration_ledgers schedule) in
      Z.max (sat_sub vested_total (sm_released schedule)) 0.

Definition settle_smoothing {E} : M E Z :=
  let& stored := get_smoothing_schedule in
  match stored with
  | None => ret 0
  | Some schedule =>
      let releasable := releasable_smoothing schedule in
      if releasable <=? 0 then ret 0
      else
        let released := sat_add (sm_released schedule) releasable in
        set_smoothing_schedule (mkSmoothingSchedule (sm_total_amount schedule) released
          (sm_start_ledger schedule) (sm_duration_ledgers schedule)) ;;;
        let& total_deposited := get_total_deposited in
        set_total_deposited (sat_add total_deposited releasable) ;;;
        check_activation ;;;
        maybe_activate_rewards ;;;
        Ev.smoothing_released env releasable released (sm_total_amount schedule) ;;;
        ret releasable
  end.

Definition release_smoothed_yield {E} : M E Z := settle_smoothing.

(** Rolls [amount] and what is still locked into a fresh window. *)
Definition schedule_smoothing {E} (amount period_ledgers : Z) : M E unit :=
  let! _credited := settle_smoothing in
  let& stored := get_smoothing_schedule in
  let carried_over := match stored with
                      | Some schedule => sat_sub (sm_total_amount schedule) (sm_released schedule)
                      | None => 0
                      end in
  let start_ledger := sequence env in
  let total := sat_add carried_over amount in
  set_smoothing_schedule (mkSmoothingSchedule total 0 start_ledger period_ledgers) ;;;
  Ev.smoothing_scheduled env total start_ledger period_ledgers.

Definition set_reward_smoothing (admin : Address) (period_ledgers min_amount : Z) : M VaultExtError.t unit :=
  try_ (require_admin_as env admin) ;;;
  fail_if ((MAX_SMOOTHING_PERIOD_LEDGERS <? period_ledgers) || (min_amount <? 0))
    VaultExtError.InvalidSmoothingConfig ;;;
  let! _credited := settle_smoothing in
  put SmoothPeriod period_ledgers ;;;
  put SmoothMin min_amount.

Definition get_reward_smoothing_config s : Z * Z := (get_smoothing_period s, get_smoothing_min_amount s).

Definition reward_smoothing s : SmoothingStatus :=
  match get_smoothing_schedule s with
  | None => mkSmoothingStatus 0 0 0 0 0 0 0
  | Some schedule =>
      let elapsed := u32_sat_sub (sequence env) (sm_start_ledger schedule) in
      mkSmoothingStatus (sm_total_amount schedule) (sm_released schedule) (releasable_smoothing schedule)
        (sat_sub (sm_total_amount schedule) (sm_released schedule)) (sm_start_ledger schedule)
        (sm_duration_ledgers schedule) (u32_sat_sub (sm_duration_ledgers schedule) elapsed)
  end.

End Activation.

(** ** What smoothing credits *)

Section Smoothed.
Context {W : World}.
Implicit Types s : State.

Record schedule_wf (sch : SmoothingSchedule) : Prop := {
  sw_released : 0 <= sm_released sch <= sm_total_amount sch;
  sw_total : sm_total_amount sch <= i128_max;
  sw_duration : 0 <= sm_duration_ledgers sch
}.

(** The part of the total due at ledger [t]: linear up to the end of the
    window, everything from there on. *)
Definition vested (sch : SmoothingSchedule) (t : Z) : Z :=
  let elapsed := u32_sat_sub t (sm_start_ledger sch) in
  if sm_duration_ledgers sch <=? elapsed then sm_total_amount sch
  else Z.quot (sat_mul (sm_total_amount sch) elapsed) (sm_duration_ledgers sch).
Definition credited (sch : SmoothingSchedule) (t : Z) : SmoothingSchedule :=
  mkSmoothingSchedule (sm_total_amount sch) (Z.max (sm_released sch) (vested sch t))
    (sm_start_ledger sch) (sm_duration_ledgers sch).

Lemma sat_mul_range a b : 0 <= a <= i128_max -> 0 <= b -> 0 <= sat_mul a b <= a * b.
Proof.
  intros Ha Hb. pose proof i128_bounds as [Hmin Hmax]. unfold sat_mul, clamp_i128.
  assert (0 <= a * b) by nia. split; [|lia]. lia.
Qed.
Lemma sat_mul_mono a b c : 0 <= a -> b <= c -> sat_mul a b <= sat_mul a c.
Proof. intros. unfold sat_mul, clamp_i128. assert (a * b <= a * c) by nia. lia. Qed.

Lemma vested_range sch t : schedule_wf sch -> 0 <= vested sch t <= sm_total_amount sch.
Proof.
  intros [H1 H2 H3]. unfold vested, u32_sat_sub. set (e := Z.max _ 0). assert (0 <= e) by (subst e; lia).
  destruct (Z.leb_spec (sm_duration_ledgers sch) e); [lia|].
  pose proof (sat_mul_range (sm_total_amount sch) e ltac:(lia) ltac:(lia)).
  rewrite Z.quot_div_nonneg by lia. split; [apply Z.div_pos; lia|]. apply Z.div_le_upper_bound; nia.
Qed.
Lemma vested_mono sch t1 t2 : schedule_wf sch -> t1 <= t2 -> vested sch t1 <= vested sch t2.
Proof.
  intros Hw Ht. pose proof (vested_range sch t1 Hw) as Hr. destruct Hw as [H1 H2 H3]. unfold vested, u32_sat_sub in *.
  set (e1 := Z.max (t1 - _) 0) in *. set (e2 := Z.max (t2 - _) 0). assert (0 <= e1 <= e2) by (subst e1 e2; lia).
  destruct (Z.leb_spec (sm_duration_ledgers sch) e2) as [|He2]; [destruct (_ <=? e1); lia|].
  rewrite (proj2 (Z.leb_gt _ e1)) by lia.
  pose proof (sat_mul_range (sm_total_amount sch) e1 ltac:(lia) ltac:(lia)).
  pose proof (sat_mul_range (sm_total_amount sch) e2 ltac:(lia) ltac:(lia)).
  rewrite !Z.quot_div_nonneg by lia. apply Z.div_le_mono; [lia|]. apply sat_mul_mono; lia.
Qed.

Lemma sat_sub_nonneg a b : 0 <= a <= i128_max -> 0 <= b <= i128_max -> sat_sub a b = a - b.
Proof. pose proof i128_bounds as [Hmin Hmax]. unfold sat_sub, clamp_i128. intros. unfold i128_min, i128_max in *. lia. Qed.

Lemma releasable_vested env sch :
  schedule_wf sch -> releasable_smoothing env sch = Z.max (vested sch (sequence env) - sm_released sch) 0.
Proof.
  intros Hw. pose proof (vested_range sch (sequence env) Hw) as Hr. destruct Hw as [H1 H2 H3].
  unfold releasable_smoothing. rewrite sat_sub_nonneg by lia.
  destruct (Z.leb_spec (sm_total_amount sch - sm_released sch) 0); [lia|]. unfold vested in *.
  assert (0 <= u32_sat_sub (sequence env) (sm_start_ledger sch)) by (unfold u32_sat_sub; lia).
  destruct (Z.eqb_spec (sm_duration_ledgers sch) 0) as [E|E].
  - rewrite (proj2 (Z.leb_le (sm_duration_ledgers sch) _)) by lia. lia.
  - destruct (_ <=? _); [lia|]. rewrite sat_sub_nonneg by lia. done.
Qed.

Definition latch_key (k : key) : Prop := k = KFin PoolWasActive \/ k = KInst RewardsActivatedAt.

Lemma latches_run E env s :
  exists s', (forall B (k : M E B), (check_activation env ;;; maybe_activate_rewards env ;;; k) s = k s') /\
    (forall k, ~ latch_key k -> rd k s' = rd k s) /\ st_ext s' = st_ext s.
Proof.
  assert (H1 : exists s1, check_activation (E:=E) env s = Ok tt s1 /\
    (forall k, k <> KFin PoolWasActive -> rd k s1 = rd k s) /\ st_ext s1 = st_ext s).
  { unfold check_activation, reading. destruct (_ <=? 0); [by eexists|].
    destruct (_ && _); [eexists; split; [reflexivity|]; split; [intros; by rdsimp|done]|].
    destruct (_ && _); [eexists; split; [reflexivity|]; split; [intros; by rdsimp|done]|by eexists]. }
  destruct H1 as (s1 & H1 & K1 & E1).
  assert (H2 : exists s2, maybe_activate_rewards (E:=E) env s1 = Ok tt s2 /\
    (forall k, k <> KInst RewardsActivatedAt -> rd k s2 = rd k s1) /\ st_ext s2 = st_ext s1).
  { unfold maybe_activate_rewards, reading. destruct (_ || _); [by eexists|]. destruct (_ <? _); [by eexists|].
    eexists; split; [reflexivity|]; split; [intros; by rdsimp|done]. }
  destruct H2 as (s2 & H2 & K2 & E2). exists s2. split; [|split; [|congruence]].
  - intros B k. unfold bind at 1. rewrite H1. unfold bind at 1. by rewrite H2.
  - intros k Hk. unfold latch_key in Hk. rewrite K2, K1; tauto.
Qed.

(** Settling never fails: it moves what is newly due from the schedule to the
    deposits. *)
Lemma settle_run E env s sch :
  get_smoothing_schedule s = Some sch -> schedule_wf sch -> 0 <= get_total_deposited s ->
  let due := Z.max (sm_released sch) (vested sch (sequence env)) - sm_released sch in
  exists s', settle_smoothing (E:=E) env s = Ok due s' /\
    get_smoothing_schedule s' = Some (credited sch (sequence env)) /\
    get_total_deposited s' = (if due =? 0 then get_total_deposited s else sat_add (get_total_deposited s) due) /\
    (forall k, k <> KFin SmoothSchedule -> k <> KInst TotalDeposited -> ~ latch_key k -> rd k s' = rd k s) /\
    st_ext s' = st_ext s.
Proof.
  intros Hs Hw HD. cbv zeta. pose proof (vested_range sch (sequence env) Hw) as Hr.
  pose proof i128_bounds as [Hmin Hmax]. pose proof Hw as [H1 H2 H3].
  unfold settle_smoothing, reading at 1. rewrite Hs. rewrite releasable_vested by done.
  replace (Z.max (vested sch (sequence env) - sm_released sch) 0)
    with (Z.max (sm_released sch) (vested sch (sequence env)) - sm_released sch) by lia.
  set (due := Z.max (sm_released sch) _ - _).
  destruct (Z.leb_spec due 0).
  - exists s. split; [unfold ret; f_equal; lia|]. rewrite (proj2 (Z.eqb_eq due 0)) by lia.
    split; [|by split_and!]. rewrite Hs. f_equal. unfold credited. replace (Z.max _ _) with (sm_released sch) by lia.
    by destruct sch.
  - rewrite (proj2 (Z.eqb_neq due 0)) by lia.
    assert (Hrel : sat_add (sm_released sch) due = Z.max (sm_released sch) (vested sch (sequence env))).
    { unfold sat_add, clamp_i128. subst due. unfold i128_min, i128_max in *. lia. }
    unfold bind at 1, set_smoothing_schedule, put at 1. unfold reading, set_total_deposited, assert_non_negative.
    set (s1 := upd SmoothSchedule _ s).
    assert (get_total_deposited s1 = get_total_deposited s) as -> by (unfold get_total_deposited; subst s1; by rdsimp).
    assert (0 <= sat_add (get_total_deposited s) due).
    { unfold sat_add, clamp_i128. unfold i128_max in *. lia. }
    unfold bind at 1. unfold bind at 1. unfold panic_if. rewrite (proj2 (Z.ltb_ge _ 0)) by done.
    unfold ret at 1. unfold put at 1.
    match goal with |- context [(check_activation env ;;; ?k) ?st] =>
      destruct (latches_run E env st) as (s2 & Hrun & Hk & He) end.
    rewrite Hrun. unfold bind, publish, ret. eexists. split; [reflexivity|].
    assert (Hrd : forall k, ~ latch_key k -> rd k (emit (mkEvent [VSym "smth_rel"; VAddr (self env)]
        [VInt due; VInt (sat_add (sm_released sch) due); VInt (sm_total_amount sch); VInt (sequence env)]) s2) =
        rd k (upd TotalDeposited (Some (sat_add (get_total_deposited s) due)) s1))
      by (intros k Hk'; rewrite rd_emit; by apply Hk).
    unfold get_smoothing_schedule, get_total_deposited. rewrite !Hrd by (intros [|]; done).
    subst s1. split; [rdsimp; unfold credited; by rewrite Hrel|]. split; [by rdsimp|]. split; [|done].
    intros k K1 K2 K3. rewrite Hrd by done. by rdsimp.
Qed.

Lemma credited_wf sch t : schedule_wf sch -> schedule_wf (credited sch t).
Proof. intros Hw. pose proof (vested_range sch t Hw). destruct Hw. split; simpl; lia. Qed.

(** Inside the window the credited part is the linear share. *)
Lemma vested_linear sch t :
  schedule_wf sch -> 0 <= t - sm_start_ledger sch < sm_duration_ledgers sch ->
  sm_total_amount sch * (t - sm_start_ledger sch) <= i128_max ->
  sm_released (credited sch t) =
    Z.max (sm_released sch) (sm_total_amount sch * (t - sm_start_ledger sch) / sm_duration_ledgers sch).
Proof.
  intros [H1 H2 H3] He Hfit. pose proof i128_bounds. cbn [credited sm_released]. unfold vested, u32_sat_sub.
  replace (Z.max (t - _) 0) with (t - sm_start_ledger sch) by lia. rewrite (proj2 (Z.leb_gt _ _)) by lia. unfold sat_mul.
  assert (0 <= sm_total_amount sch * (t - sm_start_ledger sch)) by nia.
  rewrite clamp_in by (unfold in_i128; lia). by rewrite Z.quot_div_nonneg by lia.
Qed.

(** C26. Smoothing depends on the ledger, not on who cranks it.  Settling never
    fails.  It brings the credited part of a schedule up to the linear share
    of the elapsed window, rounded down (as long as amount times ledgers fits
    the width), and to the whole amount once the window is over; what it
    returns is what that part grew by, and the deposits grow by exactly that,
    up to the largest integer; and settling at one ledger and again at a later
    one leaves the same schedule and the same deposits as settling once at the
    later. *)
Theorem smoothing_path_independent (E : Type) (e1 e2 : Env) (s : State) (sch : SmoothingSchedule) :
  get_smoothing_schedule s = Some sch -> schedule_wf sch -> 0 <= get_total_deposited s <= i128_max ->
  sequence e1 <= sequence e2 ->
  exists r1 s1 r2 s2 r s3,
    settle_smoothing (E:=E) e1 s = Ok r1 s1 /\ settle_smoothing (E:=E) e2 s1 = Ok r2 s2 /\
    settle_smoothing (E:=E) e2 s = Ok r s3 /\
    get_smoothing_schedule s3 = Some (credited sch (sequence e2)) /\
    get_smoothing_schedule s2 = get_smoothing_schedule s3 /\
    get_total_deposited s2 = get_total_deposited s3 /\ r1 + r2 = r /\
    r = sm_released (credited sch (sequence e2)) - sm_released sch /\
    get_total_deposited s3 = sat_add (get_total_deposited s) r /\
    (let elapsed := sequence e2 - sm_start_ledger sch in
     0 <= elapsed < sm_duration_ledgers sch -> sm_total_amount sch * elapsed <= i128_max ->
       sm_released (credited sch (sequence e2)) =
         Z.max (sm_released sch) (sm_total_amount sch * elapsed / sm_duration_ledgers sch)) /\
    (sm_start_ledger sch + sm_duration_ledgers sch <= sequence e2 ->
       sm_released (credited sch (sequence e2)) = sm_total_amount sch).
Proof.
  intros Hs Hw HD Hle.
  destruct (settle_run E e1 s sch Hs Hw ltac:(lia)) as (s1 & R1 & S1 & D1 & _ & _).
  set (d1 := Z.max _ _ - _) in *.
  assert (HD1 : 0 <= get_total_deposited s1).
  { rewrite D1. destruct (_ =? 0); [lia|]. unfold sat_add, clamp_i128, i128_min, i128_max in *. lia. }
  destruct (settle_run E e2 s1 _ S1 (credited_wf sch _ Hw) HD1) as (s2 & R2 & S2 & D2 & _ & _).
  destruct (settle_run E e2 s sch Hs Hw ltac:(lia)) as (s3 & R3 & S3 & D3 & _ & _).
  pose proof (vested_mono sch _ _ Hw Hle) as Hm. pose proof (vested_range sch (sequence e2) Hw) as Hr.
  assert (Hc : credited (credited sch (sequence e1)) (sequence e2) = credited sch (sequence e2)).
  { unfold credited. simpl. f_equal. change (vested (mkSmoothingSchedule _ _ _ _) ?t) with (vested sch t). lia. }
  rewrite Hc in S2.
  change (sm_released (credited sch (sequence e1))) with (Z.max (sm_released sch) (vested sch (sequence e1))) in D2, R2.
  change (vested (credited sch (sequence e1)) (sequence e2)) with (vested sch (sequence e2)) in D2, R2.
  set (d2 := Z.max (Z.max _ _) _ - _) in *. set (d3 := Z.max (sm_released sch) (vested sch (sequence e2)) - _) in *.
  exists d1, s1, d2, s2, d3, s3. split_and!; try done; [congruence| |lia| |by apply vested_linear|].
  - rewrite D2, D1, D3. destruct Hw as [W1 W2 W3].
    assert (0 <= d1 /\ 0 <= d2 /\ d1 + d2 = d3) as (P1 & P2 & P3) by (subst d1 d2 d3; lia).
    destruct (Z.eqb_spec d1 0), (Z.eqb_spec d2 0), (Z.eqb_spec d3 0); try lia;
      unfold sat_add, clamp_i128, i128_min, i128_max in *; try lia; f_equal; lia.
  - rewrite D3. destruct (Z.eqb_spec d3 0) as [->|]; [|done]. unfold sat_add, clamp_i128, i128_min, i128_max in *. lia.
  - intros Hend. unfold credited, vested in *. simpl. unfold u32_sat_sub.
    rewrite (proj2 (Z.leb_le _ _)) by lia. destruct Hw. lia.
Qed.

(** ** Nothing is lost on the way *)

Definition locked s : Z :=
  match get_smoothing_schedule s with Some sch => sm_total_amount sch - sm_released sch | None => 0 end.

Record smoothing_ok s : Prop := {
  so_wf : forall sch, get_smoothing_schedule s = Some sch -> schedule_wf sch;
  so_deposited : 0 <= get_total_deposited s
}.

Inductive smooth_op :=
| SmSettle
| SmSchedule (amount period_ledgers : Z)
| SmConfigure (admin : Address) (period_ledgers min_amount : Z).
Definition smooth_perform (env : Env) (o : smooth_op) : State -> State :=
  match o with
  | SmSettle => invoke (release_smoothed_yield (E:=VaultExtError.t) env)
  | SmSchedule x p => invoke (schedule_smoothing (E:=VaultExtError.t) env x p)
  | SmConfigure a p m => invoke (set_reward_smoothing env a p m)
  end.
Definition scheduled (o : smooth_op) : Z := match o with SmSchedule x _ => x | _ => 0 end.
Definition smooth_pre (o : smooth_op) : Prop := match o with SmSchedule x p => 0 <= x /\ 0 <= p | _ => True end.
Definition smooth_replay (h : list (Env * smooth_op)) s : State :=
  fold_left (fun s eo => smooth_perform eo.1 eo.2 s) h s.

Lemma settle_total E env s :
  smoothing_ok s -> get_total_deposited s + locked s <= i128_max ->
  exists r s', settle_smoothing (E:=E) env s = Ok r s' /\ smoothing_ok s' /\
    get_total_deposited s' + locked s' = get_total_deposited s + locked s /\ st_ext s' = st_ext s.
Proof.
  intros [Hw HD] Hmax. destruct (get_smoothing_schedule s) as [sch|] eqn:Hs.
  - destruct (settle_run E env s sch Hs (Hw sch eq_refl) HD) as (s' & R & S & D & _ & He).
    pose proof (vested_range sch (sequence env) (Hw sch eq_refl)) as Hr. pose proof (Hw sch eq_refl) as [H1 H2 H3].
    unfold locked in *. rewrite Hs in Hmax. set (d := Z.max _ _ - _) in *.
    assert (get_total_deposited s' = get_total_deposited s + d) as Hd.
    { rewrite D. destruct (Z.eqb_spec d 0); [lia|]. unfold sat_add, clamp_i128, i128_min, i128_max in *. subst d. lia. }
    exists d, s'. split; [done|]. split; [split|split; [|done]].
    + rewrite S. intros ? [= <-]. by apply credited_wf, Hw.
    + subst d. lia.
    + rewrite S, Hs, Hd. subst d. simpl. lia.
  - exists 0, s. split; [|by split_and!; [split; [by rewrite Hs|]|..]].
    unfold settle_smoothing, reading. by rewrite Hs.
Qed.

Lemma smooth_total env o s :
  smooth_pre o -> smoothing_ok s -> get_total_deposited s + locked s + scheduled o <= i128_max ->
  smoothing_ok (smooth_perform env o s) /\
  get_total_deposited (smooth_perform env o s) + locked (smooth_perform env o s)
    = get_total_deposited s + locked s + scheduled o.
Proof.
  intros Hpre Hok Hmax. pose proof i128_bounds as [Hmi Hma].
  assert (Hlk : forall s, smoothing_ok s -> 0 <= locked s).
  { intros s0 [Hw0 _]. unfold locked. destruct (get_smoothing_schedule s0) as [sch|]; [|lia].
    destruct (Hw0 sch eq_refl). lia. }
  destruct o as [|x p|a p m]; cbn [smooth_perform scheduled smooth_pre] in *; unfold invoke.
  - destruct (settle_total VaultExtError.t env s Hok ltac:(lia)) as (r & s' & R & Hok' & Ht & _).
    unfold release_smoothed_yield. rewrite R. split; [done|lia].
  - destruct (settle_total VaultExtError.t env s Hok ltac:(lia)) as (r & s' & R & Hok' & Ht & _).
    unfold schedule_smoothing. rewrite (bind_run _ _ _ _ _ R). unfold reading, set_smoothing_schedule, Ev.smoothing_scheduled, bind, put, publish.
    set (c := match get_smoothing_schedule s' with Some _ => _ | None => _ end).
    assert (c = locked s') as Hc.
    { subst c. unfold locked. destruct Hok' as [Hw' _]. destruct (get_smoothing_schedule s') as [sch|]; [|done].
      destruct (Hw' sch eq_refl). apply sat_sub_nonneg; lia. }
    pose proof (Hlk s' Hok') as HL. destruct Hok' as [_ HD'].
    assert (sat_add c x = locked s' + x) as Hsum by (unfold sat_add, clamp_i128, i128_min, i128_max in *; lia).
    split; [split|].
    + intros ? Hq. unfold get_smoothing_schedule in Hq. rewrite rd_emit, rd_upd_eq in Hq. injection Hq as <-.
      rewrite Hsum. split; simpl; lia.
    + unfold get_total_deposited. rdsimp. exact HD'.
    + unfold locked, get_smoothing_schedule, get_total_deposited in *. rdsimp. simpl. fold (locked s').
      change (default 0 (rd TotalDeposited s')) with (get_total_deposited s') in *.
      change (default 0 (rd TotalDeposited s)) with (get_total_deposited s) in *. unfold locked, get_smoothing_schedule in *. lia.
  - destruct (set_reward_smoothing env a p m s) as [r s'|e s'|t] eqn:H; [|split; [done|lia]..].
    unfold set_reward_smoothing in H. apply bind_Ok in H as (? & ? & H1 & H).
    apply (proj1 (try_Ok _ _ _ _)), require_admin_as_Ok in H1 as (_ & _ & _ & _ & ->).
    apply bind_Ok in H as (? & ? & H1 & H). apply fail_if_Ok in H1 as (_ & _ & ->).
    destruct (settle_total VaultExtError.t env s Hok ltac:(lia)) as (r1 & s1 & R & Hok' & Ht & _).
    rewrite (bind_run _ _ _ _ _ R) in H. mrun H.
    unfold locked, get_smoothing_schedule, get_total_deposited in *. split; [|rdsimp; lia].
    destruct Hok' as [K1 K2]. unfold get_smoothing_schedule, get_total_deposited in *.
    split; unfold get_smoothing_schedule, get_total_deposited; by rdsimp.
Qed.

(** Smoothing loses nothing: over any sequence of settlements, fresh
    schedules and configuration changes the deposits and what is still locked
    add up to what they were plus the amounts scheduled. *)
Theorem smoothing_conserves (h : list (Env * smooth_op)) (s : State) :
  Forall (fun eo => smooth_pre eo.2) h -> smoothing_ok s ->
  get_total_deposited s + locked s + sum_of (fun eo => scheduled eo.2) h <= i128_max ->
  smoothing_ok (smooth_replay h s) /\
  get_total_deposited (smooth_replay h s) + locked (smooth_replay h s)
    = get_total_deposited s + locked s + sum_of (fun eo => scheduled eo.2) h.
Proof.
  intros Hh. revert s. induction Hh as [|[env o] h Hpre Hh IH]; intros s Hok Hmax.
  { simpl in *. split; [done|lia]. }
  assert (Hnn : 0 <= sum_of (fun eo => scheduled eo.2) h).
  { apply sum_of_nonneg. eapply Forall_impl; [exact Hh|]. intros [e [|x p|]]; simpl; lia. }
  simpl in Hmax, Hpre |- *. destruct (smooth_total env o s Hpre Hok ltac:(lia)) as [H1 H2].
  destruct (IH _ H1 ltac:(lia)) as [H3 H4]. unfold smooth_replay in *. simpl. split; [done|lia].
Qed.

End Smoothed.

(** ** Witnesses *)

Definition smoothing_vault : State (W := token_world) :=
  upd TotalDeposited (Some 1000) (upd Admin (Some 7%positive) (start_state (fun _ _ => 5000))).
Definition smoothing_history : list (Env * smooth_op) :=
  [(at_ledger 10, SmSchedule 100 7); (at_ledger 13, SmSettle); (at_ledger 14, SmConfigure 7 50 0);
   (at_ledger 15, SmSchedule 60 10); (at_ledger 19, SmSettle)].

Lemma smoothing_vault_ok : smoothing_ok smoothing_vault.
Proof. split; [intros sch H; vm_compute in H; discriminate|vm_compute; discriminate]. Qed.

Lemma smoothing_conserves_witness :
  get_total_deposited (smooth_replay smoothing_history smoothing_vault) = 1106 /\
  get_total_deposited (smooth_replay smoothing_history smoothing_vault)
    + locked (smooth_replay smoothing_history smoothing_vault) = 1160.
Proof.
  split; [vm_compute; reflexivity|].
  apply (smoothing_conserves smoothing_history smoothing_vault).
  - repeat constructor; vm_compute; discriminate.
  - exact smoothing_vault_ok.
  - vm_compute. discriminate.
Defined.

Lemma smoothing_path_independent_witness :
  exists sch s1 s2 s3, get_smoothing_schedule (smooth_replay (take 1 smoothing_history) smoothing_vault) = Some sch /\
    settle_smoothing (E:=VaultError.t) (at_ledger 12) (smooth_replay (take 1 smoothing_history) smoothing_vault) = Ok 28 s1 /\
    settle_smoothing (E:=VaultError.t) (at_ledger 15) s1 = Ok 43 s2 /\
    settle_smoothing (E:=VaultError.t) (at_ledger 15) (smooth_replay (take 1 smoothing_history) smoothing_vault) = Ok 71 s3 /\
    get_total_deposited s2 = get_total_deposited s3 /\ get_total_deposited s3 = 1071.
Proof.
  destruct (smoothing_path_independent VaultError.t (at_ledger 12) (at_ledger 15)
    (smooth_replay (take 1 smoothing_history) smoothing_vault) (mkSmoothingSchedule 100 0 10 7))
    as (r1 & s1 & r2 & s2 & r & s3 & H1 & H2 & H3 & _ & _ & HD & Hsum & _ & Htot & _);
    [vm_compute; reflexivity|split; simpl; unfold i128_max; lia|split; vm_compute; discriminate|vm_compute; discriminate|].
  destruct (succeeds_run (settle_smoothing (E:=VaultError.t) (at_ledger 12)
    (smooth_replay (take 1 smoothing_history) smoothing_vault)) (fun r _ => r =? 28)) as (a & sa & Ha & Hr1%Z.eqb_eq);
    [vm_compute; reflexivity|].
  destruct (succeeds_run (settle_smoothing (E:=VaultError.t) (at_ledger 15)
    (smooth_replay (take 1 smoothing_history) smoothing_vault)) (fun r _ => r =? 71)) as (b & sb & Hb & Hr2%Z.eqb_eq);
    [vm_compute; reflexivity|].
  rewrite H1 in Ha. injection Ha as <- <-. rewrite H3 in Hb. injection Hb as <- <-. subst r1 r.
  assert (r2 = 43) as -> by lia. exists (mkSmoothingSchedule 100 0 10 7), s1, s2, s3.
  split; [vm_compute; reflexivity|]. split; [exact H1|]. split; [exact H2|]. split; [exact H3|]. split; [exact HD|].
  rewrite Htot. vm_compute. reflexivity.
Defined.
