(* ===== verification/Loans.v ===== *)
(** * Loans and flash stakes ([vault.rs], issues #260 and #261)

    A staker borrows from the reward pool against the value of its position;
    simple interest accrues per ledger; the loan is repaid by the borrower, out
    of its rewards, or by liquidating its position.  A flash stake takes an
    amount in and pays it back, less a fee, in the same call.  [vault.rs]
    declares [build_position] twice: the later definition, of the impl block
    the loans are in, is the one modelled (the earlier one passes the token's
    decimals, which the conversion ignores). *)

From S2P Require Import Prelude Errors Storage Host Events Concrete Accessors Admin Shares RewardMath.
From S2P Require Import Rewards Checkpoints Balance Pause Limits ClaimFees.

Definition LIQUIDATION_LTV_BPS : Z := 9000.

Section Loans.
Context {W : World} (env : Env).
Implicit Types s : State.

(** ** Accessors ([balance.rs]) *)

Definition get_loan_config s : option LoanConfig := rd LoanCfg s.
Definition set_loan_config_value {E} (config : LoanConfig) : M E unit := put LoanCfg config.
Definition get_loan (user : Address) s : option Loan := rd (LoanOf user) s.
Definition set_loan {E} (user : Address) (loan : Loan) : M E unit := put (LoanOf user) loan.
Definition remove_loan {E} (user : Address) : M E unit := del (LoanOf user).
Definition get_flash_stake_fee_bps s : Z := default 0 (rd FlashFee s).
Definition set_flash_stake_fee_bps_value {E} (bps : Z) : M E unit := put FlashFee bps.
Definition next_flash_receipt_id {E} : M E Z :=
  let& stored := rd FlashSeq in
  let next := default 0 stored + 1 in
  panic_if (2 ^ 64 <=? next) TOverflow ;;;
  put FlashSeq next ;;;
  ret next.
Definition set_flash_receipt {E} (receipt_id : Z) (receipt : FlashStakeReceipt) : M E unit :=
  put (FlashReceipt receipt_id) receipt.
Definition get_flash_receipt (receipt_id : Z) s : option FlashStakeReceipt := rd (FlashReceipt receipt_id) s.
Definition get_revenue_sharing_config s : option RevenueSharingConfig := rd RevCfg s.
Definition get_revenue_share_pool s : Z := default 0 (rd RevPool s).
Definition set_revenue_share_pool {E} (amount : Z) : M E unit :=
  assert_non_negative amount ;;; put RevPool amount.
Definition get_slash_treasury s : option Address := rd SlashTreasury s.

(** ** Terms and debt *)

Definition build_position (user : Address) : M VaultError.t (option StakePosition) :=
  let& shares := get_shares user in
  if shares =? 0 then ret None
  else
    let& total_shares := get_total_shares in
    let& total_deposited := get_total_deposited in
    let! amount := ok_or (shares_to_amount total_shares total_deposited shares) VaultError.ArithmeticError in
    let& stored := rd (StakedAtLedger user) in
    let& last_claim_ledger := get_last_claim_ledger user in
    ret (Some (mkStakePosition amount (default 0 stored) last_claim_ledger)).

(** The registered reward token, or the stake token. *)
Definition loan_token : M VaultError.t Address :=
  let& stored := get_reward_token in
  match stored with
  | Some token => ret token
  | None => token_address
  end.

Definition set_loan_config (admin : Address) (max_ltv_bps interest_rate_bps : Z) : M VaultFeatureError.t unit :=
  try_ (require_admin_as env admin) ;;;
  fail_if ((BPS <? max_ltv_bps) || (BPS <? interest_rate_bps)) VaultFeatureError.InvalidLoanConfig ;;;
  set_loan_config_value (mkLoanConfig max_ltv_bps interest_rate_bps).

Definition with_interest (loan : Loan) (interest last : Z) : Loan :=
  mkLoan (ln_principal loan) interest (ln_opened_at loan) last.

(** Simple interest up to the current ledger; without a configuration none. *)
Definition accrue_loan_interest (loan : Loan) : M VaultError.t Loan :=
  let& config := get_loan_config in
  match config with
  | None => ret loan
  | Some config =>
      let now := sequence env in
      if (now <=? ln_last_interest_at loan) || (ln_principal loan <=? 0)
      then ret (with_interest loan (ln_interest_accrued loan) now)
      else
        let elapsed := now - ln_last_interest_at loan in
        let! v := ok_or (checked_mul (ln_principal loan) (lc_interest_rate_bps config)) VaultError.ArithmeticError in
        let! v := ok_or (checked_mul v elapsed) VaultError.ArithmeticError in
        let interest := Z.quot v (BPS * STELLAR_LEDGERS_PER_YEAR) in
        let! total := ok_or (checked_add (ln_interest_accrued loan) interest) VaultError.ArithmeticError in
        ret (with_interest loan total now)
  end.

(** [loan.principal.checked_add(loan.interest_accrued)]. *)
Definition debt_of (loan : Loan) : option Z := checked_add (ln_principal loan) (ln_interest_accrued loan).

Definition loan_debt (user : Address) : M VaultFeatureError.t Z :=
  let& stored := get_loan user in
  match stored with
  | None => ret 0
  | Some loan =>
      let! loan := try_ (accrue_loan_interest loan) in
      ok_or (debt_of loan) VaultFeatureError.ArithmeticError
  end.

(** [amount * max_ltv_bps / 10000]. *)
Definition ltv_ceiling (config : LoanConfig) (amount : Z) : M VaultFeatureError.t Z :=
  let! v := ok_or (checked_mul amount (lc_max_ltv_bps config)) VaultFeatureError.ArithmeticError in
  ret (Z.quot v BPS).

Definition max_borrowable (user : Address) : M VaultFeatureError.t Z :=
  let& config := get_loan_config in
  match config with
  | None => ret 0
  | Some config =>
      let! position := try_ (build_position user) in
      match position with
      | None => ret 0
      | Some position =>
          let! ceiling := ltv_ceiling config (sp_amount position) in
          let! debt := loan_debt user in
          let! room := plain (checked_sub ceiling debt) in
          ret (Z.max room 0)
      end
  end.

(** ** Borrowing and repaying *)

Definition borrow (user : Address) (amount : Z) : M VaultFeatureError.t Z :=
  require_auth env user ;;;
  fail_if (amount <=? 0) VaultFeatureError.ZeroAmount ;;;
  let& stored := get_loan_config in
  let! config := ok_or stored VaultFeatureError.LoanConfigNotSet in
  let! built := try_ (build_position user) in
  let! position := ok_or built VaultFeatureError.PositionNotFound in
  let ledger := sequence env in
  let& stored := get_loan user in
  let! loan := try_ (accrue_loan_interest (default (mkLoan 0 0 ledger ledger) stored)) in
  let! ceiling := ltv_ceiling config (sp_amount position) in
  let! new_debt := ok_or (debt ← debt_of loan; checked_add debt amount) VaultFeatureError.ArithmeticError in
  fail_if (ceiling <? new_debt) VaultFeatureError.ExceedsMaxLtv ;;;
  let& reward_pool := get_reward_pool_balance in
  fail_if (reward_pool <? amount) VaultFeatureError.InsufficientRewardPool ;;;
  let! reward_token := try_ loan_token in
  transfer reward_token (self env) user amount ;;;
  let! rest := plain (checked_sub reward_pool amount) in
  set_reward_pool_balance rest ;;;
  let! principal := plain (checked_add (ln_principal loan) amount) in
  set_loan user (mkLoan principal (ln_interest_accrued loan) (ln_opened_at loan) (ln_last_interest_at loan)) ;;;
  Ev.loan_opened user amount principal ledger ;;;
  ret principal.

(** Interest first, then principal; a cleared loan is removed. *)
Definition settle_loan {E} (user : Address) (loan : Loan) (applied : Z) : M E unit :=
  let to_interest := if applied <? ln_interest_accrued loan then applied else ln_interest_accrued loan in
  let! interest := plain (checked_sub (ln_interest_accrued loan) to_interest) in
  let! to_principal := plain (checked_sub applied to_interest) in
  let! rest := plain (checked_sub (ln_principal loan) to_principal) in
  let principal := Z.max rest 0 in
  (if (principal =? 0) && (interest =? 0) then remove_loan user
   else set_loan user (mkLoan principal interest (ln_opened_at loan) (ln_last_interest_at loan))) ;;;
  Ev.loan_repaid user applied principal interest (sequence env).

Definition repay (user : Address) (amount : Z) : M VaultFeatureError.t Z :=
  require_auth env user ;;;
  fail_if (amount <=? 0) VaultFeatureError.ZeroAmount ;;;
  let& stored := get_loan user in
  let! loan := ok_or stored VaultFeatureError.LoanNotFound in
  let! loan := try_ (accrue_loan_interest loan) in
  let! debt := ok_or (debt_of loan) VaultFeatureError.ArithmeticError in
  let applied := if amount <? debt then amount else debt in
  (if 0 <? applied then
     let! reward_token := try_ loan_token in
     transfer reward_token user (self env) applied ;;;
     let& pool := get_reward_pool_balance in
     let! pool := plain (checked_add pool applied) in
     set_reward_pool_balance pool
   else ret tt) ;;;
  settle_loan user loan applied ;;;
  plain (checked_sub debt applied).

(** The part of a reward that services the loan: what remains of the reward,
    and what was repaid. *)
Definition apply_reward_to_loan (user : Address) (reward : Z) : M VaultError.t (Z * Z) :=
  if reward <=? 0 then ret (reward, 0)
  else
    let& stored := get_loan user in
    match stored with
    | None => ret (reward, 0)
    | Some loan =>
        let! loan := accrue_loan_interest loan in
        let! debt := ok_or (debt_of loan) VaultError.ArithmeticError in
        if debt <=? 0 then
          remove_loan user ;;;
          ret (reward, 0)
        else
          let applied := if reward <? debt then reward else debt in
          settle_loan user loan applied ;;;
          let! rest := plain (checked_sub reward applied) in
          ret (rest, applied)
    end.

(** ** Liquidation *)

Definition liquidate_loan (admin user : Address) : M VaultFeatureError.t Z :=
  try_ (require_admin_as env admin) ;;;
  let& stored := get_loan user in
  let! loan := ok_or stored VaultFeatureError.LoanNotFound in
  let! loan := try_ (accrue_loan_interest loan) in
  let! built := try_ (build_position user) in
  let! position := ok_or built VaultFeatureError.PositionNotFound in
  fail_if (sp_amount position <=? 0) VaultFeatureError.PositionNotFound ;;;
  let! debt := ok_or (debt_of loan) VaultFeatureError.ArithmeticError in
  let! v := ok_or (checked_mul debt BPS) VaultFeatureError.ArithmeticError in
  let ltv_bps := Z.quot v (sp_amount position) in
  fail_if (ltv_bps <? LIQUIDATION_LTV_BPS) VaultFeatureError.LoanNotLiquidatable ;;;
  let covered := if debt <? sp_amount position then debt else sp_amount position in
  let& total_shares := get_total_shares in
  let& total_deposited := get_total_deposited in
  let& user_shares := get_shares user in
  let! shares := ok_or (amount_to_shares total_shares total_deposited covered) VaultFeatureError.ArithmeticError in
  let shares_slashed := if user_shares <? shares then user_shares else shares in
  let! rest := plain (checked_sub user_shares shares_slashed) in
  set_shares env user rest ;;;
  let! rest := plain (checked_sub total_shares shares_slashed) in
  set_total_shares env rest ;;;
  let! rest := plain (checked_sub total_deposited covered) in
  set_total_deposited (Z.max rest 0) ;;;
  let& pool := get_reward_pool_balance in
  let! pool := plain (checked_add pool covered) in
  set_reward_pool_balance pool ;;;
  remove_loan user ;;;
  Ev.loan_liquidated user covered shares_slashed (sequence env) ;;;
  ret covered.

(** ** Flash stakes *)

Definition set_flash_stake_fee_bps (admin : Address) (bps : Z) : M VaultFeatureError.t unit :=
  try_ (require_admin_as env admin) ;;;
  fail_if (BPS <? bps) VaultFeatureError.InvalidFlashStakeFee ;;;
  set_flash_stake_fee_bps_value bps.

Definition get_flash_stake_receipt (receipt_id : Z) s : option FlashStakeReceipt := get_flash_receipt receipt_id s.

(** [recycle_fee(..).map_err(|_| ArithmeticError)?]. *)
Definition recycled_part (fee : Z) : M VaultFeatureError.t Z :=
  let! r := catch (recycle_fee fee) in
  match r with
  | inl recycled => ret recycled
  | inr _ => throw VaultFeatureError.ArithmeticError
  end.

(** The share of a fee that goes to the revenue-sharing pool. *)
Definition revenue_portion {E} (recyclable_fee : Z) : M E Z :=
  let& config := get_revenue_sharing_config in
  match config with
  | Some config =>
      if 0 <? rc_share_bps config then
        let! v := plain (checked_mul recyclable_fee (rc_share_bps config)) in
        ret (Z.quot v BPS)
      else ret 0
  | None => ret 0
  end.

(** The fee's way: reward pool, revenue sharing, then treasury or admin. *)
Definition route_flash_fee (token_addr : Address) (fee : Z) : M VaultFeatureError.t unit :=
  let! recycled := recycled_part fee in
  let! recyclable_fee := plain (checked_sub fee recycled) in
  let! rev_share_portion := revenue_portion recyclable_fee in
  let! treasury_fee := plain (checked_sub recyclable_fee rev_share_portion) in
  (if 0 <? rev_share_portion then
     let& rev_pool := get_revenue_share_pool in
     let! total := plain (checked_add rev_pool rev_share_portion) in
     set_revenue_share_pool total
   else ret tt) ;;;
  (if 0 <? treasury_fee then
     let& stored := get_slash_treasury in
     let! treasury := match stored with
                      | Some treasury => ret treasury
                      | None => try_ get_admin
                      end in
     transfer token_addr (self env) treasury treasury_fee
   else ret tt).

Definition flash_stake (user : Address) (amount : Z) : M VaultFeatureError.t FlashStakeReceipt :=
  require_auth env user ;;;
  fail_if (amount <=? 0) VaultFeatureError.ZeroAmount ;;;
  try_ (require_not_paused env) ;;;
  let! token_addr := try_ token_address in
  let ledger := sequence env in
  transfer token_addr user (self env) amount ;;;
  let! receipt_id := next_flash_receipt_id in
  let receipt := mkFlashStakeReceipt user amount ledger receipt_id in
  set_flash_receipt receipt_id receipt ;;;
  let& fee_bps := get_flash_stake_fee_bps in
  let! v := ok_or (checked_mul amount fee_bps) VaultFeatureError.ArithmeticError in
  let fee := Z.quot v BPS in
  (if 0 <? fee then route_flash_fee token_addr fee else ret tt) ;;;
  let! returned := plain (checked_sub amount fee) in
  (if 0 <? returned then transfer token_addr (self env) user returned else ret tt) ;;;
  Ev.flash_staked user amount receipt_id ledger ;;;
  ret receipt.

End Loans.
