(* ===== verification/Leaderboard.v ===== *)
(** * Staker registry, stake snapshots, leaderboard and rank ([vault.rs])

    [remove_from_staker_list], [record_stake_snapshot], the bounded leaderboard
    ([update_leaderboard], [set_leaderboard_size], [get_leaderboard]) and
    [get_staker_rank].

    Ranks break ties by the textual form of the addresses, which the host
    computes: the comparison [str_lt] is a parameter, taken to be a strict total
    order where a theorem needs it. *)

From Stdlib Require Import Sorted.
From S2P Require Import Prelude Errors Storage Host Concrete Accessors Admin Shares.

Definition MAX_HISTORY_SNAPSHOTS : nat := 100.
Definition MAX_LEADERBOARD_SIZE : Z := 20.

Section Leaderboard.
Context {W : World} (env : Env).
Implicit Types s : State.

(** ** Registry and snapshots *)

Definition remove_from_staker_list {E} (user : Address) : M E unit :=
  let& stakers := get_all_stakers in
  set_all_stakers (filter (fun a => a <> user) stakers).

(** The history with the amount at ledger [now] recorded. *)
Definition snapshot_pushed (history : list (Z * Z)) (now amount : Z) : list (Z * Z) :=
  match last history with
  | Some (last_ledger, _) =>
      if last_ledger =? now then removelast history ++ [(now, amount)]
      else history ++ [(now, amount)]
  | None => history ++ [(now, amount)]
  end.

Definition record_stake_snapshot {E} (user : Address) (amount : Z) : M E unit :=
  let& stored := get_stake_history user in
  let history := snapshot_pushed (default [] stored) (sequence env) amount in
  set_stake_history user (drop (length history - MAX_HISTORY_SNAPSHOTS) history).

(** ** The leaderboard *)

Definition leaderboard s : list LeaderboardEntry := default [] (rd Leaderboard s).
Definition leaderboard_size s : Z := default 0 (rd LeaderboardSize s).

(** Insertion before the first smaller entry. *)
Fixpoint insert_entry (e : LeaderboardEntry) (board : list LeaderboardEntry) : list LeaderboardEntry :=
  match board with
  | [] => [e]
  | b :: board => if lb_amount b <? lb_amount e then e :: b :: board else b :: insert_entry e board
  end.

Definition qualifies (new_amount max_size : Z) (board : list LeaderboardEntry) : bool :=
  (Z.of_nat (length board) <? max_size) ||
  match last board with Some b => lb_amount b <? new_amount | None => true end.

(** The rebuilt board: without the user's old entry, and with the new one when
    it qualifies. *)
Definition rebuilt (user : Address) (new_amount max_size : Z) (old_board : list LeaderboardEntry)
    : list LeaderboardEntry :=
  let board := filter (fun e => lb_staker e <> user) old_board in
  if (0 <? new_amount) && qualifies new_amount max_size board then
    take (Z.to_nat max_size) (insert_entry (mkLeaderboardEntry user new_amount) board)
  else board.

Definition update_leaderboard {E} (user : Address) (new_shares : Z) : M E unit :=
  let& max_size := leaderboard_size in
  if max_size =? 0 then ret tt
  else
    let& total_shares := get_total_shares in
    let& total_deposited := get_total_deposited in
    let new_amount :=
      if (new_shares =? 0) || (total_shares =? 0) then 0
      else default 0 (shares_to_amount total_shares total_deposited new_shares) in
    let& old_board := leaderboard in
    put Leaderboard (rebuilt user new_amount max_size old_board).

(** [VaultError] has no variant of the name the setter returns: it is an
    argument. *)
Definition set_leaderboard_size (LeaderboardSizeTooLarge : VaultError.t) (n : Z) : M VaultError.t unit :=
  require_admin env ;;;
  fail_if (MAX_LEADERBOARD_SIZE <? n) LeaderboardSizeTooLarge ;;;
  put LeaderboardSize n ;;;
  (if 0 <? n then
     let& board := leaderboard in
     if n <? Z.of_nat (length board) then put Leaderboard (take (Z.to_nat n) board) else ret tt
   else ret tt).

Definition get_leaderboard : M VaultError.t (list LeaderboardEntry) :=
  let! _admin := get_admin in
  let& board := leaderboard in
  ret board.

(** ** Ranks *)

Context (str_lt : Address -> Address -> bool).

Definition position_value (u : Address) s : Z :=
  default 0 (shares_to_amount (get_total_shares s) (get_total_deposited s) (get_shares u s)).

Definition ranks_higher (other user : Address) s : bool :=
  if negb (position_value other s =? position_value user s)
  then position_value user s <? position_value other s
  else str_lt other user.

(** The loop over the registry. *)
Fixpoint count_higher (user : Address) (stakers : list Address) (rank : Z) s : Z :=
  match stakers with
  | [] => rank
  | other :: stakers =>
      if bool_decide (other = user) then count_higher user stakers rank s
      else if get_shares other s =? 0 then count_higher user stakers rank s
      else count_higher user stakers (if ranks_higher other user s then rank + 1 else rank) s
  end.

Definition get_staker_rank (user : Address) s : option Z :=
  if get_shares user s =? 0 then None
  else Some (count_higher user (get_all_stakers s) 1 s).

End Leaderboard.

(** ** The board stays a ranking *)

(** One entry per staker, each of a positive amount, in descending order. *)
Record board_ok (board : list LeaderboardEntry) : Prop := {
  bo_once : NoDup (lb_staker <$> board);
  bo_pos : Forall (fun e => 0 < lb_amount e) board;
  bo_sorted : StronglySorted (fun a b => lb_amount b <= lb_amount a) board
}.

Lemma Forall_sublist {A} (P : A -> Prop) k l : k `sublist_of` l -> Forall P l -> Forall P k.
Proof. intros Hs. induction Hs; rewrite ?Forall_cons; naive_solver. Qed.

Lemma board_ok_sublist k l : k `sublist_of` l -> board_ok l -> board_ok k.
Proof.
  intros Hs [H2 H3 H4]. split.
  - by eapply sublist_NoDup; [|apply fmap_sublist].
  - by apply (Forall_sublist _ _ _ Hs).
  - clear H2 H3. induction Hs as [|x k l Hs IH|x k l Hs IH]; [done|..];
      apply StronglySorted_inv in H4 as [H4 Hx]; [|by apply IH].
    constructor; [by apply IH|]. by apply (Forall_sublist _ _ _ Hs).
Qed.

Lemma elem_of_insert_entry x e board : x ∈ insert_entry e board <-> x = e \/ x ∈ board.
Proof.
  induction board as [|b board IH]; cbn [insert_entry]; [set_solver|]. destruct (_ <? _); set_solver.
Qed.

Lemma insert_entry_perm e board : insert_entry e board ≡ₚ e :: board.
Proof.
  induction board as [|b board IH]; cbn [insert_entry]; [done|]. destruct (_ <? _); [done|].
  rewrite IH. apply Permutation_swap.
Qed.

Lemma insert_entry_ok e board :
  board_ok board -> 0 < lb_amount e -> lb_staker e ∉ lb_staker <$> board -> board_ok (insert_entry e board).
Proof.
  intros [H1 H2 H3] He Hn. split.
  - rewrite insert_entry_perm. rewrite fmap_cons. by constructor.
  - rewrite insert_entry_perm. by constructor.
  - clear H1 H2 Hn. induction H3 as [|b board Hs IH Hb]; cbn [insert_entry]; [by repeat constructor|].
    destruct (Z.ltb_spec (lb_amount b) (lb_amount e)).
    + constructor; [by constructor|]. constructor; [lia|]. eapply Forall_impl; [exact Hb|]. cbn. lia.
    + constructor; [done|]. rewrite insert_entry_perm. by constructor.
Qed.

(** The members of a sorted list beyond its first [n] are no larger than those
    among them. *)
Lemma sorted_take_drop n board x y :
  StronglySorted (fun a b => lb_amount b <= lb_amount a) board ->
  x ∈ take n board -> y ∈ drop n board -> lb_amount y <= lb_amount x.
Proof.
  intros Hs. revert n. induction Hs as [|b board Hs IH Hb]; intros [|n] Hx Hy; simpl in *; try set_solver.
  apply elem_of_cons in Hx as [->|Hx]; [|by apply (IH n)].
  rewrite Forall_forall in Hb. apply Hb. rewrite <- (take_drop n board). set_solver.
Qed.

(** What an update makes of a board: the result is a board; it holds nothing
    but the old entries of others and the user's new one; and whoever is left
    out, is left out by a full board of positions at least as large. *)
Record board_updated (user : Address) (amount max_size : Z) (old new : list LeaderboardEntry) : Prop := {
  bu_ok : board_ok new;
  bu_size : Z.of_nat (length old) <= max_size -> Z.of_nat (length new) <= max_size;
  bu_from : forall e, e ∈ new -> e = mkLeaderboardEntry user amount \/ (e ∈ old /\ lb_staker e <> user);
  bu_complete : forall e,
    (e ∈ old /\ lb_staker e <> user) \/ (e = mkLeaderboardEntry user amount /\ 0 < amount) ->
    e ∈ new \/ (max_size <= Z.of_nat (length new) /\ Forall (fun b => lb_amount e <= lb_amount b) new)
}.

Lemma rebuilt_spec user amount max_size old :
  board_ok old -> 0 <= max_size -> board_updated user amount max_size old (rebuilt user amount max_size old).
Proof.
  intros Hok Hm. unfold rebuilt. set (board := filter _ old). set (e0 := mkLeaderboardEntry user amount).
  assert (Hsub : board `sublist_of` old) by apply sublist_filter.
  assert (Hb : board_ok board) by by eapply board_ok_sublist.
  assert (Hin : forall e, e ∈ board <-> lb_staker e <> user /\ e ∈ old) by (intros e; subst board; by rewrite list_elem_of_filter).
  assert (Hlen : (length board <= length old)%nat) by by apply sublist_length.
  destruct (Z.ltb_spec 0 amount) as [Ha|Ha]; cbn [andb]; [destruct (qualifies _ _ _) eqn:Hq|].
  - assert (Hi : board_ok (insert_entry e0 board)).
    { apply insert_entry_ok; [done..|]. intros (e & He & Hel)%list_elem_of_fmap. apply Hin in Hel. naive_solver. }
    assert (Hall : forall e, e ∈ insert_entry e0 board ->
      e ∈ take (Z.to_nat max_size) (insert_entry e0 board) \/
      (max_size <= Z.of_nat (length (take (Z.to_nat max_size) (insert_entry e0 board))) /\
       Forall (fun b => lb_amount e <= lb_amount b) (take (Z.to_nat max_size) (insert_entry e0 board)))).
    { intros e He. rewrite <- (take_drop (Z.to_nat max_size) (insert_entry e0 board)) in He.
      apply elem_of_app in He as [He|He]; [by left|right]. split.
      - rewrite length_take. assert (0 < length (drop (Z.to_nat max_size) (insert_entry e0 board)))%nat
          by (destruct (drop _ _); [set_solver|simpl; lia]).
        rewrite length_drop in *. lia.
      - apply Forall_forall. intros b Hb'. eapply sorted_take_drop; [apply Hi|done..]. }
    split.
    + eapply board_ok_sublist; [apply sublist_take|done].
    + intros _. rewrite length_take. lia.
    + intros e He. apply (subseteq_take (Z.to_nat max_size) (insert_entry e0 board)) in He.
      apply elem_of_insert_entry in He as [->|He]; [by left|right]. apply Hin in He. naive_solver.
    + intros e He. apply Hall, elem_of_insert_entry. rewrite Hin. naive_solver.
  - apply orb_false_iff in Hq as [Hq1 Hq2]. apply Z.ltb_ge in Hq1.
    destruct (last board) as [b|] eqn:Hl; [|done]. apply Z.ltb_ge in Hq2.
    split; [done|lia| |].
    + intros e He. right. apply Hin in He. naive_solver.
    + intros e [He|[-> _]]; [left; apply Hin; naive_solver|right]. split; [done|].
      apply Forall_forall. intros x Hx. apply last_Some in Hl as [l' Hl].
      pose proof (bo_sorted _ Hb) as Hs. rewrite Hl in Hs, Hx.
      apply elem_of_app in Hx as [Hx| ->%list_elem_of_singleton]; [|done].
      transitivity (lb_amount b); [done|].
      eapply (sorted_take_drop (length l') _ x b Hs); [by rewrite take_app_length|].
      rewrite drop_app_length. set_solver.
  - split; [done|lia| |].
    + intros e He. right. apply Hin in He. naive_solver.
    + intros e [He|[-> ?]]; [left; apply Hin; naive_solver|lia].
Qed.

Section Board.
Context {W : World}.
Implicit Types s : State.

Definition board_kept s s' : Prop :=
  rd Leaderboard s' = rd Leaderboard s /\ rd LeaderboardSize s' = rd LeaderboardSize s.

Inductive board_step : State -> State -> Prop :=
| bs_update E u shares x s s' : update_leaderboard (E:=E) u shares s = Ok x s' -> board_step s s'
| bs_resize env err n x s s' : 0 <= n -> set_leaderboard_size env err n s = Ok x s' -> board_step s s'
| bs_elsewhere s s' : board_kept s s' -> board_step s s'.

(** The board of a state, its size limit included. *)
Definition board_in_order s : Prop :=
  board_ok (leaderboard s) /\ 0 <= leaderboard_size s /\
  (leaderboard_size s <> 0 -> Z.of_nat (length (leaderboard s)) <= leaderboard_size s).

(** The amount an update enters. *)
Definition amount_of_shares (shares : Z) s : Z :=
  if (shares =? 0) || (get_total_shares s =? 0) then 0
  else default 0 (shares_to_amount (get_total_shares s) (get_total_deposited s) shares).

Lemma update_leaderboard_Ok E u shares s x s' :
  update_leaderboard (E:=E) u shares s = Ok x s' ->
  leaderboard_size s' = leaderboard_size s /\
  leaderboard s' = (if leaderboard_size s =? 0 then leaderboard s
                    else rebuilt u (amount_of_shares shares s) (leaderboard_size s) (leaderboard s)).
Proof.
  unfold update_leaderboard. unfold reading at 1. destruct (_ =? 0).
  - intros H. apply ret_Ok in H as [_ ->]. done.
  - unfold reading. intros H. apply put_Ok in H as [_ ->]. unfold leaderboard_size, leaderboard. by rdsimp.
Qed.

Lemma resize_Ok env err n s x s' :
  set_leaderboard_size env err n s = Ok x s' ->
  n <= MAX_LEADERBOARD_SIZE /\ leaderboard_size s' = n /\
  (leaderboard s' = leaderboard s \/ leaderboard s' = take (Z.to_nat n) (leaderboard s)) /\
  (0 < n -> Z.of_nat (length (leaderboard s')) <= n).
Proof.
  intros H. unfold set_leaderboard_size in H. apply bind_Ok in H as (? & s1 & H1 & H).
  assert (s1 = s) as ->.
  { revert H1. unfold require_admin, get_admin. intros H1. mrun H1; done. }
  apply bind_Ok in H as (? & s2 & H2 & H). apply fail_if_Ok in H2 as (H2 & _ & ->). apply Z.ltb_ge in H2.
  apply bind_Ok in H as (? & s3 & H3 & H). apply put_Ok in H3 as [_ ->].
  match type of H with _ ?st = _ => set (s1 := st) in H end.
  assert (Hb : leaderboard s1 = leaderboard s) by (unfold leaderboard, s1; by rdsimp).
  assert (Hz : leaderboard_size s1 = n) by (unfold leaderboard_size, s1; by rdsimp).
  destruct (Z.ltb_spec 0 n).
  - unfold reading in H. cbv beta in H. rewrite Hb in H. destruct (Z.ltb_spec n (Z.of_nat (length (leaderboard s)))).
    + apply put_Ok in H as [_ ->]. unfold leaderboard_size, leaderboard in *. rdsimp. cbn [default from_option id].
      split_and!; [done|done|by right|]. intros _. rewrite length_take. lia.
    + apply ret_Ok in H as [_ ->]. rewrite Hb. auto.
  - apply ret_Ok in H as [_ ->]. rewrite Hb. split_and!; auto. lia.
Qed.

Lemma board_step_keeps s s' : board_step s s' -> board_in_order s -> board_in_order s'.
Proof.
  intros Hs (Hok & Hn & Hlen). destruct Hs as [E u sh x s s' H|env err n x s s' Hn0 H|s s' [H1 H2]].
  - apply update_leaderboard_Ok in H as [Hz Hl]. unfold board_in_order. rewrite Hz, Hl.
    destruct (Z.eqb_spec (leaderboard_size s) 0) as [H0|H0]; [done|].
    destruct (rebuilt_spec u (amount_of_shares sh s) (leaderboard_size s) (leaderboard s) Hok Hn).
    split_and!; [done..|]. intros _. by apply bu_size0, Hlen.
  - apply resize_Ok in H as (_ & Hz & Hl & Hsize). unfold board_in_order. rewrite Hz. split_and!; [|done|].
    + destruct Hl as [->| ->]; [done|]. eapply board_ok_sublist; [apply sublist_take|done].
    + intros ?. apply Hsize. lia.
  - unfold board_in_order, leaderboard, leaderboard_size in *. by rewrite H1, H2.
Qed.

(** The leaderboard stays a ranking.  From a contract that has no board,
    after any sequence of board updates and size settings, interleaved with
    anything else: the board lists every staker at most once, with a positive
    amount, in descending order, and no more of them than the size set; and one
    more update leaves out a listed position, or the one updated, only when the
    board is full of positions at least as large. *)
Theorem leaderboard_stays_ranked (E : Type) (s0 s s' : State) (u : Address) (shares : Z) (x : unit) :
  rd Leaderboard s0 = None -> rd LeaderboardSize s0 = None -> rtc board_step s0 s ->
  leaderboard_size s <> 0 -> update_leaderboard (E:=E) u shares s = Ok x s' ->
  board_ok (leaderboard s) /\ Z.of_nat (length (leaderboard s)) <= leaderboard_size s /\
  board_updated u (amount_of_shares shares s) (leaderboard_size s) (leaderboard s) (leaderboard s').
Proof.
  intros H1 H2 Hs Hne H. assert (H0 : board_in_order s0).
  { unfold board_in_order, leaderboard, leaderboard_size. rewrite H1, H2. cbn. split; [|lia].
    split; constructor. }
  assert (Hb : board_in_order s).
  { clear H Hne H1 H2. induction Hs as [|s0 s1 s2 Hstep _ IH]; [done|]. by apply IH, (board_step_keeps s0). }
  destruct Hb as (Hok & Hn & Hlen). split_and!; [done|by apply Hlen|].
  apply update_leaderboard_Ok in H as [_ ->]. destruct (Z.eqb_spec (leaderboard_size s) 0); [done|].
  by apply rebuilt_spec.
Qed.

(** ** Ranks *)

Section Rank.
Context (str_lt : Address -> Address -> bool).
Context (lt_irrefl : forall a, str_lt a a = false).
Context (lt_trans : forall a b c, str_lt a b = true -> str_lt b c = true -> str_lt a c = true).
Context (lt_total : forall a b, a <> b -> str_lt a b = true \/ str_lt b a = true).

Definition active s (u : Address) : bool := negb (get_shares u s =? 0).
Definition above s (u v : Address) : bool := active s v && ranks_higher str_lt v u s.

Lemma count_higher_length u L r s :
  count_higher str_lt u L r s =
  r + Z.of_nat (length (filter (fun v => v <> u /\ above s u v = true) L)).
Proof.
  revert r. induction L as [|v L IH]; intros r; cbn [count_higher]; [cbn; lia|].
  rewrite filter_cons. case_bool_decide as Hv.
  - rewrite decide_False by naive_solver. apply IH.
  - unfold above, active. destruct (get_shares v s =? 0) eqn:H0; cbn [negb andb].
    + rewrite decide_False by naive_solver. rewrite IH. done.
    + rewrite IH. destruct (ranks_higher str_lt v u s).
      * rewrite decide_True by done. rewrite length_cons, Nat2Z.inj_succ. unfold above, active. lia.
      * by rewrite decide_False by naive_solver.
Qed.

Lemma higher_spec a b s : ranks_higher str_lt a b s = true <->
  position_value b s < position_value a s \/
  (position_value a s = position_value b s /\ str_lt a b = true).
Proof.
  unfold ranks_higher. destruct (Z.eqb_spec (position_value a s) (position_value b s)) as [He|He]; cbn [negb].
  - rewrite He. split; [by right|]. intros [?|[_ ?]]; [lia|done].
  - rewrite Z.ltb_lt. split; [by left|]. intros [?|[? _]]; [done|lia].
Qed.
Lemma higher_trans a b c s :
  ranks_higher str_lt a b s = true -> ranks_higher str_lt b c s = true -> ranks_higher str_lt a c s = true.
Proof.
  rewrite !higher_spec. intros [?|[? H1]] [?|[? H2]]; [left; lia..|right]. split; [lia|by apply (lt_trans a b)].
Qed.
Lemma higher_irrefl a s : ranks_higher str_lt a a s = false.
Proof. unfold ranks_higher. rewrite Z.eqb_refl. apply lt_irrefl. Qed.
Lemma higher_total a b s : a <> b -> ranks_higher str_lt a b s = true \/ ranks_higher str_lt b a s = true.
Proof.
  intros Hab. rewrite !higher_spec. destruct (lt_total a b Hab);
    destruct (Z.lt_trichotomy (position_value a s) (position_value b s)) as [?|[?|?]]; auto.
Qed.

(** Ranks number the active stakers.  When the registry lists every staker
    once and the textual order of addresses is a strict total order, the ranks
    of registered stakers with a position lie between 1 and their number, and
    of two such stakers the one with the more valuable position (or, at equal
    value, the textually smaller address) has the smaller rank: no rank is
    given twice. *)
Theorem ranks_are_a_numbering (s : State) (u v : Address) (ru rv : Z) :
  NoDup (get_all_stakers s) -> u ∈ get_all_stakers s -> v ∈ get_all_stakers s -> u <> v ->
  get_staker_rank str_lt u s = Some ru -> get_staker_rank str_lt v s = Some rv ->
  1 <= ru <= Z.of_nat (length (filter (fun w => active s w = true) (get_all_stakers s))) /\
  (ru < rv <-> ranks_higher str_lt u v s = true) /\ ru <> rv.
Proof.
  intros Hnd Hu Hv Huv. unfold get_staker_rank.
  destruct (get_shares u s =? 0) eqn:Hu0; [done|]. destruct (get_shares v s =? 0) eqn:Hv0; [done|].
  intros [= <-] [= <-]. rewrite !count_higher_length. set (L := get_all_stakers s) in *.
  set (F := fun a => filter (fun w => w <> a /\ above s a w = true) L).
  assert (Hact : forall a, active s a = true -> a ∈ L ->
            (S (length (F a)) <= length (filter (fun w => active s w = true) L))%nat).
  { intros a Ha HaL. change (S (length (F a))) with (length (a :: F a)). apply submseteq_length.
    apply NoDup_submseteq.
    - constructor; [|by apply NoDup_filter]. unfold F. rewrite list_elem_of_filter. naive_solver.
    - intros w [->|Hw]%elem_of_cons; rewrite list_elem_of_filter; [done|].
      unfold F in Hw. apply list_elem_of_filter in Hw as [[_ Hw] HwL]. unfold above in Hw.
      apply andb_true_iff in Hw as [? _]. done. }
  assert (Hlt : forall a b, active s a = true -> a ∈ L -> a <> b -> ranks_higher str_lt a b s = true ->
            (S (length (F a)) <= length (F b))%nat).
  { intros a b Ha HaL Hab Hr. change (S (length (F a))) with (length (a :: F a)). apply submseteq_length.
    apply NoDup_submseteq.
    - constructor; [|by apply NoDup_filter]. unfold F. rewrite list_elem_of_filter. naive_solver.
    - intros w [->|Hw]%elem_of_cons; unfold F; rewrite list_elem_of_filter.
      + unfold above. by rewrite Ha, Hr.
      + unfold F in Hw. apply list_elem_of_filter in Hw as [[_ Hw] HwL]. unfold above in *.
        apply andb_true_iff in Hw as [-> Hw]. split; [|done]. split; [|by rewrite (higher_trans w a b)].
        intros ->. pose proof (higher_trans _ _ _ _ Hw Hr) as Hc. by rewrite higher_irrefl in Hc. }
  assert (Hau : active s u = true) by (unfold active; by rewrite Hu0).
  assert (Hav : active s v = true) by (unfold active; by rewrite Hv0).
  pose proof (Hact u Hau Hu). fold (F u) (F v) in *.
  destruct (higher_total u v s Huv) as [Hr|Hr].
  - pose proof (Hlt u v Hau Hu Huv Hr). rewrite Hr. lia.
  - pose proof (Hlt v u Hav Hv (not_eq_sym Huv) Hr). split; [lia|]. split; [|lia].
    split; [lia|]. intros Hc. pose proof (higher_trans _ _ _ _ Hc Hr) as Hf. by rewrite higher_irrefl in Hf.
Qed.

End Rank.
End Board.

(** ** Witnesses *)

(** Three positions in a pool priced at one, a board of two. *)
Definition three_stakers : State (W := token_world) :=
  upd AllStakers (Some [2; 3; 4]%positive) (upd TotalShares (Some 100) (upd TotalDeposited (Some 100)
    (upd (ShareBalance 2) (Some 50) (upd (ShareBalance 3) (Some 30) (upd (ShareBalance 4) (Some 20)
      (upd Admin (Some 7%positive) (start_state (fun _ _ => 0)))))))).
Definition board_run (s : State (W := token_world)) (u : Address) (shares : Z) : State :=
  invoke (update_leaderboard (E:=VaultError.t) u shares) s.
Definition board_of_two : State (W := token_world) :=
  board_run (board_run (invoke (set_leaderboard_size (at_ledger 5) VaultError.Unauthorized 2) three_stakers)
    3 30) 4 20.

Lemma invoke_update E u shares (s : State (W := token_world)) :
  exists x, update_leaderboard (E:=E) u shares s = Ok x (invoke (update_leaderboard (E:=E) u shares) s).
Proof.
  unfold invoke. destruct (update_leaderboard u shares s) as [x s'|e s'|t] eqn:H; [by eexists|..];
    exfalso; revert H; unfold update_leaderboard, reading; cbv beta; by destruct (_ =? 0).
Qed.

Lemma leaderboard_stays_ranked_witness :
  leaderboard (board_run board_of_two 2 50) = [mkLeaderboardEntry 2 50; mkLeaderboardEntry 3 30] /\
  board_ok (leaderboard board_of_two) /\
  Z.of_nat (length (leaderboard board_of_two)) <= leaderboard_size board_of_two /\
  board_updated 2 (amount_of_shares 50 board_of_two) (leaderboard_size board_of_two)
    (leaderboard board_of_two) (leaderboard (board_run board_of_two 2 50)).
Proof.
  split; [by vm_compute|].
  destruct (invoke_update VaultError.t 2 50 board_of_two) as [x Hx].
  apply (leaderboard_stays_ranked VaultError.t three_stakers board_of_two _ 2 50 x).
  - by vm_compute.
  - by vm_compute.
  - unfold board_of_two, board_run. destruct (invoke_update VaultError.t 3 30
      (invoke (set_leaderboard_size (at_ledger 5) VaultError.Unauthorized 2) three_stakers)) as [y Hy].
    destruct (invoke_update VaultError.t 4 20 (invoke (update_leaderboard (E:=VaultError.t) 3 30)
      (invoke (set_leaderboard_size (at_ledger 5) VaultError.Unauthorized 2) three_stakers))) as [z Hz].
    eapply rtc_l; [eapply (bs_resize (at_ledger 5) VaultError.Unauthorized 2 tt); [lia|by vm_compute]|].
    eapply rtc_l; [exact (bs_update _ _ _ _ _ _ Hy)|]. eapply rtc_l; [exact (bs_update _ _ _ _ _ _ Hz)|].
    apply rtc_refl.
  - by vm_compute.
  - exact Hx.
Defined.

Lemma ranks_are_a_numbering_witness :
  get_staker_rank Pos.ltb 3 three_stakers = Some 2 /\
  (1 <= 2 <= Z.of_nat (length (filter (fun w => active three_stakers w = true) (get_all_stakers three_stakers))) /\
   (2 < 3 <-> ranks_higher Pos.ltb 3 4 three_stakers = true) /\ 2 <> 3).
Proof.
  split; [by vm_compute|]. apply (ranks_are_a_numbering Pos.ltb).
  - apply Pos.ltb_irrefl.
  - intros a b c. rewrite !Pos.ltb_lt. apply Pos.lt_trans.
  - intros a b Hab. rewrite !Pos.ltb_lt. lia.
  - apply (bool_decide_unpack _). by vm_compute.
  - apply (bool_decide_unpack _). by vm_compute.
  - apply (bool_decide_unpack _). by vm_compute.
  - done.
  - by vm_compute.
  - by vm_compute.
Defined.

(** The board does not know the stakers it has left out: when a listed one
    leaves, its place stays empty although another position would fill it. *)
Example board_forgets_the_excluded :
  let s := board_run (board_run board_of_two 2 50) 2 0 in
  leaderboard s = [mkLeaderboardEntry 3 30] /\ leaderboard_size s = 2 /\ position_value 4 s = 20.
Proof. by vm_compute. Qed.
