(* ===== verification/Prediction.v ===== *)
(** * The reward prediction market ([vault.rs], issue #284)

    Stakers bet on whether the reward rate will be higher or lower at a target
    ledger; the winning side shares the losing side's stakes in proportion.
    The error names the market returns are not declared in [errors.rs]: they
    are a parameter ([MarketNames]). *)

From S2P Require Import Prelude Errors Storage Host Events TokenFacts Concrete Accessors Admin Balance Limits.

Class MarketNames := {
  MarketAlreadyOpen : VaultFeatureError.t;
  InvalidRate : VaultFeatureError.t;
  NotActiveStaker : VaultFeatureError.t;
  NoMarketOpen : VaultFeatureError.t;
  BettingClosed : VaultFeatureError.t;
  MarketNotResolved : VaultFeatureError.t;
  MarketNotReady : VaultFeatureError.t;
  AlreadyClaimed : VaultFeatureError.t
}.

Section Market.
Context {W : World} {N : MarketNames} (env : Env).
Implicit Types s : State.

Definition open_prediction_market (admin : Address) (closes_at target_ledger : Z) : M VaultFeatureError.t unit :=
  try_ (require_admin_as env admin) ;;;
  let& open := has PredMarket in
  fail_if open MarketAlreadyOpen ;;;
  fail_if (target_ledger <=? sequence env) InvalidRate ;;;
  fail_if (target_ledger <=? closes_at) InvalidRate ;;;
  let& current_rate := get_reward_rate_bps in
  put PredMarket (mkPredictionMarket closes_at target_ledger current_rate 0 0 false None).

(** The market with [amount] more on a side. *)
Definition with_bet (market : PredictionMarket) (higher : bool) (amount : Z) : option PredictionMarket :=
  if higher
  then bets ← checked_add (pm_bets_higher market) amount;
       Some (mkPredictionMarket (pm_closes_at market) (pm_target_ledger market) (pm_current_rate_bps market)
               bets (pm_bets_lower market) (pm_resolved market) (pm_outcome market))
  else bets ← checked_add (pm_bets_lower market) amount;
       Some (mkPredictionMarket (pm_closes_at market) (pm_target_ledger market) (pm_current_rate_bps market)
               (pm_bets_higher market) bets (pm_resolved market) (pm_outcome market)).

Definition place_bet (user : Address) (higher : bool) (amount : Z) : M VaultFeatureError.t unit :=
  require_auth env user ;;;
  fail_if (amount <=? 0) VaultFeatureError.ZeroAmount ;;;
  let& shares := get_shares user in
  fail_if (shares =? 0) NotActiveStaker ;;;
  let& stored := rd PredMarket in
  let! market := ok_or stored NoMarketOpen in
  fail_if (pm_closes_at market <? sequence env) BettingClosed ;;;
  fail_if (pm_resolved market) MarketNotResolved ;;;
  let& stored := rd Token in
  let! token := unwrap stored in
  transfer token user (self env) amount ;;;
  let! market := ok_or (with_bet market higher amount) VaultFeatureError.ArithmeticError in
  put (PredBet user) (higher, amount) ;;;
  put PredMarket market.

Definition outcome_of (current_rate opening_rate : Z) : option bool :=
  if opening_rate <? current_rate then Some true
  else if current_rate <? opening_rate then Some false
  else None.

Definition side (market : PredictionMarket) (higher : bool) : Z :=
  if higher then pm_bets_higher market else pm_bets_lower market.

Definition resolve_market (admin : Address) : M VaultFeatureError.t unit :=
  try_ (require_admin_as env admin) ;;;
  let& stored := rd PredMarket in
  let! market := ok_or stored NoMarketOpen in
  fail_if (sequence env <? pm_target_ledger market) MarketNotReady ;;;
  fail_if (pm_resolved market) MarketNotResolved ;;;
  let& current_rate := get_reward_rate_bps in
  let outcome := outcome_of current_rate (pm_current_rate_bps market) in
  put PredMarket (mkPredictionMarket (pm_closes_at market) (pm_target_ledger market) (pm_current_rate_bps market)
                    (pm_bets_higher market) (pm_bets_lower market) true outcome) ;;;
  let sides := match outcome with
               | Some higher => (side market higher, side market (negb higher))
               | None => (0, 0)
               end in
  Ev.market_resolved env (default false outcome) (fst sides) (snd sides) (sequence env).

Definition claim_prediction_winnings (user : Address) : M VaultFeatureError.t Z :=
  require_auth env user ;;;
  let& stored := rd PredMarket in
  let! market := ok_or stored NoMarketOpen in
  fail_if (negb (pm_resolved market)) MarketNotResolved ;;;
  let& stored := rd (PredBet user) in
  let! bet := ok_or stored AlreadyClaimed in
  let (bet_higher, bet_amount) := (bet : bool * Z) in
  del (PredBet user) ;;;
  match pm_outcome market with
  | None =>
      let& stored := rd Token in
      let! token := unwrap stored in
      transfer token (self env) user bet_amount ;;;
      ret bet_amount
  | Some outcome =>
      if negb (eqb outcome bet_higher) then ret 0
      else
        let total_winning := side market bet_higher in
        let total_losing := side market (negb bet_higher) in
        fail_if (total_winning =? 0) VaultFeatureError.ArithmeticError ;;;
        let! winnings :=
          (if total_losing =? 0 then ret bet_amount
           else let! v := plain (checked_mul bet_amount total_losing) in
                plain (checked_add bet_amount (Z.quot v total_winning))) in
        let& stored := rd Token in
        let! token := unwrap stored in
        transfer token (self env) user winnings ;;;
        ret winnings
  end.

End Market.

(** ** Successful operations *)

Section Runs.
Context {W : World} {N : MarketNames} (env : Env).
Implicit Types s : State.

Definition bet_keys (u : Address) (k : key) : Prop := k = KMkt (PredBet u) \/ k = KMkt PredMarket.

Lemma open_Ok admin closes target s x s' :
  open_prediction_market env admin closes target s = Ok x s' ->
  rd PredMarket s = None /\ sequence env < target /\ closes < target /\
  s' = upd PredMarket (Some (mkPredictionMarket closes target (get_reward_rate_bps s) 0 0 false None)) s.
Proof.
  unfold open_prediction_market. intros H.
  apply bind_Ok in H as (? & ? & H1 & H). apply (proj1 (try_Ok _ _ _ _)), require_admin_as_Ok in H1 as (_ & _ & _ & _ & ->).
  unfold reading at 1 in H. apply bind_Ok in H as (? & ? & H1 & H). apply fail_if_Ok in H1 as (Hno & _ & ->).
  apply bind_Ok in H as (? & ? & H1 & H). apply fail_if_Ok in H1 as (H1%Z.leb_gt & _ & ->).
  apply bind_Ok in H as (? & ? & H2 & H). apply fail_if_Ok in H2 as (H2%Z.leb_gt & _ & ->).
  apply put_Ok in H as [_ ->]. split; [|done]. unfold has in Hno. by destruct (rd PredMarket s).
Qed.

Lemma with_bet_Some m h a m' :
  with_bet m h a = Some m' ->
  side m' h = side m h + a /\ side m' (negb h) = side m (negb h) /\
  pm_resolved m' = pm_resolved m /\ pm_outcome m' = pm_outcome m.
Proof.
  unfold with_bet. destruct h; (destruct (checked_add _ a) as [b|] eqn:Hb; [|done]);
    apply checked_add_Some in Hb as [-> _]; by intros [= <-].
Qed.

Lemma place_bet_Ok u h a s x s' :
  place_bet env u h a s = Ok x s' ->
  exists m m' token s1, 0 < a /\ rd PredMarket s = Some m /\ pm_resolved m = false /\ with_bet m h a = Some m' /\
    rd Token s = Some token /\ transfer (E:=VaultFeatureError.t) token u (self env) a s = Ok tt s1 /\
    st_ext s' = st_ext s1 /\ rd (PredBet u) s' = Some (h, a) /\ rd PredMarket s' = Some m' /\
    (forall k, ~ bet_keys u k -> rd k s' = rd k s).
Proof.
  unfold place_bet. intros H.
  apply bind_Ok in H as (? & ? & H1 & H). apply require_auth_Ok in H1 as (_ & _ & ->).
  apply bind_Ok in H as (? & ? & H1 & H). apply fail_if_Ok in H1 as (Ha%Z.leb_gt & _ & ->). unfold reading at 1 in H.
  apply bind_Ok in H as (? & ? & H1 & H). apply fail_if_Ok in H1 as (_ & _ & ->). unfold reading at 1 in H.
  apply bind_Ok in H as (m & ? & H1 & H). apply ok_or_Ok in H1 as [Hm ->].
  apply bind_Ok in H as (? & ? & H1 & H). apply fail_if_Ok in H1 as (_ & _ & ->).
  apply bind_Ok in H as (? & ? & H1 & H). apply fail_if_Ok in H1 as (Hr & _ & ->). unfold reading at 1 in H.
  apply bind_Ok in H as (token & ? & H1 & H). apply unwrap_Ok in H1 as [Ht ->].
  apply bind_Ok in H as ([] & s1 & Htr & H). pose proof Htr as (w & _ & _ & ->)%transfer_Ok.
  apply bind_Ok in H as (m' & ? & H1 & H). apply ok_or_Ok in H1 as [Hm' ->].
  apply bind_Ok in H as (? & ? & H1 & H). apply put_Ok in H1 as [_ ->]. apply put_Ok in H as [_ ->].
  eexists m, m', token, _. do 5 (split; [done|]). split; [exact Htr|]. split; [done|]. rdsimp.
  split; [done|]. split; [done|]. intros k Hk. unfold bet_keys in Hk.
  rewrite !rd_upd_ne by (intros <-; tauto). apply rd_set_ext.
Qed.

Lemma resolve_Ok admin s x s' :
  resolve_market env admin s = Ok x s' ->
  exists m, rd PredMarket s = Some m /\ pm_resolved m = false /\ pm_target_ledger m <= sequence env /\
    (exists m', rd PredMarket s' = Some m' /\ (forall h, side m' h = side m h) /\ pm_resolved m' = true /\
       pm_outcome m' = outcome_of (get_reward_rate_bps s) (pm_current_rate_bps m)) /\
    st_ext s' = st_ext s /\ (forall k, k <> KMkt PredMarket -> rd k s' = rd k s).
Proof.
  unfold resolve_market, Ev.market_resolved. intros H.
  apply bind_Ok in H as (? & ? & H1 & H). apply (proj1 (try_Ok _ _ _ _)), require_admin_as_Ok in H1 as (_ & _ & _ & _ & ->).
  unfold reading at 1 in H. apply bind_Ok in H as (m & ? & H1 & H). apply ok_or_Ok in H1 as [Hm ->].
  apply bind_Ok in H as (? & ? & H1 & H). apply fail_if_Ok in H1 as (Hl%Z.ltb_ge & _ & ->).
  apply bind_Ok in H as (? & ? & H1 & H). apply fail_if_Ok in H1 as (Hr & _ & ->). unfold reading at 1 in H.
  apply bind_Ok in H as (? & ? & H1 & H). apply put_Ok in H1 as [_ ->].
  apply bind_Ok in H as (? & ? & H1 & H). apply publish_Ok in H1 as [_ ->]. apply publish_Ok in H as [_ ->].
  exists m. do 3 (split; [done|]). split; [eexists; rdsimp; split; [done|]; by split; [intros []|]|].
  split; [done|]. intros k Hk. by rdsimp.
Qed.

(** What a bet is worth in a resolved market. *)
Definition payout (m : PredictionMarket) (bet : bool * Z) : Z :=
  let (h, a) := bet in
  match pm_outcome m with
  | None => a
  | Some o => if eqb o h then a + (if side m (negb h) =? 0 then 0 else Z.quot (a * side m (negb h)) (side m h)) else 0
  end.

Lemma claim_winnings_Ok u s v s' :
  claim_prediction_winnings env u s = Ok v s' ->
  exists m bet, rd PredMarket s = Some m /\ pm_resolved m = true /\ rd (PredBet u) s = Some bet /\ v = payout m bet /\
    (pm_outcome m = Some (fst bet) -> side m (fst bet) <> 0) /\
    rd (PredBet u) s' = None /\ (forall k, k <> KMkt (PredBet u) -> rd k s' = rd k s) /\
    (st_ext s' = st_ext s /\ v = 0 \/
     exists token s1 s2, rd Token s = Some token /\ st_ext s1 = st_ext s /\
       transfer (E:=VaultFeatureError.t) token (self env) u v s1 = Ok tt s2 /\ st_ext s' = st_ext s2).
Proof.
  unfold claim_prediction_winnings. intros H.
  apply bind_Ok in H as (? & ? & H1 & H). apply require_auth_Ok in H1 as (_ & _ & ->). unfold reading at 1 in H.
  apply bind_Ok in H as (m & ? & H1 & H). apply ok_or_Ok in H1 as [Hm ->].
  apply bind_Ok in H as (? & ? & H1 & H). apply fail_if_Ok in H1 as (Hr%negb_false_iff & _ & ->). unfold reading at 1 in H.
  apply bind_Ok in H as ([h a] & ? & H1 & H). apply ok_or_Ok in H1 as [Hb ->].
  apply bind_Ok in H as (? & ? & H1 & H). apply del_Ok in H1 as [_ ->].
  exists m, (h, a). unfold payout. cbn [fst].
  destruct (pm_outcome m) as [o|].
  - destruct (eqb o h) eqn:Ho; cbn [negb] in H.
    + apply eqb_prop in Ho as ->.
      apply bind_Ok in H as (? & ? & H1 & H). apply fail_if_Ok in H1 as (Hw%Z.eqb_neq & _ & ->).
      apply bind_Ok in H as (w & s1 & H1 & H).
      assert (s1 = upd (PredBet u) None s /\
        w = a + (if side m (negb h) =? 0 then 0 else Z.quot (a * side m (negb h)) (side m h))) as [-> ->].
      { destruct (side m (negb h) =? 0); [apply ret_Ok in H1 as [-> ->]; split; [done|lia]|].
        apply bind_Ok in H1 as (v0 & ? & H2 & H1). apply plain_Ok in H2 as [[-> _]%checked_mul_Some ->].
        by apply plain_Ok in H1 as [[-> _]%checked_add_Some ->]. }
      unfold reading at 1 in H. apply bind_Ok in H as (token & ? & H2 & H). apply unwrap_Ok in H2 as [Ht ->].
      apply bind_Ok in H as ([] & s2 & Htr & H). pose proof Htr as (w & _ & _ & ->)%transfer_Ok. apply ret_Ok in H as [-> ->].
      revert Ht. rdsimp. intros Ht. split_and!; try done; [intros k Hk; by rdsimp|].
      right. eexists token, _, _. split; [done|]. split; [|split; [exact Htr|done]]. done.
    + apply ret_Ok in H as [-> ->]. rdsimp. split_and!; try done.
      * intros [= ->]. by rewrite eqb_reflx in Ho.
      * intros k Hk. by rdsimp.
      * by left.
  - unfold reading at 1 in H. apply bind_Ok in H as (token & ? & H2 & H). apply unwrap_Ok in H2 as [Ht ->].
    apply bind_Ok in H as ([] & s2 & Htr & H). pose proof Htr as (w & _ & _ & ->)%transfer_Ok. apply ret_Ok in H as [-> ->].
    revert Ht. rdsimp. intros Ht. split_and!; try done; [intros k Hk; by rdsimp|].
    right. eexists token, _, _. split; [done|]. split; [|split; [exact Htr|done]]. done.
Qed.

End Runs.

(** ** Solvency *)

(** Every sum of [f] over distinct addresses is at most [n]. *)
Definition capped (f : Address -> Z) (n : Z) : Prop := forall us, NoDup us -> sum_of f us <= n.

Lemma capped_change (f g : Address -> Z) u n :
  (forall v, v <> u -> f v = g v) -> 0 <= g u -> capped f n -> capped g (n - f u + g u).
Proof.
  intros Hne Hg Hf us Hnd. destruct (decide (u ∈ us)) as [Hin|Hin].
  - rewrite (sum_of_change f g us u) by done. pose proof (Hf us Hnd). lia.
  - rewrite (sum_of_ext g f us). { pose proof (Hf (u :: us) ltac:(by constructor)) as H. simpl in H. lia. }
    intros v Hv. symmetry. apply Hne. by intros ->.
Qed.
Lemma capped_same (f g : Address -> Z) n : (forall v, f v = g v) -> capped f n -> capped g n.
Proof. intros He Hf us Hnd. rewrite (sum_of_ext g f us) by (intros; by rewrite He). by apply Hf. Qed.
Lemma capped_sum (f g : Address -> Z) n m : capped f n -> capped g m -> capped (fun u => f u + g u) (n + m).
Proof.
  intros Hf Hg us Hnd. pose proof (Hf us Hnd). pose proof (Hg us Hnd).
  assert (sum_of (fun u => f u + g u) us = sum_of f us + sum_of g us) by (clear; unfold sum_of; induction us; simpl; lia).
  lia.
Qed.
Lemma capped_nonneg (f : Address -> Z) n : capped f n -> 0 <= n.
Proof. intros Hf. apply (Hf [] (NoDup_nil_2)). Qed.

Section Solvency.
Context {W : World} {HT : StandardTokens W} {N : MarketNames} (token me : Address).
Implicit Types s : State.

(** The amount [u] has on a side. *)
Definition on_side (h : bool) s (u : Address) : Z :=
  match rd (PredBet u) s with Some (h', a) => if eqb h h' then a else 0 | None => 0 end.
Definition bets_positive s : Prop := forall u h a, rd (PredBet u) s = Some (h, a) -> 0 < a.

(** The books of the market after [i] came in and [o] went out. *)
Definition resolved_ok s (m : PredictionMarket) (i o : Z) : Prop :=
  exists c, 0 <= c /\ (c = 0 -> o = 0) /\
  match pm_outcome m with
  | Some h => o * side m h <= c * i /\ capped (on_side h s) (side m h - c)
  | None => o <= c /\ capped (fun u => on_side true s u + on_side false s u) (i - c)
  end.
Definition market_ok s (i o : Z) : Prop :=
  rd Token s = Some token /\
  match rd PredMarket s with
  | None => i = 0 /\ o = 0 /\ forall u, rd (PredBet u) s = None
  | Some m =>
      bets_positive s /\ 0 <= side m true /\ 0 <= side m false /\ i = side m true + side m false /\
      if pm_resolved m then resolved_ok s m i o
      else o = 0 /\ capped (on_side true s) (side m true) /\ capped (on_side false s) (side m false)
  end.

(** Operations of the market by others than the contract, with anything else
    that keeps the market's records and does not spend the stake token. *)
Inductive market_run : State -> Z -> Z -> State -> Prop :=
| mr_nil s : market_run s 0 0 s
| mr_open env admin closes target x s s' i o s'' :
    open_prediction_market env admin closes target s = Ok x s' -> market_run s' i o s'' -> market_run s i o s''
| mr_bet env u h a x s s' i o s'' :
    self env = me -> u <> me -> place_bet env u h a s = Ok x s' -> market_run s' i o s'' -> market_run s (a + i) o s''
| mr_resolve env admin x s s' i o s'' :
    resolve_market env admin s = Ok x s' -> market_run s' i o s'' -> market_run s i o s''
| mr_claim env u v s s' i o s'' :
    self env = me -> u <> me -> claim_prediction_winnings env u s = Ok v s' ->
    market_run s' i o s'' -> market_run s i (v + o) s''
| mr_other s s' i o s'' :
    (forall k, k = KMkt PredMarket \/ k = KInst Token \/ (exists u, k = KMkt (PredBet u)) -> rd k s' = rd k s) ->
    balance_of token me s <= balance_of token me s' -> market_run s' i o s'' -> market_run s i o s''.

Lemma side_total m h : side m true + side m false = side m h + side m (negb h).
Proof. destruct h; simpl; lia. Qed.

Lemma on_side_change h s s' u :
  (forall v, v <> u -> rd (PredBet v) s' = rd (PredBet v) s) -> forall v, v <> u -> on_side h s v = on_side h s' v.
Proof. intros Hk v Hv. unfold on_side. by rewrite Hk. Qed.
Lemma on_side_nonneg h s u : bets_positive s -> 0 <= on_side h s u.
Proof.
  intros Hp. unfold on_side. destruct (rd (PredBet u) s) as [[h' a]|] eqn:E; [|lia].
  apply Hp in E. destruct (eqb h h'); lia.
Qed.
Lemma on_side_bet h s u h' a :
  rd (PredBet u) s = Some (h', a) -> on_side h s u = if eqb h h' then a else 0.
Proof. unfold on_side. by intros ->. Qed.

Lemma bet_keeps env u h a x s s' i o :
  place_bet env u h a s = Ok x s' -> market_ok s i o -> market_ok s' (a + i) o.
Proof.
  intros (m & m' & t & s1 & Ha & Hm & Hr & Hw & Ht & _ & _ & Hb & Hm' & Hk)%place_bet_Ok [Htok H].
  assert (Hne : forall v, v <> u -> rd (PredBet v) s' = rd (PredBet v) s) by (intros v Hv; apply Hk; intros [[= ->]|]; done).
  split. { rewrite Hk; [done|]. by intros [|]. }
  rewrite Hm in H. rewrite Hm'. destruct H as (Hp & H1 & H2 & Hi & H).
  apply with_bet_Some in Hw as (Hs & Hs' & Hrr & _). rewrite Hr in H. rewrite Hrr, Hr.
  destruct H as (Ho & Ht1 & Hf1).
  assert (Hp' : bets_positive s').
  { intros v h' b Hv. destruct (decide (v = u)) as [->|Hne']; [rewrite Hb in Hv; by injection Hv as <- <-|].
    rewrite Hne in Hv by done. by eapply Hp. }
  assert (Hcap : forall h0, capped (on_side h0 s) (side m h0) -> capped (on_side h0 s') (side m' h0)).
  { intros h0 Hc us Hnd.
    pose proof (capped_change _ (on_side h0 s') u _ (on_side_change h0 s s' u Hne) (on_side_nonneg h0 s' u Hp') Hc us Hnd) as Hle.
    rewrite (on_side_bet h0 s' u h a Hb) in Hle. pose proof (on_side_nonneg h0 s u Hp).
    destruct (eqb h0 h) eqn:E; [apply eqb_prop in E as ->; lia|].
    assert (h0 = negb h) as -> by (by destruct h0, h). lia. }
  pose proof (capped_nonneg _ _ (Hcap true Ht1)). pose proof (capped_nonneg _ _ (Hcap false Hf1)).
  split_and!; try done; auto. rewrite !(side_total _ h) in *. lia.
Qed.

Lemma resolve_keeps env admin x s s' i o :
  resolve_market env admin s = Ok x s' -> market_ok s i o -> market_ok s' i o.
Proof.
  intros (m & Hm & Hr & _ & (m' & Hm' & Hs & Hr' & _) & _ & Hk)%resolve_Ok [Htok H].
  split; [by rewrite Hk|]. rewrite Hm in H. rewrite Hm', Hr'. rewrite Hr in H. destruct H as (Hp & H1 & H2 & Hi & -> & Ht & Hf).
  rewrite !Hs. split_and!; try done.
  { intros u h a. rewrite Hk by done. apply Hp. }
  assert (Hsame : forall h v, on_side h s v = on_side h s' v) by (intros h v; unfold on_side; by rewrite Hk).
  exists 0. split_and!; try done. destruct (pm_outcome m') as [h|].
  - rewrite Hs, Z.sub_0_r. split; [lia|]. apply (capped_same (on_side h s)); [done|]. by destruct h.
  - split; [lia|]. rewrite Z.sub_0_r, Hi. apply capped_sum; [by apply (capped_same (on_side true s))|by apply (capped_same (on_side false s))].
Qed.

(** A payout is at most the bet's share of everything. *)
Lemma payout_bound m h a :
  pm_outcome m = Some h -> 0 < a -> 0 < side m h -> 0 <= side m (negb h) ->
  payout m (h, a) * side m h <= a * (side m h + side m (negb h)) /\ 0 < payout m (h, a).
Proof.
  intros Ho Ha Hw Hl. unfold payout. rewrite Ho, eqb_reflx.
  destruct (Z.eqb_spec (side m (negb h)) 0) as [->|]; [nia|].
  rewrite Z.quot_div_nonneg by nia. pose proof (Z.mul_div_le (a * side m (negb h)) (side m h) Hw).
  assert (0 <= a * side m (negb h) / side m h) by (apply Z.div_pos; nia). nia.
Qed.

Lemma claim_keeps env u v s s' i o :
  claim_prediction_winnings env u s = Ok v s' -> market_ok s i o -> market_ok s' i (v + o).
Proof.
  intros (m & [h a] & Hm & Hr & Hb & Hv & Hz & Hn & Hk & _)%claim_winnings_Ok [Htok H].
  assert (Hne : forall w, w <> u -> rd (PredBet w) s' = rd (PredBet w) s) by (intros w Hw; apply Hk; congruence).
  split; [by rewrite Hk|]. rewrite Hk by done. rewrite Hm in *. rewrite Hr in *. destruct H as (Hp & H1 & H2 & Hi & c & Hc & Hc0 & H).
  pose proof (Hp u h a Hb) as Ha. split_and!; try done.
  { intros w h' b Hw. destruct (decide (w = u)) as [->|Hw']; [by rewrite Hn in Hw|]. rewrite Hne in Hw by done. by eapply Hp. }
  assert (Hgone : forall h0, on_side h0 s' u = 0) by (intros h0; unfold on_side; by rewrite Hn).
  assert (Hcap : forall h0 n, capped (on_side h0 s) n -> capped (on_side h0 s') (n - on_side h0 s u)).
  { intros h0 n Hcap us Hnd.
    pose proof (capped_change _ (on_side h0 s') u n (on_side_change h0 s s' u Hne) ltac:(rewrite Hgone; lia) Hcap us Hnd) as Hle.
    rewrite Hgone in Hle. lia. }
  unfold resolved_ok. destruct (pm_outcome m) as [out|] eqn:Ho.
  - destruct H as [Hpaid Hcapped]. destruct (decide (out = h)) as [->|Hout].
    + exists (c + a). specialize (Hcap h _ Hcapped). rewrite (on_side_bet h s u h a Hb), eqb_reflx in Hcap.
      pose proof (Hz eq_refl) as Hnz. cbn [fst] in Hnz. assert (0 <= side m h /\ 0 <= side m (negb h)) as [Hs1 Hs2] by (by destruct h).
      destruct (payout_bound m h a Ho Ha ltac:(lia) Hs2) as [Hle _]. rewrite <- Hv in Hle.
      rewrite (side_total m h) in Hi.
      split_and!; [lia|lia|nia|]. replace (side m h - (c + a)) with (side m h - c - a) by lia. done.
    + exists c. assert (v = 0) as ->. { rewrite Hv. unfold payout. rewrite Ho. by destruct out, h. }
      specialize (Hcap out _ Hcapped). rewrite (on_side_bet out s u h a Hb) in Hcap.
      replace (eqb out h) with false in Hcap by (by destruct out, h). rewrite Z.sub_0_r in Hcap. done.
  - destruct H as [Hpaid Hcapped]. exists (c + a). assert (v = a) as -> by (rewrite Hv; unfold payout; by rewrite Ho).
    split_and!; [lia|lia|lia|]. intros us Hnd.
    pose proof (capped_change (fun w => on_side true s w + on_side false s w) (fun w => on_side true s' w + on_side false s' w) u (i - c)
      ltac:(intros w Hw; cbn beta; by rewrite (on_side_change true s s' u Hne w Hw), (on_side_change false s s' u Hne w Hw)) ltac:(cbn beta; rewrite !Hgone; lia) Hcapped us Hnd) as Hle.
    cbn beta in Hle. rewrite !Hgone, (on_side_bet true s u h a Hb), (on_side_bet false s u h a Hb) in Hle. destruct h; cbn [eqb] in Hle; lia.
Qed.

Lemma market_ok_pays s i o : market_ok s i o -> o <= i.
Proof.
  intros [_ H]. destruct (rd PredMarket s) as [m|]; [|lia]. destruct H as (_ & H1 & H2 & Hi & H).
  destruct (pm_resolved m); [|lia]. destruct H as (c & Hc & Hc0 & H). destruct (pm_outcome m) as [h|].
  - destruct H as [Hp Hcap%capped_nonneg]. assert (0 <= side m h) by (by destruct h).
    destruct (Z.eq_dec c 0) as [->|]; [lia|]. assert (0 < side m h) by lia.
    assert (o * side m h <= i * side m h) by nia. nia.
  - destruct H as [Hp Hcap%capped_nonneg]. lia.
Qed.

(** C24. The market pays at most what it took.  Whatever the order of bets,
    repeated bets and claims, before and after the market is resolved, what
    the claims were paid is at most what the bets brought in, and the vault's
    balance is at least what it was plus the bets less the claims: the shares
    of the losing side's stakes are rounded down, and without a winner's
    record there is no payment. *)
Theorem market_pays_from_bets (s s' : State) (i o : Z) :
  rd Token s = Some token -> rd PredMarket s = None -> (forall u, rd (PredBet u) s = None) ->
  market_run s i o s' ->
  o <= i /\ balance_of token me s + i - o <= balance_of token me s'.
Proof.
  intros Htok Hm Hb Hrun.
  enough (forall i0 o0, market_ok s i0 o0 -> market_ok s' (i0 + i) (o0 + o) /\
    balance_of token me s + i - o <= balance_of token me s') as Hall.
  { destruct (Hall 0 0) as [H ?]; [split; [done|]; rewrite Hm; done|]. split; [by apply market_ok_pays in H|done]. }
  clear Htok Hm Hb. induction Hrun as [s|env admin cl tg x s s' i o s'' H _ IH|env u h a x s s' i o s'' Hme Hu H _ IH
    |env admin x s s' i o s'' H _ IH|env u v s s' i o s'' Hme Hu H _ IH|s s' i o s'' Hk Hb _ IH]; intros i0 o0 Hok.
  - rewrite !Z.add_0_r. split; [done|lia].
  - destruct (IH i0 o0) as [? ?].
    { apply open_Ok in H as (Hn & _ & _ & ->). destruct Hok as [Ht Hok]. rewrite Hn in Hok. split; [by rdsimp|].
      rdsimp. destruct Hok as (-> & -> & Hno). unfold side. simpl. split_and!; try done.
      - intros u h a. rdsimp. by rewrite Hno.
      - intros us _. rewrite (sum_of_ext _ (fun _ => 0)); [|intros u _; unfold on_side; rdsimp; by rewrite Hno].
        clear. induction us; simpl; lia.
      - intros us _. rewrite (sum_of_ext _ (fun _ => 0)); [|intros u _; unfold on_side; rdsimp; by rewrite Hno].
        clear. induction us; simpl; lia. }
    split; [done|]. apply open_Ok in H as (_ & _ & _ & ->). by rewrite balance_of_upd in *.
  - destruct (IH (a + i0) o0) as [H1 H2]; [by eapply bet_keeps|].
    replace (i0 + (a + i)) with (a + i0 + i) by lia. split; [done|].
    apply place_bet_Ok in H as (m & m' & t & s1 & _ & _ & _ & _ & Ht & Htr & He & _). destruct Hok as [Htok _].
    rewrite Htok in Ht. injection Ht as <-. rewrite Hme in Htr. apply token_received in Htr as (_ & _ & Hbal); [|done].
    unfold balance_of in *. rewrite He in H2. lia.
  - destruct (IH i0 o0) as [H1 H2]; [by eapply resolve_keeps|]. split; [done|].
    apply resolve_Ok in H as (m & _ & _ & _ & _ & He & _). unfold balance_of in *. by rewrite He in H2.
  - destruct (IH i0 (v + o0)) as [H1 H2]; [by eapply claim_keeps|].
    replace (o0 + (v + o)) with (v + o0 + o) by lia. split; [done|].
    apply claim_winnings_Ok in H as (m & bet & _ & _ & _ & _ & _ & _ & _ & [[He ->]|(t & s1 & s2 & Ht & He1 & Htr & He)]).
    + unfold balance_of in *. rewrite He in H2. lia.
    + destruct Hok as [Htok _]. rewrite Htok in Ht. injection Ht as <-. rewrite Hme in Htr.
      apply token_sent in Htr as (_ & _ & Hbal & _). unfold balance_of in *. rewrite He in H2. rewrite He1 in Hbal. lia.
  - destruct (IH i0 o0) as [H1 H2]; [|split; [done|lia]]. destruct Hok as [Ht Hok]. split; [rewrite Hk by tauto; done|].
    rewrite Hk by tauto. assert (Hbk : forall u, rd (PredBet u) s' = rd (PredBet u) s) by (intros u; apply Hk; eauto).
    assert (Hs : forall h u, on_side h s u = on_side h s' u) by (intros h u; unfold on_side; by rewrite Hbk).
    destruct (rd PredMarket s) as [m|]; [|destruct Hok as (-> & -> & Hno); split_and!; try done; intros u; by rewrite Hbk].
    destruct Hok as (Hp & ? & ? & ? & Hok). split_and!; try done. { intros u h a. rewrite Hbk. apply Hp. }
    destruct (pm_resolved m).
    + destruct Hok as (c & ? & ? & Hok). exists c. split_and!; try done.
      destruct (pm_outcome m) as [h|]; destruct Hok as [? Hc]; (split; [done|]); (eapply capped_same; [|exact Hc]); intros w; cbn beta; by rewrite !Hs.
    + destruct Hok as (? & Hc1 & Hc2). split_and!; try done; (eapply capped_same; [|eassumption]); intros w; by rewrite Hs.
Qed.

End Solvency.

(** ** What the market loses *)

Section Losses.
Context {W : World} {HT : StandardTokens W} {N : MarketNames}.
Implicit Types s : State.

(** A second bet replaces the first.  When a user who has a bet bets again,
    the first amount stays in the totals of its side, but whatever the market
    comes to, the user's one claim is worth the second bet alone and leaves no
    record behind: the first amount can be neither won nor refunded. *)
Theorem second_bet_replaces_first (env env' : Env) u h0 a0 h a m m' s x s1 s2 v s3 :
  rd (PredBet u) s = Some (h0, a0) -> rd PredMarket s = Some m ->
  place_bet env u h a s = Ok x s1 ->
  rd (PredBet u) s2 = rd (PredBet u) s1 -> rd PredMarket s2 = Some m' ->
  claim_prediction_winnings env' u s2 = Ok v s3 ->
  v = payout m' (h, a) /\ rd (PredBet u) s3 = None /\
  (exists m1, rd PredMarket s1 = Some m1 /\ side m1 h = side m h + a /\ side m1 (negb h) = side m (negb h)).
Proof.
  intros H0 Hm Hbet Hsame Hm' Hclaim.
  apply place_bet_Ok in Hbet as (m0 & m1 & t & st & _ & Hm0 & _ & Hw & _ & _ & _ & Hb & Hm1 & _).
  apply claim_winnings_Ok in Hclaim as (m2 & bet & Hm2 & _ & Hbet & -> & _ & Hn & _).
  rewrite Hm in Hm0. injection Hm0 as <-. rewrite Hm' in Hm2. injection Hm2 as <-.
  rewrite Hsame, Hb in Hbet. injection Hbet as <-. split; [done|]. split; [done|].
  apply with_bet_Some in Hw as (? & ? & _). by exists m1.
Qed.

Lemma market_stays token me s i o s' :
  market_run token me s i o s' -> rd PredMarket s <> None -> rd PredMarket s' <> None.
Proof.
  induction 1 as [s|env ad cl tg x s s' i o s'' H _ IH|env u h a x s s' i o s'' _ _ H _ IH
    |env ad x s s' i o s'' H _ IH|env u v s s' i o s'' _ _ H _ IH|s s' i o s'' Hk _ _ IH]; [done|..]; intros Hm.
  - apply open_Ok in H as (? & _). done.
  - apply IH. apply place_bet_Ok in H as (m & m' & ? & ? & _ & _ & _ & _ & _ & _ & _ & _ & -> & _). done.
  - apply IH. apply resolve_Ok in H as (m & _ & _ & _ & (m' & -> & _) & _). done.
  - apply IH. apply claim_winnings_Ok in H as (m & bet & Hm' & _ & _ & _ & _ & _ & Hk & _). by rewrite Hk, Hm'.
  - apply IH. by rewrite Hk by tauto.
Qed.

(** There is one market in the life of the vault.  No operation removes the
    record, so after the first market has been opened, over any run of the
    market and of operations that leave its records alone, the administrator's
    attempt to open another is refused. *)
Theorem one_market_only (token me admin : Address) (env : Env) (closes target : Z) s i o s' :
  rd PredMarket s <> None -> market_run token me s i o s' ->
  rd AdminRenounced s' <> Some true -> rd Admin s' = Some admin -> signed env admin = true ->
  open_prediction_market env admin closes target s' = Err MarketAlreadyOpen s'.
Proof.
  intros Hm Hrun Hr Ha Hsig. pose proof (market_stays _ _ _ _ _ _ Hrun Hm) as Hm'.
  unfold open_prediction_market. rewrite (bind_run _ _ s' tt s').
  - unfold reading at 1. unfold has. by destruct (rd PredMarket s').
  - apply try_Ok. by apply require_admin_as_Ok.
Qed.

End Losses.

(** ** Witnesses *)

#[local] Instance some_names : MarketNames := {|
  MarketAlreadyOpen := VaultFeatureError.Unauthorized;
  InvalidRate := VaultFeatureError.ZeroAmount;
  NotActiveStaker := VaultFeatureError.PositionNotFound;
  NoMarketOpen := VaultFeatureError.NotInitialized;
  BettingClosed := VaultFeatureError.OfferExpired;
  MarketNotResolved := VaultFeatureError.OfferNotFound;
  MarketNotReady := VaultFeatureError.ArithmeticError;
  AlreadyClaimed := VaultFeatureError.TooManyOpenOffers
|}.

(** The value of a run that succeeds. *)
Definition value_of {W : World} {E A} (m : M E A) (s : State) : option A :=
  match m s with Ok v _ => Some v | _ => None end.
Lemma value_runs {W : World} {E A} (m : M E A) s v : value_of m s = Some v -> m s = Ok v (invoke m s).
Proof. unfold value_of, invoke. destruct (m s); [intros [= ->]; done|done..]. Qed.

(** Users 2 and 3 stake in the vault at address 1; 4 is the administrator. *)
Definition betting_vault : State (W := token_world) :=
  upd RewardRateBps (Some 100) (upd (ShareBalance 3%positive) (Some 50) (upd (ShareBalance 2%positive) (Some 50)
    (upd Admin (Some 4%positive) (upd Token (Some 9%positive)
      (start_state (fun t a => if decide (t = 9%positive /\ a <> 1%positive) then 1000 else 0)))))).
Definition opened := invoke (open_prediction_market (at_ledger 10) 4%positive 50 100) betting_vault.
Definition one_bet := invoke (place_bet (at_ledger 20) 2%positive true 60) opened.
Definition two_bets := invoke (place_bet (at_ledger 30) 3%positive false 40) one_bet.
Definition rate_up := upd RewardRateBps (Some 200) two_bets.
Definition resolved := invoke (resolve_market (at_ledger 100) 4%positive) rate_up.
Definition winner_paid := invoke (claim_prediction_winnings (at_ledger 110) 2%positive) resolved.
Definition all_claimed := invoke (claim_prediction_winnings (at_ledger 111) 3%positive) winner_paid.

Lemma opened_run : market_run 9%positive 1%positive opened 100 100 all_claimed.
Proof.
  apply (mr_bet _ _ (at_ledger 20) 2%positive true 60 tt _ one_bet 40 100);
    [reflexivity|discriminate|apply value_runs; vm_compute; reflexivity|].
  apply (mr_bet _ _ (at_ledger 30) 3%positive false 40 tt _ two_bets 0 100);
    [reflexivity|discriminate|apply value_runs; vm_compute; reflexivity|].
  apply (mr_other _ _ _ rate_up).
  { unfold rate_up. intros k [-> |[-> |[u ->]]]; by rewrite rd_upd_ne. }
  { unfold rate_up. rewrite balance_of_upd. reflexivity. }
  apply (mr_resolve _ _ (at_ledger 100) 4%positive tt _ resolved); [apply value_runs; vm_compute; reflexivity|].
  apply (mr_claim _ _ (at_ledger 110) 2%positive 100 _ winner_paid 0 0);
    [reflexivity|discriminate|apply value_runs; vm_compute; reflexivity|].
  apply (mr_claim _ _ (at_ledger 111) 3%positive 0 _ all_claimed 0 0);
    [reflexivity|discriminate|apply value_runs; vm_compute; reflexivity|].
  apply mr_nil.
Qed.
Lemma betting_run : market_run 9%positive 1%positive betting_vault 100 100 all_claimed.
Proof.
  apply (mr_open _ _ (at_ledger 10) 4%positive 50 100 tt _ opened); [apply value_runs; vm_compute; reflexivity|].
  apply opened_run.
Qed.

Lemma market_pays_from_bets_witness :
  market_run 9%positive 1%positive betting_vault 100 100 all_claimed /\
  (100 <= 100 /\ balance_of 9%positive 1%positive betting_vault + 100 - 100 <= balance_of 9%positive 1%positive all_claimed).
Proof.
  split; [exact betting_run|]. apply (market_pays_from_bets 9%positive 1%positive betting_vault all_claimed 100 100).
  - reflexivity.
  - reflexivity.
  - intros u. reflexivity.
  - exact betting_run.
Defined.

Definition bet_again := invoke (place_bet (at_ledger 40) 2%positive false 5) one_bet.
Definition undecided := invoke (resolve_market (at_ledger 100) 4%positive) bet_again.
Definition refunded := invoke (claim_prediction_winnings (at_ledger 110) 2%positive) undecided.

Lemma second_bet_replaces_first_witness :
  exists m m', rd PredMarket one_bet = Some m /\ rd PredMarket undecided = Some m' /\
    claim_prediction_winnings (at_ledger 110) 2%positive undecided = Ok 5 refunded /\
    (5 = payout m' (false, 5) /\ rd (PredBet 2%positive) refunded = None /\
     (exists m1, rd PredMarket bet_again = Some m1 /\ side m1 false = side m false + 5 /\ side m1 true = side m true)).
Proof.
  destruct (rd PredMarket one_bet) as [m|] eqn:Hm; [|exfalso; revert Hm; vm_compute; discriminate].
  destruct (rd PredMarket undecided) as [m'|] eqn:Hm'; [|exfalso; revert Hm'; vm_compute; discriminate].
  exists m, m'. split; [reflexivity|]. split; [reflexivity|].
  assert (H : claim_prediction_winnings (at_ledger 110) 2%positive undecided = Ok 5 refunded)
    by (apply value_runs; vm_compute; reflexivity).
  split; [exact H|].
  apply (second_bet_replaces_first (W:=token_world) (at_ledger 40) (at_ledger 110) 2%positive true 60 false 5 m m'
           one_bet tt bet_again undecided 5 refunded).
  - vm_compute. reflexivity.
  - exact Hm.
  - apply value_runs. vm_compute. reflexivity.
  - vm_compute. reflexivity.
  - exact Hm'.
  - exact H.
Defined.

Lemma one_market_only_witness :
  open_prediction_market (at_ledger 200) 4%positive 300 400 all_claimed = Err MarketAlreadyOpen all_claimed.
Proof.
  apply (one_market_only (W:=token_world) 9%positive 1%positive 4%positive (at_ledger 200) 300 400 opened 100 100 all_claimed).
  - vm_compute. discriminate.
  - exact opened_run.
  - vm_compute. discriminate.
  - vm_compute. reflexivity.
  - reflexivity.
Defined.
