(* ===== verification/Swaps.v ===== *)
(** * Position swaps ([vault.rs], issue #283)

    A staker offers a counterparty an amount of its position for an amount of
    the counterparty's; acceptance claims both sides' rewards and moves shares
    between the two positions.  [errors.rs] does not declare
    [InsufficientAmount]: it is an argument of [create_swap_offer]. *)

From S2P Require Import Prelude Errors Storage Host Events Concrete Accessors Admin Shares RewardMath.
From S2P Require Import Rewards Checkpoints Balance Pause Limits Mirror Strategies Vault ClaimFees Claims Leaderboard.

Definition MAX_OPEN_OFFERS : Z := 5.

Section Swaps.
Context {W : World} (env : Env).
Implicit Types s : State.

(** Offers listed under [off_usr] that still exist, are [user]'s and have not expired. *)
Definition count_user_open_offers (user : Address) s : Z :=
  Z.of_nat (length (List.filter (fun oid =>
    match rd (OfferOf oid) s with
    | Some offer => bool_decide (so_offerer offer = user) && (sequence env <=? so_expires_at offer)
    | None => false
    end) (default [] (rd OfferList s)))).

Definition create_swap_offer (InsufficientAmount : VaultFeatureError.t) (user counterparty : Address)
    (my_amount their_amount duration_ledgers : Z) : M VaultFeatureError.t Z :=
  require_auth env user ;;;
  fail_if ((my_amount <=? 0) || (their_amount <=? 0)) VaultFeatureError.ZeroAmount ;;;
  let& shares := get_shares user in
  let& their_shares := get_shares counterparty in
  fail_if ((shares =? 0) || (their_shares =? 0)) VaultFeatureError.PositionNotFound ;;;
  let& total_shares := get_total_shares in
  let& total_deposited := get_total_deposited in
  let user_pos_amount := default 0 (shares_to_amount total_shares total_deposited shares) in
  fail_if (user_pos_amount <? my_amount) InsufficientAmount ;;;
  let counterparty_pos_amount := default 0 (shares_to_amount total_shares total_deposited their_shares) in
  fail_if (counterparty_pos_amount <? their_amount) InsufficientAmount ;;;
  let& open := count_user_open_offers user in
  fail_if (MAX_OPEN_OFFERS <=? open) VaultFeatureError.TooManyOpenOffers ;;;
  let& stored := rd OfferCount in
  let! next_id := plain (to_u32 (default 0 stored + 1)) in
  put OfferCount next_id ;;;
  let! expires_at := plain (to_u32 (sequence env + duration_ledgers)) in
  put (OfferOf next_id) (mkSwapOffer user my_amount counterparty their_amount expires_at) ;;;
  let& user_offers := rd OfferList in
  put OfferList (default [] user_offers ++ [next_id]) ;;;
  ret next_id.

(** [amount * total_shares / total_deposited], or nothing in an empty vault. *)
Definition offer_shares (total_shares total_deposited amount : Z) : M VaultFeatureError.t Z :=
  if (0 <? total_shares) && (0 <? total_deposited)
  then let! v := plain (checked_mul amount total_shares) in
       ret (Z.quot v total_deposited)
  else ret 0.

(** The records [accept_swap_offer] writes for the two positions' new shares. *)
Definition record_swap {E} (offerer counterparty : Address) (new_offerer_shares new_counterparty_shares : Z)
    : M E unit :=
  let ledger := sequence env in
  put (StakedAtLedger offerer) ledger ;;;
  put (StakedAtLedger counterparty) ledger ;;;
  set_last_claim_ledger offerer ledger ;;;
  set_last_claim_ledger counterparty ledger ;;;
  record_stake_snapshot env offerer new_offerer_shares ;;;
  record_stake_snapshot env counterparty new_counterparty_shares ;;;
  update_leaderboard offerer new_offerer_shares ;;;
  update_leaderboard counterparty new_counterparty_shares.

Definition accept_swap_offer (counterparty : Address) (offer_id : Z) : M VaultFeatureError.t unit :=
  require_auth env counterparty ;;;
  try_ (require_not_paused env) ;;;
  let& stored := rd (OfferOf offer_id) in
  let! offer := ok_or stored VaultFeatureError.OfferNotFound in
  let offerer := so_offerer offer in
  fail_if (negb (bool_decide (counterparty = so_requested_address offer))) VaultFeatureError.NotRequestedCounterparty ;;;
  fail_if (so_expires_at offer <? sequence env) VaultFeatureError.OfferExpired ;;;
  try_ (do_claim env offerer) ;;;
  try_ (do_claim env counterparty) ;;;
  let& total_shares := get_total_shares in
  let& total_deposited := get_total_deposited in
  let& offerer_shares := get_shares offerer in
  let& counterparty_shares := get_shares counterparty in
  let! offerer_offer_shares := offer_shares total_shares total_deposited (so_offered_amount offer) in
  let! counterparty_offer_shares := offer_shares total_shares total_deposited (so_requested_amount offer) in
  fail_if ((offerer_offer_shares =? 0) || (counterparty_offer_shares =? 0)) VaultFeatureError.ZeroAmount ;;;
  let! v := plain (checked_sub offerer_shares offerer_offer_shares) in
  let! new_offerer_shares := plain (checked_add v counterparty_offer_shares) in
  let! v := plain (checked_sub counterparty_shares counterparty_offer_shares) in
  let! new_counterparty_shares := plain (checked_add v offerer_offer_shares) in
  set_shares env offerer new_offerer_shares ;;;
  set_shares env counterparty new_counterparty_shares ;;;
  record_swap offerer counterparty new_offerer_shares new_counterparty_shares ;;;
  del (OfferOf offer_id) ;;;
  Ev.swap_executed offerer counterparty (so_offered_amount offer) (so_requested_amount offer) (sequence env).

Definition cancel_swap_offer (user : Address) (offer_id : Z) : M VaultFeatureError.t unit :=
  require_auth env user ;;;
  let& stored := rd (OfferOf offer_id) in
  let! offer := ok_or stored VaultFeatureError.OfferNotFound in
  fail_if (negb (bool_decide (so_offerer offer = user))) VaultFeatureError.Unauthorized ;;;
  del (OfferOf offer_id).

End Swaps.
