(* ===== verification/CapacityAuction.v ===== *)
(** * The capacity auction ([vault.rs], issue #237)

    An administrator auctions places in the pool: bidders escrow stake tokens
    over a window; when it closes the highest bids become staking positions
    and every other bid is refunded.  A winner's bid is its stake.  The
    accrual walk inside the crediting of a winner has the host's budget as
    [fuel] (see [Accrual.v]). *)

From S2P Require Import Prelude Errors Storage Host Events TokenFacts Concrete Accessors Admin Shares RewardMath Accrual.
From S2P Require Import Rewards Checkpoints Balance Pause Limits Leaderboard Smoothing.

Definition MAX_AUCTION_SPOTS : Z := 20.
Definition MAX_AUCTION_BIDS : nat := 50.
Definition MAX_STAKE_HISTORY : nat := 5.

Section CapacityAuction.
Context {W : World} {B : Bootstrap W} (env : Env) (fuel : nat).
Implicit Types s : State.

(** ** Accessors ([balance.rs]) *)

Definition get_capacity_auction s : option CapacityAuction := rd CapAuction s.
Definition set_capacity_auction {E} (auction : CapacityAuction) : M E unit := put CapAuction auction.
Definition get_auction_bids s : list AuctionBid := default [] (rd AuctBids s).
Definition set_auction_bids {E} (bids : list AuctionBid) : M E unit := put AuctBids bids.
Definition has_pool_spot (user : Address) s : bool := default false (rd (PoolSpot user) s).
Definition grant_pool_spot {E} (user : Address) : M E unit := put (PoolSpot user) true.
Definition set_auction_mode_value {E} (enabled : bool) : M E unit := put AuctMode enabled.
Definition get_auction_mode s : bool := default false (rd AuctMode s).
Definition get_pool_cap s : Z := default 0 (rd PoolCap s).
Definition get_total_ever_staked s : Z := default 0 (rd TotalEverStaked s).
Definition set_total_ever_staked {E} (total : Z) : M E unit := assert_non_negative total ;;; put TotalEverStaked total.

(** ** The auction *)

Definition start_capacity_auction (admin : Address) (spots duration_ledgers min_bid : Z) : M VaultExtError.t unit :=
  try_ (require_admin_as env admin) ;;;
  fail_if ((spots =? 0) || (MAX_AUCTION_SPOTS <? spots) || (duration_ledgers =? 0) || (min_bid <? 0))
    VaultExtError.InvalidAuctionConfig ;;;
  let& existing := get_capacity_auction in
  (match existing with
   | Some existing => fail_if (negb (ca_finalized existing)) VaultExtError.AuctionAlreadyActive
   | None => ret tt
   end) ;;;
  let started_at := sequence env in
  let ends_at := u32_sat_add started_at duration_ledgers in
  set_capacity_auction (mkCapacityAuction spots min_bid started_at ends_at false 0) ;;;
  set_auction_bids [] ;;;
  Ev.auction_started env spots min_bid ends_at.

(** The first bid of [bidder], with its index. *)
Fixpoint bid_index (bidder : Address) (bids : list AuctionBid) : option (nat * AuctionBid) :=
  match bids with
  | [] => None
  | bid :: bids =>
      if bool_decide (cb_bidder bid = bidder) then Some (0%nat, bid)
      else '(i, b) ← bid_index bidder bids; Some (S i, b)
  end.

Definition place_bid (bidder : Address) (amount : Z) : M VaultExtError.t Z :=
  require_auth env bidder ;;;
  fail_if (amount <=? 0) VaultExtError.ZeroAmount ;;;
  let& stored := get_capacity_auction in
  let! auction := ok_or stored VaultExtError.AuctionNotFound in
  fail_if (ca_finalized auction) VaultExtError.AuctionClosed ;;;
  fail_if (ca_ends_at auction <=? sequence env) VaultExtError.AuctionClosed ;;;
  let& bids := get_auction_bids in
  let existing := bid_index bidder bids in
  let previous := match existing with Some (_, bid) => cb_amount bid | None => 0 end in
  let! total_bid := ok_or (checked_add previous amount) VaultExtError.ArithmeticError in
  fail_if (total_bid <? ca_min_bid auction) VaultExtError.BidBelowMinimum ;;;
  fail_if (match existing with None => (MAX_AUCTION_BIDS <=? length bids)%nat | Some _ => false end)
    VaultExtError.TooManyBids ;;;
  let! token_addr := try_ token_address in
  transfer token_addr bidder (self env) amount ;;;
  let entry := mkAuctionBid bidder total_bid
                 (match existing with Some (_, bid) => cb_placed_at bid | None => sequence env end) in
  set_auction_bids (match existing with
                    | Some (index, _) => <[index := entry]> bids
                    | None => bids ++ [entry]
                    end) ;;;
  set_capacity_auction (mkCapacityAuction (ca_spots auction) (ca_min_bid auction) (ca_started_at auction)
    (ca_ends_at auction) (ca_finalized auction) (sat_add (ca_total_escrowed auction) amount)) ;;;
  Ev.bid_placed env bidder amount total_bid ;;;
  ret total_bid.

Definition outranks (bid other : AuctionBid) : bool :=
  (cb_amount other <? cb_amount bid) ||
  ((cb_amount bid =? cb_amount other) && (cb_placed_at bid <? cb_placed_at other)).

(** One insertion of the sort: before the first entry [bid] outranks. *)
Fixpoint insert_bid (bid : AuctionBid) (sorted : list AuctionBid) : list AuctionBid :=
  match sorted with
  | [] => [bid]
  | other :: rest => if outranks bid other then bid :: sorted else other :: insert_bid bid rest
  end.
Definition sorted_auction_bids s : list AuctionBid :=
  fold_left (fun sorted bid => insert_bid bid sorted) (get_auction_bids s) [].

Definition get_bid_of (bidder : Address) s : Z :=
  match bid_index bidder (get_auction_bids s) with Some (_, bid) => cb_amount bid | None => 0 end.

(** Appends to a ring buffer of five entries. *)
Definition append_stake_history {E} (user : Address) (action : StakeAction) (amount : Z) : M E unit :=
  let& stored := rd (StakeActions user) in
  let history := default [] stored in
  let history := if (MAX_STAKE_HISTORY <=? length history)%nat then drop 1 history else history in
  put (StakeActions user) (history ++ [mkStakeHistoryEntry action amount (sequence env)]).

(** Registers a first stake. *)
Definition open_position {E} (staker : Address) (amount : Z) : M E unit :=
  let current_ledger := sequence env in
  put (StakedAtLedger staker) current_ledger ;;;
  let& seen := has (FirstStakedAt staker) in
  (if seen then ret tt else put (FirstStakedAt staker) current_ledger) ;;;
  set_last_claim_ledger staker current_ledger ;;;
  let& stakers := get_total_stakers in
  let! stakers := plain (to_u32 (stakers + 1)) in
  put TotalStakers stakers ;;;
  let& all_stakers := get_all_stakers in
  set_all_stakers (all_stakers ++ [staker]) ;;;
  Ev.position_opened env staker amount.

(** The second half of [credit_escrow_stake]: latches, registration, histories. *)
Definition enroll {E} (staker : Address) (amount current_shares shares : Z) : M E unit :=
  check_activation env ;;;
  maybe_activate_rewards env ;;;
  (if current_shares =? 0 then open_position staker amount else ret tt) ;;;
  let& new_shares := get_shares staker in
  record_stake_snapshot env staker new_shares ;;;
  update_leaderboard staker new_shares ;;;
  append_stake_history staker SStake amount ;;;
  Ev.deposit staker amount shares (sequence env) ;;;
  set_last_updated_ledger (sequence env) ;;;
  let& ever := get_total_ever_staked in
  let! v := plain (checked_add ever amount) in
  set_total_ever_staked v.

Definition credit_escrow_stake (staker : Address) (amount : Z) : M VaultExtError.t Z :=
  let& total_shares := get_total_shares in
  let& total_deposited := get_total_deposited in
  let& current_shares := get_shares staker in
  try_ (accrue_rewards env fuel staker current_shares) ;;;
  let! shares := ok_or (amount_to_shares total_shares total_deposited amount) VaultExtError.ArithmeticError in
  let! v := plain (checked_add current_shares shares) in
  set_shares env staker v ;;;
  let! v := plain (checked_add total_shares shares) in
  set_total_shares env v ;;;
  let! v := plain (checked_add total_deposited amount) in
  set_total_deposited v ;;;
  enroll staker amount current_shares shares ;;;
  ret shares.

(** The loop over the ranked bids, from rank [i]; the counters are
    [(winner_count, total_staked, total_refunded)]. *)
Fixpoint settle_bids (token_addr : Address) (staking_allowed : bool) (spots cap : Z) (bids : list AuctionBid)
    (i : Z) (counts : Z * Z * Z) : M VaultExtError.t (Z * Z * Z) :=
  match bids with
  | [] => ret counts
  | bid :: bids =>
      let '(winner_count, total_staked, total_refunded) := counts in
      let& deposited := get_total_deposited in
      let fits_cap := (cap <=? 0) || (sat_add deposited (cb_amount bid) <=? cap) in
      let! counts :=
        (if staking_allowed && (i <? spots) && fits_cap then
           grant_pool_spot (cb_bidder bid) ;;;
           credit_escrow_stake (cb_bidder bid) (cb_amount bid) ;;;
           Ev.auction_won env (cb_bidder bid) (cb_amount bid) (i + 1) ;;;
           ret (winner_count + 1, sat_add total_staked (cb_amount bid), total_refunded)
         else
           transfer token_addr (self env) (cb_bidder bid) (cb_amount bid) ;;;
           Ev.bid_refunded env (cb_bidder bid) (cb_amount bid) ;;;
           ret (winner_count, total_staked, sat_add total_refunded (cb_amount bid))) in
      settle_bids token_addr staking_allowed spots cap bids (i + 1) counts
  end.

Definition finalize_capacity_auction (admin : Address) : M VaultExtError.t Z :=
  try_ (require_admin_as env admin) ;;;
  let& stored := get_capacity_auction in
  let! auction := ok_or stored VaultExtError.AuctionNotFound in
  fail_if (ca_finalized auction) VaultExtError.AuctionClosed ;;;
  fail_if (sequence env <? ca_ends_at auction) VaultExtError.AuctionNotEnded ;;;
  let! token_addr := try_ token_address in
  let& is_paused := paused in
  let& stopped := rd Stopped in
  let& shutting_down := rd ShuttingDown in
  let staking_allowed := negb is_paused && negb (default false stopped) && negb (default false shutting_down) in
  let& bids := sorted_auction_bids in
  let& cap := get_pool_cap in
  let! counts := settle_bids token_addr staking_allowed (ca_spots auction) cap bids 0 (0, 0, 0) in
  let '(winner_count, total_staked, total_refunded) := counts in
  set_capacity_auction (mkCapacityAuction (ca_spots auction) (ca_min_bid auction) (ca_started_at auction)
    (ca_ends_at auction) true 0) ;;;
  set_auction_bids [] ;;;
  Ev.auction_finalized env winner_count total_staked total_refunded ;;;
  ret winner_count.

Definition set_auction_mode (admin : Address) (enabled : bool) : M VaultExtError.t unit :=
  try_ (require_admin_as env admin) ;;;
  set_auction_mode_value enabled.

(** The admission check of [do_stake]. *)
Definition require_pool_spot (staker : Address) : M VaultError.t unit :=
  let& mode := get_auction_mode in
  if negb mode then ret tt
  else
    let& spot := has_pool_spot staker in
    fail_if (negb spot) VaultError.NotWhitelisted.

End CapacityAuction.
