(* ===== verification/Epochs.v ===== *)
(** * Epoch distribution and vesting ([vault.rs], [vault_extensions_701_704.rs])

    In epoch mode a fixed amount per epoch is shared in proportion to the
    deposits at its end: [finalize_epoch] stores the epoch's reward factor and
    a snapshot of every staker's amount, [claim_epoch_rewards] pays all
    finalized epochs since the last claim, at once or through a vesting entry.

    Vesting entries live under two keys.  [balance.rs] keeps them under the
    symbol ["vest"] ([get_vesting_entries], [set_vesting_entries]); the rest of
    [vault.rs] uses [DataKey::VestingEntries].  [NotInEpochMode] is not declared
    in [errors.rs]: it is an argument. *)

From S2P Require Import Prelude Errors Storage Host Events TokenFacts Concrete Accessors Admin Shares RewardMath Rewards Limits.

Definition EPOCH_REWARD_SCALE : Z := 1000000000000.
Definition MAX_VESTING_ENTRIES : nat := 10.

Section Epochs.
Context {W : World} (env : Env).
Implicit Types s : State.

(** ** The cap of an epoch's reward ([vault_extensions_701_704.rs], issue #702) *)

Definition get_user_epoch_cap s : Z := default 0 (rd UserEpochCap s).
Definition apply_user_epoch_cap (reward : Z) s : Z :=
  let cap := get_user_epoch_cap s in
  if (0 <? cap) && (cap <? reward) then cap else reward.
Definition set_user_epoch_reward_cap (admin : Address) (amount : Z) : M VaultError.t unit :=
  require_admin_as env admin ;;;
  fail_if (amount <? 0) VaultError.InvalidHashLength ;;;
  put UserEpochCap amount.

(** ** Epochs *)

Definition set_epoch_mode (admin : Address) (epoch_ledgers reward_per_epoch : Z) : M VaultError.t unit :=
  require_admin_as env admin ;;;
  let& rate := get_reward_rate_bps in
  fail_if (0 <? rate) VaultError.EpochModeConflict ;;;
  put EpochMode true ;;;
  put EpochLedgers epoch_ledgers ;;;
  put EpochRewardPerEpoch reward_per_epoch ;;;
  let& started := has CurrentEpoch in
  if started then ret tt
  else put CurrentEpoch (mkEpochRound 1 (sequence env) reward_per_epoch 0).

(** [reward_pool * 10^12 / staked], nothing when nobody is in. *)
Definition factor_of (reward_pool staked : Z) : option Z :=
  if 0 <? staked then v ← checked_mul reward_pool EPOCH_REWARD_SCALE; checked_div v staked else Some 0.

(** The body of the snapshot loop for one staker. *)
Definition snapshot_staker {E} (epoch_number total_shares total_deposited : Z) (staker : Address) : M E unit :=
  let& shares := get_shares staker in
  if (0 <? shares) && (0 <? total_shares)
  then put (EpochSnap staker epoch_number) (default 0 (shares_to_amount total_shares total_deposited shares))
  else ret tt.

Definition finalize_epoch (admin : Address) : M VaultError.t unit :=
  require_admin_as env admin ;;;
  let& stored := rd EpochMode in
  fail_if (negb (default false stored)) VaultError.EpochModeConflict ;;;
  let& stored := rd CurrentEpoch in
  let! state := ok_or stored VaultError.NotInitialized in
  let& stored := rd EpochLedgers in
  let epoch_ledgers := default 0 stored in
  let current_ledger := sequence env in
  fail_if (current_ledger <? u32_sat_add (er_started_at state) epoch_ledgers) VaultError.EpochNotFinalized ;;;
  let& total_staked_snapshot := get_total_deposited in
  let! reward_factor := ok_or (factor_of (er_reward_pool state) total_staked_snapshot) VaultError.ArithmeticError in
  put (EpochRewardFactor (er_epoch_number state)) reward_factor ;;;
  let& all_stakers := get_all_stakers in
  let& total_shares := get_total_shares in
  let& total_deposited := get_total_deposited in
  for_each all_stakers (snapshot_staker (er_epoch_number state) total_shares total_deposited) ;;;
  let& stored := rd EpochRewardPerEpoch in
  let! next := plain (to_u32 (er_epoch_number state + 1)) in
  put CurrentEpoch (mkEpochRound next current_ledger (default 0 stored) 0).

Definition epoch_reward (user : Address) (epoch_number : Z) s : Z :=
  let reward_factor := default 0 (rd (EpochRewardFactor epoch_number) s) in
  if reward_factor =? 0 then 0
  else
    let user_staked := default 0 (rd (EpochSnap user epoch_number) s) in
    let reward := default 0 (checked_div (default 0 (checked_mul user_staked reward_factor)) EPOCH_REWARD_SCALE) in
    apply_user_epoch_cap reward s.

(** The reward for the current epoch at the current stake. *)
Definition get_user_epoch_rewards (user : Address) s : Z :=
  match rd CurrentEpoch s with
  | None => 0
  | Some state =>
      let total_shares := get_total_shares s in
      let total_deposited := get_total_deposited s in
      let shares := get_shares user s in
      if (total_shares <=? 0) || (total_deposited <=? 0) || (shares <=? 0) then 0
      else
        let staked := default 0 (shares_to_amount total_shares total_deposited shares) in
        let reward_factor :=
          default 0 (v ← checked_mul (er_reward_pool state) EPOCH_REWARD_SCALE; checked_div v total_deposited) in
        let reward := default 0 (v ← checked_mul staked reward_factor; checked_div v EPOCH_REWARD_SCALE) in
        apply_user_epoch_cap reward s
  end.

(** ** Vesting entries ([balance.rs]) *)

Definition get_vesting_entries (user : Address) s : list VestingEntry := default [] (rd (VestSym user) s).
Definition set_vesting_entries {E} (user : Address) (entries : list VestingEntry) : M E unit :=
  put (VestSym user) entries.

(** The [while] of [claim_epoch_rewards] over [n] epochs from [epoch]. *)
Fixpoint accumulate_epochs (user : Address) (n : nat) (epoch total : Z) : M VaultError.t Z :=
  match n with
  | O => ret total
  | S n =>
      let& reward := epoch_reward user epoch in
      let! total := ok_or (checked_add total reward) VaultError.ArithmeticError in
      accumulate_epochs user n (epoch + 1) total
  end.

(** Pays a claim, or vests it: reads ["vest"], writes the [DataKey]. *)
Definition pay_or_vest (user : Address) (amount : Z) : M VaultError.t unit :=
  let& stored := rd VestingPeriod in
  let vesting_period := default 0 stored in
  if 0 <? vesting_period then
    let& entries := get_vesting_entries user in
    fail_if (MAX_VESTING_ENTRIES <=? length entries)%nat VaultError.VestingQueueFull ;;;
    put (VestingEntries user) (entries ++ [mkVestingEntry amount (u32_sat_add (sequence env) vesting_period)])
  else
    let! token_addr := token_address in
    transfer token_addr (self env) user amount.

Definition claim_epoch_rewards (user : Address) : M VaultError.t Z :=
  require_auth env user ;;;
  let& stored := rd CurrentEpoch in
  let! state := ok_or stored VaultError.NotInitialized in
  let& stored := rd (LastEpochClaimed user) in
  let last_claimed := default 0 stored in
  let! total_accumulated :=
    accumulate_epochs user (Z.to_nat (er_epoch_number state - (last_claimed + 1))) (last_claimed + 1) 0 in
  if total_accumulated =? 0 then ret 0
  else
    let& reward_pool := get_reward_pool_balance in
    fail_if (reward_pool <? total_accumulated) VaultError.InsufficientRewardPool ;;;
    pay_or_vest user total_accumulated ;;;
    let! rest := plain (checked_sub reward_pool total_accumulated) in
    set_reward_pool_balance rest ;;;
    let& paid := get_total_rewards_paid in
    let! paid := plain (checked_add paid total_accumulated) in
    set_total_rewards_paid paid ;;;
    put (LastEpochClaimed user) (er_epoch_number state - 1) ;;;
    Ev.claimed user total_accumulated (sequence env) ;;;
    ret total_accumulated.

Definition current_epoch : M VaultError.t EpochRound :=
  let& stored := rd CurrentEpoch in
  ok_or stored VaultError.NotInitialized.

Definition get_next_epoch_start (NotInEpochMode : VaultError.t) : M VaultError.t Z :=
  let& stored := rd EpochMode in
  fail_if (negb (default false stored)) NotInEpochMode ;;;
  let! state := current_epoch in
  let& stored := rd EpochLedgers in
  ret (u32_sat_add (er_started_at state) (default 0 stored)).

Definition ledgers_until_next_epoch (NotInEpochMode : VaultError.t) : M VaultError.t Z :=
  let! next_start := get_next_epoch_start NotInEpochMode in
  ret (u32_sat_sub next_start (sequence env)).

(** ** Vesting *)

Definition set_vesting_period (admin : Address) (ledgers : Z) : M VaultError.t unit :=
  require_admin_as env admin ;;;
  put VestingPeriod ledgers.

Definition vesting_balance (user : Address) s : list VestingEntry := default [] (rd (VestingEntries user) s).

Definition schedule_vesting (user : Address) (amount claimable_at_ledger : Z) : M VaultError.t unit :=
  require_admin env ;;;
  fail_if (amount <=? 0) VaultError.ZeroAmount ;;;
  let& entries := vesting_balance user in
  put (VestingEntries user) (entries ++ [mkVestingEntry amount claimable_at_ledger]).

Definition matured (entry : VestingEntry) : bool := ve_claimable_at_ledger entry <=? sequence env.

(** The loop over the entries: what has matured, and the entries left. *)
Fixpoint mature (entries remaining : list VestingEntry) (total : Z) : M VaultError.t (Z * list VestingEntry) :=
  match entries with
  | [] => ret (total, remaining)
  | entry :: entries =>
      if matured entry then
        let! total := ok_or (checked_add total (ve_amount entry)) VaultError.ArithmeticError in
        mature entries remaining total
      else mature entries (remaining ++ [entry]) total
  end.

Definition withdraw_all_vested (user : Address) : M VaultError.t Z :=
  require_auth env user ;;;
  let& entries := vesting_balance user in
  if (length entries =? 0)%nat then ret 0
  else
    let! result := mature entries [] 0 in
    let (matured_total, remaining_entries) := (result : Z * list VestingEntry) in
    if matured_total =? 0 then ret 0
    else
      let& reward_pool := get_reward_pool_balance in
      fail_if (reward_pool <? matured_total) VaultError.InsufficientRewardPool ;;;
      (if (length remaining_entries =? 0)%nat then del (VestingEntries user)
       else put (VestingEntries user) remaining_entries) ;;;
      let! token_addr := token_address in
      transfer token_addr (self env) user matured_total ;;;
      ret matured_total.

Definition withdraw_vested (user : Address) : M VaultError.t Z :=
  require_auth env user ;;;
  let& entries := get_vesting_entries user in
  let! result := mature entries [] 0 in
  let (matured_total, remaining_entries) := (result : Z * list VestingEntry) in
  fail_if (matured_total =? 0) VaultError.NothingToWithdraw ;;;
  let& reward_pool := get_reward_pool_balance in
  fail_if (reward_pool <? matured_total) VaultError.InsufficientRewardPool ;;;
  (if (length remaining_entries =? 0)%nat then del (VestingEntries user)
   else set_vesting_entries user remaining_entries) ;;;
  let! token_addr := token_address in
  transfer token_addr (self env) user matured_total ;;;
  ret matured_total.

End Epochs.
