(* ===== verification/FeeReserve.v ===== *)
(** * Fee holiday, insurance reserve and the reduction schedule's views
    ([vault_extensions_701_704.rs], issues #701, #703 and #704)

    A fee holiday waives unstake fees until a ledger and expires lazily; a
    share of every collected fee goes to a reserve from which an administrator
    moves at most half at a time to the reward pool.  The reserve of this file
    is the one of the extension; the strategies keep one of their own. *)

From S2P Require Import Prelude Errors Storage Host Events TokenFacts Concrete Accessors Admin Shares RewardMath Rewards Limits.

Definition INSURANCE_USE_CAP_BPS : Z := 5000.

Section FeeReserve.
Context {W : World} (env : Env).
Implicit Types s : State.

(** ** Fee holiday *)

Definition get_fee_holiday_end s : option Z := rd FeeHoliday s.
Definition is_fee_holiday_active s : bool :=
  match get_fee_holiday_end s with Some ends_at => sequence env <? ends_at | None => false end.

Definition settle_fee_holiday {E} : M E bool :=
  let& ends_at := get_fee_holiday_end in
  match ends_at with
  | Some ends_at =>
      if sequence env <? ends_at then ret true
      else
        del FeeHoliday ;;;
        Ev.fee_holiday_ended ends_at (sequence env) ;;;
        ret false
  | None => ret false
  end.

Definition start_fee_holiday (admin : Address) (ends_at_ledger : Z) : M VaultError.t unit :=
  require_admin_as env admin ;;;
  let now := sequence env in
  fail_if (ends_at_ledger <=? now) VaultError.InvalidRate ;;;
  put FeeHoliday ends_at_ledger ;;;
  Ev.fee_holiday_started ends_at_ledger now.

Definition end_fee_holiday (admin : Address) : M VaultError.t unit :=
  require_admin_as env admin ;;;
  let& stored := get_fee_holiday_end in
  let! ends_at := ok_or stored VaultError.NoCampaignActive in
  del FeeHoliday ;;;
  Ev.fee_holiday_ended ends_at (sequence env).

Definition get_fee_holiday s : option Z :=
  match get_fee_holiday_end s with
  | Some ends_at => if sequence env <? ends_at then Some ends_at else None
  | None => None
  end.

(** ** Insurance reserve *)

Definition get_insurance_share_bps s : Z := default 0 (rd InsShareBps s).
Definition get_reserve s : Z := default 0 (rd FeeReserve s).
Definition set_reserve {E} (amount : Z) : M E unit := put FeeReserve amount.

Definition take_insurance_share (fee : Z) : M VaultError.t Z :=
  let& share_bps := get_insurance_share_bps in
  if (share_bps =? 0) || (fee <=? 0) then ret 0
  else
    let! share := ok_or (v ← checked_mul fee share_bps; checked_div v BPS) VaultError.ArithmeticError in
    (if 0 <? share then
       let& reserve := get_reserve in
       let! reserve := ok_or (checked_add reserve share) VaultError.ArithmeticError in
       put FeeReserve reserve
     else ret tt) ;;;
    ret share.

Definition set_insurance_fee_share_bps (admin : Address) (bps : Z) : M VaultError.t unit :=
  require_admin_as env admin ;;;
  fail_if (BPS <? bps) VaultError.InvalidRate ;;;
  put InsShareBps bps.

(** Half of the reserve, rounded up. *)
Definition per_call_cap (reserve : Z) : option Z :=
  v ← checked_mul reserve INSURANCE_USE_CAP_BPS;
  v ← checked_add v (BPS - 1);
  checked_div v BPS.

Definition use_insurance_reserve (admin : Address) (amount : Z) (reason_hash : list Byte.byte)
    : M VaultError.t unit :=
  require_admin_as env admin ;;;
  fail_if (amount <=? 0) VaultError.ZeroAmount ;;;
  let& reserve := get_reserve in
  let! cap := ok_or (per_call_cap reserve) VaultError.ArithmeticError in
  fail_if (cap <? amount) VaultError.WithdrawalLimitExceeded ;;;
  let! rest := plain (checked_sub reserve amount) in
  put FeeReserve rest ;;;
  let& pool := get_reward_pool_balance in
  let! pool := ok_or (checked_add pool amount) VaultError.ArithmeticError in
  set_reward_pool_balance pool ;;;
  Ev.insurance_reserve_used admin amount reason_hash (sequence env).

(** ** The reduction schedule ([balance.rs], issue #701) *)

Definition next_halving_at {E} : M E (option Z) :=
  let& stored := get_halving_config in
  match stored with
  | None => ret None
  | Some config =>
      if hv_interval_ledgers config =? 0 then ret None
      else
        let current := sequence env in
        let count := if hv_started_at config <? current
                     then (current - hv_started_at config) / hv_interval_ledgers config else 0 in
        let! v := plain (to_u32 ((count + 1) * hv_interval_ledgers config)) in
        let! next_boundary := plain (to_u32 (hv_started_at config + v)) in
        ret (Some next_boundary)
  end.

Definition get_next_reduction {E} : M E (option (Z * Z)) :=
  let! at_ledger := next_halving_at in
  match at_ledger with
  | None => ret None
  | Some at_ledger =>
      let& base_rate_bps := get_reward_rate_bps in
      let& config := get_halving_config in
      let& reduction_bps := get_halving_reduction_bps in
      let new_rate := halving_adjusted_rate config reduction_bps base_rate_bps at_ledger in
      ret (Some (at_ledger, default u32_max (to_u32 new_rate)))
  end.

Definition clear_halving_config {E} : M E unit := del HalvingCfg ;;; del HalvingReduction.

Definition disable_halving_schedule (admin : Address) : M VaultError.t unit :=
  require_admin_as env admin ;;;
  let& config := get_halving_config in
  fail_if (match config with None => true | Some _ => false end) VaultError.NoCampaignActive ;;;
  clear_halving_config.

End FeeReserve.

(** ** Theorems *)

Section Reserve.
Context {W : World}.
Implicit Types s : State.

(** The configured share is at most the whole, as its setter enforces. *)
Definition share_ok s : Prop := 0 <= get_insurance_share_bps s <= BPS.

Lemma take_share_Ok fee s x s' :
  share_ok s -> take_insurance_share fee s = Ok x s' ->
  get_reserve s' = get_reserve s + x /\ 0 <= x <= Z.max 0 fee /\
  (forall k, k <> KMkt FeeReserve -> rd k s' = rd k s) /\ st_ext s' = st_ext s.
Proof.
  intros [Hb0 Hb1]. unfold take_insurance_share, reading. intros H.
  destruct ((get_insurance_share_bps s =? 0) || (fee <=? 0)) eqn:Hz.
  { apply ret_Ok in H as [-> ->]. split; [lia|]. split; [lia|done]. }
  apply orb_false_iff in Hz as [_ Hf%Z.leb_gt].
  apply bind_Ok in H as (sh & ? & H1 & H). apply ok_or_Ok in H1 as [Hsh ->].
  destruct (checked_mul _ _) as [v|] eqn:Hv; [|done]. apply checked_mul_Some in Hv as [-> _]. simpl in Hsh.
  apply checked_div_Some in Hsh as (_ & Hsh & _).
  apply bind_Ok in H as (? & s1 & H1 & H). apply ret_Ok in H as [-> ->].
  assert (0 < BPS) by reflexivity.
  assert (0 <= sh <= fee) as Hb.
  { rewrite Hsh, Z.quot_div_nonneg by nia. split; [apply Z.div_pos; nia|apply Z.div_le_upper_bound; nia]. }
  destruct (Z.ltb_spec 0 sh); [|apply ret_Ok in H1 as [_ ->]; split; [lia|]; split; [lia|done]].
  apply bind_Ok in H1 as (r & ? & H2 & H1). apply ok_or_Ok in H2 as [[-> _]%checked_add_Some ->].
  apply put_Ok in H1 as [_ ->]. split; [unfold get_reserve; by rdsimp|]. split; [lia|].
  split; [intros k Hk; by rdsimp|done].
Qed.

Lemma use_reserve_Ok env a amt hash s x s' :
  use_insurance_reserve env a amt hash s = Ok x s' ->
  0 < amt /\ (exists cap, per_call_cap (get_reserve s) = Some cap /\ amt <= cap) /\
  get_reserve s' = get_reserve s - amt /\ get_reward_pool_balance s' = get_reward_pool_balance s + amt /\
  (forall k, k <> KMkt FeeReserve -> k <> KInst RewardPoolBalance -> rd k s' = rd k s) /\ st_ext s' = st_ext s.
Proof.
  unfold use_insurance_reserve. intros H.
  apply bind_Ok in H as (? & ? & H1 & H). apply require_admin_as_Ok in H1 as (_ & _ & _ & _ & ->).
  apply bind_Ok in H as (? & ? & H1 & H). apply fail_if_Ok in H1 as (Ha%Z.leb_gt & _ & ->). unfold reading at 1 in H.
  apply bind_Ok in H as (cap & ? & H1 & H). apply ok_or_Ok in H1 as [Hcap ->].
  apply bind_Ok in H as (? & ? & H1 & H). apply fail_if_Ok in H1 as (Hle%Z.ltb_ge & _ & ->).
  apply bind_Ok in H as (rest & ? & H1 & H). apply plain_Ok in H1 as [[-> _]%checked_sub_Some ->].
  apply bind_Ok in H as (? & ? & H1 & H). apply put_Ok in H1 as [_ ->]. unfold reading at 1 in H.
  apply bind_Ok in H as (p & ? & H1 & H). apply ok_or_Ok in H1 as [[-> _]%checked_add_Some ->].
  apply bind_Ok in H as (? & ? & H1 & H). apply assert_put_Ok in H1 as (_ & ->). apply publish_Ok in H as [_ ->].
  split; [done|]. split; [by exists cap|]. unfold get_reserve, get_reward_pool_balance. rdsimp.
  split; [done|]. split; [done|]. split; [|done]. intros k K1 K2. by rdsimp.
Qed.

Lemma per_call_cap_half r cap : 0 <= r -> per_call_cap r = Some cap -> cap = (r + 1) / 2.
Proof.
  intros Hr. unfold per_call_cap. destruct (checked_mul _ _) as [v|] eqn:Hv; [|done]. apply checked_mul_Some in Hv as [-> _].
  simpl. destruct (checked_add _ _) as [v|] eqn:Hv; [|done]. apply checked_add_Some in Hv as [-> _]. simpl.
  intros (_ & -> & _)%checked_div_Some. change INSURANCE_USE_CAP_BPS with 5000. change BPS with 10000.
  rewrite Z.quot_div_nonneg by lia.
  pose proof (Z.div_mod (r + 1) 2 ltac:(lia)). pose proof (Z.mod_pos_bound (r + 1) 2 ltac:(lia)).
  symmetry. apply (Z.div_unique_pos _ _ _ (5000 * ((r + 1) mod 2) + 4999)); lia.
Qed.

(** Fees passed to the reserve and releases to the reward pool. *)
Inductive reserve_run : State -> Z -> Z -> State -> Prop :=
| rr_nil s : reserve_run s 0 0 s
| rr_take fee s x s' i o s'' :
    take_insurance_share fee s = Ok x s' -> reserve_run s' i o s'' -> reserve_run s (Z.max 0 fee + i) o s''
| rr_use env a amt hash s x s' i o s'' :
    use_insurance_reserve env a amt hash s = Ok x s' -> reserve_run s' i o s'' -> reserve_run s i (amt + o) s''
| rr_share env a bps s x s' i o s'' :
    0 <= bps -> set_insurance_fee_share_bps env a bps s = Ok x s' -> reserve_run s' i o s'' -> reserve_run s i o s''.

(** The insurance reserve pays out of fees alone.  Over any sequence of fee
    shares, changes of the share and releases, the reserve never goes below
    zero, what the releases moved to the reward pool is exactly what the pool
    gained, and it is at most what the reserve held at first plus the fees;
    each single release is at most half of the reserve of the moment, rounded
    up. *)
Theorem insurance_reserve_bounded s i o s' :
  share_ok s -> 0 <= get_reserve s -> reserve_run s i o s' ->
  0 <= get_reserve s' /\ get_reward_pool_balance s' = get_reward_pool_balance s + o /\
  o + get_reserve s' <= get_reserve s + i /\
  (forall env a amt hash x s'', use_insurance_reserve env a amt hash s' = Ok x s'' ->
     amt <= (get_reserve s' + 1) / 2).
Proof.
  intros Hok Hr Hrun.
  enough (0 <= get_reserve s' /\ get_reward_pool_balance s' = get_reward_pool_balance s + o /\
    o + get_reserve s' <= get_reserve s + i) as (H1 & H2 & H3).
  { split_and!; try done. intros env a amt hash x s'' (_ & (cap & Hcap & Hle) & _)%use_reserve_Ok.
    apply per_call_cap_half in Hcap as ->; [done|done]. }
  induction Hrun as [s|fee s x s' i o s'' H _ IH|env a amt hash s x s' i o s'' H _ IH|env a bps s x s' i o s'' Hb H _ IH].
  - split_and!; lia.
  - apply take_share_Ok in H as (Hs & Hx & Hk & _); [|done].
    assert (share_ok s') as Hok' by (unfold share_ok, get_insurance_share_bps in *; by rewrite Hk).
    destruct (IH Hok' ltac:(lia)) as (? & Hp & ?). split; [done|]. split; [|lia].
    rewrite Hp. unfold get_reward_pool_balance. by rewrite Hk.
  - apply use_reserve_Ok in H as (Ha & (cap & Hcap & Hle) & Hs & Hp & Hk & _).
    apply per_call_cap_half in Hcap as ->; [|done].
    pose proof (Z.div_mod (get_reserve s + 1) 2 ltac:(lia)). pose proof (Z.mod_pos_bound (get_reserve s + 1) 2 ltac:(lia)).
    assert (share_ok s') as Hok' by (unfold share_ok, get_insurance_share_bps in *; by rewrite Hk).
    destruct (IH Hok' ltac:(lia)) as (? & Hp' & ?). split; [done|]. split; lia.
  - unfold set_insurance_fee_share_bps in H.
    apply bind_Ok in H as (? & ? & H1 & H). apply require_admin_as_Ok in H1 as (_ & _ & _ & _ & ->).
    apply bind_Ok in H as (? & ? & H1 & H). apply fail_if_Ok in H1 as (Hle%Z.ltb_ge & _ & ->). apply put_Ok in H as [_ ->].
    assert (share_ok (upd InsShareBps (Some bps) s)) as Hok' by (unfold share_ok, get_insurance_share_bps; by rdsimp).
    unfold get_reserve, get_reward_pool_balance in *. revert IH. rdsimp. auto.
Qed.

End Reserve.

(** ** Witness *)

Definition reserve_vault : State (W := token_world) :=
  upd InsShareBps (Some 2500) (upd Admin (Some 4%positive) (start_state (fun _ _ => 0))).
Definition reserve_fed := invoke (take_insurance_share 400) reserve_vault.
Definition reserve_used := invoke (use_insurance_reserve (at_ledger 10) 4%positive 50 []) reserve_fed.

Lemma insurance_reserve_bounded_witness :
  reserve_run reserve_vault 400 50 reserve_used /\ 0 <= get_reserve reserve_used.
Proof.
  assert (H : reserve_run reserve_vault 400 50 reserve_used).
  { assert (succeeds (take_insurance_share 400 reserve_vault) (fun _ _ => true) = true)
      as (x & s1 & H1 & _)%succeeds_run by (vm_compute; reflexivity).
    assert (succeeds (use_insurance_reserve (at_ledger 10) 4%positive 50 [] reserve_fed) (fun _ _ => true) = true)
      as (y & s2 & H2 & _)%succeeds_run by (vm_compute; reflexivity).
    assert (reserve_fed = s1) as E1 by (unfold reserve_fed, invoke; by rewrite H1).
    assert (reserve_used = s2) as E2 by (unfold reserve_used, invoke; by rewrite H2).
    rewrite E2. rewrite E1 in H2.
    apply (rr_take 400 reserve_vault x s1 0 50 s2 H1). apply (rr_use (at_ledger 10) 4%positive 50 [] s1 y s2 0 0 s2 H2).
    constructor. }
  split; [exact H|]. apply (insurance_reserve_bounded reserve_vault 400 50 reserve_used).
  - split; vm_compute; discriminate.
  - vm_compute. discriminate.
  - exact H.
Defined.
