(* ===== verification/Positions.v ===== *)
(** * Operations on positions

    Splitting a position ([position_split] of [vault.rs], issue #209; by
    position id, [position_split_merge.rs]), merging positions, moving a whole
    position to another address ([position_transfer.rs], [vault.rs]) and
    inheritance ([beneficiary_inheritance.rs]), with the cap on the number of
    positions ([vault_extensions_546_549.rs]).

    A user's positions are the primary one, the user's share balance, with id
    0, and the entries of the split list, with ids from 1.

    [transfer_position] is declared twice: in [position_transfer.rs] (the
    definition of that name here) and in [vault.rs] (here
    [transfer_position_settling]).  [set_max_positions_per_user] is declared in
    [vault_extensions_546_549.rs] (the definition of that name here) and in
    [vault.rs] ([set_max_positions_per_user_vault]), which write different
    keys.  [fuel] is the host's budget for the accrual walk (see [Accrual.v]). *)

From S2P Require Import Prelude Errors Storage Host Accessors Admin Shares RewardMath Accrual Rewards.
From S2P Require Import Checkpoints Balance Pause Notify Claims Leaderboard.

Definition MAX_POSITIONS_CEILING : Z := 10.

Section Positions.
Context {W : World} {B : Bootstrap W} (env : Env) (fuel : nat).
Implicit Types s : State.

(** ** The cap *)

Definition get_max_positions_inner s : Z := default 0 (rd MaxPositions s).

Definition position_count_inner (user : Address) s : Z :=
  let primary := if 0 <? get_shares user s then 1 else 0 in
  u32_sat_add primary (Z.of_nat (length (get_split_positions user s))).

Definition ensure_position_slot (user : Address) : M VaultError.t unit :=
  let& cap := get_max_positions_inner in
  if cap =? 0 then ret tt
  else
    let& count := position_count_inner user in
    fail_if (cap <=? count) VaultError.MaxPositionsReached.

Definition set_max_positions_per_user (admin_addr : Address) (count : Z) : M VaultError.t unit :=
  require_auth env admin_addr ;;;
  let! stored := get_admin in
  fail_if (negb (bool_decide (admin_addr = stored))) VaultError.Unauthorized ;;;
  fail_if (MAX_POSITIONS_CEILING <? count) VaultError.MaxPositionsTooHigh ;;;
  put MaxPositions count ;;;
  publish [VSym "mx_pos"] [VInt count; VInt (sequence env)].

Definition set_max_positions_per_user_vault (admin : Address) (max : Z) : M VaultError.t unit :=
  require_admin_as env admin ;;;
  fail_if (10 <? max) VaultError.MaxPositionsTooHigh ;;;
  put MaxPositionsVault max.

(** ** Splitting and merging *)

(** [Vec::set]: the host traps on an index out of bounds. *)
Definition vec_set {E} (l : list StakePosition) (i : nat) (x : StakePosition)
    : M E (list StakePosition) :=
  match l !! i with
  | Some _ => ret (<[i := x]> l)
  | None => panic TUnwrap
  end.

Definition position_split_event {E} (user : Address) (original_amount split_amount : Z) : M E unit :=
  publish [VSym "pos_split"; VAddr user] [VInt original_amount; VInt split_amount; VInt (sequence env)].
Definition positions_merged {E} (user : Address) (count_merged total_amount : Z) : M E unit :=
  publish [VSym "merge"; VAddr user] [VInt count_merged; VInt total_amount; VInt (sequence env)].

(** [position_split] of [vault.rs] (issue #209). *)
Definition position_split (user : Address) (split_amount : Z) : M VaultExtError.t unit :=
  require_auth env user ;;;
  let& current_shares := get_shares user in
  fail_if ((split_amount <=? 0) || (current_shares <=? split_amount)) VaultExtError.InvalidSplitAmount ;;;
  let& cap := get_max_positions_inner in
  let& count := position_count_inner user in
  fail_if ((0 <? cap) && (cap <=? count)) VaultExtError.TooManyPositions ;;;
  let! _claimed := try_ (do_claim env user) in
  let& stored := rd (StakedAtLedger user) in
  let staked_at_ledger := default 0 stored in
  let current_ledger := sequence env in
  let! remaining := try_ (ok_or (checked_sub current_shares split_amount) VaultError.ArithmeticError) in
  set_shares env user remaining ;;;
  set_last_claim_ledger user current_ledger ;;;
  let& split_positions := get_split_positions user in
  set_split_positions user
    (split_positions ++ [mkStakePosition split_amount staked_at_ledger current_ledger]) ;;;
  position_split_event user current_shares split_amount.

(** [(amount, staked_at_ledger)] of position [id]. *)
Definition position_info (user : Address) (id : Z) : M VaultSafetyError.t (Z * Z) :=
  if id =? 0 then
    let& shares := get_shares user in
    fail_if (shares <=? 0) VaultSafetyError.PositionNotFound ;;;
    let& staked_at := rd (StakedAtLedger user) in
    ret (shares, default 0 staked_at)
  else
    let& splits := get_split_positions user in
    let! position := ok_or (splits !! Z.to_nat (id - 1)) VaultSafetyError.PositionNotFound in
    ret (sp_amount position, sp_staked_at_ledger position).

(** Writes the amount of position [id]; the split list is kept in memory. *)
Definition write_position {E} (user : Address) (id amount staked_at : Z) (splits : list StakePosition)
    : M E (list StakePosition) :=
  let current_ledger := sequence env in
  if id =? 0 then
    set_shares env user amount ;;;
    set_last_claim_ledger user current_ledger ;;;
    ret splits
  else vec_set splits (Z.to_nat (id - 1)) (mkStakePosition amount staked_at current_ledger).

(** Settles the primary position and resets the inactivity clock. *)
Definition settle_position (user : Address) : M VaultSafetyError.t unit :=
  let& shares := get_shares user in
  try_ (accrue_rewards env fuel user shares) ;;;
  touch env user.

Definition split_position (user : Address) (position_id shares : Z) : M VaultSafetyError.t Z :=
  require_auth env user ;;;
  let! info := position_info user position_id in
  let (source_amount, staked_at_ledger) := info : Z * Z in
  fail_if ((shares <=? 0) || (source_amount <=? shares)) VaultSafetyError.InvalidSplitAmount ;;;
  try_ (ensure_position_slot user) ;;;
  settle_position user ;;;
  let! remaining := plain (checked_sub source_amount shares) in
  let& splits := get_split_positions user in
  let! splits := write_position user position_id remaining staked_at_ledger splits in
  let splits := splits ++ [mkStakePosition shares staked_at_ledger (sequence env)] in
  let new_id := Z.of_nat (length splits) in
  set_split_positions user splits ;;;
  position_split_event user source_amount shares ;;;
  ret new_id.

Definition merge_positions (user : Address) (id_a id_b : Z) : M VaultSafetyError.t Z :=
  require_auth env user ;;;
  fail_if (id_a =? id_b) VaultSafetyError.IncompatiblePositions ;;;
  let! info_a := position_info user id_a in
  let! info_b := position_info user id_b in
  let (amount_a, staked_a) := info_a : Z * Z in
  let (amount_b, staked_b) := info_b : Z * Z in
  fail_if (negb (staked_a =? staked_b)) VaultSafetyError.IncompatiblePositions ;;;
  let! combined := ok_or (checked_add amount_a amount_b) VaultSafetyError.ArithmeticError in
  settle_position user ;;;
  let kept := if id_a <? id_b then id_a else id_b in
  let removed := if id_a <? id_b then id_b else id_a in
  let& splits := get_split_positions user in
  let! splits := write_position user kept combined staked_a splits in
  set_split_positions user (delete (Z.to_nat (removed - 1)) splits) ;;;
  let& total_shares := get_total_shares in
  let& total_deposited := get_total_deposited in
  let! total_amount := ok_or (shares_to_amount total_shares total_deposited combined)
                         VaultSafetyError.ArithmeticError in
  positions_merged user 2 total_amount ;;;
  ret kept.

(** ** Moving a position *)

(** [transfer_position] of [position_transfer.rs]. *)
Definition transfer_position (from to : Address) : M VaultError.t Z :=
  require_auth env from ;;;
  let& from_shares := get_shares from in
  fail_if (from_shares <=? 0) VaultError.PositionNotFound ;;;
  let& to_shares := get_shares to in
  fail_if (0 <? to_shares) VaultError.RecipientAlreadyStaking ;;;
  let& stored := rd (StakedAtLedger from) in
  let staked_at_ledger := default (sequence env) stored in
  let& last_claim_ledger := get_last_claim_ledger from in
  let& accrued := get_accrued_reward from in
  set_shares env from 0 ;;;
  set_shares env to from_shares ;;;
  put (StakedAtLedger to) staked_at_ledger ;;;
  del (StakedAtLedger from) ;;;
  set_last_claim_ledger to last_claim_ledger ;;;
  set_last_claim_ledger from 0 ;;;
  set_accrued_reward to accrued ;;;
  set_accrued_reward from 0 ;;;
  publish [VSym "pos_xfer"; VAddr from] [VAddr to; VInt from_shares; VInt (sequence env)] ;;;
  ret from_shares.

(** [transfer_position] of [vault.rs] (issue #43). *)
Definition transfer_position_settling (from to : Address) : M VaultError.t unit :=
  require_auth env from ;;;
  require_not_paused env ;;;
  let& from_shares := get_shares from in
  fail_if (from_shares =? 0) VaultError.PositionNotFound ;;;
  let& to_shares := get_shares to in
  fail_if (0 <? to_shares) VaultError.RecipientAlreadyStaking ;;;
  let& total_shares := get_total_shares in
  let& total_deposited := get_total_deposited in
  let! position_amount := ok_or (shares_to_amount total_shares total_deposited from_shares)
                            VaultError.ArithmeticError in
  accrue_rewards env fuel from from_shares ;;;
  let current_ledger := sequence env in
  set_shares env to from_shares ;;;
  set_shares env from 0 ;;;
  let& stored := rd (StakedAtLedger from) in
  put (StakedAtLedger to) (default current_ledger stored) ;;;
  del (StakedAtLedger from) ;;;
  set_reward_checkpoint_ledger to current_ledger ;;;
  set_last_claim_ledger to current_ledger ;;;
  set_accrued_reward to 0 ;;;
  set_reward_checkpoint_ledger from current_ledger ;;;
  record_stake_snapshot env from 0 ;;;
  record_stake_snapshot env to from_shares ;;;
  update_leaderboard from 0 ;;;
  update_leaderboard to from_shares ;;;
  publish [VSym "pos_xfer"; VAddr from] [VAddr to; VInt position_amount; VInt (sequence env)].

Definition move_position_with_rewards (from to : Address) : M VaultError.t unit :=
  require_not_paused env ;;;
  let& from_shares := get_shares from in
  fail_if (from_shares =? 0) VaultError.PositionNotFound ;;;
  let& to_shares := get_shares to in
  fail_if (0 <? to_shares) VaultError.RecipientAlreadyStaking ;;;
  let now := sequence env in
  let& stored := rd (StakedAtLedger from) in
  let staked_at := default now stored in
  let& last_claim := get_last_claim_ledger from in
  let& cp := get_reward_checkpoint_ledger from in
  let checkpoint := default now cp in
  let& accrued := get_accrued_reward from in
  let! pending := catch (pending_reward env fuel from) in
  let pending_estimate := match pending with inl p => p | inr _ => accrued end in
  set_shares env to from_shares ;;;
  set_shares env from 0 ;;;
  set_accrued_reward to accrued ;;;
  set_accrued_reward from 0 ;;;
  set_reward_checkpoint_ledger to checkpoint ;;;
  set_reward_checkpoint_ledger from now ;;;
  set_last_claim_ledger to last_claim ;;;
  set_last_claim_ledger from now ;;;
  put (StakedAtLedger to) staked_at ;;;
  del (StakedAtLedger from) ;;;
  record_stake_snapshot env from 0 ;;;
  record_stake_snapshot env to from_shares ;;;
  update_leaderboard from 0 ;;;
  update_leaderboard to from_shares ;;;
  let& total_shares := get_total_shares in
  let& total_deposited := get_total_deposited in
  let position_amount := default 0 (shares_to_amount total_shares total_deposited from_shares) in
  publish [VSym "pos_xf_rw"; VAddr from]
    [VAddr to; VInt position_amount; VInt pending_estimate; VInt now].

Definition transfer_position_with_rewards (from to : Address) : M VaultError.t unit :=
  require_auth env from ;;;
  move_position_with_rewards from to.

(** ** Inheritance *)

(** The split positions go along with the primary one. *)
Definition move_splits {E} (from to : Address) : M E unit :=
  let& splits := get_split_positions from in
  match splits with
  | [] => ret tt
  | _ :: _ =>
      let& moved := get_split_positions to in
      set_split_positions to (moved ++ splits) ;;;
      set_split_positions from []
  end.

Definition claim_inheritance (beneficiary user : Address) : M VaultSafetyError.t unit :=
  require_auth env beneficiary ;;;
  let& stored := get_record user in
  let! record := ok_or stored VaultSafetyError.NoBeneficiary in
  fail_if (negb (bool_decide (bf_beneficiary record = beneficiary))) VaultSafetyError.Unauthorized ;;;
  let! claimable_at := ok_or (to_u32 (bf_last_interaction record + bf_inactivity_ledgers record))
                         VaultSafetyError.ArithmeticError in
  fail_if (negb (claimable_at <=? sequence env)) VaultSafetyError.InactivityPeriodNotElapsed ;;;
  try_ (move_position_with_rewards user beneficiary) ;;;
  remove_from_staker_list user ;;;
  register_staker beneficiary ;;;
  move_splits user beneficiary ;;;
  del (BeneficiaryOf user) ;;;
  publish [VSym "ben_claim"; VAddr user] [VAddr beneficiary; VInt (sequence env)].

End Positions.
