(* ===== verification/Commitment.v ===== *)
(** * Commit and reveal ([commitment.rs])

    A user commits to the hash of an amount and a salt and reveals it within
    the window; the reveal stakes the amount.  The preimage encodes the amount
    in sixteen big-endian bytes before the salt, so that no other pair has the
    same preimage.  SHA-256 is the host's: a parameter of the section. *)

From Stdlib Require Import Strings.Byte.
From S2P Require Import Prelude Errors Storage Host Concrete Accessors Admin Pause Limits Vault.

Definition DEFAULT_COMMITMENT_WINDOW : Z := LEDGERS_PER_DAY.
Definition COMMITMENT_HASH_LEN : nat := 32.
Definition MAX_COMMITMENT_SALT_LEN : nat := 64.

#[export] Instance byte_eq_dec : EqDecision byte := Byte.byte_eq_dec.

(** [u8] from the low eight bits of an integer. *)
Definition byte_of (z : Z) : byte :=
  match Byte.of_N (Z.to_N (z mod 256)) with Some b => b | None => x00 end.

(** [n] big-endian bytes of the low [8 * n] bits. *)
Fixpoint be_bytes (n : nat) (z : Z) : list byte :=
  match n with
  | O => []
  | S n => be_bytes n (z / 256) ++ [byte_of z]
  end.

(** [i128::to_be_bytes]: two's complement, sixteen bytes. *)
Definition to_be_bytes (amount : Z) : list byte := be_bytes 16 (amount mod 2 ^ 128).

Definition preimage (amount : Z) (salt : list byte) : list byte := to_be_bytes amount ++ salt.

Section Commitment.
Context {W : World} (env : Env) (sha256 : list byte -> list byte).
Implicit Types s : State.

Definition get_window s : Z := default DEFAULT_COMMITMENT_WINDOW (rd CmtWindow s).
Definition commitment_for (user : Address) s : option CommitmentRecord := rd (CmtRecord user) s.
Definition is_expired (record : CommitmentRecord) s : bool :=
  u32_sat_add (cr_committed_at record) (get_window s) <? sequence env.
Definition compute_hash (amount : Z) (salt : list byte) : list byte := sha256 (preimage amount salt).

Definition set_commitment_window (ledgers : Z) : M VaultError.t unit :=
  require_admin env ;;;
  fail_if (ledgers =? 0) VaultError.InvalidRate ;;;
  put CmtWindow ledgers ;;;
  let! admin := get_admin in
  publish [VSym "cmt_wset"; VAddr admin] [VInt ledgers; VInt (sequence env)].

Definition commit_to_stake (user : Address) (commitment_hash : list byte) : M VaultError.t unit :=
  require_auth env user ;;;
  fail_if (negb (length commitment_hash =? COMMITMENT_HASH_LEN)%nat) VaultError.InvalidHashLength ;;;
  let& existing := commitment_for user in
  (match existing with
   | Some existing =>
       let& expired := is_expired existing in
       fail_if (negb (cr_revealed existing) && negb expired) VaultError.MaxPositionsReached
   | None => ret tt
   end) ;;;
  put (CmtRecord user) (mkCommitmentRecord commitment_hash (sequence env) false) ;;;
  publish [VSym "cmt_made"; VAddr user] [VInt (sequence env)].

Definition reveal_and_stake (user : Address) (amount : Z) (salt : list byte) : M VaultError.t unit :=
  require_auth env user ;;;
  fail_if (MAX_COMMITMENT_SALT_LEN <? length salt)%nat VaultError.MessageTooLong ;;;
  let& stored := commitment_for user in
  let! record := ok_or stored VaultError.NotInitialized in
  fail_if (cr_revealed record) VaultError.NothingToWithdraw ;;;
  let& expired := is_expired record in
  fail_if expired VaultError.EpochNotFinalized ;;;
  fail_if (negb (bool_decide (compute_hash amount salt = cr_hash record))) VaultError.InvalidAddress ;;;
  del (CmtRecord user) ;;;
  publish [VSym "cmt_rvl"; VAddr user] [VInt (sequence env)] ;;;
  let! shares := stake env user amount in
  ret tt.

End Commitment.

(** ** The encoding *)

Definition byte_val (b : byte) : Z := Z.of_N (Byte.to_N b).

(** The number [n] big-endian bytes stand for. *)
Definition of_be_bytes (l : list byte) : Z := fold_left (fun acc b => acc * 256 + byte_val b) l 0.

Lemma byte_val_of z : byte_val (byte_of z) = z mod 256.
Proof.
  unfold byte_val, byte_of. pose proof (Z.mod_pos_bound z 256 ltac:(lia)).
  destruct (Byte.of_N (Z.to_N (z mod 256))) as [b|] eqn:Hb.
  - apply Byte.to_of_N in Hb. rewrite Hb. lia.
  - apply Byte.of_N_None_iff in Hb. lia.
Qed.

Lemma of_be_bytes_snoc l b : of_be_bytes (l ++ [b]) = of_be_bytes l * 256 + byte_val b.
Proof. unfold of_be_bytes. by rewrite fold_left_app. Qed.

Lemma be_bytes_length n z : length (be_bytes n z) = n.
Proof. revert z. induction n as [|n IH]; intros z; simpl; [done|]. rewrite length_app, IH. simpl. lia. Qed.

Lemma be_bytes_val n z : of_be_bytes (be_bytes n z) = z mod 256 ^ Z.of_nat n.
Proof.
  revert z. induction n as [|n IH]; intros z.
  { by rewrite Z.mod_1_r. }
  cbn [be_bytes]. rewrite of_be_bytes_snoc, IH, byte_val_of.
  replace (Z.of_nat (S n)) with (1 + Z.of_nat n) by lia. rewrite Z.pow_add_r, Z.pow_1_r by lia.
  rewrite Z.rem_mul_r by lia. lia.
Qed.

(** The sixteen bytes determine the amount. *)
Lemma to_be_bytes_inj a b : in_i128 a -> in_i128 b -> to_be_bytes a = to_be_bytes b -> a = b.
Proof.
  unfold to_be_bytes. intros Ha Hb H. apply (f_equal of_be_bytes) in H.
  rewrite !be_bytes_val in H. change (256 ^ Z.of_nat 16) with (2 ^ 128) in H.
  rewrite !Z.mod_mod in H by lia. unfold in_i128, i128_min, i128_max in *.
  pose proof (Z.div_mod a (2 ^ 128) ltac:(lia)) as Da. pose proof (Z.div_mod b (2 ^ 128) ltac:(lia)) as Db.
  change (2 ^ 127) with 170141183460469231731687303715884105728 in *.
  change (2 ^ 128) with 340282366920938463463374607431768211456 in *. lia.
Qed.

(** ** Theorems *)

(** The commitment preimage is unambiguous: two amounts and salts with the
    same preimage are the same, whatever the lengths of the salts, because
    the amount takes exactly sixteen bytes from which it can be read back. *)
Theorem preimage_injective a b s t :
  in_i128 a -> in_i128 b -> preimage a s = preimage b t -> a = b /\ s = t.
Proof.
  intros Ha Hb H. unfold preimage in H. apply app_inj_1 in H as [H ->].
  - split; [|done]. by apply to_be_bytes_inj.
  - unfold to_be_bytes. by rewrite !be_bytes_length.
Qed.

Lemma preimage_injective_witness :
  preimage (-3) [x01; x02] = preimage (-3) [x01; x02] /\ (-3 = -3 /\ [x01; x02] = [x01; x02]).
Proof.
  split; [reflexivity|]. apply preimage_injective; [split; vm_compute; discriminate..|reflexivity].
Defined.

Section Theorems.
Context {W : World} (env : Env) (sha256 : list byte -> list byte).
Implicit Types s : State.

(** A reveal stakes what was committed, in time and once.  If the record
    holds the hash of an amount and a salt, and the hash does not collide on
    the two preimages, a successful reveal names that very amount, comes
    before the window is over, and is the [stake] of the amount run after the
    record was removed; without a record a reveal is refused. *)
Theorem reveal_stakes_committed user amount salt amount' salt' r s s' :
  in_i128 amount -> in_i128 amount' ->
  commitment_for user s = Some r -> cr_hash r = sha256 (preimage amount salt) ->
  (sha256 (preimage amount' salt') = sha256 (preimage amount salt) ->
   preimage amount' salt' = preimage amount salt) ->
  reveal_and_stake env sha256 user amount' salt' s = Ok tt s' ->
  amount' = amount /\ signed env user = true /\ cr_revealed r = false /\
  sequence env <= u32_sat_add (cr_committed_at r) (get_window s) /\
  (exists s1 n, stake env user amount s1 = Ok n s' /\ commitment_for user s1 = None /\
     st_ext s1 = st_ext s /\ forall k, k <> KFeat (CmtRecord user) -> rd k s1 = rd k s) /\
  (forall s0 a t s2, commitment_for user s0 = None ->
     reveal_and_stake env sha256 user a t s0 <> Ok tt s2).
Proof.
  intros Ha Ha' Hr Hh Hcoll H. unfold reveal_and_stake in H.
  apply bind_Ok in H as (? & ? & H1 & H). apply require_auth_Ok in H1 as (Hs & _ & ->).
  apply bind_Ok in H as (? & ? & H1 & H). apply fail_if_Ok in H1 as (_ & _ & ->). unfold reading at 1 in H.
  rewrite Hr in H. apply bind_Ok in H as (r' & ? & H1 & H). apply ok_or_Ok in H1 as [[= <-] ->].
  apply bind_Ok in H as (? & ? & H1 & H). apply fail_if_Ok in H1 as (Hrev & _ & ->). unfold reading at 1 in H.
  apply bind_Ok in H as (? & ? & H1 & H). apply fail_if_Ok in H1 as (Hexp%Z.ltb_ge & _ & ->).
  apply bind_Ok in H as (? & ? & H1 & H).
  apply fail_if_Ok in H1 as (Heq%negb_false_iff%bool_decide_eq_true & _ & ->).
  apply bind_Ok in H as (? & ? & H1 & H). apply del_Ok in H1 as [_ ->].
  apply bind_Ok in H as (? & ? & H1 & H). apply publish_Ok in H1 as [_ ->].
  apply bind_Ok in H as (n & s2 & H1 & H). apply ret_Ok in H as [_ ->].
  unfold compute_hash in Heq. rewrite Hh in Heq. apply Hcoll in Heq.
  apply preimage_injective in Heq as [-> _]; [|done..].
  do 4 (split; [done|]). split.
  - eexists _, n. split; [exact H1|]. split; [unfold commitment_for; by rdsimp|]. split; [done|].
    intros k Hk. rewrite rd_emit. apply rd_upd_ne. congruence.
  - intros s0 a t s3 Hnone Hok. unfold reveal_and_stake in Hok.
    apply bind_Ok in Hok as (? & ? & H2 & Hok). apply require_auth_Ok in H2 as (_ & _ & ->).
    apply bind_Ok in Hok as (? & ? & H2 & Hok). apply fail_if_Ok in H2 as (_ & _ & ->).
    unfold reading at 1 in Hok. rewrite Hnone in Hok. apply bind_Ok in Hok as (? & ? & H2 & _).
    by apply ok_or_Ok in H2 as [[=] _].
Qed.

End Theorems.

Definition committed_vault : State (W := token_world) :=
  upd (CmtRecord 2) (Some (mkCommitmentRecord (preimage 100 [x07]) 5 false))
    (upd Token (Some 9%positive) (start_state (fun _ _ => 5000))).

Lemma reveal_stakes_committed_witness :
  exists s', reveal_and_stake (at_ledger 10) (fun l => l) 2 100 [x07] committed_vault = Ok tt s' /\
    exists s1 n, stake (at_ledger 10) 2 100 s1 = Ok n s'.
Proof.
  destruct (succeeds_run (reveal_and_stake (at_ledger 10) (fun l => l) 2 100 [x07] committed_vault)
    (fun _ _ => true)) as ([] & s' & H & _); [vm_compute; reflexivity|].
  exists s'. split; [exact H|].
  destruct (reveal_stakes_committed (at_ledger 10) (fun l => l) 2 100 [x07] 100 [x07]
    (mkCommitmentRecord (preimage 100 [x07]) 5 false) committed_vault s')
    as (_ & _ & _ & _ & (s1 & n & Hs & _) & _);
    [split; vm_compute; discriminate..|reflexivity|reflexivity|tauto|exact H|].
  exists s1, n. exact Hs.
Defined.
