(* ===== verification/Auction.v ===== *)
(** * Sealed-bid position auctions ([position_sealed_bid_auction.rs])

    A seller moves the whole position into a listing; bidders commit to a
    hash and lock the minimum bid, reveal within the reveal phase and top up to
    the revealed amount; after it the highest bid wins the shares and pays the
    seller; the others are refunded or forfeit to the slash treasury.

    The module names five [VaultError] variants that [errors.rs] does not
    declare and a constant, [MAX_AUCTION_BIDS], that [vault.rs] does not; they
    are fields of [AuctionNames] and nothing is assumed of them.  SHA-256 is
    the host's ([env.crypto()]): a parameter of the section. *)

From S2P Require Import Prelude Errors Storage Host Accessors Admin Shares RewardMath MultiReward.
From S2P Require Import Checkpoints Balance Limits Commitment.

Class AuctionNames := {
  MAX_AUCTION_BIDS : nat;
  SellerAuctionAlreadyActive : VaultError.t;
  AuctionNotFound : VaultError.t;
  AuctionAlreadySettled : VaultError.t;
  AuctionPhaseClosed : VaultError.t;
  BidNotFound : VaultError.t
}.

Definition SEALED_BID_HASH_LEN : nat := 32.
Definition MAX_SEALED_BID_SALT_LEN : nat := 64.

Section Auction.
Context {W : World} {N : AuctionNames} (env : Env) (sha256 : list Byte.byte -> list Byte.byte).
Implicit Types s : State.

Definition next_auction_id {E} : M E Z :=
  let& stored := rd AucNextId in
  let id := default 0 stored in
  let! next := plain (to_u32 (id + 1)) in
  put AucNextId next ;;;
  ret id.

Definition get_listing (auction_id : Z) s : option AuctionListing := rd (AucListing auction_id) s.
Definition set_listing {E} (auction_id : Z) (listing : AuctionListing) : M E unit :=
  put (AucListing auction_id) listing.
Definition get_seller_active (seller : Address) s : option Z := rd (AucSeller seller) s.
Definition get_bid (auction_id : Z) (bidder : Address) s : option AuctionBidRecord :=
  rd (AucBid auction_id bidder) s.
Definition set_bid {E} (auction_id : Z) (bidder : Address) (bid : AuctionBidRecord) : M E unit :=
  put (AucBid auction_id bidder) bid.
Definition get_bidders (auction_id : Z) s : list Address := default [] (rd (AucBidders auction_id) s).
Definition get_slash_treasury s : option Address := rd SlashTreasury s.

(** [compute_bid_hash] hashes the preimage of [commitment.rs]. *)
Definition compute_bid_hash (amount : Z) (salt : list Byte.byte) : list Byte.byte :=
  sha256 (preimage amount salt).

Definition is_open (l : option AuctionListing) : bool :=
  match l with Some l => negb (al_settled l) | None => false end.

Definition list_position_for_auction (user : Address) (min_bid commit_duration reveal_duration : Z)
    : M VaultError.t Z :=
  require_auth env user ;;;
  fail_if (min_bid <=? 0) VaultError.ZeroAmount ;;;
  fail_if ((commit_duration =? 0) || (reveal_duration =? 0)) VaultError.ZeroAmount ;;;
  let& active := get_seller_active user in
  (match active with
   | Some existing_id =>
       let& existing := get_listing existing_id in
       fail_if (is_open existing) SellerAuctionAlreadyActive
   | None => ret tt
   end) ;;;
  let& shares := get_shares user in
  fail_if (shares =? 0) VaultError.PositionNotFound ;;;
  set_shares env user 0 ;;;
  let now := sequence env in
  let commit_deadline := u32_sat_add now commit_duration in
  let reveal_deadline := u32_sat_add commit_deadline reveal_duration in
  let! auction_id := next_auction_id in
  set_listing auction_id
    (mkAuctionListing user min_bid commit_deadline reveal_deadline 0 None false shares) ;;;
  put (AucSeller user) auction_id ;;;
  publish [VSym "psa_list"; VAddr user]
    [VInt auction_id; VInt min_bid; VInt commit_deadline; VInt reveal_deadline] ;;;
  ret auction_id.

Definition with_hash (b : AuctionBidRecord) (h : list Byte.byte) : AuctionBidRecord :=
  mkAuctionBidRecord h (ab_locked_amount b) (ab_revealed b) (ab_amount b).

Definition commit_bid (bidder : Address) (auction_id : Z) (bid_hash : list Byte.byte)
    : M VaultError.t unit :=
  require_auth env bidder ;;;
  let& stored := get_listing auction_id in
  let! listing := ok_or stored AuctionNotFound in
  fail_if (al_settled listing) AuctionAlreadySettled ;;;
  fail_if (al_commit_deadline listing <? sequence env) AuctionPhaseClosed ;;;
  fail_if (negb (length bid_hash =? SEALED_BID_HASH_LEN)%nat) VaultError.InvalidHashLength ;;;
  let& existing := get_bid auction_id bidder in
  (match existing with
   | Some existing =>
       if negb (ab_revealed existing) then set_bid auction_id bidder (with_hash existing bid_hash)
       else throw AuctionPhaseClosed
   | None =>
       let! token := token_address in
       transfer token bidder (self env) (al_min_bid listing) ;;;
       let& bidders := get_bidders auction_id in
       fail_if (MAX_AUCTION_BIDS <=? length bidders)%nat VaultError.BatchTooLarge ;;;
       put (AucBidders auction_id) (bidders ++ [bidder]) ;;;
       set_bid auction_id bidder (mkAuctionBidRecord bid_hash (al_min_bid listing) false 0)
   end) ;;;
  publish [VSym "psa_cmt"; VAddr bidder] [VInt auction_id].

Definition with_winner (l : AuctionListing) (amount : Z) (bidder : Address) : AuctionListing :=
  mkAuctionListing (al_seller l) (al_min_bid l) (al_commit_deadline l) (al_reveal_deadline l)
    amount (Some bidder) (al_settled l) (al_escrowed_shares l).

Definition reveal_bid (bidder : Address) (auction_id amount : Z) (salt : list Byte.byte)
    : M VaultError.t unit :=
  require_auth env bidder ;;;
  fail_if (MAX_SEALED_BID_SALT_LEN <? length salt)%nat VaultError.MessageTooLong ;;;
  let& stored := get_listing auction_id in
  let! listing := ok_or stored AuctionNotFound in
  fail_if (al_settled listing) AuctionAlreadySettled ;;;
  let now := sequence env in
  fail_if ((now <=? al_commit_deadline listing) || (al_reveal_deadline listing <? now))
    AuctionPhaseClosed ;;;
  let& stored_bid := get_bid auction_id bidder in
  let! bid := ok_or stored_bid BidNotFound in
  if ab_revealed bid then ret tt
  else
    fail_if (negb (bool_decide (compute_bid_hash amount salt = ab_hash bid))) VaultError.InvalidAddress ;;;
    if amount <? al_min_bid listing then ret tt
    else
      (if ab_locked_amount bid <? amount then
         let! additional := plain (checked_sub amount (ab_locked_amount bid)) in
         let! token := token_address in
         transfer token bidder (self env) additional
       else ret tt) ;;;
      set_bid auction_id bidder (mkAuctionBidRecord (ab_hash bid) amount true amount) ;;;
      (if al_highest_bid listing <? amount then
         set_listing auction_id (with_winner listing amount bidder)
       else ret tt) ;;;
      publish [VSym "psa_rvl"; VAddr bidder] [VInt auction_id; VInt amount].

Definition settled_listing (l : AuctionListing) : AuctionListing :=
  mkAuctionListing (al_seller l) (al_min_bid l) (al_commit_deadline l) (al_reveal_deadline l)
    (al_highest_bid l) (al_winner l) true (al_escrowed_shares l).

(** Who the escrowed shares go to. *)
Definition heir (l : AuctionListing) : Address :=
  match al_winner l with Some w => w | None => al_seller l end.

Definition settle_auction (auction_id : Z) : M VaultError.t unit :=
  let& stored := get_listing auction_id in
  let! listing := ok_or stored AuctionNotFound in
  fail_if (al_settled listing) AuctionAlreadySettled ;;;
  fail_if (sequence env <=? al_reveal_deadline listing) AuctionPhaseClosed ;;;
  (match al_winner listing with
   | Some winner =>
       let& winner_shares := get_shares winner in
       let! new_shares := plain (checked_add winner_shares (al_escrowed_shares listing)) in
       set_shares env winner new_shares ;;;
       let! token := token_address in
       transfer token (self env) (al_seller listing) (al_highest_bid listing)
   | None =>
       let& seller_shares := get_shares (al_seller listing) in
       let! new_shares := plain (checked_add seller_shares (al_escrowed_shares listing)) in
       set_shares env (al_seller listing) new_shares
   end) ;;;
  del (AucSeller (al_seller listing)) ;;;
  set_listing auction_id (settled_listing listing) ;;;
  publish [VSym "psa_stl"; VAddr (al_seller listing)]
    [VInt auction_id; match al_winner listing with Some w => VAddr w | None => VVoid end;
     VInt (al_highest_bid listing); VInt (sequence env)].

(** One round of the loop of [refund_losing_bids]; the result says whether the
    bid was processed. *)
Definition refund_one (auction_id : Z) (winner : option Address) (token : Address)
    (treasury : option Address) (bidder : Address) : M VaultError.t bool :=
  if bool_decide (winner = Some bidder) then ret false
  else
    let& stored := get_bid auction_id bidder in
    match stored with
    | None => ret false
    | Some bid =>
        if ab_locked_amount bid <=? 0 then ret false
        else
          (if ab_revealed bid then
             transfer token (self env) bidder (ab_locked_amount bid) ;;;
             publish [VSym "psa_rfd"; VAddr bidder] [VInt auction_id; VInt (ab_locked_amount bid)]
           else
             match treasury with
             | Some treasury_addr =>
                 transfer token (self env) treasury_addr (ab_locked_amount bid) ;;;
                 publish [VSym "psa_frf"; VAddr bidder] [VInt auction_id; VInt (ab_locked_amount bid)]
             | None => ret tt
             end) ;;;
          set_bid auction_id bidder (mkAuctionBidRecord (ab_hash bid) 0 (ab_revealed bid) (ab_amount bid)) ;;;
          ret true
    end.

Fixpoint refund_loop (auction_id : Z) (winner : option Address) (token : Address)
    (treasury : option Address) (processed : Z) (bidders : list Address) : M VaultError.t Z :=
  match bidders with
  | [] => ret processed
  | bidder :: bidders =>
      let! done := refund_one auction_id winner token treasury bidder in
      let! processed := (if done then plain (to_u32 (processed + 1)) else ret processed) in
      refund_loop auction_id winner token treasury processed bidders
  end.

Definition refund_losing_bids (auction_id : Z) : M VaultError.t Z :=
  let& stored := get_listing auction_id in
  let! listing := ok_or stored AuctionNotFound in
  fail_if (negb (al_settled listing)) AuctionPhaseClosed ;;;
  let! token := token_address in
  let& treasury := get_slash_treasury in
  let& bidders := get_bidders auction_id in
  refund_loop auction_id (al_winner listing) token treasury 0 bidders.

Definition get_seller_active_auction (seller : Address) s : option Z :=
  match get_seller_active seller s with
  | Some id => if is_open (get_listing id s) then Some id else None
  | None => None
  end.

End Auction.
