(* ===== verification/AuctionProofs.v ===== *)
(** * Auctions pay for themselves

    [owes id] is what the vault holds for the bidders of auction [id]: every
    bid's locked amount, except the winner's once the auction is settled.  The
    vault's token balance minus everything owed ([surplus]) never falls over
    any sequence of auction operations, so an auction never pays with other
    users' money; the winner is the highest revealed bid. *)

From S2P Require Import Prelude Errors Storage Host Concrete Accessors Admin Shares RewardMath MultiReward.
From S2P Require Import Checkpoints Balance Limits Commitment Auction.

Section Ghost.
Context {W : World}.
Implicit Types s : State.

Definition next_auction s : Z := default 0 (rd AucNextId s).
Definition won (id : Z) (u : Address) s : bool :=
  match get_listing id s with
  | Some l => al_settled l && bool_decide (al_winner l = Some u)
  | None => false
  end.
Definition bid_lock (id : Z) (u : Address) s : Z :=
  match get_bid id u s with Some b => ab_locked_amount b | None => 0 end.
Definition owed_to (id : Z) (u : Address) s : Z := if won id u s then 0 else bid_lock id u s.
Definition owes (id : Z) s : Z := sum_of (fun u => owed_to id u s) (get_bidders id s).

(** The highest bid of a listing belongs to its winner and no revealed bid is
    higher; without a winner nobody has revealed. *)
Definition highest_ok (id : Z) (l : AuctionListing) s : Prop :=
  match al_winner l with
  | None => al_highest_bid l = 0 /\ forall u b, get_bid id u s = Some b -> ab_revealed b = false
  | Some w =>
      (exists b, get_bid id w s = Some b /\ ab_revealed b = true /\ ab_amount b = al_highest_bid l /\
                 ab_locked_amount b = al_highest_bid l) /\
      forall u b, get_bid id u s = Some b -> ab_revealed b = true -> ab_amount b <= al_highest_bid l
  end.

Record auction_ok (id : Z) s : Prop := {
  ak_nodup : NoDup (get_bidders id s);
  ak_listed : forall u b, get_bid id u s = Some b -> u ∈ get_bidders id s;
  ak_has : forall u, u ∈ get_bidders id s -> get_bid id u s <> None;
  ak_lock : forall u b, get_bid id u s = Some b -> 0 <= ab_locked_amount b;
  ak_none : get_listing id s = None -> get_bidders id s = [];
  ak_min : forall l, get_listing id s = Some l -> 0 < al_min_bid l;
  ak_high : forall l, get_listing id s = Some l -> highest_ok id l s;
  ak_full : forall l u b, get_listing id s = Some l -> al_settled l = false ->
    get_bid id u s = Some b -> ab_revealed b = true -> ab_locked_amount b = ab_amount b
}.

(** Reads of one auction's entries. *)
Definition same_auction (id : Z) s s' : Prop :=
  get_listing id s' = get_listing id s /\ get_bidders id s' = get_bidders id s /\
  (forall u, get_bid id u s' = get_bid id u s).

Lemma same_auction_refl id s : same_auction id s s.
Proof. done. Qed.
Lemma same_auction_trans id s1 s2 s3 :
  same_auction id s1 s2 -> same_auction id s2 s3 -> same_auction id s1 s3.
Proof. intros (A1 & A2 & A3) (B1 & B2 & B3). split; [congruence|]. split; [congruence|]. intros u. by rewrite B3. Qed.

Lemma same_owes id s s' : same_auction id s s' -> owes id s' = owes id s.
Proof.
  intros (H1 & H2 & H3). unfold owes. rewrite H2. apply sum_of_ext. intros u _.
  unfold owed_to, won, bid_lock. by rewrite H1, H3.
Qed.
Lemma same_ok id s s' : same_auction id s s' -> auction_ok id s -> auction_ok id s'.
Proof.
  intros (H1 & H2 & H3) [A1 A2 A2' A3 A4 A5 A6 A7].
  assert (Hb : forall u b, get_bid id u s' = Some b -> get_bid id u s = Some b) by (intros; by rewrite <- H3).
  split; rewrite ?H1, ?H2; [done|eauto|intros; rewrite H3; eauto|eauto|done|done| |].
  - intros l Hl. specialize (A6 l Hl). unfold highest_ok in *. destruct (al_winner l).
    + destruct A6 as [(b & A & A') Hle]. split; [exists b; by rewrite H3|eauto].
    + destruct A6 as [A Hr]. split; [done|eauto].
  - intros l u b Hl Hs Hu. eapply A7; eauto.
Qed.

Record auctions_ok s : Prop := {
  as_each : forall id, auction_ok id s;
  as_next : 0 <= next_auction s;
  as_fresh : forall id, ~ (0 <= id < next_auction s) -> get_listing id s = None
}.

Definition surplus (token me : Address) s : Z :=
  balance_of token me s - sum_from (fun id => owes id s) 0 (Z.to_nat (next_auction s)).

(** An operation on auction [id] that changes what is owed by no more than the
    vault's balance. *)
Lemma surplus_step token me id s s' :
  auctions_ok s -> 0 <= id < next_auction s -> next_auction s' = next_auction s ->
  (forall id', id' <> id -> same_auction id' s s') ->
  owes id s' - owes id s <= balance_of token me s' - balance_of token me s ->
  surplus token me s <= surplus token me s'.
Proof.
  intros Hok Hid Hn Hsame Hle. unfold surplus. rewrite Hn.
  rewrite (sum_from_change (fun i => owes i s) (fun i => owes i s') 0 _ id).
  - lia.
  - pose proof (as_next _ Hok). lia.
  - intros j Hj. symmetry. by apply same_owes, Hsame.
Qed.

Lemma ok_step id s s' :
  auctions_ok s -> next_auction s' = next_auction s -> get_listing id s <> None ->
  (forall id', id' <> id -> same_auction id' s s') -> auction_ok id s' -> auctions_ok s'.
Proof.
  intros [A1 A2 A3] Hn Hl Hsame Hok. split.
  - intros id'. destruct (decide (id' = id)) as [->|Hne]; [done|]. eapply same_ok; [by apply Hsame|apply A1].
  - by rewrite Hn.
  - intros id' Hid'. rewrite Hn in Hid'. destruct (decide (id' = id)) as [->|Hne].
    + by destruct Hl; apply A3.
    + rewrite (proj1 (Hsame id' Hne)). by apply A3.
Qed.

Lemma listed_below s id l : auctions_ok s -> get_listing id s = Some l -> 0 <= id < next_auction s.
Proof.
  intros Hok Hl. destruct (decide (0 <= id < next_auction s)) as [|Hge]; [done|].
  by rewrite (as_fresh _ Hok id Hge) in Hl.
Qed.


(** ** One auction's entries after a step

    [at_bid id u s s' l bs b]: of the auction entries, only those of auction
    [id] changed: the listing is [l], the bidders are [bs] and the bid of [u]
    is [b]. *)
Record at_bid (id : Z) (u : Address) s s' (l : option AuctionListing) (bs : list Address)
    (b : option AuctionBidRecord) : Prop := {
  ab_list : get_listing id s' = l;
  ab_bidders : get_bidders id s' = bs;
  ab_bid : get_bid id u s' = b;
  ab_others : forall v, v <> u -> get_bid id v s' = get_bid id v s;
  ab_else : forall id', id' <> id -> same_auction id' s s';
  ab_next : next_auction s' = next_auction s
}.

Lemma at_bid_owes id u s s' l b :
  auction_ok id s -> u ∈ get_bidders id s ->
  at_bid id u s s' l (get_bidders id s) b -> get_listing id s = l ->
  owes id s' = owes id s - owed_to id u s + owed_to id u s'.
Proof.
  intros Hok Hu [H1 H2 H3 H4 _ _] Hl. unfold owes. rewrite H2.
  apply (sum_of_change (fun v => owed_to id v s) (fun v => owed_to id v s')); [apply Hok|done|].
  intros v Hv. unfold owed_to, won, bid_lock. by rewrite H1, H4, Hl by done.
Qed.

(** Rewriting a bid without changing whether and at what amount it is
    revealed; the lock changes only after settlement and not the winner's. *)
Lemma rewrite_bid_ok id u s s' l b b' :
  auction_ok id s -> get_listing id s = Some l -> get_bid id u s = Some b ->
  at_bid id u s s' (Some l) (get_bidders id s) (Some b') ->
  ab_revealed b' = ab_revealed b -> ab_amount b' = ab_amount b -> 0 <= ab_locked_amount b' ->
  (ab_locked_amount b' = ab_locked_amount b \/ al_settled l = true /\ al_winner l <> Some u) ->
  auction_ok id s'.
Proof.
  intros [A1 A2 A2' A3 A4 A5 A6 A7] Hl Hb [H1 H2 H3 H4 _ _] Hr Ha Hp Hlk.
  assert (Hu : forall v c, get_bid id v s' = Some c -> exists c0, get_bid id v s = Some c0 /\
     ab_revealed c = ab_revealed c0 /\ ab_amount c = ab_amount c0 /\ 0 <= ab_locked_amount c /\
     (ab_locked_amount c = ab_locked_amount c0 \/ al_settled l = true /\ al_winner l <> Some v)).
  { intros v c Hc. destruct (decide (v = u)) as [->|Hv].
    - rewrite H3 in Hc. injection Hc as <-. exists b. done.
    - rewrite H4 in Hc by done. exists c. eauto 10. }
  split.
  - by rewrite H2.
  - intros v c Hc. rewrite H2. apply Hu in Hc as (c0 & Hc & _). eauto.
  - intros v. rewrite H2. intros Hv. destruct (decide (v = u)) as [->|]; [by rewrite H3|rewrite H4; auto].
  - intros v c Hc. by apply Hu in Hc as (c0 & _ & _ & _ & ? & _).
  - rewrite H1. done.
  - rewrite H1. intros l0 [= <-]. eauto.
  - rewrite H1. intros l0 [= <-]. specialize (A6 l Hl). unfold highest_ok in *.
    destruct (al_winner l) as [w|] eqn:Hw.
    + destruct A6 as [(c & Hc & B1 & B2 & B3) Hle]. split.
      * destruct (decide (w = u)) as [->|Hne]; [|exists c; rewrite H4; done].
        rewrite Hb in Hc. injection Hc as <-. exists b'. rewrite H3, Hr, Ha.
        destruct Hlk as [->|[_ []]]; done.
      * intros v c' Hc' Hrv. apply Hu in Hc' as (c0 & Hc0 & R1 & -> & _). apply (Hle v); congruence.
    + destruct A6 as [Hz Hn]. split; [done|]. intros v c' Hc'.
      apply Hu in Hc' as (c0 & Hc0 & -> & _). eauto.
  - rewrite H1. intros l0 v c [= <-] Hs Hc Hrv. apply Hu in Hc as (c0 & Hc0 & R1 & -> & _ & [->|[? _]]).
    + eapply A7; eauto; congruence.
    + congruence.
Qed.

(** A first bid, unrevealed, of a bidder who had none. *)
Lemma new_bid_ok id u s s' l b :
  auction_ok id s -> get_listing id s = Some l -> get_bid id u s = None ->
  at_bid id u s s' (Some l) (get_bidders id s ++ [u]) (Some b) ->
  ab_revealed b = false -> 0 <= ab_locked_amount b -> auction_ok id s'.
Proof.
  intros [A1 A2 A2' A3 A4 A5 A6 A7] Hl Hb [H1 H2 H3 H4 _ _] Hr Hp.
  assert (Hnin : u ∉ get_bidders id s) by (intros Hin; by apply (A2' u)).
  assert (Hu : forall v c, get_bid id v s' = Some c -> v = u /\ c = b \/ get_bid id v s = Some c).
  { intros v c Hc. destruct (decide (v = u)) as [->|Hv].
    - left. split; congruence.
    - right. by rewrite <- H4. }
  split.
  - rewrite H2. apply NoDup_app. split; [done|]. split; [|apply NoDup_singleton].
    intros v Hv Hv'. apply list_elem_of_singleton in Hv' as ->. done.
  - intros v c Hc. rewrite H2. apply elem_of_app. apply Hu in Hc as [[-> _]|Hc]; [right|left; eauto].
    by apply list_elem_of_singleton.
  - intros v. rewrite H2. intros [Hv|Hv%list_elem_of_singleton]%elem_of_app.
    + rewrite H4; [auto|]. by intros ->.
    + subst v. by rewrite H3.
  - intros v c Hc. apply Hu in Hc as [[_ ->]|Hc]; eauto.
  - by rewrite H1.
  - rewrite H1. intros l0 [= <-]. eauto.
  - rewrite H1. intros l0 [= <-]. specialize (A6 l Hl). unfold highest_ok in *.
    destruct (al_winner l) as [w|].
    + destruct A6 as [(c & Hc & B) Hle]. split.
      * exists c. rewrite H4; [done|]. intros ->. congruence.
      * intros v c' Hc' Hrv. apply Hu in Hc' as [[_ ->]|Hc']; [congruence|eauto].
    + destruct A6 as [Hz Hn]. split; [done|]. intros v c Hc. apply Hu in Hc as [[_ ->]|Hc]; eauto.
  - rewrite H1. intros l0 v c [= <-] Hs Hc Hrv. apply Hu in Hc as [[_ ->]|Hc]; [congruence|eauto].
Qed.

(** The listing after a reveal of [amount] by [u]. *)
Definition revealed_listing (l : AuctionListing) (amount : Z) (u : Address) : AuctionListing :=
  if al_highest_bid l <? amount then with_winner l amount u else l.

Lemma reveal_bid_ok id u s s' l b h amount :
  auction_ok id s -> get_listing id s = Some l -> get_bid id u s = Some b ->
  ab_revealed b = false -> al_min_bid l <= amount ->
  at_bid id u s s' (Some (revealed_listing l amount u)) (get_bidders id s)
    (Some (mkAuctionBidRecord h amount true amount)) ->
  auction_ok id s'.
Proof.
  intros [A1 A2 A2' A3 A4 A5 A6 A7] Hl Hb Hr Hmin [H1 H2 H3 H4 _ _].
  assert (Hu : forall v c, get_bid id v s' = Some c ->
     v = u /\ c = mkAuctionBidRecord h amount true amount \/ v <> u /\ get_bid id v s = Some c).
  { intros v c Hc. destruct (decide (v = u)) as [->|Hv].
    - left. split; congruence.
    - right. by rewrite <- H4. }
  assert (Hpos : 0 < al_min_bid l) by eauto.
  split.
  - by rewrite H2.
  - intros v c Hc. rewrite H2. apply Hu in Hc as [[-> _]|[_ Hc]]; eauto.
  - intros v. rewrite H2. intros Hv. destruct (decide (v = u)) as [->|]; [by rewrite H3|rewrite H4; auto].
  - intros v c Hc. apply Hu in Hc as [[_ ->]|[_ Hc]]; simpl; [lia|eauto].
  - by rewrite H1.
  - rewrite H1. intros l0 [= <-]. unfold revealed_listing. by destruct (_ <? _).
  - rewrite H1. intros l0 [= <-]. specialize (A6 l Hl). unfold highest_ok, revealed_listing in *.
    destruct (Z.ltb_spec (al_highest_bid l) amount) as [Hlt|Hge]; simpl.
    + split; [eexists; split; [exact H3|done]|]. intros v c Hc Hrv.
      apply Hu in Hc as [[_ ->]|[_ Hc]]; simpl; [lia|]. destruct (al_winner l).
      * destruct A6 as [_ Hle]. specialize (Hle v c Hc Hrv). lia.
      * destruct A6 as [_ Hn]. by rewrite (Hn v c Hc) in Hrv.
    + destruct (al_winner l) as [w|]; [|lia]. destruct A6 as [(c & Hc & B) Hle]. split.
      * exists c. rewrite H4; [done|]. intros ->. destruct B. congruence.
      * intros v c' Hc' Hrv. apply Hu in Hc' as [[_ ->]|[_ Hc']]; [simpl; lia|eauto].
  - rewrite H1. intros l0 v c [= <-] Hs Hc Hrv. apply Hu in Hc as [[_ ->]|[_ Hc]]; [done|].
    eapply A7; eauto. revert Hs. unfold revealed_listing. by destruct (_ <? _).
Qed.

Lemma settle_ok id u s s' l b :
  auction_ok id s -> get_listing id s = Some l ->
  at_bid id u s s' (Some (settled_listing l)) (get_bidders id s) b -> get_bid id u s = b ->
  auction_ok id s'.
Proof.
  intros [A1 A2 A2' A3 A4 A5 A6 A7] Hl [H1 H2 H3 H4 _ _] Hb.
  assert (Hu : forall v, get_bid id v s' = get_bid id v s).
  { intros v. destruct (decide (v = u)) as [->|Hv]; [congruence|by apply H4]. }
  split; rewrite ?H1, ?H2; try done.
  - intros v c. rewrite Hu. eauto.
  - intros v. rewrite Hu. eauto.
  - intros v c. rewrite Hu. eauto.
  - intros l0 [= <-]. exact (A5 l Hl).
  - intros l0 [= <-]. specialize (A6 l Hl). unfold highest_ok in *. simpl.
    destruct (al_winner l); [destruct A6 as [(c & Hc & B) Hle]; split|destruct A6 as [Hz Hn]; split; [done|]].
    + exists c. by rewrite Hu.
    + intros v c'. rewrite Hu. eauto.
    + intros v c'. rewrite Hu. eauto.
  - by intros l0 v c [= <-].
Qed.

(** Settling frees exactly the winning bid. *)
Lemma settle_owes id u s s' l b :
  auction_ok id s -> get_listing id s = Some l -> al_settled l = false ->
  at_bid id u s s' (Some (settled_listing l)) (get_bidders id s) b -> get_bid id u s = b ->
  owes id s' = owes id s - (match al_winner l with Some _ => al_highest_bid l | None => 0 end).
Proof.
  intros Hok Hl Hs [H1 H2 H3 H4 _ _] Hb.
  assert (Hu : forall v, bid_lock id v s' = bid_lock id v s).
  { intros v. unfold bid_lock. destruct (decide (v = u)) as [->|Hv]; [by rewrite H3, Hb|by rewrite H4]. }
  assert (Hw' : forall v, won id v s' = bool_decide (al_winner l = Some v)) by (intros; unfold won; by rewrite H1).
  assert (Hw : forall v, won id v s = false) by (intros; unfold won; by rewrite Hl, Hs).
  pose proof (ak_high _ _ Hok l Hl) as Hh. unfold highest_ok in Hh. unfold owes. rewrite H2.
  destruct (al_winner l) as [w|].
  - destruct Hh as [(c & Hc & _ & _ & Hlk) _].
    rewrite (sum_of_change (fun v => owed_to id v s) (fun v => owed_to id v s') _ w).
    + unfold owed_to. rewrite Hw, Hw', bool_decide_eq_true_2 by done. unfold bid_lock. rewrite Hc. lia.
    + apply Hok.
    + eapply ak_listed; eauto.
    + intros v Hv. unfold owed_to. rewrite Hw, Hw', Hu, bool_decide_eq_false_2; [done|congruence].
  - rewrite (sum_of_ext (fun v => owed_to id v s') (fun v => owed_to id v s)); [lia|].
    intros v _. unfold owed_to. rewrite Hw, Hw', Hu, bool_decide_eq_false_2; [done|congruence].
Qed.

End Ghost.

(** ** Every operation keeps the auctions sound and funded *)

Section Ops.
Context {W : World} {N : AuctionNames} (HT : StandardTokens W).
Context (env : Env) (sha256 : list Byte.byte -> list Byte.byte).
Implicit Types s : State.

(** What an operation promises: sound auctions, and a surplus that did not
    fall. *)
Definition funds (token : Address) s s' : Prop :=
  auctions_ok s' /\ surplus token (self env) s <= surplus token (self env) s'.

(** The entries of the auctions. *)
Definition auc_key (k : key) : bool :=
  match k with
  | KFeat (AucListing _) | KFeat (AucBid _ _) | KFeat (AucBidders _) | KFeat AucNextId => true
  | _ => false
  end.
Definition same_auctions s s' : Prop := forall k, auc_key k = true -> rd k s' = rd k s.

Lemma same_auctions_at s s' id : same_auctions s s' -> same_auction id s s'.
Proof.
  intros H. split; [|split]; unfold get_listing, get_bidders, get_bid; intros; by rewrite H.
Qed.
Lemma same_auctions_next s s' : same_auctions s s' -> next_auction s' = next_auction s.
Proof. intros H. unfold next_auction. by rewrite H. Qed.

Lemma set_shares_auctions E u x s y s' :
  set_shares (E:=E) env u x s = Ok y s' -> same_auctions s s' /\ st_ext s' = st_ext s /\
  (forall k, ~ share_write_keys u k -> rd k s' = rd k s).
Proof.
  intros (_ & _ & _ & Hf & He)%set_shares_Ok. split; [|done]. intros k Hk. apply Hf.
  intros [->|[->|[->|(t & [->| ->])]]]; done.
Qed.

(** The vault's balance after a transfer. *)
Lemma transfer_in E token from amt s x s' :
  from <> self env -> transfer (E:=E) token from (self env) amt s = Ok x s' ->
  balance_of token (self env) s' = balance_of token (self env) s + amt /\ same_auctions s s'.
Proof.
  intros Hne (w & Hw & _ & ->)%transfer_Ok. destruct (std_moves _ _ _ _ _ _ Hne Hw) as [_ H].
  split; [exact H|]. intros k _. by rdsimp.
Qed.
Lemma transfer_out E token to amt s x s' :
  transfer (E:=E) token (self env) to amt s = Ok x s' ->
  balance_of token (self env) s - amt <= balance_of token (self env) s' /\ same_auctions s s'.
Proof.
  intros (w & Hw & _ & ->)%transfer_Ok. destruct (std_amount _ _ _ _ _ _ Hw) as [Hp _]. split.
  - destruct (decide (to = self env)) as [->|Hne].
    + pose proof (std_self _ _ _ _ _ Hw) as He. unfold balance_of in *. Transparent set_ext. simpl. lia.
    + destruct (std_moves _ _ _ _ _ _ (not_eq_sym Hne) Hw) as [H _]. unfold balance_of in *. simpl in *. lia.
  - intros k _. by rdsimp.
Qed.
Opaque set_ext.

(** Steps that change one auction, or none. *)
Lemma funds_step token id s s' l :
  auctions_ok s -> get_listing id s = Some l -> next_auction s' = next_auction s ->
  (forall id', id' <> id -> same_auction id' s s') -> auction_ok id s' ->
  owes id s' - owes id s <= balance_of token (self env) s' - balance_of token (self env) s ->
  funds token s s'.
Proof.
  intros Hok Hl Hn Hsame Hid Hle. split.
  - eapply ok_step; [exact Hok|exact Hn| |exact Hsame|exact Hid]. by rewrite Hl.
  - eapply surplus_step; [exact Hok| |exact Hn|exact Hsame|exact Hle]. by eapply listed_below.
Qed.

Lemma funds_same token s s' :
  auctions_ok s -> same_auctions s s' ->
  balance_of token (self env) s <= balance_of token (self env) s' -> funds token s s'.
Proof.
  intros [A1 A2 A3] Hs Hb. split.
  - split.
    + intros id. eapply same_ok; [by apply same_auctions_at|apply A1].
    + by rewrite (same_auctions_next s s').
    + intros id. rewrite (same_auctions_next s s') by done. rewrite (proj1 (same_auctions_at s s' id Hs)). apply A3.
  - unfold surplus. rewrite (same_auctions_next s s') by done.
    rewrite (sum_from_ext (fun id => owes id s') (fun id => owes id s)); [lia|].
    intros i _. by apply same_owes, same_auctions_at.
Qed.

Lemma funds_trans token s1 s2 s3 : funds token s1 s2 -> funds token s2 s3 -> funds token s1 s3.
Proof. intros [_ H1] [H2 H3]. split; [done|lia]. Qed.


Lemma funds_emit token s s' e : funds token s s' -> funds token s (emit e s').
Proof.
  intros H. eapply funds_trans; [exact H|]. apply funds_same; [apply H|intros k _; by rdsimp|by rdsimp].
Qed.

Ltac at_bids := split; [..|intros id' Hid'; split; [|split]|]; intros;
  unfold get_listing, get_bidders, get_bid, next_auction; rdsimp; try done.

(** A change of one bid that keeps its lock, or changes it after settlement. *)
Lemma rewrite_bid_funds token id u b b' l s s' :
  auctions_ok s -> get_listing id s = Some l -> get_bid id u s = Some b ->
  at_bid id u s s' (Some l) (get_bidders id s) (Some b') ->
  ab_revealed b' = ab_revealed b -> ab_amount b' = ab_amount b -> 0 <= ab_locked_amount b' ->
  (ab_locked_amount b' = ab_locked_amount b \/ al_settled l = true /\ al_winner l <> Some u) ->
  ab_locked_amount b' - ab_locked_amount b <= balance_of token (self env) s' - balance_of token (self env) s ->
  funds token s s'.
Proof.
  intros Hok Hl Hb Hat Hr Ha Hp Hlk Hle. pose proof (as_each _ Hok id) as Hid.
  apply (funds_step token id _ _ l); [done|done|apply Hat|apply Hat|by eapply rewrite_bid_ok|].
  rewrite (at_bid_owes id u s _ _ _ Hid (ak_listed _ _ Hid _ _ Hb) Hat Hl).
  unfold owed_to, won, bid_lock. rewrite (ab_list _ _ _ _ _ _ _ Hat), (ab_bid _ _ _ _ _ _ _ Hat), Hl, Hb.
  destruct Hlk as [Hlk|[Hs Hw]]; [destruct (_ && _); lia|].
  rewrite bool_decide_eq_false_2 by done. rewrite andb_false_r. lia.
Qed.

Lemma new_bid_funds token id u b l s s' :
  auctions_ok s -> get_listing id s = Some l -> al_settled l = false -> get_bid id u s = None ->
  at_bid id u s s' (Some l) (get_bidders id s ++ [u]) (Some b) ->
  ab_revealed b = false -> 0 <= ab_locked_amount b ->
  ab_locked_amount b <= balance_of token (self env) s' - balance_of token (self env) s ->
  funds token s s'.
Proof.
  intros Hok Hl Hs Hb Hat Hr Hp Hle. pose proof (as_each _ Hok id) as Hid.
  apply (funds_step token id _ _ l); [done|done|apply Hat|apply Hat|by eapply new_bid_ok|].
  unfold owes. rewrite (ab_bidders _ _ _ _ _ _ _ Hat), sum_of_app. simpl.
  assert (Hw : forall v, won id v s' = false)
    by (intros v; unfold won; by rewrite (ab_list _ _ _ _ _ _ _ Hat), Hs).
  rewrite (sum_of_ext (fun v => owed_to id v s') (fun v => owed_to id v s)).
  - unfold owed_to, bid_lock. rewrite Hw, (ab_bid _ _ _ _ _ _ _ Hat). lia.
  - intros v Hv. assert (v <> u) by (intros ->; by apply (ak_has _ _ Hid u)).
    unfold owed_to, bid_lock. rewrite Hw, (ab_others _ _ _ _ _ _ _ Hat) by done.
    unfold won. by rewrite Hl, Hs.
Qed.

(** Opening auction [next_auction s]. *)
Lemma opened_funds token l seller s :
  auctions_ok s -> 0 < al_min_bid l -> al_highest_bid l = 0 -> al_winner l = None -> al_settled l = false ->
  funds token s (upd (AucSeller seller) (Some (next_auction s))
    (upd (AucListing (next_auction s)) (Some l) (upd AucNextId (Some (next_auction s + 1)) s))).
Proof.
  intros [A1 A2 A3] Hm Hh Hw Hs. set (n := next_auction s) in *.
  set (s' := upd (AucSeller seller) _ _).
  assert (Hfresh : get_listing n s = None) by (apply A3; lia).
  assert (Hn : next_auction s' = n + 1) by (unfold s', next_auction; by rdsimp).
  assert (Helse : forall id, id <> n -> same_auction id s s').
  { intros id Hid. unfold s'. split; [|split]; intros; unfold get_listing, get_bidders, get_bid; by rdsimp. }
  assert (Hbid : forall u, get_bid n u s' = get_bid n u s) by (intros; unfold s', get_bid; by rdsimp).
  assert (Hbs : get_bidders n s' = []).
  { etransitivity; [|exact (ak_none _ _ (A1 n) Hfresh)]. unfold s', get_bidders. by rdsimp. }
  assert (Hl : get_listing n s' = Some l) by (unfold s', get_listing; by rdsimp).
  assert (Hnob : forall u b, get_bid n u s' = Some b -> False).
  { intros u b Hb. rewrite Hbid in Hb. apply (ak_listed _ _ (A1 n)) in Hb.
    rewrite (ak_none _ _ (A1 n) Hfresh) in Hb. by apply elem_of_nil in Hb. }
  split.
  - split; [|lia|].
    + intros id. destruct (decide (id = n)) as [->|Hid]; [|eapply same_ok; [by apply Helse|apply A1]].
      split; rewrite ?Hbs, ?Hl; try done.
      * constructor.
      * intros u b Hb. by apply Hnob in Hb.
      * intros u Hu. by apply elem_of_nil in Hu.
      * intros u b Hb. by apply Hnob in Hb.
      * by intros l0 [= <-].
      * intros l0 [= <-]. unfold highest_ok. rewrite Hw. split; [done|]. intros u b Hb. by apply Hnob in Hb.
      * intros l0 u b _ _ Hb. by apply Hnob in Hb.
    + intros id Hid. rewrite Hn in Hid. rewrite (proj1 (Helse id ltac:(lia))). apply A3. fold n. lia.
  - unfold surplus. rewrite Hn. fold n. replace (Z.to_nat (n + 1)) with (Z.to_nat n + 1)%nat by lia.
    rewrite sum_from_app. cbn [sum_from]. replace (0 + Z.of_nat (Z.to_nat n)) with n by lia.
    assert (owes n s' = 0) as -> by (unfold owes; by rewrite Hbs). rewrite (sum_from_ext (fun id => owes id s') (fun id => owes id s)).
    + unfold s'. rdsimp. lia.
    + intros i Hi. apply same_owes, Helse. lia.
Qed.

(** A reveal may make its bidder the winner, but nothing is settled yet. *)
Lemma open_owes id u s s' l l' b :
  auction_ok id s -> get_listing id s = Some l -> al_settled l = false -> al_settled l' = false ->
  u ∈ get_bidders id s -> at_bid id u s s' (Some l') (get_bidders id s) (Some b) ->
  owes id s' = owes id s - bid_lock id u s + ab_locked_amount b.
Proof.
  intros Hok Hl Hs Hs' Hu [H1 H2 H3 H4 _ _]. unfold owes. rewrite H2.
  assert (Hw : forall v, won id v s = false) by (intros; unfold won; by rewrite Hl, Hs).
  assert (Hw' : forall v, won id v s' = false) by (intros; unfold won; by rewrite H1, Hs').
  rewrite (sum_of_change (fun v => owed_to id v s) (fun v => owed_to id v s') _ u); [|apply Hok|done|].
  - unfold owed_to, bid_lock. rewrite Hw, Hw', H3. done.
  - intros v Hv. unfold owed_to, bid_lock. by rewrite Hw, Hw', H4.
Qed.

Lemma commit_bid_funds u id h token s s' :
  signed env (self env) = false -> rd Token s = Some token -> auctions_ok s ->
  commit_bid env u id h s = Ok tt s' -> funds token s s'.
Proof.
  intros Hself Htok Hok H. unfold commit_bid in H.
  apply bind_Ok in H as (? & ? & H1 & H). apply require_auth_Ok in H1 as (Hu & _ & ->).
  assert (Hne : u <> self env) by congruence. unfold reading at 1 in H.
  apply bind_Ok in H as (l & ? & H1 & H). apply ok_or_Ok in H1 as [Hl ->].
  apply bind_Ok in H as (? & ? & H1 & H). apply fail_if_Ok in H1 as (Hset & _ & ->).
  apply bind_Ok in H as (? & ? & H1 & H). apply fail_if_Ok in H1 as (_ & _ & ->).
  apply bind_Ok in H as (? & ? & H1 & H). apply fail_if_Ok in H1 as (_ & _ & ->).
  unfold reading at 1 in H. apply bind_Ok in H as (? & s1 & H1 & H). apply publish_Ok in H as [_ ->].
  apply funds_emit. pose proof (as_each _ Hok id) as Hid. destruct (get_bid id u s) as [b|] eqn:Hb.
  - destruct (ab_revealed b) eqn:Hr; [done|]. apply put_Ok in H1 as [_ ->].
    eapply (rewrite_bid_funds token id u b (with_hash b h)); [done..|at_bids| | | | |]; try done.
    + simpl. by eapply ak_lock.
    + by left.
    + rdsimp. simpl. lia.
  - apply bind_Ok in H1 as (token' & ? & H2 & H1). unfold token_address, reading in H2.
    apply ok_or_Ok in H2 as [Ht ->]. rewrite Htok in Ht. injection Ht as <-.
    apply bind_Ok in H1 as (? & s2 & H2 & H1). destruct (transfer_in _ _ _ _ _ _ _ Hne H2) as [Hbal Hs2].
    unfold reading in H1. apply bind_Ok in H1 as (? & ? & H3 & H1). apply fail_if_Ok in H3 as (_ & _ & ->).
    apply bind_Ok in H1 as (? & ? & H3 & H1). apply put_Ok in H3 as [_ ->]. apply put_Ok in H1 as [_ ->].
    pose proof (ak_min _ _ Hid l Hl). apply transfer_Ok in H2 as (w & _ & _ & ->).
    eapply (new_bid_funds token id u); [done..|at_bids| | |]; try done; simpl; [lia|].
    rdsimp. lia.
Qed.

Lemma reveal_bid_funds u id a salt token s s' :
  signed env (self env) = false -> rd Token s = Some token -> auctions_ok s ->
  reveal_bid env sha256 u id a salt s = Ok tt s' -> funds token s s'.
Proof.
  intros Hself Htok Hok H. unfold reveal_bid in H.
  apply bind_Ok in H as (? & ? & H1 & H). apply require_auth_Ok in H1 as (Hu & _ & ->).
  assert (Hne : u <> self env) by congruence.
  apply bind_Ok in H as (? & ? & H1 & H). apply fail_if_Ok in H1 as (_ & _ & ->). unfold reading at 1 in H.
  apply bind_Ok in H as (l & ? & H1 & H). apply ok_or_Ok in H1 as [Hl ->].
  apply bind_Ok in H as (? & ? & H1 & H). apply fail_if_Ok in H1 as (Hset & _ & ->).
  apply bind_Ok in H as (? & ? & H1 & H). apply fail_if_Ok in H1 as (_ & _ & ->). unfold reading at 1 in H.
  apply bind_Ok in H as (b & ? & H1 & H). apply ok_or_Ok in H1 as [Hb ->].
  pose proof (as_each _ Hok id) as Hid.
  assert (Hrefl : funds token s s) by (by split).
  destruct (ab_revealed b) eqn:Hr; [by apply ret_Ok in H as [_ ->]|].
  apply bind_Ok in H as (? & ? & H1 & H). apply fail_if_Ok in H1 as (_ & _ & ->).
  destruct (Z.ltb_spec a (al_min_bid l)) as [|Hmin]; [by apply ret_Ok in H as [_ ->]|].
  apply bind_Ok in H as (? & s1 & H1 & H). apply bind_Ok in H as (? & s2 & H2 & H). apply put_Ok in H2 as [_ ->].
  apply bind_Ok in H as (? & s3 & H3 & H). apply publish_Ok in H as [_ ->]. apply funds_emit.
  assert (Htr : a - ab_locked_amount b <= balance_of token (self env) s1 - balance_of token (self env) s /\
                forall k, rd k s1 = rd k s).
  { destruct (Z.ltb_spec (ab_locked_amount b) a).
    - apply bind_Ok in H1 as (add & ? & H4 & H1). apply plain_Ok in H4 as [[-> _]%checked_sub_Some ->].
      apply bind_Ok in H1 as (token' & ? & H4 & H1). unfold token_address, reading in H4.
      apply ok_or_Ok in H4 as [Ht ->]. rewrite Htok in Ht. injection Ht as <-.
      destruct (transfer_in _ _ _ _ _ _ _ Hne H1) as [Hbal _]. split; [lia|].
      apply transfer_Ok in H1 as (w & _ & _ & ->). intros k. by rdsimp.
    - apply ret_Ok in H1 as [_ ->]. split; [lia|done]. }
  destruct Htr as [Hbal Hrd].
  assert (Hat : at_bid id u s s3 (Some (revealed_listing l a u)) (get_bidders id s)
                  (Some (mkAuctionBidRecord (ab_hash b) a true a)) /\
                balance_of token (self env) s3 = balance_of token (self env) s1).
  { unfold revealed_listing. destruct (al_highest_bid l <? a) eqn:Hhi in *.
    - apply put_Ok in H3 as [_ ->]. split; [|by rdsimp]. at_bids; by rewrite Hrd.
    - apply ret_Ok in H3 as [_ ->]. split; [|by rdsimp]. at_bids; rewrite ?Hrd; done. }
  destruct Hat as [Hat Hb3].
  apply (funds_step token id _ _ l); [done|done|apply Hat|apply Hat|by eapply reveal_bid_ok|].
  rewrite (open_owes id u s s3 l _ _ Hid Hl Hset) with (3 := Hat).
  - unfold bid_lock. rewrite Hb. simpl. lia.
  - unfold revealed_listing. destruct (al_highest_bid l <? a); exact Hset.
  - by eapply ak_listed.
Qed.

(** Listing a position opens an auction that owes nothing. *)
Lemma list_position_funds u m c r id token s s' :
  auctions_ok s -> list_position_for_auction env u m c r s = Ok id s' -> funds token s s'.
Proof.
  intros Hok H. unfold list_position_for_auction in H.
  apply bind_Ok in H as (? & ? & H1 & H). apply require_auth_Ok in H1 as (Hu & _ & ->).
  apply bind_Ok in H as (? & ? & H1 & H). apply fail_if_Ok in H1 as (Hm%Z.leb_gt & _ & ->).
  apply bind_Ok in H as (? & ? & H1 & H). apply fail_if_Ok in H1 as (_ & _ & ->). unfold reading at 1 in H.
  apply bind_Ok in H as (? & s0 & H1 & H).
  assert (s0 = s) as ->.
  { destruct (get_seller_active u s); [|by apply ret_Ok in H1 as [_ ->]]. unfold reading in H1.
    by apply fail_if_Ok in H1 as (_ & _ & ->). }
  unfold reading at 1 in H.
  apply bind_Ok in H as (? & ? & H2 & H). apply fail_if_Ok in H2 as (_ & _ & ->).
  apply bind_Ok in H as (? & s1 & H2 & H). apply set_shares_auctions in H2 as (Hs1 & He1 & _). cbv zeta in H.
  assert (Hf1 : funds token s s1) by (apply funds_same; [done..|unfold balance_of; rewrite He1; lia]).
  eapply funds_trans; [exact Hf1|]. destruct Hf1 as [Hok1 _]. clear Hs1 He1 Hok.
  apply bind_Ok in H as (id' & ? & H2 & H). unfold next_auction_id, reading in H2.
  apply bind_Ok in H2 as (n & ? & H3 & H2). apply plain_Ok in H3 as [Hn ->].
  apply bind_Ok in H2 as (? & ? & H3 & H2). apply put_Ok in H3 as [_ ->]. apply ret_Ok in H2 as [-> ->].
  apply to_u32_Some in Hn as [-> Hrange].
  apply bind_Ok in H as (? & ? & H2 & H). apply put_Ok in H2 as [_ ->].
  apply bind_Ok in H as (? & ? & H2 & H). apply put_Ok in H2 as [_ ->].
  apply bind_Ok in H as (? & ? & H2 & H). apply publish_Ok in H2 as [_ ->].
  apply ret_Ok in H as [_ ->]. apply funds_emit. fold (next_auction s1).
  apply opened_funds; simpl; [done..].
Qed.


Lemma settle_auction_funds id token s s' :
  rd Token s = Some token -> auctions_ok s -> settle_auction env id s = Ok tt s' -> funds token s s'.
Proof.
  intros Htok Hok H. unfold settle_auction, reading at 1 in H.
  apply bind_Ok in H as (l & ? & H1 & H). apply ok_or_Ok in H1 as [Hl ->].
  apply bind_Ok in H as (? & ? & H1 & H). apply fail_if_Ok in H1 as (Hset & _ & ->).
  apply bind_Ok in H as (? & ? & H1 & H). apply fail_if_Ok in H1 as (_ & _ & ->).
  apply bind_Ok in H as (? & s1 & H1 & H).
  apply bind_Ok in H as (? & ? & H2 & H). apply del_Ok in H2 as [_ ->].
  apply bind_Ok in H as (? & ? & H2 & H). apply put_Ok in H2 as [_ ->]. apply publish_Ok in H as [_ ->].
  apply funds_emit. pose proof (as_each _ Hok id) as Hid.
  assert (Hs1 : same_auctions s s1 /\ balance_of token (self env) s -
      (match al_winner l with Some _ => al_highest_bid l | None => 0 end) <= balance_of token (self env) s1).
  { destruct (al_winner l) as [w|]; unfold reading in H1;
      apply bind_Ok in H1 as (n & ? & H2 & H1); apply plain_Ok in H2 as [_ ->].
    - apply bind_Ok in H1 as (? & s2 & H2 & H1). apply set_shares_auctions in H2 as (Hs2 & He2 & Hf2).
      apply bind_Ok in H1 as (token' & ? & H2 & H1). unfold token_address, reading in H2.
      apply ok_or_Ok in H2 as [Ht ->].
      assert (token' = token) as ->.
      { rewrite Hf2 in Ht; [congruence|]. intros [?|[?|[?|(? & [?|?])]]]; done. }
      destruct (transfer_out _ _ _ _ _ _ _ H1) as [Hb Hs3]. split.
      + intros k Hk. rewrite Hs3 by done. by apply Hs2.
      + unfold balance_of in *. rewrite <- He2. exact Hb.
    - apply set_shares_auctions in H1 as (Hs2 & He2 & _). split; [done|].
      unfold balance_of. rewrite He2. lia. }
  destruct Hs1 as [Hs1 Hb1].
  match goal with |- funds _ _ ?s3 => set (s2 := s3) end.
  assert (Hat : at_bid id (al_seller l) s s2 (Some (settled_listing l)) (get_bidders id s)
            (get_bid id (al_seller l) s)) by (unfold s2; at_bids; rewrite Hs1; done).
  assert (Hb2 : balance_of token (self env) s2 = balance_of token (self env) s1) by (unfold s2; by rdsimp).
  apply (funds_step token id _ _ l); [done|done|apply Hat|apply Hat| |].
  - exact (settle_ok id _ s _ l _ Hid Hl Hat eq_refl).
  - rewrite (settle_owes id _ s _ l _ Hid Hl Hset Hat eq_refl). lia.
Qed.

(** One refund pays at most what it strikes off. *)
Lemma refund_one_funds id l token treasury u x s s' :
  auctions_ok s -> get_listing id s = Some l -> al_settled l = true ->
  refund_one env id (al_winner l) token treasury u s = Ok x s' ->
  funds token s s' /\ get_listing id s' = Some l.
Proof.
  intros Hok Hl Hset H. assert (Hrefl : funds token s s) by (by split).
  unfold refund_one in H. destruct (bool_decide_reflect (al_winner l = Some u)) as [|Hw].
  { by apply ret_Ok in H as [_ ->]. }
  unfold reading in H. destruct (get_bid id u s) as [b|] eqn:Hb; [|by apply ret_Ok in H as [_ ->]].
  destruct (Z.leb_spec (ab_locked_amount b) 0); [by apply ret_Ok in H as [_ ->]|].
  apply bind_Ok in H as (? & s1 & H1 & H). apply bind_Ok in H as (? & ? & H2 & H). apply put_Ok in H2 as [_ ->].
  apply ret_Ok in H as [_ ->].
  assert (Hs1 : same_auctions s s1 /\
      balance_of token (self env) s - ab_locked_amount b <= balance_of token (self env) s1).
  { destruct (ab_revealed b); [|destruct treasury; [|apply ret_Ok in H1 as [_ ->]; split; [done|lia]]];
      apply bind_Ok in H1 as (? & s2 & H2 & H1); apply publish_Ok in H1 as [_ ->];
      destruct (transfer_out _ _ _ _ _ _ _ H2) as [Hbal Hs2];
      (split; [intros k Hk; rdsimp; by apply Hs2|rdsimp; lia]). }
  destruct Hs1 as [Hs1 Hb1].
  pose (b' := mkAuctionBidRecord (ab_hash b) 0 (ab_revealed b) (ab_amount b)).
  assert (Hat : at_bid id u s (upd (AucBid id u) (Some b') s1) (Some l) (get_bidders id s) (Some b'))
    by (at_bids; rewrite Hs1; done).
  split; [|apply Hat]. eapply (rewrite_bid_funds token id u b b'); try done; [by right|]. rdsimp. simpl. lia.
Qed.

Lemma refund_loop_funds id l token treasury us n m s s' :
  auctions_ok s -> get_listing id s = Some l -> al_settled l = true ->
  refund_loop env id (al_winner l) token treasury n us s = Ok m s' -> funds token s s'.
Proof.
  intros Hok Hl Hset. revert n s Hok Hl. induction us as [|u us IH]; intros n s Hok Hl H; cbn [refund_loop] in H.
  - apply ret_Ok in H as [_ ->]. by split.
  - apply bind_Ok in H as (x & s1 & H1 & H). apply (refund_one_funds id l) in H1 as [Hf Hl1]; [|done..].
    apply bind_Ok in H as (p & s2 & H1 & H).
    assert (s2 = s1) as -> by (destruct x; [by apply plain_Ok in H1 as [_ ->]|by apply ret_Ok in H1 as [_ ->]]).
    eapply funds_trans; [exact Hf|]. eapply IH; [apply Hf|exact Hl1|exact H].
Qed.

Lemma refund_losing_bids_funds id n token s s' :
  rd Token s = Some token -> auctions_ok s -> refund_losing_bids env id s = Ok n s' -> funds token s s'.
Proof.
  intros Htok Hok H. unfold refund_losing_bids, reading at 1 in H.
  apply bind_Ok in H as (l & ? & H1 & H). apply ok_or_Ok in H1 as [Hl ->].
  apply bind_Ok in H as (? & ? & H1 & H). apply fail_if_Ok in H1 as (Hset%negb_false_iff & _ & ->).
  apply bind_Ok in H as (token' & ? & H1 & H). unfold token_address, reading in H1.
  apply ok_or_Ok in H1 as [Ht ->]. rewrite Htok in Ht. injection Ht as <-.
  unfold reading in H. by eapply refund_loop_funds.
Qed.

End Ops.

(** ** Auctions as a system *)

Inductive auction_op :=
| AList (user : Address) (min_bid commit_duration reveal_duration : Z)
| ACommit (bidder : Address) (id : Z) (hash : list Byte.byte)
| AReveal (bidder : Address) (id amount : Z) (salt : list Byte.byte)
| ASettle (id : Z)
| ARefund (id : Z).

Section System.
Context {W : World} {N : AuctionNames} (sha256 : list Byte.byte -> list Byte.byte) (token me : Address).
Implicit Types s : State.

(** One committed or rolled-back invocation. *)
Definition auction_perform (env : Env) (o : auction_op) : State -> State :=
  match o with
  | AList u m c r => invoke (list_position_for_auction env u m c r)
  | ACommit u id h => invoke (commit_bid env u id h)
  | AReveal u id a salt => invoke (reveal_bid env sha256 u id a salt)
  | ASettle id => invoke (settle_auction env id)
  | ARefund id => invoke (refund_losing_bids env id)
  end.

(** An auction operation of the contract [me], which signs nothing itself, or
    anything else that leaves the auctions and the token alone and takes no
    tokens out. *)
Inductive auction_step : State -> State -> Prop :=
| as_op env o s : self env = me -> signed env me = false -> auction_step s (auction_perform env o s)
| as_other s s' : same_auctions s s' -> rd Token s' = rd Token s ->
    balance_of token me s <= balance_of token me s' -> auction_step s s'.

(** No auction has been held. *)
Definition no_auctions s : Prop := forall k, auc_key k = true -> rd k s = None.

Lemma no_auctions_ok s : no_auctions s -> auctions_ok s /\ surplus token me s = balance_of token me s.
Proof.
  intros H. assert (Hl : forall id, get_listing id s = None) by (intros; unfold get_listing; by rewrite H).
  assert (Hb : forall id u, get_bid id u s = None) by (intros; unfold get_bid; by rewrite H).
  assert (Hbs : forall id, get_bidders id s = []) by (intros; unfold get_bidders; by rewrite H).
  assert (Hn : next_auction s = 0) by (unfold next_auction; by rewrite H). split.
  - split; [|lia|done]. intros id. split; rewrite ?Hbs, ?Hl; try done; try (intros; congruence).
    + constructor.
    + intros u Hu. by apply elem_of_nil in Hu.
  - unfold surplus. rewrite Hn. simpl. lia.
Qed.

Lemma touches_rd {E A} (m : M E A) s a s' k :
  touches (fun k' => k' <> k) m -> m s = Ok a s' -> rd k s' = rd k s.
Proof. intros Ht H. apply (touches_Ok _ _ _ _ _ k Ht H). by intros []. Qed.

Lemma set_shares_token E env u x : touches (fun k => k <> KInst Token) (set_shares (E:=E) env u x).
Proof.
  eapply touches_weaken; [|apply set_shares_touches]. by intros k [->|[->|[->|(t & [->| ->])]]].
Qed.

Ltac keep_token := repeat first
  [ progress frames | apply touches_put; discriminate | apply touches_del; discriminate
  | apply set_shares_token ].

Lemma perform_token env o s : rd Token (auction_perform env o s) = rd Token s.
Proof.
  destruct o; cbn [auction_perform]; unfold invoke;
    match goal with |- context [match ?r with _ => _ end] => destruct r as [? s'|? s'|] eqn:H end; try done;
    revert H; apply touches_rd.
  - unfold list_position_for_auction, next_auction_id, set_listing. keep_token.
  - unfold commit_bid, set_bid, token_address. keep_token.
  - unfold reveal_bid, set_bid, set_listing, token_address. keep_token.
  - unfold settle_auction, set_listing, token_address. keep_token.
  - unfold refund_losing_bids, token_address. keep_token.
    match goal with |- touches _ (refund_loop _ _ _ _ _ ?n ?l) => generalize n; induction l as [|u l IH] end;
      intros n; cbn [refund_loop]; [frames|].
    unfold refund_one, set_bid. keep_token.
Qed.

Lemma auction_steps_fund (HT : StandardTokens W) s0 s :
  rd Token s0 = Some token -> auctions_ok s0 -> rtc auction_step s0 s ->
  auctions_ok s /\ surplus token me s0 <= surplus token me s.
Proof.
  intros Htok Hok Hs. induction Hs as [|s0 s1 s2 Hstep _ IH]; [done|].
  assert (Hf : auctions_ok s1 /\ surplus token me s0 <= surplus token me s1 /\ rd Token s1 = Some token).
  { destruct Hstep as [env o s0 <- Hself|s0 s1 Hsame Ht Hb].
    - rewrite perform_token. enough (funds env token s0 (auction_perform env o s0)) as [? ?] by done.
      assert (Hrefl : funds env token s0 s0) by by split.
      destruct o; cbn [auction_perform]; unfold invoke;
        match goal with |- context [match ?r with _ => _ end] => destruct r as [? s'|? s'|] eqn:H end; try done.
      + by eapply list_position_funds.
      + destruct a. by eapply commit_bid_funds.
      + destruct a. by eapply reveal_bid_funds.
      + destruct a. by eapply settle_auction_funds.
      + by eapply refund_losing_bids_funds.
    - rewrite Ht. pose proof (funds_same (mkEnv 0 0 me (fun _ => false)) token s0 s1 Hok Hsame Hb) as [? ?]. done. }
  destruct Hf as (Hok1 & Hle & Ht1). destruct (IH Ht1 Hok1) as [? ?]. split; [done|lia].
Qed.

End System.

(** ** Theorems *)

(** C27. Auctions never pay with other users' money.  Starting before the first
    auction, after any sequence of listings, commitments, reveals, settlements
    and refunds, interleaved with anything that leaves the auctions and the
    token address alone and takes no tokens out of the vault: the vault's token
    balance has grown by at least what it owes the bidders of all auctions
    (their locked amounts, the winner's no longer once settled). *)
Theorem auctions_self_funded {W : World} {N : AuctionNames} (HT : StandardTokens W) sha256 (token me : Address)
    (s0 s : State) :
  rd Token s0 = Some token -> no_auctions s0 -> rtc (auction_step sha256 token me) s0 s ->
  sum_from (fun id => owes id s) 0 (Z.to_nat (next_auction s)) <=
    balance_of token me s - balance_of token me s0.
Proof.
  intros Ht Hn Hs. destruct (no_auctions_ok token me s0 Hn) as [Hok H0].
  destruct (auction_steps_fund sha256 token me HT s0 s Ht Hok Hs) as [_ Hle].
  rewrite H0 in Hle. unfold surplus in Hle. lia.
Qed.

(** A settled auction goes to the highest revealed bid.  In a state reached
    by auctions, settling comes after the reveal phase and at most once; if a
    bid was revealed, the winner's is the highest of them, the winner alone
    receives the listed shares and the seller is paid exactly the winning bid,
    which the winner had locked; if none was, the seller gets the shares back
    and no tokens move. *)
Theorem settlement_to_highest_bid {W : World} {N : AuctionNames} (HT : StandardTokens W) env (token : Address) id l s s' :
  auctions_ok s -> rd Token s = Some token -> get_listing id s = Some l -> al_seller l <> self env ->
  settle_auction env id s = Ok tt s' ->
  al_reveal_deadline l < sequence env /\
  (forall env2, settle_auction env2 id s' = Err AuctionAlreadySettled s') /\
  get_shares (heir l) s' = get_shares (heir l) s + al_escrowed_shares l /\
  (forall v, v <> heir l -> get_shares v s' = get_shares v s) /\
  match al_winner l with
  | Some w =>
      (exists b, get_bid id w s = Some b /\ ab_revealed b = true /\
         ab_amount b = al_highest_bid l /\ ab_locked_amount b = al_highest_bid l) /\
      (forall u b, get_bid id u s = Some b -> ab_revealed b = true -> ab_amount b <= al_highest_bid l) /\
      balance_of token (self env) s' = balance_of token (self env) s - al_highest_bid l /\
      balance_of token (al_seller l) s' = balance_of token (al_seller l) s + al_highest_bid l
  | None => (forall u b, get_bid id u s = Some b -> ab_revealed b = false) /\ st_ext s' = st_ext s
  end.
Proof.
  intros Hok Htok Hl Hseller H. unfold settle_auction, reading at 1 in H.
  apply bind_Ok in H as (l' & ? & H1 & H). apply ok_or_Ok in H1 as [Hl' ->].
  rewrite Hl in Hl'. injection Hl' as <-.
  apply bind_Ok in H as (? & ? & H1 & H). apply fail_if_Ok in H1 as (Hset & _ & ->).
  apply bind_Ok in H as (? & ? & H1 & H). apply fail_if_Ok in H1 as (Hdl%Z.leb_gt & _ & ->).
  apply bind_Ok in H as (? & s1 & H1 & H).
  apply bind_Ok in H as (? & ? & H2 & H). apply del_Ok in H2 as [_ ->].
  apply bind_Ok in H as (? & ? & H2 & H). apply put_Ok in H2 as [_ ->]. apply publish_Ok in H as [_ ->].
  split; [done|]. split.
  { intros env2. unfold settle_auction, reading at 1, get_listing. rdsimp. done. }
  pose proof (ak_high _ _ (as_each _ Hok id) l Hl) as Hh. unfold highest_ok, heir in *.
  destruct (al_winner l) as [w|]; unfold reading in H1;
    apply bind_Ok in H1 as (n & ? & H2 & H1); apply plain_Ok in H2 as [[-> _]%checked_add_Some ->].
  - apply bind_Ok in H1 as (? & s2 & H2 & H1). apply set_shares_Ok in H2 as (_ & Hw & Ho & Hf & He).
    apply bind_Ok in H1 as (token' & ? & H2 & H1). unfold token_address, reading in H2.
    apply ok_or_Ok in H2 as [Ht ->].
    assert (token' = token) as ->.
    { rewrite Hf in Ht; [congruence|]. intros [?|[?|[?|(? & [?|?])]]]; done. }
    apply transfer_Ok in H1 as (wd & Hwd & _ & ->).
    destruct (std_moves _ _ _ _ _ _ (not_eq_sym Hseller) Hwd) as [Hb1 Hb2].
    split; [unfold get_shares in *; by rdsimp|].
    split; [intros v Hv; rewrite <- (Ho v Hv); unfold get_shares; by rdsimp|].
    destruct Hh as [? ?]. split; [done|]. split; [done|]. rdsimp. unfold balance_of in *. by rewrite <- He.
  - apply set_shares_Ok in H1 as (_ & Hw & Ho & Hf & He).
    split; [unfold get_shares in *; by rdsimp|].
    split; [intros v Hv; rewrite <- (Ho v Hv); unfold get_shares; by rdsimp|].
    destruct Hh as [? ?]. split; [done|]. exact He.
Qed.

(** ** An auction run on the concrete host *)

Definition pad32 (l : list Byte.byte) : list Byte.byte := take 32 (l ++ repeat Byte.x00 32).
Definition some_names : AuctionNames := {|
  MAX_AUCTION_BIDS := 50%nat;
  SellerAuctionAlreadyActive := VaultError.Unauthorized;
  AuctionNotFound := VaultError.PositionNotFound;
  AuctionAlreadySettled := VaultError.PositionNotFound;
  AuctionPhaseClosed := VaultError.PositionNotFound;
  BidNotFound := VaultError.PositionNotFound
|}.
Definition users_at (l : Z) : Env := mkEnv l (5 * l) 1%positive (fun a => negb (a =? 1)%positive).

(** User 2 holds 100 shares; everybody has 5000 tokens. *)
Definition auction_vault : State (W := token_world) :=
  upd (ShareBalance 2) (Some 100) (upd Token (Some 9%positive) (start_state (fun _ _ => 5000))).

(** Users 3 and 4 commit, both reveal, 4 bids more. *)
Definition auction_history : list (Env * auction_op) :=
  [(users_at 10, AList 2 50 10 10); (users_at 11, ACommit 3 0 (pad32 (preimage 60 [])));
   (users_at 12, ACommit 4 0 (pad32 (preimage 75 []))); (users_at 25, AReveal 3 0 60 []);
   (users_at 26, AReveal 4 0 75 [])].
Definition play (h : list (Env * auction_op)) (s : State (W := token_world)) : State :=
  fold_left (fun s eo => auction_perform (N := some_names) pad32 eo.1 eo.2 s) h s.

Lemma play_steps h s :
  Forall (fun eo => self eo.1 = 1%positive /\ signed eo.1 1%positive = false) h ->
  rtc (auction_step (N := some_names) pad32 9 1) s (play h s).
Proof.
  intros Hh. revert s. induction Hh as [|[e o] h [H1 H2] _ IH]; intros s; [apply rtc_refl|].
  eapply rtc_l; [|apply IH]. by apply as_op.
Qed.

Lemma auction_vault_none : no_auctions auction_vault.
Proof. intros k Hk. unfold auction_vault. rewrite !rd_upd_ne by (intros <-; done). done. Qed.

Lemma auctions_self_funded_witness :
  0 < sum_from (fun id => owes id (play auction_history auction_vault)) 0 1 /\
  sum_from (fun id => owes id (play auction_history auction_vault)) 0
    (Z.to_nat (next_auction (play auction_history auction_vault))) <=
  balance_of 9 1 (play auction_history auction_vault) - balance_of 9 1 auction_vault.
Proof.
  split; [vm_compute; reflexivity|].
  apply (auctions_self_funded (N := some_names) token_world_standard pad32 9 1 auction_vault
    (play auction_history auction_vault)).
  - reflexivity.
  - exact auction_vault_none.
  - apply play_steps. repeat constructor.
Defined.

Lemma settlement_to_highest_bid_witness :
  exists l s', get_listing 0 (play auction_history auction_vault) = Some l /\ al_winner l = Some 4%positive /\
    settle_auction (N := some_names) (users_at 40) 0 (play auction_history auction_vault) = Ok tt s' /\
    get_shares (heir l) s' = get_shares (heir l) (play auction_history auction_vault) + al_escrowed_shares l.
Proof.
  assert (Hok : auctions_ok (play auction_history auction_vault)).
  { apply (auction_steps_fund (N := some_names) pad32 9%positive 1%positive token_world_standard auction_vault).
    - reflexivity.
    - apply (no_auctions_ok 9%positive 1%positive), auction_vault_none.
    - apply play_steps. repeat constructor. }
  destruct (get_listing 0 (play auction_history auction_vault)) as [l|] eqn:Hl; [|by vm_compute in Hl].
  assert (Hw : al_winner l = Some 4%positive /\ al_seller l = 2%positive)
    by (vm_compute in Hl; injection Hl as <-; done).
  destruct (succeeds_run (settle_auction (N := some_names) (users_at 40) 0 (play auction_history auction_vault))
    (fun _ _ => true)) as ([] & s' & H & _); [vm_compute; reflexivity|].
  exists l, s'. split; [reflexivity|]. split; [apply Hw|]. split; [exact H|].
  apply (settlement_to_highest_bid (N := some_names) token_world_standard (users_at 40) 9 0 l _ s' Hok);
    [vm_compute; reflexivity|exact Hl| |exact H].
  destruct Hw as [_ ->]. discriminate.
Defined.
