(* ===== verification/Lockdrop.v ===== *)
(** * The lockdrop campaign ([lockdrop_campaign.rs])

    Users lock the stake token for a chosen number of ledgers and split a fixed
    reward pool in proportion to amount times duration.  [liability] is what
    the campaign owes a user: the locked principal and, until it has been
    claimed, the reward allocated. *)

From S2P Require Import Prelude Errors Storage Host Concrete Accessors Admin.

Definition MAX_COMMITTERS : nat := 500.

Section Lockdrop.
Context {W : World} (env : Env).
Implicit Types s : State.

Definition get_config s : option LockdropConfig := rd LdConfig s.
Definition set_config {E} (config : LockdropConfig) : M E unit := put LdConfig config.
Definition get_total_score s : Z := default 0 (rd LdTotalScore s).
Definition set_total_score {E} (score : Z) : M E unit := put LdTotalScore score.
Definition get_committers s : list Address := default [] (rd LdCommitters s).
Definition set_committers {E} (committers : list Address) : M E unit := put LdCommitters committers.
Definition get_commitment (user : Address) s : option LockdropCommitment := rd (LdCommitment user) s.
Definition get_allocation (user : Address) s : Z := default 0 (rd (LdAllocation user) s).
Definition is_claimed (user : Address) s : bool := default false (rd (LdClaimed user) s).
Definition token_address : M VaultCampaignError.t Address :=
  let& token := rd Token in
  ok_or token VaultCampaignError.NotInitialized.

Definition is_open_campaign (c : option LockdropConfig) : bool :=
  match c with Some cfg => negb (ld_finalized cfg) | None => false end.

Definition start_lockdrop (admin_addr : Address) (total_reward_pool max_lock_ledgers duration_ledgers : Z)
    : M VaultCampaignError.t unit :=
  require_auth env admin_addr ;;;
  try_ (require_admin env) ;;;
  let& existing := get_config in
  fail_if (is_open_campaign existing) VaultCampaignError.LockdropAlreadyActive ;;;
  fail_if (total_reward_pool <=? 0) VaultCampaignError.ZeroAmount ;;;
  fail_if ((max_lock_ledgers =? 0) || (duration_ledgers =? 0)) VaultCampaignError.InvalidLockDuration ;;;
  let! token_addr := token_address in
  transfer token_addr admin_addr (self env) total_reward_pool ;;;
  let ends_at := u32_sat_add (sequence env) duration_ledgers in
  set_config (mkLockdropConfig total_reward_pool max_lock_ledgers ends_at false) ;;;
  set_total_score 0 ;;;
  set_committers [] ;;;
  publish [VSym "ldrp_srt"] [VInt total_reward_pool; VInt max_lock_ledgers; VInt ends_at].

Definition commit_to_lockdrop (user : Address) (amount lock_duration_ledgers : Z)
    : M VaultCampaignError.t Z :=
  require_auth env user ;;;
  let& stored := get_config in
  let! cfg := ok_or stored VaultCampaignError.LockdropNotActive in
  fail_if (ld_finalized cfg) VaultCampaignError.LockdropAlreadyFinalized ;;;
  let current_ledger := sequence env in
  fail_if (ld_ends_at cfg <? current_ledger) VaultCampaignError.LockdropEnded ;;;
  fail_if (amount <=? 0) VaultCampaignError.ZeroAmount ;;;
  fail_if ((lock_duration_ledgers =? 0) || (ld_max_lock_ledgers cfg <? lock_duration_ledgers))
    VaultCampaignError.InvalidLockDuration ;;;
  let& existing := get_commitment user in
  fail_if (bool_decide (is_Some existing)) VaultCampaignError.AlreadyCommitted ;;;
  let& committers := get_committers in
  fail_if (MAX_COMMITTERS <=? length committers)%nat VaultCampaignError.LockdropFull ;;;
  let! token_addr := token_address in
  transfer token_addr user (self env) amount ;;;
  let! score := ok_or (checked_mul amount lock_duration_ledgers) VaultCampaignError.ArithmeticError in
  put (LdCommitment user) (mkLockdropCommitment amount lock_duration_ledgers score current_ledger) ;;;
  set_committers (committers ++ [user]) ;;;
  let& total_score := get_total_score in
  set_total_score (sat_add total_score score) ;;;
  publish [VSym "ldrp_cmt"; VAddr user] [VInt amount; VInt lock_duration_ledgers; VInt score] ;;;
  ret score.

(** One round of the loop of [finalize_lockdrop]; [total_score] is positive,
    so the division does not trap. *)
Definition allocate (cfg : LockdropConfig) (total_score : Z) (user : Address)
    : M VaultCampaignError.t unit :=
  let& commitment := get_commitment user in
  match commitment with
  | Some commitment =>
      put (LdAllocation user) (Z.quot (sat_mul (ld_total_reward_pool cfg) (lc_score commitment)) total_score)
  | None => ret tt
  end.

Definition finalized (cfg : LockdropConfig) : LockdropConfig :=
  mkLockdropConfig (ld_total_reward_pool cfg) (ld_max_lock_ledgers cfg) (ld_ends_at cfg) true.

Definition finalize_lockdrop (admin_addr : Address) : M VaultCampaignError.t unit :=
  require_auth env admin_addr ;;;
  try_ (require_admin env) ;;;
  let& stored := get_config in
  let! cfg := ok_or stored VaultCampaignError.LockdropNotActive in
  fail_if (ld_finalized cfg) VaultCampaignError.LockdropAlreadyFinalized ;;;
  fail_if (sequence env <=? ld_ends_at cfg) VaultCampaignError.LockdropNotEnded ;;;
  let& total_score := get_total_score in
  let& committers := get_committers in
  (if 0 <? total_score then for_each committers (allocate cfg total_score) else ret tt) ;;;
  set_config (finalized cfg) ;;;
  publish [VSym "ldrp_fin"]
    [VInt (ld_total_reward_pool cfg); VInt total_score; VInt (Z.of_nat (length committers))].

Definition claim_lockdrop_reward (user : Address) : M VaultCampaignError.t Z :=
  require_auth env user ;;;
  let& stored := get_config in
  let! cfg := ok_or stored VaultCampaignError.LockdropNotActive in
  fail_if (negb (ld_finalized cfg)) VaultCampaignError.LockdropNotFinalized ;;;
  let& commitment := get_commitment user in
  fail_if (negb (bool_decide (is_Some commitment))) VaultCampaignError.CommitmentNotFound ;;;
  let& claimed := is_claimed user in
  fail_if claimed VaultCampaignError.AlreadyClaimed ;;;
  let& allocation := get_allocation user in
  fail_if (allocation <=? 0) VaultCampaignError.NothingToClaim ;;;
  let! token_addr := token_address in
  transfer token_addr (self env) user allocation ;;;
  put (LdClaimed user) true ;;;
  publish [VSym "ldrp_clm"; VAddr user] [VInt allocation] ;;;
  ret allocation.

Definition unlock_at (c : LockdropCommitment) : Z :=
  u32_sat_add (lc_committed_at c) (lc_lock_duration_ledgers c).

Definition exit_lockdrop (user : Address) : M VaultCampaignError.t Z :=
  require_auth env user ;;;
  let& stored := get_commitment user in
  let! commitment := ok_or stored VaultCampaignError.CommitmentNotFound in
  fail_if (sequence env <? unlock_at commitment) VaultCampaignError.LockStillActive ;;;
  let! token_addr := token_address in
  transfer token_addr (self env) user (lc_locked_amount commitment) ;;;
  del (LdCommitment user) ;;;
  publish [VSym "ldrp_ext"; VAddr user] [VInt (lc_locked_amount commitment)] ;;;
  ret (lc_locked_amount commitment).

End Lockdrop.

(** ** What the campaign owes *)

Section Owed.
Context {W : World}.
Implicit Types s : State.

Definition locked (u : Address) s : Z :=
  match get_commitment u s with Some c => lc_locked_amount c | None => 0 end.
Definition score_of (u : Address) s : Z :=
  match get_commitment u s with Some c => lc_score c | None => 0 end.
Definition unclaimed (u : Address) s : Z := if is_claimed u s then 0 else get_allocation u s.
Definition liability (u : Address) s : Z := locked u s + unclaimed u s.
(** The reward pool not yet split. *)
Definition open_pool s : Z :=
  match get_config s with
  | Some cfg => if ld_finalized cfg then 0 else ld_total_reward_pool cfg
  | None => 0
  end.

Record lockdrop_ok s : Prop := {
  lo_locked : forall u c, get_commitment u s = Some c ->
    0 <= lc_locked_amount c /\ 0 <= lc_score c /\ lc_score c = lc_locked_amount c * lc_lock_duration_ledgers c;
  lo_alloc : forall u, 0 <= get_allocation u s;
  lo_pool : 0 <= open_pool s;
  lo_total : 0 <= get_total_score s;
  lo_sum : get_total_score s < i128_max -> is_open_campaign (get_config s) = true ->
    forall U, NoDup U -> (forall u, u ∈ U -> u ∈ get_committers s) ->
    sum_of (fun u => score_of u s) U <= get_total_score s
}.

(** The vault's tokens beyond [base] cover the campaign's liabilities to any
    set of users and the pool. *)
Definition covered (token me : Address) (base : Z) s : Prop :=
  forall U, NoDup U -> sum_of (fun u => liability u s) U + open_pool s <= balance_of token me s - base.

Lemma locked_nonneg u s : lockdrop_ok s -> 0 <= locked u s.
Proof.
  intros H. unfold locked. destruct (get_commitment u s) as [c|] eqn:Hc; [|lia]. by destruct (lo_locked _ H u c Hc).
Qed.
Lemma unclaimed_nonneg u s : lockdrop_ok s -> 0 <= unclaimed u s.
Proof. intros H. unfold unclaimed. destruct (is_claimed u s); [lia|]. by apply lo_alloc. Qed.

(** One user's liability changes by [d], the pool by [p], the balance by at
    least both. *)
Lemma covered_update token me base s s' u :
  covered token me base s -> (forall v, v <> u -> liability v s' = liability v s) ->
  liability u s' - liability u s + (open_pool s' - open_pool s) <=
    balance_of token me s' - balance_of token me s ->
  open_pool s' - open_pool s <= balance_of token me s' - balance_of token me s \/ liability u s' <= liability u s ->
  0 <= liability u s' ->
  covered token me base s'.
Proof.
  intros Hc Ho Hle Hor Hp U HU. destruct (decide (u ∈ U)) as [Hin|Hin].
  - rewrite (sum_of_change (fun v => liability v s) (fun v => liability v s') U u) by (done || by symmetry; auto).
    specialize (Hc U HU). lia.
  - rewrite (sum_of_ext (fun v => liability v s') (fun v => liability v s)).
    + destruct Hor as [Hor|Hor]; [specialize (Hc U HU); lia|].
      specialize (Hc (u :: U) (NoDup_cons_2 _ _ Hin HU)). simpl in Hc. lia.
    + intros v Hv. apply Ho. by intros ->.
Qed.

(** Splitting [pool] in proportion to scores that sum to at most the total
    gives away at most the pool. *)
Lemma split_le pool total (f : Address -> Z) U :
  0 <= pool -> 0 < total -> (forall u, 0 <= f u) -> sum_of f U <= total ->
  sum_of (fun u => Z.quot (sat_mul pool (f u)) total) U <= pool.
Proof.
  intros Hp Ht Hf Hs. apply (Z.mul_le_mono_pos_r _ _ total Ht).
  transitivity (pool * sum_of f U); [|nia]. clear Hs. induction U as [|u U IH]; simpl; [lia|].
  assert (Z.quot (sat_mul pool (f u)) total * total <= pool * f u); [|nia].
  specialize (Hf u). assert (0 <= pool * f u) as Hm by nia. pose proof (clamp_nonneg _ Hm) as Hc.
  unfold sat_mul. rewrite quot_floor by lia. pose proof (Z.mul_div_le (clamp_i128 (pool * f u)) total Ht). lia.
Qed.

(** The allocations of a finalization. *)
Lemma allocate_all cfg total us s x s' :
  for_each us (allocate cfg total) s = Ok x s' ->
  st_ext s' = st_ext s /\
  (forall k, (forall u, k <> KFeat (LdAllocation u)) -> rd k s' = rd k s) /\
  forall u, get_allocation u s' =
    if bool_decide (u ∈ us /\ is_Some (get_commitment u s)) then
      Z.quot (sat_mul (ld_total_reward_pool cfg) (score_of u s)) total
    else get_allocation u s.
Proof.
  revert s. induction us as [|v us IH]; intros s H; cbn [for_each] in H.
  - apply ret_Ok in H as [_ ->]. split; [done|]. split; [done|]. intros u.
    rewrite bool_decide_eq_false_2; [done|]. intros [Hu _]. by apply elem_of_nil in Hu.
  - apply bind_Ok in H as (? & s1 & H1 & H). apply IH in H as (He & Hf & Ha).
    assert (H1' : st_ext s1 = st_ext s /\ (forall k, (forall u, k <> KFeat (LdAllocation u)) -> rd k s1 = rd k s) /\
      forall u, get_allocation u s1 = if bool_decide (u = v /\ is_Some (get_commitment u s)) then
        Z.quot (sat_mul (ld_total_reward_pool cfg) (score_of u s)) total else get_allocation u s).
    { unfold allocate, reading in H1. destruct (get_commitment v s) as [c|] eqn:Hc.
      - apply put_Ok in H1 as [_ ->]. split; [done|]. split; [intros k Hk; apply rd_upd_ne; congruence|].
        intros u. unfold get_allocation at 1. destruct (decide (u = v)) as [->|Hne].
        + rewrite bool_decide_eq_true_2 by (rewrite Hc; eauto). rdsimp. unfold score_of. by rewrite Hc.
        + rewrite bool_decide_eq_false_2 by tauto. by rdsimp.
      - apply ret_Ok in H1 as [_ ->]. split; [done|]. split; [done|]. intros u.
        rewrite bool_decide_eq_false_2; [done|]. intros [-> Hs]. rewrite Hc in Hs. by destruct Hs. }
    destruct H1' as (He1 & Hf1 & Ha1). split; [congruence|].
    split; [intros k Hk; rewrite Hf by done; by apply Hf1|]. intros u. rewrite Ha, Ha1.
    assert (Hg : get_commitment u s1 = get_commitment u s) by (unfold get_commitment; by rewrite Hf1).
    unfold score_of. rewrite Hg. destruct (decide (u = v)) as [->|Hne].
    + destruct (decide (is_Some (get_commitment v s))) as [Hs|Hs].
      * rewrite (bool_decide_eq_true_2 (v = v /\ _)), (bool_decide_eq_true_2 (v ∈ v :: us /\ _)) by set_solver.
        by destruct (bool_decide _).
      * rewrite !bool_decide_eq_false_2 by tauto. done.
    + rewrite (bool_decide_eq_false_2 (u = v /\ _)) by tauto.
      replace (bool_decide (u ∈ v :: us /\ is_Some (get_commitment u s)))
        with (bool_decide (u ∈ us /\ is_Some (get_commitment u s))); [done|].
      apply bool_decide_ext. set_solver.
Qed.

End Owed.

(** ** Every operation keeps the liabilities covered *)

Section Ops.
Context {W : World} (HT : StandardTokens W) (env : Env).
Implicit Types s : State.

Definition sound (token : Address) (base : Z) s : Prop := lockdrop_ok s /\ covered token (self env) base s.

(** The entries of the campaign. *)
Definition ld_key (k : key) : bool :=
  match k with
  | KFeat LdConfig | KFeat LdTotalScore | KFeat LdCommitters | KFeat (LdCommitment _)
  | KFeat (LdAllocation _) | KFeat (LdClaimed _) => true
  | _ => false
  end.
Definition same_campaign s s' : Prop := forall k, ld_key k = true -> rd k s' = rd k s.

Lemma same_campaign_reads s s' u :
  same_campaign s s' -> get_config s' = get_config s /\ get_total_score s' = get_total_score s /\
  get_committers s' = get_committers s /\ get_commitment u s' = get_commitment u s /\
  get_allocation u s' = get_allocation u s /\ is_claimed u s' = is_claimed u s.
Proof.
  intros H. unfold get_config, get_total_score, get_committers, get_commitment, get_allocation, is_claimed.
  rewrite !H by done. done.
Qed.

Lemma sound_same token base s s' :
  sound token base s -> same_campaign s s' ->
  balance_of token (self env) s <= balance_of token (self env) s' -> sound token base s'.
Proof.
  intros [[A1 A2 A3 A4 A5] Hc] Hs Hb.
  destruct (same_campaign_reads s s' 1%positive Hs) as (Hcfg & Htot & Hcm & _).
  assert (Hu : forall u, get_commitment u s' = get_commitment u s /\ get_allocation u s' = get_allocation u s /\
     is_claimed u s' = is_claimed u s) by (intros u; by destruct (same_campaign_reads s s' u Hs) as (_ & _ & _ & ? & ? & ?)).
  assert (Hp : open_pool s' = open_pool s) by (unfold open_pool; by rewrite Hcfg).
  split; [split|].
  - intros u c. destruct (Hu u) as (-> & _). apply A1.
  - intros u. destruct (Hu u) as (_ & -> & _). apply A2.
  - by rewrite Hp.
  - by rewrite Htot.
  - rewrite Htot, Hcfg. intros H1 H2 U HU Hin. rewrite (sum_of_ext _ (fun u => score_of u s)).
    + apply A5; [done..|]. intros u Hu'. rewrite <- Hcm. auto.
    + intros u _. unfold score_of. by destruct (Hu u) as (-> & _).
  - intros U HU. specialize (Hc U HU). rewrite Hp, (sum_of_ext _ (fun u => liability u s)); [lia|].
    intros u _. unfold liability, locked, unclaimed. by destruct (Hu u) as (-> & -> & ->).
Qed.

Lemma sound_emit token base s e : sound token base s -> sound token base (emit e s).
Proof. intros H. eapply sound_same; [exact H|intros k _; by rdsimp|by rdsimp]. Qed.

Lemma token_Ok s t s' token : rd Token s = Some token -> token_address s = Ok t s' -> t = token /\ s' = s.
Proof. unfold token_address, reading. intros Ht [H ->]%ok_or_Ok. split; congruence. Qed.

Lemma transfer_to_vault E token from amt s x s' :
  from <> self env -> transfer (E:=E) token from (self env) amt s = Ok x s' ->
  balance_of token (self env) s' = balance_of token (self env) s + amt /\ forall k, rd k s' = rd k s.
Proof.
  intros Hne (w & Hw & _ & ->)%transfer_Ok. destruct (std_moves _ _ _ _ _ _ Hne Hw) as [_ H].
  split; [exact H|]. intros k. by rdsimp.
Qed.
Lemma transfer_from_vault E token to amt s x s' :
  to <> self env -> transfer (E:=E) token (self env) to amt s = Ok x s' ->
  balance_of token (self env) s' = balance_of token (self env) s - amt /\ forall k, rd k s' = rd k s.
Proof.
  intros Hne (w & Hw & _ & ->)%transfer_Ok.
  destruct (std_moves _ _ _ _ _ _ (not_eq_sym Hne) Hw) as [H _]. split; [exact H|]. intros k. by rdsimp.
Qed.

(** Adding the score [sc] of a user [u] who had none. *)
Lemma commit_sum (f g : Address -> Z) cs u sc total :
  0 <= total -> 0 <= sc -> sat_add total sc < i128_max ->
  (total < i128_max -> forall U, NoDup U -> (forall v, v ∈ U -> v ∈ cs) -> sum_of f U <= total) ->
  (forall v, v <> u -> g v = f v) -> f u = 0 -> g u = sc ->
  forall U, NoDup U -> (forall v, v ∈ U -> v ∈ cs ++ [u]) -> sum_of g U <= sat_add total sc.
Proof.
  intros Ht Hsc Hlt Hsum Hg Hfu Hgu U HU Hin.
  assert (Hsat : sat_add total sc = total + sc).
  { revert Hlt. unfold sat_add, clamp_i128, i128_min, i128_max. lia. }
  rewrite Hsat in *. destruct (decide (u ∈ U)) as [Hu|Hu].
  - apply list_elem_of_split in Hu as (l1 & l2 & ->). rewrite sum_of_app. simpl.
    apply NoDup_app in HU as (N1 & N2 & N3). apply NoDup_cons in N3 as [N3 N4].
    assert (Hle : sum_of f (l1 ++ l2) <= total).
    { apply Hsum; [lia| |].
      - apply NoDup_app. split; [done|]. split; [|done]. intros v Hv Hv'. apply (N2 v Hv). set_solver.
      - intros v Hv. specialize (Hin v ltac:(set_solver)). apply elem_of_app in Hin as [?|Hin]; [done|].
        apply list_elem_of_singleton in Hin as ->. apply elem_of_app in Hv as [Hv|Hv]; [|done].
        destruct (N2 u Hv). set_solver. }
    rewrite sum_of_app in Hle. rewrite (sum_of_ext g f l1), (sum_of_ext g f l2); [lia| |].
    + intros v Hv. apply Hg. by intros ->.
    + intros v Hv. apply Hg. intros ->. destruct (N2 u Hv). set_solver.
  - rewrite (sum_of_ext g f U); [|intros v Hv; apply Hg; by intros ->].
    enough (sum_of f U <= total) by lia. apply Hsum; [lia|done|]. intros v Hv.
    specialize (Hin v Hv). apply elem_of_app in Hin as [?|Hin]; [done|].
    apply list_elem_of_singleton in Hin as ->. done.
Qed.

(** A change of one user's entries that leaves the score books alone. *)
Lemma one_user_sound u token base s s' :
  lockdrop_ok s -> covered token (self env) base s ->
  (forall v, v <> u -> get_commitment v s' = get_commitment v s /\ get_allocation v s' = get_allocation v s /\
     is_claimed v s' = is_claimed v s) ->
  (get_commitment u s' = get_commitment u s \/ get_commitment u s' = None) ->
  get_allocation u s' = get_allocation u s ->
  get_config s' = get_config s -> get_total_score s' = get_total_score s -> get_committers s' = get_committers s ->
  liability u s' - liability u s <= balance_of token (self env) s' - balance_of token (self env) s ->
  liability u s' <= liability u s -> 0 <= liability u s' ->
  lockdrop_ok s' /\ covered token (self env) base s'.
Proof.
  intros Hok Hc Ho Hcu Hau Hcfg Htot Hcm Hle Hdec Hpos.
  assert (Hp : open_pool s' = open_pool s) by (unfold open_pool; by rewrite Hcfg).
  assert (Hcs : forall v c, get_commitment v s' = Some c -> get_commitment v s = Some c).
  { intros v c. destruct (decide (v = u)) as [->|Hv]; [|by destruct (Ho v Hv) as (-> & _)].
    destruct Hcu as [-> | ->]; done. }
  assert (Hsc : forall v, score_of v s' <= score_of v s).
  { intros v. unfold score_of at 1. destruct (get_commitment v s') as [c|] eqn:Hv.
    - apply Hcs in Hv. unfold score_of. rewrite Hv. lia.
    - unfold score_of. destruct (get_commitment v s) as [c|] eqn:Hv'; [|lia].
      by destruct (lo_locked _ Hok v c Hv') as (_ & ? & _). }
  split; [split|].
  - intros v c Hv. eapply lo_locked; eauto.
  - intros v. destruct (decide (v = u)) as [->|Hv]; [rewrite Hau|destruct (Ho v Hv) as (_ & -> & _)]; apply Hok.
  - rewrite Hp. apply Hok.
  - rewrite Htot. apply Hok.
  - rewrite Htot, Hcfg, Hcm. intros H1 H2 U HU Hin. transitivity (sum_of (fun v => score_of v s) U).
    + clear HU Hin. induction U as [|v U IH]; simpl; [lia|]. specialize (Hsc v). lia.
    + by apply (lo_sum _ Hok).
  - apply (covered_update token (self env) base s s' u Hc).
    + intros v Hv. unfold liability, locked, unclaimed. by destruct (Ho v Hv) as (-> & -> & ->).
    + rewrite Hp. lia.
    + by right.
    + done.
Qed.

Ltac auth H Hne := let H1 := fresh in
  apply bind_Ok in H as (? & ? & H1 & H); apply require_auth_Ok in H1 as (Hne & _ & ->).
Ltac passed H G := let H1 := fresh in
  apply bind_Ok in H as (? & ? & H1 & H); apply fail_if_Ok in H1 as (G & _ & ->).

(** The sum over [U] after a finalization, for [finalize_sound]. *)
Lemma finalize_sum s s1 s2 pool total :
  lockdrop_ok s -> (forall u, 0 <= score_of u s) ->
  (forall u, get_allocation u s1 =
     if bool_decide (0 < total /\ u ∈ get_committers s /\ is_Some (get_commitment u s)) then
       Z.quot (sat_mul pool (score_of u s)) total else get_allocation u s) ->
  (forall u, get_commitment u s2 = get_commitment u s) ->
  (forall u, get_allocation u s2 = get_allocation u s1) -> (forall u, is_claimed u s2 = is_claimed u s) ->
  0 <= pool ->
  (forall V, NoDup V -> (forall u, u ∈ V -> u ∈ get_committers s) -> sum_of (fun u => score_of u s) V <= total) ->
  forall U, NoDup U -> sum_of (fun u => liability u s2) U <= sum_of (fun u => liability u s) U + pool.
Proof.
  intros Hok Hsc Ha Hg Ha2 Hcl Hpool Hsum U HU.
  set (V := filter (fun u => 0 < total /\ u ∈ get_committers s /\ is_Some (get_commitment u s)) U).
  assert (Hle : sum_of (fun u => liability u s2) U <=
    sum_of (fun u => liability u s) U + sum_of (fun u => Z.quot (sat_mul pool (score_of u s)) total) V).
  { clear HU. unfold V. clear V. induction U as [|u U IH]; [done|]. rewrite filter_cons. simpl sum_of at 1 2.
    assert (Hlu : liability u s2 = locked u s + (if is_claimed u s then 0 else get_allocation u s1)).
    { unfold liability, locked, unclaimed. by rewrite Hg, Ha2, Hcl. }
    assert (Hlu0 : liability u s = locked u s + (if is_claimed u s then 0 else get_allocation u s)) by done.
    rewrite Hlu, Hlu0, Ha. pose proof (lo_alloc _ Hok u).
    destruct (decide (0 < total /\ u ∈ get_committers s /\ is_Some (get_commitment u s))) as [Hb|Hb].
    - rewrite bool_decide_eq_true_2 by done. simpl.
      assert (0 <= Z.quot (sat_mul pool (score_of u s)) total).
      { specialize (Hsc u). assert (0 <= sat_mul pool (score_of u s)) by (apply clamp_nonneg; nia).
        rewrite quot_floor by tauto. apply Z.div_pos; tauto. }
      simpl in *; destruct (is_claimed u s); lia.
    - rewrite bool_decide_eq_false_2 by done. destruct (is_claimed u s); lia. }
  enough (sum_of (fun u => Z.quot (sat_mul pool (score_of u s)) total) V <= pool) by lia.
  destruct (decide (0 < total)) as [Hpos|Hz].
  - apply (split_le pool total (fun u => score_of u s)); [done..|]. apply Hsum.
    + by apply NoDup_filter.
    + intros u Hu. apply list_elem_of_filter in Hu. tauto.
  - assert (V = []) as ->; [|done]. destruct V as [|u V'] eqn:HV; [done|].
    assert (Hu : u ∈ V) by (rewrite HV; set_solver). unfold V in Hu. apply list_elem_of_filter in Hu. tauto.
Qed.

Lemma start_sound a pool maxl dur token base s s' :
  signed env (self env) = false -> rd Token s = Some token -> sound token base s ->
  start_lockdrop env a pool maxl dur s = Ok tt s' -> sound token base s'.
Proof.
  intros Hself Htok [Hok Hc] H. unfold start_lockdrop in H. auth H Hs.
  assert (Hne : a <> self env) by congruence.
  apply bind_Ok in H as (? & ? & H1 & H). apply (proj1 (try_Ok _ _ _ _)) in H1.
  apply require_admin_Ok in H1 as (? & _ & _ & _ & _ & ->).
  unfold reading in H. passed H Hopen. passed H Hpool. passed H Hdur. apply Z.leb_gt in Hpool.
  apply bind_Ok in H as (? & ? & H1 & H). apply (token_Ok _ _ _ _ Htok) in H1 as [-> ->].
  apply bind_Ok in H as (? & s1 & H1 & H). apply transfer_to_vault in H1 as [Hb Hrd]; [|done].
  apply bind_Ok in H as (? & ? & H1 & H). apply put_Ok in H1 as [_ ->].
  apply bind_Ok in H as (? & ? & H1 & H). apply put_Ok in H1 as [_ ->].
  apply bind_Ok in H as (? & ? & H1 & H). apply put_Ok in H1 as [_ ->].
  apply publish_Ok in H as [_ ->]. apply sound_emit. set (s2 := upd LdCommitters _ _).
  assert (Hg : forall u, get_commitment u s2 = get_commitment u s)
    by (intros; unfold s2, get_commitment; rdsimp; by rewrite Hrd).
  assert (Ha : forall u, get_allocation u s2 = get_allocation u s)
    by (intros; unfold s2, get_allocation; rdsimp; by rewrite Hrd).
  assert (Hcl : forall u, is_claimed u s2 = is_claimed u s)
    by (intros; unfold s2, is_claimed; rdsimp; by rewrite Hrd).
  assert (Hp : open_pool s2 = pool) by (unfold s2, open_pool, get_config; by rdsimp).
  assert (Hp0 : open_pool s = 0).
  { unfold open_pool. destruct (get_config s) as [cfg|]; [|done]. simpl in Hopen. by destruct (ld_finalized cfg). }
  assert (Hb2 : balance_of token (self env) s2 = balance_of token (self env) s1) by (unfold s2; by rdsimp).
  assert (Hl : forall u, liability u s2 = liability u s)
    by (intros; unfold liability, locked, unclaimed; by rewrite Hg, Ha, Hcl).
  split; [split|].
  - intros u c. rewrite Hg. apply Hok.
  - intros u. rewrite Ha. apply Hok.
  - lia.
  - unfold s2, get_total_score. by rdsimp.
  - intros _ _ U _ HU. assert (U = []) as ->.
    { destruct U as [|u U]; [done|]. specialize (HU u ltac:(set_solver)). unfold s2, get_committers in HU.
      revert HU. rdsimp. simpl. set_solver. }
    unfold s2, get_total_score. rdsimp. done.
  - apply (covered_update token (self env) base s s2 a Hc); [by intros|..]; rewrite ?Hl.
    + rewrite Hp, Hp0, Hb2. lia.
    + left. rewrite Hp, Hp0, Hb2. lia.
    + pose proof (locked_nonneg a s Hok). pose proof (unclaimed_nonneg a s Hok). unfold liability. lia.
Qed.

Lemma commit_sound u amount dur token base s x s' :
  signed env (self env) = false -> rd Token s = Some token -> 0 <= dur ->
  sound token base s -> commit_to_lockdrop env u amount dur s = Ok x s' -> sound token base s'.
Proof.
  intros Hself Htok Hdur0 [Hok Hc] H. unfold commit_to_lockdrop in H. auth H Hs.
  assert (Hne : u <> self env) by congruence. unfold reading at 1 in H.
  apply bind_Ok in H as (cfg & ? & H1 & H). apply ok_or_Ok in H1 as [Hcfg ->].
  passed H Hfin. passed H Hend. passed H Hamt. passed H Hdur. unfold reading at 1 in H. passed H Hnone.
  apply bool_decide_eq_false in Hnone. rewrite <- eq_None_not_Some in Hnone.
  unfold reading at 1 in H. passed H Hfull. apply Z.leb_gt in Hamt. apply orb_false_iff in Hdur as [Hd0 _].
  apply bind_Ok in H as (? & ? & H1 & H). apply (token_Ok _ _ _ _ Htok) in H1 as [-> ->].
  apply bind_Ok in H as (? & s1 & H1 & H). apply transfer_to_vault in H1 as [Hb Hrd]; [|done].
  apply bind_Ok in H as (sc & ? & H1 & H). apply ok_or_Ok in H1 as [[-> Hsc]%checked_mul_Some ->].
  apply bind_Ok in H as (? & ? & H1 & H). apply put_Ok in H1 as [_ ->].
  apply bind_Ok in H as (? & ? & H1 & H). apply put_Ok in H1 as [_ ->]. unfold reading at 1 in H.
  apply bind_Ok in H as (? & ? & H1 & H). apply put_Ok in H1 as [_ ->].
  apply bind_Ok in H as (? & ? & H1 & H). apply publish_Ok in H1 as [_ ->]. apply ret_Ok in H as [_ ->].
  apply sound_emit. set (s2 := upd LdTotalScore _ _). set (sc := amount * dur).
  set (c := mkLockdropCommitment amount dur sc (sequence env)).
  assert (Hscpos : 0 <= sc) by (unfold sc; nia).
  assert (Hgu : get_commitment u s2 = Some c) by (unfold s2, get_commitment; by rdsimp).
  assert (Hg : forall v, v <> u -> get_commitment v s2 = get_commitment v s)
    by (intros; unfold s2, get_commitment; rdsimp; by rewrite Hrd).
  assert (Ha : forall v, get_allocation v s2 = get_allocation v s)
    by (intros; unfold s2, get_allocation; rdsimp; by rewrite Hrd).
  assert (Hcl : forall v, is_claimed v s2 = is_claimed v s)
    by (intros; unfold s2, is_claimed; rdsimp; by rewrite Hrd).
  assert (Hc2 : get_config s2 = Some cfg).
  { rewrite <- Hcfg. unfold s2, get_config. rdsimp. by rewrite Hrd. }
  assert (Hp : open_pool s2 = open_pool s) by (unfold open_pool; by rewrite Hc2, Hcfg).
  assert (Ht2 : get_total_score s2 = sat_add (get_total_score s) sc).
  { unfold s2, get_total_score. rdsimp. simpl. by rewrite Hrd. }
  assert (Hcm : get_committers s2 = get_committers s ++ [u]).
  { unfold s2, get_committers. rdsimp. simpl. done. }
  assert (Hb2 : balance_of token (self env) s2 = balance_of token (self env) s1) by (unfold s2; by rdsimp).
  assert (Hlu : liability u s2 = liability u s + amount).
  { unfold liability, locked, unclaimed. rewrite Hgu, Hnone, Ha, Hcl. simpl. lia. }
  pose proof (unclaimed_nonneg u s Hok) as Hun. pose proof (locked_nonneg u s Hok) as Hlk.
  split; [split|].
  - intros v d. destruct (decide (v = u)) as [->|Hv].
    + rewrite Hgu. intros [= <-]. simpl. split; [lia|done].
    + rewrite Hg by done. apply Hok.
  - intros v. rewrite Ha. apply Hok.
  - rewrite Hp. apply Hok.
  - rewrite Ht2. pose proof (lo_total _ Hok). apply clamp_nonneg. lia.
  - rewrite Ht2, Hcm. intros Hlt _. pose proof (lo_total _ Hok) as Ht0.
    apply (commit_sum (fun v => score_of v s)); [done..| |by intros v Hv; unfold score_of; rewrite Hg| |].
    + intros Hlt'. apply (lo_sum _ Hok Hlt'). rewrite Hcfg. simpl. by rewrite Hfin.
    + unfold score_of. by rewrite Hnone.
    + unfold score_of. by rewrite Hgu.
  - apply (covered_update token (self env) base s s2 u Hc).
    + intros v Hv. unfold liability, locked, unclaimed. by rewrite Hg, Ha, Hcl by done.
    + rewrite Hp, Hb2, Hlu. lia.
    + left. rewrite Hp, Hb2. lia.
    + rewrite Hlu. unfold liability. lia.
Qed.


Lemma finalize_sound a token base s s' :
  get_total_score s < i128_max -> sound token base s ->
  finalize_lockdrop env a s = Ok tt s' -> sound token base s'.
Proof.
  intros Hsat [Hok Hc] H. unfold finalize_lockdrop in H. auth H Hs.
  apply bind_Ok in H as (? & ? & H1 & H). apply (proj1 (try_Ok _ _ _ _)) in H1.
  apply require_admin_Ok in H1 as (? & _ & _ & _ & _ & ->). unfold reading at 1 in H.
  apply bind_Ok in H as (cfg & ? & H1 & H). apply ok_or_Ok in H1 as [Hcfg ->].
  passed H Hfin. passed H Hend. unfold reading in H.
  apply bind_Ok in H as (? & s1 & H1 & H). apply bind_Ok in H as (? & ? & H2 & H). apply put_Ok in H2 as [_ ->].
  apply publish_Ok in H as [_ ->]. apply sound_emit. set (s2 := upd LdConfig _ _).
  set (total := get_total_score s) in *. set (pool := ld_total_reward_pool cfg).
  assert (Hopen : is_open_campaign (get_config s) = true) by (rewrite Hcfg; simpl; by rewrite Hfin).
  assert (Hpool : open_pool s = pool) by (unfold open_pool; by rewrite Hcfg, Hfin).
  assert (Ha : st_ext s1 = st_ext s /\ (forall k, (forall u, k <> KFeat (LdAllocation u)) -> rd k s1 = rd k s) /\
    forall u, get_allocation u s1 =
      if bool_decide (0 < total /\ u ∈ get_committers s /\ is_Some (get_commitment u s)) then
        Z.quot (sat_mul pool (score_of u s)) total else get_allocation u s).
  { destruct (Z.ltb_spec 0 total) as [Hpos|Hz].
    - apply allocate_all in H1 as (He & Hf & Ha). split; [done|]. split; [done|]. intros u. rewrite Ha.
      erewrite bool_decide_ext; [reflexivity|]. tauto.
    - apply ret_Ok in H1 as [_ ->]. split; [done|]. split; [done|]. intros u.
      rewrite bool_decide_eq_false_2; [done|]. lia. }
  clear H1. destruct Ha as (He & Hf & Ha).
  assert (Hg : forall u, get_commitment u s2 = get_commitment u s)
    by (intros; unfold s2, get_commitment; rdsimp; by rewrite Hf).
  assert (Ha2 : forall u, get_allocation u s2 = get_allocation u s1)
    by (intros; unfold s2, get_allocation; by rdsimp).
  assert (Hcl : forall u, is_claimed u s2 = is_claimed u s)
    by (intros; unfold s2, is_claimed; rdsimp; by rewrite Hf).
  assert (Hp2 : open_pool s2 = 0) by (unfold s2, open_pool, get_config; by rdsimp).
  assert (Ht2 : get_total_score s2 = total) by (unfold s2, get_total_score; rdsimp; by rewrite Hf).
  assert (Hc2 : get_config s2 = Some (finalized cfg)) by (unfold s2, get_config; by rdsimp).
  assert (Hb2 : balance_of token (self env) s2 = balance_of token (self env) s)
    by (unfold s2; rdsimp; unfold balance_of; by rewrite He).
  assert (Hsc : forall u, 0 <= score_of u s).
  { intros u. unfold score_of. destruct (get_commitment u s) as [c|] eqn:Hu; [|done].
    by destruct (lo_locked _ Hok u c Hu) as (_ & ? & _). }
  assert (Hpos : forall u, 0 <= get_allocation u s1).
  { intros u. rewrite Ha. case_bool_decide as Hb; [|apply Hok]. destruct Hb as [Hb _].
    rewrite quot_floor; [apply Z.div_pos; [|done]|..]; try done; apply clamp_nonneg;
      pose proof (lo_pool _ Hok) as Hpl; rewrite Hpool in Hpl; specialize (Hsc u); nia. }
  split; [split|].
  - intros u c. rewrite Hg. apply Hok.
  - intros u. rewrite Ha2. apply Hpos.
  - lia.
  - rewrite Ht2. apply Hok.
  - rewrite Hc2. done.
  - intros U HU. rewrite Hp2, Hb2. specialize (Hc U HU). rewrite Hpool in Hc.
    assert (sum_of (fun u => liability u s2) U <= sum_of (fun u => liability u s) U + pool); [|lia].
    apply (finalize_sum s s1 s2 pool total Hok Hsc Ha Hg Ha2 Hcl); [by rewrite <- Hpool; apply Hok| |done].
    intros V. by apply (lo_sum _ Hok Hsat Hopen).
Qed.

Lemma claim_sound u token base s x s' :
  signed env (self env) = false -> rd Token s = Some token -> sound token base s ->
  claim_lockdrop_reward env u s = Ok x s' -> sound token base s'.
Proof.
  intros Hself Htok [Hok Hc] H. unfold claim_lockdrop_reward in H. auth H Hs.
  assert (Hne : u <> self env) by congruence. unfold reading at 1 in H.
  apply bind_Ok in H as (cfg & ? & H1 & H). apply ok_or_Ok in H1 as [Hcfg ->].
  passed H Hfin. unfold reading in H. passed H Hcm. passed H Hcl. passed H Hal. apply Z.leb_gt in Hal.
  apply bind_Ok in H as (? & ? & H1 & H). apply (token_Ok _ _ _ _ Htok) in H1 as [-> ->].
  apply bind_Ok in H as (? & s1 & H1 & H). apply transfer_from_vault in H1 as [Hb Hrd]; [|done].
  apply bind_Ok in H as (? & ? & H1 & H). apply put_Ok in H1 as [_ ->].
  apply bind_Ok in H as (? & ? & H1 & H). apply publish_Ok in H1 as [_ ->]. apply ret_Ok in H as [_ ->].
  apply sound_emit. set (s2 := upd (LdClaimed u) _ _).
  assert (Hf : forall k, k <> KFeat (LdClaimed u) -> rd k s2 = rd k s)
    by (intros k Hk; unfold s2; rewrite rd_upd_ne by congruence; apply Hrd).
  assert (Hcu : is_claimed u s2 = true) by (unfold s2, is_claimed; by rdsimp).
  assert (Hu : get_commitment u s2 = get_commitment u s) by (unfold get_commitment; by rewrite Hf).
  assert (Ha : get_allocation u s2 = get_allocation u s) by (unfold get_allocation; by rewrite Hf).
  assert (Hb2 : balance_of token (self env) s2 = balance_of token (self env) s1) by (unfold s2; by rdsimp).
  assert (Hl2 : liability u s2 = locked u s)
    by (unfold liability, locked, unclaimed; rewrite Hu, Hcu; lia).
  assert (Hl : liability u s = locked u s + get_allocation u s) by (unfold liability, unclaimed; by rewrite Hcl).
  pose proof (locked_nonneg u s Hok).
  apply (one_user_sound u token base s s2 Hok Hc); try lia; auto.
  - intros v Hv. unfold get_commitment, get_allocation, is_claimed. rewrite !Hf by congruence. done.
  - unfold get_config. by rewrite Hf.
  - unfold get_total_score. by rewrite Hf.
  - unfold get_committers. by rewrite Hf.
Qed.

Lemma exit_sound u token base s x s' :
  signed env (self env) = false -> rd Token s = Some token -> sound token base s ->
  exit_lockdrop env u s = Ok x s' -> sound token base s'.
Proof.
  intros Hself Htok [Hok Hc] H. unfold exit_lockdrop in H. auth H Hs.
  assert (Hne : u <> self env) by congruence. unfold reading in H.
  apply bind_Ok in H as (c & ? & H1 & H). apply ok_or_Ok in H1 as [Hcu ->]. passed H Hlock.
  apply bind_Ok in H as (? & ? & H1 & H). apply (token_Ok _ _ _ _ Htok) in H1 as [-> ->].
  apply bind_Ok in H as (? & s1 & H1 & H). apply transfer_from_vault in H1 as [Hb Hrd]; [|done].
  apply bind_Ok in H as (? & ? & H1 & H). apply del_Ok in H1 as [_ ->].
  apply bind_Ok in H as (? & ? & H1 & H). apply publish_Ok in H1 as [_ ->]. apply ret_Ok in H as [_ ->].
  apply sound_emit. set (s2 := upd (LdCommitment u) _ _).
  assert (Hf : forall k, k <> KFeat (LdCommitment u) -> rd k s2 = rd k s)
    by (intros k Hk; unfold s2; rewrite rd_upd_ne by congruence; apply Hrd).
  assert (Hu : get_commitment u s2 = None) by (unfold s2, get_commitment; by rdsimp).
  assert (Ha : get_allocation u s2 = get_allocation u s) by (unfold get_allocation; by rewrite Hf).
  assert (Hcl : is_claimed u s2 = is_claimed u s) by (unfold is_claimed; by rewrite Hf).
  assert (Hb2 : balance_of token (self env) s2 = balance_of token (self env) s1) by (unfold s2; by rdsimp).
  assert (Hl2 : liability u s2 = unclaimed u s)
    by (unfold liability, locked, unclaimed; rewrite Hu, Ha, Hcl; lia).
  assert (Hl : liability u s = lc_locked_amount c + unclaimed u s) by (unfold liability, locked; by rewrite Hcu).
  pose proof (unclaimed_nonneg u s Hok). destruct (lo_locked _ Hok u c Hcu) as (? & ? & ?).
  apply (one_user_sound u token base s s2 Hok Hc); try lia; auto.
  - intros v Hv. unfold get_commitment, get_allocation, is_claimed. rewrite !Hf by congruence. done.
  - unfold get_config. by rewrite Hf.
  - unfold get_total_score. by rewrite Hf.
  - unfold get_committers. by rewrite Hf.
Qed.

End Ops.

(** ** The campaign as a system *)

Inductive lockdrop_op :=
| LStart (admin : Address) (pool max_lock duration : Z)
| LCommit (user : Address) (amount lock_duration : Z)
| LFinalize (admin : Address)
| LClaim (user : Address)
| LExit (user : Address).

Section System.
Context {W : World} (token me : Address).
Implicit Types s : State.

(** One committed or rolled-back invocation. *)
Definition lockdrop_perform (env : Env) (o : lockdrop_op) : State -> State :=
  match o with
  | LStart a p m d => invoke (start_lockdrop env a p m d)
  | LCommit u a d => invoke (commit_to_lockdrop env u a d)
  | LFinalize a => invoke (finalize_lockdrop env a)
  | LClaim u => invoke (claim_lockdrop_reward env u)
  | LExit u => invoke (exit_lockdrop env u)
  end.

(** Lock durations are [u32]; the sum of the scores, which the code saturates,
    has not reached the top of [i128] when the pool is split. *)
Definition lockdrop_pre (o : lockdrop_op) s : Prop :=
  match o with
  | LCommit _ _ d => in_u32 d
  | LFinalize _ => get_total_score s < i128_max
  | _ => True
  end.

Inductive lockdrop_step : State -> State -> Prop :=
| ls_op env o s : self env = me -> signed env me = false -> lockdrop_pre o s ->
    lockdrop_step s (lockdrop_perform env o s)
| ls_other s s' : same_campaign s s' -> rd Token s' = rd Token s ->
    balance_of token me s <= balance_of token me s' -> lockdrop_step s s'.

Definition no_campaign s : Prop := forall k, ld_key k = true -> rd k s = None.

Lemma no_campaign_ok s : no_campaign s -> lockdrop_ok s /\ covered token me (balance_of token me s) s.
Proof.
  intros H. assert (Hc : get_config s = None) by (unfold get_config; by rewrite H).
  assert (Hg : forall u, get_commitment u s = None) by (intros; unfold get_commitment; by rewrite H).
  assert (Ha : forall u, get_allocation u s = 0) by (intros; unfold get_allocation; by rewrite H).
  assert (Ht : get_total_score s = 0) by (unfold get_total_score; by rewrite H).
  assert (Hp : open_pool s = 0) by (unfold open_pool; by rewrite Hc).
  split; [split|].
  - intros u c. by rewrite Hg.
  - intros u. by rewrite Ha.
  - lia.
  - lia.
  - by rewrite Hc.
  - intros U _. rewrite Hp, (sum_of_ext _ (fun _ => 0)).
    + assert (sum_of (fun _ : Address => 0) U = 0) by (induction U; simpl; lia). lia.
    + intros u _. unfold liability, locked, unclaimed. rewrite Hg, Ha. by destruct (is_claimed u s).
Qed.

Ltac keep_token := repeat first
  [ progress frames | apply touches_put; discriminate | apply touches_del; discriminate ].

Lemma lockdrop_keeps_token env o s : rd Token (lockdrop_perform env o s) = rd Token s.
Proof.
  assert (Hadm : forall K, touches K (try_ (E2 := VaultCampaignError.t) (require_admin env))).
  { intros K. apply touches_try. unfold require_admin, get_admin. frames. }
  destruct o; cbn [lockdrop_perform]; unfold invoke;
    match goal with |- context [match ?r with _ => _ end] => destruct r as [? s'|? s'|] eqn:H end; try done;
    apply (touches_Ok (fun k => k <> KInst Token) _ _ _ _ (KInst Token)) in H; try tauto.
  - unfold start_lockdrop, set_config, set_total_score, set_committers, token_address. keep_token; apply Hadm.
  - unfold commit_to_lockdrop, set_total_score, set_committers, token_address. keep_token.
  - unfold finalize_lockdrop, set_config, allocate. keep_token; try apply Hadm.
  - unfold claim_lockdrop_reward, token_address. keep_token.
  - unfold exit_lockdrop, token_address. keep_token.
Qed.

Lemma lockdrop_step_sound (HT : StandardTokens W) base s s' :
  rd Token s = Some token -> lockdrop_ok s -> covered token me base s -> lockdrop_step s s' ->
  rd Token s' = Some token /\ lockdrop_ok s' /\ covered token me base s'.
Proof.
  intros Htok Hok Hc Hstep. destruct Hstep as [env o s0 Hme Hself Hpre|s0 s1 Hsame Ht Hb].
  - rewrite lockdrop_keeps_token. split; [done|]. rewrite <- Hme in Hself, Hc |- *.
    change (sound env token base (lockdrop_perform env o s0)).
    assert (Hs : sound env token base s0) by done.
    destruct o; cbn [lockdrop_perform]; unfold invoke;
      match goal with |- context [match ?r with _ => _ end] => destruct r as [x s'|? s'|] eqn:H end; try done.
    + destruct x. by eapply start_sound.
    + eapply commit_sound; [done..| |exact Hs|exact H]. apply Hpre.
    + destruct x. by eapply finalize_sound.
    + by eapply claim_sound.
    + by eapply exit_sound.
  - rewrite Ht. split; [done|]. by eapply (sound_same (mkEnv 0 0 me (fun _ => false))).
Qed.

Lemma lockdrop_steps_sound (HT : StandardTokens W) base s s' :
  rd Token s = Some token -> lockdrop_ok s -> covered token me base s -> rtc lockdrop_step s s' ->
  lockdrop_ok s' /\ covered token me base s'.
Proof.
  intros Htok Hok Hc Hs. induction Hs as [|s1 s2 s3 Hstep _ IH]; [done|].
  destruct (lockdrop_step_sound HT base s1 s2 Htok Hok Hc Hstep) as (? & ? & ?). auto.
Qed.

Lemma claimed_stays u s s' : lockdrop_step s s' -> is_claimed u s = true -> is_claimed u s' = true.
Proof.
  intros Hstep Hcl. destruct Hstep as [env o s0 _ _ _|s0 s1 Hsame _ _]; [|unfold is_claimed in *; by rewrite Hsame].
  assert (Hadm : forall K, touches K (try_ (E2 := VaultCampaignError.t) (require_admin env))).
  { intros K. apply touches_try. unfold require_admin, get_admin. frames. }
  destruct o; cbn [lockdrop_perform]; unfold invoke;
    match goal with |- context [match ?r with _ => _ end] => destruct r as [? s'|? s'|] eqn:H end; try done.
  4: { unfold claim_lockdrop_reward, token_address in H. mrun H. unfold is_claimed in *.
       destruct (decide (user = u)) as [->|Hne]; [by rdsimp|]. rewrite rd_emit, rd_upd_ne; [by rdsimp|].
       intros Heq. by injection Heq. }
  all: unfold is_claimed in *; erewrite (touches_Ok (fun k => k <> KFeat (LdClaimed u))); [exact Hcl| |exact H|tauto].
  - unfold start_lockdrop, set_config, set_total_score, set_committers, token_address. keep_token; apply Hadm.
  - unfold commit_to_lockdrop, set_total_score, set_committers, token_address. keep_token.
  - unfold finalize_lockdrop, set_config, allocate. keep_token; try apply Hadm.
  - unfold exit_lockdrop, token_address. keep_token.
Qed.

End System.

(** ** Theorems *)

(** C31. The lockdrop pays for itself.  Starting before the first campaign,
    after any sequence of campaign operations (with a score total that did not
    saturate when the pool is split), interleaved with anything that leaves the
    campaign and the token address alone and takes no tokens out of the vault:
    the vault's balance has grown by at least the locked principals and the
    unclaimed rewards of any set of users plus the pool not yet split. *)
Theorem lockdrop_covers_liabilities {W : World} (HT : StandardTokens W) (token me : Address) (s0 s : State) U :
  rd Token s0 = Some token -> no_campaign s0 -> rtc (lockdrop_step token me) s0 s -> NoDup U ->
  sum_of (fun u => liability u s) U + open_pool s <= balance_of token me s - balance_of token me s0.
Proof.
  intros Ht Hn Hs HU. destruct (no_campaign_ok token me s0 Hn) as [Hok Hc].
  destruct (lockdrop_steps_sound token me HT _ s0 s Ht Hok Hc Hs) as [_ Hc']. auto.
Qed.

(** Finalizing splits the pool by amount times duration.  Every committed
    user gets the floor of the pool times its score over the total, as long as
    that product fits in [i128]; for the same amount, locking twice as long
    earns twice the reward, up to one unit of rounding. *)
Theorem finalize_pro_rata {W : World} env admin cfg (s s' : State) :
  lockdrop_ok s -> get_config s = Some cfg -> finalize_lockdrop env admin s = Ok tt s' ->
  (forall u c, u ∈ get_committers s -> get_commitment u s = Some c -> 0 < get_total_score s ->
     in_i128 (ld_total_reward_pool cfg * lc_score c) ->
     get_allocation u s' =
       ld_total_reward_pool cfg * (lc_locked_amount c * lc_lock_duration_ledgers c) / get_total_score s) /\
  (forall u v c d, u ∈ get_committers s -> v ∈ get_committers s -> 0 < get_total_score s ->
     get_commitment u s = Some c -> get_commitment v s = Some d ->
     lc_locked_amount d = lc_locked_amount c ->
     lc_lock_duration_ledgers d = 2 * lc_lock_duration_ledgers c ->
     in_i128 (ld_total_reward_pool cfg * lc_score d) ->
     2 * get_allocation u s' <= get_allocation v s' <= 2 * get_allocation u s' + 1).
Proof.
  intros Hok Hcfg H. unfold finalize_lockdrop in H.
  apply bind_Ok in H as (? & ? & H1 & H). apply require_auth_Ok in H1 as (_ & _ & ->).
  apply bind_Ok in H as (? & ? & H1 & H). apply (proj1 (try_Ok _ _ _ _)) in H1.
  apply require_admin_Ok in H1 as (? & _ & _ & _ & _ & ->). unfold reading at 1 in H.
  apply bind_Ok in H as (cfg' & ? & H1 & H). apply ok_or_Ok in H1 as [Hcfg' ->].
  rewrite Hcfg in Hcfg'. injection Hcfg' as <-.
  apply bind_Ok in H as (? & ? & H1 & H). apply fail_if_Ok in H1 as (Hfin & _ & ->).
  apply bind_Ok in H as (? & ? & H1 & H). apply fail_if_Ok in H1 as (_ & _ & ->). unfold reading in H.
  apply bind_Ok in H as (? & s1 & H1 & H). apply bind_Ok in H as (? & ? & H2 & H). apply put_Ok in H2 as [_ ->].
  apply publish_Ok in H as [_ ->].
  assert (Hpool : 0 <= ld_total_reward_pool cfg).
  { pose proof (lo_pool _ Hok) as Hp. unfold open_pool in Hp. by rewrite Hcfg, Hfin in Hp. }
  assert (Hall : forall u c, u ∈ get_committers s -> get_commitment u s = Some c -> 0 < get_total_score s ->
     in_i128 (ld_total_reward_pool cfg * lc_score c) ->
     get_allocation u s1 = ld_total_reward_pool cfg * lc_score c / get_total_score s).
  { intros u c Hu Hc Hpos Hin. rewrite (proj2 (Z.ltb_lt _ _) Hpos) in H1.
    apply allocate_all in H1 as (_ & _ & Ha). rewrite Ha, bool_decide_eq_true_2 by (rewrite Hc; eauto).
    unfold score_of, sat_mul. rewrite Hc, clamp_in by done. apply quot_floor; [|done].
    pose proof (lo_locked _ Hok u c Hc). nia. }
  assert (Hread : forall u, get_allocation u (emit (mkEvent [VSym "ldrp_fin"]
      [VInt (ld_total_reward_pool cfg); VInt (get_total_score s); VInt (Z.of_nat (length (get_committers s)))])
      (upd LdConfig (Some (finalized cfg)) s1)) = get_allocation u s1)
    by (intros; unfold get_allocation; by rdsimp).
  split.
  - intros u c Hu Hc Hpos Hin. rewrite Hread, (Hall u c) by done.
    by destruct (lo_locked _ Hok u c Hc) as (_ & _ & ->).
  - intros u v c d Hu Hv Hpos Hc Hd Ham Hdur Hin. rewrite !Hread.
    pose proof (lo_locked _ Hok u c Hc) as (L1 & L2 & L3). pose proof (lo_locked _ Hok v d Hd) as (M1 & M2 & M3).
    assert (Hdc : lc_score d = 2 * lc_score c) by (rewrite M3, L3, Ham, Hdur; lia).
    assert (Hc0 : 0 <= ld_total_reward_pool cfg * lc_score c) by nia.
    assert (Hinc : in_i128 (ld_total_reward_pool cfg * lc_score c)).
    { rewrite Hdc in Hin. unfold in_i128, i128_min, i128_max in *. lia. }
    rewrite (Hall u c), (Hall v d) by done. rewrite Hdc.
    set (p := ld_total_reward_pool cfg * lc_score c). replace (ld_total_reward_pool cfg * (2 * lc_score c)) with (2 * p) by (unfold p; lia).
    pose proof (Z.div_mod p (get_total_score s) ltac:(lia)) as Dx.
    pose proof (Z.mod_pos_bound p (get_total_score s) Hpos).
    split; [apply Z.div_le_lower_bound; lia|].
    apply Z.lt_succ_r, Z.div_lt_upper_bound; lia.
Qed.

(** Leaving before claiming forfeits the reward, and a user claims once
    for all campaigns.  After [exit_lockdrop] no claim of that user succeeds
    until it commits again; and once a user has claimed, no claim of that user
    succeeds in any state the campaigns reach, later campaigns included. *)
Theorem lockdrop_claim_lost {W : World} env u (token me : Address) (s s1 s2 : State) x :
  (exit_lockdrop env u s = Ok x s1 -> forall env2 y s', claim_lockdrop_reward env2 u s1 <> Ok y s') /\
  (claim_lockdrop_reward env u s = Ok x s1 -> rtc (lockdrop_step token me) s1 s2 ->
     forall env2 y s', claim_lockdrop_reward env2 u s2 <> Ok y s').
Proof.
  split.
  - intros H env2 y s' H2. assert (Hg : get_commitment u s1 = None).
    { unfold exit_lockdrop, token_address in H. mrun H. unfold get_commitment. by rdsimp. }
    unfold claim_lockdrop_reward, token_address in H2. mrun H2. by rewrite Hg in *.
  - intros H Hs env2 y s' H2. assert (Hcl : is_claimed u s1 = true).
    { unfold claim_lockdrop_reward, token_address in H. mrun H. unfold is_claimed. by rdsimp. }
    assert (Hcl2 : is_claimed u s2 = true).
    { clear H H2. induction Hs as [|? ? ? Hstep _ IH]; [done|]. apply IH. by eapply claimed_stays. }
    unfold claim_lockdrop_reward, token_address in H2. mrun H2. congruence.
Qed.

(** ** A campaign on the concrete host *)

Definition people_at (l : Z) : Env := mkEnv l (5 * l) 1%positive (fun a => negb (a =? 1)%positive).
Definition campaign_vault : State (W := token_world) :=
  upd Admin (Some 2%positive) (upd Token (Some 9%positive) (start_state (fun _ _ => 5000))).
(** The admin funds 1000; users 3 and 4 lock 100 for 10 and 20 ledgers. *)
Definition campaign_history : list (Env * lockdrop_op) :=
  [(people_at 10, LStart 2 1000 50 10); (people_at 11, LCommit 3 100 10); (people_at 12, LCommit 4 100 20)].
Definition replay (h : list (Env * lockdrop_op)) (s : State (W := token_world)) : State :=
  fold_left (fun s eo => lockdrop_perform eo.1 eo.2 s) h s.

Lemma campaign_none : no_campaign campaign_vault.
Proof. intros k Hk. unfold campaign_vault. rewrite !rd_upd_ne by (intros <-; done). done. Qed.

Lemma replay_steps h s :
  Forall (fun eo => self eo.1 = 1%positive /\ signed eo.1 1%positive = false /\ forall s', lockdrop_pre (W := token_world) eo.2 s') h ->
  rtc (lockdrop_step 9 1) s (replay h s).
Proof.
  intros Hh. revert s. induction Hh as [|[e o] h (H1 & H2 & H3) _ IH]; intros s; [apply rtc_refl|].
  eapply rtc_l; [|apply IH]. by apply ls_op.
Qed.

Lemma campaign_steps : rtc (lockdrop_step 9 1) campaign_vault (replay campaign_history campaign_vault).
Proof.
  apply replay_steps. repeat constructor; vm_compute; discriminate.
Qed.

Lemma campaign_ok : lockdrop_ok (replay campaign_history campaign_vault).
Proof.
  destruct (no_campaign_ok 9 1 campaign_vault campaign_none) as [Hok Hc].
  by apply (lockdrop_steps_sound 9%positive 1%positive token_world_standard _ campaign_vault
    (replay campaign_history campaign_vault) eq_refl Hok Hc campaign_steps).
Qed.

Lemma lockdrop_covers_liabilities_witness :
  0 < sum_of (fun u => liability u (replay campaign_history campaign_vault)) [3%positive; 4%positive] /\
  sum_of (fun u => liability u (replay campaign_history campaign_vault)) [3%positive; 4%positive] +
    open_pool (replay campaign_history campaign_vault) <=
  balance_of 9 1 (replay campaign_history campaign_vault) - balance_of 9 1 campaign_vault.
Proof.
  split; [vm_compute; reflexivity|].
  apply (lockdrop_covers_liabilities token_world_standard 9%positive 1%positive campaign_vault
    (replay campaign_history campaign_vault) [3%positive; 4%positive]).
  - reflexivity.
  - exact campaign_none.
  - exact campaign_steps.
  - apply NoDup_cons. split; [set_solver|]. apply NoDup_singleton.
Defined.

Lemma finalize_pro_rata_witness :
  exists s', finalize_lockdrop (people_at 30) 2 (replay campaign_history campaign_vault) = Ok tt s' /\
    get_allocation 3 s' = 333 /\ 2 * get_allocation 3 s' <= get_allocation 4 s' <= 2 * get_allocation 3 s' + 1.
Proof.
  destruct (get_config (replay campaign_history campaign_vault)) as [cfg|] eqn:Hcfg; [|by vm_compute in Hcfg].
  assert (Hpool : ld_total_reward_pool cfg = 1000) by (vm_compute in Hcfg; by injection Hcfg as <-).
  destruct (succeeds_run (finalize_lockdrop (people_at 30) 2 (replay campaign_history campaign_vault))
    (fun _ s' => get_allocation 3 s' =? 333)) as ([] & s' & H & Ha); [vm_compute; reflexivity|].
  exists s'. split; [exact H|]. split; [by apply Z.eqb_eq|].
  destruct (get_commitment 3 (replay campaign_history campaign_vault)) as [c|] eqn:Hc; [|by vm_compute in Hc].
  destruct (get_commitment 4 (replay campaign_history campaign_vault)) as [d|] eqn:Hd; [|by vm_compute in Hd].
  assert (lc_locked_amount c = 100 /\ lc_lock_duration_ledgers c = 10) as [C1 C2]
    by (vm_compute in Hc; by injection Hc as <-).
  assert (lc_locked_amount d = 100 /\ lc_lock_duration_ledgers d = 20 /\ lc_score d = 2000) as (D1 & D2 & D3)
    by (vm_compute in Hd; by injection Hd as <-).
  apply (finalize_pro_rata (people_at 30) 2 cfg _ s' campaign_ok Hcfg H) with (c := c) (d := d).
  - vm_compute. set_solver.
  - vm_compute. set_solver.
  - vm_compute. reflexivity.
  - exact Hc.
  - exact Hd.
  - by rewrite C1, D1.
  - by rewrite C2, D2.
  - rewrite Hpool, D3. split; vm_compute; discriminate.
Defined.

Lemma lockdrop_claim_lost_witness :
  exists s1, exit_lockdrop (people_at 40) 3 (replay campaign_history campaign_vault) = Ok 100 s1 /\
    forall env2 y s', claim_lockdrop_reward env2 3 s1 <> Ok y s'.
Proof.
  destruct (succeeds_run (exit_lockdrop (people_at 40) 3 (replay campaign_history campaign_vault))
    (fun x _ => x =? 100)) as (x & s1 & H & Hx); [vm_compute; reflexivity|].
  apply Z.eqb_eq in Hx as ->. exists s1. split; [exact H|].
  exact (proj1 (lockdrop_claim_lost (people_at 40) 3 9 1 (replay campaign_history campaign_vault) s1 s1 100) H).
Defined.
