(* ===== verification/InsurancePool.v ===== *)
(** * The peer insurance pool ([mutual_insurance_pool.rs])

    Members redirect a share of their reward claims into a common fund; a
    member files a loss, stakers vote on it with the value of their shares, and
    an approved loss is paid from the fund.

    The module names six [VaultError] variants that [errors.rs] does not
    declare; they are fields of [MutualNames] and nothing is assumed of them. *)

From S2P Require Import Prelude Errors Storage Host Concrete Accessors Admin Shares.

Class MutualNames := {
  MutualInsuranceNotActive : VaultError.t;
  NotAMutualMember : VaultError.t;
  LossEventNotFound : VaultError.t;
  LossEventAlreadyResolved : VaultError.t;
  DisputeWindowClosed : VaultError.t;
  AlreadyVotedOrNoWeight : VaultError.t
}.

(** [constants.rs]. *)
Definition BPS_DENOMINATOR : Z := 10000.

Section InsurancePool.
Context {W : World} {N : MutualNames} (env : Env).
Implicit Types s : State.

Definition get_config s : option MutualInsuranceConfig := rd MiConfig s.
Definition set_config {E} (config : MutualInsuranceConfig) : M E unit := put MiConfig config.
Definition get_fund s : Z := default 0 (rd MiFund s).
Definition set_fund {E} (amount : Z) : M E unit := put MiFund amount.
Definition is_member (user : Address) s : bool := default false (rd (MiMember user) s).
Definition get_event (event_id : Z) s : option MutualLossEvent := rd (MiEvent event_id) s.
Definition set_event {E} (event_id : Z) (event : MutualLossEvent) : M E unit := put (MiEvent event_id) event.

Definition position_amount (user : Address) s : option Z :=
  let shares := get_shares user s in
  if shares =? 0 then None
  else shares_to_amount (get_total_shares s) (get_total_deposited s) shares.

Definition enable_mutual_insurance (contribution_bps voting_period_ledgers : Z) : M VaultError.t unit :=
  require_admin env ;;;
  fail_if (BPS_DENOMINATOR <? contribution_bps) VaultError.InvalidRate ;;;
  fail_if (voting_period_ledgers =? 0) VaultError.ZeroAmount ;;;
  set_config (mkMutualInsuranceConfig contribution_bps voting_period_ledgers true) ;;;
  publish [VSym "mi_en"] [VInt contribution_bps; VInt voting_period_ledgers; VInt (sequence env)].

Definition disable_mutual_insurance : M VaultError.t unit :=
  require_admin env ;;;
  let& stored := get_config in
  let! config := ok_or stored MutualInsuranceNotActive in
  set_config (mkMutualInsuranceConfig (mi_contribution_bps config) (mi_voting_period_ledgers config) false).

(** [get_config(&env).ok_or(..)?] and the check of [active]. *)
Definition active_config : M VaultError.t MutualInsuranceConfig :=
  let& stored := get_config in
  let! config := ok_or stored MutualInsuranceNotActive in
  fail_if (negb (mi_active config)) MutualInsuranceNotActive ;;;
  ret config.

Definition join_mutual_insurance (user : Address) : M VaultError.t unit :=
  require_auth env user ;;;
  let! config := active_config in
  put (MiMember user) true ;;;
  publish [VSym "mi_join"; VAddr user] [VInt (sequence env)].

Definition leave_mutual_insurance (user : Address) : M VaultError.t unit :=
  require_auth env user ;;;
  put (MiMember user) false ;;;
  publish [VSym "mi_leav"; VAddr user] [VInt (sequence env)].

Definition claim_reward_with_mutual_contribution (user : Address) : M VaultError.t Z :=
  require_auth env user ;;;
  let& member := is_member user in
  fail_if (negb member) NotAMutualMember ;;;
  let! config := active_config in
  let& accrued := get_accrued_reward user in
  if accrued <=? 0 then ret 0
  else
    let& pool_balance := get_reward_pool_balance in
    fail_if (pool_balance <? accrued) VaultError.InsufficientRewardPool ;;;
    let! contribution :=
      ok_or (v ← checked_mul accrued (mi_contribution_bps config); checked_div v BPS_DENOMINATOR)
        VaultError.ArithmeticError in
    let! payout := ok_or (checked_sub accrued contribution) VaultError.ArithmeticError in
    set_accrued_reward user 0 ;;;
    let! rest := plain (checked_sub pool_balance accrued) in
    set_reward_pool_balance rest ;;;
    let& old_fund := get_fund in
    let! fund := ok_or (checked_add old_fund contribution) VaultError.ArithmeticError in
    set_fund fund ;;;
    (if 0 <? payout then
       let& token := rd Token in
       let! token_addr := ok_or token VaultError.NotInitialized in
       transfer token_addr (self env) user payout ;;;
       publish [VSym "claimed"; VAddr user] [VInt payout; VInt (sequence env)]
     else ret tt) ;;;
    publish [VSym "mi_contr"; VAddr user] [VInt contribution; VInt fund; VInt (sequence env)] ;;;
    ret payout.

Definition file_mutual_loss_claim (claimant : Address) (requested_amount : Z) : M VaultError.t Z :=
  require_auth env claimant ;;;
  let& member := is_member claimant in
  fail_if (negb member) NotAMutualMember ;;;
  fail_if (requested_amount <=? 0) VaultError.ZeroAmount ;;;
  let! config := active_config in
  let& next := rd MiNextEvent in
  let event_id := default 0 next in
  let! succ := plain (to_u32 (event_id + 1)) in
  put MiNextEvent succ ;;;
  let voting_ends_at := u32_sat_add (sequence env) (mi_voting_period_ledgers config) in
  set_event event_id (mkMutualLossEvent claimant requested_amount 0 0 voting_ends_at false false 0) ;;;
  publish [VSym "mi_file"; VAddr claimant] [VInt event_id; VInt requested_amount; VInt voting_ends_at] ;;;
  ret event_id.

Definition with_votes (e : MutualLossEvent) (votes_for votes_against : Z) : MutualLossEvent :=
  mkMutualLossEvent (ml_claimant e) (ml_requested_amount e) votes_for votes_against
    (ml_voting_ends_at e) (ml_resolved e) (ml_approved e) (ml_payout_amount e).

Definition vote_on_mutual_loss (voter : Address) (event_id : Z) (approve : bool) : M VaultError.t unit :=
  require_auth env voter ;;;
  let& stored := get_event event_id in
  let! event := ok_or stored LossEventNotFound in
  fail_if (ml_resolved event) LossEventAlreadyResolved ;;;
  fail_if (ml_voting_ends_at event <? sequence env) DisputeWindowClosed ;;;
  let& amount := position_amount voter in
  let! weight := ok_or amount AlreadyVotedOrNoWeight in
  let& voted := has (MiVoted event_id voter) in
  fail_if voted AlreadyVotedOrNoWeight ;;;
  put (MiVoted event_id voter) true ;;;
  let! event :=
    (if approve then
       let! v := ok_or (checked_add (ml_votes_for event) weight) VaultError.ArithmeticError in
       ret (with_votes event v (ml_votes_against event))
     else
       let! v := ok_or (checked_add (ml_votes_against event) weight) VaultError.ArithmeticError in
       ret (with_votes event (ml_votes_for event) v)) in
  set_event event_id event ;;;
  publish [VSym "mi_vote"; VAddr voter] [VInt event_id; VBool approve; VInt weight; VInt (sequence env)].

Definition is_approved (e : MutualLossEvent) : bool :=
  (ml_votes_against e <? ml_votes_for e) && (0 <? ml_votes_for e).

Definition resolved_event (e : MutualLossEvent) (approved : bool) (payout : Z) : MutualLossEvent :=
  mkMutualLossEvent (ml_claimant e) (ml_requested_amount e) (ml_votes_for e) (ml_votes_against e)
    (ml_voting_ends_at e) true approved payout.

Definition resolve_mutual_loss_claim (event_id : Z) : M VaultError.t Z :=
  let& stored := get_event event_id in
  let! event := ok_or stored LossEventNotFound in
  fail_if (ml_resolved event) LossEventAlreadyResolved ;;;
  fail_if (sequence env <=? ml_voting_ends_at event) DisputeWindowClosed ;;;
  let approved := is_approved event in
  let! payout :=
    (if approved then
       let& fund := get_fund in
       let payout := Z.min (ml_requested_amount event) fund in
       (if 0 <? payout then
          let! rest := plain (checked_sub fund payout) in
          set_fund rest ;;;
          let& token := rd Token in
          let! token_addr := ok_or token VaultError.NotInitialized in
          transfer token_addr (self env) (ml_claimant event) payout
        else ret tt) ;;;
       ret payout
     else ret 0) in
  set_event event_id (resolved_event event approved payout) ;;;
  publish [VSym "mi_res"]
    [VInt event_id; VBool approved; VInt payout; VInt (ml_votes_for event); VInt (ml_votes_against event);
     VInt (sequence env)] ;;;
  ret payout.

End InsurancePool.

(** ** The fund is backed *)

Inductive mutual_op :=
| MEnable (contribution_bps voting_period_ledgers : Z)
| MDisable
| MJoin (user : Address)
| MLeave (user : Address)
| MClaim (user : Address)
| MFile (claimant : Address) (requested_amount : Z)
| MVote (voter : Address) (event_id : Z) (approve : bool)
| MResolve (event_id : Z).

Section Backing.
Context {W : World} {N : MutualNames} (HT : StandardTokens W) (token me : Address).
Implicit Types s : State.

(** The vault's tokens beyond the reward pool and the fund. *)
Definition slack s : Z := balance_of token me s - get_reward_pool_balance s - get_fund s.

Record mutual_ok s : Prop := {
  mo_fund : 0 <= get_fund s;
  mo_bps : forall c, get_config s = Some c -> 0 <= mi_contribution_bps c <= BPS_DENOMINATOR
}.

Definition mutual_perform (env : Env) (o : mutual_op) : State -> State :=
  match o with
  | MEnable b p => invoke (enable_mutual_insurance env b p)
  | MDisable => invoke (disable_mutual_insurance env)
  | MJoin u => invoke (join_mutual_insurance env u)
  | MLeave u => invoke (leave_mutual_insurance env u)
  | MClaim u => invoke (claim_reward_with_mutual_contribution env u)
  | MFile u a => invoke (file_mutual_loss_claim env u a)
  | MVote u id b => invoke (vote_on_mutual_loss env u id b)
  | MResolve id => invoke (resolve_mutual_loss_claim env id)
  end.

(** Basis points are [u32]. *)
Definition mutual_pre (o : mutual_op) : Prop := match o with MEnable b _ => in_u32 b | _ => True end.

(** An operation of the contract [me], or anything else that keeps the fund's
    entries and the token address and does not eat into the slack. *)
Inductive mutual_step : State -> State -> Prop :=
| ms_op env o s : self env = me -> mutual_pre o -> mutual_step s (mutual_perform env o s)
| ms_other s s' : rd MiConfig s' = rd MiConfig s -> rd MiFund s' = rd MiFund s -> rd Token s' = rd Token s ->
    slack s <= slack s' -> mutual_step s s'.

(** [fine_mutual]: what every operation preserves. *)
Definition backed s s' : Prop := mutual_ok s' /\ rd Token s' = rd Token s /\ slack s <= slack s'.

Definition mutual_keys (k : key) : Prop :=
  k = KFeat MiConfig \/ k = KFeat MiFund \/ k = KInst Token \/ k = KInst RewardPoolBalance.

Lemma backed_frame s s' :
  mutual_ok s -> (forall k, mutual_keys k -> rd k s' = rd k s) -> st_ext s' = st_ext s -> backed s s'.
Proof.
  intros [A1 A2] Hf He.
  assert (Hfund : get_fund s' = get_fund s) by (unfold get_fund; rewrite Hf; unfold mutual_keys; auto).
  assert (Hpool : get_reward_pool_balance s' = get_reward_pool_balance s)
    by (unfold get_reward_pool_balance; rewrite Hf; unfold mutual_keys; auto).
  assert (Hcfg : get_config s' = get_config s) by (unfold get_config; rewrite Hf; unfold mutual_keys; auto).
  split; [split; [lia|by rewrite Hcfg]|]. split; [rewrite Hf; unfold mutual_keys; auto|].
  unfold slack, balance_of. rewrite He. lia.
Qed.

(** A transfer out of the vault costs it at most the amount. *)
Lemma pay_out E to amt s x s' :
  transfer (E:=E) token me to amt s = Ok x s' ->
  (forall k, rd k s' = rd k s) /\ balance_of token me s - amt <= balance_of token me s'.
Proof.
  intros (w & Hw & _ & ->)%transfer_Ok. destruct (std_amount _ _ _ _ _ _ Hw) as [Hp _]. split.
  { intros k. by rdsimp. }
  destruct (decide (to = me)) as [->|Hne].
  - pose proof (std_self _ _ _ _ _ Hw) as He. unfold balance_of. Transparent set_ext. simpl. lia.
  - destruct (std_moves _ _ _ _ _ _ (not_eq_sym Hne) Hw) as [H _]. unfold balance_of. simpl. lia.
Qed.
Opaque set_ext.


Lemma backed_trans s1 s2 s3 : backed s1 s2 -> backed s2 s3 -> backed s1 s3.
Proof. intros (_ & H1 & H2) (H3 & H4 & H5). split; [done|]. split; [congruence|lia]. Qed.

(** What a successful claim does. *)
Lemma claim_run env u x s s' :
  rd Token s = Some token -> claim_reward_with_mutual_contribution env u s = Ok x s' ->
  x = 0 /\ s' = s \/
  exists c con, get_config s = Some c /\ 0 < get_accrued_reward u s /\
    con = Z.quot (get_accrued_reward u s * mi_contribution_bps c) BPS_DENOMINATOR /\
    x = get_accrued_reward u s - con /\
    get_fund s' = get_fund s + con /\
    get_reward_pool_balance s' = get_reward_pool_balance s - get_accrued_reward u s /\
    get_config s' = get_config s /\ rd Token s' = rd Token s /\
    (if 0 <? x then tok_transfer (st_ext s) token (self env) u x = Some (st_ext s') else st_ext s' = st_ext s).
Proof.
  intros Htok H. unfold claim_reward_with_mutual_contribution in H.
  apply bind_Ok in H as (? & ? & H1 & H). apply require_auth_Ok in H1 as (_ & _ & ->). unfold reading at 1 in H.
  apply bind_Ok in H as (? & ? & H1 & H). apply fail_if_Ok in H1 as (_ & _ & ->).
  apply bind_Ok in H as (c' & ? & H1 & H). unfold active_config, reading in H1.
  apply bind_Ok in H1 as (c & ? & H2 & H1). apply ok_or_Ok in H2 as [Hc ->].
  apply bind_Ok in H1 as (? & ? & H2 & H1). apply fail_if_Ok in H2 as (_ & _ & ->).
  apply ret_Ok in H1 as [-> ->]. unfold reading at 1 in H. set (acc := get_accrued_reward u s) in *.
  destruct (Z.leb_spec acc 0) as [|Hpos]; [apply ret_Ok in H as [-> ->]; by left|]. right.
  unfold reading at 1 in H. apply bind_Ok in H as (? & ? & H1 & H). apply fail_if_Ok in H1 as (_ & _ & ->).
  apply bind_Ok in H as (con & ? & H1 & H). apply ok_or_Ok in H1 as [Hcon ->].
  apply bind_Some in Hcon as (v & [-> _]%checked_mul_Some & (_ & Hcon & _)%checked_div_Some).
  apply bind_Ok in H as (pay & ? & H1 & H). apply ok_or_Ok in H1 as [[-> _]%checked_sub_Some ->].
  apply bind_Ok in H as (? & s1 & H1 & H). unfold set_accrued_reward, assert_non_negative in H1.
  apply bind_Ok in H1 as (? & ? & H2 & H1). apply panic_if_Ok in H2 as (_ & _ & ->). apply put_Ok in H1 as [_ ->].
  apply bind_Ok in H as (rest & ? & H1 & H). apply plain_Ok in H1 as [[-> _]%checked_sub_Some ->].
  apply bind_Ok in H as (? & s1 & H1 & H). unfold set_reward_pool_balance, assert_non_negative in H1.
  apply bind_Ok in H1 as (? & ? & H2 & H1). apply panic_if_Ok in H2 as (_ & _ & ->). apply put_Ok in H1 as [_ ->].
  unfold reading at 1 in H. apply bind_Ok in H as (fund & ? & H1 & H). apply ok_or_Ok in H1 as [[-> _]%checked_add_Some ->].
  apply bind_Ok in H as (? & ? & H1 & H). apply put_Ok in H1 as [_ ->].
  apply bind_Ok in H as (? & s2 & H1 & H).
  apply bind_Ok in H as (? & ? & H2 & H). apply publish_Ok in H2 as [_ ->]. apply ret_Ok in H as [-> ->].
  exists c, con. do 4 (split; [done|]). unfold get_fund, get_reward_pool_balance, get_config.
  destruct (Z.ltb_spec 0 (acc - con)).
  - unfold reading in H1. apply bind_Ok in H1 as (t & ? & H2 & H1). apply ok_or_Ok in H2 as [Ht ->].
    assert (t = token) as -> by (rewrite !rd_upd_ne in Ht by done; congruence).
    apply bind_Ok in H1 as (? & s3 & H2 & H1). apply publish_Ok in H1 as [_ ->].
    apply transfer_Ok in H2 as (w & Hw & _ & ->). do 4 (split; [by rdsimp|]). exact Hw.
  - apply ret_Ok in H1 as [_ ->]. do 4 (split; [by rdsimp|]). done.
Qed.

Lemma claim_backed env u x s s' :
  self env = me -> rd Token s = Some token -> mutual_ok s ->
  claim_reward_with_mutual_contribution env u s = Ok x s' -> backed s s'.
Proof.
  intros Hme Htok Hok H. destruct (claim_run env u x s s' Htok H)
    as [[_ ->]|(c & con & Hc & Hpos & Hcon & Hx & Hfund & Hpool & Hcfg & Ht & Hext)]; [by apply backed_frame|].
  destruct (mo_bps _ Hok c Hc) as [Hb0 Hb1]. pose proof (mo_fund _ Hok) as Hf0.
  rewrite quot_floor in Hcon by (unfold BPS_DENOMINATOR; nia).
  assert (Hcon0 : 0 <= con) by (rewrite Hcon; apply Z.div_pos; unfold BPS_DENOMINATOR; nia).
  assert (Hconle : con <= get_accrued_reward u s)
    by (rewrite Hcon; apply Z.div_le_upper_bound; unfold BPS_DENOMINATOR in *; nia).
  assert (Hb : balance_of token me s - x <= balance_of token me s').
  { destruct (Z.ltb_spec 0 x); [|unfold balance_of; rewrite Hext; lia].
    apply (pay_out unit u x s tt (set_ext (st_ext s') s)).
    unfold transfer. by rewrite <- Hme, Hext. }
  split; [split; [lia|by rewrite Hcfg; apply Hok]|]. split; [done|]. unfold slack. lia.
Qed.

Lemma resolve_backed env id x s s' :
  self env = me -> rd Token s = Some token -> mutual_ok s ->
  resolve_mutual_loss_claim env id s = Ok x s' -> backed s s'.
Proof.
  intros Hme Htok Hok H. unfold resolve_mutual_loss_claim in H. unfold reading at 1 in H.
  apply bind_Ok in H as (e & ? & H1 & H). apply ok_or_Ok in H1 as [He ->].
  apply bind_Ok in H as (? & ? & H1 & H). apply fail_if_Ok in H1 as (_ & _ & ->).
  apply bind_Ok in H as (? & ? & H1 & H). apply fail_if_Ok in H1 as (_ & _ & ->). cbv zeta in H.
  apply bind_Ok in H as (p & s1 & H1 & H).
  apply bind_Ok in H as (? & ? & H2 & H). apply put_Ok in H2 as [_ ->].
  apply bind_Ok in H as (? & ? & H2 & H). apply publish_Ok in H2 as [_ ->]. apply ret_Ok in H as [_ ->].
  assert (Hs1 : backed s s1).
  { destruct (is_approved e); [|apply ret_Ok in H1 as [_ ->]; by apply backed_frame].
    unfold reading at 1 in H1. apply bind_Ok in H1 as (? & s2 & H2 & H1). apply ret_Ok in H1 as [_ ->].
    destruct (Z.ltb_spec 0 (Z.min (ml_requested_amount e) (get_fund s)));
      [|apply ret_Ok in H2 as [_ ->]; by apply backed_frame].
    apply bind_Ok in H2 as (r & ? & H3 & H2). apply plain_Ok in H3 as [[-> _]%checked_sub_Some ->].
    apply bind_Ok in H2 as (? & ? & H3 & H2). apply put_Ok in H3 as [_ ->]. unfold reading in H2.
    apply bind_Ok in H2 as (t & ? & H3 & H2). apply ok_or_Ok in H3 as [Ht ->].
    assert (t = token) as -> by (rewrite rd_upd_ne in Ht by done; congruence).
    rewrite Hme in H2. apply pay_out in H2 as [Hrd Hle]. revert Hle. rdsimp. intros Hle. split; [split|split].
    - unfold get_fund at 1. rewrite Hrd. rdsimp. simpl. lia.
    - unfold get_config. rewrite Hrd. rdsimp. apply Hok.
    - rewrite Hrd. by rdsimp.
    - unfold slack, get_reward_pool_balance, get_fund in *. rewrite !Hrd. rdsimp. simpl. lia. }
  eapply backed_trans; [exact Hs1|]. apply backed_frame; [apply Hs1| |done].
  intros k Hk. rewrite rd_emit. apply rd_upd_ne. intros <-. by destruct Hk as [|[|[|]]].
Qed.

Lemma admin_frame env K : touches K (require_admin env) /\ keeps_ext (require_admin env).
Proof. unfold require_admin, get_admin. split; frames. Qed.

(** Operations that write neither the fund nor the reward pool. *)
Lemma others_backed env o s :
  mutual_pre o -> mutual_ok s ->
  match o with MClaim _ | MResolve _ => True | _ => backed s (mutual_perform env o s) end.
Proof.
  intros Hpre Hok. assert (Hrefl : backed s s) by (by apply backed_frame).
  assert (Hmod : forall E A (m : M E A), touches (fun k => ~ mutual_keys k) m -> keeps_ext m ->
            backed s (invoke m s)).
  { intros E A m Ht Hk. unfold invoke. destruct (m s) as [a s'|e s'|t] eqn:H; [|done..].
    apply backed_frame; [done|intros k Hm; by apply (touches_Ok _ _ _ _ _ k Ht H); intros []|].
    by apply (keeps_ext_Ok _ _ _ _ Hk H). }
  assert (Hnk : forall k, (match k with KFeat MiConfig | KFeat MiFund | KInst Token | KInst RewardPoolBalance => False
     | _ => True end) -> ~ mutual_keys k) by (intros k Hk [-> |[-> |[-> | ->]]]; done).
  destruct o; cbn [mutual_perform]; try done.
  - unfold invoke. destruct (enable_mutual_insurance env _ _ s) as [x s'|? ?|?] eqn:H; [|done..].
    unfold enable_mutual_insurance in H. apply bind_Ok in H as (? & ? & H1 & H).
    apply require_admin_Ok in H1 as (? & _ & _ & _ & _ & ->).
    apply bind_Ok in H as (? & ? & H1 & H). apply fail_if_Ok in H1 as (Hb%Z.ltb_ge & _ & ->).
    apply bind_Ok in H as (? & ? & H1 & H). apply fail_if_Ok in H1 as (_ & _ & ->).
    apply bind_Ok in H as (? & ? & H1 & H). apply put_Ok in H1 as [_ ->]. apply publish_Ok in H as [_ ->].
    destruct Hpre as [Hb0 _]. destruct Hok as [A1 A2]. split; [split|split].
    + unfold get_fund. by rdsimp.
    + unfold get_config. rdsimp. intros c [= <-]. simpl. done.
    + by rdsimp.
    + unfold slack, get_reward_pool_balance, get_fund. rdsimp. lia.
  - unfold invoke. destruct (disable_mutual_insurance env s) as [x s'|? ?|?] eqn:H; [|done..].
    unfold disable_mutual_insurance in H. apply bind_Ok in H as (? & ? & H1 & H).
    apply require_admin_Ok in H1 as (? & _ & _ & _ & _ & ->). unfold reading in H.
    apply bind_Ok in H as (c & ? & H1 & H). apply ok_or_Ok in H1 as [Hc ->]. apply put_Ok in H as [_ ->].
    destruct Hok as [A1 A2]. split; [split|split].
    + unfold get_fund. by rdsimp.
    + unfold get_config. rdsimp. intros c' [= <-]. simpl. by apply A2.
    + by rdsimp.
    + unfold slack, get_reward_pool_balance, get_fund. rdsimp. lia.
  - apply Hmod; unfold join_mutual_insurance, active_config; frames; by apply touches_put, Hnk.
  - apply Hmod; unfold leave_mutual_insurance; frames; by apply touches_put, Hnk.
  - apply Hmod; unfold file_mutual_loss_claim, active_config, set_event; frames; by apply touches_put, Hnk.
  - apply Hmod; unfold vote_on_mutual_loss, set_event; frames; by apply touches_put, Hnk.
Qed.

Lemma mutual_step_backed s s' : rd Token s = Some token -> mutual_ok s -> mutual_step s s' -> backed s s'.
Proof.
  intros Htok Hok Hstep. destruct Hstep as [env o s Hme Hpre|s s' Hc Hf Ht Hsl].
  - pose proof (others_backed env o s Hpre Hok) as Ho. destruct o; try exact Ho; cbn [mutual_perform];
      unfold invoke; match goal with |- context [match ?r with _ => _ end] => destruct r as [x s'|? s'|] eqn:H end;
      try (by apply backed_frame).
    + by eapply claim_backed.
    + by eapply resolve_backed.
  - split; [split|done]; [|unfold get_config; rewrite Hc; apply Hok].
    unfold get_fund. rewrite Hf. apply Hok.
Qed.

Lemma mutual_steps_backed s s' : rd Token s = Some token -> mutual_ok s -> rtc mutual_step s s' -> backed s s'.
Proof.
  intros Htok Hok Hs. induction Hs as [s|s1 s2 s3 Hstep _ IH]; [by apply backed_frame|].
  pose proof (mutual_step_backed _ _ Htok Hok Hstep) as (Hok2 & Ht2 & Hsl).
  destruct IH as (? & ? & ?); [congruence|done|]. split; [done|]. split; [congruence|lia].
Qed.

End Backing.

(** ** Theorems *)

(** The mutual fund is backed by tokens.  Over any sequence of the pool's
    operations, interleaved with anything that keeps the fund, its
    configuration and the token address and does not eat into the slack: the
    fund never goes negative, and what the vault holds beyond the reward pool
    and the fund never shrinks - a contribution only moves value from the
    reward pool to the fund, and a payout is drawn from the fund alone. *)
Theorem mutual_fund_backed {W : World} {N : MutualNames} (HT : StandardTokens W) (token me : Address) (s s' : State) :
  rd Token s = Some token -> mutual_ok s -> rtc (mutual_step token me) s s' ->
  0 <= get_fund s' /\
  balance_of token me s - get_reward_pool_balance s - get_fund s <=
    balance_of token me s' - get_reward_pool_balance s' - get_fund s'.
Proof.
  intros Htok Hok Hs. destruct (mutual_steps_backed HT token me s s' Htok Hok Hs) as (Hok' & _ & Hsl).
  split; [apply Hok'|exact Hsl].
Qed.

(** Resolving a loss pays what was voted, once.  A successful resolution
    comes after the vote closed; it pays the claimant the smaller of the
    requested amount and the fund if strictly more value voted for than
    against, nothing otherwise; the fund drops by exactly the payout, and a
    second resolution is refused. *)
Theorem resolution_pays_capped {W : World} {N : MutualNames} (HT : StandardTokens W) env (token : Address) id e
    payout (s s' : State) :
  rd Token s = Some token -> get_event id s = Some e -> ml_claimant e <> self env ->
  0 <= get_fund s -> 0 <= ml_requested_amount e ->
  resolve_mutual_loss_claim env id s = Ok payout s' ->
  ml_voting_ends_at e < sequence env /\
  payout = (if is_approved e then Z.min (ml_requested_amount e) (get_fund s) else 0) /\
  get_fund s' = get_fund s - payout /\
  balance_of token (ml_claimant e) s' = balance_of token (ml_claimant e) s + payout /\
  forall env2, resolve_mutual_loss_claim env2 id s' = Err LossEventAlreadyResolved s'.
Proof.
  intros Htok He Hcl Hf0 Hr0 H. unfold resolve_mutual_loss_claim in H. unfold reading at 1 in H.
  apply bind_Ok in H as (e' & ? & H1 & H). apply ok_or_Ok in H1 as [He' ->].
  rewrite He in He'. injection He' as <-.
  apply bind_Ok in H as (? & ? & H1 & H). apply fail_if_Ok in H1 as (_ & _ & ->).
  apply bind_Ok in H as (? & ? & H1 & H). apply fail_if_Ok in H1 as (Hdl%Z.leb_gt & _ & ->). cbv zeta in H.
  apply bind_Ok in H as (p & s1 & H1 & H).
  apply bind_Ok in H as (? & ? & H2 & H). apply put_Ok in H2 as [_ ->].
  apply bind_Ok in H as (? & ? & H2 & H). apply publish_Ok in H2 as [_ ->]. apply ret_Ok in H as [-> ->].
  assert (Hs1 : p = (if is_approved e then Z.min (ml_requested_amount e) (get_fund s) else 0) /\
    get_fund s1 = get_fund s - p /\
    balance_of token (ml_claimant e) s1 = balance_of token (ml_claimant e) s + p).
  { destruct (is_approved e); [|apply ret_Ok in H1 as [-> ->]; split; [done|]; split; lia].
    unfold reading at 1 in H1. apply bind_Ok in H1 as (? & s2 & H2 & H1). apply ret_Ok in H1 as [-> ->].
    split; [done|]. destruct (Z.ltb_spec 0 (Z.min (ml_requested_amount e) (get_fund s)));
      [|apply ret_Ok in H2 as [_ ->]; split; lia].
    apply bind_Ok in H2 as (r & ? & H3 & H2). apply plain_Ok in H3 as [[-> _]%checked_sub_Some ->].
    apply bind_Ok in H2 as (? & ? & H3 & H2). apply put_Ok in H3 as [_ ->]. unfold reading in H2.
    apply bind_Ok in H2 as (t & ? & H3 & H2). apply ok_or_Ok in H3 as [Ht ->].
    assert (t = token) as -> by (rewrite rd_upd_ne in Ht by done; congruence).
    apply transfer_Ok in H2 as (w & Hw & _ & ->).
    destruct (std_moves _ _ _ _ _ _ (not_eq_sym Hcl) Hw) as [_ Hm]. split; [unfold get_fund at 1; by rdsimp|exact Hm]. }
  destruct Hs1 as (Hp & Hfund & Hbal). split; [done|]. split; [done|].
  split; [unfold get_fund in *; by rdsimp|]. split; [by rdsimp|].
  intros env2. unfold resolve_mutual_loss_claim, reading at 1, get_event. rdsimp. done.
Qed.

(** A mutual claim pays in the wrong token.  When a reward token other than
    the stake token is configured, [claim_reward_with_mutual_contribution]
    still pays the accrued reward in the stake token, out of the stakers'
    principal, and no reward token moves. *)
Theorem mutual_claim_pays_stake_token {W : World} {N : MutualNames} (HT : StandardTokens W) env (token reward : Address)
    u payout (s s' : State) :
  rd Token s = Some token -> get_reward_token s = Some reward -> reward <> token -> u <> self env ->
  claim_reward_with_mutual_contribution env u s = Ok payout s' -> 0 < payout ->
  balance_of token (self env) s' = balance_of token (self env) s - payout /\
  balance_of token u s' = balance_of token u s + payout /\
  forall a, balance_of reward a s' = balance_of reward a s.
Proof.
  intros Htok Hrew Hne Hu H Hpos. destruct (claim_run token env u payout s s' Htok H)
    as [[-> _]|(c & con & _ & _ & _ & _ & _ & _ & _ & _ & Hext)]; [lia|].
  rewrite (proj2 (Z.ltb_lt _ _) Hpos) in Hext. unfold balance_of.
  destruct (std_moves _ _ _ _ _ _ (not_eq_sym Hu) Hext) as [H1 H2]. split; [exact H1|]. split; [exact H2|].
  intros a. eapply std_frame; [exact Hext|]. by left.
Qed.

(** ** The pool on the concrete host *)

Definition some_mutual_names : MutualNames := {|
  MutualInsuranceNotActive := VaultError.NotInitialized;
  NotAMutualMember := VaultError.Unauthorized;
  LossEventNotFound := VaultError.PositionNotFound;
  LossEventAlreadyResolved := VaultError.PositionNotFound;
  DisputeWindowClosed := VaultError.PositionNotFound;
  AlreadyVotedOrNoWeight := VaultError.PositionNotFound
|}.

(** User 3 has 100 accrued; user 4 holds the shares; rewards are token 8. *)
Definition mutual_vault : State (W := token_world) :=
  upd (AccruedReward 3) (Some 100) (upd RewardPoolBalance (Some 500)
    (upd (ShareBalance 4) (Some 70) (upd TotalShares (Some 70) (upd TotalDeposited (Some 700)
      (upd RewardToken (Some 8%positive) (upd Admin (Some 2%positive) (upd Token (Some 9%positive)
        (start_state (fun _ _ => 5000))))))))).
Definition mutual_history : list (Env * mutual_op) :=
  [(at_ledger 10, MEnable 2000 50); (at_ledger 11, MJoin 3); (at_ledger 12, MClaim 3);
   (at_ledger 13, MFile 3 15); (at_ledger 14, MVote 4 0 true)].
Definition mutual_replay (h : list (Env * mutual_op)) (s : State (W := token_world)) : State :=
  fold_left (fun s eo => mutual_perform (N := some_mutual_names) eo.1 eo.2 s) h s.

Lemma mutual_replay_steps h s :
  Forall (fun eo => self eo.1 = 1%positive /\ mutual_pre eo.2) h ->
  rtc (mutual_step (N := some_mutual_names) 9 1) s (mutual_replay h s).
Proof.
  intros Hh. revert s. induction Hh as [|[e o] h (H1 & H2) _ IH]; intros s; [apply rtc_refl|].
  eapply rtc_l; [|apply IH]. by apply ms_op.
Qed.

Lemma mutual_fund_backed_witness :
  get_fund (mutual_replay mutual_history mutual_vault) = 20 /\
  0 <= get_fund (mutual_replay mutual_history mutual_vault).
Proof.
  split; [vm_compute; reflexivity|].
  apply (mutual_fund_backed (N := some_mutual_names) token_world_standard 9%positive 1%positive mutual_vault).
  - reflexivity.
  - split; [vm_compute; discriminate|]. intros c Hc. vm_compute in Hc. discriminate.
  - apply mutual_replay_steps. repeat constructor; vm_compute; discriminate.
Defined.

Lemma resolution_pays_capped_witness :
  exists s', resolve_mutual_loss_claim (N := some_mutual_names) (at_ledger 100) 0
      (mutual_replay mutual_history mutual_vault) = Ok 15 s' /\
    get_fund s' = get_fund (mutual_replay mutual_history mutual_vault) - 15.
Proof.
  destruct (get_event 0 (mutual_replay mutual_history mutual_vault)) as [e|] eqn:He; [|by vm_compute in He].
  assert (ml_claimant e = 3%positive /\ ml_requested_amount e = 15) as [Hc Hr]
    by (vm_compute in He; by injection He as <-).
  destruct (succeeds_run (resolve_mutual_loss_claim (N := some_mutual_names) (at_ledger 100) 0
    (mutual_replay mutual_history mutual_vault)) (fun p _ => p =? 15)) as (p & s' & H & Hp);
    [vm_compute; reflexivity|].
  apply Z.eqb_eq in Hp as ->. exists s'. split; [exact H|].
  apply (resolution_pays_capped (N := some_mutual_names) token_world_standard (at_ledger 100) 9%positive 0 e 15 _ s').
  - vm_compute. reflexivity.
  - exact He.
  - by rewrite Hc.
  - vm_compute. discriminate.
  - by rewrite Hr.
  - exact H.
Defined.

Lemma mutual_claim_pays_stake_token_witness :
  exists s', claim_reward_with_mutual_contribution (N := some_mutual_names) (at_ledger 12) 3
      (mutual_replay (take 2 mutual_history) mutual_vault) = Ok 80 s' /\
    balance_of 9 3 s' = balance_of 9 3 (mutual_replay (take 2 mutual_history) mutual_vault) + 80 /\
    balance_of 8 3 s' = balance_of 8 3 (mutual_replay (take 2 mutual_history) mutual_vault).
Proof.
  destruct (succeeds_run (claim_reward_with_mutual_contribution (N := some_mutual_names) (at_ledger 12) 3
    (mutual_replay (take 2 mutual_history) mutual_vault)) (fun p _ => p =? 80)) as (p & s' & H & Hp);
    [vm_compute; reflexivity|].
  apply Z.eqb_eq in Hp as ->. exists s'. split; [exact H|].
  destruct (mutual_claim_pays_stake_token (N := some_mutual_names) token_world_standard (at_ledger 12)
    9%positive 8%positive 3%positive 80 (mutual_replay (take 2 mutual_history) mutual_vault) s') as (_ & H2 & H3);
    [reflexivity|reflexivity|discriminate|discriminate|exact H|reflexivity|].
  split; [exact H2|apply H3].
Defined.
