(* ===== verification/CategoryGov.v ===== *)
(** * Categorised proposals, delegation and strategy allocation
    ([vault_extensions_761_764.rs])

    Proposals carry the rules of their category as they were at creation;
    expedited proposals lock a bond; votes are weighted by the value of the
    voter's shares and of those delegated to it; idle funds go to strategies
    under caps.

    The module uses an error type [GovernanceStrategyError] that no file
    declares, and calls event helpers that [events.rs] does not declare with
    those arguments; both are fields of [GovNames], which says only that the
    helpers publish an event, as every function of [events.rs] does. *)

From S2P Require Import Prelude Errors Storage Host Concrete Accessors Admin Shares RewardMath Accrual RewardRate.
From S2P Require Import MultiReward Checkpoints Balance Limits.

Class GovNames := {
  gs_error : Type;
  gs_from : VaultError.t -> gs_error;
  gs_InvalidBps : gs_error;
  gs_InvalidPeriod : gs_error;
  gs_PositionNotFound : gs_error;
  gs_ProposalNotFound : gs_error;
  gs_VotingStillActive : gs_error;
  gs_AlreadyVoted : gs_error;
  gs_ArithmeticError : gs_error;
  gs_ProposalAlreadyEnacted : gs_error;
  gs_ProposalVetoed : gs_error;
  gs_QuorumNotMet : gs_error;
  gs_ThresholdNotMet : gs_error;
  gs_ZeroAmount : gs_error;
  gs_InsufficientBond : gs_error;
  gs_ExpeditedLimitReached : gs_error;
  gs_DelayNotElapsed : gs_error;
  gs_SelfDelegationNotAllowed : gs_error;
  gs_DelegationExpired : gs_error;
  gs_MaxStrategiesReached : gs_error;
  gs_StrategyAlreadyExists : gs_error;
  gs_StrategyCapExceeded : gs_error;
  gs_StrategyNotFound : gs_error;
  gs_AdapterCallFailed : gs_error;
  (** the event a helper of that name publishes *)
  gs_event : string -> list val -> Event
}.
#[export] Instance from_gs_error `{GovNames} : From VaultError.t gs_error := gs_from.

Definition BOOST_BPS_BASE : Z := 10000.
Definition MAX_OPEN_EXPEDITED_PROPOSALS : Z := 3.
Definition MIN_EXPEDITED_BOND : Z := 100000000.
Definition EXPEDITED_VOTING_PERIOD_LEDGERS : Z := 200.
Definition EXPEDITED_EXECUTION_DELAY_LEDGERS : Z := 50.
Definition EXPEDITED_QUORUM_BPS : Z := 4000.
Definition EXPEDITED_THRESHOLD_BPS : Z := 7500.
Definition MAX_STRATEGIES : nat := 3.

(** [category as u32]. *)
Definition category_code (c : ProposalCategory) : Z :=
  match c with CParameter => 0 | CTreasury => 1 | CUpgrade => 2 | COther => 3 end.

Definition default_for (category : ProposalCategory) : CategoryParams :=
  match category with
  | CParameter => mkCategoryParams 1000 5000 1000
  | CTreasury => mkCategoryParams 2000 6000 2000
  | CUpgrade => mkCategoryParams 3000 6667 5000
  | COther => mkCategoryParams 1000 5000 1000
  end.

Definition parameter_val (p : ProposableParam) : val :=
  match p with
  | PRewardRate => VSym "RewardRate"
  | PUnstakeFee => VSym "UnstakeFee"
  | PPoolCap => VSym "PoolCap"
  | PMinStake => VSym "MinStake"
  end.

Section CategoryGov.
Context {W : World} {N : GovNames} (env : Env).
Implicit Types s : State.

Definition helper_event (name : string) (args : list val) : M gs_error unit :=
  fun s => Ok tt (emit (gs_event name args) s).

(** ** Categories (issue 761) *)

Definition set_category_params (admin : Address) (category : ProposalCategory)
    (quorum_bps threshold_bps period_ledgers : Z) : M gs_error unit :=
  try_ (require_admin_as env admin) ;;;
  fail_if ((BOOST_BPS_BASE <? quorum_bps) || (BOOST_BPS_BASE <? threshold_bps) || (threshold_bps <? 5000))
    gs_InvalidBps ;;;
  fail_if (period_ledgers =? 0) gs_InvalidPeriod ;;;
  put (CatParams category) (mkCategoryParams quorum_bps threshold_bps period_ledgers) ;;;
  helper_event "category_params_set"
    [VAddr admin; VInt (category_code category); VInt quorum_bps; VInt threshold_bps; VInt period_ledgers;
     VInt (sequence env)].

Definition get_category_params (category : ProposalCategory) s : CategoryParams :=
  default (default_for category) (rd (CatParams category) s).

(** Taking the next proposal id. *)
Definition next_proposal_id : M gs_error Z :=
  let& stored := rd NextCatPropId in
  let id := default 1 stored in
  let! next := plain (to_u32 (id + 1)) in
  put NextCatPropId next ;;;
  ret id.

Definition get_categorized_proposal (id : Z) s : option CategorizedProposal := rd (CatProposals id) s.
Definition set_proposal (id : Z) (p : CategorizedProposal) : M gs_error unit := put (CatProposals id) p.

Definition create_categorized_proposal (user : Address) (category : ProposalCategory)
    (parameter : ProposableParam) (new_value : Z) : M gs_error Z :=
  require_auth env user ;;;
  let& shares := get_shares user in
  fail_if (shares =? 0) gs_PositionNotFound ;;;
  let& cat_params := get_category_params category in
  let! id := next_proposal_id in
  let current_ledger := sequence env in
  let ends_at := u32_sat_add current_ledger (cg_period_ledgers cat_params) in
  set_proposal id
    (mkCategorizedProposal id user category (cg_quorum_bps cat_params) (cg_threshold_bps cat_params)
       (cg_period_ledgers cat_params) parameter new_value 0 0 current_ledger ends_at 0 0 false false false) ;;;
  publish [VSym "prop_new"; VAddr user] [VInt id; VInt ends_at] ;;;
  ret id.

(** ** Delegation (issue 763) *)

Definition delegators_of (delegate : Address) s : list Address := default [] (rd (DelegatorList delegate) s).

Definition delegate_vote_weight_with_expiry (delegator delegate : Address) (expires_at : option Z)
    : M gs_error unit :=
  require_auth env delegator ;;;
  fail_if (bool_decide (delegator = delegate)) gs_SelfDelegationNotAllowed ;;;
  let current_ledger := sequence env in
  (match expires_at with
   | Some exp => fail_if (exp <=? current_ledger) gs_DelegationExpired
   | None => ret tt
   end) ;;;
  put (VoteExp delegator) (mkDelegationRecord delegate expires_at) ;;;
  let& delegator_list := delegators_of delegate in
  (if bool_decide (delegator ∈ delegator_list) then ret tt
   else put (DelegatorList delegate) (delegator_list ++ [delegator])) ;;;
  helper_event "vote_delegation_with_expiry_set"
    [VAddr delegator; VAddr delegate; match expires_at with Some e => VInt e | None => VVoid end;
     VInt current_ledger].

(** [exp <= ledger] for a delegation that expires. *)
Definition expired_at (r : DelegationRecord) (ledger : Z) : bool :=
  match dr_expires_at r with Some exp => exp <=? ledger | None => false end.

Definition get_delegate (user : Address) s : option (Address * option Z) :=
  match rd (VoteExp user) s with
  | Some r => if expired_at r (sequence env) then None else Some (dr_delegate r, dr_expires_at r)
  | None => None
  end.

Definition is_delegation_active_at (user : Address) (snapshot_ledger : Z) s : option Address :=
  match rd (VoteExp user) s with
  | Some r => if expired_at r snapshot_ledger then None else Some (dr_delegate r)
  | None => None
  end.

(** [shares_to_amount(..).unwrap_or(0)] for the shares of [user]. *)
Definition share_value (user : Address) s : Z :=
  default 0 (shares_to_amount (get_total_shares s) (get_total_deposited s) (get_shares user s)).

Definition own_weight (user : Address) (snapshot_ledger : Z) s : Z :=
  match is_delegation_active_at user snapshot_ledger s with
  | Some _ => 0
  | None => if get_shares user s =? 0 then 0 else share_value user s
  end.

(** The loop over the delegators of [user]. *)
Fixpoint add_delegated (user : Address) (snapshot_ledger : Z) s (total_weight : Z) (l : list Address)
    : option Z :=
  match l with
  | [] => Some total_weight
  | delegator :: l =>
      match is_delegation_active_at delegator snapshot_ledger s with
      | Some target =>
          if bool_decide (target = user) && (0 <? get_shares delegator s) then
            w ← checked_add total_weight (share_value delegator s);
            add_delegated user snapshot_ledger s w l
          else add_delegated user snapshot_ledger s total_weight l
      | None => add_delegated user snapshot_ledger s total_weight l
      end
  end.

Definition effective_vote_weight_at_ledger (user : Address) (snapshot_ledger : Z) : M gs_error Z :=
  let& total := (fun s => add_delegated user snapshot_ledger s (own_weight user snapshot_ledger s)
                            (delegators_of user s)) in
  ok_or total gs_ArithmeticError.

Definition get_effective_vote_weight (user : Address) : M gs_error Z :=
  effective_vote_weight_at_ledger user (sequence env).

(** ** Voting and enactment *)

Definition with_tally (p : CategorizedProposal) (votes_for votes_against : Z) : CategorizedProposal :=
  mkCategorizedProposal (pp_id p) (pp_proposer p) (pp_category p) (pp_snapshotted_quorum_bps p)
    (pp_snapshotted_threshold_bps p) (pp_snapshotted_period_ledgers p) (pp_parameter p) (pp_new_value p)
    votes_for votes_against (pp_created_at p) (pp_ends_at p) (pp_execution_delay_ledgers p)
    (pp_bond_amount p) (pp_is_expedited p) (pp_vetoed p) (pp_enacted p).
Definition with_flags (p : CategorizedProposal) (vetoed enacted : bool) : CategorizedProposal :=
  mkCategorizedProposal (pp_id p) (pp_proposer p) (pp_category p) (pp_snapshotted_quorum_bps p)
    (pp_snapshotted_threshold_bps p) (pp_snapshotted_period_ledgers p) (pp_parameter p) (pp_new_value p)
    (pp_votes_for p) (pp_votes_against p) (pp_created_at p) (pp_ends_at p) (pp_execution_delay_ledgers p)
    (pp_bond_amount p) (pp_is_expedited p) vetoed enacted.
Definition with_enacted (p : CategorizedProposal) : CategorizedProposal := with_flags p (pp_vetoed p) true.

Definition vote_categorized_proposal (user : Address) (proposal_id : Z) (support : bool) : M gs_error unit :=
  require_auth env user ;;;
  let& stored := get_categorized_proposal proposal_id in
  let! proposal := ok_or stored gs_ProposalNotFound in
  fail_if (pp_enacted proposal || (pp_ends_at proposal <? sequence env)) gs_VotingStillActive ;;;
  let& voted := has (CatVoted proposal_id user) in
  fail_if voted gs_AlreadyVoted ;;;
  let! weight := get_effective_vote_weight user in
  fail_if (weight <=? 0) gs_PositionNotFound ;;;
  let! proposal :=
    (if support then
       let! v := ok_or (checked_add (pp_votes_for proposal) weight) gs_ArithmeticError in
       ret (with_tally proposal v (pp_votes_against proposal))
     else
       let! v := ok_or (checked_add (pp_votes_against proposal) weight) gs_ArithmeticError in
       ret (with_tally proposal (pp_votes_for proposal) v)) in
  set_proposal proposal_id proposal ;;;
  put (CatVoted proposal_id user) true ;;;
  publish [VSym "prop_vote"; VAddr user]
    [VInt proposal_id; VBool support; VInt weight; VInt (sequence env)].

Definition set_unstake_fee_bps {E} (bps : Z) : M E unit := put UnstakeFeeBps bps.
Definition set_pool_cap {E} (cap : Z) : M E unit := put PoolCap cap.
Definition set_min_stake {E} (amount : Z) : M E unit := put MinStake amount.

Definition apply_reward_rate (new_value : Z) : M gs_error unit :=
  let! rate := ok_or (to_u32 new_value) gs_ArithmeticError in
  try_ (validate_rate_bps rate) ;;;
  set_reward_rate_bps rate.
Definition apply_unstake_fee (new_value : Z) : M gs_error unit :=
  let! bps := ok_or (to_u32 new_value) gs_ArithmeticError in
  set_unstake_fee_bps bps.

(** The [match proposal.parameter] of [enact_categorized_proposal]. *)
Definition apply_parameter (parameter : ProposableParam) (new_value : Z) : M gs_error unit :=
  match parameter with
  | PRewardRate => apply_reward_rate new_value
  | PUnstakeFee => apply_unstake_fee new_value
  | PPoolCap => fail_if (new_value <? 0) gs_ZeroAmount ;;; set_pool_cap new_value
  | PMinStake => fail_if (new_value <? 0) gs_ZeroAmount ;;; set_min_stake new_value
  end.
(** That of [enact_expedited_proposal], which does not check the sign. *)
Definition apply_parameter_expedited (parameter : ProposableParam) (new_value : Z) : M gs_error unit :=
  match parameter with
  | PRewardRate => apply_reward_rate new_value
  | PUnstakeFee => apply_unstake_fee new_value
  | PPoolCap => set_pool_cap new_value
  | PMinStake => set_min_stake new_value
  end.

Definition total_votes_of (p : CategorizedProposal) : M gs_error Z :=
  ok_or (checked_add (pp_votes_for p) (pp_votes_against p)) gs_ArithmeticError.
Definition required_quorum (p : CategorizedProposal) : M gs_error Z :=
  let& total_deposited := get_total_deposited in
  let! v := ok_or (checked_mul total_deposited (pp_snapshotted_quorum_bps p)) gs_ArithmeticError in
  ret (Z.quot v BOOST_BPS_BASE).
(** The division traps when nobody voted. *)
Definition pass_pct (p : CategorizedProposal) (total_votes : Z) : M gs_error Z :=
  let! v := ok_or (checked_mul (pp_votes_for p) BOOST_BPS_BASE) gs_ArithmeticError in
  plain (checked_div v total_votes).

Definition prop_enacted (p : CategorizedProposal) (proposal_id total_votes : Z) : M gs_error unit :=
  publish [VSym "prop_enct"; VAddr (self env)]
    [VInt proposal_id; parameter_val (pp_parameter p); VInt (pp_new_value p); VInt total_votes;
     VInt (sequence env)].

Definition enact_categorized_proposal (proposal_id : Z) : M gs_error unit :=
  let& stored := get_categorized_proposal proposal_id in
  let! proposal := ok_or stored gs_ProposalNotFound in
  fail_if (pp_enacted proposal) gs_ProposalAlreadyEnacted ;;;
  fail_if (sequence env <=? pp_ends_at proposal) gs_VotingStillActive ;;;
  fail_if (pp_vetoed proposal) gs_ProposalVetoed ;;;
  let! total_votes := total_votes_of proposal in
  let! quorum := required_quorum proposal in
  if total_votes <? quorum then
    set_proposal proposal_id (with_enacted proposal) ;;;
    throw gs_QuorumNotMet
  else
    let! pct := pass_pct proposal total_votes in
    if pct <? pp_snapshotted_threshold_bps proposal then
      set_proposal proposal_id (with_enacted proposal) ;;;
      throw gs_ThresholdNotMet
    else
      apply_parameter (pp_parameter proposal) (pp_new_value proposal) ;;;
      set_proposal proposal_id (with_enacted proposal) ;;;
      prop_enacted proposal proposal_id total_votes.

(** ** Expedited proposals (issue 762) *)

Definition create_expedited_proposal (user : Address) (parameter : ProposableParam)
    (new_value bond_amount : Z) : M gs_error Z :=
  require_auth env user ;;;
  let& shares := get_shares user in
  fail_if (shares =? 0) gs_PositionNotFound ;;;
  fail_if (bond_amount <? MIN_EXPEDITED_BOND) gs_InsufficientBond ;;;
  let& stored := rd OpenExpedited in
  let open_expedited := default 0 stored in
  fail_if (MAX_OPEN_EXPEDITED_PROPOSALS <=? open_expedited) gs_ExpeditedLimitReached ;;;
  let! token_addr := try_ token_address in
  transfer token_addr user (self env) bond_amount ;;;
  let! id := next_proposal_id in
  let current_ledger := sequence env in
  let ends_at := u32_sat_add current_ledger EXPEDITED_VOTING_PERIOD_LEDGERS in
  set_proposal id
    (mkCategorizedProposal id user CUpgrade EXPEDITED_QUORUM_BPS EXPEDITED_THRESHOLD_BPS
       EXPEDITED_VOTING_PERIOD_LEDGERS parameter new_value 0 0 current_ledger ends_at
       EXPEDITED_EXECUTION_DELAY_LEDGERS bond_amount true false false) ;;;
  let! next := plain (to_u32 (open_expedited + 1)) in
  put OpenExpedited next ;;;
  helper_event "expedited_proposal_created"
    [VAddr user; VInt id; VInt bond_amount; VInt ends_at; VInt current_ledger] ;;;
  ret id.

(** The decrement of the open counter. *)
Definition close_expedited : M gs_error unit :=
  let& stored := rd OpenExpedited in
  let open_expedited := default 1 stored in
  if 0 <? open_expedited then
    put OpenExpedited (open_expedited - 1)
  else ret tt.

Definition veto_expedited_proposal (guardian : Address) (proposal_id : Z) : M gs_error unit :=
  require_auth env guardian ;;;
  let& stored := get_categorized_proposal proposal_id in
  let! proposal := ok_or stored gs_ProposalNotFound in
  fail_if (pp_enacted proposal) gs_ProposalAlreadyEnacted ;;;
  set_proposal proposal_id (with_flags proposal true (pp_enacted proposal)) ;;;
  (if pp_is_expedited proposal then close_expedited else ret tt) ;;;
  helper_event "proposal_vetoed" [VInt proposal_id; VAddr guardian; VInt (sequence env)].

Definition refund_bond (token : Address) (p : CategorizedProposal) (proposal_id : Z) : M gs_error unit :=
  transfer token (self env) (pp_proposer p) (pp_bond_amount p) ;;;
  helper_event "expedited_bond_refunded"
    [VAddr (pp_proposer p); VInt proposal_id; VInt (pp_bond_amount p); VInt (sequence env)].

Definition enact_expedited_proposal (proposal_id : Z) : M gs_error unit :=
  let& stored := get_categorized_proposal proposal_id in
  let! proposal := ok_or stored gs_ProposalNotFound in
  fail_if (pp_enacted proposal) gs_ProposalAlreadyEnacted ;;;
  let current_ledger := sequence env in
  let execution_ledger := u32_sat_add (pp_ends_at proposal) (pp_execution_delay_ledgers proposal) in
  fail_if (current_ledger <=? execution_ledger) gs_DelayNotElapsed ;;;
  fail_if (pp_vetoed proposal) gs_ProposalVetoed ;;;
  let! token_addr := try_ token_address in
  let! total_votes := total_votes_of proposal in
  let! quorum := required_quorum proposal in
  close_expedited ;;;
  if total_votes <? quorum then
    set_proposal proposal_id (with_enacted proposal) ;;;
    let& pool_balance := get_reward_pool_balance in
    let! slashed := plain (checked_add pool_balance (pp_bond_amount proposal)) in
    set_reward_pool_balance slashed ;;;
    helper_event "expedited_bond_slashed"
      [VAddr (pp_proposer proposal); VInt proposal_id; VInt (pp_bond_amount proposal); VInt current_ledger] ;;;
    throw gs_QuorumNotMet
  else
    let! pct := pass_pct proposal total_votes in
    if pct <? pp_snapshotted_threshold_bps proposal then
      set_proposal proposal_id (with_enacted proposal) ;;;
      refund_bond token_addr proposal proposal_id ;;;
      throw gs_ThresholdNotMet
    else
      apply_parameter_expedited (pp_parameter proposal) (pp_new_value proposal) ;;;
      set_proposal proposal_id (with_enacted proposal) ;;;
      refund_bond token_addr proposal proposal_id ;;;
      prop_enacted proposal proposal_id total_votes.

(** ** Strategy adapters (issue 764) *)

(** [StrategyClient]: a contained call to the adapter; [into_val] traps on a
    result that is not an [i128]. *)
Definition adapter_deposit (adapter : Address) (amount : Z) : M gs_error unit :=
  let! r := try_call adapter "deposit" [VInt amount] in
  let! v := ok_or r gs_AdapterCallFailed in
  ret tt.
Definition into_i128 (v : val) : M gs_error Z :=
  match v with VInt z => ret z | _ => panic TUnwrap end.
Definition adapter_withdraw (adapter : Address) (amount : Z) : M gs_error Z :=
  let! r := try_call adapter "withdraw" [VInt amount] in
  let! v := ok_or r gs_AdapterCallFailed in
  into_i128 v.
Definition adapter_total_assets (adapter : Address) : M gs_error Z :=
  let! r := try_call adapter "total_assets" [] in
  let! v := ok_or r gs_AdapterCallFailed in
  into_i128 v.

Definition get_strategies s : list StrategyConfig := default [] (rd StrategyConfigs s).

(** The loop of [add_strategy]: the caps so far, unless the adapter is there. *)
Fixpoint sum_caps (adapter : Address) (total_caps : Z) (l : list StrategyConfig) : option Z :=
  match l with
  | [] => Some total_caps
  | strat :: l =>
      if bool_decide (sc_adapter strat = adapter) then None
      else sum_caps adapter (u32_sat_add total_caps (sc_cap_bps strat)) l
  end.

Definition add_strategy (admin adapter : Address) (cap_bps : Z) : M gs_error unit :=
  try_ (require_admin_as env admin) ;;;
  fail_if (BOOST_BPS_BASE <? cap_bps) gs_InvalidBps ;;;
  let& strategies := get_strategies in
  fail_if (MAX_STRATEGIES <=? length strategies)%nat gs_MaxStrategiesReached ;;;
  let! total_caps := ok_or (sum_caps adapter 0 strategies) gs_StrategyAlreadyExists in
  fail_if (BOOST_BPS_BASE <? u32_sat_add total_caps cap_bps) gs_StrategyCapExceeded ;;;
  put StrategyConfigs (strategies ++ [mkStrategyConfig adapter cap_bps 0]) ;;;
  helper_event "strategy_added" [VAddr admin; VAddr adapter; VInt cap_bps; VInt (sequence env)].

Definition with_allocation (c : StrategyConfig) (a : Z) : StrategyConfig :=
  mkStrategyConfig (sc_adapter c) (sc_cap_bps c) a.

(** The loop of [allocate_to_strategy]: the updated list and whether the
    adapter was found. *)
Fixpoint allocate_loop (adapter : Address) (amount total_deposited : Z) (l : list StrategyConfig)
    : M gs_error (list StrategyConfig * bool) :=
  match l with
  | [] => ret ([], false)
  | strat :: l =>
      if bool_decide (sc_adapter strat = adapter) then
        let! v := ok_or (checked_mul total_deposited (sc_cap_bps strat)) gs_ArithmeticError in
        let max_allocation := Z.quot v BOOST_BPS_BASE in
        let! new_allocated := ok_or (checked_add (sc_allocated strat) amount) gs_ArithmeticError in
        fail_if (max_allocation <? new_allocated) gs_StrategyCapExceeded ;;;
        let! rest := allocate_loop adapter amount total_deposited l in
        ret (with_allocation strat new_allocated :: rest.1, true)
      else
        let! rest := allocate_loop adapter amount total_deposited l in
        ret (strat :: rest.1, rest.2)
  end.

Definition allocate_to_strategy (keeper adapter : Address) (amount : Z) : M gs_error unit :=
  require_auth env keeper ;;;
  fail_if (amount <=? 0) gs_ZeroAmount ;;;
  let& stored := rd StrategyConfigs in
  let! strategies := ok_or stored gs_StrategyNotFound in
  let& total_deposited := get_total_deposited in
  let! updated := allocate_loop adapter amount total_deposited strategies in
  fail_if (negb updated.2) gs_StrategyNotFound ;;;
  put StrategyConfigs updated.1 ;;;
  let! token_addr := try_ token_address in
  transfer token_addr (self env) adapter amount ;;;
  adapter_deposit adapter amount ;;;
  helper_event "strategy_allocated" [VAddr keeper; VAddr adapter; VInt amount; VInt (sequence env)].

Fixpoint withdraw_loop (adapter : Address) (amount withdrawn : Z) (l : list StrategyConfig)
    : M gs_error (list StrategyConfig * bool * Z) :=
  match l with
  | [] => ret ([], false, withdrawn)
  | strat :: l =>
      if bool_decide (sc_adapter strat = adapter) then
        let! actual_withdrawn := adapter_withdraw adapter amount in
        let! rest := withdraw_loop adapter amount actual_withdrawn l in
        ret (with_allocation strat (sat_sub (sc_allocated strat) actual_withdrawn) :: rest.1.1, true, rest.2)
      else
        let! rest := withdraw_loop adapter amount withdrawn l in
        ret (strat :: rest.1.1, rest.1.2, rest.2)
  end.

Definition withdraw_from_strategy (admin adapter : Address) (amount : Z) : M gs_error Z :=
  try_ (require_admin_as env admin) ;;;
  fail_if (amount <=? 0) gs_ZeroAmount ;;;
  let& stored := rd StrategyConfigs in
  let! strategies := ok_or stored gs_StrategyNotFound in
  let! updated := withdraw_loop adapter amount 0 strategies in
  fail_if (negb updated.1.2) gs_StrategyNotFound ;;;
  put StrategyConfigs updated.1.1 ;;;
  helper_event "strategy_withdrawn" [VAddr adapter; VInt updated.2; VInt (sequence env)] ;;;
  ret updated.2.

(** [if let Ok(assets) = ..] of [total_strategy_assets]. *)
Fixpoint assets_loop {E} (total : Z) (l : list StrategyConfig) : M E Z :=
  match l with
  | [] => ret total
  | strat :: l =>
      let! r := catch (adapter_total_assets (sc_adapter strat)) in
      let assets := match r with inl assets => assets | inr _ => sc_allocated strat end in
      assets_loop (sat_add total assets) l
  end.
Definition total_strategy_assets {E} : M E Z :=
  let& strategies := get_strategies in
  assets_loop 0 strategies.

Definition total_vault_assets {E} : M E Z :=
  let& token := rd Token in
  match token with
  | None => ret 0
  | Some token_addr =>
      let& idle_balance := balance_of token_addr (self env) in
      let! strategy_assets := total_strategy_assets in
      ret (sat_add idle_balance strategy_assets)
  end.

Definition get_vault_share_price {E} : M E (Z * Z) :=
  let! total_assets := total_vault_assets in
  let& total_shares := get_total_shares in
  ret (total_assets, total_shares).

End CategoryGov.
