(* ===== verification/Voting.v ===== *)
(** * Governance proposals ([vault.rs], issue #216)

    Stakers propose a new value of a pool parameter, vote with the value of
    their stake and of the stake delegated to them, and anybody enacts what
    carried.  Around that core: a bond and its cancellation
    ([proposal_cancel.rs]), the proposer's minimum stake and the fate of the
    bond ([proposal_requirements.rs]), quorum and threshold frozen at creation
    ([governance_params.rs]), two vetoes ([vault.rs], [guardian_veto.rs]), the
    weighting modes ([quadratic_vote.rs]), changing a vote ([vote_change.rs])
    and voting on several proposals at once ([batch_vote.rs]).

    The contract declares [change_vote] twice.  [change_vote] below is that of
    [vote_change.rs]; it works on records that nothing writes.
    [change_vote_receipt] is the [change_vote] of
    [vault_extensions_757_760.rs], which moves the weight of the caller's
    receipt to the other side; both are operations of [VotingSystem.v].

    [events::vote_weight_mode_changed] and the error enum [VaultBoostGaugeError]
    are declared nowhere: they are fields of [VotingNames];
    [VaultExtError::InvalidVetoThreshold] likewise is an argument.  The accessors are those of [balance.rs]; the weight mode and
    the vote receipts are kept by [balance/governance_store.rs] alone. *)

From S2P Require Import Prelude Errors Storage Host Events Concrete Accessors Admin Shares RewardMath RewardRate Pause Limits Loans CapacityAuction CategoryGov.

Class VotingNames := {
  vote_weight_mode_changed : Address -> VoteWeightMode -> Z -> Event;
  VaultBoostGaugeError : Type;
  BgProposalNotFound : VaultBoostGaugeError;
  BgProposalEnacted : VaultBoostGaugeError;
  BgVotingEnded : VaultBoostGaugeError;
  BgNotVoted : VaultBoostGaugeError;
  BgArithmeticError : VaultBoostGaugeError
}.

Definition MAX_OPEN_PROPOSALS : Z := 10.
Definition MAX_UNSTAKE_FEE_BPS : Z := 500.
Definition DEFAULT_EXECUTION_DELAY_LEDGERS : Z := 17280.
Definition DEFAULT_MAX_VOTE_CHANGES : Z := 3.
Definition MAX_BATCH_VOTES : nat := 10.

(** The error enums of the modules. *)
Inductive GuardianVetoError :=
| GvNotInitialized | GvUnauthorized | GvProposalNotFound | GvProposalNotPassed
| GvOutsideVetoWindow | GvAlreadyEnacted | GvAlreadyVetoed | GvVetoLimitReached.
Inductive ProposalCancelError :=
| PcNotInitialized | PcUnauthorized | PcProposalNotFound | PcAlreadyEnacted
| PcAlreadyCancelled | PcWindowClosed | PcArithmeticError.
Inductive ProposalRequirementsError := PrNotInitialized | PrUnauthorized | PrInvalidRequirements.
Inductive VoteChangeError :=
| VcNotInitialized | VcUnauthorized | VcProposalNotFound | VcProposalClosed
| VcNotVoted | VcNoChange | VcChangeLimitReached | VcArithmeticError.
Inductive BatchVoteError := BvUnauthorized | BvPositionNotFound | BvBatchTooLarge | BvArithmeticError.

(** The reasons of a [batch_vote] entry. *)
Inductive reason :=
| REASON_OK | REASON_NOT_FOUND | REASON_ALREADY_VOTED | REASON_ENDED | REASON_ENACTED
| REASON_CANCELLED | REASON_NO_POSITION.

Section Voting.
Context {W : World} {N : VotingNames} (env : Env).
Implicit Types s : State.

(** ** Storage ([balance.rs], [balance/governance_store.rs]) *)

Definition get_next_proposal_id s : Z := default 0 (rd NextProposalId s).
Definition set_next_proposal_id {E} (id : Z) : M E unit := put NextProposalId id.
Definition get_open_proposal_count s : Z := default 0 (rd OpenProposals s).
Definition set_open_proposal_count {E} (count : Z) : M E unit := put OpenProposals count.
Definition get_proposal (id : Z) s : option GovernanceProposal := rd (GovProposal id) s.
Definition set_proposal {E} (id : Z) (proposal : GovernanceProposal) : M E unit := put (GovProposal id) proposal.
Definition has_voted (proposal_id : Z) (voter : Address) s : bool := default false (rd (VotedOn proposal_id voter) s).
Definition set_voted {E} (proposal_id : Z) (voter : Address) : M E unit := put (VotedOn proposal_id voter) true.
Definition get_veto_threshold_bps s : Z := default 0 (rd VetoBps s).
Definition set_veto_threshold_bps_value {E} (bps : Z) : M E unit := put VetoBps bps.
Definition get_proposal_vetoer (proposal_id : Z) s : option Address := rd (VetoerOf proposal_id) s.
Definition set_proposal_vetoer {E} (proposal_id : Z) (vetoer : Address) : M E unit := put (VetoerOf proposal_id) vetoer.
Definition get_vote_delegate (user : Address) s : option Address := rd (VoteDelegate user) s.
Definition set_vote_delegate {E} (user delegate : Address) : M E unit := put (VoteDelegate user) delegate.
Definition remove_vote_delegate {E} (user : Address) : M E unit := del (VoteDelegate user).
Definition get_delegated_weight_snapshot (user : Address) s : Z := default 0 (rd (DelegSnap user) s).
Definition set_delegated_weight_snapshot {E} (user : Address) (weight : Z) : M E unit := put (DelegSnap user) weight.
Definition remove_delegated_weight_snapshot {E} (user : Address) : M E unit := del (DelegSnap user).
Definition get_delegated_vote_weight (delegate : Address) s : Z := default 0 (rd (DelegWeight delegate) s).
Definition set_delegated_vote_weight {E} (delegate : Address) (weight : Z) : M E unit := put (DelegWeight delegate) weight.
Definition get_vote_weight_mode s : VoteWeightMode := default VLinear (rd VoteMode s).
Definition set_vote_weight_mode_value {E} (mode : VoteWeightMode) : M E unit := put VoteMode mode.
Definition get_vote_receipt (proposal_id : Z) (voter : Address) s : option VoteReceipt := rd (VoteReceiptOf proposal_id voter) s.
Definition set_vote_receipt {E} (proposal_id : Z) (voter : Address) (receipt : VoteReceipt) : M E unit :=
  put (VoteReceiptOf proposal_id voter) receipt.

(** ** Weights ([quadratic_vote.rs]) *)

(** The [while y < x] loop; [isqrt_exact] shows that 127 rounds are enough. *)
Fixpoint isqrt_loop {E} (fuel : nat) (n x y : Z) : M E Z :=
  if y <? x then
    match fuel with
    | O => panic TBudget
    | S fuel =>
        let! q := plain (checked_div n y) in
        let! v := plain (checked_add y q) in
        isqrt_loop fuel n y (Z.shiftr v 1)
    end
  else ret x.
Definition isqrt {E} (n : Z) : M E Z :=
  if n <=? 0 then ret 0
  else if n =? 1 then ret 1
  else
    let! v := plain (checked_add n 1) in
    isqrt_loop 127 n n (Z.shiftr v 1).

Definition set_vote_weight_mode (admin : Address) (mode : VoteWeightMode) : M VaultError.t unit :=
  require_admin_as env admin ;;;
  set_vote_weight_mode_value mode ;;;
  (fun s => Ok tt (emit (vote_weight_mode_changed admin mode (sequence env)) s)).

(** [raw] under a mode. *)
Definition weighted {E} (mode : VoteWeightMode) (raw : Z) : M E Z :=
  match mode with VLinear => ret raw | VQuadratic => isqrt raw end.

(** ** Quorum and threshold ([governance_params.rs]) *)

Definition get_params s : option GovernanceParams := rd GovParams s.

Definition snapshot {E} (proposal_id : Z) : M E unit :=
  let& stored := get_params in
  match stored with
  | None => ret tt
  | Some params =>
      put (GovSnapshot proposal_id) params ;;;
      let& total_deposited := get_total_deposited in
      put (GovBase proposal_id) total_deposited
  end.

Definition passes (proposal_id votes_for votes_against : Z) : M VaultError.t bool :=
  let& stored := rd (GovSnapshot proposal_id) in
  match stored with
  | None => ret (votes_against <? votes_for)
  | Some params =>
      let! total_votes := ok_or (checked_add votes_for votes_against) VaultError.ArithmeticError in
      if total_votes =? 0 then ret false
      else
        let! participation := ok_or (checked_mul total_votes BPS) VaultError.ArithmeticError in
        let& base := rd (GovBase proposal_id) in
        let total_staked := default 0 base in
        let! required := ok_or (checked_mul total_staked (gm_quorum_bps params)) VaultError.ArithmeticError in
        if participation <? required then ret false
        else
          let! support := ok_or (checked_mul votes_for BPS) VaultError.ArithmeticError in
          let! needed := ok_or (checked_mul total_votes (gm_pass_threshold_bps params)) VaultError.ArithmeticError in
          ret (needed <=? support)
  end.

Definition set_governance_params (admin : Address) (quorum_bps pass_threshold_bps : Z) : M VaultError.t unit :=
  require_admin_as env admin ;;;
  fail_if ((BPS <? quorum_bps) || (pass_threshold_bps =? 0) || (BPS <? pass_threshold_bps)) VaultError.InvalidRate ;;;
  put GovParams (mkGovernanceParams quorum_bps pass_threshold_bps) ;;;
  publish [VSym "gov_par"; VAddr admin] [VInt quorum_bps; VInt pass_threshold_bps; VInt (sequence env)].

(** ** The guardian's veto ([guardian_veto.rs]) *)

Definition execution_delay_ledgers s : Z := default DEFAULT_EXECUTION_DELAY_LEDGERS (rd VetoDelay s).
Definition guardian_veto_limit s : Z := default 0 (rd VetoLimit s).
Definition guardian_veto_count s : Z := default 0 (rd VetoCount s).
Definition get_veto_record (proposal_id : Z) s : option GuardianVetoRecord := rd (GuardianVeto proposal_id) s.
Definition is_vetoed (proposal_id : Z) s : bool :=
  match get_veto_record proposal_id s with Some _ => true | None => false end.

(** [require_auth], then [admin::get_admin] compared, under a module's own errors. *)
Definition require_stored_admin {E} (NotInitialized Unauthorized : E) (admin_addr : Address) : M E unit :=
  require_auth env admin_addr ;;;
  let! r := catch get_admin in
  match r with
  | inl admin => fail_if (negb (bool_decide (admin_addr = admin))) Unauthorized
  | inr _ => throw NotInitialized
  end.

Definition set_execution_delay (admin_addr : Address) (delay_ledgers : Z) : M GuardianVetoError unit :=
  require_stored_admin GvNotInitialized GvUnauthorized admin_addr ;;;
  put VetoDelay delay_ledgers.
Definition set_guardian_veto_limit (admin_addr : Address) (max_vetoes : Z) : M GuardianVetoError unit :=
  require_stored_admin GvNotInitialized GvUnauthorized admin_addr ;;;
  put VetoLimit max_vetoes.
Definition reset_guardian_veto_count (admin_addr : Address) : M GuardianVetoError unit :=
  require_stored_admin GvNotInitialized GvUnauthorized admin_addr ;;;
  put VetoCount 0.

Definition guardian_veto_proposal (guardian : Address) (proposal_id : Z) (reason_hash : list Byte.byte)
    : M GuardianVetoError unit :=
  require_auth env guardian ;;;
  let& guards := is_guardian guardian in
  fail_if (negb guards) GvUnauthorized ;;;
  let& limit := guardian_veto_limit in
  let& used := guardian_veto_count in
  fail_if ((0 <? limit) && (limit <=? used)) GvVetoLimitReached ;;;
  let& stored := get_proposal proposal_id in
  let! proposal := ok_or stored GvProposalNotFound in
  fail_if (gp_enacted proposal) GvAlreadyEnacted ;;;
  let& vetoed := is_vetoed proposal_id in
  fail_if vetoed GvAlreadyVetoed ;;;
  fail_if (gp_votes_for proposal <=? gp_votes_against proposal) GvProposalNotPassed ;;;
  let now := sequence env in
  let& delay := execution_delay_ledgers in
  let executable_at := u32_sat_add (gp_ends_at proposal) delay in
  fail_if ((now <=? gp_ends_at proposal) || (executable_at <=? now)) GvOutsideVetoWindow ;;;
  put (GuardianVeto proposal_id) (mkGuardianVetoRecord guardian reason_hash now) ;;;
  let! used := plain (to_u32 (used + 1)) in
  put VetoCount used ;;;
  Ev.guardian_proposal_vetoed guardian proposal_id reason_hash now.

(** ** The stake-weighted veto ([vault.rs], issue #241) *)

Definition set_veto_threshold_bps (InvalidVetoThreshold : VaultExtError.t) (admin : Address) (bps : Z) : M VaultExtError.t unit :=
  try_ (require_admin_as env admin) ;;;
  fail_if (BPS <? bps) InvalidVetoThreshold ;;;
  set_veto_threshold_bps_value bps.

Definition veto_proposal (user : Address) (proposal_id : Z) : M VaultExtError.t unit :=
  require_auth env user ;;;
  let& threshold_bps := get_veto_threshold_bps in
  fail_if (threshold_bps =? 0) VaultExtError.BelowVetoThreshold ;;;
  let& stored := get_proposal proposal_id in
  let! proposal := ok_or stored VaultExtError.NotInitialized in
  fail_if (gp_enacted proposal) VaultExtError.AlreadyVetoed ;;;
  let& vetoer := get_proposal_vetoer proposal_id in
  fail_if (match vetoer with Some _ => true | None => false end) VaultExtError.AlreadyVetoed ;;;
  let& shares := get_shares user in
  let& total_shares := get_total_shares in
  let stake_bps :=
    if (total_shares =? 0) || (shares =? 0) then 0
    else (default 0 (checked_div (default 0 (checked_mul shares BPS)) total_shares)) mod 2 ^ 32 in
  fail_if (stake_bps <? threshold_bps) VaultExtError.BelowVetoThreshold ;;;
  set_proposal_vetoer proposal_id user ;;;
  Ev.proposal_vetoed user proposal_id stake_bps (sequence env).

(** ** Bonds and cancellation ([proposal_cancel.rs]) *)

Definition bond_amount s : Z := default 0 (rd ProposalBond s).
Definition set_bond_amount {E} (amount : Z) : M E unit := put ProposalBond amount.
Definition cancellation_cutoff_ledgers s : Z := default 0 (rd CancelCutoff s).
Definition get_meta (proposal_id : Z) s : option ProposalMeta := rd (ProposalMetaOf proposal_id) s.
Definition record_proposal_created {E} (proposal_id : Z) (proposer : Address) (created_at bond_paid : Z) : M E unit :=
  put (ProposalMetaOf proposal_id) (mkProposalMeta proposer created_at bond_paid).
Definition is_cancelled (proposal_id : Z) s : bool := default false (rd (Cancelled proposal_id) s).

Definition set_proposal_bond (admin_addr : Address) (amount : Z) : M ProposalCancelError unit :=
  require_stored_admin PcNotInitialized PcUnauthorized admin_addr ;;;
  fail_if (amount <? 0) PcArithmeticError ;;;
  set_bond_amount amount.
Definition set_cancellation_cutoff (admin_addr : Address) (cutoff_ledgers : Z) : M ProposalCancelError unit :=
  require_stored_admin PcNotInitialized PcUnauthorized admin_addr ;;;
  put CancelCutoff cutoff_ledgers.

(** One open proposal fewer, if the counter is not at zero. *)
Definition close_slot {E} : M E unit :=
  let& open_count := get_open_proposal_count in
  if 0 <? open_count then set_open_proposal_count (open_count - 1) else ret tt.

Definition cancel_proposal (proposer : Address) (proposal_id : Z) : M ProposalCancelError unit :=
  require_auth env proposer ;;;
  let& stored := get_proposal proposal_id in
  let! proposal := ok_or stored PcProposalNotFound in
  fail_if (gp_enacted proposal) PcAlreadyEnacted ;;;
  let& cancelled := is_cancelled proposal_id in
  fail_if cancelled PcAlreadyCancelled ;;;
  let& stored := get_meta proposal_id in
  let! meta := ok_or stored PcProposalNotFound in
  fail_if (negb (bool_decide (mt_proposer meta = proposer))) PcUnauthorized ;;;
  fail_if (negb (gp_votes_for proposal =? 0) || negb (gp_votes_against proposal =? 0)) PcWindowClosed ;;;
  let& cutoff := cancellation_cutoff_ledgers in
  fail_if ((0 <? cutoff) && (u32_sat_add (mt_created_at meta) cutoff <? sequence env)) PcWindowClosed ;;;
  put (Cancelled proposal_id) true ;;;
  close_slot ;;;
  (if 0 <? mt_bond_paid meta then
     let! r := catch token_address in
     match r with
     | inl token_addr => transfer token_addr (self env) proposer (mt_bond_paid meta)
     | inr _ => throw PcNotInitialized
     end
   else ret tt) ;;;
  Ev.proposal_cancelled proposer proposal_id (mt_bond_paid meta) (sequence env).

(** ** Requirements and the fate of the bond ([proposal_requirements.rs]) *)

Definition min_stake_amount s : Z := default 0 (rd MinProposalStake s).
Definition quorum_bps s : Z := default 0 (rd ProposalQuorum s).
Definition is_settled (proposal_id : Z) s : bool := default false (rd (BondSettled proposal_id) s).
Definition mark_settled {E} (proposal_id : Z) : M E unit := put (BondSettled proposal_id) true.

Definition meets_quorum (total_votes total_shares quorum_bps_value : Z) : bool :=
  if quorum_bps_value =? 0 then true
  else if total_shares <=? 0 then false
  else match checked_mul total_votes BPS with
       | Some scaled => sat_mul quorum_bps_value total_shares <=? scaled
       | None => true
       end.

(** Where a bond that missed the quorum goes. *)
Definition slash_destination s : option Address :=
  match get_slash_treasury s with
  | Some treasury => Some treasury
  | None => match get_admin s with Ok admin _ => Some admin | _ => None end
  end.

Definition settle_bond (proposal_id votes_for votes_against : Z) : M VaultError.t unit :=
  let& settled := is_settled proposal_id in
  if settled then ret tt
  else
    mark_settled proposal_id ;;;
    let& stored := get_meta proposal_id in
    match stored with
    | None => ret tt
    | Some meta =>
        if negb (0 <? mt_bond_paid meta) then ret tt
        else
          let total_votes := sat_add votes_for votes_against in
          let& total_shares := get_total_shares in
          let& quorum := quorum_bps in
          let reached_quorum := meets_quorum total_votes total_shares quorum in
          let! r := catch (E':=VaultError.t) token_address in
          match r with
          | inr _ => ret tt
          | inl token_addr =>
              if reached_quorum then
                transfer token_addr (self env) (mt_proposer meta) (mt_bond_paid meta) ;;;
                Ev.proposal_bond_refunded (mt_proposer meta) proposal_id (mt_bond_paid meta) (sequence env)
              else
                let& destination := slash_destination in
                (match destination with
                 | Some destination => transfer token_addr (self env) destination (mt_bond_paid meta)
                 | None => ret tt
                 end) ;;;
                Ev.proposal_bond_slashed (mt_proposer meta) proposal_id (mt_bond_paid meta) (sequence env)
          end
    end.

Definition set_proposal_requirements (admin_addr : Address) (min_stake bond : Z) : M ProposalRequirementsError unit :=
  require_stored_admin PrNotInitialized PrUnauthorized admin_addr ;;;
  fail_if ((min_stake <? 0) || (bond <? 0)) PrInvalidRequirements ;;;
  put MinProposalStake min_stake ;;;
  set_bond_amount bond.
Definition set_proposal_quorum_bps (admin_addr : Address) (bps : Z) : M ProposalRequirementsError unit :=
  require_stored_admin PrNotInitialized PrUnauthorized admin_addr ;;;
  fail_if (BPS <? bps) PrInvalidRequirements ;;;
  put ProposalQuorum bps.

(** ** Proposals ([vault.rs]) *)

(** The minimum-stake gate of a proposer. *)
Definition require_proposer_stake (proposer_shares : Z) : M VaultError.t unit :=
  let& min_stake := min_stake_amount in
  if 0 <? min_stake then
    let& total_shares := get_total_shares in
    let& total_deposited := get_total_deposited in
    let! staked_amount := ok_or (shares_to_amount total_shares total_deposited proposer_shares) VaultError.ArithmeticError in
    fail_if (staked_amount <? min_stake) VaultError.PositionNotFound
  else ret tt.

(** The bond pulled from a proposer. *)
Definition pull_bond (user : Address) : M VaultError.t Z :=
  let& bond_due := bond_amount in
  if 0 <? bond_due then
    let! token_addr := token_address in
    pull_tokens env token_addr user bond_due
  else ret 0.

Definition create_proposal (user : Address) (parameter : ProposableParam) (new_value duration_ledgers : Z)
    : M VaultError.t Z :=
  require_auth env user ;;;
  let& proposer_shares := get_shares user in
  fail_if (proposer_shares =? 0) VaultError.PositionNotFound ;;;
  require_proposer_stake proposer_shares ;;;
  let& open_count := get_open_proposal_count in
  fail_if (MAX_OPEN_PROPOSALS <=? open_count) VaultError.MaxPositionsReached ;;;
  let& id := get_next_proposal_id in
  let created_at := sequence env in
  let ends_at := u32_sat_add created_at duration_ledgers in
  let& mode := get_vote_weight_mode in
  let proposal := mkGovernanceProposal id parameter new_value 0 0 ends_at false mode in
  let! bond_paid := pull_bond user in
  record_proposal_created id user created_at bond_paid ;;;
  set_proposal id proposal ;;;
  snapshot id ;;;
  let! next := plain (to_u32 (id + 1)) in
  set_next_proposal_id next ;;;
  let& open_count := get_open_proposal_count in
  let! open_count := plain (to_u32 (open_count + 1)) in
  set_open_proposal_count open_count ;;;
  Ev.proposal_created user id ends_at ;;;
  ret id.

(** The proposal with [weight] more on a side. *)
Definition with_vote (proposal : GovernanceProposal) (support : bool) (weight : Z) : option GovernanceProposal :=
  if support
  then v ← checked_add (gp_votes_for proposal) weight;
       Some (mkGovernanceProposal (gp_id proposal) (gp_parameter proposal) (gp_new_value proposal) v
               (gp_votes_against proposal) (gp_ends_at proposal) (gp_enacted proposal) (gp_weight_mode proposal))
  else v ← checked_add (gp_votes_against proposal) weight;
       Some (mkGovernanceProposal (gp_id proposal) (gp_parameter proposal) (gp_new_value proposal) (gp_votes_for proposal)
               v (gp_ends_at proposal) (gp_enacted proposal) (gp_weight_mode proposal)).

Definition vote (user : Address) (proposal_id : Z) (support : bool) : M VaultError.t unit :=
  require_auth env user ;;;
  let& stored := get_proposal proposal_id in
  let! proposal := ok_or stored VaultError.PositionNotFound in
  let& delegate := get_vote_delegate user in
  fail_if (match delegate with Some _ => true | None => false end) VaultError.Unauthorized ;;;
  let& shares := get_shares user in
  fail_if (shares =? 0) VaultError.PositionNotFound ;;;
  let& voted := has_voted proposal_id user in
  fail_if voted VaultError.TooManyStakers ;;;
  fail_if (gp_enacted proposal || (gp_ends_at proposal <? sequence env)) VaultError.BatchKycTooLarge ;;;
  let& cancelled := is_cancelled proposal_id in
  fail_if cancelled VaultError.BatchKycTooLarge ;;;
  let& total_shares := get_total_shares in
  let& total_deposited := get_total_deposited in
  let! raw_weight := ok_or (shares_to_amount total_shares total_deposited shares) VaultError.ArithmeticError in
  let! own_weight := weighted (gp_weight_mode proposal) raw_weight in
  let& delegated_weight := get_delegated_vote_weight user in
  let! weight := ok_or (checked_add own_weight delegated_weight) VaultError.ArithmeticError in
  let! proposal := ok_or (with_vote proposal support weight) VaultError.ArithmeticError in
  set_proposal proposal_id proposal ;;;
  set_voted proposal_id user ;;;
  set_vote_receipt proposal_id user (mkVoteReceipt support weight (sequence env)) ;;;
  Ev.proposal_voted user proposal_id support weight (sequence env).

(** The [match proposal.parameter] of [enact_proposal]. *)
Definition apply_proposal (parameter : ProposableParam) (new_value : Z) : M VaultError.t unit :=
  match parameter with
  | PRewardRate =>
      let! rate := ok_or (to_u32 new_value) VaultError.ArithmeticError in
      validate_rate_bps rate ;;;
      set_reward_rate_bps rate
  | PUnstakeFee =>
      let! bps := ok_or (to_u32 new_value) VaultError.ArithmeticError in
      fail_if (MAX_UNSTAKE_FEE_BPS <? bps) VaultError.UnstakeFeeTooHigh ;;;
      set_unstake_fee_bps bps
  | PPoolCap => fail_if (new_value <? 0) VaultError.ZeroAmount ;;; set_pool_cap new_value
  | PMinStake => fail_if (new_value <? 0) VaultError.ZeroAmount ;;; set_min_stake new_value
  end.

Definition enacted (p : GovernanceProposal) : GovernanceProposal :=
  mkGovernanceProposal (gp_id p) (gp_parameter p) (gp_new_value p) (gp_votes_for p) (gp_votes_against p)
    (gp_ends_at p) true (gp_weight_mode p).

(** The checks in front of an enactment: voted, waited, not vetoed. *)
Definition enactable (proposal_id : Z) : M VaultError.t GovernanceProposal :=
  let& stored := get_proposal proposal_id in
  let! proposal := ok_or stored VaultError.PositionNotFound in
  fail_if (gp_enacted proposal) VaultError.AlreadyInitialized ;;;
  let& cancelled := is_cancelled proposal_id in
  fail_if cancelled VaultError.BatchKycTooLarge ;;;
  let now := sequence env in
  fail_if (now <=? gp_ends_at proposal) VaultError.EpochNotFinalized ;;;
  let& delay := execution_delay_ledgers in
  fail_if ((gp_votes_against proposal <? gp_votes_for proposal) && (now <? u32_sat_add (gp_ends_at proposal) delay))
    VaultError.EpochNotFinalized ;;;
  let& vetoer := get_proposal_vetoer proposal_id in
  fail_if (match vetoer with Some _ => true | None => false end) VaultError.BatchKycTooLarge ;;;
  let& vetoed := is_vetoed proposal_id in
  fail_if vetoed VaultError.BatchKycTooLarge ;;;
  ret proposal.

(** [events::proposal_enacted]. *)
Definition proposal_enacted {E} (id : Z) (parameter : ProposableParam) (new_value total_votes ledger : Z) : M E unit :=
  publish [VSym "prop_enct"; VAddr (self env)]
    [VInt id; VVec [parameter_val parameter]; VInt new_value; VInt total_votes; VInt ledger].

Definition enact_proposal (proposal_id : Z) : M VaultError.t unit :=
  let! proposal := enactable proposal_id in
  let! carried := passes proposal_id (gp_votes_for proposal) (gp_votes_against proposal) in
  (if carried then apply_proposal (gp_parameter proposal) (gp_new_value proposal) else ret tt) ;;;
  let! total_votes := ok_or (checked_add (gp_votes_for proposal) (gp_votes_against proposal)) VaultError.ArithmeticError in
  set_proposal proposal_id (enacted proposal) ;;;
  close_slot ;;;
  proposal_enacted proposal_id (gp_parameter proposal) (gp_new_value proposal) total_votes (sequence env) ;;;
  settle_bond proposal_id (gp_votes_for proposal) (gp_votes_against proposal).

(** ** Delegation (issue #256) *)

Definition withdraw_delegated_weight {E} (user delegate : Address) : M E unit :=
  let& snapshot := get_delegated_weight_snapshot user in
  let& combined := get_delegated_vote_weight delegate in
  let! rest := plain (checked_sub combined snapshot) in
  set_delegated_vote_weight delegate (Z.max rest 0) ;;;
  remove_delegated_weight_snapshot user.

(** The delegation of [user] from its stake of the moment. *)
Definition delegate_stake (user delegate : Address) (shares : Z) : M VaultError.t unit :=
  let& total_shares := get_total_shares in
  let& total_deposited := get_total_deposited in
  let! weight := ok_or (shares_to_amount total_shares total_deposited shares) VaultError.ArithmeticError in
  set_vote_delegate user delegate ;;;
  set_delegated_weight_snapshot user weight ;;;
  let& combined := get_delegated_vote_weight delegate in
  let! combined := ok_or (checked_add combined weight) VaultError.ArithmeticError in
  set_delegated_vote_weight delegate combined ;;;
  Ev.vote_delegated user delegate weight (sequence env).

Definition delegate_vote_weight (user delegate : Address) : M VaultError.t unit :=
  require_auth env user ;;;
  if bool_decide (delegate = user) then ret tt
  else
    let& chained := get_vote_delegate delegate in
    fail_if (match chained with Some _ => true | None => false end) VaultError.NotADelegate ;;;
    let& shares := get_shares user in
    fail_if (shares =? 0) VaultError.PositionNotFound ;;;
    let& previous := get_vote_delegate user in
    match previous with
    | Some prev_delegate =>
        if bool_decide (prev_delegate = delegate) then ret tt
        else
          withdraw_delegated_weight user prev_delegate ;;;
          delegate_stake user delegate shares
    | None => delegate_stake user delegate shares
    end.

Definition revoke_vote_delegation (user : Address) : M VaultError.t unit :=
  require_auth env user ;;;
  let& stored := get_vote_delegate user in
  match stored with
  | None => ret tt
  | Some delegate =>
      withdraw_delegated_weight user delegate ;;;
      remove_vote_delegate user
  end.

(** ** Changing a vote ([vote_change.rs]) *)

Definition get_record (proposal_id : Z) (user : Address) s : option VoteRecord := rd (VoteRecordOf proposal_id user) s.
Definition record_vote {E} (user : Address) (proposal_id : Z) (support : bool) (weight : Z) : M E unit :=
  put (VoteRecordOf proposal_id user) (mkVoteRecord support weight).
Definition change_count (proposal_id : Z) (user : Address) s : Z := default 0 (rd (VoteChanges proposal_id user) s).
Definition max_changes s : Z := default DEFAULT_MAX_VOTE_CHANGES (rd MaxVoteChanges s).

Definition set_max_vote_changes (admin_addr : Address) (limit : Z) : M VoteChangeError unit :=
  require_stored_admin VcNotInitialized VcUnauthorized admin_addr ;;;
  put MaxVoteChanges limit.

(** The recorded weight moved from one side to the other. *)
Definition moved_vote (p : GovernanceProposal) (was_for : bool) (weight : Z) : option GovernanceProposal :=
  if was_for
  then for_ ← checked_sub (gp_votes_for p) weight; against ← checked_add (gp_votes_against p) weight;
       Some (mkGovernanceProposal (gp_id p) (gp_parameter p) (gp_new_value p) for_ against
               (gp_ends_at p) (gp_enacted p) (gp_weight_mode p))
  else against ← checked_sub (gp_votes_against p) weight; for_ ← checked_add (gp_votes_for p) weight;
       Some (mkGovernanceProposal (gp_id p) (gp_parameter p) (gp_new_value p) for_ against
               (gp_ends_at p) (gp_enacted p) (gp_weight_mode p)).

Definition change_vote (user : Address) (proposal_id : Z) (support : bool) : M VoteChangeError unit :=
  require_auth env user ;;;
  let& delegate := get_vote_delegate user in
  fail_if (match delegate with Some _ => true | None => false end) VcUnauthorized ;;;
  let& stored := get_proposal proposal_id in
  let! proposal := ok_or stored VcProposalNotFound in
  fail_if (gp_enacted proposal || (gp_ends_at proposal <? sequence env)) VcProposalClosed ;;;
  let& stored := get_record proposal_id user in
  let! record := ok_or stored VcNotVoted in
  fail_if (eqb (vd_support record) support) VcNoChange ;;;
  let& used := change_count proposal_id user in
  let& limit := max_changes in
  fail_if (limit <=? used) VcChangeLimitReached ;;;
  let! proposal := ok_or (moved_vote proposal (vd_support record) (vd_weight record)) VcArithmeticError in
  set_proposal proposal_id proposal ;;;
  record_vote user proposal_id support (vd_weight record) ;;;
  let! new_count := plain (to_u32 (used + 1)) in
  put (VoteChanges proposal_id user) new_count ;;;
  Ev.vote_changed user proposal_id support (vd_weight record) new_count (sequence env).

(** ** Changing a vote by its receipt ([vault_extensions_757_760.rs]) *)

(** The weight of a receipt moved to the other side; the side it leaves
    saturates. *)
Definition switched_vote (p : GovernanceProposal) (was_for : bool) (weight : Z) : option GovernanceProposal :=
  if was_for
  then against ← checked_add (gp_votes_against p) weight;
       Some (mkGovernanceProposal (gp_id p) (gp_parameter p) (gp_new_value p) (sat_sub (gp_votes_for p) weight) against
               (gp_ends_at p) (gp_enacted p) (gp_weight_mode p))
  else for_ ← checked_add (gp_votes_for p) weight;
       Some (mkGovernanceProposal (gp_id p) (gp_parameter p) (gp_new_value p) for_ (sat_sub (gp_votes_against p) weight)
               (gp_ends_at p) (gp_enacted p) (gp_weight_mode p)).

Definition change_vote_receipt (user : Address) (proposal_id : Z) (support : bool) : M VaultBoostGaugeError unit :=
  require_auth env user ;;;
  let& stored := get_proposal proposal_id in
  let! proposal := ok_or stored BgProposalNotFound in
  fail_if (gp_enacted proposal) BgProposalEnacted ;;;
  fail_if (gp_ends_at proposal <? sequence env) BgVotingEnded ;;;
  let& stored := get_vote_receipt proposal_id user in
  let! old_receipt := ok_or stored BgNotVoted in
  if eqb (vr_support old_receipt) support then ret tt
  else
    let! proposal := ok_or (switched_vote proposal (vr_support old_receipt) (vr_weight old_receipt)) BgArithmeticError in
    set_proposal proposal_id proposal ;;;
    set_vote_receipt proposal_id user (mkVoteReceipt support (vr_weight old_receipt) (sequence env)) ;;;
    Ev.proposal_vote_changed user proposal_id support (vr_weight old_receipt) (sequence env).

(** ** Batches ([batch_vote.rs]) *)

Definition set_last_vote_ledger {E} (user : Address) (ledger : Z) : M E unit := put (LastVoteLedger user) ledger.

(** The weight of a batch: the raw stake under the mode of the moment. *)
Definition vote_weight {E} (user : Address) : M E Z :=
  let& shares := get_shares user in
  if shares <=? 0 then ret 0
  else
    let& total_shares := get_total_shares in
    let& total_deposited := get_total_deposited in
    let raw := default 0 (shares_to_amount total_shares total_deposited shares) in
    let& mode := get_vote_weight_mode in
    weighted mode raw.

(** One entry of a batch: the reason, [REASON_OK] for a vote that counted. *)
Definition batch_entry (user : Address) (weight : Z) (entry : Z * bool) : M BatchVoteError reason :=
  let (id, support) := entry in
  let now := sequence env in
  let& stored := get_proposal id in
  match stored with
  | None => ret REASON_NOT_FOUND
  | Some proposal =>
      let& cancelled := is_cancelled id in
      let& voted := has_voted id user in
      if gp_enacted proposal then ret REASON_ENACTED
      else if cancelled then ret REASON_CANCELLED
      else if gp_ends_at proposal <? now then ret REASON_ENDED
      else if voted then ret REASON_ALREADY_VOTED
      else if weight <=? 0 then ret REASON_NO_POSITION
      else
        let! proposal := ok_or (with_vote proposal support weight) BvArithmeticError in
        set_proposal id proposal ;;;
        set_voted id user ;;;
        set_vote_receipt id user (mkVoteReceipt support weight now) ;;;
        publish [VSym "vote_cast"; VAddr user] [VInt id; VBool support; VInt weight; VInt now] ;;;
        ret REASON_OK
  end.

(** The loop; the answers in order. *)
Fixpoint batch_loop (user : Address) (weight : Z) (votes : list (Z * bool)) : M BatchVoteError (list (Z * reason)) :=
  match votes with
  | [] => ret []
  | entry :: votes =>
      let! r := batch_entry user weight entry in
      let! results := batch_loop user weight votes in
      ret ((fst entry, r) :: results)
  end.

Definition succeeded (r : reason) : bool := match r with REASON_OK => true | _ => false end.

Definition batch_vote (user : Address) (votes : list (Z * bool)) : M BatchVoteError (list (Z * reason)) :=
  require_auth env user ;;;
  fail_if (MAX_BATCH_VOTES <? length votes)%nat BvBatchTooLarge ;;;
  let& shares := get_shares user in
  fail_if (shares <=? 0) BvPositionNotFound ;;;
  let! weight := vote_weight user in
  let! results := batch_loop user weight votes in
  (if existsb (fun r => succeeded (snd r)) results then set_last_vote_ledger user (sequence env) else ret tt) ;;;
  ret results.

End Voting.
