(* ===== verification/SubPools.v ===== *)
(** * Sub-pools, their rebalancing, and keepers

    [sub_pool_delegation.rs]: up to five pools inside the vault, each with a
    sub-administrator, a capacity and a reward rate, and per user and pool a
    position, a checkpoint and an accrued reward; [sub_pool_rebalancing.rs]:
    registered keepers shift capacity between pools within bounds;
    [keeper_registry.rs]: who those keepers are.

    The crate-internal [record_keeper_action] is called here with no earnings. *)

From S2P Require Import Prelude Errors Storage Host Events Concrete Accessors Admin RewardMath RewardRate.

Definition MAX_SUB_POOL_NAME_LEN : nat := 64.
Definition LEDGERS_PER_YEAR : Z := STELLAR_LEDGERS_PER_YEAR.

Inductive RebalanceError :=
| RbNotInitialized | RbZeroAmount | RbPositionNotFound | RbSamePool | RbKeeperNotRegistered
| RbAmountTooLarge | RbCooldownActive | RbSourceBoundViolated | RbDestinationBoundViolated
| RbBoundsNotConfigured | RbInvalidBounds.

Section SubPools.
Context {W : World} (env : Env).
Implicit Types s : State.

(** ** Storage ([sub_pool_delegation.rs]) *)

Definition get_sub_pools s : list SubPool := default [] (rd SubPools s).
Definition set_sub_pools {E} (pools : list SubPool) : M E unit := put SubPools pools.
Definition get_next_sub_pool_id s : Z := default 0 (rd SubPoolCount s).
Definition set_next_sub_pool_id {E} (id : Z) : M E unit := put SubPoolCount id.
Definition get_sub_pool_position (user : Address) (sub_pool_id : Z) s : Z := default 0 (rd (SubPos user sub_pool_id) s).
Definition set_sub_pool_position {E} (user : Address) (sub_pool_id amount : Z) : M E unit :=
  if amount =? 0 then del (SubPos user sub_pool_id) else put (SubPos user sub_pool_id) amount.
Definition get_sub_pool_reward_checkpoint (user : Address) (sub_pool_id : Z) s : Z :=
  default (sequence env) (rd (SubCheckpoint user sub_pool_id) s).
Definition set_sub_pool_reward_checkpoint {E} (user : Address) (sub_pool_id ledger : Z) : M E unit :=
  put (SubCheckpoint user sub_pool_id) ledger.
Definition get_sub_pool_accrued (user : Address) (sub_pool_id : Z) s : Z := default 0 (rd (SubAccrued user sub_pool_id) s).
Definition set_sub_pool_accrued {E} (user : Address) (sub_pool_id amount : Z) : M E unit :=
  if amount =? 0 then del (SubAccrued user sub_pool_id) else put (SubAccrued user sub_pool_id) amount.

(** The first pool with the id: its index and the pool. *)
Definition find_sub_pool_index (pools : list SubPool) (id : Z) : option (nat * SubPool) :=
  list_find (fun p => sp_id p = id) pools.

Definition with_total (p : SubPool) (total : Z) : SubPool :=
  mkSubPool (sp_id p) (sp_name p) (sp_sub_admin p) (sp_reward_rate_bps p) total (sp_max_capacity p).
Definition with_rate (p : SubPool) (rate : Z) : SubPool :=
  mkSubPool (sp_id p) (sp_name p) (sp_sub_admin p) rate (sp_total_staked p) (sp_max_capacity p).
Definition with_capacity (p : SubPool) (capacity : Z) : SubPool :=
  mkSubPool (sp_id p) (sp_name p) (sp_sub_admin p) (sp_reward_rate_bps p) (sp_total_staked p) capacity.

Definition get_sub_pool_capacity_state (sub_pool_id : Z) s : option (Z * Z) :=
  match find_sub_pool_index (get_sub_pools s) sub_pool_id with
  | Some (_, pool) => Some (sp_total_staked pool, sp_max_capacity pool)
  | None => None
  end.
Definition set_sub_pool_max_capacity (sub_pool_id new_capacity : Z) : M VaultExtError.t unit :=
  let& pools := get_sub_pools in
  let! found := ok_or (find_sub_pool_index pools sub_pool_id) VaultExtError.PositionNotFound in
  let (idx, pool) := found : nat * SubPool in
  set_sub_pools (<[idx := with_capacity pool new_capacity]> pools).

(** ** Settlement *)

(** The reward of [position] at [rate] over [elapsed] ledgers. *)
Definition sub_pool_reward (position rate elapsed : Z) : Z :=
  Z.quot (sat_mul (sat_mul position rate) elapsed) (BPS * LEDGERS_PER_YEAR).

Definition settle_sub_pool_rewards {E} (user : Address) (sub_pool_id pool_rate_bps position : Z) : M E Z :=
  let now := sequence env in
  let& checkpoint := get_sub_pool_reward_checkpoint user sub_pool_id in
  let new_reward :=
    if (0 <? position) && (0 <? pool_rate_bps) && (checkpoint <? now)
    then sub_pool_reward position pool_rate_bps (now - checkpoint) else 0 in
  (if 0 <? new_reward then
     let& prior := get_sub_pool_accrued user sub_pool_id in
     set_sub_pool_accrued user sub_pool_id (sat_add prior new_reward)
   else ret tt) ;;;
  set_sub_pool_reward_checkpoint user sub_pool_id now ;;;
  ret new_reward.

(** ** Entrypoints *)

(** A rate must not be negative nor above a positive main rate. *)
Definition require_sub_rate (rate_bps : Z) : M VaultExtError.t unit :=
  fail_if (rate_bps <? 0) VaultExtError.ZeroAmount ;;;
  let& main_rate := get_reward_rate_bps in
  fail_if ((0 <? main_rate) && (main_rate <? rate_bps)) VaultExtError.InvalidFeeAllocation.

Definition create_sub_pool (admin : Address) (name : string) (sub_admin : Address) (reward_rate_bps max_capacity : Z)
    : M VaultExtError.t Z :=
  require_auth env admin ;;;
  try_ (require_admin env) ;;;
  fail_if (MAX_SUB_POOL_NAME_LEN <? String.length name)%nat VaultExtError.InvalidFeeAllocation ;;;
  fail_if (max_capacity <=? 0) VaultExtError.ZeroAmount ;;;
  require_sub_rate reward_rate_bps ;;;
  let& pools := get_sub_pools in
  fail_if (5 <=? length pools)%nat VaultExtError.TooManyProposals ;;;
  let& id := get_next_sub_pool_id in
  set_sub_pools (pools ++ [mkSubPool id name sub_admin reward_rate_bps 0 max_capacity]) ;;;
  let! next := plain (to_u32 (id + 1)) in
  set_next_sub_pool_id next ;;;
  publish [VSym "sub_crt"] [VInt id; VStr name; VAddr sub_admin; VInt reward_rate_bps; VInt (sequence env)] ;;;
  ret id.

Definition stake_into_sub_pool (user : Address) (sub_pool_id amount : Z) : M VaultExtError.t unit :=
  require_auth env user ;;;
  fail_if (amount <=? 0) VaultExtError.ZeroAmount ;;;
  let& pools := get_sub_pools in
  let! found := ok_or (find_sub_pool_index pools sub_pool_id) VaultExtError.PositionNotFound in
  let (idx, pool) := found : nat * SubPool in
  fail_if (sp_max_capacity pool <? sat_add (sp_total_staked pool) amount) VaultExtError.InvalidFeeAllocation ;;;
  let& prior_position := get_sub_pool_position user sub_pool_id in
  settle_sub_pool_rewards user sub_pool_id (sp_reward_rate_bps pool) prior_position ;;;
  let& stored := rd Token in
  let! token_addr := ok_or stored VaultExtError.NotInitialized in
  transfer token_addr user (self env) amount ;;;
  set_sub_pools (<[idx := with_total pool (sat_add (sp_total_staked pool) amount)]> pools) ;;;
  set_sub_pool_position user sub_pool_id (sat_add prior_position amount) ;;;
  publish [VSym "sub_stk"; VAddr user] [VInt sub_pool_id; VInt amount; VInt (sequence env)].

Definition unstake_from_sub_pool (user : Address) (sub_pool_id amount : Z) : M VaultExtError.t unit :=
  require_auth env user ;;;
  fail_if (amount <=? 0) VaultExtError.ZeroAmount ;;;
  let& cur := get_sub_pool_position user sub_pool_id in
  fail_if (cur <? amount) VaultExtError.PositionNotFound ;;;
  let& pools := get_sub_pools in
  let! found := ok_or (find_sub_pool_index pools sub_pool_id) VaultExtError.PositionNotFound in
  let (idx, pool) := found : nat * SubPool in
  settle_sub_pool_rewards user sub_pool_id (sp_reward_rate_bps pool) cur ;;;
  set_sub_pools (<[idx := with_total pool (sat_sub (sp_total_staked pool) amount)]> pools) ;;;
  let! rest := plain (checked_sub cur amount) in
  set_sub_pool_position user sub_pool_id rest ;;;
  let& stored := rd Token in
  let! token_addr := ok_or stored VaultExtError.NotInitialized in
  transfer token_addr (self env) user amount ;;;
  publish [VSym "sub_unstk"; VAddr user] [VInt sub_pool_id; VInt amount; VInt (sequence env)].

Definition move_between_sub_pools (user : Address) (from_id to_id amount : Z) : M VaultExtError.t unit :=
  require_auth env user ;;;
  fail_if (amount <=? 0) VaultExtError.ZeroAmount ;;;
  fail_if (from_id =? to_id) VaultExtError.ZeroAmount ;;;
  let& cur_from := get_sub_pool_position user from_id in
  fail_if (cur_from <? amount) VaultExtError.PositionNotFound ;;;
  let& pools := get_sub_pools in
  let! from := ok_or (find_sub_pool_index pools from_id) VaultExtError.PositionNotFound in
  let (from_idx, from_pool) := from : nat * SubPool in
  let! to := ok_or (find_sub_pool_index pools to_id) VaultExtError.PositionNotFound in
  let (to_idx, to_pool) := to : nat * SubPool in
  let& cur_to := get_sub_pool_position user to_id in
  fail_if (sp_max_capacity to_pool <? sat_add (sp_total_staked to_pool) amount) VaultExtError.InvalidFeeAllocation ;;;
  settle_sub_pool_rewards user from_id (sp_reward_rate_bps from_pool) cur_from ;;;
  settle_sub_pool_rewards user to_id (sp_reward_rate_bps to_pool) cur_to ;;;
  set_sub_pools (<[to_idx := with_total to_pool (sat_add (sp_total_staked to_pool) amount)]>
                   (<[from_idx := with_total from_pool (sat_sub (sp_total_staked from_pool) amount)]> pools)) ;;;
  let! rest := plain (checked_sub cur_from amount) in
  set_sub_pool_position user from_id rest ;;;
  set_sub_pool_position user to_id (sat_add cur_to amount) ;;;
  publish [VSym "sub_move"; VAddr user] [VInt from_id; VInt to_id; VInt amount; VInt (sequence env)].

(** [admin::get_admin(&env).map(|a| a == caller).unwrap_or(false)]. *)
Definition is_vault_admin (caller : Address) s : bool :=
  match get_admin s with Ok a _ => bool_decide (a = caller) | _ => false end.

Definition set_sub_pool_rate (caller : Address) (sub_pool_id rate_bps : Z) : M VaultExtError.t unit :=
  require_auth env caller ;;;
  let& is_admin := is_vault_admin caller in
  let& pools := get_sub_pools in
  let! found := ok_or (find_sub_pool_index pools sub_pool_id) VaultExtError.PositionNotFound in
  let (idx, pool) := found : nat * SubPool in
  fail_if (negb is_admin && negb (bool_decide (sp_sub_admin pool = caller))) VaultExtError.Unauthorized ;;;
  require_sub_rate rate_bps ;;;
  set_sub_pools (<[idx := with_rate pool rate_bps]> pools) ;;;
  publish [VSym "sub_rate"; VAddr caller] [VInt sub_pool_id; VInt rate_bps; VInt (sequence env)].

Definition calc_sub_pool_pending (user : Address) (sub_pool_id : Z) s : Z :=
  match find_sub_pool_index (get_sub_pools s) sub_pool_id with
  | None => 0
  | Some (_, pool) =>
      let position := get_sub_pool_position user sub_pool_id s in
      if (position =? 0) || (sp_reward_rate_bps pool =? 0) then 0
      else
        let now := sequence env in
        let checkpoint := get_sub_pool_reward_checkpoint user sub_pool_id s in
        if now <=? checkpoint then 0
        else sub_pool_reward position (sp_reward_rate_bps pool) (now - checkpoint)
  end.

(** ** Keepers ([keeper_registry.rs]) *)

Definition get_record (keeper : Address) s : option KeeperRecord := rd (KeeperOf keeper) s.
Definition set_record {E} (record : KeeperRecord) : M E unit := put (KeeperOf (kp_address record)) record.
Definition get_keeper_list s : list Address := default [] (rd KeeperList s).
Definition set_keeper_list {E} (list : list Address) : M E unit := put KeeperList list.
Definition is_registered (keeper : Address) s : bool :=
  match get_record keeper s with Some record => kp_active record | None => false end.
Definition record_keeper_action {E} (keeper : Address) (earned : Z) : M E unit :=
  let& stored := get_record keeper in
  match stored with
  | Some r => set_record (mkKeeperRecord (kp_address r) (kp_registered_at r) (u32_sat_add (kp_total_triggers r) 1)
                            (sat_add (kp_total_earned r) earned) (kp_active r))
  | None => ret tt
  end.

Definition with_active (r : KeeperRecord) (active : bool) : KeeperRecord :=
  mkKeeperRecord (kp_address r) (kp_registered_at r) (kp_total_triggers r) (kp_total_earned r) active.

Definition register_keeper (keeper : Address) : M VaultError.t unit :=
  require_admin env ;;;
  let& stored := get_record keeper in
  let! record :=
    match stored with
    | Some existing => ret (with_active existing true)
    | None =>
        let& list := get_keeper_list in
        set_keeper_list (list ++ [keeper]) ;;;
        ret (mkKeeperRecord keeper (sequence env) 0 0 true)
    end in
  set_record record ;;;
  Ev.keeper_registered keeper (sequence env).

Definition deregister_keeper (keeper : Address) : M VaultError.t unit :=
  require_admin env ;;;
  let& stored := get_record keeper in
  let! record := ok_or stored VaultError.PositionNotFound in
  set_record (with_active record false) ;;;
  Ev.keeper_deregistered keeper (sequence env).

Definition get_all_keepers : M VaultError.t (list KeeperRecord) :=
  require_admin env ;;;
  let& records := fun s => omap (fun a => get_record a s) (get_keeper_list s) in
  ret records.

(** ** Rebalancing ([sub_pool_rebalancing.rs]) *)

Definition get_bounds (sub_pool_id : Z) s : option (Z * Z) := rd (RbBounds sub_pool_id) s.
Definition set_bounds {E} (sub_pool_id min_capacity max_capacity : Z) : M E unit :=
  put (RbBounds sub_pool_id) (min_capacity, max_capacity).
Definition max_rebalance_amount s : Z := default 0 (rd RbMaxAmount s).
Definition cooldown_ledgers s : Z := default 0 (rd RbCooldown s).
Definition last_rebalance_ledger s : Z := default 0 (rd RbLastLedger s).

(** [admin::require_admin(&env).map_err(|_| NotInitialized)?]. *)
Definition require_admin_rb : M RebalanceError unit :=
  let! r := catch (require_admin env) in
  match r with inl _ => ret tt | inr _ => throw RbNotInitialized end.

Definition set_sub_pool_rebalance_bounds (sub_pool_id min_capacity max_capacity : Z) : M RebalanceError unit :=
  require_admin_rb ;;;
  fail_if ((min_capacity <? 0) || (max_capacity <? min_capacity)) RbInvalidBounds ;;;
  let& state := get_sub_pool_capacity_state sub_pool_id in
  fail_if (match state with Some _ => false | None => true end) RbPositionNotFound ;;;
  set_bounds sub_pool_id min_capacity max_capacity ;;;
  publish [VSym "rb_bnd"] [VInt sub_pool_id; VInt min_capacity; VInt max_capacity; VInt (sequence env)].

Definition set_sub_pool_rebalance_limits (max_amount cooldown : Z) : M RebalanceError unit :=
  require_admin_rb ;;;
  fail_if (max_amount <? 0) RbZeroAmount ;;;
  put RbMaxAmount max_amount ;;;
  put RbCooldown cooldown.

(** [set_sub_pool_max_capacity(..).map_err(|_| PositionNotFound)?]. *)
Definition shift_capacity (sub_pool_id capacity : Z) : M RebalanceError unit :=
  let! r := catch (set_sub_pool_max_capacity sub_pool_id capacity) in
  match r with inl _ => ret tt | inr _ => throw RbPositionNotFound end.

Definition rebalance_sub_pool_capacity (keeper : Address) (from_id to_id amount : Z) : M RebalanceError unit :=
  require_auth env keeper ;;;
  let& registered := is_registered keeper in
  fail_if (negb registered) RbKeeperNotRegistered ;;;
  fail_if (amount <=? 0) RbZeroAmount ;;;
  fail_if (from_id =? to_id) RbSamePool ;;;
  let& max_amount := max_rebalance_amount in
  fail_if ((0 <? max_amount) && (max_amount <? amount)) RbAmountTooLarge ;;;
  let& cooldown := cooldown_ledgers in
  let now := sequence env in
  let& last := last_rebalance_ledger in
  fail_if ((0 <? cooldown) && ((0 <? last) && (u32_sat_sub now last <? cooldown))) RbCooldownActive ;;;
  let& stored := get_bounds from_id in
  let! from_bounds := ok_or stored RbBoundsNotConfigured in
  let& stored := get_bounds to_id in
  let! to_bounds := ok_or stored RbBoundsNotConfigured in
  let& stored := get_sub_pool_capacity_state from_id in
  let! from_state := ok_or stored RbPositionNotFound in
  let (from_staked, from_capacity) := from_state : Z * Z in
  let& stored := get_sub_pool_capacity_state to_id in
  let! to_state := ok_or stored RbPositionNotFound in
  let (_, to_capacity) := to_state : Z * Z in
  let! new_from_capacity := ok_or (checked_sub from_capacity amount) RbAmountTooLarge in
  fail_if ((new_from_capacity <? from_staked) || (new_from_capacity <? fst (from_bounds : Z * Z))) RbSourceBoundViolated ;;;
  let! new_to_capacity := ok_or (checked_add to_capacity amount) RbAmountTooLarge in
  fail_if (snd (to_bounds : Z * Z) <? new_to_capacity) RbDestinationBoundViolated ;;;
  shift_capacity from_id new_from_capacity ;;;
  shift_capacity to_id new_to_capacity ;;;
  put RbLastLedger now ;;;
  record_keeper_action keeper 0 ;;;
  publish [VSym "rb_done"; VAddr keeper] [VInt from_id; VInt to_id; VInt amount; VInt now].

End SubPools.
