(* ===== verification/MetaStaking.v ===== *)
(** * The meta-staking layer ([meta_staking.rs])

    Reward tokens restaked in positions of their own, earning an annual rate
    per ledger; principal and rewards are paid from the vault's balance of the
    stake token. *)

From S2P Require Import Prelude Errors Storage Host TokenFacts Concrete Accessors Admin RewardMath.

Definition RATE_DENOMINATOR : Z := BPS * STELLAR_LEDGERS_PER_YEAR.
Definition MAX_META_RATE_BPS : Z := 50000.

Inductive MetaStakingError :=
| MsUnauthorized | MsNotInitialized | MsZeroAmount | MsArithmeticError | MsPositionNotFound | MsRateTooHigh.

#[export] Instance MetaStakingError_from_VaultError : From VaultError.t MetaStakingError := fun err =>
  match err with
  | VaultError.Unauthorized => MsUnauthorized
  | VaultError.NotInitialized => MsNotInitialized
  | VaultError.ZeroAmount => MsZeroAmount
  | VaultError.ArithmeticError => MsArithmeticError
  | VaultError.PositionNotFound => MsPositionNotFound
  | _ => MsUnauthorized
  end.

Section MetaStaking.
Context {W : World} (env : Env).
Implicit Types s : State.

(** ** Storage *)

Definition read_meta_position (user : Address) s : option MetaPosition := rd (MetaPosOf user) s.
Definition set_meta_position {E} (user : Address) (pos : MetaPosition) : M E unit := put (MetaPosOf user) pos.
Definition get_meta_accrued (user : Address) s : Z := default 0 (rd (MetaAccrued user) s).
Definition set_meta_accrued {E} (user : Address) (amount : Z) : M E unit := put (MetaAccrued user) amount.
Definition get_meta_rate_bps s : Z := default 0 (rd MetaRate s).
Definition read_total_meta_staked s : Z := default 0 (rd TotalMeta s).
Definition set_total_meta_staked {E} (total : Z) : M E unit := put TotalMeta total.

(** The position with its claim ledger moved to [now]. *)
Definition claimed_at (pos : MetaPosition) (now : Z) : MetaPosition :=
  mkMetaPosition (mp_meta_staked pos) (mp_meta_staked_at pos) now.

(** The token every transfer of the module moves. *)
Definition meta_token : M MetaStakingError Address :=
  let& stored := rd Token in ok_or stored MsNotInitialized.

(** ** Operations *)

Definition accrue_meta (user : Address) : M MetaStakingError unit :=
  let& rate := get_meta_rate_bps in
  if rate =? 0 then ret tt
  else
    let& stored := read_meta_position user in
    match stored with
    | None => ret tt
    | Some pos =>
        if mp_meta_staked pos =? 0 then ret tt
        else
          let now := sequence env in
          let elapsed := u32_sat_sub now (mp_last_meta_claim_at pos) in
          if elapsed =? 0 then ret tt
          else
            let! v := ok_or (checked_mul (mp_meta_staked pos) elapsed) MsArithmeticError in
            let! v := ok_or (checked_mul v rate) MsArithmeticError in
            let reward := Z.quot v RATE_DENOMINATOR in
            (if 0 <? reward then
               let& accrued := get_meta_accrued user in
               let! accrued := plain (checked_add accrued reward) in
               set_meta_accrued user accrued
             else ret tt) ;;;
            set_meta_position user (claimed_at pos now)
    end.

Definition meta_stake (user : Address) (amount : Z) : M MetaStakingError Z :=
  require_auth env user ;;;
  fail_if (amount <=? 0) MsZeroAmount ;;;
  accrue_meta user ;;;
  let! token_addr := meta_token in
  transfer token_addr user (self env) amount ;;;
  let now := sequence env in
  let& stored := read_meta_position user in
  let pos := default (mkMetaPosition 0 now now) stored in
  let! staked := ok_or (checked_add (mp_meta_staked pos) amount) MsArithmeticError in
  set_meta_position user (mkMetaPosition staked (mp_meta_staked_at pos) now) ;;;
  let& total := read_total_meta_staked in
  let! total := plain (checked_add total amount) in
  set_total_meta_staked total ;;;
  publish [VSym "meta_stk"; VAddr user] [VInt amount; VInt staked; VInt now] ;;;
  ret staked.

Definition meta_unstake (user : Address) (amount : Z) : M MetaStakingError Z :=
  require_auth env user ;;;
  fail_if (amount <=? 0) MsZeroAmount ;;;
  let& stored := read_meta_position user in
  let! pos := ok_or stored MsPositionNotFound in
  fail_if (mp_meta_staked pos <? amount) MsPositionNotFound ;;;
  accrue_meta user ;;;
  let! token_addr := meta_token in
  transfer token_addr (self env) user amount ;;;
  let! staked := plain (checked_sub (mp_meta_staked pos) amount) in
  set_meta_position user (mkMetaPosition staked (mp_meta_staked_at pos) (sequence env)) ;;;
  let& total := read_total_meta_staked in
  let! total := plain (checked_sub total amount) in
  set_total_meta_staked total ;;;
  publish [VSym "meta_uns"; VAddr user] [VInt amount; VInt staked; VInt (sequence env)] ;;;
  ret amount.

Definition meta_claim (user : Address) : M MetaStakingError Z :=
  require_auth env user ;;;
  accrue_meta user ;;;
  let& claimable := get_meta_accrued user in
  if claimable =? 0 then ret 0
  else
    set_meta_accrued user 0 ;;;
    let& stored := read_meta_position user in
    (match stored with
     | Some pos => set_meta_position user (claimed_at pos (sequence env))
     | None => ret tt
     end) ;;;
    let! token_addr := meta_token in
    transfer token_addr (self env) user claimable ;;;
    publish [VSym "meta_clm"; VAddr user] [VInt claimable; VInt (sequence env)] ;;;
    ret claimable.

Definition set_meta_reward_rate_bps (admin : Address) (bps : Z) : M MetaStakingError unit :=
  require_auth env admin ;;;
  try_ (require_admin env) ;;;
  fail_if (MAX_META_RATE_BPS <? bps) MsRateTooHigh ;;;
  put MetaRate bps ;;;
  publish [VSym "meta_rate"; VAddr admin] [VInt bps; VInt (sequence env)].

End MetaStaking.

(** ** What the layer holds *)

Section Books.
Context {W : World} {HT : StandardTokens W} (token me : Address).
Implicit Types s : State.

Definition meta_principal (u : Address) s : Z :=
  match read_meta_position u s with Some pos => mp_meta_staked pos | None => 0 end.

Record meta_books s : Prop := {
  mb_token : rd Token s = Some token;
  mb_principal : forall u, 0 <= meta_principal u s;
  mb_total : sums_to (fun u => meta_principal u s) (read_total_meta_staked s)
}.

(** [s'] has the books of [s] with the position of [u] changed by [d]. *)
Definition meta_moved (u : Address) (d : Z) s s' : Prop :=
  rd Token s' = rd Token s /\ read_total_meta_staked s' = read_total_meta_staked s + d /\
  meta_principal u s' = meta_principal u s + d /\ (forall v, v <> u -> meta_principal v s' = meta_principal v s).

Lemma meta_books_moved u d s s' : meta_books s -> meta_moved u d s s' -> 0 <= meta_principal u s + d -> meta_books s'.
Proof.
  intros [M1 M2 M3] (H1 & H2 & H3 & H4) Hd. split; [congruence| |].
  - intros v. destruct (decide (v = u)) as [->|Hne]; [lia|]. by rewrite H4.
  - rewrite H2. eapply sums_to_change; [exact M3|exact H4|exact H3].
Qed.

(** Settling moves a claim ledger and credits rewards. *)
Lemma accrue_meta_Ok env u s x s' : accrue_meta env u s = Ok x s' -> meta_moved u 0 s s' /\ st_ext s' = st_ext s.
Proof.
  intros H. unfold accrue_meta in H. unfold reading at 1 in H.
  assert (Hid : meta_moved u 0 s s) by (unfold meta_moved; split_and!; try done; lia).
  destruct (_ =? 0); [by apply ret_Ok in H as [_ ->]|]. unfold reading at 1 in H.
  destruct (read_meta_position u s) as [pos|] eqn:Hp; [|by apply ret_Ok in H as [_ ->]].
  destruct (_ =? 0); [by apply ret_Ok in H as [_ ->]|]. cbv zeta in H. destruct (_ =? 0); [by apply ret_Ok in H as [_ ->]|].
  apply bind_Ok in H as (? & ? & (_ & ->)%ok_or_Ok & H). apply bind_Ok in H as (? & ? & (_ & ->)%ok_or_Ok & H).
  apply bind_Ok in H as (? & s1 & H1 & [_ ->]%put_Ok).
  assert (Hk : st_ext s1 = st_ext s /\ forall k, k <> KMod (MetaAccrued u) -> rd k s1 = rd k s).
  { destruct (0 <? _); [|by apply ret_Ok in H1 as [_ ->]]. unfold reading at 1 in H1.
    apply bind_Ok in H1 as (? & ? & (_ & ->)%plain_Ok & [_ ->]%put_Ok). split; [done|].
    intros k Hk. by rewrite rd_upd_ne by (intros <-; done). }
  destruct Hk as [He Hk]. split; [|done]. unfold meta_moved, meta_principal, read_meta_position, read_total_meta_staked in *.
  split_and!; rdsimp; rewrite ?Hk by done; try done; try lia.
  - rewrite Hp. cbn. lia.
  - intros v Hv. rewrite rd_upd_ne by congruence. by rewrite Hk.
Qed.

Lemma meta_moved_trans u v d s s1 s2 : meta_moved u 0 s s1 -> meta_moved v d s1 s2 -> meta_moved v d s s2.
Proof.
  intros (A1 & A2 & A3 & A4) (B1 & B2 & B3 & B4).
  assert (forall w, meta_principal w s1 = meta_principal w s) as H by (intros w; destruct (decide (w = u)) as [->|]; [lia|auto]).
  split_and!; [congruence|lia|by rewrite B3, H|]. intros w Hw. by rewrite B4, H.
Qed.

Lemma meta_token_Ok s t s' : meta_books s -> meta_token s = Ok t s' -> t = token /\ s' = s.
Proof. intros [H _ _] H1. unfold meta_token, reading in H1. rewrite H in H1. by apply ok_or_Ok in H1 as [[= <-] ->]. Qed.

(** The writes at the end of a deposit or a withdrawal. *)
Lemma meta_write_Ok u pos d t e s :
  mp_meta_staked pos = meta_principal u s + d -> t = read_total_meta_staked s + d ->
  meta_moved u d s (emit e (upd TotalMeta (Some t) (upd (MetaPosOf u) (Some pos) s))).
Proof.
  intros Hp ->. unfold meta_moved, meta_principal, read_meta_position, read_total_meta_staked in *.
  split_and!; rdsimp; try done. intros v Hv. by rewrite rd_emit, !rd_upd_ne by congruence.
Qed.

Lemma meta_stake_Ok env u a s r s' :
  self env = me -> u <> me -> meta_books s -> meta_stake env u a s = Ok r s' ->
  0 < a /\ meta_moved u a s s' /\ balance_of token me s' = balance_of token me s + a.
Proof.
  intros <- Hne HB H. unfold meta_stake, set_meta_position, set_total_meta_staked in H.
  apply bind_Ok in H as (? & ? & (_ & _ & ->)%require_auth_Ok & H).
  apply bind_Ok in H as (? & ? & (Ha%Z.leb_gt & _ & ->)%fail_if_Ok & H).
  apply bind_Ok in H as (? & s1 & (Hm1 & He1)%accrue_meta_Ok & H).
  assert (HB1 : meta_books s1) by (eapply meta_books_moved; [done|exact Hm1|]; pose proof (mb_principal _ HB u); lia).
  apply bind_Ok in H as (t & ? & (-> & ->)%meta_token_Ok & H); [|done].
  apply bind_Ok in H as (? & s2 & (_ & Hk2 & Hb2)%token_received & H); [|done]. cbv zeta in H. unfold reading at 1 in H.
  apply bind_Ok in H as (staked & ? & ((-> & _)%checked_add_Some & ->)%ok_or_Ok & H).
  apply bind_Ok in H as (? & ? & [_ ->]%put_Ok & H). unfold reading at 1 in H.
  apply bind_Ok in H as (total & ? & ((-> & _)%checked_add_Some & ->)%plain_Ok & H).
  apply bind_Ok in H as (? & ? & [_ ->]%put_Ok & H). apply bind_Ok in H as (? & ? & [_ ->]%publish_Ok & [_ ->]%ret_Ok).
  assert (Hm2 : meta_moved u 0 s1 s2).
  { unfold meta_moved, meta_principal, read_meta_position, read_total_meta_staked. rewrite !Hk2.
    split_and!; try done; try lia. intros v _. by rewrite Hk2. }
  split; [done|]. split.
  - apply (meta_moved_trans u u a s s1); [done|]. apply (meta_moved_trans u u a s1 s2); [done|]. apply meta_write_Ok.
    + unfold meta_principal. cbn. by destruct (read_meta_position u s2).
    + unfold read_total_meta_staked. by rdsimp.
  - transitivity (balance_of token (self env) s2); [done|]. rewrite Hb2. unfold balance_of. by rewrite He1.
Qed.

Lemma meta_unstake_Ok env u a s r s' :
  self env = me -> u <> me -> meta_books s -> meta_unstake env u a s = Ok r s' ->
  0 < a <= meta_principal u s /\ meta_moved u (- a) s s' /\ balance_of token me s' = balance_of token me s - a.
Proof.
  intros <- Hne HB H. unfold meta_unstake, set_meta_position, set_total_meta_staked in H.
  apply bind_Ok in H as (? & ? & (_ & _ & ->)%require_auth_Ok & H).
  apply bind_Ok in H as (? & ? & (Ha%Z.leb_gt & _ & ->)%fail_if_Ok & H). unfold reading at 1 in H.
  apply bind_Ok in H as (pos & ? & (Hp & ->)%ok_or_Ok & H).
  apply bind_Ok in H as (? & ? & (Hle%Z.ltb_ge & _ & ->)%fail_if_Ok & H).
  assert (Hpos : meta_principal u s = mp_meta_staked pos) by (unfold meta_principal; by rewrite Hp).
  apply bind_Ok in H as (? & s1 & (Hm1 & He1)%accrue_meta_Ok & H).
  assert (HB1 : meta_books s1) by (eapply meta_books_moved; [done|exact Hm1|]; lia).
  apply bind_Ok in H as (t & ? & (-> & ->)%meta_token_Ok & H); [|done].
  apply bind_Ok in H as (? & s2 & (_ & Hk2 & _ & Hb2)%token_sent & H). destruct (Hb2 Hne) as [Hb _].
  apply bind_Ok in H as (staked & ? & ((-> & _)%checked_sub_Some & ->)%plain_Ok & H).
  apply bind_Ok in H as (? & ? & [_ ->]%put_Ok & H). unfold reading at 1 in H.
  apply bind_Ok in H as (total & ? & ((-> & _)%checked_sub_Some & ->)%plain_Ok & H).
  apply bind_Ok in H as (? & ? & [_ ->]%put_Ok & H). apply bind_Ok in H as (? & ? & [_ ->]%publish_Ok & [_ ->]%ret_Ok).
  assert (Hm2 : meta_moved u 0 s1 s2).
  { unfold meta_moved, meta_principal, read_meta_position, read_total_meta_staked. rewrite !Hk2.
    split_and!; try done; try lia. intros v _. by rewrite Hk2. }
  split; [lia|]. split.
  - apply (meta_moved_trans u u (- a) s s1); [done|]. apply (meta_moved_trans u u (- a) s1 s2); [done|].
    destruct Hm1 as (_ & _ & Hp1 & _), Hm2 as (_ & _ & Hp2 & _). apply meta_write_Ok; [cbn; lia|].
    unfold read_total_meta_staked. rdsimp. lia.
  - transitivity (balance_of token (self env) s2); [done|]. rewrite Hb. unfold balance_of. by rewrite He1.
Qed.

Lemma meta_claim_Ok env u s r s' :
  self env = me -> u <> me -> meta_books s -> meta_claim env u s = Ok r s' ->
  meta_moved u 0 s s' /\ balance_of token me s' = balance_of token me s - r.
Proof.
  intros <- Hne HB H. unfold meta_claim, set_meta_position, set_meta_accrued in H.
  apply bind_Ok in H as (? & ? & (_ & _ & ->)%require_auth_Ok & H).
  apply bind_Ok in H as (? & s1 & (Hm1 & He1)%accrue_meta_Ok & H). unfold reading at 1 in H.
  assert (Hb1 : balance_of token (self env) s1 = balance_of token (self env) s) by (unfold balance_of; by rewrite He1).
  destruct (get_meta_accrued u s1 =? 0); [apply ret_Ok in H as [-> ->]; split; [done|lia]|].
  apply bind_Ok in H as (? & ? & [_ ->]%put_Ok & H). unfold reading at 1 in H.
  apply bind_Ok in H as (? & s2 & H2 & H).
  assert (Hm2 : meta_moved u 0 s1 s2 /\ st_ext s2 = st_ext s1).
  { destruct (read_meta_position u _) as [pos|] eqn:Hp; [apply put_Ok in H2 as [_ ->]|apply ret_Ok in H2 as [_ ->]];
      (split; [|done]); unfold meta_moved, meta_principal, read_meta_position, read_total_meta_staked in *; split_and!; rdsimp;
      try done; try lia; try (intros v Hv; by rewrite ?rd_upd_ne by congruence).
    rewrite rd_upd_ne in Hp by done. rewrite Hp. cbn. lia. }
  destruct Hm2 as [Hm2 He2]. assert (Hm : meta_moved u 0 s s2) by (by eapply meta_moved_trans).
  assert (HB2 : meta_books s2) by (eapply meta_books_moved; [done|exact Hm|]; pose proof (mb_principal _ HB u); lia).
  apply bind_Ok in H as (t & ? & (-> & ->)%meta_token_Ok & H); [|done].
  apply bind_Ok in H as (? & s3 & (_ & Hk3 & _ & Hb3)%token_sent & H). destruct (Hb3 Hne) as [Hb _].
  apply bind_Ok in H as (? & ? & [_ ->]%publish_Ok & [-> ->]%ret_Ok). split.
  - apply (meta_moved_trans u u 0 s s2); [done|]. unfold meta_moved, meta_principal, read_meta_position, read_total_meta_staked.
    rdsimp. rewrite !Hk3. split_and!; try done; try lia. intros v _. rdsimp. by rewrite Hk3.
  - transitivity (balance_of token (self env) s3); [done|]. rewrite Hb. unfold balance_of in *. rewrite He2. lia.
Qed.

Inductive meta_op :=
| OpMetaStake (u : Address) (a : Z) | OpMetaUnstake (u : Address) (a : Z) | OpMetaClaim (u : Address)
| OpMetaRate (u : Address) (bps : Z).
Definition meta_user (o : meta_op) : Address :=
  match o with OpMetaStake u _ | OpMetaUnstake u _ | OpMetaClaim u | OpMetaRate u _ => u end.
Definition meta_perform (env : Env) (o : meta_op) : State -> State :=
  match o with
  | OpMetaStake u a => invoke (meta_stake env u a)
  | OpMetaUnstake u a => invoke (meta_unstake env u a)
  | OpMetaClaim u => invoke (meta_claim env u)
  | OpMetaRate u bps => invoke (set_meta_reward_rate_bps env u bps)
  end.
(** The reward an operation pays. *)
Definition meta_paid (env : Env) (o : meta_op) s : Z :=
  match o with
  | OpMetaClaim u => match meta_claim env u s with Ok r _ => r | _ => 0 end
  | _ => 0
  end.

(** A life of the layer that pays [paid] in rewards. *)
Inductive meta_run : State -> Z -> State -> Prop :=
| mr_end s : meta_run s 0 s
| mr_op env o s paid s' : self env = me -> meta_user o <> me -> meta_run (meta_perform env o s) paid s' ->
    meta_run s (meta_paid env o s + paid) s'.

Lemma meta_step env o s : self env = me -> meta_user o <> me -> meta_books s ->
  let s' := meta_perform env o s in
  meta_books s' /\
  balance_of token me s' = balance_of token me s + (read_total_meta_staked s' - read_total_meta_staked s) - meta_paid env o s.
Proof.
  intros Hme Hu HB. destruct o as [u a|u a|u|u b]; cbn [meta_user meta_perform meta_paid] in *; unfold invoke.
  - destruct (meta_stake env u a s) as [r s'|?|?] eqn:H; [|split; [done|lia]..].
    apply meta_stake_Ok in H as (Ha & Hm & Hb); [|done..]. pose proof (mb_principal _ HB u).
    split; [eapply meta_books_moved; [done|exact Hm|lia]|]. destruct Hm as (_ & Ht & _). lia.
  - destruct (meta_unstake env u a s) as [r s'|?|?] eqn:H; [|split; [done|lia]..].
    apply meta_unstake_Ok in H as (Ha & Hm & Hb); [|done..].
    split; [eapply meta_books_moved; [done|exact Hm|lia]|]. destruct Hm as (_ & Ht & _). lia.
  - destruct (meta_claim env u s) as [r s'|?|?] eqn:H; [|split; [done|lia]..].
    apply meta_claim_Ok in H as (Hm & Hb); [|done..]. pose proof (mb_principal _ HB u).
    split; [eapply meta_books_moved; [done|exact Hm|lia]|]. destruct Hm as (_ & Ht & _). lia.
  - destruct (set_meta_reward_rate_bps env u b s) as [r s'|?|?] eqn:H; [|split; [done|lia]..].
    unfold set_meta_reward_rate_bps in H. apply bind_Ok in H as (? & ? & (_ & _ & ->)%require_auth_Ok & H).
    apply bind_Ok in H as (? & ? & H1 & H). apply (proj1 (try_Ok _ _ _ _)), require_admin_Ok in H1 as (? & _ & _ & _ & _ & ->).
    apply bind_Ok in H as (? & ? & (_ & _ & ->)%fail_if_Ok & H). apply bind_Ok in H as (? & ? & [_ ->]%put_Ok & [_ E]%publish_Ok).
    assert (Hm : meta_moved u 0 s s').
    { rewrite E. unfold meta_moved, meta_principal, read_meta_position, read_total_meta_staked. rdsimp. split_and!; try done; lia. }
    assert (Hb : balance_of token me s' = balance_of token me s) by (by rewrite E).
    pose proof (mb_principal _ HB u). split; [eapply meta_books_moved; [done|exact Hm|lia]|].
    destruct Hm as (_ & Ht & _). lia.
Qed.

(** The keys of the layer; everything else is a book of somebody else. *)
Definition meta_key (k : key) : bool :=
  match k with
  | KMod (MetaPosOf _) | KMod (MetaAccrued _) | KMod MetaRate | KMod TotalMeta => true
  | _ => false
  end.

Lemma accrue_meta_touches env u : touches (fun k => meta_key k = true) (accrue_meta env u).
Proof. unfold accrue_meta, set_meta_accrued, set_meta_position. frames. Qed.

#[local] Hint Resolve accrue_meta_touches : frame.

Lemma meta_perform_touches env o s k : meta_key k = false -> rd k (meta_perform env o s) = rd k s.
Proof.
  intros Hk.
  assert (Hi : forall E A (m : M E A), touches (fun k => meta_key k = true) m -> rd k (invoke m s) = rd k s).
  { intros E A m Hm. unfold invoke. destruct (m s) as [a s'|?|?] eqn:H; [|done..]. eapply touches_Ok; [exact Hm|exact H|congruence]. }
  destruct o; apply Hi;
    unfold meta_stake, meta_unstake, meta_claim, set_meta_reward_rate_bps, set_meta_accrued, set_meta_position,
      set_total_meta_staked, meta_token; frames.
Qed.

(** C12. The rewards of the meta-staking layer are unfunded.  Over any life of
    the layer the total is the sum of the principals, none negative, and the
    vault's balance is what it was before plus the principal taken in since,
    less every reward paid, while nothing outside the layer's own keys changes:
    no reward is debited from the reward pool, the deposits or any other book.
    A reward comes out of the principal of others, or of whatever else the vault
    keeps for its users. *)
Theorem meta_rewards_unfunded s0 paid s :
  meta_books s0 -> meta_run s0 paid s ->
  sums_to (fun u => meta_principal u s) (read_total_meta_staked s) /\ (forall u, 0 <= meta_principal u s) /\
  balance_of token me s = balance_of token me s0 + (read_total_meta_staked s - read_total_meta_staked s0) - paid /\
  get_reward_pool_balance s = get_reward_pool_balance s0 /\ get_total_deposited s = get_total_deposited s0 /\
  (forall k, meta_key k = false -> rd k s = rd k s0).
Proof.
  intros HB H.
  assert (Hk : forall k, meta_key k = false -> rd k s = rd k s0).
  { clear HB. induction H as [s|env o s paid s' _ _ _ IH]; [done|]. intros k Hk. rewrite (IH k Hk). by apply meta_perform_touches. }
  assert (get_reward_pool_balance s = get_reward_pool_balance s0) as Hp by (unfold get_reward_pool_balance; by rewrite Hk).
  assert (get_total_deposited s = get_total_deposited s0) as Hd by (unfold get_total_deposited; by rewrite Hk).
  enough (meta_books s /\ balance_of token me s = balance_of token me s0 + (read_total_meta_staked s - read_total_meta_staked s0) - paid)
    as [[] ?] by (by split_and!).
  clear Hk Hp Hd. induction H as [s|env o s paid s' Hme Hu _ IH]; [split; [done|lia]|].
  destruct (meta_step env o s Hme Hu HB) as [HB' Hb]. destruct (IH HB') as (H1 & H2). split; [done|lia].
Qed.

End Books.

(** ** Witness *)

(** Address 4 is the admin; 2 and 3 stake a million each at 500 % a year, and
    after a year 2 takes five millions out of a vault that holds six, four of
    them its reward pool - which still shows four when one is left. *)
Definition meta_vault : State (W := token_world) :=
  upd RewardPoolBalance (Some 4000000) (upd Admin (Some 4%positive) (upd Token (Some 9%positive)
    (start_state (fun t a => if decide (a = 1%positive) then 4000000 else 1000000)))).
Definition meta_life : list (Z * meta_op) :=
  [(9, OpMetaRate 4%positive 50000); (10, OpMetaStake 2%positive 1000000); (10, OpMetaStake 3%positive 1000000);
   (10 + STELLAR_LEDGERS_PER_YEAR, OpMetaClaim 2%positive)].
Definition meta_replay (h : list (Z * meta_op)) (s : State (W := token_world)) : State (W := token_world) :=
  foldl (fun s '(l, o) => meta_perform (at_ledger l) o s) s h.
Fixpoint meta_bill (h : list (Z * meta_op)) (s : State (W := token_world)) : Z :=
  match h with
  | [] => 0
  | (l, o) :: h => meta_paid (at_ledger l) o s + meta_bill h (meta_perform (at_ledger l) o s)
  end.
Lemma meta_replay_run h s : Forall (fun e => meta_user (snd e) <> 1%positive) h -> meta_run 1%positive s (meta_bill h s) (meta_replay h s).
Proof. intros Hh. revert s. induction Hh as [|[l o] h Hl _ IH]; intros s; [constructor|]. by apply mr_op; [| |apply IH]. Qed.

Lemma meta_rewards_unfunded_witness :
  let s := meta_replay meta_life meta_vault in
  read_total_meta_staked s = 2000000 /\ balance_of 9%positive 1%positive s = 1000000 /\ get_reward_pool_balance s = 4000000.
Proof.
  intros s. split; [vm_compute; reflexivity|].
  destruct (meta_rewards_unfunded 9%positive 1%positive meta_vault (meta_bill meta_life meta_vault) s) as (_ & _ & -> & -> & _).
  - split; [done|by intros u|exists []; by split_and!; [constructor| |]].
  - apply meta_replay_run. repeat constructor; done.
  - split; vm_compute; reflexivity.
Defined.
