(* ===== verification/Fractions.v ===== *)
(** * Fractions of a position ([nft_fractionalize.rs])

    A staker's receipt is split into fractions; the position stays locked until
    the owner holds all of them again. *)

From S2P Require Import Prelude Errors Storage Host Concrete Accessors.

Definition MIN_FRACTIONS : Z := 2.
Definition MAX_FRACTIONS : Z := 1000.

Section Fractions.
Context {W : World} (env : Env).
Implicit Types s : State.

(** ** Storage *)

Definition is_locked (user : Address) s : bool := default false (rd (FrLocked user) s).
Definition set_locked {E} (user : Address) (locked : bool) : M E unit := put (FrLocked user) locked.
Definition get_meta (owner : Address) s : option FractionalizedNFT := rd (FrMeta owner) s.
Definition set_meta {E} (owner : Address) (meta : FractionalizedNFT) : M E unit := put (FrMeta owner) meta.
Definition remove_meta {E} (owner : Address) : M E unit := del (FrMeta owner).
Definition get_holders (owner : Address) s : list Address := default [] (rd (FrHolders owner) s).
Definition set_holders {E} (owner : Address) (holders : list Address) : M E unit := put (FrHolders owner) holders.
Definition remove_holders {E} (owner : Address) : M E unit := del (FrHolders owner).
Definition get_frac_balance (owner holder : Address) s : Z := default 0 (rd (FrBal owner holder) s).
Definition set_frac_balance {E} (owner holder : Address) (amount : Z) : M E unit := put (FrBal owner holder) amount.
Definition remove_frac_balance {E} (owner holder : Address) : M E unit := del (FrBal owner holder).

(** ** Entrypoints *)

Definition fractionalize_nft (user : Address) (num_fractions : Z) : M VaultError.t unit :=
  require_auth env user ;;;
  fail_if ((num_fractions <? MIN_FRACTIONS) || (MAX_FRACTIONS <? num_fractions)) VaultError.InvalidRate ;;;
  let& shares := get_shares user in
  fail_if (shares =? 0) VaultError.PositionNotFound ;;;
  let& locked := is_locked user in
  fail_if locked VaultError.AlreadyInitialized ;;;
  set_locked user true ;;;
  set_meta user (mkFractionalizedNFT user num_fractions) ;;;
  set_holders user [user] ;;;
  set_frac_balance user user num_fractions ;;;
  publish [VSym "fr_frac"; VAddr user] [VInt num_fractions; VInt (sequence env)].

Definition transfer_fractions (owner to : Address) (amount : Z) : M VaultError.t unit :=
  let from := owner in
  require_auth env from ;;;
  fail_if (amount =? 0) VaultError.ZeroAmount ;;;
  let& locked := is_locked owner in
  fail_if (negb locked) VaultError.PositionNotFound ;;;
  let& from_bal := get_frac_balance owner from in
  fail_if (from_bal <? amount) VaultError.InsufficientShares ;;;
  let! new_from := plain (to_u32 (from_bal - amount)) in
  (if new_from =? 0 then remove_frac_balance owner from else set_frac_balance owner from new_from) ;;;
  let& to_bal := get_frac_balance owner to in
  let! to_bal := plain (to_u32 (to_bal + amount)) in
  set_frac_balance owner to to_bal ;;;
  let& holders := get_holders owner in
  if bool_decide (to ∈ holders) then ret tt else set_holders owner (holders ++ [to]).

Definition reconstruct_nft (user : Address) : M VaultError.t unit :=
  require_auth env user ;;;
  let& locked := is_locked user in
  fail_if (negb locked) VaultError.PositionNotFound ;;;
  let& stored := get_meta user in
  let! meta := ok_or stored VaultError.PositionNotFound in
  let& owner_bal := get_frac_balance user user in
  fail_if (negb (owner_bal =? fx_total_fractions meta)) VaultError.InsufficientShares ;;;
  let& holders := get_holders user in
  for_each holders (fun holder => remove_frac_balance user holder) ;;;
  remove_holders user ;;;
  remove_meta user ;;;
  set_locked user false ;;;
  publish [VSym "fr_recn"; VAddr user] [VInt (fx_total_fractions meta); VInt (sequence env)].

End Fractions.

(** ** Theorems *)

Inductive frac_op :=
| OpFractionalize (u : Address) (n : Z)
| OpTransferFractions (owner to : Address) (amount : Z)
| OpReconstruct (u : Address).

Definition perform {W : World} (env : Env) (o : frac_op) : State -> State :=
  match o with
  | OpFractionalize u n => invoke (fractionalize_nft env u n)
  | OpTransferFractions o to a => invoke (transfer_fractions env o to a)
  | OpReconstruct u => invoke (reconstruct_nft env u)
  end.

Section Theorems.
Context {W : World}.
Implicit Types s : State.

(** The keys of the fractions of [o]. *)
Definition frac_key (o : Address) (k : key) : bool :=
  match k with
  | KMod (FrLocked u) | KMod (FrMeta u) | KMod (FrHolders u) | KMod (FrBal u _) => bool_decide (u = o)
  | _ => false
  end.

(** The fractions of [o]: the holders are distinct, nobody else has any, and
    the balances sum to the number issued; without a lock there are none. *)
Record fractions (o : Address) s : Prop := {
  fr_locked : is_locked o s = true -> exists m, get_meta o s = Some m /\
    NoDup (get_holders o s) /\ sum_of (fun h => get_frac_balance o h s) (get_holders o s) = fx_total_fractions m;
  fr_only : forall h, h ∉ get_holders o s -> get_frac_balance o h s = 0;
  fr_nonneg : forall h, 0 <= get_frac_balance o h s;
  fr_free : is_locked o s = false -> get_holders o s = []
}.

Lemma fractions_same o s s' : (forall k, frac_key o k = true -> rd k s' = rd k s) -> fractions o s -> fractions o s'.
Proof.
  intros Hk [H1 H2 H3 H4].
  assert (forall u, frac_key o (FrBal o u) = true) as Kb by (intros u; simpl; by apply bool_decide_eq_true).
  assert (frac_key o (FrLocked o) = true /\ frac_key o (FrMeta o) = true /\ frac_key o (FrHolders o) = true) as (K1 & K2 & K3)
    by (simpl; rewrite bool_decide_eq_true_2 by done; done).
  assert (get_holders o s' = get_holders o s) as Hh by (unfold get_holders; by rewrite Hk).
  assert (forall h, get_frac_balance o h s' = get_frac_balance o h s) as Hb by (intros h; unfold get_frac_balance; by rewrite Hk).
  assert (is_locked o s' = is_locked o s) as Hl by (unfold is_locked; by rewrite Hk).
  split.
  - rewrite Hl, Hh. intros (m & Hm & Hnd & Hs)%H1. exists m. unfold get_meta. rewrite Hk by done. split; [done|]. split; [done|].
    rewrite <- Hs. apply sum_of_ext. intros. apply Hb.
  - intros h. rewrite Hh, Hb. apply H2.
  - intros h. rewrite Hb. apply H3.
  - rewrite Hl, Hh. apply H4.
Qed.

(** Removing the balances of a list of holders. *)
Lemma removed_Ok E o l s x s' :
  for_each l (fun h => remove_frac_balance (E:=E) o h) s = Ok x s' ->
  (forall h, get_frac_balance o h s' = if bool_decide (h ∈ l) then 0 else get_frac_balance o h s) /\
  (forall k, (forall h, k <> KMod (FrBal o h)) -> rd k s' = rd k s).
Proof.
  revert s. induction l as [|h l IH]; intros s; cbn [for_each].
  - intros [_ ->]%ret_Ok. split; [|done]. intros h. by rewrite bool_decide_eq_false_2 by apply not_elem_of_nil.
  - intros (? & ? & [_ ->]%del_Ok & H)%bind_Ok. apply IH in H as [Hb Hk]. split.
    + intros h'. rewrite Hb. unfold get_frac_balance. destruct (decide (h' = h)) as [->|Hne].
      * rewrite (bool_decide_eq_true_2 (h ∈ h :: l)) by set_solver. rdsimp. by destruct (bool_decide _).
      * rewrite rd_upd_ne by congruence. by rewrite (bool_decide_ext (h' ∈ h :: l) (h' ∈ l)) by set_solver.
    + intros k Hne. rewrite Hk by done. apply rd_upd_ne. intros <-. by eapply Hne.
Qed.

(** A transfer: what leaves the owner's balance arrives at [to]. *)
Lemma transfer_fractions_Ok env o to a s x s' :
  transfer_fractions env o to a s = Ok x s' ->
  is_locked o s = true /\ a <> 0 /\ a <= get_frac_balance o o s /\
  (to <> o -> get_frac_balance o o s' = get_frac_balance o o s - a /\ get_frac_balance o to s' = get_frac_balance o to s + a) /\
  (to = o -> get_frac_balance o o s' = get_frac_balance o o s) /\
  (forall h, h <> o -> h <> to -> get_frac_balance o h s' = get_frac_balance o h s) /\
  get_holders o s' = (if bool_decide (to ∈ get_holders o s) then get_holders o s else get_holders o s ++ [to]) /\
  (forall k, k <> KMod (FrHolders o) -> (forall h, k <> KMod (FrBal o h)) -> rd k s' = rd k s).
Proof.
  unfold transfer_fractions. cbv zeta. intros H.
  apply bind_Ok in H as (? & ? & H1 & H). apply require_auth_Ok in H1 as (_ & _ & ->).
  apply bind_Ok in H as (? & ? & H1 & H). apply fail_if_Ok in H1 as (Ha%Z.eqb_neq & _ & ->). unfold reading at 1 in H.
  apply bind_Ok in H as (? & ? & H1 & H). apply fail_if_Ok in H1 as (Hl%negb_false_iff & _ & ->). unfold reading at 1 in H.
  apply bind_Ok in H as (? & ? & H1 & H). apply fail_if_Ok in H1 as (Hle%Z.ltb_ge & _ & ->).
  apply bind_Ok in H as (nf & ? & H1 & H). apply plain_Ok in H1 as [[-> _]%to_u32_Some ->].
  apply bind_Ok in H as (? & s1 & H1 & H).
  assert (get_frac_balance o o s1 = get_frac_balance o o s - a /\ (forall k, k <> KMod (FrBal o o) -> rd k s1 = rd k s)) as [Hb1 Hk1].
  { destruct (Z.eqb_spec (get_frac_balance o o s - a) 0) as [Hz|_].
    - unfold remove_frac_balance in H1. apply del_Ok in H1 as [_ ->]. rewrite Hz. unfold get_frac_balance. rdsimp. split; [done|]. intros. by rdsimp.
    - unfold set_frac_balance in H1. apply put_Ok in H1 as [_ ->]. unfold get_frac_balance at 1. rdsimp. split; [done|]. intros. by rdsimp. }
  unfold reading at 1 in H. apply bind_Ok in H as (tb & ? & H1' & H). apply plain_Ok in H1' as [[-> _]%to_u32_Some ->].
  unfold set_frac_balance in H. apply bind_Ok in H as (? & ? & [_ ->]%put_Ok & H). unfold reading at 1 in H.
  set (s2 := upd _ _ s1) in H. assert (get_holders o s2 = get_holders o s) as Hh by (subst s2; unfold get_holders; rdsimp; by rewrite Hk1).
  rewrite Hh in H.
  assert (get_holders o s' = (if bool_decide (to ∈ get_holders o s) then get_holders o s else get_holders o s ++ [to]) /\
    (forall k, k <> KMod (FrHolders o) -> rd k s' = rd k s2)) as [Hh' Hk'].
  { destruct (bool_decide _); [apply ret_Ok in H as [_ ->]; done|]. unfold set_holders in H. apply put_Ok in H as [_ ->].
    unfold get_holders at 1. rdsimp. split; [done|]. intros. by rdsimp. }
  assert (forall h, get_frac_balance o h s' = get_frac_balance o h s2) as Hb' by (intros h; unfold get_frac_balance; by rewrite Hk').
  split_and!; try done.
  - intros Hne. rewrite !Hb'. subst s2. unfold get_frac_balance in *. rdsimp. split; [by rewrite ?rd_upd_ne by congruence|].
    cbn [default]. by rewrite Hk1 by congruence.
  - intros ->. rewrite Hb'. assert (get_frac_balance o o s2 = get_frac_balance o o s1 + a) as ->; [|lia].
    subst s2. unfold get_frac_balance at 1. by rdsimp.
  - intros h Hho Hht. rewrite Hb'. subst s2. unfold get_frac_balance. rewrite rd_upd_ne by congruence. by rewrite Hk1 by congruence.
  - intros k K1 K2. rewrite Hk' by done. subst s2. rewrite rd_upd_ne by (intros <-; by eapply K2). by apply Hk1.
Qed.

(** The other two operations. *)
Lemma fractionalize_Ok env o n s x s' :
  fractionalize_nft env o n s = Ok x s' ->
  is_locked o s = false /\ 2 <= n <= 1000 /\ get_shares o s <> 0 /\ is_locked o s' = true /\ get_meta o s' = Some (mkFractionalizedNFT o n) /\ get_holders o s' = [o] /\
  get_frac_balance o o s' = n /\ (forall h, h <> o -> get_frac_balance o h s' = get_frac_balance o h s) /\
  (forall k, frac_key o k = false -> rd k s' = rd k s).
Proof.
  unfold fractionalize_nft. intros H.
  apply bind_Ok in H as (? & ? & H1 & H). apply require_auth_Ok in H1 as (_ & _ & ->).
  apply bind_Ok in H as (? & ? & H1 & H). apply fail_if_Ok in H1 as ([Hn1%Z.ltb_ge Hn2%Z.ltb_ge]%orb_false_iff & _ & ->). unfold reading at 1 in H.
  apply bind_Ok in H as (? & ? & H1 & H). apply fail_if_Ok in H1 as (Hs%Z.eqb_neq & _ & ->). unfold reading at 1 in H.
  apply bind_Ok in H as (? & ? & H1 & H). apply fail_if_Ok in H1 as (Hl & _ & ->).
  unfold set_locked, set_meta, set_holders, set_frac_balance in H.
  do 4 (apply bind_Ok in H as (? & ? & [_ ->]%put_Ok & H)). apply publish_Ok in H as [_ ->].
  unfold is_locked at 2, get_meta, get_holders, get_frac_balance. unfold MIN_FRACTIONS, MAX_FRACTIONS in *.
  split_and!; try done; try lia; rdsimp; try done.
  - intros h Hne. by rewrite rd_emit, !rd_upd_ne by congruence.
  - intros k Hk. rewrite rd_emit.
    rewrite !rd_upd_ne by (intros <-; simpl in Hk; by apply bool_decide_eq_false in Hk). done.
Qed.

Lemma reconstruct_Ok env o s x s' :
  reconstruct_nft env o s = Ok x s' ->
  exists m, is_locked o s = true /\ get_meta o s = Some m /\ get_frac_balance o o s = fx_total_fractions m /\
  is_locked o s' = false /\ get_holders o s' = [] /\
  (forall h, get_frac_balance o h s' = if bool_decide (h ∈ get_holders o s) then 0 else get_frac_balance o h s) /\
  (forall k, frac_key o k = false -> rd k s' = rd k s).
Proof.
  unfold reconstruct_nft. intros H.
  apply bind_Ok in H as (? & ? & H1 & H). apply require_auth_Ok in H1 as (_ & _ & ->). unfold reading at 1 in H.
  apply bind_Ok in H as (? & ? & H1 & H). apply fail_if_Ok in H1 as (Hl%negb_false_iff & _ & ->). unfold reading at 1 in H.
  apply bind_Ok in H as (m & ? & H1 & H). apply ok_or_Ok in H1 as [Hm ->]. unfold reading at 1 in H.
  apply bind_Ok in H as (? & ? & H1 & H). apply fail_if_Ok in H1 as (Hb%negb_false_iff%Z.eqb_eq & _ & ->). unfold reading at 1 in H.
  apply bind_Ok in H as (? & s1 & [Hb1 Hk1]%removed_Ok & H).
  unfold remove_holders, remove_meta, set_locked in H.
  apply bind_Ok in H as (? & ? & [_ ->]%del_Ok & H). apply bind_Ok in H as (? & ? & [_ ->]%del_Ok & H).
  apply bind_Ok in H as (? & ? & [_ ->]%put_Ok & H). apply publish_Ok in H as [_ ->].
  exists m. split; [done|]. split; [done|]. split; [done|]. split; [unfold is_locked; by rdsimp|].
  split; [unfold get_holders; by rdsimp|]. split.
  - intros h. rewrite <- (Hb1 h). unfold get_frac_balance. by rdsimp.
  - intros k Hk. rewrite rd_emit.
    rewrite !rd_upd_ne by (intros <-; simpl in Hk; by apply bool_decide_eq_false in Hk).
    apply Hk1. intros h ->. simpl in Hk. by apply bool_decide_eq_false in Hk.
Qed.

(** Operations on the fractions of others. *)
Lemma other_frac o k u : frac_key o k = true -> u <> o -> frac_key u k = false.
Proof. destruct k as [| | | | | | | | | |[]]; try done; simpl; intros ->%bool_decide_eq_true Hne; by apply bool_decide_eq_false. Qed.

Lemma transfer_keeps env o to a s x s' : 0 <= a -> fractions o s -> transfer_fractions env o to a s = Ok x s' -> fractions o s'.
Proof.
  intros Ha0 [F1 F2 F3 F4] (Hl & Ha & Hle & Hmv & Hself & Hoth & Hh & Hk)%transfer_fractions_Ok.
  destruct (F1 Hl) as (m & Hm & Hnd & Hsum).
  assert (is_locked o s' = true) as Hl' by (unfold is_locked; by rewrite Hk).
  assert (get_meta o s' = Some m) as Hm' by (unfold get_meta; by rewrite Hk).
  destruct (decide (to = o)) as [->|Hne].
  - assert (forall h, get_frac_balance o h s' = get_frac_balance o h s) as Hb
      by (intros h; destruct (decide (h = o)) as [->|]; [by apply Hself|by apply Hoth]).
    assert (o ∈ get_holders o s \/ get_frac_balance o o s = 0) as Ho by (destruct (decide (o ∈ get_holders o s)); [by left|right; by apply F2]).
    split; [intros _; exists m; split; [done|]|..].
    + rewrite Hh. case_bool_decide as Hin.
      * split; [done|]. rewrite <- Hsum. apply sum_of_ext. intros. apply Hb.
      * split; [apply NoDup_app; split; [done|]; split; [set_solver|apply NoDup_singleton]|].
        rewrite sum_of_app, (sum_of_ext _ (fun h => get_frac_balance o h s)) by (intros; apply Hb).
        simpl. rewrite Hb, (F2 o Hin). lia.
    + intros h. rewrite Hh, Hb. case_bool_decide; intros Hn; apply F2; set_solver.
    + intros h. rewrite Hb. apply F3.
    + congruence.
  - destruct (Hmv Hne) as [Ho Ht].
    assert (Hin : o ∈ get_holders o s).
    { destruct (decide (o ∈ get_holders o s)) as [|Hn]; [done|]. pose proof (F2 o Hn). lia. }
    set (f := fun h => get_frac_balance o h s) in Hsum.
    set (mid := fun h => if decide (h = o) then f o - a else f h).
    assert (sum_of mid (get_holders o s) = fx_total_fractions m - a) as Hmid.
    { rewrite (sum_of_change f mid _ o Hnd Hin), Hsum; [unfold mid; rewrite decide_True by done; lia|].
      intros h Hn. unfold mid. by rewrite decide_False. }
    assert (forall h, h <> to -> get_frac_balance o h s' = mid h) as Hg.
    { intros h Hn. unfold mid. destruct (decide (h = o)) as [->|Hd]; [exact Ho|]. by apply Hoth. }
    assert (mid to = f to) as Hmt by (unfold mid; by rewrite decide_False).
    split; [intros _; exists m; split; [done|]|..].
    + rewrite Hh. case_bool_decide as Hto.
      * split; [done|]. rewrite (sum_of_change mid (fun h => get_frac_balance o h s') _ to Hnd Hto), Hmid by (intros; symmetry; by apply Hg).
        rewrite Hmt, Ht. unfold f. lia.
      * split; [apply NoDup_app; split; [done|]; split; [set_solver|apply NoDup_singleton]|].
        rewrite sum_of_app. rewrite (sum_of_ext _ mid) by (intros h Hh'; apply Hg; by intros ->).
        rewrite Hmid. simpl. rewrite Ht, (F2 to Hto). lia.
    + intros h. rewrite Hh. intros Hn.
      assert (h <> o /\ h <> to /\ h ∉ get_holders o s) as (N1 & N2 & N3).
      { revert Hn. case_bool_decide; [intros Hn; split_and!; [by intros ->|by intros ->|done]|intros Hn; set_solver]. }
      rewrite Hoth by done. by apply F2.
    + intros h. destruct (decide (h = to)) as [->|Hn]; [rewrite Ht; pose proof (F3 to); lia|].
      rewrite Hg by done. unfold mid. destruct (decide (h = o)); [|apply F3]. change (0 <= get_frac_balance o o s - a). lia.
    + congruence.
Qed.

Definition sane (op : frac_op) : Prop := match op with OpTransferFractions _ _ a => 0 <= a | _ => True end.

Lemma perform_keeps env op o s : sane op -> fractions o s -> fractions o (perform env op s).
Proof.
  intros Hop HF. pose proof HF as [F1 F2 F3 F4]. destruct op as [u n|u to a|u]; cbn [perform sane] in *; unfold invoke.
  - destruct (fractionalize_nft env u n s) as [x s'|e s'|t] eqn:H; [|done..].
    apply fractionalize_Ok in H as (Hl0 & Hn & _ & Hl & Hm & Hh & Hb & Hoth & Hk). destruct (decide (u = o)) as [->|Hne].
    2: { apply (fractions_same o s); [|done]. intros k Hko. apply Hk. by apply (other_frac o). }
    pose proof (F4 Hl0) as Hh0. split.
    + intros _. eexists. split; [done|]. rewrite Hh. split; [apply NoDup_singleton|]. simpl. rewrite Hb. simpl. lia.
    + intros h. rewrite Hh, list_elem_of_singleton. intros Hne. rewrite Hoth by done. apply F2. rewrite Hh0. by apply not_elem_of_nil.
    + intros h. destruct (decide (h = o)) as [->|Hne]; [rewrite Hb; lia|]. rewrite Hoth by done. apply F3.
    + congruence.
  - destruct (transfer_fractions env u to a s) as [x s'|e s'|t] eqn:H; [|done..].
    destruct (decide (u = o)) as [->|Hne]; [by eapply transfer_keeps|].
    apply transfer_fractions_Ok in H as (_ & _ & _ & _ & _ & _ & _ & Hk). apply (fractions_same o s); [|done].
    intros k Hko. apply Hk; [intros ->|intros h ->]; simpl in Hko; by apply bool_decide_eq_true in Hko.
  - destruct (reconstruct_nft env u s) as [x s'|e s'|t] eqn:H; [|done..].
    apply reconstruct_Ok in H as (m & _ & _ & _ & Hl & Hh & Hb & Hk). destruct (decide (u = o)) as [->|Hne].
    2: { apply (fractions_same o s); [|done]. intros k Hko. apply Hk. by apply (other_frac o). }
    split.
    + congruence.
    + intros h _. rewrite Hb. case_bool_decide; [done|]. by apply F2.
    + intros h. rewrite Hb. case_bool_decide; [done|]. apply F3.
    + done.
Qed.

(** Any operation on fractions, of anybody, or anything else that leaves the
    fractions of [o] alone. *)
Inductive fraction_step (o : Address) s : State -> Prop :=
| fx_op env op : sane op -> fraction_step o s (perform env op s)
| fx_other s' : (forall k, frac_key o k = true -> rd k s' = rd k s) -> fraction_step o s s'.

Lemma fraction_steps_keep o s s' : fractions o s -> rtc (fraction_step o) s s' -> fractions o s'.
Proof.
  intros HF H. induction H as [|s s1 s' H _ IH]; [done|]. apply IH. destruct H as [env op Hop|s1 Hk]; [by apply perform_keeps|].
  by apply (fractions_same o s).
Qed.

(** Somebody other than the owner holds a fraction. *)
Definition given_out (o : Address) s : Prop := exists h, h <> o /\ 0 < get_frac_balance o h s.

Lemma no_reconstruct o s : fractions o s -> is_locked o s = true -> given_out o s -> forall env x s', reconstruct_nft env o s <> Ok x s'.
Proof.
  intros HF Hl (h & Hh & Hpos) env x s' (m & _ & Hm & Hb & _)%reconstruct_Ok.
  destruct (fr_locked _ _ HF Hl) as (m' & Hm' & Hnd & Hs). rewrite Hm in Hm'. injection Hm' as <-.
  pose proof (fr_nonneg _ _ HF) as Hnn. set (f := fun v => get_frac_balance o v s) in Hs.
  assert (h ∈ get_holders o s) as Hin.
  { destruct (decide (h ∈ get_holders o s)) as [|Hn]; [done|]. pose proof (fr_only _ _ HF h Hn). lia. }
  destruct (decide (o ∈ get_holders o s)) as [Ho|Ho].
  - assert (sum_of f [h; o] <= sum_of f (get_holders o s)) as Hle.
    { apply sum_of_sub; [|set_solver|done]. apply NoDup_cons. split; [by rewrite list_elem_of_singleton|apply NoDup_singleton]. }
    change (get_frac_balance o h s + (get_frac_balance o o s + 0) <= sum_of f (get_holders o s)) in Hle. lia.
  - assert (sum_of f [h] <= sum_of f (get_holders o s)) as Hle by (apply sum_of_sub; [apply NoDup_singleton|set_solver|done]).
    change (get_frac_balance o h s + 0 <= sum_of f (get_holders o s)) in Hle. pose proof (fr_only _ _ HF o Ho). lia.
Qed.

(** While fractions are given out only the owner's balance can fall. *)
Record outward (o : Address) s s' : Prop := {
  ow_locked : is_locked o s' = true;
  ow_meta : get_meta o s' = get_meta o s;
  ow_owner : get_frac_balance o o s' <= get_frac_balance o o s;
  ow_others : forall h, h <> o -> get_frac_balance o h s <= get_frac_balance o h s'
}.
Lemma outward_same o s s' : is_locked o s = true -> (forall k, frac_key o k = true -> rd k s' = rd k s) -> outward o s s'.
Proof.
  intros Hl Hk.
  assert (forall u, frac_key o (FrBal o u) = true) as Kb by (intros u; simpl; by apply bool_decide_eq_true).
  assert (frac_key o (FrLocked o) = true /\ frac_key o (FrMeta o) = true) as [K1 K2] by (simpl; by rewrite bool_decide_eq_true_2 by done).
  split; unfold is_locked, get_meta, get_frac_balance in *; intros; rewrite Hk by done; done || lia.
Qed.

Lemma step_outward o s s' : fractions o s -> is_locked o s = true -> given_out o s -> fraction_step o s s' -> outward o s s'.
Proof.
  intros HF Hl Hg [env op Hop|s1 Hk]; [|by apply outward_same].
  assert (outward o s s) as Hrefl by (by apply outward_same).
  destruct op as [u n|u to a|u]; cbn [perform sane] in *; unfold invoke.
  - destruct (fractionalize_nft env u n s) as [x s1|e s1|r] eqn:H; [|done..].
    apply fractionalize_Ok in H as (Hl0 & _ & _ & _ & _ & _ & _ & _ & Hk). destruct (decide (u = o)) as [->|Hne]; [congruence|].
    apply outward_same; [done|]. intros k Hko. apply Hk. by apply (other_frac o).
  - destruct (transfer_fractions env u to a s) as [x s1|e s1|r] eqn:H; [|done..].
    apply transfer_fractions_Ok in H as (_ & Ha & _ & Hmv & Hself & Hoth & _ & Hk). destruct (decide (u = o)) as [->|Hne].
    + split; [unfold is_locked in *; by rewrite Hk|unfold get_meta; by rewrite Hk|..].
      * destruct (decide (to = o)) as [->|Hto]; [rewrite Hself by done; lia|]. destruct (Hmv Hto). lia.
      * intros h Hh. destruct (decide (h = to)) as [->|Hto]; [destruct (Hmv Hh); lia|]. rewrite Hoth by done. lia.
    + apply outward_same; [done|]. intros k Hko. apply Hk; [intros ->|intros h ->]; simpl in Hko; by apply bool_decide_eq_true in Hko.
  - destruct (reconstruct_nft env u s) as [x s1|e s1|r] eqn:H; [|done..].
    destruct (decide (u = o)) as [->|Hne]; [by apply no_reconstruct in H|].
    apply reconstruct_Ok in H as (m & _ & _ & _ & _ & _ & _ & Hk). apply outward_same; [done|].
    intros k Hko. apply Hk. by apply (other_frac o).
Qed.

(** C13. Fractions given away lock the position for ever.  The fractions of a
    position always add up to the number issued; but a transfer can only be made
    by the owner of the position, so once it has given any fraction to somebody
    else, whatever happens later the others keep what they have, the owner never
    has all of them again, and no reconstruction ever succeeds. *)
Theorem fractions_never_return o s s' :
  fractions o s -> is_locked o s = true -> given_out o s -> rtc (fraction_step o) s s' ->
  fractions o s' /\ outward o s s' /\ (forall env x s2, reconstruct_nft env o s' <> Ok x s2).
Proof.
  intros HF Hl Hg H. induction H as [s|s s1 s' H _ IH].
  - split; [done|]. split; [by apply outward_same|]. by apply no_reconstruct.
  - assert (fractions o s1) as HF1 by (eapply fraction_steps_keep; [exact HF|by apply rtc_once]).
    destruct (step_outward _ _ _ HF Hl Hg H) as [O1 O2 O3 O4].
    destruct IH as (I1 & [J1 J2 J3 J4] & I3); [done|done| |].
    { destruct Hg as (h & Hh & Hpos). exists h. split; [done|]. specialize (O4 h Hh). lia. }
    split; [done|]. split; [|done]. split; [done|congruence|lia|]. intros h Hh. specialize (O4 h Hh). specialize (J4 h Hh). lia.
Qed.

End Theorems.

(** ** Witness *)

(** Address 2 splits its position into ten fractions and gives away three. *)
Definition whole_position : State (W := token_world) := upd (ShareBalance 2%positive) (Some 100) (start_state (fun _ _ => 0)).
Definition given_away : State (W := token_world) :=
  perform (at_ledger 11) (OpTransferFractions 2%positive 3%positive 3) (perform (at_ledger 10) (OpFractionalize 2%positive 10) whole_position).

Lemma fractions_never_return_witness :
  let s' := perform (at_ledger 13) (OpReconstruct 2%positive) (perform (at_ledger 12) (OpTransferFractions 2%positive 4%positive 5) given_away) in
  get_frac_balance 2%positive 2%positive s' = 2 /\ get_frac_balance 2%positive 4%positive s' = 5 /\
  (forall env x s2, reconstruct_nft env 2%positive s' <> Ok x s2).
Proof.
  intros s'. split; [vm_compute; reflexivity|]. split; [vm_compute; reflexivity|].
  apply (fractions_never_return 2%positive given_away s').
  - apply (fraction_steps_keep 2%positive whole_position).
    + split; unfold is_locked, get_holders, get_frac_balance, whole_position; intros; rdsimp; done.
    + eapply rtc_l; [by apply (fx_op _ _ (at_ledger 10) (OpFractionalize 2%positive 10))|].
      apply rtc_once. apply (fx_op _ _ (at_ledger 11) (OpTransferFractions 2%positive 3%positive 3)). discriminate.
  - vm_compute. reflexivity.
  - exists 3%positive. split; [discriminate|vm_compute; reflexivity].
  - eapply rtc_l; [by apply (fx_op _ _ (at_ledger 12) (OpTransferFractions 2%positive 4%positive 5))|].
    apply rtc_once. by apply (fx_op _ _ (at_ledger 13) (OpReconstruct 2%positive)).
Defined.
