(* ===== verification/Presale.v ===== *)
(** * The presale of reserved spots ([pool_presale.rs])

    Before the pool opens buyers reserve amounts against a fee paid to the
    administrator; once it is open a reservation is redeemed as a deposit. *)

From S2P Require Import Prelude Errors Storage Host TokenFacts Concrete Accessors Admin Balance RewardMath.

Section Presale.
Context {W : World} (env : Env).
Implicit Types s : State.

Definition get_config s : option PresaleConfig := rd PresaleCfg s.
Definition set_config {E} (config : PresaleConfig) : M E unit := put PresaleCfg config.
Definition get_reservation (buyer : Address) s : option PresaleReservation := rd (PresaleRes buyer) s.
Definition set_reservation {E} (buyer : Address) (reservation : PresaleReservation) : M E unit :=
  put (PresaleRes buyer) reservation.
Definition token_address : M VaultError.t Address :=
  let& stored := rd Token in ok_or stored VaultError.NotInitialized.

Definition start_presale (reservation_fee_bps max_reservation_per_user total_reservation_cap opens_at : Z)
    : M VaultError.t unit :=
  require_admin env ;;;
  let& existing := get_config in
  fail_if (match existing with Some c => pz_active c | None => false end) VaultError.InvalidRate ;;;
  fail_if (BPS <? reservation_fee_bps) VaultError.InvalidRate ;;;
  fail_if ((max_reservation_per_user <=? 0) || (total_reservation_cap <=? 0)) VaultError.ZeroAmount ;;;
  fail_if (opens_at <=? sequence env) VaultError.ZeroAmount ;;;
  set_config (mkPresaleConfig reservation_fee_bps max_reservation_per_user total_reservation_cap 0 opens_at true) ;;;
  publish [VSym "ps_start"] [VInt reservation_fee_bps; VInt total_reservation_cap; VInt opens_at; VInt (sequence env)].

Definition cancel_presale : M VaultError.t unit :=
  require_admin env ;;;
  let& stored := get_config in
  let! c := ok_or stored VaultError.InvalidRate in
  set_config (mkPresaleConfig (pz_reservation_fee_bps c) (pz_max_reservation_per_user c) (pz_total_reservation_cap c)
                (pz_total_reserved c) (pz_opens_at c) false) ;;;
  publish [VSym "ps_cncl"] [VInt (sequence env)].

Definition reserve_presale_spot (buyer : Address) (amount : Z) : M VaultError.t Z :=
  require_auth env buyer ;;;
  fail_if (amount <=? 0) VaultError.ZeroAmount ;;;
  let& stored := get_config in
  let! c := ok_or stored VaultError.InvalidRate in
  fail_if (negb (pz_active c)) VaultError.InvalidRate ;;;
  fail_if (pz_opens_at c <=? sequence env) VaultError.InvalidRate ;;;
  let& stored := get_reservation buyer in
  let reservation := default (mkPresaleReservation 0 0 false) stored in
  let! new_reserved := ok_or (checked_add (pv_reserved_amount reservation) amount) VaultError.ArithmeticError in
  fail_if (pz_max_reservation_per_user c <? new_reserved) VaultError.InvalidRate ;;;
  let! new_total := ok_or (checked_add (pz_total_reserved c) amount) VaultError.ArithmeticError in
  fail_if (pz_total_reservation_cap c <? new_total) VaultError.PoolCapReached ;;;
  let! fee := ok_or (v ← checked_mul amount (pz_reservation_fee_bps c); checked_div v BPS) VaultError.ArithmeticError in
  (if 0 <? fee then
     let! admin_addr := get_admin in
     let! token := token_address in
     transfer token buyer admin_addr fee
   else ret tt) ;;;
  let! fee_paid := ok_or (checked_add (pv_fee_paid reservation) fee) VaultError.ArithmeticError in
  set_reservation buyer (mkPresaleReservation new_reserved fee_paid (pv_redeemed reservation)) ;;;
  set_config (mkPresaleConfig (pz_reservation_fee_bps c) (pz_max_reservation_per_user c) (pz_total_reservation_cap c)
                new_total (pz_opens_at c) (pz_active c)) ;;;
  publish [VSym "ps_resv"; VAddr buyer] [VInt amount; VInt fee; VInt new_reserved; VInt (sequence env)] ;;;
  ret new_reserved.

(** The shares a redemption mints. *)
Definition presale_shares (amount total_shares total_deposited : Z) : option Z :=
  if (total_shares =? 0) || (total_deposited =? 0) then Some amount
  else v ← checked_mul amount total_shares; checked_div v total_deposited.

Definition redeem_presale_reservation (buyer : Address) : M VaultError.t Z :=
  require_auth env buyer ;;;
  let& stored := get_config in
  let! c := ok_or stored VaultError.InvalidRate in
  fail_if (negb (pz_active c)) VaultError.InvalidRate ;;;
  fail_if (sequence env <? pz_opens_at c) VaultError.InvalidRate ;;;
  let& stored := get_reservation buyer in
  let! reservation := ok_or stored VaultError.InvalidRate in
  fail_if (pv_redeemed reservation) VaultError.InvalidRate ;;;
  fail_if (pv_reserved_amount reservation <=? 0) VaultError.InvalidRate ;;;
  let amount := pv_reserved_amount reservation in
  let! token := token_address in
  transfer token buyer (self env) amount ;;;
  let& total_shares := get_total_shares in
  let& total_deposited := get_total_deposited in
  let! shares_minted := ok_or (presale_shares amount total_shares total_deposited) VaultError.ArithmeticError in
  let& current_shares := get_shares buyer in
  let is_new_staker := current_shares =? 0 in
  let! v := plain (checked_add current_shares shares_minted) in
  set_shares env buyer v ;;;
  let! v := plain (checked_add total_shares shares_minted) in
  set_total_shares env v ;;;
  let! v := plain (checked_add total_deposited amount) in
  set_total_deposited v ;;;
  (if is_new_staker then
     let& stakers := get_total_stakers in
     let! v := plain (to_u32 (stakers + 1)) in
     put TotalStakers v
   else ret tt) ;;;
  set_reservation buyer (mkPresaleReservation amount (pv_fee_paid reservation) true) ;;;
  publish [VSym "ps_redm"; VAddr buyer] [VInt amount; VInt shares_minted; VInt (sequence env)] ;;;
  ret shares_minted.

End Presale.
