(* ===== verification/Disputes.v ===== *)
(** * Slash disputes and the guarantor's reserve

    [slash_dispute.rs]: slashes recorded by the administrator, disputes filed
    by the slashed user and decided by stake-weighted votes.  [insurance.rs]:
    the reserve of a guarantor, a number beside the reward pool. *)

From S2P Require Import Prelude Errors Storage Host TokenFacts Concrete Accessors Admin Shares Loans.

Definition DEFAULT_DISPUTE_WINDOW : Z := 50000.
Definition MAX_OPEN_DISPUTES : Z := 5.
Definition MAX_DISPUTE_REASON_LEN : nat := 500.
Definition SOLVENCY_PERIOD_LEDGERS : Z := 1555200.

Section Disputes.
Context {W : World} (env : Env).
Implicit Types s : State.

(** ** Slash disputes ([slash_dispute.rs]) *)

Definition get_window s : Z := default DEFAULT_DISPUTE_WINDOW (rd DispWindow s).
Definition load_slash_record (slash_id : Z) s : option SlashRecord := rd (SlashRec slash_id) s.
Definition load_dispute (dispute_id : Z) s : option SlashDispute := rd (DisputeOf dispute_id) s.
Definition set_dispute {E} (dispute_id : Z) (dispute : SlashDispute) : M E unit := put (DisputeOf dispute_id) dispute.
Definition get_open_count s : Z := default 0 (rd OpenDisputes s).

Definition position_amount (user : Address) s : option Z :=
  let shares := get_shares user s in
  if shares =? 0 then None else shares_to_amount (get_total_shares s) (get_total_deposited s) shares.

Definition record_slash (user : Address) (slash_id amount : Z) : M VaultError.t unit :=
  fail_if (amount <=? 0) VaultError.ZeroAmount ;;;
  let& stored := load_slash_record slash_id in
  fail_if (match stored with Some _ => true | None => false end) VaultError.AlreadyInitialized ;;;
  put (SlashRec slash_id) (mkSlashRecord slash_id user amount (sequence env)).
(** The entrypoint of the same name. *)
Definition record_slash_entry (user : Address) (slash_id amount : Z) : M VaultError.t unit :=
  require_admin env ;;;
  record_slash user slash_id amount.

Definition set_slash_dispute_window (ledgers : Z) : M VaultError.t unit :=
  require_admin env ;;;
  put DispWindow ledgers ;;;
  publish [VSym "sd_wset"] [VInt ledgers; VInt (sequence env)].

Definition dispute_slash (user : Address) (slash_id : Z) (reason : string) : M VaultError.t Z :=
  require_auth env user ;;;
  fail_if (MAX_DISPUTE_REASON_LEN <? String.length reason)%nat VaultError.DescriptionTooLong ;;;
  let& stored := load_slash_record slash_id in
  let! record := ok_or stored VaultError.PositionNotFound in
  fail_if (negb (bool_decide (sl_user record = user))) VaultError.Unauthorized ;;;
  let& window := get_window in
  fail_if (u32_sat_add (sl_slashed_at record) window <? sequence env) VaultError.EpochNotFinalized ;;;
  let& open := rd (SlashToDispute slash_id) in
  fail_if (match open with Some _ => true | None => false end) VaultError.AlreadyInitialized ;;;
  let& open_count := get_open_count in
  fail_if (MAX_OPEN_DISPUTES <=? open_count) VaultError.TooManyStakers ;;;
  let& next := rd NextDispute in
  let dispute_id := default 0 next in
  let! next := plain (to_u32 (dispute_id + 1)) in
  put NextDispute next ;;;
  let& open_count := get_open_count in
  let! open_count := plain (to_u32 (open_count + 1)) in
  put OpenDisputes open_count ;;;
  set_dispute dispute_id (mkSlashDispute slash_id user reason 0 0 (u32_sat_add (sequence env) window) false) ;;;
  put (SlashToDispute slash_id) dispute_id ;;;
  publish [VSym "sd_filed"; VAddr user] [VInt slash_id; VInt dispute_id; VInt (sequence env)] ;;;
  ret dispute_id.

(** The dispute with [weight] more on a side. *)
Definition with_dispute_vote (d : SlashDispute) (overturn : bool) (weight : Z) : option SlashDispute :=
  if overturn
  then v ← checked_add (di_votes_overturn d) weight;
       Some (mkSlashDispute (di_slash_id d) (di_disputer d) (di_reason d) v (di_votes_uphold d) (di_deadline d) (di_resolved d))
  else v ← checked_add (di_votes_uphold d) weight;
       Some (mkSlashDispute (di_slash_id d) (di_disputer d) (di_reason d) (di_votes_overturn d) v (di_deadline d) (di_resolved d)).

Definition vote_on_dispute (voter : Address) (dispute_id : Z) (overturn : bool) : M VaultError.t unit :=
  require_auth env voter ;;;
  let& stored := load_dispute dispute_id in
  let! dispute := ok_or stored VaultError.PositionNotFound in
  fail_if (di_resolved dispute) VaultError.AlreadyInitialized ;;;
  fail_if (di_deadline dispute <? sequence env) VaultError.EpochNotFinalized ;;;
  let& amount := position_amount voter in
  let! weight := ok_or amount VaultError.TooManyStakers in
  let& voted := rd (DispVoted dispute_id voter) in
  fail_if (match voted with Some _ => true | None => false end) VaultError.TooManyStakers ;;;
  put (DispVoted dispute_id voter) true ;;;
  let! dispute := ok_or (with_dispute_vote dispute overturn weight) VaultError.ArithmeticError in
  set_dispute dispute_id dispute ;;;
  publish [VSym "sd_vote"; VAddr voter] [VInt dispute_id; VBool overturn; VInt weight; VInt (sequence env)].

(** The dispute, resolved. *)
Definition resolved (d : SlashDispute) : SlashDispute :=
  mkSlashDispute (di_slash_id d) (di_disputer d) (di_reason d) (di_votes_overturn d) (di_votes_uphold d) (di_deadline d) true.

Definition resolve_dispute (dispute_id : Z) : M VaultError.t unit :=
  let& stored := load_dispute dispute_id in
  let! dispute := ok_or stored VaultError.PositionNotFound in
  fail_if (di_resolved dispute) VaultError.AlreadyInitialized ;;;
  fail_if (sequence env <=? di_deadline dispute) VaultError.EpochNotFinalized ;;;
  let& stored := load_slash_record (di_slash_id dispute) in
  let! record := ok_or stored VaultError.PositionNotFound in
  let overturned := di_votes_uphold dispute <? di_votes_overturn dispute in
  (if negb overturned then
     let& destination := get_slash_treasury in
     match destination with
     | Some treasury =>
         let& stored := rd Token in
         let! token_addr := ok_or stored VaultError.NotInitialized in
         transfer token_addr (self env) treasury (sl_amount record)
     | None => ret tt
     end
   else ret tt) ;;;
  set_dispute dispute_id (resolved dispute) ;;;
  let& open_count := get_open_count in
  put OpenDisputes (u32_sat_sub open_count 1) ;;;
  del (SlashToDispute (di_slash_id dispute)) ;;;
  publish [VSym "sd_res"] [VInt dispute_id; VBool overturned; VInt (di_votes_overturn dispute);
                           VInt (di_votes_uphold dispute); VInt (sequence env)].

(** ** The guarantor ([insurance.rs]) *)

Definition get_guarantor s : option Address := rd GtorAddr s.
Definition get_coverage_amount s : Z := default 0 (rd GtorCoverage s).
Definition get_reserve s : Z := default 0 (rd GtorReserve s).
Definition set_reserve {E} (amount : Z) : M E unit := put GtorReserve amount.
Definition insolvency_ledger s : option Z := rd GtorInsolvent s.
Definition is_insolvent s : bool := match insolvency_ledger s with Some _ => true | None => false end.

Definition register_guarantor (guarantor : Address) (coverage_amount : Z) : M VaultError.t unit :=
  require_admin env ;;;
  fail_if (bool_decide (guarantor = self env)) VaultError.InvalidAddress ;;;
  fail_if (coverage_amount <=? 0) VaultError.ZeroAmount ;;;
  let& insolvent := is_insolvent in
  fail_if insolvent VaultError.ContractStopped ;;;
  put GtorAddr guarantor ;;;
  put GtorCoverage coverage_amount ;;;
  put GtorRegistered (sequence env) ;;;
  publish [VSym "gtor_reg"; VAddr guarantor] [VInt coverage_amount; VInt (sequence env)].

(** The caller is the registered guarantor. *)
Definition require_guarantor (guarantor : Address) : M VaultError.t unit :=
  require_auth env guarantor ;;;
  let& stored := get_guarantor in
  let! registered := ok_or stored VaultError.NotInitialized in
  fail_if (negb (bool_decide (registered = guarantor))) VaultError.RelayerNotApproved.

Definition deposit_guarantee (guarantor : Address) (amount : Z) : M VaultError.t unit :=
  require_guarantor guarantor ;;;
  fail_if (amount <=? 0) VaultError.ZeroAmount ;;;
  let& reserve := get_reserve in
  let! updated := ok_or (checked_add reserve amount) VaultError.ArithmeticError in
  set_reserve updated ;;;
  publish [VSym "gtor_dep"; VAddr guarantor] [VInt amount; VInt updated; VInt (sequence env)].

Definition declare_insolvency : M VaultError.t unit :=
  require_admin env ;;;
  let& insolvent := is_insolvent in
  fail_if insolvent VaultError.ContractStopped ;;;
  put GtorInsolvent (sequence env) ;;;
  let! admin := get_admin in
  publish [VSym "gtor_isv"; VAddr admin] [VInt (sequence env)].

Definition claim_guarantee (user : Address) (amount : Z) : M VaultError.t Z :=
  require_auth env user ;;;
  let& insolvent := is_insolvent in
  fail_if (negb insolvent) VaultError.NotInitialized ;;;
  fail_if (amount <=? 0) VaultError.ZeroAmount ;;;
  let& reserve := get_reserve in
  fail_if (reserve <? amount) VaultError.InsufficientRewardPool ;;;
  let! remaining := ok_or (checked_sub reserve amount) VaultError.ArithmeticError in
  set_reserve remaining ;;;
  publish [VSym "gtor_clm"; VAddr user] [VInt amount; VInt remaining; VInt (sequence env)] ;;;
  ret remaining.

Definition withdraw_guarantee (guarantor : Address) : M VaultError.t Z :=
  require_guarantor guarantor ;;;
  let& insolvent := is_insolvent in
  fail_if insolvent VaultError.ContractStopped ;;;
  let& stored := rd GtorRegistered in
  let! registered_at := ok_or stored VaultError.NotInitialized in
  let unlock_at := u32_sat_add registered_at SOLVENCY_PERIOD_LEDGERS in
  fail_if (sequence env <? unlock_at) VaultError.EpochNotFinalized ;;;
  let& amount := get_reserve in
  fail_if (amount <=? 0) VaultError.NothingToWithdraw ;;;
  set_reserve 0 ;;;
  publish [VSym "gtor_wdr"; VAddr guarantor] [VInt amount; VInt (sequence env)] ;;;
  ret amount.

Definition guarantee_unlock_ledger s : Z :=
  match rd GtorRegistered s with Some at_ => u32_sat_add at_ SOLVENCY_PERIOD_LEDGERS | None => 0 end.

End Disputes.
