(* ===== verification/Sunset.v ===== *)
(** * The sunset of the pool ([vault.rs], issue #298)

    Announced, then a grace period, then positions resolved by the
    administrator, then closed.  Of the operations that open positions only
    those that call [require_not_sunsetting] are stopped by it.

    [force_resolve_position] settles rewards with the accrual walk of [Rewards.v]
    and so takes its fuel. *)

From S2P Require Import Prelude Errors Storage Host Events TokenFacts Concrete Accessors Admin Shares RewardMath Rewards Balance Limits Leaderboard.

Section Sunset.
Context {W : World} {B : Bootstrap W} (env : Env) (fuel : nat).
Implicit Types s : State.

#[local] Instance sunset_state_eq_dec : EqDecision SunsetState.
Proof. solve_decision. Defined.

Definition get_sunset_state s : SunsetState := default Active (rd SunsetSt s).
Definition set_sunset_state {E} (state : SunsetState) : M E unit := put SunsetSt state.
Definition get_grace_period_end s : option Z := rd GracePeriodEnd s.
Definition set_grace_period_end {E} (ledger : Z) : M E unit := put GracePeriodEnd ledger.

(** The published name of a stage. *)
Definition stage_val (state : SunsetState) : val :=
  VVec [VSym match state with
             | Active => "Active" | SunsetAnnounced => "SunsetAnnounced" | GracePeriodActive => "GracePeriodActive"
             | ForceResolutionActive => "ForceResolutionActive" | Closed => "Closed"
             end].
Definition sunset_stage_changed {E} (new_state : SunsetState) (ledger : Z) : M E unit :=
  publish [VSym "snst_chg"; VAddr (self env)] [stage_val new_state; VInt ledger].

Definition require_not_sunsetting : M VaultError.t unit :=
  let& state := get_sunset_state in
  match state with
  | GracePeriodActive | ForceResolutionActive | Closed => throw VaultError.PoolShuttingDown
  | Active | SunsetAnnounced => ret tt
  end.

(** The administrator, at a stage. *)
Definition require_stage (admin : Address) (stage : SunsetState) : M VaultFeatureError.t unit :=
  try_ (require_admin_as env admin) ;;;
  let& state := get_sunset_state in
  fail_if (negb (bool_decide (state = stage))) VaultFeatureError.InvalidSunsetTransition.

Definition announce_sunset (admin : Address) (grace_period_ledgers : Z) : M VaultFeatureError.t unit :=
  require_stage admin Active ;;;
  let ledger := sequence env in
  let grace_period_end := u32_sat_add ledger grace_period_ledgers in
  set_sunset_state SunsetAnnounced ;;;
  set_grace_period_end grace_period_end ;;;
  Ev.sunset_announced admin grace_period_end ledger ;;;
  sunset_stage_changed SunsetAnnounced ledger.

Definition start_grace_period (admin : Address) : M VaultFeatureError.t unit :=
  require_stage admin SunsetAnnounced ;;;
  set_sunset_state GracePeriodActive ;;;
  sunset_stage_changed GracePeriodActive (sequence env).

Definition start_force_resolution (admin : Address) : M VaultFeatureError.t unit :=
  require_stage admin GracePeriodActive ;;;
  let& stored := get_grace_period_end in
  let grace_period_end := default 0 stored in
  fail_if (sequence env <? grace_period_end) VaultFeatureError.InvalidSunsetTransition ;;;
  set_sunset_state ForceResolutionActive ;;;
  sunset_stage_changed ForceResolutionActive (sequence env).

(** The accrued reward of a resolved position leaves the reward pool. *)
Definition debit_pool (accrued : Z) : M VaultFeatureError.t unit :=
  if 0 <? accrued then
    let& reward_pool := get_reward_pool_balance in
    fail_if (reward_pool <? accrued) (from VaultError.InsufficientRewardPool) ;;;
    let! v := plain (checked_sub reward_pool accrued) in
    set_reward_pool_balance v ;;;
    let& total_paid := get_total_rewards_paid in
    let! v := plain (checked_add total_paid accrued) in
    set_total_rewards_paid v
  else ret tt.

(** The staker leaves the registry. *)
Definition strike_staker (user : Address) : M VaultFeatureError.t unit :=
  del (StakedAtLedger user) ;;;
  let& total_stakers := get_total_stakers in
  (if 0 <? total_stakers then put TotalStakers (total_stakers - 1) else ret tt) ;;;
  remove_from_staker_list user.

(** The end of a resolution: the ledgers of the position restart and the payout leaves. *)
Definition close_out (user : Address) (principal accrued : Z) : M VaultFeatureError.t Z :=
  set_accrued_reward user 0 ;;;
  let ledger := sequence env in
  set_reward_checkpoint_ledger user ledger ;;;
  set_last_claim_ledger user ledger ;;;
  strike_staker user ;;;
  let! payout := ok_or (checked_add principal accrued) (from VaultError.ArithmeticError) in
  (if 0 <? payout then
     let! token_addr := try_ token_address in
     transfer token_addr (self env) user payout
   else ret tt) ;;;
  Ev.position_closed env user ;;;
  Ev.force_resolved user principal accrued ledger ;;;
  ret payout.

Definition force_resolve_position (admin user : Address) : M VaultFeatureError.t Z :=
  require_stage admin ForceResolutionActive ;;;
  let& shares := get_shares user in
  fail_if (shares =? 0) VaultFeatureError.PositionNotFound ;;;
  try_ (accrue_rewards env fuel user shares) ;;;
  let& accrued := get_accrued_reward user in
  let& total_shares := get_total_shares in
  let& total_deposited := get_total_deposited in
  let! principal := ok_or (shares_to_amount total_shares total_deposited shares) (from VaultError.ArithmeticError) in
  debit_pool accrued ;;;
  set_shares env user 0 ;;;
  let! v := plain (checked_sub total_shares shares) in
  set_total_shares env v ;;;
  let! v := plain (checked_sub total_deposited principal) in
  set_total_deposited v ;;;
  close_out user principal accrued.

Definition close_pool (admin : Address) : M VaultFeatureError.t unit :=
  require_stage admin ForceResolutionActive ;;;
  let& active := fun s => existsb (fun staker => 0 <? get_shares staker s) (get_all_stakers s) in
  fail_if active VaultFeatureError.PositionsStillActive ;;;
  set_sunset_state Closed ;;;
  sunset_stage_changed Closed (sequence env).

End Sunset.
