(* ===== verification/Merkle.v ===== *)
(** * Merkle rewards and revenue sharing ([vault.rs], issues #210 and #281)

    An administrator publishes the root of a hash tree whose leaves are users
    and amounts; a user claims with a path to the root.  SHA-256 and the text
    form of an address are the host's: parameters of the sections, of which
    only lengths are assumed.  The two schemes share the leaf and path
    functions and differ in the pool that pays. *)

From Stdlib Require Import Strings.Byte.
From S2P Require Import Prelude Errors Storage Host Events TokenFacts Concrete Accessors Admin Limits Commitment CategoryGov Loans.

Definition MERKLE_ROOT_HASH_LEN : nat := 32.
Definition REVENUE_MERKLE_ROOT_HASH_LEN : nat := 32.

Section Merkle.
Context {W : World} (env : Env) (sha256 : list byte -> list byte) (to_string : Address -> list byte).
Implicit Types s : State.

(** ** Accessors ([balance.rs]) *)

Definition set_merkle_root {E} (root : MerkleRoot) : M E unit := put MerkleKey root.
Definition get_merkle_root s : option MerkleRoot := rd MerkleKey s.
Definition is_merkle_claimed (user : Address) (epoch : Z) s : bool := default false (rd (MerkleClaimed user epoch) s).
Definition set_merkle_claimed {E} (user : Address) (epoch : Z) : M E unit := put (MerkleClaimed user epoch) true.
Definition set_revenue_sharing_config {E} (config : RevenueSharingConfig) : M E unit := put RevCfg config.
Definition get_revenue_share_epoch s : Z := default 0 (rd RevEpoch s).
Definition set_revenue_share_epoch {E} (epoch : Z) : M E unit := put RevEpoch epoch.
Definition get_revenue_share_merkle_root s : option RevenueShareMerkleRoot := rd RevMerkle s.
Definition set_revenue_share_merkle_root {E} (root : RevenueShareMerkleRoot) : M E unit := put RevMerkle root.
Definition is_revenue_share_claimed (user : Address) (epoch : Z) s : bool :=
  default false (rd (RevClaimed user epoch) s).
Definition set_revenue_share_claimed {E} (user : Address) (epoch : Z) : M E unit := put (RevClaimed user epoch) true.

(** ** Hashing *)

(** What a leaf hashes: the text of the address, at most 56 bytes (a longer
    one is out of the buffer's range), then the amount in big-endian. *)
Definition merkle_leaf_buf (user : Address) (amount : Z) : list byte := to_string user ++ to_be_bytes amount.
Definition merkle_leaf_hash {E} (user : Address) (amount : Z) : M E (list byte) :=
  panic_if (56 <? length (to_string user))%nat (TPanic 0) ;;;
  ret (sha256 (merkle_leaf_buf user amount)).

(** The pair in the order of the first bytes, the current hash first on a tie. *)
Definition first_byte (hash : list byte) : Z := byte_val (default x00 (head hash)).
Definition combined (current sibling : list byte) : list byte :=
  if first_byte current <=? first_byte sibling then current ++ sibling else sibling ++ current.
Definition compute_merkle_root (leaf : list byte) (proof : list (list byte)) : list byte :=
  fold_left (fun current sibling => sha256 (combined current sibling)) proof leaf.

(** ** Merkle rewards *)

Definition publish_merkle_root (admin : Address) (root : list byte) (epoch total_claimable : Z)
    : M VaultExtError.t unit :=
  try_ (require_admin_as env admin) ;;;
  fail_if (negb (length root =? MERKLE_ROOT_HASH_LEN)%nat) VaultExtError.MerkleInvalidProof ;;;
  set_merkle_root (mkMerkleRoot root epoch total_claimable (sequence env)) ;;;
  Ev.merkle_root_published env admin epoch total_claimable.

Definition claim_merkle_reward (user : Address) (amount : Z) (proof : list (list byte)) : M VaultExtError.t unit :=
  require_auth env user ;;;
  let& stored := get_merkle_root in
  let! mr := ok_or stored VaultExtError.MerkleInvalidProof in
  let& claimed := is_merkle_claimed user (mr_epoch mr) in
  fail_if claimed VaultExtError.MerkleAlreadyClaimed ;;;
  let! leaf := merkle_leaf_hash user amount in
  let computed_root := compute_merkle_root leaf proof in
  fail_if (negb (bool_decide (computed_root = mr_root mr))) VaultExtError.MerkleInvalidProof ;;;
  set_merkle_claimed user (mr_epoch mr) ;;;
  let& stored := rd Token in
  let! reward_token := ok_or stored VaultExtError.NotInitialized in
  let& reward_pool := get_reward_pool_balance in
  fail_if (reward_pool <? amount) VaultExtError.Unauthorized ;;;
  let! rest := plain (checked_sub reward_pool amount) in
  set_reward_pool_balance rest ;;;
  transfer reward_token (self env) user amount ;;;
  let& total_paid := get_total_rewards_paid in
  let! total_paid := plain (checked_add total_paid amount) in
  set_total_rewards_paid total_paid ;;;
  Ev.merkle_claimed user amount (mr_epoch mr) (sequence env).

(** ** Revenue sharing *)

Definition set_revenue_sharing (admin governance_token : Address) (share_bps : Z) : M VaultFeatureError.t unit :=
  try_ (require_admin_as env admin) ;;;
  fail_if (BOOST_BPS_BASE <? share_bps) VaultFeatureError.InvalidRevenueShareConfig ;;;
  set_revenue_sharing_config (mkRevenueSharingConfig governance_token share_bps).

Definition distribute_revenue (admin : Address) (merkle_root : list byte) : M VaultFeatureError.t unit :=
  try_ (require_admin_as env admin) ;;;
  fail_if (negb (length merkle_root =? REVENUE_MERKLE_ROOT_HASH_LEN)%nat) VaultFeatureError.RevenueShareInvalidProof ;;;
  let& total_amount := get_revenue_share_pool in
  fail_if (total_amount <=? 0) VaultFeatureError.ZeroAmount ;;;
  let& last := get_revenue_share_epoch in
  let epoch := last + 1 in
  panic_if (2 ^ 32 <=? epoch) TOverflow ;;;
  set_revenue_share_epoch epoch ;;;
  set_revenue_share_merkle_root (mkRevenueShareMerkleRoot merkle_root epoch total_amount) ;;;
  Ev.revenue_distributed env merkle_root total_amount (sequence env).

Definition claim_revenue_share (user : Address) (amount : Z) (proof : list (list byte))
    : M VaultFeatureError.t unit :=
  require_auth env user ;;;
  fail_if (amount <=? 0) VaultFeatureError.ZeroAmount ;;;
  let& stored := get_revenue_share_merkle_root in
  let! mr := ok_or stored VaultFeatureError.RevenueShareInvalidProof in
  let& claimed := is_revenue_share_claimed user (rr_epoch mr) in
  fail_if claimed VaultFeatureError.RevenueShareAlreadyClaimed ;;;
  let! leaf := merkle_leaf_hash user amount in
  let computed_root := compute_merkle_root leaf proof in
  fail_if (negb (bool_decide (computed_root = rr_root mr))) VaultFeatureError.RevenueShareInvalidProof ;;;
  let& pool := get_revenue_share_pool in
  fail_if (pool <? amount) VaultFeatureError.InsufficientRewardPool ;;;
  set_revenue_share_claimed user (rr_epoch mr) ;;;
  let! rest := plain (checked_sub pool amount) in
  set_revenue_share_pool rest ;;;
  let! reward_token := try_ token_address in
  transfer reward_token (self env) user amount ;;;
  Ev.revenue_share_claimed user amount (rr_epoch mr) (sequence env).

End Merkle.

(** ** The published tree *)

Inductive tree :=
| Leaf (user : Address) (amount : Z)
| Node (l r : tree).

Section Trees.
Context (sha256 : list byte -> list byte) (to_string : Address -> list byte).

(** The hash of a tree as the proof generator builds it, with the contract's
    own convention for a pair. *)
Fixpoint tree_hash (t : tree) : list byte :=
  match t with
  | Leaf u a => sha256 (merkle_leaf_buf to_string u a)
  | Node l r => sha256 (combined (tree_hash l) (tree_hash r))
  end.
(** What the root of a tree hashes, and everything hashed to build it. *)
Definition hashed (t : tree) : list byte :=
  match t with
  | Leaf u a => merkle_leaf_buf to_string u a
  | Node l r => combined (tree_hash l) (tree_hash r)
  end.
Fixpoint subtrees (t : tree) : list tree :=
  t :: match t with Leaf _ _ => [] | Node l r => subtrees l ++ subtrees r end.
(** Everything hashed when the contract walks a proof. *)
Fixpoint walked (leaf : list byte) (proof : list (list byte)) : list (list byte) :=
  match proof with
  | [] => []
  | sibling :: proof => combined leaf sibling :: walked (sha256 (combined leaf sibling)) proof
  end.
Definition claim_inputs (user : Address) (amount : Z) (proof : list (list byte)) : list (list byte) :=
  merkle_leaf_buf to_string user amount :: walked (sha256 (merkle_leaf_buf to_string user amount)) proof.

(** A collision between two given lists of inputs. *)
Definition collides (xs ys : list (list byte)) : Prop :=
  exists x y, x ∈ xs /\ y ∈ ys /\ x <> y /\ sha256 x = sha256 y.

(** The honest proof of a leaf: the hashes of the siblings on its way up. *)
Inductive path_to (u : Address) (a : Z) : tree -> list (list byte) -> Prop :=
| path_leaf : path_to u a (Leaf u a) []
| path_left l r p : path_to u a l p -> path_to u a (Node l r) (p ++ [tree_hash r])
| path_right l r p : path_to u a r p -> path_to u a (Node l r) (p ++ [tree_hash l]).

(** No two siblings start with the same byte. *)
Fixpoint no_ties (t : tree) : Prop :=
  match t with
  | Leaf _ _ => True
  | Node l r => first_byte (tree_hash l) <> first_byte (tree_hash r) /\ no_ties l /\ no_ties r
  end.

Lemma combined_comm a b : first_byte a <> first_byte b -> combined a b = combined b a.
Proof.
  intros Hne. unfold combined.
  destruct (Z.leb_spec (first_byte a) (first_byte b)), (Z.leb_spec (first_byte b) (first_byte a)); (done || lia).
Qed.
Lemma combined_tie a b : first_byte a = first_byte b -> combined a b = a ++ b.
Proof. intros H. unfold combined. rewrite H. by destruct (Z.leb_spec (first_byte b) (first_byte b)); [|lia]. Qed.
Lemma combined_or a b : combined a b = a ++ b \/ combined a b = b ++ a.
Proof. unfold combined. destruct (_ <=? _); tauto. Qed.

Lemma compute_snoc leaf p h :
  compute_merkle_root sha256 leaf (p ++ [h]) = sha256 (combined (compute_merkle_root sha256 leaf p) h).
Proof. unfold compute_merkle_root. by rewrite fold_left_app. Qed.
Lemma walked_snoc leaf p h :
  walked leaf (p ++ [h]) = walked leaf p ++ [combined (compute_merkle_root sha256 leaf p) h].
Proof.
  revert leaf. induction p as [|x p IH]; intros leaf; [done|]. cbn [walked app]. by rewrite IH.
Qed.

Lemma collides_mono xs xs' ys ys' : xs ⊆ xs' -> ys ⊆ ys' -> collides xs ys -> collides xs' ys'.
Proof. intros Hx Hy (x & y & H1 & H2 & H3). exists x, y. split; [by apply Hx|]. split; [by apply Hy|done]. Qed.

Context (sha_len : forall x, length (sha256 x) = 32%nat) (text_len : forall a, length (to_string a) = 56%nat).

Lemma tree_hash_len t : length (tree_hash t) = 32%nat.
Proof. destruct t; apply sha_len. Qed.
Lemma tree_hash_hashed t : tree_hash t = sha256 (hashed t).
Proof. by destruct t. Qed.
Lemma leaf_buf_len u a : length (merkle_leaf_buf to_string u a) = 72%nat.
Proof. unfold merkle_leaf_buf, to_be_bytes. by rewrite length_app, text_len, be_bytes_length. Qed.
Lemma combined_len a b : length (combined a b) = (length a + length b)%nat.
Proof. destruct (combined_or a b) as [-> | ->]; rewrite length_app; lia. Qed.
Lemma compute_len leaf p : length leaf = 32%nat -> length (compute_merkle_root sha256 leaf p) = 32%nat.
Proof. intros Hl. induction p as [|h p _] using rev_ind; [done|]. rewrite compute_snoc. apply sha_len. Qed.

(** The pair can be read back from the sixty-four bytes, up to its order. *)
Lemma combined_inj a b c d :
  length a = 32%nat -> length b = 32%nat -> length c = 32%nat -> length d = 32%nat ->
  combined a b = combined c d -> a = c \/ a = d.
Proof.
  intros Ha Hb Hc Hd. destruct (combined_or a b) as [-> | ->], (combined_or c d) as [-> | ->]; intros H;
    apply app_inj_1 in H as [-> ->]; auto; congruence.
Qed.

Lemma path_in u a t p : path_to u a t p -> Leaf u a ∈ subtrees t.
Proof. induction 1; cbn [subtrees]; set_solver. Qed.

Lemma subtree_root t : t ∈ subtrees t.
Proof. destruct t; cbn [subtrees]; set_solver. Qed.

(** The heart of soundness, by induction on the proof from the root down. *)
Lemma walk_sound u a t p :
  Forall (fun h => length h = 32%nat) p ->
  compute_merkle_root sha256 (sha256 (merkle_leaf_buf to_string u a)) p = tree_hash t ->
  (exists u' a', Leaf u' a' ∈ subtrees t /\ merkle_leaf_buf to_string u' a' = merkle_leaf_buf to_string u a) \/
  collides (claim_inputs u a p) (hashed <$> subtrees t).
Proof.
  revert t. unfold claim_inputs. induction p as [|h p IH] using rev_ind; intros t Hp H.
  - cbn [compute_merkle_root fold_left] in H. rewrite tree_hash_hashed in H.
    destruct (decide (merkle_leaf_buf to_string u a = hashed t)) as [He|Hne].
    + destruct t as [u' a'|l r]; [left; exists u', a'; split; [apply subtree_root|done]|].
      exfalso. pose proof (combined_len (tree_hash l) (tree_hash r)) as Hl. cbn [hashed] in He.
      rewrite <- He, !tree_hash_len, leaf_buf_len in Hl. discriminate.
    + right. exists (merkle_leaf_buf to_string u a), (hashed t).
      split; [by left|]. split; [apply list_elem_of_fmap_2, subtree_root|done].
  - apply Forall_app in Hp as [Hp Hh]. apply Forall_inv in Hh. cbv beta in Hh. rewrite compute_snoc, tree_hash_hashed in H.
    set (cur := compute_merkle_root sha256 _ p) in *. assert (Hc : length cur = 32%nat) by apply compute_len, sha_len.
    rewrite walked_snoc. fold cur. destruct (decide (combined cur h = hashed t)) as [He|Hne].
    + destruct t as [u' a'|l r]; cbn [hashed] in He.
      { exfalso. pose proof (combined_len cur h) as Hl. rewrite He, Hc, Hh, leaf_buf_len in Hl. discriminate. }
      apply combined_inj in He; [|by rewrite ?tree_hash_len..].
      destruct He as [He|He]; (destruct (IH _ Hp He) as [(u' & a' & Hin & Hb)|Hcol]; [left; exists u', a'|right]).
      1,3: split; [cbn [subtrees]; set_solver|done].
      all: revert Hcol; apply collides_mono; [set_solver|cbn [subtrees]; rewrite fmap_cons, fmap_app; set_solver].
    + right. exists (combined cur h), (hashed t).
      split; [set_solver|]. split; [apply list_elem_of_fmap_2, subtree_root|done].
Qed.

(** Without ties the honest proof leads to the root. *)
Lemma walk_complete u a t p :
  path_to u a t p -> no_ties t ->
  compute_merkle_root sha256 (sha256 (merkle_leaf_buf to_string u a)) p = tree_hash t.
Proof.
  induction 1 as [|l r p Hp IH|l r p Hp IH]; [done|..]; intros (Ht & Hl & Hr); rewrite compute_snoc, IH by done; [done|].
  cbn [tree_hash]. by rewrite combined_comm.
Qed.

End Trees.

(** ** Successful claims *)

Section Claims.
Context {W : World} (env : Env) (sha256 : list byte -> list byte) (to_string : Address -> list byte).
Implicit Types s : State.

(** The proof leads from the leaf to [root]. *)
Definition proves (root : list byte) (user : Address) (amount : Z) (proof : list (list byte)) : Prop :=
  compute_merkle_root sha256 (sha256 (merkle_leaf_buf to_string user amount)) proof = root.

Lemma leaf_Ok E u a s l s' :
  merkle_leaf_hash (E:=E) sha256 to_string u a s = Ok l s' ->
  l = sha256 (merkle_leaf_buf to_string u a) /\ s' = s.
Proof.
  unfold merkle_leaf_hash. intros (? & ? & H1 & H)%bind_Ok. apply panic_if_Ok in H1 as (_ & _ & ->).
  by apply ret_Ok in H.
Qed.

Definition merkle_paid (user : Address) (epoch amount : Z) s s' : Prop :=
  is_merkle_claimed user epoch s = false /\ is_merkle_claimed user epoch s' = true /\
  0 <= get_reward_pool_balance s - amount /\
  get_reward_pool_balance s' = get_reward_pool_balance s - amount /\
  get_total_rewards_paid s' = get_total_rewards_paid s + amount /\
  (forall k, k <> KInst RewardPoolBalance -> k <> KInst TotalRewardsPaid -> k <> KFin (MerkleClaimed user epoch) ->
     rd k s' = rd k s).

Lemma merkle_claim_Ok u a p s x s' :
  claim_merkle_reward env sha256 to_string u a p s = Ok x s' ->
  exists mr token s1, signed env u = true /\ get_merkle_root s = Some mr /\ proves (mr_root mr) u a p /\
    merkle_paid u (mr_epoch mr) a s s' /\ rd Token s = Some token /\
    transfer (E:=VaultExtError.t) token (self env) u a s1 = Ok tt (set_ext (st_ext s') s1) /\
    st_ext s1 = st_ext s.
Proof.
  unfold claim_merkle_reward. intros H.
  apply bind_Ok in H as (? & ? & H1 & H). apply require_auth_Ok in H1 as (Hsig & _ & ->). unfold reading at 1 in H.
  apply bind_Ok in H as (mr & ? & H1 & H). apply ok_or_Ok in H1 as [Hmr ->]. unfold reading at 1 in H.
  apply bind_Ok in H as (? & ? & H1 & H). apply fail_if_Ok in H1 as (Hc & _ & ->).
  apply bind_Ok in H as (leaf & ? & H1 & H). apply leaf_Ok in H1 as [-> ->].
  apply bind_Ok in H as (? & ? & H1 & H). apply fail_if_Ok in H1 as (Hroot & _ & ->).
  apply negb_false_iff, bool_decide_eq_true in Hroot.
  apply bind_Ok in H as (? & ? & H1 & H). apply put_Ok in H1 as [_ ->]. unfold reading at 1 in H.
  apply bind_Ok in H as (token & ? & H1 & H). apply ok_or_Ok in H1 as [Htok ->]. unfold reading at 1 in H.
  apply bind_Ok in H as (? & ? & H1 & H). apply fail_if_Ok in H1 as (Hp%Z.ltb_ge & _ & ->).
  apply bind_Ok in H as (rest & ? & H1 & H). apply plain_Ok in H1 as [[-> _]%checked_sub_Some ->].
  apply bind_Ok in H as (? & ? & H1 & H). apply assert_put_Ok in H1 as (Hn & ->).
  apply bind_Ok in H as ([] & s1 & Htr & H). unfold reading at 1 in H. pose proof Htr as (w & Hw & _ & ->)%transfer_Ok.
  apply bind_Ok in H as (tp & ? & H1 & H). apply plain_Ok in H1 as [[-> _]%checked_add_Some ->].
  apply bind_Ok in H as (? & ? & H1 & H). apply assert_put_Ok in H1 as (Hn2 & ->).
  apply publish_Ok in H as [_ ->].
  unfold get_reward_pool_balance, get_total_rewards_paid in *.
  revert Htok Hp Hn Hn2 Htr. rdsimp. intros Htok Hp Hn Hn2 Htr.
  eexists mr, token, _. split; [done|]. split; [done|]. split; [done|]. split; [|split; [done|]].
  - unfold merkle_paid, is_merkle_claimed in *. unfold get_reward_pool_balance, get_total_rewards_paid in *.
    split; [done|]. rdsimp. split_and!; (done || lia || idtac).
    intros k K1 K2 K3. by rdsimp.
  - split; [exact Htr|done].
Qed.

Definition revenue_paid (user : Address) (epoch amount : Z) s s' : Prop :=
  is_revenue_share_claimed user epoch s = false /\ is_revenue_share_claimed user epoch s' = true /\
  0 <= get_revenue_share_pool s - amount /\ get_revenue_share_pool s' = get_revenue_share_pool s - amount /\
  (forall k, k <> KFin RevPool -> k <> KFin (RevClaimed user epoch) -> rd k s' = rd k s).

Lemma revenue_claim_Ok u a p s x s' :
  claim_revenue_share env sha256 to_string u a p s = Ok x s' ->
  exists mr token s1, signed env u = true /\ get_revenue_share_merkle_root s = Some mr /\
    proves (rr_root mr) u a p /\ 0 < a /\ revenue_paid u (rr_epoch mr) a s s' /\ rd Token s = Some token /\
    transfer (E:=VaultFeatureError.t) token (self env) u a s1 = Ok tt (set_ext (st_ext s') s1) /\
    st_ext s1 = st_ext s.
Proof.
  unfold claim_revenue_share. intros H.
  apply bind_Ok in H as (? & ? & H1 & H). apply require_auth_Ok in H1 as (Hsig & _ & ->).
  apply bind_Ok in H as (? & ? & H1 & H). apply fail_if_Ok in H1 as (Ha%Z.leb_gt & _ & ->). unfold reading at 1 in H.
  apply bind_Ok in H as (mr & ? & H1 & H). apply ok_or_Ok in H1 as [Hmr ->]. unfold reading at 1 in H.
  apply bind_Ok in H as (? & ? & H1 & H). apply fail_if_Ok in H1 as (Hc & _ & ->).
  apply bind_Ok in H as (leaf & ? & H1 & H). apply leaf_Ok in H1 as [-> ->].
  apply bind_Ok in H as (? & ? & H1 & H). apply fail_if_Ok in H1 as (Hroot & _ & ->).
  apply negb_false_iff, bool_decide_eq_true in Hroot. unfold reading at 1 in H.
  apply bind_Ok in H as (? & ? & H1 & H). apply fail_if_Ok in H1 as (Hp%Z.ltb_ge & _ & ->).
  apply bind_Ok in H as (? & ? & H1 & H). apply put_Ok in H1 as [_ ->].
  apply bind_Ok in H as (rest & ? & H1 & H). apply plain_Ok in H1 as [[-> _]%checked_sub_Some ->].
  apply bind_Ok in H as (? & ? & H1 & H). apply assert_put_Ok in H1 as (Hn & ->).
  apply bind_Ok in H as (token & ? & H1 & H). apply (proj1 (try_Ok _ _ _ _)) in H1.
  unfold token_address, reading in H1. apply ok_or_Ok in H1 as [Htok ->].
  apply bind_Ok in H as ([] & s1 & Htr & H). pose proof Htr as (w & Hw & _ & ->)%transfer_Ok.
  apply publish_Ok in H as [_ ->]. revert Htok. rdsimp. intros Htok.
  eexists mr, token, _. do 4 (split; [done|]). split; [|split; [done|split; [exact Htr|done]]].
  unfold revenue_paid, is_revenue_share_claimed in *. unfold get_revenue_share_pool in *.
  split; [done|]. rdsimp. split_and!; (done || lia || idtac).
  intros k K1 K2. by rdsimp.
Qed.

End Claims.

(** ** Theorems *)

Section Soundness.
Context {W : World} (sha256 : list byte -> list byte) (to_string : Address -> list byte).
Context (sha_len : forall x, length (sha256 x) = 32%nat) (text_len : forall a, length (to_string a) = 56%nat).
Implicit Types s : State.

(** The leaf of [user] and [amount], up to the text of the address. *)
Definition leaf_of (t : tree) (user : Address) (amount : Z) : Prop :=
  exists u' a', Leaf u' a' ∈ subtrees t /\ to_string u' = to_string user /\
    (in_i128 a' -> in_i128 amount -> a' = amount).

Lemma proves_leaf u a p t :
  Forall (fun h => length h = 32%nat) p -> proves sha256 to_string (tree_hash sha256 to_string t) u a p ->
  leaf_of t u a \/
  collides sha256 (claim_inputs sha256 to_string u a p) (hashed sha256 to_string <$> subtrees t).
Proof.
  intros Hp H. destruct (walk_sound sha256 to_string sha_len text_len u a t p Hp H) as [(u' & a' & Hin & He)|]; [left|by right].
  apply app_inj_1 in He as [Hu Ha]; [|by rewrite !text_len].
  exists u', a'. split; [done|]. split; [done|]. intros. by apply to_be_bytes_inj.
Qed.

(** C18. Only leaves are paid.  When the published root is the hash of a tree
    built with the contract's own convention, a successful claim - of a reward
    or of a revenue share - names a user and an amount that are a leaf of the
    tree, or the inputs the contract hashed and the inputs hashed to build the
    tree hold two different strings with the same SHA-256.  No proof length is
    assumed: a leaf hashes seventy-two bytes and a pair sixty-four, so neither
    passes for the other. *)
Theorem merkle_claims_sound (env : Env) (t : tree) u a p s x s' :
  Forall (fun h => length h = 32%nat) p ->
  (claim_merkle_reward env sha256 to_string u a p s = Ok x s' /\
     (mr_root <$> get_merkle_root s) = Some (tree_hash sha256 to_string t) \/
   claim_revenue_share env sha256 to_string u a p s = Ok x s' /\
     (rr_root <$> get_revenue_share_merkle_root s) = Some (tree_hash sha256 to_string t)) ->
  leaf_of t u a \/
  collides sha256 (claim_inputs sha256 to_string u a p) (hashed sha256 to_string <$> subtrees t).
Proof.
  intros Hp [[H Ht]|[H Ht]].
  - apply merkle_claim_Ok in H as (mr & ? & ? & _ & Hmr & Hpr & _). rewrite Hmr in Ht. injection Ht as Ht.
    rewrite Ht in Hpr. by apply proves_leaf.
  - apply revenue_claim_Ok in H as (mr & ? & ? & _ & Hmr & Hpr & _). rewrite Hmr in Ht. injection Ht as Ht.
    rewrite Ht in Hpr. by apply proves_leaf.
Qed.

(** A leaf collects with its honest proof.  If no two siblings of the
    published tree start with the same byte, the user of a leaf who signs, has
    not claimed in the epoch and is covered by the reward pool gets its amount
    with the list of its siblings as the proof: the claim is recorded, the
    pool and the total paid move by the amount, and the tokens are those of
    the transfer. *)
Theorem merkle_claims_complete (env : Env) (t : tree) u a p s mr token w :
  path_to sha256 to_string u a t p -> no_ties sha256 to_string t ->
  get_merkle_root s = Some mr -> mr_root mr = tree_hash sha256 to_string t ->
  signed env u = true -> is_merkle_claimed u (mr_epoch mr) s = false ->
  rd Token s = Some token -> 0 <= a <= get_reward_pool_balance s -> get_reward_pool_balance s <= i128_max ->
  0 <= get_total_rewards_paid s + a <= i128_max ->
  tok_transfer (st_ext s) token (self env) u a = Some w ->
  exists s', claim_merkle_reward env sha256 to_string u a p s = Ok tt s' /\
    merkle_paid u (mr_epoch mr) a s s' /\ st_ext s' = w.
Proof.
  intros Hpath Hties Hmr Hroot Hsig Hc Htok Ha Hmax Htp Hw.
  pose proof (walk_complete sha256 to_string u a t p Hpath Hties) as Hpr. rewrite <- Hroot in Hpr.
  assert (Hmin : i128_min <= 0) by done.
  assert (exists s', claim_merkle_reward env sha256 to_string u a p s = Ok tt s' /\ st_ext s' = w) as (s' & H & He).
  { eexists. split.
    - unfold claim_merkle_reward. forward ltac:(by apply require_auth_Ok). unfold reading at 1.
      forward ltac:(by apply ok_or_Ok). unfold reading at 1. forward ltac:(by apply fail_if_Ok).
      forward ltac:(unfold merkle_leaf_hash; rewrite text_len; reflexivity).
      forward ltac:(apply fail_if_Ok; split; [rewrite Hpr; by rewrite bool_decide_true|done]).
      forward ltac:(by apply put_Ok).
      unfold reading at 1. forward ltac:(rdsimp; by apply ok_or_Ok). unfold reading at 1.
      match goal with |- context [get_reward_pool_balance ?s1] =>
        assert (Hp1 : get_reward_pool_balance s1 = get_reward_pool_balance s)
          by (unfold get_reward_pool_balance; by rdsimp) end. rewrite Hp1.
      forward ltac:(apply fail_if_Ok; split; [apply Z.ltb_ge; lia|done]).
      forward ltac:(apply plain_Ok; split; [apply checked_sub_Some; split; [reflexivity|unfold in_i128; lia]|reflexivity]).
      forward ltac:(apply assert_put_run; lia).
      forward ltac:(apply transfer_Ok; by exists w). unfold reading at 1.
      match goal with |- context [get_total_rewards_paid ?s2] =>
        assert (Ht : get_total_rewards_paid s2 = get_total_rewards_paid s)
          by (unfold get_total_rewards_paid; by rdsimp) end. rewrite Ht.
      forward ltac:(apply plain_Ok; split; [apply checked_add_Some; split; [reflexivity|unfold in_i128; lia]|reflexivity]).
      forward ltac:(apply assert_put_run; lia). by apply publish_Ok.
    - reflexivity. }
  exists s'. split; [done|]. split; [|done].
  apply merkle_claim_Ok in H as (mr' & ? & ? & _ & Hmr' & _ & Hpaid & _).
  rewrite Hmr in Hmr'. by injection Hmr' as <-.
Qed.

(** C39. A tie at the root locks the right side out.  The contract orders a
    pair by first bytes alone and keeps the current hash first on a tie.  So
    where the two children of the root start with the same byte, and no tie
    occurs inside the right one, the honest proof of any leaf of the right
    subtree walks to the hash of the pair in the other order than the one the
    root was built with: unless the two orders collide, the claim is refused as
    an invalid proof. *)
Theorem merkle_tie_locks_out (env : Env) (l r : tree) u a p s mr :
  path_to sha256 to_string u a r p -> no_ties sha256 to_string r ->
  first_byte (tree_hash sha256 to_string l) = first_byte (tree_hash sha256 to_string r) ->
  sha256 (tree_hash sha256 to_string r ++ tree_hash sha256 to_string l) <>
    sha256 (tree_hash sha256 to_string l ++ tree_hash sha256 to_string r) ->
  get_merkle_root s = Some mr -> mr_root mr = tree_hash sha256 to_string (Node l r) ->
  signed env u = true -> is_merkle_claimed u (mr_epoch mr) s = false ->
  claim_merkle_reward env sha256 to_string u a (p ++ [tree_hash sha256 to_string l]) s =
    Err VaultExtError.MerkleInvalidProof s.
Proof.
  intros Hpath Hties Htie Hne Hmr Hroot Hsig Hc.
  pose proof (walk_complete sha256 to_string u a r p Hpath Hties) as Hpr.
  assert (Hbad : compute_merkle_root sha256 (sha256 (merkle_leaf_buf to_string u a))
            (p ++ [tree_hash sha256 to_string l]) <> mr_root mr).
  { rewrite compute_snoc, Hpr, Hroot. cbn [tree_hash]. by rewrite !combined_tie. }
  unfold claim_merkle_reward. rewrite (bind_run _ _ s tt s) by by apply require_auth_Ok. unfold reading at 1.
  rewrite (bind_run _ _ s mr s) by by apply ok_or_Ok. unfold reading at 1.
  rewrite (bind_run _ _ s tt s) by by apply fail_if_Ok.
  rewrite (bind_run _ _ s (sha256 (merkle_leaf_buf to_string u a)) s)
    by (unfold merkle_leaf_hash; by rewrite text_len).
  rewrite bool_decide_false by done. reflexivity.
Qed.

End Soundness.

Section Once.
Context {W : World} (sha256 : list byte -> list byte) (to_string : Address -> list byte).
Implicit Types s : State.

(** A payment: of a reward or of a revenue share, to a user, for an epoch. *)
Definition slot : Type := bool * Address * Z.
Definition taken (x : slot) s : bool :=
  let '(reward, u, ep) := x in if reward then is_merkle_claimed u ep s else is_revenue_share_claimed u ep s.
Definition keeps_taken s s' : Prop := forall x, taken x s = true -> taken x s' = true.

(** Successful claims with the payments they made, new roots and anything
    else that keeps the claim flags in between. *)
Inductive pay_run : State -> list slot -> State -> Prop :=
| pay_nil s : pay_run s [] s
| pay_reward env u a p mr x s s' log s'' :
    get_merkle_root s = Some mr -> claim_merkle_reward env sha256 to_string u a p s = Ok x s' ->
    pay_run s' log s'' -> pay_run s ((true, u, mr_epoch mr) :: log) s''
| pay_revenue env u a p mr x s s' log s'' :
    get_revenue_share_merkle_root s = Some mr -> claim_revenue_share env sha256 to_string u a p s = Ok x s' ->
    pay_run s' log s'' -> pay_run s ((false, u, rr_epoch mr) :: log) s''
| pay_publish env admin root ep total s log s'' :
    pay_run (invoke (publish_merkle_root env admin root ep total) s) log s'' -> pay_run s log s''
| pay_distribute env admin root s log s'' :
    pay_run (invoke (distribute_revenue env admin root) s) log s'' -> pay_run s log s''
| pay_other s s' log s'' : keeps_taken s s' -> pay_run s' log s'' -> pay_run s log s''.

Lemma same_flags s s' :
  (forall u ep, rd (MerkleClaimed u ep) s' = rd (MerkleClaimed u ep) s) ->
  (forall u ep, rd (RevClaimed u ep) s' = rd (RevClaimed u ep) s) -> keeps_taken s s'.
Proof.
  intros H1 H2 [[[] u] ep]; unfold taken, is_merkle_claimed, is_revenue_share_claimed; [by rewrite H1|by rewrite H2].
Qed.

Lemma publish_keeps env admin root ep total s :
  keeps_taken s (invoke (publish_merkle_root env admin root ep total) s).
Proof.
  unfold invoke. destruct (publish_merkle_root _ _ _ _ _ s) as [x s'|e s'|t] eqn:H; [|by intros ?..].
  unfold publish_merkle_root in H.
  apply bind_Ok in H as (? & ? & H1 & H). apply (proj1 (try_Ok _ _ _ _)), require_admin_as_Ok in H1 as (_ & _ & _ & _ & ->).
  apply bind_Ok in H as (? & ? & H1 & H). apply fail_if_Ok in H1 as (_ & _ & ->).
  apply bind_Ok in H as (? & ? & H1 & H). apply put_Ok in H1 as [_ ->]. apply publish_Ok in H as [_ ->].
  apply same_flags; intros; by rdsimp.
Qed.
Lemma distribute_keeps env admin root s : keeps_taken s (invoke (distribute_revenue env admin root) s).
Proof.
  unfold invoke. destruct (distribute_revenue _ _ _ s) as [x s'|e s'|t] eqn:H; [|by intros ?..].
  unfold distribute_revenue in H.
  apply bind_Ok in H as (? & ? & H1 & H). apply (proj1 (try_Ok _ _ _ _)), require_admin_as_Ok in H1 as (_ & _ & _ & _ & ->).
  apply bind_Ok in H as (? & ? & H1 & H). apply fail_if_Ok in H1 as (_ & _ & ->). unfold reading at 1 in H.
  apply bind_Ok in H as (? & ? & H1 & H). apply fail_if_Ok in H1 as (_ & _ & ->). unfold reading at 1 in H.
  apply bind_Ok in H as (? & ? & H1 & H). apply panic_if_Ok in H1 as (_ & _ & ->).
  apply bind_Ok in H as (? & ? & H1 & H). apply put_Ok in H1 as [_ ->].
  apply bind_Ok in H as (? & ? & H1 & H). apply put_Ok in H1 as [_ ->]. apply publish_Ok in H as [_ ->].
  apply same_flags; intros; by rdsimp.
Qed.

(** A claim takes its slot, which was free, and keeps the others. *)
Lemma reward_takes env u a p mr x s s' :
  get_merkle_root s = Some mr -> claim_merkle_reward env sha256 to_string u a p s = Ok x s' ->
  taken (true, u, mr_epoch mr) s = false /\ taken (true, u, mr_epoch mr) s' = true /\ keeps_taken s s'.
Proof.
  intros Hmr (mr' & t & s1 & _ & Hmr' & _ & (Hf & Ht & _ & _ & _ & Hk) & _)%merkle_claim_Ok.
  rewrite Hmr in Hmr'. injection Hmr' as <-. split; [done|]. split; [done|].
  intros [[[] v] ep] Hx; simpl in *.
  - destruct (decide (u = v /\ mr_epoch mr = ep)) as [[-> <-]|Hne]; [done|].
    unfold is_merkle_claimed in *. rewrite Hk; [done| | |]; try done. intros [= -> ->]. by apply Hne.
  - unfold is_revenue_share_claimed in *. by rewrite Hk.
Qed.
Lemma revenue_takes env u a p mr x s s' :
  get_revenue_share_merkle_root s = Some mr -> claim_revenue_share env sha256 to_string u a p s = Ok x s' ->
  taken (false, u, rr_epoch mr) s = false /\ taken (false, u, rr_epoch mr) s' = true /\ keeps_taken s s'.
Proof.
  intros Hmr (mr' & t & s1 & _ & Hmr' & _ & _ & (Hf & Ht & _ & _ & Hk) & _)%revenue_claim_Ok.
  rewrite Hmr in Hmr'. injection Hmr' as <-. split; [done|]. split; [done|].
  intros [[[] v] ep] Hx; simpl in *.
  - unfold is_merkle_claimed in *. by rewrite Hk.
  - destruct (decide (u = v /\ rr_epoch mr = ep)) as [[-> <-]|Hne]; [done|].
    unfold is_revenue_share_claimed in *. rewrite Hk; [done| |]; try done. intros [= -> ->]. by apply Hne.
Qed.

(** The induction: what is paid was free before and is taken after. *)
Definition paid_well s log s' : Prop :=
  NoDup log /\ Forall (fun x => taken x s = false) log /\ keeps_taken s s' /\ Forall (fun x => taken x s' = true) log.

Lemma paid_cons x s s' log s'' :
  taken x s = false -> taken x s' = true -> keeps_taken s s' -> paid_well s' log s'' ->
  paid_well s (x :: log) s''.
Proof.
  intros Hf Ht Hk (Hn & Hfree & Hk' & Htk).
  assert (Hmono : forall y, taken y s' = false -> taken y s = false).
  { intros y Hy. destruct (taken y s) eqn:E; [|done]. apply Hk in E. congruence. }
  split_and!.
  - apply NoDup_cons. split; [|done]. intros Hin. rewrite Forall_forall in Hfree. apply Hfree in Hin. congruence.
  - constructor; [done|]. eapply Forall_impl; [exact Hfree|]. apply Hmono.
  - intros y Hy. by apply Hk', Hk.
  - constructor; [by apply Hk'|done].
Qed.
Lemma paid_skip s s' log s'' : keeps_taken s s' -> paid_well s' log s'' -> paid_well s log s''.
Proof.
  intros Hk (Hn & Hfree & Hk' & Htk). split_and!; [done| | |done].
  - eapply Forall_impl; [exact Hfree|]. intros y Hy. destruct (taken y s) eqn:E; [|done]. apply Hk in E. simpl in *. congruence.
  - intros y Hy. by apply Hk', Hk.
Qed.

(** C23. Nobody is paid twice.  Over any sequence of successful claims of
    rewards and of revenue shares, of new roots and distributions - an epoch
    number used again included - and of anything else that keeps the claim
    flags, no user is paid twice for the same epoch of the same scheme, every
    payment goes to a slot that was free at the start, and its flag is up at
    the end. *)
Theorem merkle_pays_once (s s' : State) (log : list slot) :
  pay_run s log s' ->
  NoDup log /\ Forall (fun x => taken x s = false) log /\ Forall (fun x => taken x s' = true) log.
Proof.
  intros H. enough (paid_well s log s') as (? & ? & _ & ?) by done.
  induction H as [s|env u a p mr x s s' log s'' Hmr Hc _ IH|env u a p mr x s s' log s'' Hmr Hc _ IH|
    env admin root ep total s log s'' _ IH|env admin root s log s'' _ IH|s s' log s'' Hk _ IH].
  - split_and!; try constructor. by intros y.
  - destruct (reward_takes _ _ _ _ _ _ _ _ Hmr Hc) as (? & ? & ?). by eapply paid_cons.
  - destruct (revenue_takes _ _ _ _ _ _ _ _ Hmr Hc) as (? & ? & ?). by eapply paid_cons.
  - eapply paid_skip; [|exact IH]. apply publish_keeps.
  - eapply paid_skip; [|exact IH]. apply distribute_keeps.
  - by eapply paid_skip.
Qed.

End Once.

(** ** Witnesses *)

(** A function of the right length in place of SHA-256, and a text of the right
    length for each address. *)
Definition toy_hash (x : list byte) : list byte := take 32 (rev x ++ replicate 32 x00).
Definition toy_text (a : Address) : list byte := replicate 56 (byte_of (Zpos a)).

Lemma toy_hash_len x : length (toy_hash x) = 32%nat.
Proof. unfold toy_hash. rewrite length_take, length_app, length_replicate. lia. Qed.
Lemma toy_text_len a : length (toy_text a) = 56%nat.
Proof. apply length_replicate. Qed.

Definition two_leaves : tree := Node (Leaf 2%positive 1) (Leaf 3%positive 2).
Definition tied_leaves : tree := Node (Leaf 2%positive 1) (Leaf 3%positive 257).
Definition proof_of_left (t : tree) : list (list byte) :=
  match t with Node _ r => [tree_hash toy_hash toy_text r] | Leaf _ _ => [] end.
Definition proof_of_right (t : tree) : list (list byte) :=
  match t with Node l _ => [tree_hash toy_hash toy_text l] | Leaf _ _ => [] end.

(** A vault (address 1) holding 1000 of token 9 with 500 in the reward pool. *)
Definition root_of (t : tree) : MerkleRoot := mkMerkleRoot (tree_hash toy_hash toy_text t) 7 3 100.
Definition published (t : tree) : State (W := token_world) :=
  upd MerkleKey (Some (root_of t)) (upd RewardPoolBalance (Some 500) (upd Token (Some 9%positive)
    (start_state (fun t a => if decide (t = 9%positive /\ a = 1%positive) then 1000 else 0)))).
Definition claimed_left : res VaultExtError.t unit :=
  claim_merkle_reward (at_ledger 200) toy_hash toy_text 2%positive 1 (proof_of_left two_leaves) (published two_leaves).

Lemma claimed_left_runs : exists s', claimed_left = Ok tt s'.
Proof.
  assert (succeeds claimed_left (fun _ _ => true) = true) as (x & s' & H & _)%succeeds_run by (vm_compute; reflexivity).
  destruct x. by exists s'.
Qed.

Lemma proof_lengths t : Forall (fun h : list byte => length h = 32%nat) (proof_of_left t).
Proof. destruct t; repeat constructor. apply tree_hash_len, toy_hash_len. Qed.

Lemma merkle_claims_sound_witness :
  exists s', claimed_left = Ok tt s' /\
    (leaf_of toy_text two_leaves 2%positive 1 \/
     collides toy_hash (claim_inputs toy_hash toy_text 2%positive 1 (proof_of_left two_leaves))
       (hashed toy_hash toy_text <$> subtrees two_leaves)).
Proof.
  destruct claimed_left_runs as [s' H]. exists s'. split; [exact H|].
  apply (merkle_claims_sound (W:=token_world) toy_hash toy_text toy_hash_len toy_text_len (at_ledger 200) two_leaves
           2%positive 1 (proof_of_left two_leaves) (published two_leaves) tt s'); [apply proof_lengths|].
  left. split; [exact H|reflexivity].
Defined.

Lemma merkle_claims_complete_witness :
  exists s', claim_merkle_reward (at_ledger 200) toy_hash toy_text 3%positive 2 (proof_of_right two_leaves)
    (published two_leaves) = Ok tt s' /\ merkle_paid 3%positive 7 2 (published two_leaves) s'.
Proof.
  destruct (tok_transfer (World := token_world) (st_ext (published two_leaves)) 9%positive 1%positive 3%positive 2)
    as [w|] eqn:Hw; [|exfalso; revert Hw; vm_compute; discriminate].
  destruct (merkle_claims_complete (W:=token_world) toy_hash toy_text toy_text_len (at_ledger 200) two_leaves 3%positive 2
              (proof_of_right two_leaves) (published two_leaves) (root_of two_leaves) 9%positive w) as (s' & H1 & H2 & _).
  - apply (path_right _ _ _ _ _ _ []). constructor.
  - vm_compute. split; [discriminate|done].
  - reflexivity.
  - reflexivity.
  - reflexivity.
  - reflexivity.
  - reflexivity.
  - split; vm_compute; discriminate.
  - vm_compute; discriminate.
  - split; vm_compute; discriminate.
  - exact Hw.
  - exists s'. split; [exact H1|exact H2].
Defined.

Lemma merkle_tie_locks_out_witness :
  claim_merkle_reward (at_ledger 200) toy_hash toy_text 3%positive 257 (proof_of_right tied_leaves)
    (published tied_leaves) = Err VaultExtError.MerkleInvalidProof (published tied_leaves).
Proof.
  apply (merkle_tie_locks_out (W:=token_world) toy_hash toy_text toy_text_len (at_ledger 200)
           (Leaf 2%positive 1) (Leaf 3%positive 257) 3%positive 257 [] (published tied_leaves) (root_of tied_leaves)).
  - constructor.
  - exact I.
  - reflexivity.
  - vm_compute. discriminate.
  - reflexivity.
  - reflexivity.
  - reflexivity.
  - reflexivity.
Defined.

Lemma merkle_pays_once_witness :
  exists s', pay_run toy_hash toy_text (published two_leaves) [(true, 2%positive, 7)] s' /\
    (NoDup [(true, 2%positive, 7)] /\ Forall (fun x => taken x (published two_leaves) = false) [(true, 2%positive, 7)] /\
     Forall (fun x => taken x s' = true) [(true, 2%positive, 7)]).
Proof.
  destruct claimed_left_runs as [s' H]. exists s'.
  assert (Hr : pay_run toy_hash toy_text (published two_leaves) [(true, 2%positive, 7)] s').
  { apply (pay_reward toy_hash toy_text (at_ledger 200) 2%positive 1 (proof_of_left two_leaves) (root_of two_leaves) tt _ s');
      [reflexivity|exact H|constructor]. }
  split; [exact Hr|]. apply (merkle_pays_once toy_hash toy_text _ _ _ Hr).
Defined.
