(* ===== verification/CategoryProofs.v ===== *)
(** * What categorised governance promises

    Delegation counts nobody's shares twice at one moment; an enacted proposal
    met the rules it was created under; failed expedited proposals leave no
    trace, so their bond is never slashed; strategy caps are respected. *)

From S2P Require Import Prelude Errors Storage Host Concrete Accessors Admin Shares RewardMath Accrual RewardRate.
From S2P Require Import MultiReward Checkpoints Balance Limits CategoryGov.

(** ** Delegation *)

Section Delegation.
Context {W : World} {N : GovNames}.
Implicit Types s : State.

(** The value that votes of [u] at [ledger] take from [v]'s shares. *)
Definition taken (ledger : Z) s (v u : Address) : Z :=
  match is_delegation_active_at v ledger s with
  | Some target => if bool_decide (target = u) then share_value v s else 0
  | None => if bool_decide (v = u) then share_value v s else 0
  end.

(** Lists of delegators have no duplicates, and nobody delegates to itself. *)
Record delegation_ok s : Prop := {
  dg_nodup : forall u, NoDup (delegators_of u s);
  dg_self : forall u r, rd (VoteExp u) s = Some r -> dr_delegate r <> u
}.

Definition values_ok s : Prop := forall u, 0 <= share_value u s.

Lemma share_value_zero u s : get_shares u s = 0 -> share_value u s = 0.
Proof.
  intros H. unfold share_value, shares_to_amount, shares_to_amount_with_decimals. rewrite H.
  destruct (Z.eqb_spec (get_total_shares s) 0); [done|]. unfold checked_mul. rewrite Z.mul_0_l.
  cbn [to_i128 in_i128b]. simpl. unfold checked_div. destruct (Z.eqb_spec (get_total_shares s) 0); [done|].
  rewrite Z.quot_0_l by done. done.
Qed.

(** The delegated part of the weight, as a sum. *)
Lemma add_delegated_sum user ledger s w l r :
  (forall v, 0 <= get_shares v s) ->
  add_delegated user ledger s w l = Some r ->
  r = w + sum_of (fun v => match is_delegation_active_at v ledger s with
                           | Some target => if bool_decide (target = user) then share_value v s else 0
                           | None => 0
                           end) l.
Proof.
  intros Hsh. revert w. induction l as [|v l IH]; intros w H; cbn [add_delegated] in H; simpl.
  { injection H as <-. lia. }
  destruct (is_delegation_active_at v ledger s) as [t|]; [|apply IH in H; lia].
  destruct (bool_decide (t = user)); cbn [andb] in H; [|apply IH in H; lia].
  destruct (Z.ltb_spec 0 (get_shares v s)).
  - apply bind_Some in H as (w' & [-> _]%checked_add_Some & H). apply IH in H. lia.
  - apply IH in H. rewrite share_value_zero in * by (specialize (Hsh v); lia). lia.
Qed.


(** Exchanging two finite sums. *)
Lemma sum_swap (f : Address -> Address -> Z) U V :
  sum_of (fun u => sum_of (fun v => f u v) V) U = sum_of (fun v => sum_of (fun u => f u v) U) V.
Proof.
  induction U as [|u U IH]; simpl.
  - induction V; simpl in *; lia.
  - rewrite IH. clear IH. induction V as [|v V IH]; simpl in *; lia.
Qed.

Lemma sum_single (v : Address) (c : Z) U :
  NoDup U -> 0 <= c -> sum_of (fun u => if bool_decide (v = u) then c else 0) U <= c.
Proof.
  intros HU Hc. induction HU as [|u U Hu HU IH]; simpl; [lia|]. case_bool_decide as Hv; [|lia].
  subst v. rewrite (sum_of_ext _ (fun _ => 0)).
  - assert (sum_of (fun _ : Address => 0) U = 0) by (clear; induction U; simpl; lia). lia.
  - intros w Hw. rewrite bool_decide_eq_false_2; [done|]. by intros ->.
Qed.

(** The weight of [u] takes at most the shares that count for it. *)
Lemma weight_taken u ledger s r V :
  (forall v, 0 <= get_shares v s) -> values_ok s -> delegation_ok s -> NoDup V -> u ∈ V ->
  (forall v, v ∈ delegators_of u s -> v ∈ V) ->
  add_delegated u ledger s (own_weight u ledger s) (delegators_of u s) = Some r ->
  r <= sum_of (fun v => taken ledger s v u) V.
Proof.
  intros Hsh Hval Hok HV Hu Hsub H. apply add_delegated_sum in H as ->; [|done].
  set (f := fun v => match is_delegation_active_at v ledger s with
                     | Some target => if bool_decide (target = u) then share_value v s else 0 | None => 0 end).
  set (g := fun v => match is_delegation_active_at v ledger s with
                     | None => if bool_decide (v = u) then share_value v s else 0 | Some _ => 0 end).
  assert (Hfg : sum_of (fun v => taken ledger s v u) V = sum_of f V + sum_of g V).
  { clear. induction V as [|v V IH]; simpl; [done|]. rewrite IH. unfold taken, f, g.
    destruct (is_delegation_active_at v ledger s); lia. }
  rewrite Hfg.
  assert (Hf : sum_of f (delegators_of u s) <= sum_of f V).
  { apply sum_of_sub; [apply Hok|done|]. intros v. unfold f. specialize (Hval v).
    destruct (is_delegation_active_at v ledger s); [|lia]. case_bool_decide; lia. }
  assert (Hg : own_weight u ledger s <= sum_of g V).
  { transitivity (sum_of g [u]).
    - unfold own_weight, g. simpl. destruct (is_delegation_active_at u ledger s); [lia|].
      rewrite bool_decide_eq_true_2 by done. specialize (Hval u). destruct (_ =? _); lia.
    - apply sum_of_sub; [apply NoDup_singleton|set_solver|]. intros v. unfold g. specialize (Hval v).
      destruct (is_delegation_active_at v ledger s); [lia|]. case_bool_decide; lia. }
  lia.
Qed.

(** Each user's shares are taken once. *)
Lemma taken_once ledger s v U : NoDup U -> values_ok s -> sum_of (fun u => taken ledger s v u) U <= share_value v s.
Proof.
  intros HU Hval. unfold taken. destruct (is_delegation_active_at v ledger s); by apply sum_single.
Qed.

(** [delegate_vote_weight_with_expiry] keeps the lists in order. *)
Lemma delegate_ok env a b e s s' x :
  delegation_ok s -> delegate_vote_weight_with_expiry env a b e s = Ok x s' -> delegation_ok s'.
Proof.
  intros [Hn Hs] H. unfold delegate_vote_weight_with_expiry in H.
  apply bind_Ok in H as (? & ? & H1 & H). apply require_auth_Ok in H1 as (_ & _ & ->).
  apply bind_Ok in H as (? & ? & H1 & H). apply fail_if_Ok in H1 as (Hne%bool_decide_eq_false & _ & ->).
  apply bind_Ok in H as (? & s0 & H1 & H).
  assert (s0 = s) as -> by (destruct e; [by apply fail_if_Ok in H1 as (_ & _ & ->)|by apply ret_Ok in H1 as [_ ->]]).
  apply bind_Ok in H as (? & ? & H2 & H). apply put_Ok in H2 as [_ ->]. unfold reading in H.
  apply bind_Ok in H as (? & s1 & H2 & H). unfold helper_event in H. injection H as _ <-.
  assert (Hd : forall u, delegators_of u (upd (VoteExp a) (Some (mkDelegationRecord b e)) s) = delegators_of u s)
    by (intros; unfold delegators_of; by rdsimp).
  assert (Hs1 : (forall u, delegators_of u s1 = delegators_of u s \/
      u = b /\ (a ∉ delegators_of b s) /\ delegators_of u s1 = delegators_of b s ++ [a]) /\
    forall u, rd (VoteExp u) s1 = rd (VoteExp u) (upd (VoteExp a) (Some (mkDelegationRecord b e)) s)).
  { rewrite Hd in H2. case_bool_decide as Hin.
    - apply ret_Ok in H2 as [_ ->]. split; [|done]. intros u. left. apply Hd.
    - apply put_Ok in H2 as [_ ->]. split; [|intros; by rdsimp]. intros u.
      destruct (decide (u = b)) as [->|Hu].
      + right. split; [done|]. split; [done|]. unfold delegators_of at 1. by rdsimp.
      + left. rewrite <- Hd. unfold delegators_of. by rdsimp. }
  destruct Hs1 as [Hl Hr]. split.
  - intros u. assert (Hu : delegators_of u (emit (gs_event "vote_delegation_with_expiry_set"
        [VAddr a; VAddr b; match e with Some e0 => VInt e0 | None => VVoid end; VInt (sequence env)]) s1)
        = delegators_of u s1) by (unfold delegators_of; by rdsimp).
    rewrite Hu. destruct (Hl u) as [->|(-> & Hin & ->)]; [apply Hn|].
    apply NoDup_app. split; [apply Hn|]. split; [|apply NoDup_singleton].
    intros y Hy ->%list_elem_of_singleton. done.
  - intros u r. rewrite rd_emit, Hr. destruct (decide (u = a)) as [->|Hu].
    + rewrite rd_upd_eq. intros [= <-]. simpl. congruence.
    + rewrite rd_upd_ne by congruence. apply Hs.
Qed.

End Delegation.

(** ** Theorems on delegation *)

(** C34. Delegation counts nobody's shares twice at one moment.  At any ledger
    the effective weights of any set of voters together are at most the value
    of the shares of everybody concerned - themselves and their delegators -
    however delegations overlap or expire. *)
Theorem delegation_counts_once {W : World} {N : GovNames} env ledger (s : State) (U V : list Address)
    (weight : Address -> Z) :
  delegation_ok s -> (forall v, 0 <= get_shares v s) -> values_ok s -> NoDup U -> NoDup V ->
  (forall u, u ∈ U -> u ∈ V) -> (forall u v, u ∈ U -> v ∈ delegators_of u s -> v ∈ V) ->
  (forall u, u ∈ U -> effective_vote_weight_at_ledger u ledger s = Ok (weight u) s) ->
  sum_of weight U <= sum_of (fun v => share_value v s) V /\
  forall a b e s' x, delegate_vote_weight_with_expiry env a b e s = Ok x s' -> delegation_ok s'.
Proof.
  intros Hok Hsh Hval HU HV HUV Hsub Hw. split; [|intros a b e s' x; by apply delegate_ok].
  transitivity (sum_of (fun u => sum_of (fun v => taken ledger s v u) V) U).
  - apply sum_of_le. intros u Hu. specialize (Hw u Hu). unfold effective_vote_weight_at_ledger, reading in Hw.
    apply ok_or_Ok in Hw as [Hw _]. apply weight_taken; eauto.
  - rewrite sum_swap. apply sum_of_le. intros v _. by apply taken_once.
Qed.

(** ** Enactment *)

Section Enactment.
Context {W : World} {N : GovNames} (env : Env).
Implicit Types s : State.

(** The setting a proposal is about. *)
Definition setting (p : ProposableParam) s : option Z :=
  match p with
  | PRewardRate => rd RewardRateBps s
  | PUnstakeFee => rd UnstakeFeeBps s
  | PPoolCap => rd PoolCap s
  | PMinStake => rd MinStake s
  end.

(** The share of the deposits that must have voted. *)
Definition quorum_of (p : CategorizedProposal) s : Z :=
  Z.quot (get_total_deposited s * pp_snapshotted_quorum_bps p) BOOST_BPS_BASE.
Definition votes_of (p : CategorizedProposal) : Z := pp_votes_for p + pp_votes_against p.
(** Quorum and threshold of the proposal's own snapshot are met. *)
Definition carried (p : CategorizedProposal) s : Prop :=
  quorum_of p s <= votes_of p /\ votes_of p <> 0 /\
  pp_snapshotted_threshold_bps p <= Z.quot (pp_votes_for p * BOOST_BPS_BASE) (votes_of p).

Lemma total_votes_Ok p s v s' : total_votes_of p s = Ok v s' -> v = votes_of p /\ s' = s.
Proof. unfold total_votes_of. intros [[-> _]%checked_add_Some ->]%ok_or_Ok. done. Qed.
Lemma quorum_Ok p s v s' : required_quorum p s = Ok v s' -> v = quorum_of p s /\ s' = s.
Proof.
  unfold required_quorum, reading. intros (w & ? & H1 & H)%bind_Ok.
  apply ok_or_Ok in H1 as [[-> _]%checked_mul_Some ->]. by apply ret_Ok in H as [-> ->].
Qed.
Lemma pass_pct_Ok p t s v s' :
  pass_pct p t s = Ok v s' -> t <> 0 /\ v = Z.quot (pp_votes_for p * BOOST_BPS_BASE) t /\ s' = s.
Proof.
  unfold pass_pct. intros (w & ? & H1 & H)%bind_Ok. apply ok_or_Ok in H1 as [[-> _]%checked_mul_Some ->].
  apply plain_Ok in H as [(? & -> & _)%checked_div_Some ->]. done.
Qed.

(** Settings are written, nothing else. *)
Lemma apply_reward_rate_Ok v s x s' :
  apply_reward_rate v s = Ok x s' -> s' = upd RewardRateBps (Some v) s.
Proof.
  unfold apply_reward_rate. intros (r & ? & H1 & H)%bind_Ok. apply ok_or_Ok in H1 as [[-> _]%to_u32_Some ->].
  apply bind_Ok in H as (? & ? & H1 & H). apply (proj1 (try_Ok _ _ _ _)) in H1.
  apply fail_if_Ok in H1 as (_ & _ & ->). by apply put_Ok in H as [_ ->].
Qed.
Lemma apply_unstake_fee_Ok v s x s' :
  apply_unstake_fee v s = Ok x s' -> s' = upd UnstakeFeeBps (Some v) s.
Proof.
  unfold apply_unstake_fee. intros (r & ? & H1 & H)%bind_Ok. apply ok_or_Ok in H1 as [[-> _]%to_u32_Some ->].
  by apply put_Ok in H as [_ ->].
Qed.

Definition setting_key (k : key) : Prop :=
  k = KInst RewardRateBps \/ k = KFeat UnstakeFeeBps \/ k = KFeat PoolCap \/ k = KFeat MinStake.

Definition applied (p : ProposableParam) (v : Z) s s' : Prop :=
  setting p s' = Some v /\ st_ext s' = st_ext s /\ forall k, ~ setting_key k -> rd k s' = rd k s.

Ltac solve_applied :=
  split; [unfold setting; by rdsimp|]; split; [done|]; intros k Hk; apply rd_upd_ne; intros <-; apply Hk;
  unfold setting_key; tauto.

Lemma apply_parameter_Ok p v s x s' : apply_parameter p v s = Ok x s' -> applied p v s s'.
Proof.
  destruct p; cbn [apply_parameter]; intros H.
  - apply apply_reward_rate_Ok in H as ->. solve_applied.
  - apply apply_unstake_fee_Ok in H as ->. solve_applied.
  - apply bind_Ok in H as (? & ? & H1 & H). apply fail_if_Ok in H1 as (_ & _ & ->).
    apply put_Ok in H as [_ ->]. solve_applied.
  - apply bind_Ok in H as (? & ? & H1 & H). apply fail_if_Ok in H1 as (_ & _ & ->).
    apply put_Ok in H as [_ ->]. solve_applied.
Qed.
Lemma apply_expedited_Ok p v s x s' : apply_parameter_expedited p v s = Ok x s' -> applied p v s s'.
Proof.
  destruct p; cbn [apply_parameter_expedited]; intros H.
  - apply apply_reward_rate_Ok in H as ->. solve_applied.
  - apply apply_unstake_fee_Ok in H as ->. solve_applied.
  - apply put_Ok in H as [_ ->]. solve_applied.
  - apply put_Ok in H as [_ ->]. solve_applied.
Qed.

(** A successful enactment by the ordinary path. *)
Lemma enact_run id p s x s' :
  get_categorized_proposal id s = Some p -> enact_categorized_proposal env id s = Ok x s' ->
  pp_enacted p = false /\ pp_ends_at p < sequence env /\ pp_vetoed p = false /\ carried p s /\
  setting (pp_parameter p) s' = Some (pp_new_value p) /\ st_ext s' = st_ext s /\
  get_categorized_proposal id s' = Some (with_enacted p) /\
  forall k, ~ setting_key k -> k <> KFeat (CatProposals id) -> rd k s' = rd k s.
Proof.
  intros Hp H. unfold enact_categorized_proposal, reading at 1 in H. rewrite Hp in H.
  apply bind_Ok in H as (? & ? & H1 & H). apply ok_or_Ok in H1 as [[= <-] ->].
  apply bind_Ok in H as (? & ? & H1 & H). apply fail_if_Ok in H1 as (Hen & _ & ->).
  apply bind_Ok in H as (? & ? & H1 & H). apply fail_if_Ok in H1 as (Hend%Z.leb_gt & _ & ->).
  apply bind_Ok in H as (? & ? & H1 & H). apply fail_if_Ok in H1 as (Hve & _ & ->).
  apply bind_Ok in H as (t & ? & H1 & H). apply total_votes_Ok in H1 as [-> ->].
  apply bind_Ok in H as (q & ? & H1 & H). apply quorum_Ok in H1 as [-> ->].
  destruct (Z.ltb_spec (votes_of p) (quorum_of p s)) as [|Hq].
  { by apply bind_Ok in H as (? & ? & _ & H). }
  apply bind_Ok in H as (pct & ? & H1 & H). apply pass_pct_Ok in H1 as (Hz & -> & ->).
  destruct (Z.ltb_spec (Z.quot (pp_votes_for p * BOOST_BPS_BASE) (votes_of p)) (pp_snapshotted_threshold_bps p)) as [|Hth].
  { by apply bind_Ok in H as (? & ? & _ & H). }
  apply bind_Ok in H as (? & s1 & H1 & H). apply apply_parameter_Ok in H1 as (Hset & He & Hf).
  apply bind_Ok in H as (? & ? & H1 & H). apply put_Ok in H1 as [_ ->]. apply publish_Ok in H as [_ ->].
  do 3 (split; [done|]). split; [done|]. split.
  { revert Hset. unfold setting. destruct (pp_parameter p); by rdsimp. }
  split; [exact He|]. split; [unfold get_categorized_proposal; by rdsimp|].
  intros k Hk Hid. rewrite rd_emit, rd_upd_ne by congruence. by apply Hf.
Qed.

Lemma reenact_refused env2 id p s :
  get_categorized_proposal id s = Some p -> pp_enacted p = true ->
  enact_categorized_proposal env2 id s = Err gs_ProposalAlreadyEnacted s /\
  enact_expedited_proposal env2 id s = Err gs_ProposalAlreadyEnacted s.
Proof.
  intros Hp He. unfold enact_categorized_proposal, enact_expedited_proposal, reading. rewrite Hp. cbn [ok_or].
  unfold bind at 1 2, ret. split.
  - rewrite He. done.
  - unfold bind at 1, ret. rewrite He. done.
Qed.

(** A successful enactment by the expedited path. *)
Lemma expedited_run (HT : StandardTokens W) id p token s x s' :
  get_categorized_proposal id s = Some p -> rd Token s = Some token -> pp_proposer p <> self env ->
  enact_expedited_proposal env id s = Ok x s' ->
  u32_sat_add (pp_ends_at p) (pp_execution_delay_ledgers p) < sequence env /\
  pp_enacted p = false /\ pp_vetoed p = false /\ carried p s /\
  setting (pp_parameter p) s' = Some (pp_new_value p) /\
  get_categorized_proposal id s' = Some (with_enacted p) /\
  rd OpenExpedited s' = (if 0 <? default 1 (rd OpenExpedited s) then Some (default 1 (rd OpenExpedited s) - 1)
                         else rd OpenExpedited s) /\
  balance_of token (pp_proposer p) s' = balance_of token (pp_proposer p) s + pp_bond_amount p /\
  rd RewardPoolBalance s' = rd RewardPoolBalance s.
Proof.
  intros Hp Htok Hne H. unfold enact_expedited_proposal, reading at 1 in H. rewrite Hp in H.
  apply bind_Ok in H as (? & ? & H1 & H). apply ok_or_Ok in H1 as [[= <-] ->].
  apply bind_Ok in H as (? & ? & H1 & H). apply fail_if_Ok in H1 as (Hen & _ & ->). cbv zeta in H.
  apply bind_Ok in H as (? & ? & H1 & H). apply fail_if_Ok in H1 as (Hend%Z.leb_gt & _ & ->).
  apply bind_Ok in H as (? & ? & H1 & H). apply fail_if_Ok in H1 as (Hve & _ & ->).
  apply bind_Ok in H as (t0 & ? & H1 & H). apply (proj1 (try_Ok _ _ _ _)) in H1.
  unfold token_address, reading in H1. apply ok_or_Ok in H1 as [Ht0 ->].
  assert (t0 = token) as -> by congruence.
  apply bind_Ok in H as (t & ? & H1 & H). apply total_votes_Ok in H1 as [-> ->].
  apply bind_Ok in H as (q & ? & H1 & H). apply quorum_Ok in H1 as [-> ->].
  apply bind_Ok in H as (? & s1 & H1 & H).
  assert (Hs1 : st_ext s1 = st_ext s /\ (forall k, k <> KFeat OpenExpedited -> rd k s1 = rd k s) /\
    rd OpenExpedited s1 = (if 0 <? default 1 (rd OpenExpedited s) then Some (default 1 (rd OpenExpedited s) - 1)
                           else rd OpenExpedited s)).
  { unfold close_expedited, reading in H1. destruct (0 <? default 1 (rd OpenExpedited s)).
    - apply put_Ok in H1 as [_ ->]. split; [done|]. split; [intros k Hk; by apply rd_upd_ne; congruence|by rdsimp].
    - apply ret_Ok in H1 as [_ ->]. done. }
  destruct Hs1 as (He1 & Hf1 & Ho1). clear H1.
  destruct (Z.ltb_spec (votes_of p) (quorum_of p s)) as [|Hq].
  { apply bind_Ok in H as (? & ? & _ & H). unfold reading in H. do 3 apply bind_Ok in H as (? & ? & _ & H). done. }
  apply bind_Ok in H as (pct & ? & H1 & H). apply pass_pct_Ok in H1 as (Hz & -> & ->).
  destruct (Z.ltb_spec (Z.quot (pp_votes_for p * BOOST_BPS_BASE) (votes_of p)) (pp_snapshotted_threshold_bps p)) as [|Hth].
  { do 2 apply bind_Ok in H as (? & ? & _ & H). done. }
  apply bind_Ok in H as (? & s2 & H1 & H). apply apply_expedited_Ok in H1 as (Hset & He2 & Hf2).
  apply bind_Ok in H as (? & ? & H1 & H). apply put_Ok in H1 as [_ ->].
  apply bind_Ok in H as (? & s3 & H1 & H). apply publish_Ok in H as [_ ->].
  unfold refund_bond in H1. apply bind_Ok in H1 as (? & ? & H2 & H1). apply transfer_Ok in H2 as (w & Hw & _ & ->).
  unfold helper_event in H1. injection H1 as _ <-.
  destruct (std_moves _ _ _ _ _ _ (not_eq_sym Hne) Hw) as [_ Hb].
  do 4 (split; [done|]). split.
  { revert Hset. unfold setting. destruct (pp_parameter p); by rdsimp. }
  split; [unfold get_categorized_proposal; by rdsimp|].
  assert (Hnk : forall k, (match k with KFeat OpenExpedited | KInst RewardPoolBalance => True | _ => False end) ->
     ~ setting_key k) by (intros k Hk [-> |[-> |[-> | ->]]]; done).
  split; [rdsimp; rewrite Hf2 by (by apply Hnk); done|]. split.
  - rdsimp. unfold balance_of in *. rewrite <- He1, <- He2. exact Hb.
  - rdsimp. rewrite Hf2 by (by apply Hnk). by apply Hf1.
Qed.

End Enactment.

(** ** Theorems on enactment *)

(** An enacted proposal met the rules it was created under.  A successful
    [enact_categorized_proposal] comes after the vote ended, on a proposal not
    vetoed and not enacted before; the votes cast reach the quorum and the
    share in favour reaches the threshold of the proposal's own snapshot,
    whatever the category's parameters are now; the setting takes the proposed
    value, no token moves, and neither path enacts the proposal again. *)
Theorem enactment_met_rules {W : World} {N : GovNames} env id p x (s s' : State) :
  get_categorized_proposal id s = Some p -> enact_categorized_proposal env id s = Ok x s' ->
  pp_ends_at p < sequence env /\ pp_vetoed p = false /\ pp_enacted p = false /\ carried p s /\
  setting (pp_parameter p) s' = Some (pp_new_value p) /\ st_ext s' = st_ext s /\
  (forall env2, enact_categorized_proposal env2 id s' = Err gs_ProposalAlreadyEnacted s' /\
                enact_expedited_proposal env2 id s' = Err gs_ProposalAlreadyEnacted s').
Proof.
  intros Hp H. destruct (enact_run env id p s x s' Hp H) as (Hen & Hend & Hve & Hc & Hset & He & Hp' & _).
  do 6 (split; [done|]). intros env2. by apply (reenact_refused env2 id (with_enacted p)).
Qed.

(** Enacting an expedited proposal is all or nothing.  An invocation either
    leaves the contract as it was - when the quorum or the threshold is missed
    too, although the code sets out to slash or return the bond, mark the
    proposal and free its slot before it returns the error - or the proposal
    carried by its snapshot, its delay had passed, its value is set and its
    bond returned.  In no case does a bond reach the reward pool. *)
Theorem expedited_all_or_nothing {W : World} {N : GovNames} (HT : StandardTokens W) env id p (token : Address)
    (s : State) :
  get_categorized_proposal id s = Some p -> rd Token s = Some token -> pp_proposer p <> self env ->
  let s' := invoke (enact_expedited_proposal env id) s in
  rd RewardPoolBalance s' = rd RewardPoolBalance s /\
  (s' = s \/
   u32_sat_add (pp_ends_at p) (pp_execution_delay_ledgers p) < sequence env /\ carried p s /\
   setting (pp_parameter p) s' = Some (pp_new_value p) /\
   balance_of token (pp_proposer p) s' = balance_of token (pp_proposer p) s + pp_bond_amount p) /\
  (~ carried p s -> s' = s).
Proof.
  intros Hp Htok Hne. cbv zeta. unfold invoke.
  destruct (enact_expedited_proposal env id s) as [x s'|e s'|t] eqn:H; [|split; [done|]; split; [by left|done]..].
  destruct (expedited_run env HT id p token s x s' Hp Htok Hne H)
    as (Hd & _ & _ & Hc & Hset & _ & _ & Hb & Hpool).
  split; [done|]. split; [by right|]. intros Hn. by destruct Hn.
Qed.

(** The ordinary path enacts expedited proposals without their delay and
    keeps the bond.  [enact_categorized_proposal] accepts an expedited proposal
    as soon as its vote has ended; the bond then stays in the vault for good,
    since no path enacts the proposal again, and its slot is not freed. *)
Theorem ordinary_path_keeps_bond {W : World} {N : GovNames} env id p x (s s' : State) :
  get_categorized_proposal id s = Some p -> pp_is_expedited p = true ->
  enact_categorized_proposal env id s = Ok x s' ->
  st_ext s' = st_ext s /\ rd OpenExpedited s' = rd OpenExpedited s /\
  (forall env2, invoke (enact_expedited_proposal env2 id) s' = s').
Proof.
  intros Hp Hexp H. destruct (enact_run env id p s x s' Hp H) as (_ & _ & _ & _ & _ & He & Hp' & Hf).
  split; [done|]. split; [apply Hf; [intros [?|[?|[?|?]]]; done|done]|].
  intros env2. unfold invoke. by rewrite (proj2 (reenact_refused env2 id (with_enacted p) s' Hp' eq_refl)).
Qed.

(** ** Strategy caps *)

Inductive strategy_op :=
| SAdd (admin adapter : Address) (cap_bps : Z)
| SAllocate (keeper adapter : Address) (amount : Z)
| SWithdraw (admin adapter : Address) (amount : Z).

Section Strategies.
Context {W : World} {N : GovNames}.
Implicit Types s : State.

Record well_formed (l : list StrategyConfig) : Prop := {
  wf_length : (length l <= MAX_STRATEGIES)%nat;
  wf_distinct : NoDup (sc_adapter <$> l);
  wf_cap : Forall (fun c => 0 <= sc_cap_bps c <= BOOST_BPS_BASE) l;
  wf_total : sum_of sc_cap_bps l <= BOOST_BPS_BASE
}.

Definition strategy_perform (env : Env) (o : strategy_op) : State -> State :=
  match o with
  | SAdd a c b => invoke (add_strategy env a c b)
  | SAllocate k a x => invoke (allocate_to_strategy env k a x)
  | SWithdraw a c x => invoke (withdraw_from_strategy env a c x)
  end.
Definition strategy_pre (o : strategy_op) : Prop := match o with SAdd _ _ b => in_u32 b | _ => True end.

Lemma sum_caps_Some adapter t l r :
  0 <= t <= u32_max -> Forall (fun c => 0 <= sc_cap_bps c <= BOOST_BPS_BASE) l -> sum_caps adapter t l = Some r ->
  (adapter ∉ (sc_adapter <$> l)) /\ r = Z.min (t + sum_of sc_cap_bps l) u32_max.
Proof.
  intros Ht Hl. revert t Ht. induction Hl as [|c l Hc Hl IH]; intros t Ht H; cbn [sum_caps] in H.
  - injection H as <-. split; [set_solver|]. simpl. lia.
  - case_bool_decide as Hne; [done|]. apply IH in H as [Hin ->]; [|unfold u32_sat_add; lia].
    split; [set_solver|]. pose proof (sum_of_nonneg sc_cap_bps l ltac:(eapply Forall_impl; [exact Hl|]; simpl; lia)).
    change (sum_of sc_cap_bps (c :: l)) with (sc_cap_bps c + sum_of sc_cap_bps l). unfold u32_sat_add. lia.
Qed.

(** The loops keep adapters and caps. *)
Definition same_shape (l l' : list StrategyConfig) : Prop :=
  (fun c => (sc_adapter c, sc_cap_bps c)) <$> l' = (fun c => (sc_adapter c, sc_cap_bps c)) <$> l.

Lemma same_shape_wf l l' : same_shape l l' -> well_formed l -> well_formed l'.
Proof.
  unfold same_shape. intros H [A1 A2 A3 A4].
  assert (Hlen : length l' = length l) by (apply (f_equal length) in H; by rewrite !length_fmap in H).
  assert (Had : sc_adapter <$> l' = sc_adapter <$> l).
  { apply (f_equal (fmap fst)) in H. by rewrite <- !list_fmap_compose in H. }
  assert (Hcap : sc_cap_bps <$> l' = sc_cap_bps <$> l).
  { apply (f_equal (fmap snd)) in H. by rewrite <- !list_fmap_compose in H. }
  assert (Hsum : forall k : list StrategyConfig, sum_of sc_cap_bps k = sum_of id (sc_cap_bps <$> k))
    by (intros k; induction k as [|c k IH]; [done|]; rewrite fmap_cons; simpl; by rewrite IH).
  split.
  - by rewrite Hlen.
  - by rewrite Had.
  - change (Forall ((fun z => 0 <= z <= BOOST_BPS_BASE) ∘ sc_cap_bps) l').
    rewrite <- Forall_fmap, Hcap. by apply Forall_fmap.
  - by rewrite Hsum, Hcap, <- Hsum.
Qed.

Lemma allocate_loop_shape a x d l s r s' :
  allocate_loop a x d l s = Ok r s' -> same_shape l r.1 /\ s' = s /\
  (forall c, c ∈ l -> sc_adapter c = a -> sc_allocated c + x <= Z.quot (d * sc_cap_bps c) BOOST_BPS_BASE).
Proof.
  unfold same_shape. revert r s'. induction l as [|c l IH]; intros r s' H; cbn [allocate_loop] in H.
  - apply ret_Ok in H as [-> ->]. split; [done|]. split; [done|]. set_solver.
  - case_bool_decide as Ha.
    + apply bind_Ok in H as (v & ? & H1 & H). apply ok_or_Ok in H1 as [[-> _]%checked_mul_Some ->].
      apply bind_Ok in H as (n & ? & H1 & H). apply ok_or_Ok in H1 as [[-> _]%checked_add_Some ->].
      apply bind_Ok in H as (? & ? & H1 & H). apply fail_if_Ok in H1 as (Hle%Z.ltb_ge & _ & ->).
      apply bind_Ok in H as (rest & ? & H1 & H). apply IH in H1 as (Hs & -> & Hall). apply ret_Ok in H as [-> ->].
      split; [cbn [fst snd]; by rewrite !fmap_cons, Hs|]. split; [done|]. intros c' [->|Hc']%elem_of_cons Hca; auto.
    + apply bind_Ok in H as (rest & ? & H1 & H). apply IH in H1 as (Hs & -> & Hall). apply ret_Ok in H as [-> ->].
      split; [cbn [fst snd]; by rewrite !fmap_cons, Hs|]. split; [done|]. intros c' [->|Hc']%elem_of_cons Hca; [done|auto].
Qed.

Lemma withdraw_loop_shape a x w l s r s' :
  withdraw_loop a x w l s = Ok r s' -> same_shape l r.1.1 /\ forall k, rd k s' = rd k s.
Proof.
  unfold same_shape. revert w s r s'. induction l as [|c l IH]; intros w s r s' H; cbn [withdraw_loop] in H.
  - by apply ret_Ok in H as [-> ->].
  - case_bool_decide as Ha.
    + apply bind_Ok in H as (v & s1 & H1 & H). unfold adapter_withdraw, try_call in H1.
      apply bind_Ok in H1 as (o & s2 & H2 & H1). apply bind_Ok in H1 as (y & s3 & H3 & H1).
      apply ok_or_Ok in H3 as [-> ->].
      assert (Hs1 : s1 = s2) by (unfold into_i128 in H1; destruct y; try done; by apply ret_Ok in H1 as [_ ->]).
      subst s1. apply bind_Ok in H as (rest & s1 & H3 & H). apply IH in H3 as (Hs & Hrd).
      apply ret_Ok in H as [-> ->]. split; [cbn [fst snd]; by rewrite !fmap_cons, Hs|]. intros k. rewrite Hrd.
      destruct (ext_call _ _ _ _) as [[w' v']|]; injection H2 as _ <-; by rdsimp.
    + apply bind_Ok in H as (rest & s1 & H3 & H). apply IH in H3 as (Hs & Hrd).
      apply ret_Ok in H as [-> ->]. split; [cbn [fst snd]; by rewrite !fmap_cons, Hs|done].
Qed.

Lemma strategy_wf env o s :
  strategy_pre o -> well_formed (get_strategies s) -> well_formed (get_strategies (strategy_perform env o s)).
Proof.
  intros Hpre Hwf. destruct o as [a c b|k a x|a c x]; cbn [strategy_perform]; unfold invoke.
  - destruct (add_strategy env a c b s) as [u s'|? ?|?] eqn:H; [|done..]. unfold add_strategy in H.
    apply bind_Ok in H as (? & ? & H1 & H). apply (proj1 (try_Ok _ _ _ _)) in H1.
    apply require_admin_as_Ok in H1 as (_ & _ & _ & _ & ->).
    apply bind_Ok in H as (? & ? & H1 & H). apply fail_if_Ok in H1 as (Hb%Z.ltb_ge & _ & ->). unfold reading in H.
    apply bind_Ok in H as (? & ? & H1 & H). apply fail_if_Ok in H1 as (Hlen%Nat.leb_gt & _ & ->).
    apply bind_Ok in H as (t & ? & H1 & H). apply ok_or_Ok in H1 as [Ht ->].
    apply sum_caps_Some in Ht as [Hin ->]; [|unfold u32_max; lia|apply Hwf].
    apply bind_Ok in H as (? & ? & H1 & H). apply fail_if_Ok in H1 as (Hsum%Z.ltb_ge & _ & ->).
    apply bind_Ok in H as (? & ? & H1 & H). apply put_Ok in H1 as [_ ->]. unfold helper_event in H. injection H as _ <-.
    unfold get_strategies at 1. rdsimp. simpl. destruct Hpre as [Hb0 _]. destruct Hwf as [A1 A2 A3 A4]. split.
    + rewrite length_app. simpl. lia.
    + rewrite fmap_app. apply NoDup_app. split; [done|]. split; [|apply NoDup_singleton].
      intros y Hy ->%list_elem_of_singleton. done.
    + apply Forall_app. split; [done|]. by repeat constructor.
    + rewrite sum_of_app. simpl. revert Hsum. unfold u32_sat_add, u32_max, BOOST_BPS_BASE in *. lia.
  - destruct (allocate_to_strategy env k a x s) as [u s'|? ?|?] eqn:H; [|done..].
    unfold allocate_to_strategy in H.
    apply bind_Ok in H as (? & ? & H1 & H). apply require_auth_Ok in H1 as (_ & _ & ->).
    apply bind_Ok in H as (? & ? & H1 & H). apply fail_if_Ok in H1 as (_ & _ & ->). unfold reading in H.
    apply bind_Ok in H as (l & ? & H1 & H). apply ok_or_Ok in H1 as [Hl ->].
    assert (Hg : get_strategies s = l) by (unfold get_strategies; by rewrite Hl).
    apply bind_Ok in H as (up & ? & H1 & H). apply allocate_loop_shape in H1 as (Hs & -> & _).
    apply bind_Ok in H as (? & ? & H1 & H). apply fail_if_Ok in H1 as (_ & _ & ->).
    apply bind_Ok in H as (? & ? & H1 & H). apply put_Ok in H1 as [_ ->].
    apply bind_Ok in H as (t & ? & H1 & H). apply (proj1 (try_Ok _ _ _ _)) in H1.
    unfold token_address, reading in H1. apply ok_or_Ok in H1 as [_ ->].
    apply bind_Ok in H as (? & ? & H1 & H). apply transfer_Ok in H1 as (w & _ & _ & ->).
    apply bind_Ok in H as (? & s2 & H1 & H). unfold helper_event in H. injection H as _ <-.
    unfold adapter_deposit, try_call in H1. apply bind_Ok in H1 as (o & s1 & H2 & H1).
    apply bind_Ok in H1 as (y & ? & H3 & H1). apply ok_or_Ok in H3 as [_ ->]. apply ret_Ok in H1 as [_ ->].
    assert (Hr : get_strategies s1 = up.1).
    { unfold get_strategies. destruct (ext_call _ _ _ _) as [[w' v']|]; injection H2 as _ <-; by rdsimp. }
    eapply same_shape_wf; [|exact Hwf]. unfold get_strategies at 2. rewrite rd_emit.
    fold (get_strategies s1). by rewrite Hr, Hg.
  - destruct (withdraw_from_strategy env a c x s) as [u s'|? ?|?] eqn:H; [|done..]. unfold withdraw_from_strategy in H.
    apply bind_Ok in H as (? & ? & H1 & H). apply (proj1 (try_Ok _ _ _ _)) in H1.
    apply require_admin_as_Ok in H1 as (_ & _ & _ & _ & ->).
    apply bind_Ok in H as (? & ? & H1 & H). apply fail_if_Ok in H1 as (_ & _ & ->). unfold reading in H.
    apply bind_Ok in H as (l & ? & H1 & H). apply ok_or_Ok in H1 as [Hl ->].
    assert (Hg : get_strategies s = l) by (unfold get_strategies; by rewrite Hl).
    apply bind_Ok in H as (up & s1 & H1 & H). apply withdraw_loop_shape in H1 as (Hs & _).
    apply bind_Ok in H as (? & ? & H1 & H). apply fail_if_Ok in H1 as (_ & _ & ->).
    apply bind_Ok in H as (? & ? & H1 & H). apply put_Ok in H1 as [_ ->].
    apply bind_Ok in H as (? & ? & H1 & H). unfold helper_event in H1. injection H1 as _ <-.
    apply ret_Ok in H as [_ ->]. eapply same_shape_wf; [|exact Hwf]. unfold get_strategies at 2. rdsimp.
    by rewrite Hg.
Qed.

End Strategies.

(** C36. The strategy list stays well formed.  Whatever strategies are added,
    funded or drained, by whomever and whatever the adapters do: there are at
    most three, no adapter is listed twice, every cap is at most 100 % and so
    is their sum; and a deployment never takes a strategy's allocation over
    its cap of the deposits. *)
Theorem strategies_well_formed {W : World} {N : GovNames} (ops : list (Env * strategy_op)) (s : State) :
  well_formed (get_strategies s) -> Forall (fun eo => strategy_pre eo.2) ops ->
  well_formed (get_strategies (fold_left (fun s eo => strategy_perform eo.1 eo.2 s) ops s)) /\
  (forall env k a x s' c, allocate_to_strategy env k a x s = Ok tt s' ->
     c ∈ get_strategies s -> sc_adapter c = a ->
     sc_allocated c + x <= Z.quot (get_total_deposited s * sc_cap_bps c) BOOST_BPS_BASE).
Proof.
  intros Hwf Hops. split.
  - clear -Hwf Hops. revert s Hwf. induction Hops as [|[e o] ops Hpre _ IH]; intros s Hwf; [done|].
    apply IH. by apply strategy_wf.
  - intros env k a x s' c H Hc Ha. unfold allocate_to_strategy in H.
    apply bind_Ok in H as (? & ? & H1 & H). apply require_auth_Ok in H1 as (_ & _ & ->).
    apply bind_Ok in H as (? & ? & H1 & H). apply fail_if_Ok in H1 as (_ & _ & ->). unfold reading in H.
    apply bind_Ok in H as (l & ? & H1 & H). apply ok_or_Ok in H1 as [Hl ->].
    apply bind_Ok in H as (up & ? & H1 & H). apply allocate_loop_shape in H1 as (_ & _ & Hall).
    apply Hall; [|done]. revert Hc. unfold get_strategies. by rewrite Hl.
Qed.

(** ** Governance on the concrete host *)

Definition some_gov_names : GovNames := {|
  gs_error := string;
  gs_from := fun _ => "vault";
  gs_InvalidBps := "InvalidBps"; gs_InvalidPeriod := "InvalidPeriod";
  gs_PositionNotFound := "PositionNotFound"; gs_ProposalNotFound := "ProposalNotFound";
  gs_VotingStillActive := "VotingStillActive"; gs_AlreadyVoted := "AlreadyVoted";
  gs_ArithmeticError := "ArithmeticError"; gs_ProposalAlreadyEnacted := "ProposalAlreadyEnacted";
  gs_ProposalVetoed := "ProposalVetoed"; gs_QuorumNotMet := "QuorumNotMet";
  gs_ThresholdNotMet := "ThresholdNotMet"; gs_ZeroAmount := "ZeroAmount";
  gs_InsufficientBond := "InsufficientBond"; gs_ExpeditedLimitReached := "ExpeditedLimitReached";
  gs_DelayNotElapsed := "DelayNotElapsed"; gs_SelfDelegationNotAllowed := "SelfDelegationNotAllowed";
  gs_DelegationExpired := "DelegationExpired"; gs_MaxStrategiesReached := "MaxStrategiesReached";
  gs_StrategyAlreadyExists := "StrategyAlreadyExists"; gs_StrategyCapExceeded := "StrategyCapExceeded";
  gs_StrategyNotFound := "StrategyNotFound"; gs_AdapterCallFailed := "AdapterCallFailed";
  gs_event := fun name args => mkEvent [VSym name] args
|}.
#[local] Existing Instance some_gov_names.

(** Users 3 and 4 hold 60 and 40 of 100 shares worth 1000 tokens. *)
Definition gov_vault : State (W := token_world) :=
  upd (ShareBalance 3) (Some 60) (upd (ShareBalance 4) (Some 40) (upd TotalShares (Some 100)
    (upd TotalDeposited (Some 1000) (upd Admin (Some 2%positive) (upd Token (Some 9%positive)
      (start_state (fun _ _ => 500000000))))))).

Definition gov_create : State (W := token_world) :=
  invoke (create_expedited_proposal (at_ledger 10) 3 PPoolCap 777 100000000) gov_vault.
(** User 3 votes for the expedited proposal 1. *)
Definition gov_voted : State (W := token_world) :=
  invoke (vote_categorized_proposal (at_ledger 20) 3 1 true) gov_create.

(** Delegating after voting votes twice.  On a concrete vault worth 1000,
    user 3 votes with its 600, delegates to user 4, and user 4 votes with its
    400 and the same 600 again: 1600 votes out of 1000. *)
Example late_delegation_votes_twice :
  let s1 := invoke (delegate_vote_weight_with_expiry (at_ledger 21) 3 4 None) gov_voted in
  let s2 := invoke (vote_categorized_proposal (at_ledger 22) 4 1 true) s1 in
  get_total_deposited s2 = 1000 /\ option_map pp_votes_for (get_categorized_proposal 1 s2) = Some 1600.
Proof. vm_compute. split; reflexivity. Qed.

Lemma gov_vault_shares u : get_shares u gov_vault = if decide (u = 3%positive) then 60 else if decide (u = 4%positive) then 40 else 0.
Proof.
  unfold get_shares, gov_vault. destruct (decide (u = 3%positive)) as [->|H3]; [by rdsimp|].
  destruct (decide (u = 4%positive)) as [->|H4]; [by rdsimp|].
  rewrite !rd_upd_ne by (done || (intros H; injection H; congruence)). done.
Qed.

Lemma gov_vault_delegation : delegation_ok gov_vault.
Proof.
  split.
  - intros u. unfold delegators_of, gov_vault. rdsimp. constructor.
  - intros u r. unfold gov_vault. rdsimp. done.
Qed.

(** User 3 delegates to 5 and then, until ledger 100, to 4: it is in both
    lists, and its weight counts once, for 4; from ledger 100 on it is its own. *)
Definition gov_delegated : State (W := token_world) :=
  invoke (delegate_vote_weight_with_expiry (at_ledger 12) 3 4 (Some 100))
    (invoke (delegate_vote_weight_with_expiry (at_ledger 11) 3 5 None) gov_vault).

Lemma delegate_shares env a b e (s : State (W := token_world)) k :
  (forall v, k <> KFeat (VoteExp v)) -> (forall v, k <> KFeat (DelegatorList v)) ->
  rd k (invoke (delegate_vote_weight_with_expiry env a b e) s) = rd k s.
Proof.
  intros H1 H2. unfold invoke. destruct (delegate_vote_weight_with_expiry env a b e s) as [x s'|?|?] eqn:H; [|done..].
  eapply (touches_Ok (fun k => k = KFeat (VoteExp a) \/ k = KFeat (DelegatorList b))); [|exact H|intros [->| ->]; first [by eapply H1|by eapply H2]].
  unfold delegate_vote_weight_with_expiry, helper_event. frames; try (apply touches_put; tauto). by intros t k0 _.
Qed.

Lemma gov_delegated_shares u : get_shares u gov_delegated = get_shares u gov_vault.
Proof. unfold get_shares, gov_delegated. by rewrite !delegate_shares. Qed.

Lemma gov_delegated_ok : delegation_ok gov_delegated.
Proof.
  assert (Hk : forall env a b e (s : State (W := token_world)), delegation_ok s -> delegation_ok (invoke (delegate_vote_weight_with_expiry env a b e) s)).
  { intros env a b e s Hs. unfold invoke. destruct (delegate_vote_weight_with_expiry env a b e s) as [x s'|?|?] eqn:H; [|done..].
    by eapply delegate_ok. }
  apply Hk, Hk, gov_vault_delegation.
Qed.

Lemma gov_delegated_values : values_ok gov_delegated.
Proof.
  intros u. unfold share_value, shares_to_amount, shares_to_amount_with_decimals. rewrite gov_delegated_shares, gov_vault_shares.
  repeat case_decide; vm_compute; discriminate.
Qed.

(** The weights at a ledger, of 3, 4 and 5. *)
Definition gov_weights (ledger : Z) (u : Address) : Z :=
  if ledger <? 100 then (if decide (u = 4%positive) then 1000 else 0)
  else if decide (u = 3%positive) then 600 else if decide (u = 4%positive) then 400 else 0.

Lemma delegation_counts_once_witness :
  delegators_of 4 gov_delegated = [3%positive] /\ delegators_of 5 gov_delegated = [3%positive] /\
  (forall ledger, ledger = 21 \/ ledger = 100 ->
     sum_of (gov_weights ledger) [3%positive; 4%positive; 5%positive] = 1000 /\
     sum_of (gov_weights ledger) [3%positive; 4%positive; 5%positive] <=
       sum_of (fun v => share_value v gov_delegated) [3%positive; 4%positive; 5%positive]).
Proof.
  split; [vm_compute; reflexivity|]. split; [vm_compute; reflexivity|].
  intros ledger Hl. split; [by destruct Hl as [-> | ->]; vm_compute|].
  apply (delegation_counts_once (at_ledger ledger) ledger gov_delegated [3%positive; 4%positive; 5%positive]
    [3%positive; 4%positive; 5%positive] (gov_weights ledger)).
  - exact gov_delegated_ok.
  - intros v. rewrite gov_delegated_shares, gov_vault_shares. repeat case_decide; lia.
  - exact gov_delegated_values.
  - apply (bool_decide_unpack _). vm_compute. exact I.
  - apply (bool_decide_unpack _). vm_compute. exact I.
  - done.
  - intros u v Hu Hv.
    assert (Hd : delegators_of u gov_delegated = [3%positive] \/ delegators_of u gov_delegated = []).
    { repeat (apply elem_of_cons in Hu as [->|Hu]); [..|by apply elem_of_nil in Hu];
        first [left; vm_compute; reflexivity|right; vm_compute; reflexivity]. }
    destruct Hd as [Hd|Hd]; rewrite Hd in Hv; set_solver.
  - intros u Hu. repeat (apply elem_of_cons in Hu as [->|Hu]); [..|by apply elem_of_nil in Hu];
      destruct Hl as [-> | ->]; vm_compute; reflexivity.
Defined.

Lemma enactment_met_rules_witness :
  exists p x s', get_categorized_proposal 1 gov_voted = Some p /\
    enact_categorized_proposal (at_ledger 211) 1 gov_voted = Ok x s' /\ setting (pp_parameter p) s' = Some 777.
Proof.
  destruct (get_categorized_proposal 1 gov_voted) as [p|] eqn:Hp; [|by vm_compute in Hp].
  assert (Hv : pp_new_value p = 777) by (vm_compute in Hp; by injection Hp as <-).
  destruct (succeeds_run (enact_categorized_proposal (at_ledger 211) 1 gov_voted) (fun _ _ => true))
    as (x & s' & H & _); [vm_compute; reflexivity|].
  exists p, x, s'. split; [reflexivity|]. split; [exact H|]. rewrite <- Hv.
  apply (enactment_met_rules (at_ledger 211) 1 p x gov_voted s' Hp H).
Defined.

Lemma expedited_all_or_nothing_witness :
  exists p, get_categorized_proposal 1 gov_create = Some p /\
    invoke (enact_expedited_proposal (at_ledger 300) 1) gov_create = gov_create.
Proof.
  destruct (get_categorized_proposal 1 gov_create) as [p|] eqn:Hp; [|by vm_compute in Hp].
  exists p. split; [reflexivity|].
  assert (Hq : pp_proposer p = 3%positive /\ quorum_of p gov_create = 400 /\ votes_of p = 0).
  { unfold quorum_of, votes_of. vm_compute in Hp. injection Hp as <-. vm_compute. done. }
  destruct Hq as (Hpr & Hq & Hv).
  apply (expedited_all_or_nothing token_world_standard (at_ledger 300) 1 p 9%positive gov_create).
  - exact Hp.
  - vm_compute. reflexivity.
  - rewrite Hpr. discriminate.
  - unfold carried. rewrite Hq, Hv. lia.
Defined.

Lemma ordinary_path_keeps_bond_witness :
  exists x s', enact_categorized_proposal (at_ledger 211) 1 gov_voted = Ok x s' /\ st_ext s' = st_ext gov_voted.
Proof.
  destruct (get_categorized_proposal 1 gov_voted) as [p|] eqn:Hp; [|by vm_compute in Hp].
  assert (He : pp_is_expedited p = true) by (vm_compute in Hp; by injection Hp as <-).
  destruct (succeeds_run (enact_categorized_proposal (at_ledger 211) 1 gov_voted) (fun _ _ => true))
    as (x & s' & H & _); [vm_compute; reflexivity|].
  exists x, s'. split; [exact H|]. apply (ordinary_path_keeps_bond (at_ledger 211) 1 p x gov_voted s' Hp He H).
Defined.

Lemma strategies_well_formed_witness :
  well_formed (get_strategies (fold_left (fun s eo => strategy_perform eo.1 eo.2 s)
    [(at_ledger 10, SAdd 2 20 6000); (at_ledger 11, SAdd 2 21 5000)] gov_vault)).
Proof.
  apply (strategies_well_formed [(at_ledger 10, SAdd 2 20 6000); (at_ledger 11, SAdd 2 21 5000)] gov_vault).
  - split; [vm_compute; lia|constructor|constructor|vm_compute; discriminate].
  - repeat constructor; vm_compute; discriminate.
Defined.
