(* ===== verification/VaultBooks.v ===== *)
(** * The share books

    Shares a user holds, shares parked in a pending withdrawal request, in the
    withdrawal queue or in a position token, and the pool total.  [books] says
    that no set of users and parking places accounts for more shares than the
    pool has issued; every operation of [Vault.v] preserves it. *)

From S2P Require Import Prelude Errors Storage Host Concrete Accessors Admin Shares RewardMath MultiReward.
From S2P Require Import Checkpoints Balance Pause RewardRate Limits Notify Mirror Strategies Vault.

(** The entries the books are made of. *)
Definition acc (k : key) : bool :=
  match k with
  | KPers (ShareBalance _) | KPers (WithdrawalReq _) | KInst TotalShares | KInst TotalDeposited
  | KGov WqQueue | KGov NftBalances | KPos (SplitPositions _) => true
  | _ => false
  end.

Section Quiet.
Context {W : World} (env : Env).
Implicit Types s : State.

Definition same_books s s' : Prop := forall k, acc k = true -> rd k s' = rd k s.

(** Calls that leave the books alone, whatever their outcome. *)
Definition quiet {E A} (m : M E A) : Prop := touches (fun k => acc k = false) m.

Lemma quiet_same E A (m : M E A) s a s' : quiet m -> m s = Ok a s' -> same_books s s'.
Proof. intros Hq H k Hk. apply (touches_Ok _ _ _ _ _ k Hq H). congruence. Qed.

Lemma same_refl s : same_books s s.
Proof. by intros k. Qed.
Lemma same_trans s1 s2 s3 : same_books s1 s2 -> same_books s2 s3 -> same_books s1 s3.
Proof. intros H1 H2 k Hk. rewrite H2, H1; done. Qed.

Ltac quiets := unfold quiet; repeat first [ progress frames | apply touches_put; reflexivity
                                          | apply touches_del; reflexivity ].

Lemma quiet_no_sunset : quiet require_no_sunset.
Proof. unfold require_no_sunset. quiets. Qed.
Lemma quiet_seeded : quiet require_pool_seeded.
Proof. unfold require_pool_seeded. quiets. Qed.
Lemma quiet_register_depositor u : quiet (register_depositor u).
Proof. unfold register_depositor. quiets. Qed.
Lemma quiet_token_address : quiet token_address.
Proof. unfold token_address. quiets. Qed.
Lemma quiet_pull t f a : quiet (pull_tokens env t f a).
Proof. unfold pull_tokens. quiets. Qed.
Lemma quiet_deposit_cap E u a : quiet (enforce_deposit_cap (E:=E) u a).
Proof. unfold enforce_deposit_cap. quiets. Qed.
Lemma quiet_register_staker E u : quiet (register_staker (E:=E) u).
Proof. unfold register_staker. quiets. Qed.
Lemma quiet_prune E u : quiet (prune_expired (E:=E) env u).
Proof. unfold prune_expired, set_tranches. quiets. Qed.
Lemma quiet_lock_deposit E u a m : quiet (maybe_lock_deposit (E:=E) env u a m).
Proof.
  unfold maybe_lock_deposit, set_tranches. quiets; try apply quiet_prune.
Qed.
Lemma quiet_record E u k a m : quiet (record (E:=E) env u k a m).
Proof. unfold record, touch. quiets. Qed.
Lemma quiet_low_balance E : quiet (check_and_emit_low_balance (E:=E) env).
Proof. unfold check_and_emit_low_balance. quiets. Qed.
Lemma quiet_notify E u a m : quiet (notify (E:=E) env u a m).
Proof. unfold notify. quiets. Qed.
Lemma quiet_daily u a : quiet (enforce_and_record env u a).
Proof. unfold enforce_and_record, current_tracker, get_raw_tracker, set_tracker. quiets. Qed.
Lemma quiet_pull_loop E n t l : quiet (pull_loop (E:=E) env n t l).
Proof.
  revert t. induction l as [|r l IH]; intros t; cbn [pull_loop]; [quiets|].
  unfold quiet. apply touches_if; [quiets|]. apply touches_bind.
  - unfold pull_one, try_i128. quiets.
  - intros a. apply touches_bind; [apply IH|]. intros b. quiets.
Qed.
Lemma quiet_pull_strategies n : quiet (pull_from_strategies env n).
Proof.
  unfold pull_from_strategies, set_strategy_records. quiets; apply quiet_pull_loop.
Qed.
Lemma quiet_unpause E : quiet (apply_scheduled_unpause_if_due (E:=E) env).
Proof.
  unfold apply_scheduled_unpause_if_due, clear_scheduled_unpause, set_last_updated_ledger. quiets.
Qed.

End Quiet.

(** ** The invariant *)

Section Books.
Context {W : World} (env : Env).
Implicit Types s : State.

Definition requested (u : Address) s : Z :=
  match get_request u s with Some r => wr_shares r | None => 0 end.
(** The primary position, pending withdrawal request included. *)
Definition own (u : Address) s : Z := get_shares u s + requested u s.
Definition split_total (u : Address) s : Z := sum_of sp_amount (get_split_positions u s).
(** What a user holds, split positions included. *)
Definition hold (u : Address) s : Z := own u s + split_total u s.
Definition queued s : Z := sum_of qe_shares (get_queue s).
Definition tokenized s : Z := sum_of snd (map_to_list (nft_balances s)).

Record books s : Prop := {
  bk_shares : forall u, 0 <= get_shares u s;
  bk_request : forall u, 0 <= requested u s;
  bk_splits : forall u, Forall (fun p => 0 <= sp_amount p) (get_split_positions u s);
  bk_queue : Forall (fun e => 0 <= qe_shares e) (get_queue s);
  bk_nft : map_Forall (fun _ x => 0 <= x) (nft_balances s);
  bk_deposited : 0 <= get_total_deposited s;
  bk_total : forall U, NoDup U ->
    sum_of (fun u => hold u s) U + queued s + tokenized s <= get_total_shares s
}.

Lemma same_shares s s' u : same_books s s' -> get_shares u s' = get_shares u s.
Proof. intros H. unfold get_shares. by rewrite H. Qed.
Lemma same_total s s' : same_books s s' -> get_total_shares s' = get_total_shares s.
Proof. intros H. unfold get_total_shares. by rewrite H. Qed.
Lemma same_deposited s s' : same_books s s' -> get_total_deposited s' = get_total_deposited s.
Proof. intros H. unfold get_total_deposited. by rewrite H. Qed.
Lemma same_request s s' u : same_books s s' -> get_request u s' = get_request u s.
Proof. intros H. unfold get_request. by rewrite H. Qed.
Lemma same_queue s s' : same_books s s' -> get_queue s' = get_queue s.
Proof. intros H. unfold get_queue. by rewrite H. Qed.
Lemma same_nft s s' : same_books s s' -> nft_balances s' = nft_balances s.
Proof. intros H. unfold nft_balances. by rewrite H. Qed.

Lemma same_splits s s' u : same_books s s' -> get_split_positions u s' = get_split_positions u s.
Proof. intros H. unfold get_split_positions. by rewrite H. Qed.
Lemma own_hold s s' u d :
  get_split_positions u s' = get_split_positions u s -> own u s' = own u s + d -> hold u s' = hold u s + d.
Proof. unfold hold, split_total. intros -> ->. lia. Qed.

(** A change of one user's holding by [d], of the parking places by at most
    [dp] and of the total by [dt] keeps the books when [d + dp <= dt]. *)
Lemma books_update s s' u d dp dt :
  books s ->
  (forall v, v <> u -> get_shares v s' = get_shares v s /\ requested v s' = requested v s /\
     get_split_positions v s' = get_split_positions v s) ->
  0 <= get_shares u s' -> 0 <= requested u s' ->
  Forall (fun p => 0 <= sp_amount p) (get_split_positions u s') -> hold u s' = hold u s + d ->
  Forall (fun e => 0 <= qe_shares e) (get_queue s') ->
  map_Forall (fun _ x => 0 <= x) (nft_balances s') ->
  queued s' + tokenized s' <= queued s + tokenized s + dp ->
  get_total_shares s' = get_total_shares s + dt -> 0 <= get_total_deposited s' ->
  d + dp <= dt ->
  books s'.
Proof.
  intros [B1 B2 B7 B3 B4 B5 B6] Ho Hs Hr Hsp Hd Hq Hn Hp Ht HD Hle.
  split; try done.
  - intros v. destruct (decide (v = u)) as [->|Hv]; [done|]. destruct (Ho v Hv) as [-> _]. apply B1.
  - intros v. destruct (decide (v = u)) as [->|Hv]; [done|]. destruct (Ho v Hv) as (_ & -> & _). apply B2.
  - intros v. destruct (decide (v = u)) as [->|Hv]; [done|]. destruct (Ho v Hv) as (_ & _ & ->). apply B7.
  - intros U HU. destruct (decide (u ∈ U)) as [Hin|Hin].
    + apply list_elem_of_split in Hin as (l1 & l2 & ->). specialize (B6 _ HU).
      assert (Hext : sum_of (fun v => hold v s') (l1 ++ l2) = sum_of (fun v => hold v s) (l1 ++ l2)).
      { apply sum_of_ext. intros v Hv. unfold hold, own, split_total.
        apply NoDup_app in HU as (_ & Hd1 & Hd2). apply NoDup_cons in Hd2 as [Hd2 _].
        destruct (Ho v) as (-> & -> & ->); [|done]. intros ->.
        apply elem_of_app in Hv as [Hv|Hv]; [|done]. apply (Hd1 u Hv). set_solver. }
      rewrite !sum_of_app in *. simpl in *. lia.
    + specialize (B6 (u :: U) (NoDup_cons_2 _ _ Hin HU)). simpl in B6.
      assert (Hext : sum_of (fun v => hold v s') U = sum_of (fun v => hold v s) U).
      { apply sum_of_ext. intros v Hv. unfold hold, own, split_total.
        destruct (Ho v) as (-> & -> & ->); [|done]. congruence. }
      rewrite Hext. unfold hold, own in *.
      assert (0 <= split_total u s') by (by apply sum_of_nonneg). lia.
Qed.

Lemma books_same s s' : same_books s s' -> books s -> books s'.
Proof.
  intros H B. assert (Hreq : forall v, requested v s' = requested v s)
    by (intros; unfold requested; by rewrite (same_request s)).
  assert (Hsh : forall v, get_shares v s' = get_shares v s) by (intros; by apply same_shares).
  apply (books_update s s' 1%positive 0 0 0).
  - exact B.
  - intros v _. split; [apply Hsh|split; [apply Hreq|by apply same_splits]].
  - rewrite Hsh. apply B.
  - rewrite Hreq. apply B.
  - rewrite (same_splits s) by done. apply B.
  - apply own_hold; [by apply same_splits|]. unfold own. rewrite Hsh, Hreq. lia.
  - rewrite (same_queue s) by done. apply B.
  - rewrite (same_nft s) by done. apply B.
  - unfold queued, tokenized. rewrite (same_queue s), (same_nft s) by done. lia.
  - rewrite (same_total s) by done. lia.
  - rewrite (same_deposited s) by done. apply B.
  - lia.
Qed.

(** A vault with one holder and nothing parked. *)
Lemma books_single u sh s :
  (forall v, get_shares v s = if decide (v = u) then sh else 0) ->
  (forall v, requested v s = 0) -> (forall v, get_split_positions v s = []) ->
  get_queue s = [] -> nft_balances s = ∅ ->
  0 <= sh <= get_total_shares s -> 0 <= get_total_deposited s -> books s.
Proof.
  intros Hs Hr Hp Hq Hn Hle Hd. split; try done.
  - intros v. rewrite Hs. case_decide; lia.
  - intros v. by rewrite Hr.
  - intros v. rewrite Hp. constructor.
  - rewrite Hq. constructor.
  - rewrite Hn. apply map_Forall_empty.
  - intros U HU. unfold queued, tokenized. rewrite Hq, Hn, map_to_list_empty.
    rewrite (sum_of_ext _ (fun v => if decide (v = u) then sh else 0))
      by (intros v _; unfold hold, own, split_total; rewrite Hs, Hr, Hp; simpl; lia).
    assert (sum_of (fun v => if decide (v = u) then sh else 0) U <= sh); [|simpl; lia].
    assert (sum_of (fun _ => 0) U = 0) as H0 by (clear; induction U; simpl in *; lia).
    destruct (decide (u ∈ U)) as [Hin|Hout].
    + rewrite (sum_of_change (fun _ => 0) _ U u), decide_True; [lia|done..|].
      intros y Hy. by rewrite decide_False.
    + rewrite (sum_of_ext _ (fun _ => 0)); [lia|]. intros y Hy. rewrite decide_False; [done|]. by intros ->.
Qed.

(** In orderly books no one holds more than there is. *)
Lemma books_parked s : books s -> 0 <= queued s /\ 0 <= tokenized s.
Proof.
  intros HB. split; [apply (sum_of_nonneg qe_shares), HB|]. apply sum_of_nonneg, Forall_forall.
  intros [i v] Hi%elem_of_map_to_list. apply (bk_nft _ HB i v Hi).
Qed.
Lemma books_holding u s : books s -> 0 <= get_shares u s <= get_total_shares s.
Proof.
  intros HB. destruct (books_parked s HB). pose proof (bk_shares _ HB u). pose proof (bk_request _ HB u).
  pose proof (sum_of_nonneg sp_amount _ (bk_splits _ HB u)).
  pose proof (bk_total _ HB [u] (NoDup_singleton u)) as Ht. simpl in Ht. unfold hold, own, split_total in Ht. lia.
Qed.

(** ** Writing shares and totals *)

(** [s'] is [s] with the shares of [u], the total and the deposits rewritten. *)
Definition rewritten s s' (u : Address) (sh tot dep : Z) : Prop :=
  get_shares u s' = sh /\ get_total_shares s' = tot /\ get_total_deposited s' = dep /\
  0 <= sh /\ 0 <= tot /\ 0 <= dep /\
  (forall k, acc k = true -> k <> KPers (ShareBalance u) -> k <> KInst TotalShares ->
             k <> KInst TotalDeposited -> rd k s' = rd k s).

Lemma share_write_acc u k : share_write_keys u k -> acc k = true -> k = KPers (ShareBalance u).
Proof. intros [->|[->|[->|(t & [->| ->])]]]; done. Qed.

Lemma set_total_deposited_Ok E d s x s' :
  set_total_deposited (E:=E) d s = Ok x s' -> 0 <= d /\ s' = upd TotalDeposited (Some d) s.
Proof.
  unfold set_total_deposited, assert_non_negative. intros H. mrun H. apply Z.ltb_ge in H0. done.
Qed.

(** The three writes every deposit and withdrawal makes. *)
Lemma three_writes E u sh t d s x s1 y s2 z s3 :
  set_shares (E:=E) env u sh s = Ok x s1 -> set_total_shares (E:=E) env t s1 = Ok y s2 ->
  set_total_deposited (E:=E) d s2 = Ok z s3 ->
  rewritten s s3 u sh t d /\ st_ext s3 = st_ext s /\
  (forall k, ~ share_write_keys u k -> k <> KInst TotalShares -> k <> KInst TotalDeposited ->
     k <> KPers TotalCheckpoints -> rd k s3 = rd k s).
Proof.
  intros H1 H2 H3. apply set_shares_Ok in H1 as (Hsh & Hshu & _ & Hf1 & He1).
  apply set_total_shares_Ok in H2 as (Ht & Htt & Hf2 & He2).
  apply set_total_deposited_Ok in H3 as (Hd & ->).
  split; [|split].
  - assert (Hs : get_shares u (upd TotalDeposited (Some d) s2) = sh).
    { unfold get_shares. rdsimp. rewrite Hf2 by done. exact Hshu. }
    assert (HT : get_total_shares (upd TotalDeposited (Some d) s2) = t).
    { unfold get_total_shares. rdsimp. exact Htt. }
    assert (HD : get_total_deposited (upd TotalDeposited (Some d) s2) = d).
    { unfold get_total_deposited. by rdsimp. }
    do 6 (split; [assumption|]). intros k' Ha Hk1 Hk2 Hk3. rewrite rd_upd_ne by congruence.
    rewrite Hf2; [|done|by intros ->]. apply Hf1. intros Hk. by apply share_write_acc in Hk.
  - etransitivity; [|exact He1]. exact He2.
  - intros k' Hk1 Hk2 Hk3 Hk4. rewrite rd_upd_ne by congruence. rewrite Hf2 by done. by apply Hf1.
Qed.

Lemma rewritten_frame s s1 s2 u sh tot dep :
  rewritten s s1 u sh tot dep -> same_books s1 s2 -> rewritten s s2 u sh tot dep.
Proof.
  intros (H1 & H2 & H3 & H4 & H5 & H6 & H7) Hs.
  split; [by rewrite (same_shares s1)|]. split; [by rewrite (same_total s1)|].
  split; [by rewrite (same_deposited s1)|]. do 3 (split; [done|]).
  intros k Ha K1 K2 K3. rewrite Hs by done. by apply H7.
Qed.

(** Such a rewriting keeps the books when the total moves with the holding. *)
Lemma rewritten_books s s' u sh tot dep :
  books s -> rewritten s s' u sh tot dep ->
  sh - get_shares u s <= tot - get_total_shares s -> books s'.
Proof.
  intros B (H1 & H2 & H3 & Hs & Ht & Hd & Hf) Hle.
  assert (Hreq : forall v, requested v s' = requested v s).
  { intros v. unfold requested, get_request. by rewrite Hf. }
  assert (Hq : get_queue s' = get_queue s) by (unfold get_queue; by rewrite Hf).
  assert (Hn : nft_balances s' = nft_balances s) by (unfold nft_balances; by rewrite Hf).
  assert (Hspl : forall v, get_split_positions v s' = get_split_positions v s).
  { intros v. unfold get_split_positions. by rewrite Hf. }
  apply (books_update s s' u (sh - get_shares u s) 0 (tot - get_total_shares s)).
  - exact B.
  - intros v Hv. rewrite Hreq. split; [|split; [done|apply Hspl]]. unfold get_shares. rewrite Hf; [done..| |done|done].
    congruence.
  - by rewrite H1.
  - rewrite Hreq. apply B.
  - rewrite Hspl. apply B.
  - apply own_hold; [apply Hspl|]. unfold own. rewrite Hreq, H1. lia.
  - rewrite Hq. apply B.
  - rewrite Hn. apply B.
  - unfold queued, tokenized. rewrite Hq, Hn. lia.
  - rewrite H2. lia.
  - by rewrite H3.
  - lia.
Qed.

(** ** Runs that keep the books

    [fine m s]: unless it traps, [m] leaves good books behind, whether it
    returns a value or an error. *)

Definition no_err {E A} (m : M E A) : Prop := forall s e s', m s <> Err e s'.
Definition fine {E A} (m : M E A) s : Prop :=
  match m s with Ok _ s' | Err _ s' => books s' | Trap _ => True end.

Lemma fine_Ok {E A} (m : M E A) s a s' : fine m s -> m s = Ok a s' -> books s'.
Proof. unfold fine. by intros H Hm; rewrite Hm in H. Qed.
Lemma fine_ret {E A} (a : A) s : books s -> fine (ret (E:=E) a) s.
Proof. done. Qed.
Lemma fine_bind {E A B} (m : M E A) (k : A -> M E B) s :
  fine m s -> (forall a s1, m s = Ok a s1 -> fine (k a) s1) -> fine (bind m k) s.
Proof. unfold fine, bind. destruct (m s) as [a s1|e s1|t] eqn:E1; intros H1 H2; [by apply H2|done..]. Qed.
Lemma fine_bind_no_err {E A B} (m : M E A) (k : A -> M E B) s :
  no_err m -> (forall a s1, m s = Ok a s1 -> fine (k a) s1) -> fine (bind m k) s.
Proof.
  unfold fine, bind. destruct (m s) as [a s1|e s1|t] eqn:E1; intros H1 H2; [by apply H2| |done].
  by destruct (H1 s e s1).
Qed.
Lemma fine_quiet {E A} (m : M E A) s : quiet m -> books s -> fine m s.
Proof.
  intros Hq HB. unfold fine. specialize (Hq s).
  destruct (m s) as [a s1|e s1|t]; [..|done]; apply (books_same s); try done;
    intros k Hk; apply Hq; congruence.
Qed.
Lemma fine_bind_quiet {E A B} (m : M E A) (k : A -> M E B) s :
  quiet m -> books s ->
  (forall a s1, m s = Ok a s1 -> same_books s s1 -> books s1 -> fine (k a) s1) -> fine (bind m k) s.
Proof.
  intros Hq HB Hk. apply fine_bind; [by apply fine_quiet|]. intros a s1 H1.
  pose proof (quiet_same _ _ _ _ _ _ Hq H1) as Hs. apply Hk; [done..|]. by apply (books_same s).
Qed.

(** Calls that cannot return an error. *)
Lemma no_err_bind {E A B} (m : M E A) (k : A -> M E B) :
  no_err m -> (forall a, no_err (k a)) -> no_err (bind m k).
Proof.
  intros H1 H2 s e s'. unfold bind. destruct (m s) as [a s1|e1 s1|t] eqn:E1; [apply H2| |done].
  intros _. by apply (H1 s e1 s1).
Qed.
Lemma no_err_reading {E A B} (f : State -> A) (k : A -> M E B) :
  (forall a, no_err (k a)) -> no_err (reading f k).
Proof. intros H s. apply H. Qed.
Lemma no_err_ret {E A} (a : A) : no_err (ret (E:=E) a).
Proof. done. Qed.
Lemma no_err_put {E} k v : no_err (put (E:=E) k v).
Proof. done. Qed.
Lemma no_err_publish {E} ts ds : no_err (publish (E:=E) ts ds).
Proof. done. Qed.
Lemma no_err_plain {E} o : no_err (plain (E:=E) o).
Proof. by intros s e s'; destruct o. Qed.
Lemma no_err_panic_if {E} b t : no_err (panic_if (E:=E) b t).
Proof. by intros s e s'; destruct b. Qed.
Lemma no_err_panic {E A} t : no_err (panic (E:=E) (A:=A) t).
Proof. done. Qed.
Lemma no_err_unwrap {E A} (o : option A) : no_err (unwrap (E:=E) o).
Proof. by intros s e s'; destruct o. Qed.
Lemma no_err_for_each {E A} (l : list A) (f : A -> M E unit) :
  (forall x, no_err (f x)) -> no_err (for_each l f).
Proof. intros Hf. induction l; simpl; [done|]. by apply no_err_bind. Qed.

Ltac no_errs := repeat first
  [ done | exact no_err_ret | solve [auto using @no_err_ret, @no_err_put, @no_err_publish,
      @no_err_plain, @no_err_panic_if, @no_err_panic, @no_err_unwrap]
  | apply no_err_bind; [|intros ?] | apply no_err_reading; intros ?
  | lazymatch goal with
    | |- no_err (if ?b then _ else _) => destruct b
    | |- no_err (match ?o with _ => _ end) => destruct o
    end ].

Lemma no_err_set_shares E u x : no_err (set_shares (E:=E) env u x).
Proof.
  assert (Hsettle : no_err (settle_user (E:=E) env u)).
  { unfold settle_user. apply no_err_reading. intros [|t ts]; [no_errs|].
    apply no_err_reading. intros sh. apply no_err_bind; [|intros ?; no_errs].
    induction (t :: ts) as [|r l IH]; cbn [settle_each]; [no_errs|].
    apply no_err_bind; [unfold settle_one, earned_since_checkpoint; no_errs|]. intros ?.
    apply no_err_bind; [apply IH|]. intros ?. no_errs. }
  unfold set_shares, assert_non_negative, record_user. no_errs; try apply Hsettle.
Qed.
Lemma no_err_set_total_shares E t : no_err (set_total_shares (E:=E) env t).
Proof. unfold set_total_shares, assert_non_negative, record_total. no_errs. Qed.
Lemma no_err_set_total_deposited E t : no_err (set_total_deposited (E:=E) t).
Proof. unfold set_total_deposited, assert_non_negative. no_errs. Qed.

(** The share, total and deposit writes of a withdrawal or a mirrored action,
    followed by a call that keeps the books. *)
Lemma fine_three E A u (osh ot od : option Z) (k : M E A) s :
  books s ->
  (forall sh t, osh = Some sh -> ot = Some t -> sh - get_shares u s <= t - get_total_shares s) ->
  (forall s', books s' -> fine k s') ->
  fine (let! sh := plain osh in set_shares env u sh ;;; let! t := plain ot in
        set_total_shares env t ;;; let! d := plain od in set_total_deposited d ;;; k) s.
Proof.
  intros HB Hle Hk.
  apply fine_bind_no_err; [apply no_err_plain|]. intros sh ? H. apply plain_Ok in H as [-> ->].
  apply fine_bind_no_err; [apply no_err_set_shares|]. intros ? s1 H1.
  apply fine_bind_no_err; [apply no_err_plain|]. intros t ? H. apply plain_Ok in H as [-> ->].
  apply fine_bind_no_err; [apply no_err_set_total_shares|]. intros ? s2 H2.
  apply fine_bind_no_err; [apply no_err_plain|]. intros d ? H. apply plain_Ok in H as [-> ->].
  apply fine_bind_no_err; [apply no_err_set_total_deposited|]. intros ? s3 H3.
  apply Hk. destruct (three_writes _ _ _ _ _ _ _ _ _ _ _ _ H1 H2 H3) as (Hr & _ & _).
  eapply rewritten_books; [exact HB|exact Hr|]. by apply Hle.
Qed.

End Books.
