(* ===== verification/VaultInv.v ===== *)
(** * Deposits and withdrawals keep the share books

    Every operation of [Vault.v] keeps the share books of [VaultBooks.v]:
    [commits] for what a successful run leaves behind, [fine] for runs whose
    error a caller may swallow. *)

From S2P Require Import Prelude Errors Storage Host Concrete Accessors Admin Shares RewardMath MultiReward.
From S2P Require Import Checkpoints Balance Pause RewardRate Limits Notify Mirror Strategies Vault VaultBooks.

Section Ops.
Context {W : World} (env : Env).
Implicit Types s : State.

Lemma fine_reading E A B (f : State -> A) (k : A -> M E B) s :
  fine (k (f s)) s -> fine (reading f k) s.
Proof. done. Qed.
Lemma quiet_fail_if E b (e : E) : quiet (fail_if b e).
Proof. apply touches_fail_if. Qed.
Lemma quiet_ok_or E A (o : option A) (e : E) : quiet (ok_or o e).
Proof. apply touches_ok_or. Qed.
Lemma quiet_publish E ts ds : quiet (publish (E:=E) ts ds).
Proof. apply touches_publish. Qed.
Lemma quiet_auth E a : quiet (require_auth (E:=E) env a).
Proof. apply touches_require_auth. Qed.
Lemma quiet_plain E o : quiet (plain (E:=E) o).
Proof. apply touches_plain. Qed.

(** [fq] steps over a call that leaves the books alone. *)
Ltac fq := apply fine_bind_quiet;
  [ first [ apply quiet_fail_if | apply quiet_ok_or | apply quiet_publish | apply quiet_auth | apply quiet_plain ]
  | assumption | ].

(** ** Mirrored actions *)

Lemma mirror_one_fine E leader act amount f s :
  books s -> fine (mirror_one (E:=E) env leader act amount f) s.
Proof.
  intros HB. unfold mirror_one. apply fine_reading.
  destruct (get_mirror_config_inner f s) as [cfg|]; [|done].
  destruct (_ || _); [done|]. cbv zeta. destruct (_ <=? 0); [done|]. destruct act.
  - unfold mirror_stake. apply fine_reading. destruct (rd Token s) as [token|];
      [|apply fine_quiet; [apply quiet_publish|done]].
    apply fine_reading. destruct (_ <? _); [apply fine_quiet; [apply quiet_publish|done]|].
    do 2 apply fine_reading. cbv zeta. apply fine_reading. apply fine_three; [done| |].
    + intros sh t (-> & _)%checked_add_Some (-> & _)%checked_add_Some. lia.
    + intros s' HB'. apply fine_quiet; [apply quiet_publish|done].
  - unfold mirror_unstake. apply fine_reading.
    destruct (_ || _); [apply fine_quiet; [apply quiet_publish|done]|].
    do 2 apply fine_reading. cbv zeta. apply fine_three; [done| |].
    + intros sh t (-> & _)%checked_sub_Some (-> & _)%checked_sub_Some. lia.
    + intros s' HB'. apply fine_quiet; [apply quiet_publish|done].
Qed.

Lemma maybe_mirror_fine E leader act amount s :
  books s -> fine (maybe_mirror_action (E:=E) env leader act amount) s.
Proof.
  unfold maybe_mirror_action. intros HB. apply fine_reading.
  revert s HB. generalize (get_followers leader). intros g s.
  generalize (g s). intros l HB. revert s HB.
  induction l as [|f l IH]; intros s HB; cbn [for_each]; [done|].
  pose proof (mirror_one_fine E leader act amount f s HB) as H1.
  apply fine_bind; [done|]. intros [] s1 Hs1. apply IH. by apply (fine_Ok _ _ _ _ H1 Hs1).
Qed.

(** ** Withdrawals *)

Lemma put_queue_books s q :
  books s -> Forall (fun e => 0 <= qe_shares e) q -> sum_of qe_shares q <= queued s ->
  books (upd WqQueue (Some q) s).
Proof.
  intros HB Hq Hle. destruct HB as [B1 B2 B7 B3 B4 B5 B6].
  assert (Hsh : forall v, get_shares v (upd WqQueue (Some q) s) = get_shares v s)
    by (intros; unfold get_shares; by rdsimp).
  assert (Hrq : forall v, requested v (upd WqQueue (Some q) s) = requested v s)
    by (intros; unfold requested, get_request; by rdsimp).
  assert (Hspl : forall v, get_split_positions v (upd WqQueue (Some q) s) = get_split_positions v s)
    by (intros; unfold get_split_positions; by rdsimp).
  assert (Hn : nft_balances (upd WqQueue (Some q) s) = nft_balances s)
    by (unfold nft_balances; by rdsimp).
  assert (Hqu : get_queue (upd WqQueue (Some q) s) = q) by (unfold get_queue; by rdsimp).
  split.
  - intros u. rewrite Hsh. apply B1.
  - intros u. rewrite Hrq. apply B2.
  - intros u. rewrite Hspl. apply B7.
  - by rewrite Hqu.
  - by rewrite Hn.
  - unfold get_total_deposited. rdsimp. apply B5.
  - intros U HU. specialize (B6 U HU). unfold get_total_shares, queued, tokenized in *. rewrite Hqu, Hn.
    rdsimp. rewrite (sum_of_ext _ (fun u => hold u s)); [lia|].
    intros v _. unfold hold, own, split_total. by rewrite Hsh, Hrq, Hspl.
Qed.

(** Parking [x] of the shares of [u] in the queue. *)
Lemma enqueue_books u x s s1 t s2 :
  books s -> 0 <= x ->
  s1 = emit (mkEvent [VSym "wq_queued"] [VAddr u; VInt x])
        (upd WqQueue (Some (get_queue s ++ [mkQueueEntry u x (timestamp env)])) s) ->
  set_shares (E:=VaultError.t) env u (get_shares u s - x) s1 = Ok t s2 -> books s2.
Proof.
  intros HB Hx -> H. apply set_shares_Ok in H as (Hn & Hsh & Ho & Hf & _).
  assert (Hrd : forall k, acc k = true -> k <> KPers (ShareBalance u) -> k <> KGov WqQueue ->
            rd k s2 = rd k s).
  { intros k Hk H1 H2. rewrite Hf; [by rdsimp|].
    intros Hc. by apply share_write_acc in Hc. }
  assert (Hq : get_queue s2 = get_queue s ++ [mkQueueEntry u x (timestamp env)]).
  { unfold get_queue at 1. rewrite Hf; [by rdsimp|]. intros Hc. by apply share_write_acc in Hc. }
  assert (Hr : forall v, requested v s2 = requested v s).
  { intros v. unfold requested, get_request. by rewrite Hrd. }
  assert (Hnf : nft_balances s2 = nft_balances s) by (unfold nft_balances; by rewrite Hrd).
  assert (Hspl : forall v, get_split_positions v s2 = get_split_positions v s).
  { intros v. unfold get_split_positions. by rewrite Hrd. }
  apply (books_update s s2 u (- x) x 0).
  - exact HB.
  - intros v Hv. split; [|split; [apply Hr|apply Hspl]]. unfold get_shares. rewrite Hrd; [done..|congruence|done].
  - lia.
  - rewrite Hr. apply HB.
  - rewrite Hspl. apply HB.
  - apply own_hold; [apply Hspl|]. unfold own. rewrite Hsh, Hr. lia.
  - rewrite Hq. apply Forall_app. split; [apply HB|]. by repeat constructor.
  - rewrite Hnf. apply HB.
  - unfold queued, tokenized. rewrite Hq, Hnf, sum_of_app. simpl. lia.
  - unfold get_total_shares. rewrite Hrd by done. lia.
  - unfold get_total_deposited. rewrite Hrd by done. apply HB.
  - lia.
Qed.

Lemma do_unstake_fine u x s : books s -> fine (do_unstake env u x) s.
Proof.
  intros HB. unfold do_unstake.
  apply fine_bind_quiet; [apply quiet_fail_if|done|]. intros ? s' Hpos _ _.
  apply fail_if_Ok in Hpos as (Hpos & _ & ->). apply Z.leb_gt in Hpos.
  apply fine_reading. fq. intros ? s' H _ _. apply fail_if_Ok in H as (_ & _ & ->).
  apply fine_reading. fq. intros ? s' H _ _. apply fail_if_Ok in H as (_ & _ & ->).
  do 2 apply fine_reading. destruct (is_withdrawal_queue_enabled s).
  - fq. intros ? s' H _ _. apply fail_if_Ok in H as (_ & _ & ->).
    unfold enqueue_withdrawal. apply fine_bind_no_err.
    { unfold no_err, reading, bind, put, publish. done. }
    intros [] s1 H1. injection H1 as <-.
    apply fine_bind_no_err; [apply no_err_plain|]. intros r ? H. apply plain_Ok in H as [Hr ->].
    apply fine_bind_no_err; [apply no_err_set_shares|]. intros t s2 H2.
    apply checked_sub_Some in Hr as [-> _]. apply fine_ret.
    eapply enqueue_books; [exact HB| |reflexivity|exact H2]. lia.
  - do 3 apply fine_reading. fq. intros amount s' H _ _. apply ok_or_Ok in H as (_ & ->).
    apply fine_bind_quiet; [apply quiet_token_address|done|]. intros token s' H _ _.
    unfold token_address, reading in H. apply ok_or_Ok in H as (_ & ->).
    apply fine_reading. apply fine_bind_quiet; [|done|].
    { destruct (_ <? _); [|apply touches_ret]. apply touches_bind; [apply touches_plain|].
      intros n. apply touches_ignore, quiet_pull_strategies. }
    intros _ s1 _ Hs1 HB1. apply fine_bind_quiet; [apply touches_transfer|done|].
    intros _ s2 _ Hs2 HB2. rewrite <- (same_shares s s2 u), <- (same_total s s2)
      by (by eapply same_trans).
    apply fine_three; [done| |].
    + intros sh t (-> & _)%checked_sub_Some (-> & _)%checked_sub_Some. lia.
    + intros s3 HB3. apply fine_bind; [by apply maybe_mirror_fine|]. intros ? s4 H4.
      apply fine_ret. eapply fine_Ok; [|exact H4]. by apply maybe_mirror_fine.
Qed.

Lemma quiet_min_unstake a p : quiet (enforce_min_unstake a p).
Proof. unfold enforce_min_unstake, quiet. frames. Qed.
Lemma quiet_projected x : quiet (projected_unstake_amount x).
Proof. unfold projected_unstake_amount, quiet. frames. Qed.

Lemma unstake_fine u x s : books s -> fine (unstake env u x) s.
Proof.
  intros HB. unfold unstake. apply fine_reading.
  apply fine_bind_quiet; [apply quiet_min_unstake|done|]. intros _ s1 _ _ HB1.
  apply fine_bind_quiet; [apply quiet_projected|done|]. intros p s2 _ _ HB2.
  apply fine_bind_quiet; [apply quiet_daily|done|]. intros _ s3 _ _ HB3. by apply do_unstake_fine.
Qed.

Lemma unstake_all_fine u s : books s -> fine (unstake_all env u) s.
Proof.
  intros HB. unfold unstake_all. apply fine_reading. fq. intros _ s1 _ _ HB1.
  apply fine_bind_quiet; [apply quiet_projected|done|]. intros p s2 _ _ HB2.
  apply fine_bind_quiet; [apply quiet_daily|done|]. intros _ s3 _ _ HB3. by apply do_unstake_fine.
Qed.

Lemma withdraw_fine u x s : books s -> fine (withdraw env u x) s.
Proof.
  intros HB. unfold withdraw. apply fine_reading. fq. intros _ s1 _ _ HB1.
  apply fine_bind_quiet; [by apply touches_put|done|]. intros _ s2 _ _ HB2.
  apply fine_bind_quiet; [apply quiet_projected|done|]. intros p s3 _ _ HB3.
  apply fine_bind_quiet; [apply quiet_daily|done|]. intros _ s4 _ _ HB4.
  apply fine_bind; [by apply do_unstake_fine|]. intros r s5 H5.
  apply fine_bind_quiet; [by apply touches_del|eapply fine_Ok; [|exact H5]; by apply do_unstake_fine|].
  intros _ s6 _ _ HB6. by apply fine_ret.
Qed.

Lemma emergency_withdraw_fine u s : books s -> fine (emergency_withdraw env u) s.
Proof.
  intros HB. unfold emergency_withdraw. fq. intros _ s1 _ _ HB1.
  apply fine_bind_quiet; [apply quiet_unpause|done|]. intros _ s2 _ _ HB2.
  apply fine_reading. fq. intros _ s3 _ _ HB3. apply fine_reading. fq. intros ? s4 H4 _ HB4.
  apply fail_if_Ok in H4 as (_ & _ & ->). do 2 apply fine_reading. fq. intros amt s5 H5 _ _.
  apply ok_or_Ok in H5 as (_ & ->). apply fine_reading.
  apply fine_bind_quiet; [apply quiet_token_address|done|]. intros token s6 _ Hs6 HB6.
  apply fine_bind_quiet; [apply touches_transfer|done|]. intros _ s7 _ Hs7 HB7.
  rewrite <- (same_shares s3 s7 u), <- (same_total s3 s7) by (by eapply same_trans).
  refine (fine_three env _ _ u (Some 0) _ _ _ s7 HB7 _ _).
  - intros sh t [= <-] (-> & _)%checked_sub_Some. lia.
  - intros s8 HB8. apply fine_bind_quiet.
    + unfold set_accrued_reward, assert_non_negative, quiet. frames.
    + done.
    + intros _ s9 _ _ HB9. apply fine_bind_quiet; [apply touches_publish|done|]. intros _ s10 _ _ HB10.
      by apply fine_ret.
Qed.

(** ** Deposits and yield *)

Lemma deposited_books s d : books s -> 0 <= d -> books (upd TotalDeposited (Some d) s).
Proof.
  intros HB Hd. apply (rewritten_books s _ 1%positive (get_shares 1%positive s) (get_total_shares s) d);
    [done| |lia].
  assert (H0 : 0 <= get_total_shares s).
  { pose proof (bk_total _ HB [] (NoDup_nil_2)) as Ht. simpl in Ht. unfold queued, tokenized in Ht.
    pose proof (sum_of_nonneg qe_shares _ (bk_queue _ HB)) as H1.
    assert (H2 : 0 <= sum_of snd (map_to_list (nft_balances s))).
    { apply sum_of_nonneg, Forall_forall. intros [i x] Hi%elem_of_map_to_list.
      apply (bk_nft _ HB i x Hi). }
    lia. }
  split; [unfold get_shares; by rdsimp|]. split; [unfold get_total_shares; by rdsimp|].
  split; [unfold get_total_deposited; by rdsimp|]. split; [apply HB|]. do 2 (split; [done|]).
  intros k _ _ _ Hk. apply rd_upd_ne. congruence.
Qed.

Lemma quiet_get_admin : quiet get_admin.
Proof. unfold get_admin, quiet. frames. Qed.
Lemma quiet_require_admin : quiet (require_admin env).
Proof. unfold require_admin, quiet. apply touches_bind; [apply quiet_get_admin|frames]. Qed.
Lemma quiet_require_admin_as a : quiet (require_admin_as env a).
Proof. unfold require_admin_as, quiet. apply touches_bind; [apply quiet_get_admin|frames]. Qed.
Lemma quiet_require_not_paused : quiet (require_not_paused env).
Proof. unfold require_not_paused, quiet. apply touches_bind; [apply quiet_unpause|frames]. Qed.
Lemma quiet_admin_action E : quiet (increment_admin_action_count (E:=E)).
Proof. unfold increment_admin_action_count, quiet. frames. Qed.

(** [commits m s]: a value returned by [m] comes with good books.  Deposits
    need no more, because an error of theirs is never caught. *)
Definition commits {E A} (m : M E A) s : Prop := forall a s', m s = Ok a s' -> books s'.

Lemma fine_commits E A (m : M E A) s : fine m s -> commits m s.
Proof. intros H a s' Hm. by apply (fine_Ok _ _ _ _ H Hm). Qed.
Lemma commits_reading E A B (f : State -> A) (k : A -> M E B) s :
  commits (k (f s)) s -> commits (reading f k) s.
Proof. done. Qed.
Lemma commits_bind E A B (m : M E A) (k : A -> M E B) s :
  (forall a s1, m s = Ok a s1 -> commits (k a) s1) -> commits (bind m k) s.
Proof. intros H b s' (a & s1 & H1 & H2)%bind_Ok. exact (H a s1 H1 b s' H2). Qed.
Lemma commits_quiet E A B (m : M E A) (k : A -> M E B) s :
  quiet m -> books s -> (forall a s1, books s1 -> commits (k a) s1) -> commits (bind m k) s.
Proof.
  intros Hq HB Hk. apply commits_bind. intros a s1 H1. apply Hk.
  apply (books_same s); [|done]. by apply (quiet_same _ _ _ _ _ _ Hq H1).
Qed.
Lemma commits_ret E A (a : A) s : books s -> commits (ret (E:=E) a) s.
Proof. intros HB b s' H. apply ret_Ok in H as [_ ->]. done. Qed.

Create HintDb quiet discriminated.
Hint Constants Opaque : quiet.
Hint Resolve quiet_no_sunset quiet_seeded quiet_register_depositor quiet_token_address quiet_pull
  quiet_deposit_cap quiet_register_staker quiet_lock_deposit quiet_record quiet_low_balance quiet_notify
  quiet_daily quiet_fail_if quiet_ok_or quiet_publish quiet_auth quiet_plain quiet_unpause
  quiet_get_admin quiet_require_admin quiet_require_admin_as quiet_require_not_paused quiet_admin_action
  : quiet.
Ltac cq := apply commits_quiet; [solve [auto with quiet]|assumption|]; intros ? ? ?.

Lemma add_yield_commits a x s : books s -> commits (add_yield env a x) s.
Proof.
  intros HB. unfold add_yield. do 7 cq. apply commits_reading.
  apply commits_bind. intros d st Hd. apply ok_or_Ok in Hd as [_ ->].
  apply commits_bind. intros ? st' Hs. apply set_total_deposited_Ok in Hs as [Hd ->].
  match goal with |- commits _ ?r => assert (books r) by (by apply deposited_books) end.
  do 3 cq. intros ? ? Hi. revert Hi. apply fine_commits, fine_quiet; auto with quiet.
Qed.

(** The writes of a deposit: the minted shares go to the depositor and to the
    total alike. *)
Lemma commits_three A u (m1 m2 m3 : M VaultError.t Z) f1 f2 f3 (k : M VaultError.t A) s :
  books s -> (forall s a s', m1 s = Ok a s' -> f1 = Some a /\ s' = s) ->
  (forall s a s', m2 s = Ok a s' -> f2 = Some a /\ s' = s) ->
  (forall s a s', m3 s = Ok a s' -> f3 = Some a /\ s' = s) ->
  (forall sh t, f1 = Some sh -> f2 = Some t -> sh - get_shares u s <= t - get_total_shares s) ->
  (forall s', books s' -> commits k s') ->
  commits (let! sh := m1 in set_shares env u sh ;;; let! t := m2 in
           set_total_shares env t ;;; let! d := m3 in set_total_deposited d ;;; k) s.
Proof.
  intros HB E1 E2 E3 Hle Hk.
  apply commits_bind. intros sh ? H. apply E1 in H as [-> ->].
  apply commits_bind. intros ? s1 H1.
  apply commits_bind. intros t ? H. apply E2 in H as [-> ->].
  apply commits_bind. intros ? s2 H2.
  apply commits_bind. intros d ? H. apply E3 in H as [-> ->].
  apply commits_bind. intros ? s3 H3.
  apply Hk. destruct (three_writes _ _ _ _ _ _ _ _ _ _ _ _ _ H1 H2 H3) as (Hr & _ & _).
  eapply rewritten_books; [exact HB|exact Hr|]. by apply Hle.
Qed.

Lemma stake_tail E u act sh s (k : M E Z) :
  books s -> (forall s', books s' -> commits k s') ->
  commits (maybe_mirror_action env u MStake act ;;; record env u Deposit act sh ;;;
           check_and_emit_low_balance env ;;; k) s.
Proof.
  intros HB Hk. apply commits_bind. intros ? s1 H1.
  assert (HB1 : books s1) by (eapply fine_Ok; [|exact H1]; by apply maybe_mirror_fine).
  do 2 cq. by apply Hk.
Qed.

Ltac opt_case := let H := fresh in intros ? ? ? H;
  first [apply ok_or_Ok in H | apply plain_Ok in H]; exact H.
Ltac both_add := let H := fresh in let H' := fresh in intros ? ? H H';
  apply checked_add_Some in H as [-> _]; apply checked_add_Some in H' as [-> _]; lia.

Lemma quiet_first_stake E u (b : bool) : quiet (if b then register_staker (E:=E) u else ret tt).
Proof. destruct b; [apply quiet_register_staker|apply touches_ret]. Qed.

Lemma stake_commits u x s : books s -> commits (stake env u x) s.
Proof.
  intros HB. unfold stake. do 8 cq. do 3 apply commits_reading.
  apply commits_bind. intros n ? Hn. apply ok_or_Ok in Hn as [Hn ->]. apply commits_reading.
  eapply commits_three; [assumption|opt_case|opt_case|opt_case|both_add|].
  intros r1 HR1. apply commits_quiet; [apply quiet_first_stake|done|]. intros _ r2 HR2.
  cq. apply stake_tail; [done|]. intros r3 HR3. cq. by apply commits_ret.
Qed.

Lemma do_stake_inner_commits u x m s : books s -> commits (do_stake_inner env u x m) s.
Proof.
  intros HB. unfold do_stake_inner. apply commits_reading. do 7 cq. do 3 apply commits_reading.
  apply commits_bind. intros n ? Hn. apply ok_or_Ok in Hn as [Hn ->].
  apply commits_bind. intros ? ? Hm. apply fail_if_Ok in Hm as (_ & _ & ->). apply commits_reading.
  eapply commits_three; [assumption|opt_case|opt_case|opt_case|both_add|].
  intros r1 HR1. apply commits_quiet; [apply quiet_first_stake|done|]. intros _ r2 HR2.
  cq. apply stake_tail; [done|]. intros r3 HR3. by apply commits_ret.
Qed.

(** ** Shares parked in requests and tokens *)

(** [s'] is [s] after a share write of [u] and writes outside the books, a
    pending request of [u] and the token balances excepted. *)
Lemma parked_books s s' u sh d dp :
  books s -> (forall k, acc k = true -> k <> KPers (ShareBalance u) -> k <> KPers (WithdrawalReq u) ->
    k <> KGov NftBalances -> rd k s' = rd k s) ->
  get_shares u s' = sh -> 0 <= sh -> 0 <= requested u s' -> own u s' = own u s + d ->
  map_Forall (fun _ x => 0 <= x) (nft_balances s') -> tokenized s' <= tokenized s + dp -> d + dp <= 0 ->
  books s'.
Proof.
  intros HB Hf Hsh H0 Hr Hh Hn Hp Hle.
  assert (Hq : get_queue s' = get_queue s) by (unfold get_queue; by rewrite Hf).
  assert (Hspl : forall v, get_split_positions v s' = get_split_positions v s).
  { intros v. unfold get_split_positions. by rewrite Hf. }
  apply (books_update s s' u d dp 0).
  - exact HB.
  - intros v Hv. split_and!; [..|apply Hspl]; unfold get_shares, requested, get_request; rewrite !Hf; first [done|congruence|by injection 1].
  - by rewrite Hsh.
  - done.
  - rewrite Hspl. apply HB.
  - by apply own_hold.
  - rewrite Hq. apply HB.
  - done.
  - unfold queued. rewrite Hq. lia.
  - unfold get_total_shares. rewrite Hf by done. lia.
  - unfold get_total_deposited. rewrite Hf by done. apply HB.
  - lia.
Qed.

Lemma set_shares_rd E u x s y s' k :
  set_shares (E:=E) env u x s = Ok y s' -> acc k = true -> k <> KPers (ShareBalance u) -> rd k s' = rd k s.
Proof.
  intros H Ha Hk. apply set_shares_Ok in H as (_ & _ & _ & Hf & _). apply Hf.
  intros Hc. by apply share_write_acc in Hc.
Qed.

Lemma request_withdrawal_commits u x s : books s -> commits (request_withdrawal env u x) s.
Proof.
  intros HB. unfold request_withdrawal. cq. apply commits_bind. intros ? ? Hx.
  apply fail_if_Ok in Hx as (Hx%Z.leb_gt & _ & ->). apply commits_reading.
  apply commits_bind. intros ? ? Hc. apply fail_if_Ok in Hc as (_ & _ & ->).
  apply commits_bind. intros r ? Hr. apply plain_Ok in Hr as [[-> _]%checked_sub_Some ->].
  clear HB; match goal with HB0 : books ?st |- commits _ ?st => rename st into s0, HB0 into HB end.
  apply commits_bind. intros ? s1 H1. apply commits_bind. intros ? s2 H2. apply put_Ok in H2 as [_ ->].
  pose proof (set_shares_rd _ _ _ _ _ _ (KPers (WithdrawalReq u)) H1 eq_refl ltac:(done)) as Hrq.
  pose proof (fun k => set_shares_rd _ _ _ _ _ _ k H1) as Hf.
  apply set_shares_Ok in H1 as (H0 & Hsh & _).
  assert (books (upd (WithdrawalReq u) (Some (mkWithdrawalRequest x (sequence env))) s1)).
  { set (s2 := upd _ _ s1).
    assert (Hs2 : get_shares u s2 = get_shares u s0 - x) by (unfold get_shares in *; by subst s2; rdsimp).
    assert (Hr2 : requested u s2 = x) by (unfold requested, get_request; by subst s2; rdsimp).
    assert (Hn2 : nft_balances s2 = nft_balances s0).
    { unfold nft_balances. subst s2. rdsimp. by rewrite Hf. }
    apply (parked_books s0 s2 u (get_shares u s0 - x) (- requested u s0) 0).
    - done.
    - intros k Ha Hk1 Hk2 _. subst s2. rewrite rd_upd_ne by congruence. by apply Hf.
    - done.
    - done.
    - lia.
    - unfold own. rewrite Hs2, Hr2. lia.
    - rewrite Hn2. apply HB.
    - unfold tokenized. rewrite Hn2. lia.
    - pose proof (bk_request _ HB u). lia. }
  intros ? ? Hp. apply publish_Ok in Hp as [_ ->]. by apply (books_same _ _ (fun k _ => rd_emit k _ _)).
Qed.

Lemma execute_withdrawal_commits u s : books s -> commits (execute_withdrawal env u) s.
Proof.
  intros HB. unfold execute_withdrawal. cq. apply commits_reading.
  apply commits_bind. intros rq ? Hq. apply ok_or_Ok in Hq as [Hq ->]. apply commits_reading. cbv zeta.
  apply commits_bind. intros ? ? Hc. apply fail_if_Ok in Hc as (_ & _ & ->).
  clear HB; match goal with HB0 : books ?st |- commits _ ?st => rename st into s0, HB0 into HB end.
  apply commits_bind. intros ? s1 H1. apply del_Ok in H1 as [_ ->]. apply commits_reading.
  apply commits_bind. intros r ? Hr. apply plain_Ok in Hr as [[-> _]%checked_add_Some ->].
  apply commits_bind. intros ? s2 H2.
  pose proof (fun k => set_shares_rd _ _ _ _ _ _ k H2) as Hf.
  apply set_shares_Ok in H2 as (H0 & Hsh & _). unfold get_shares at 2 in Hsh.
  revert Hsh. rewrite rd_upd_ne by done. fold (get_shares u s0). intros Hsh.
  apply fine_commits, do_unstake_fine.
  assert (Hr0 : requested u s0 = wr_shares rq) by (unfold requested; by rewrite Hq).
  assert (Hr2 : requested u s2 = 0).
  { unfold requested, get_request. rewrite Hf by done. by rdsimp. }
  assert (Hn2 : nft_balances s2 = nft_balances s0).
  { unfold nft_balances. rewrite Hf by done. by rdsimp. }
  apply (parked_books s0 s2 u (get_shares u s0 + wr_shares rq) 0 0).
  - done.
  - intros k Ha Hk1 Hk2 _. rewrite Hf by done. by apply rd_upd_ne.
  - done.
  - pose proof (bk_shares _ HB u). pose proof (bk_request _ HB u). lia.
  - lia.
  - unfold own. lia.
  - rewrite Hn2. apply HB.
  - unfold tokenized. rewrite Hn2. lia.
  - lia.
Qed.

Lemma sum_insert (m : gmap Z Z) i x :
  map_Forall (fun _ x => 0 <= x) m -> sum_of snd (map_to_list (<[i:=x]> m)) <= sum_of snd (map_to_list m) + x.
Proof.
  intros Hm. destruct (m !! i) as [y|] eqn:Hi.
  - rewrite <- insert_delete_eq.
    rewrite (sum_of_perm _ _ _ (map_to_list_insert (delete i m) i x (lookup_delete_eq m i))).
    rewrite <- (sum_of_perm _ _ _ (map_to_list_delete m i y Hi)). simpl. pose proof (Hm i y Hi). simpl in *. lia.
  - rewrite (sum_of_perm _ _ _ (map_to_list_insert m i x Hi)). simpl. lia.
Qed.
Lemma sum_delete (m : gmap Z Z) i :
  sum_of snd (map_to_list (delete i m)) = sum_of snd (map_to_list m) - default 0 (m !! i).
Proof.
  destruct (m !! i) as [y|] eqn:Hi; simpl.
  - rewrite <- (sum_of_perm _ _ _ (map_to_list_delete m i y Hi)). simpl. lia.
  - rewrite delete_id by done. lia.
Qed.

Lemma tokenize_commits u s : books s -> commits (tokenize_position env u) s.
Proof.
  intros HB. unfold tokenize_position. cq. apply commits_reading.
  apply commits_bind. intros ? ? Hx. apply fail_if_Ok in Hx as (Hx%Z.leb_gt & _ & ->).
  clear HB; match goal with HB0 : books ?st |- commits _ ?st => rename st into s0, HB0 into HB end.
  apply commits_bind. intros ? s1 H1.
  pose proof (fun k => set_shares_rd _ _ _ _ _ _ k H1) as Hf.
  apply set_shares_Ok in H1 as (_ & Hsh & _). apply commits_reading. cbv zeta.
  apply commits_bind. intros next ? Hn. apply plain_Ok in Hn as [_ ->].
  set (id := default 1 _). intros b s' H. mrun H.
  set (bals := nft_balances _). set (s2 := upd NftBalances _ _).
  assert (Hb : bals = nft_balances s0).
  { subst bals. unfold nft_balances. rdsimp. by rewrite Hf. }
  assert (Hn2 : nft_balances s2 = <[id := get_shares u s0]> (nft_balances s0)).
  { rewrite <- Hb. unfold nft_balances at 1. subst s2. by rdsimp. }
  apply (books_same s2); [by intros k _; apply rd_emit|].
  assert (Hs2 : get_shares u s2 = 0) by (unfold get_shares in *; by subst s2; rdsimp).
  assert (Hr2 : requested u s2 = requested u s0).
  { unfold requested, get_request. subst s2. rdsimp. by rewrite Hf. }
  apply (parked_books s0 s2 u 0 (- get_shares u s0) (get_shares u s0)).
  - done.
  - intros k Ha Hk1 Hk2 Hk3. subst s2. rewrite !rd_upd_ne by (congruence || by intros <-). by apply Hf.
  - done.
  - done.
  - rewrite Hr2. apply HB.
  - unfold own. lia.
  - rewrite Hn2. apply map_Forall_insert_2; [apply HB|apply HB].
  - unfold tokenized. rewrite Hn2. apply sum_insert, HB.
  - lia.
Qed.

Lemma redeem_commits u id s : books s -> commits (redeem_position_nft env u id) s.
Proof.
  intros HB. unfold redeem_position_nft. cq. apply commits_reading.
  apply commits_bind. intros ? ? Ho. apply fail_if_Ok in Ho as (_ & _ & ->).
  clear HB; match goal with HB0 : books ?st |- commits _ ?st => rename st into s0, HB0 into HB end.
  apply commits_reading. cbv zeta. set (x := default 0 _).
  apply commits_bind. intros ? s1 H1. apply put_Ok in H1 as [_ ->].
  apply commits_bind. intros ? s1 H1. apply put_Ok in H1 as [_ ->]. set (s1 := upd NftBalances _ _).
  apply commits_reading. apply commits_bind. intros r ? Hr. apply plain_Ok in Hr as [[-> _]%checked_add_Some ->].
  apply commits_bind. intros ? s2 H2. pose proof (fun k => set_shares_rd _ _ _ _ _ _ k H2) as Hf.
  apply set_shares_Ok in H2 as (_ & Hsh & _).
  assert (Hs1 : get_shares u s1 = get_shares u s0) by (unfold get_shares; by subst s1; rdsimp).
  assert (Hx : 0 <= x).
  { subst x. destruct (nft_balances s0 !! id) as [y|] eqn:Hy; [|done]. apply (bk_nft _ HB id y Hy). }
  assert (Hn2 : nft_balances s2 = delete id (nft_balances s0)).
  { unfold nft_balances at 1. rewrite Hf by done. subst s1. by rdsimp. }
  assert (Hr2 : requested u s2 = requested u s0).
  { unfold requested, get_request. rewrite Hf by done. subst s1. by rdsimp. }
  assert (books s2).
  { apply (parked_books s0 s2 u (get_shares u s1 + x) x (- x)).
    - done.
    - intros k Ha Hk1 Hk2 Hk3. rewrite Hf by done. subst s1. rewrite !rd_upd_ne by (congruence || by intros <-). done.
    - done.
    - pose proof (bk_shares _ HB u). lia.
    - rewrite Hr2. apply HB.
    - unfold own. lia.
    - rewrite Hn2. apply map_Forall_delete, HB.
    - unfold tokenized. rewrite Hn2, sum_delete. fold x. lia.
    - lia. }
  intros ? ? Hp. apply publish_Ok in Hp as [_ ->]. by apply (books_same _ _ (fun k _ => rd_emit k _ _)).
Qed.

(** ** The withdrawal queue *)

(** Nothing called while the queue is being processed takes entries out. *)
Definition queue_grows {E A} (m : M E A) : Prop := forall s,
  match m s with
  | Ok _ s' | Err _ s' => exists l, get_queue s' = get_queue s ++ l
  | Trap _ => True
  end.

Lemma grows_touches {E A} (m : M E A) : touches (fun k => k <> KGov WqQueue) m -> queue_grows m.
Proof.
  intros Ht s. specialize (Ht s). destruct (m s); [..|done]; exists []; rewrite app_nil_r;
    unfold get_queue; by rewrite Ht by (intros H; by apply H).
Qed.
Lemma grows_quiet {E A} (m : M E A) : quiet m -> queue_grows m.
Proof. intros Hq. apply grows_touches. eapply touches_weaken; [|exact Hq]. by intros k Hk ->. Qed.
Lemma grows_bind {E A B} (m : M E A) (k : A -> M E B) :
  queue_grows m -> (forall a, queue_grows (k a)) -> queue_grows (bind m k).
Proof.
  intros Hm Hk s. unfold bind. specialize (Hm s). destruct (m s) as [a s1|e s1|t]; [|done..].
  destruct Hm as [l Hl]. specialize (Hk a s1). destruct (k a s1) as [b s2|e s2|t]; [..|done];
    destruct Hk as [l' Hl']; exists (l ++ l'); by rewrite Hl', Hl, app_assoc.
Qed.
Lemma grows_reading {E A B} (f : State -> A) (k : A -> M E B) :
  (forall a, queue_grows (k a)) -> queue_grows (reading f k).
Proof. intros H s. apply H. Qed.

Lemma grows_set_shares E u x : queue_grows (set_shares (E:=E) env u x).
Proof.
  apply grows_touches. eapply touches_weaken; [|apply set_shares_touches].
  intros k Hk ->. by apply share_write_acc in Hk.
Qed.
Lemma grows_set_total_shares E x : queue_grows (set_total_shares (E:=E) env x).
Proof.
  apply grows_touches. eapply touches_weaken; [|apply set_total_shares_touches].
  intros k Hk ->. destruct Hk as [Hk|Hk]; done.
Qed.
Lemma grows_set_total_deposited E x : queue_grows (set_total_deposited (E:=E) x).
Proof. apply grows_touches. unfold set_total_deposited. frames. Qed.

Create HintDb grows discriminated.
Hint Constants Opaque : grows.
Hint Resolve grows_set_shares grows_set_total_shares grows_set_total_deposited grows_quiet : grows.
Ltac grow := repeat
  lazymatch goal with
  | |- queue_grows (bind _ _) => apply grows_bind; [|intros ?]
  | |- queue_grows (reading _ _) => apply grows_reading; intros ?
  | |- queue_grows (ret _) => apply grows_quiet, touches_ret
  | |- queue_grows (if ?b then _ else _) => destruct b
  | |- queue_grows (match ?o with _ => _ end) => destruct o
  | _ => solve [auto with grows quiet]
  end.

Lemma grows_mirror E leader act amount : queue_grows (maybe_mirror_action (E:=E) env leader act amount).
Proof.
  unfold maybe_mirror_action. apply grows_reading. intros l.
  induction l as [|f l IH]; cbn [for_each]; [grow|]. apply grows_bind; [|intros _; apply IH].
  unfold mirror_one. apply grows_reading. intros cfg. destruct cfg; [|grow]. destruct (_ || _); [grow|].
  cbv zeta. destruct (_ <=? 0); [grow|].
  destruct act; unfold mirror_stake, mirror_unstake, mirror_failed, mirror_executed; cbv zeta; grow.
Qed.

Lemma grows_enqueue E u x : queue_grows (enqueue_withdrawal (E:=E) env u x).
Proof.
  intros s. exists [mkQueueEntry u x (timestamp env)].
  unfold get_queue at 1. rewrite rd_emit, rd_upd_eq. reflexivity.
Qed.

Lemma grows_do_unstake u x : queue_grows (do_unstake env u x).
Proof.
  unfold do_unstake. grow; try apply grows_mirror.
  - apply grows_enqueue.
  - apply grows_quiet, touches_ignore, quiet_pull_strategies.
  - apply grows_quiet, touches_transfer.
Qed.

Lemma process_loop_books n q s l1 l2 q' s' :
  books s -> get_queue s = l1 ++ q ++ l2 -> process_loop env n q s = Ok q' s' ->
  books s' /\ exists l1 l2, get_queue s' = l1 ++ q' ++ l2.
Proof.
  revert q s l1 l2. induction n as [|n IH]; intros [|e q] s l1 l2 HB Hq H; cbn [process_loop] in H;
    try (apply ret_Ok in H as [-> ->]; by eauto).
  apply bind_Ok in H as (r & s1 & H1 & H).
  pose proof (do_unstake_fine (qe_user e) (qe_shares e) s HB) as Hf.
  pose proof (grows_do_unstake (qe_user e) (qe_shares e) s) as Hg. unfold catch in H1. unfold fine in Hf.
  destruct (do_unstake env (qe_user e) (qe_shares e) s) as [a s2|er s2|t]; [..|done]; injection H1 as <- <-;
    destruct Hg as [l Hl].
  - apply bind_Ok in H as (u & s3 & H3 & H). apply publish_Ok in H3 as [_ ->].
    apply (IH q (emit (mkEvent [VSym "wq_proc"] [VAddr (qe_user e); VInt (qe_shares e)]) s2)
             (l1 ++ [e]) (l2 ++ l)); [|unfold get_queue; rewrite rd_emit; fold (get_queue s2)|exact H].
    + by apply (books_same s2 _ (fun k _ => rd_emit k _ _)).
    + rewrite Hl, Hq, <- !app_assoc. done.
  - apply ret_Ok in H as [-> ->]. split; [done|]. exists l1, (l2 ++ l).
    rewrite Hl, Hq, <- !app_assoc. done.
Qed.

Lemma process_queue_commits a n s : books s -> commits (process_withdrawal_queue env a n) s.
Proof.
  intros HB. unfold process_withdrawal_queue. do 2 cq. apply commits_reading.
  clear HB; match goal with HB0 : books ?st |- commits _ ?st => rename st into s0, HB0 into HB end.
  intros b s' (q & r1 & H1 & H2)%bind_Ok. apply put_Ok in H2 as [_ ->].
  destruct (process_loop_books _ _ _ [] [] _ _ HB ltac:(by rewrite app_nil_r) H1) as (HB1 & l1 & l2 & Hl).
  pose proof (bk_queue _ HB1) as Hall. rewrite Hl in Hall.
  apply Forall_app in Hall as [Hall1 [Hall2 Hall3]%Forall_app].
  apply put_queue_books; [done..|]. unfold queued. rewrite Hl, !sum_of_app.
  pose proof (sum_of_nonneg _ _ Hall1). pose proof (sum_of_nonneg _ _ Hall3). lia.
Qed.

End Ops.
