(* ===== verification/PositionProofs.v ===== *)
(** * What operations on positions do to the books

    Inversion lemmas for the operations of [Positions.v]: what a successful
    split, merge, transfer or inheritance leaves in the share balances and split
    lists, and which other entries it can touch. *)

From S2P Require Import Prelude Errors Storage Host Concrete Accessors Admin Shares RewardMath MultiReward.
From S2P Require Import Accumulator Accrual Rewards Checkpoints Balance Pause RewardRate Limits Notify Mirror.
From S2P Require Import Strategies Vault ClaimFees Peg Claims Leaderboard Positions VaultBooks VaultInv.

Section Settle.
Context {W : World} {B : Bootstrap W} {BL : BootstrapLaws W B} (env : Env) (fuel : nat).
Implicit Types s : State.

(** ** What settling may write *)

Definition settle_key (u : Address) (k : key) : Prop :=
  accrual_key u k \/ k = KGov EpochSt \/ k = KPers (BeneficiaryOf u).

Lemma touches_settle_bootstrap K :
  K (KGov BootstrapCfg) -> K (KInst RewardRateBps) -> touches K maybe_settle_bootstrap.
Proof.
  intros H1 H2 s. destruct (settle_bootstrap s) as (s' & -> & Hf & _). intros k Hk. apply Hf; naive_solver.
Qed.

Lemma touches_lift K r : touches K (lift_arith r).
Proof. destruct r; simpl; auto with frame. Qed.

Lemma touches_walk K n cfg sh base st e : forall c m tiers total,
  touches K (walk env n cfg sh base st e c m tiers total).
Proof.
  induction n as [|n IH]; intros c m tiers total; cbn [walk]; [frames|].
  unfold next_halving_boundary, emit_halving.
  repeat first [ apply IH | apply touches_lift | progress frames
               | progress cbv zeta
               | match goal with |- touches _ (let (_, _) := ?p in _) => destruct p end ].
Qed.

Lemma touches_window K n cfg sh base st a b : touches K (window_dust env n cfg sh base st a b).
Proof.
  unfold window_dust.
  repeat first [ apply touches_walk | apply touches_lift | progress frames | progress cbv zeta
               | match goal with |- touches _ (let (_, _) := ?p in _) => destruct p end ].
Qed.

Lemma touches_between (K : key -> Prop) u sh a b persist :
  K (KPers (RewardRemainder u)) -> touches K (reward_between_ledgers env fuel u sh a b persist).
Proof.
  intros HK. unfold reward_between_ledgers, set_reward_remainder.
  repeat first [ apply touches_window | progress frames | by apply touches_put | progress cbv zeta ].
Qed.

Lemma touches_budget (K : key -> Prop) E q : K (KGov EpochSt) -> touches K (apply_budget (E:=E) env q).
Proof.
  intros HK. unfold apply_budget.
  repeat first [ progress frames | by apply touches_put | progress cbv zeta
               | match goal with |- touches _ (let (_, _) := ?p in _) => destruct p end ].
Qed.

Lemma touches_accrue u sh : touches (settle_key u) (accrue_rewards env fuel u sh).
Proof.
  unfold accrue_rewards, set_reward_checkpoint_ledger, set_accrued_reward, checkpoint_user, maybe_emit_season_transition.
  assert (Hk : forall k, accrual_key u k -> settle_key u k) by (by left).
  repeat first
    [ apply touches_between; apply Hk; unfold accrual_key; by auto
    | apply touches_budget; unfold settle_key; by auto
    | apply touches_settle_bootstrap; apply Hk; unfold accrual_key; by auto 20
    | apply touches_ignore; eapply touches_weaken; [|apply update_touches];
        intros ? ?; apply Hk; unfold accrual_key; by auto 20
    | apply touches_put; apply Hk; unfold accrual_key; by auto 20
    | apply touches_del; apply Hk; unfold accrual_key; by auto 20
    | progress frames | progress cbv zeta ].
Qed.

Lemma touches_settle_position u : touches (settle_key u) (settle_position env fuel u).
Proof.
  unfold settle_position, touch.
  repeat first [ apply touches_accrue | apply touches_put; unfold settle_key; by auto
               | apply touches_try | progress frames ].
Qed.

End Settle.

(** ** Splits and merges *)

Section Splits.
Context {W : World} {B : Bootstrap W} {BL : BootstrapLaws W B} (env : Env) (fuel : nat).
Implicit Types s : State.

(** Entries outside the books that settling and reshaping leave alone. *)
Definition beside (k : key) : bool :=
  match k with
  | KPers (StakedAtLedger _) | KInst AllStakers | KInst Token | KInst RewardToken | KInst RewardPoolBalance => true
  | _ => false
  end.

(** [s'] has, for [u], the primary shares [sh] and the split list [l]; other
    entries of the books, and where stakes began, are those of [s]. *)
Record reshaped (u : Address) (sh : Z) (l : list StakePosition) s s' : Prop := {
  rs_shares : get_shares u s' = sh;
  rs_nonneg : 0 <= get_shares u s -> 0 <= sh;
  rs_splits : get_split_positions u s' = l;
  rs_books : forall k, acc k = true -> k <> KPers (ShareBalance u) -> k <> KPos (SplitPositions u) -> rd k s' = rd k s;
  rs_beside : forall k, beside k = true -> rd k s' = rd k s;
  rs_ext : st_ext s' = st_ext s
}.

Definition position_of (u : Address) (id : Z) s : option (Z * Z) :=
  if id =? 0 then
    if get_shares u s <=? 0 then None
    else Some (get_shares u s, default 0 (rd (StakedAtLedger u) s))
  else (fun p => (sp_amount p, sp_staked_at_ledger p)) <$> get_split_positions u s !! Z.to_nat (id - 1).

Lemma position_info_Ok u id s r s' :
  position_info u id s = Ok r s' <-> s' = s /\ position_of u id s = Some r.
Proof.
  unfold position_info, position_of. destruct (id =? 0).
  - unfold reading at 1. unfold bind, fail_if. destruct (_ <=? 0); cbn; unfold reading, ret, throw; naive_solver.
  - unfold reading, bind, ok_or. destruct (_ !! _); cbn; unfold ret, throw; naive_solver.
Qed.

(** The list and shares that writing position [id] gives. *)
Definition written (u : Address) (id amount staked_at now : Z) s : Z * list StakePosition :=
  if id =? 0 then (amount, get_split_positions u s)
  else (get_shares u s,
        <[Z.to_nat (id - 1) := mkStakePosition amount staked_at now]> (get_split_positions u s)).

Lemma write_position_Ok E u id amount st s l s' :
  write_position (E:=E) env u id amount st (get_split_positions u s) s = Ok l s' ->
  l = (written u id amount st (sequence env) s).2 /\
  get_shares u s' = (written u id amount st (sequence env) s).1 /\ (id = 0 -> 0 <= amount) /\
  (forall k, ~ share_write_keys u k -> k <> KPos (LastClaimLedger u) -> rd k s' = rd k s) /\
  st_ext s' = st_ext s.
Proof.
  unfold write_position, written. destruct (Z.eqb_spec id 0) as [->|Hid]; intros H.
  - apply bind_Ok in H as (? & s1 & H1 & H). apply set_shares_Ok in H1 as (Hn & Hs & _ & Hf & He).
    apply bind_Ok in H as (? & s2 & H2 & H). apply put_Ok in H2 as [_ ->]. apply ret_Ok in H as [-> ->].
    split_and!; [done| |done| |done].
    + unfold get_shares in *. by rdsimp.
    + intros k Hk Hl. rewrite rd_upd_ne by congruence. by apply Hf.
  - unfold vec_set in H. destruct (_ !! _); [|done]. apply ret_Ok in H as [-> ->]. by split_and!.
Qed.

Lemma settle_position_Ok u s x s' :
  settle_position env fuel u s = Ok x s' -> forall k, ~ settle_key u k -> rd k s' = rd k s.
Proof. intros H k Hk. by apply (touches_Ok _ _ _ _ _ k (touches_settle_position env fuel u) H). Qed.

Lemma ensure_slot_Ok u s x s' : ensure_position_slot u s = Ok x s' -> s' = s.
Proof. intros H. unfold ensure_position_slot in H. mrun H; done. Qed.

(** Settling moves no token. *)
Lemma keeps_walk n cfg sh base st e : forall c m tiers total,
  keeps_ext (walk env n cfg sh base st e c m tiers total).
Proof.
  induction n as [|n IH]; intros c m tiers total; cbn [walk]; [frames|].
  unfold next_halving_boundary, emit_halving.
  repeat first [ apply IH | progress frames | progress cbv zeta
               | match goal with |- keeps_ext (let (_, _) := ?p in _) => destruct p
                               | |- keeps_ext (lift_arith ?r) => destruct r; simpl end ].
Qed.
Lemma keeps_settle_bootstrap : keeps_ext maybe_settle_bootstrap.
Proof. intros s. by destruct (settle_bootstrap s) as (s' & -> & _ & He). Qed.
Lemma keeps_accrue u sh : keeps_ext (accrue_rewards env fuel u sh).
Proof.
  unfold accrue_rewards, reward_between_ledgers, window_dust, set_reward_remainder, apply_budget,
    set_reward_checkpoint_ledger, set_accrued_reward, checkpoint_user, maybe_emit_season_transition.
  repeat first [ apply keeps_walk | apply keeps_settle_bootstrap
               | apply keeps_ignore, update_keeps | progress frames | progress cbv zeta
               | match goal with |- keeps_ext (let (_, _) := ?p in _) => destruct p
                               | |- keeps_ext (lift_arith ?r) => destruct r; simpl end ].
Qed.
Lemma settle_position_keeps u : keeps_ext (settle_position env fuel u).
Proof.
  unfold settle_position, touch.
  repeat first [ apply keeps_accrue | apply keeps_try | progress frames ].
Qed.

Lemma books_not_settled u k : acc k = true -> ~ settle_key u k.
Proof. intros Ha Hk. unfold settle_key, accrual_key, accumulator_key in Hk. naive_solver. Qed.
Lemma beside_not_settled u k : beside k = true -> ~ settle_key u k.
Proof. intros Ha Hk. unfold settle_key, accrual_key, accumulator_key in Hk. naive_solver. Qed.
Lemma beside_not_shares u k : beside k = true -> ~ share_write_keys u k.
Proof. by intros Ha [->|[->|[->|(t & [->| ->])]]]. Qed.

Lemma reshaped_emit u sh l s s' e : reshaped u sh l s s' -> reshaped u sh l s (emit e s').
Proof. intros []. by split. Qed.

(** Settling, writing position [id] and storing the list. *)
Lemma reshape_Ok E u id amount st s x s1 l s2 l' :
  settle_position env fuel u s = Ok x s1 ->
  write_position (E:=E) env u id amount st (get_split_positions u s1) s1 = Ok l s2 -> 0 <= amount ->
  l = (written u id amount st (sequence env) s).2 /\
  reshaped u (written u id amount st (sequence env) s).1 l' s (upd (SplitPositions u) (Some l') s2).
Proof.
  intros H1 H2 Hn. pose proof (settle_position_Ok _ _ _ _ H1) as Hf1.
  pose proof (keeps_ext_Ok _ _ _ _ (settle_position_keeps u) H1) as He1.
  apply write_position_Ok in H2 as (-> & Hsh & _ & Hf2 & He2).
  assert (Hw : written u id amount st (sequence env) s1 = written u id amount st (sequence env) s).
  { unfold written, get_shares, get_split_positions. by rewrite !Hf1 by by apply books_not_settled. }
  rewrite Hw in *. split; [done|]. split.
  - unfold get_shares in *. by rdsimp.
  - intros ?. unfold written. by destruct (id =? 0).
  - unfold get_split_positions. by rdsimp.
  - intros k Ha Hk1 Hk2. rewrite rd_upd_ne by congruence. rewrite Hf2, Hf1; [done|..].
    + by apply books_not_settled.
    + intros Hc. by apply share_write_acc in Hc.
    + by intros ->.
  - intros k Ha. rewrite rd_upd_ne by by intros <-. rewrite Hf2, Hf1; [done|..].
    + by apply beside_not_settled.
    + by apply beside_not_shares.
    + by intros ->.
  - etransitivity; [exact He2|exact He1].
Qed.

Lemma split_position_Ok u id x s n s' :
  split_position env fuel u id x s = Ok n s' ->
  exists amt st, position_of u id s = Some (amt, st) /\ 0 < x < amt /\
    let w := written u id (amt - x) st (sequence env) s in
    let l := w.2 ++ [mkStakePosition x st (sequence env)] in
    n = Z.of_nat (length l) /\ reshaped u w.1 l s s'.
Proof.
  intros H. unfold split_position in H. apply bind_Ok in H as (? & ? & H1 & H).
  apply require_auth_Ok in H1 as (_ & _ & ->).
  apply bind_Ok in H as ([amt st] & ? & H1 & H). apply position_info_Ok in H1 as [-> Hpos].
  apply bind_Ok in H as (? & ? & H1 & H). apply fail_if_Ok in H1 as (Hx & _ & ->).
  apply orb_false_iff in Hx as [Hx1%Z.leb_gt Hx2%Z.leb_gt].
  apply bind_Ok in H as (? & ? & H1 & H). apply (proj1 (try_Ok _ _ _ _)) in H1. apply ensure_slot_Ok in H1 as ->.
  apply bind_Ok in H as (? & s1 & H1 & H).
  apply bind_Ok in H as (rest & ? & H2 & H). apply plain_Ok in H2 as [[-> _]%checked_sub_Some ->].
  unfold reading at 1 in H. apply bind_Ok in H as (l & s2 & H2 & H).
  apply bind_Ok in H as (? & ? & H3 & H). apply put_Ok in H3 as [_ ->].
  apply bind_Ok in H as (? & ? & H3 & H). apply publish_Ok in H3 as [_ ->]. apply ret_Ok in H as [-> ->].
  exists amt, st. split; [done|]. split; [lia|]. cbv zeta.
  destruct (reshape_Ok _ _ _ _ _ _ _ _ _ _ (l ++ [mkStakePosition x st (sequence env)]) H1 H2 ltac:(lia))
    as [-> Hr]. split; [done|]. by apply reshaped_emit.
Qed.

Lemma merge_positions_Ok (u : Address) a b s n s' :
  merge_positions env fuel u a b s = Ok n s' ->
  exists x y st, position_of u a s = Some (x, st) /\ position_of u b s = Some (y, st) /\ a <> b /\
    in_i128 (x + y) /\ n = Z.min a b /\
    (0 <= x + y ->
     let w := written u n (x + y) st (sequence env) s in
     reshaped u w.1 (delete (Z.to_nat (Z.max a b - 1)) w.2) s s').
Proof.
  intros H. unfold merge_positions in H. apply bind_Ok in H as (? & ? & H1 & H).
  apply require_auth_Ok in H1 as (_ & _ & ->).
  apply bind_Ok in H as (? & ? & H1 & H). apply fail_if_Ok in H1 as (Hab%Z.eqb_neq & _ & ->).
  apply bind_Ok in H as ([xa st] & ? & H1 & H). apply position_info_Ok in H1 as [-> Ha].
  apply bind_Ok in H as ([xb st'] & ? & H1 & H). apply position_info_Ok in H1 as [-> Hb].
  apply bind_Ok in H as (? & ? & H1 & H). apply fail_if_Ok in H1 as (Hst & _ & ->).
  apply negb_false_iff, Z.eqb_eq in Hst as <-.
  apply bind_Ok in H as (xy & ? & H1 & H). apply ok_or_Ok in H1 as [[-> Hi]%checked_add_Some ->].
  apply bind_Ok in H as (? & s1 & H1 & H). unfold reading at 1 in H.
  apply bind_Ok in H as (l & s2 & H2 & H). apply bind_Ok in H as (? & ? & H3 & H). apply put_Ok in H3 as [_ ->].
  unfold reading in H. apply bind_Ok in H as (tot & ? & H3 & H). apply ok_or_Ok in H3 as [_ ->].
  apply bind_Ok in H as (? & ? & H3 & H). apply publish_Ok in H3 as [_ ->]. apply ret_Ok in H as [-> ->].
  replace (if a <? b then a else b) with (Z.min a b) in * by (destruct (Z.ltb_spec a b); lia).
  replace (if a <? b then b else a) with (Z.max a b) in * by (destruct (Z.ltb_spec a b); lia).
  exists xa, xb, st. do 5 (split; [done|]). intros Hn. cbv zeta.
  destruct (reshape_Ok _ _ _ _ _ _ _ _ _ _ (delete (Z.to_nat (Z.max a b - 1)) l) H1 H2 Hn) as [-> Hr].
  by apply reshaped_emit.
Qed.

End Splits.

(** ** The books *)

Section Books.
Context {W : World}.
Implicit Types s : State.

Abbreviation nonneg_splits l := (Forall (fun p => 0 <= sp_amount p) l).

Lemma reshaped_books u sh l s s' :
  books s -> reshaped u sh l s s' -> nonneg_splits l -> sh + sum_of sp_amount l = get_shares u s + split_total u s ->
  books s'.
Proof.
  intros HB [H1 H2 H3 Hf _ _] Hl Hsum.
  assert (Hreq : forall v, requested v s' = requested v s).
  { intros v. unfold requested, get_request. by rewrite Hf. }
  assert (Hq : get_queue s' = get_queue s) by (unfold get_queue; by rewrite Hf).
  assert (Hn : nft_balances s' = nft_balances s) by (unfold nft_balances; by rewrite Hf).
  apply (books_update s s' u 0 0 0).
  - done.
  - intros v Hv. rewrite Hreq. unfold get_shares, get_split_positions. split_and!; [|done|]; by rewrite Hf by first [done|congruence].
  - rewrite H1. apply H2, HB.
  - rewrite Hreq. apply HB.
  - by rewrite H3.
  - unfold hold, own, split_total in *. rewrite Hreq, H1, H3. lia.
  - rewrite Hq. apply HB.
  - rewrite Hn. apply HB.
  - unfold queued, tokenized. rewrite Hq, Hn. lia.
  - unfold get_total_shares. rewrite Hf by done. lia.
  - unfold get_total_deposited. rewrite Hf by done. apply HB.
  - lia.
Qed.

(** Writing position [id] changes the sum by the change of its amount. *)
Lemma written_sum u id s amt st amt' st' now :
  position_of u id s = Some (amt, st) ->
  let w := written u id amt' st' now s in
  w.1 + sum_of sp_amount w.2 = get_shares u s + split_total u s - amt + amt'.
Proof.
  unfold position_of, written, split_total. destruct (id =? 0).
  - destruct (_ <=? 0); [done|]. intros [= <- _]. simpl. lia.
  - intros (p & Hp & [= -> ->])%fmap_Some. cbn [fst snd]. rewrite (sum_of_insert _ _ _ _ _ Hp). simpl. lia.
Qed.

Lemma written_nonneg u id s amt st now :
  books s -> 0 <= amt -> nonneg_splits (written u id amt st now s).2.
Proof.
  intros HB Ha. unfold written. destruct (id =? 0); cbn; [apply HB|].
  apply Forall_insert; [apply HB|done].
Qed.

(** Another position than the one written is still in the list. *)
Lemma written_other u a b s amt st now y st' :
  0 <= a < b -> position_of u b s = Some (y, st') ->
  exists p, (written u a amt st now s).2 !! Z.to_nat (b - 1) = Some p /\ sp_amount p = y.
Proof.
  intros Hab. unfold position_of. destruct (Z.eqb_spec b 0); [lia|].
  intros (p & Hp & [= -> ->])%fmap_Some. exists p. split; [|done]. unfold written.
  destruct (Z.eqb_spec a 0); cbn; [done|]. by rewrite list_lookup_insert_ne by lia.
Qed.

Lemma position_nonneg u id s amt st : books s -> position_of u id s = Some (amt, st) -> 0 <= amt.
Proof.
  intros HB. unfold position_of. destruct (id =? 0).
  - destruct (_ <=? 0); [done|]. intros [= <- _]. apply HB.
  - intros (p & Hp & [= -> ->])%fmap_Some. pose proof (bk_splits _ HB u) as Hall.
    by apply (Forall_lookup_1 _ _ _ _ Hall Hp).
Qed.

(** Moving holdings from one user to another. *)
Lemma books_move s s' a b :
  books s -> a <> b ->
  (forall v, v <> a -> v <> b -> get_shares v s' = get_shares v s /\
     get_split_positions v s' = get_split_positions v s) ->
  (forall k, acc k = true -> (forall v, k <> KPers (ShareBalance v) /\ k <> KPos (SplitPositions v)) ->
     rd k s' = rd k s) ->
  0 <= get_shares a s' -> 0 <= get_shares b s' ->
  nonneg_splits (get_split_positions a s') -> nonneg_splits (get_split_positions b s') ->
  hold a s' + hold b s' = hold a s + hold b s -> books s'.
Proof.
  intros HB Hab Ho Hf Ha Hb Hsa Hsb Hsum.
  assert (Hreq : forall v, requested v s' = requested v s).
  { intros v. unfold requested, get_request. by rewrite Hf. }
  assert (Hq : get_queue s' = get_queue s) by (unfold get_queue; by rewrite Hf).
  assert (Hn : nft_balances s' = nft_balances s) by (unfold nft_balances; by rewrite Hf).
  assert (Hsh : forall v, 0 <= get_shares v s').
  { intros v. destruct (decide (v = a)) as [->|Hva]; [done|]. destruct (decide (v = b)) as [->|Hvb]; [done|].
    destruct (Ho v Hva Hvb) as [-> _]. apply HB. }
  assert (Hsp : forall v, nonneg_splits (get_split_positions v s')).
  { intros v. destruct (decide (v = a)) as [->|Hva]; [done|]. destruct (decide (v = b)) as [->|Hvb]; [done|].
    destruct (Ho v Hva Hvb) as [_ ->]. apply HB. }
  assert (Hrq : forall v, 0 <= requested v s') by (intros; rewrite Hreq; apply HB).
  split; try done.
  - rewrite Hq. apply HB.
  - rewrite Hn. apply HB.
  - unfold get_total_deposited. rewrite Hf by done. apply HB.
  - intros U HU. set (R := filter (fun v => v <> a /\ v <> b) U).
    assert (HR : NoDup (a :: b :: R)).
    { unfold R. apply NoDup_cons. split; [rewrite not_elem_of_cons, list_elem_of_filter; naive_solver|].
      apply NoDup_cons. split; [rewrite list_elem_of_filter; naive_solver|by apply NoDup_filter]. }
    pose proof (bk_total _ HB _ HR) as Ht. simpl in Ht.
    assert (HRext : sum_of (fun v => hold v s') R = sum_of (fun v => hold v s) R).
    { apply sum_of_ext. intros v [[Hva Hvb] _]%list_elem_of_filter. destruct (Ho v Hva Hvb) as [H1 H2].
      unfold hold, own, split_total. by rewrite H1, H2, Hreq. }
    assert (Hle : sum_of (fun v => hold v s') U <= sum_of (fun v => hold v s') (a :: b :: R)).
    { apply sum_of_sub; [done| |].
      - intros v Hv. rewrite !elem_of_cons. unfold R. rewrite list_elem_of_filter.
        destruct (decide (v = a)); [auto|]. destruct (decide (v = b)); auto.
      - intros v. unfold hold, own. pose proof (Hsh v). pose proof (Hrq v).
        pose proof (sum_of_nonneg _ _ (Hsp v)). unfold split_total. lia. }
    simpl in Hle. unfold queued, tokenized, get_total_shares in *. rewrite Hq, Hn, Hf by done. lia.
Qed.

End Books.

(** ** Moves *)

Section Moves.
Context {W : World} {B : Bootstrap W} (env : Env) (fuel : nat).
Implicit Types s : State.

(** The entries of one user that a move of a position may write. *)
Definition owner_key (u : Address) (k : key) : Prop :=
  share_write_keys u k \/
  match k with
  | KPers (StakedAtLedger v) | KPers (AccruedReward v) | KPers (RewardCheckpointLedger v)
  | KPos (LastClaimLedger v) | KPos (StakeHistory v) => v = u
  | _ => False
  end.
Definition pause_key (k : key) : Prop :=
  match k with
  | KInst Paused | KGov PauseInfoKey | KGov ScheduledUnpause | KGov LastUpdated => True
  | _ => False
  end.
Definition move_key (from to : Address) (k : key) : Prop :=
  owner_key from k \/ owner_key to k \/ pause_key k \/ k = KPos Leaderboard.

(** [from]'s primary position is now [to]'s, with [accrued] as the reward and
    [cp] as its settlement checkpoint. *)
Record moved (from to : Address) (accrued : Z) (cp : option Z) s s' : Prop := {
  mv_distinct : from <> to;
  mv_had : get_shares from s <> 0 /\ 0 <= get_shares from s;
  mv_free : get_shares to s <= 0;
  mv_from : get_shares from s' = 0;
  mv_to : get_shares to s' = get_shares from s;
  mv_accrued : get_accrued_reward to s' = accrued /\ get_accrued_reward from s' = 0;
  mv_cp : get_reward_checkpoint_ledger to s' = cp;
  mv_staked : rd (StakedAtLedger to) s' = Some (default (sequence env) (rd (StakedAtLedger from) s)) /\
              rd (StakedAtLedger from) s' = None;
  mv_frame : forall k, ~ move_key from to k -> rd k s' = rd k s;
  mv_ext : st_ext s' = st_ext s
}.

(** Two share writes. *)
Lemma two_shares E a x b y s s1 s2 t1 t2 :
  a <> b -> set_shares (E:=E) env a x s = Ok t1 s1 -> set_shares (E:=E) env b y s1 = Ok t2 s2 ->
  get_shares a s2 = x /\ get_shares b s2 = y /\ 0 <= x /\ 0 <= y /\
  (forall k, ~ share_write_keys a k -> ~ share_write_keys b k -> rd k s2 = rd k s) /\ st_ext s2 = st_ext s.
Proof.
  intros Hab H1 H2. apply set_shares_Ok in H1 as (Hx & H1 & _ & Hf1 & He1).
  apply set_shares_Ok in H2 as (Hy & H2 & Ho & Hf2 & He2). split_and!; try done.
  - by rewrite Ho.
  - intros k ? ?. by rewrite Hf2, Hf1.
  - congruence.
Qed.

Lemma plain_key_not_shares u k :
  match k with
  | KPers (StakedAtLedger _) | KPers (AccruedReward _) | KPers (RewardCheckpointLedger _)
  | KPos (LastClaimLedger _) | KPos (StakeHistory _) => True | _ => False end -> ~ share_write_keys u k.
Proof. intros Hk [->|[->|[->|(t & [->| ->])]]]; done. Qed.

Lemma set_accrued_Ok E u a s x s' :
  set_accrued_reward (E:=E) u a s = Ok x s' -> 0 <= a /\ s' = upd (AccruedReward u) (Some a) s.
Proof. unfold set_accrued_reward, assert_non_negative. intros H. mrun H. apply Z.ltb_ge in H0. done. Qed.

Lemma transfer_position_Ok from to s r s' :
  transfer_position env from to s = Ok r s' ->
  r = get_shares from s /\ moved from to (get_accrued_reward from s) (get_reward_checkpoint_ledger to s) s s'.
Proof.
  intros H. unfold transfer_position in H. apply bind_Ok in H as (? & ? & H1 & H).
  apply require_auth_Ok in H1 as (_ & _ & ->). unfold reading at 1 in H.
  apply bind_Ok in H as (? & ? & H1 & H). apply fail_if_Ok in H1 as (Hf%Z.leb_gt & _ & ->).
  unfold reading at 1 in H. apply bind_Ok in H as (? & ? & H1 & H). apply fail_if_Ok in H1 as (Ht%Z.ltb_ge & _ & ->).
  unfold reading in H. assert (Hne : from <> to) by (intros ->; lia).
  apply bind_Ok in H as (? & s1 & H1 & H). apply bind_Ok in H as (? & s2 & H2 & H).
  destruct (two_shares _ _ _ _ _ _ _ _ _ _ Hne H1 H2) as (Hs1 & Hs2 & _ & _ & Hfr & He).
  do 4 (apply bind_Ok in H as (? & ? & H3 & H); first [apply put_Ok in H3 as [_ ->] | apply del_Ok in H3 as [_ ->]]).
  do 2 (apply bind_Ok in H as (? & ? & H3 & H); apply set_accrued_Ok in H3 as [_ ->]).
  apply bind_Ok in H as (? & ? & H3 & H). apply publish_Ok in H3 as [_ ->]. apply ret_Ok in H as [-> ->].
  split; [done|]. split; [done|lia|lia|..].
  - unfold get_shares in *. by rdsimp.
  - unfold get_shares in *. by rdsimp.
  - unfold get_accrued_reward. by rdsimp.
  - unfold get_reward_checkpoint_ledger. rdsimp.
    apply (Hfr (KPers (RewardCheckpointLedger to))); by apply plain_key_not_shares.
  - by rdsimp.
  - intros k Hk. unfold move_key, owner_key in Hk. rdsimp. rewrite !rd_upd_ne; [apply Hfr; naive_solver|..];
      intros <-; naive_solver.
  - exact He.
Qed.

(** The parts of a move around the writes of the position itself. *)
Lemma not_paused_Ok s x s' :
  require_not_paused env s = Ok x s' -> (forall k, ~ pause_key k -> rd k s' = rd k s) /\ st_ext s' = st_ext s.
Proof.
  intros H. split.
  - intros k Hk. eapply (touches_Ok pause_key); [|exact H|done].
    unfold require_not_paused, apply_scheduled_unpause_if_due, clear_scheduled_unpause, set_last_updated_ledger.
    repeat first [progress frames | by apply touches_put | by apply touches_del].
  - eapply keeps_ext_Ok; [|exact H].
    unfold require_not_paused, apply_scheduled_unpause_if_due, clear_scheduled_unpause, set_last_updated_ledger. frames.
Qed.

Lemma touches_pending K u : touches K (pending_reward env fuel u).
Proof.
  unfold pending_reward, reward_between_ledgers.
  repeat first [ apply touches_window | progress frames | progress cbv zeta ].
Qed.
Lemma keeps_pending u : keeps_ext (pending_reward env fuel u).
Proof.
  unfold pending_reward, reward_between_ledgers, window_dust.
  repeat first [ apply keeps_walk | progress frames | progress cbv zeta
               | match goal with |- keeps_ext (let (_, _) := ?p in _) => destruct p
                               | |- keeps_ext (lift_arith ?r) => destruct r; simpl end ].
Qed.
Lemma catch_pending_Ok E u s r s' :
  catch (E':=E) (pending_reward env fuel u) s = Ok r s' -> (forall k, rd k s' = rd k s) /\ st_ext s' = st_ext s.
Proof.
  intros H. split.
  - intros k. apply (touches_Ok (fun _ => False) _ _ _ _ k (touches_catch _ _ (touches_pending _ u)) H). by intros [].
  - pose proof (keeps_pending u s) as Hk. unfold catch in H.
    destruct (pending_reward env fuel u s); [..|done]; injection H as <- <-; exact Hk.
Qed.

(** Snapshots and the leaderboard. *)
Definition same_but (K : key -> Prop) s s' : Prop := (forall k, ~ K k -> rd k s' = rd k s) /\ st_ext s' = st_ext s.

Lemma same_but_trans (K : key -> Prop) s1 s2 s3 : same_but K s1 s2 -> same_but K s2 s3 -> same_but K s1 s3.
Proof. intros [H1 E1] [H2 E2]. split; [|congruence]. intros k Hk. by rewrite H2, H1. Qed.
Lemma same_but_weaken (K K' : key -> Prop) s1 s2 : (forall k, K k -> K' k) -> same_but K s1 s2 -> same_but K' s1 s2.
Proof. intros HK [H1 E1]. split; [|done]. intros k Hk. apply H1. auto. Qed.

Lemma stake_snapshot_Ok E u x s r s' :
  record_stake_snapshot (E:=E) env u x s = Ok r s' -> same_but (eq (KPos (StakeHistory u))) s s'.
Proof.
  unfold record_stake_snapshot, reading. intros H. apply put_Ok in H as [_ ->]. split; [|done].
  intros k Hk. by rewrite rd_upd_ne.
Qed.
Lemma update_board_Ok E u x s r s' :
  update_leaderboard (E:=E) u x s = Ok r s' -> same_but (eq (KPos Leaderboard)) s s'.
Proof.
  unfold update_leaderboard, reading. intros H. mrun H; [done|]. split; [|done].
  intros k Hk. by rewrite rd_upd_ne.
Qed.

Definition snapshot_key (from to : Address) (k : key) : Prop :=
  k = KPos (StakeHistory from) \/ k = KPos (StakeHistory to) \/ k = KPos Leaderboard.

(** The last four calls of a move. *)
Lemma snapshots_Ok E (from to : Address) x (k : M E unit) s r s' :
  (record_stake_snapshot env from 0 ;;; record_stake_snapshot env to x ;;;
   update_leaderboard from 0 ;;; update_leaderboard to x ;;; k) s = Ok r s' ->
  exists s1, same_but (snapshot_key from to) s s1 /\ k s1 = Ok r s'.
Proof.
  intros (? & s1 & H1%stake_snapshot_Ok & (? & s2 & H2%stake_snapshot_Ok & (? & s3 & H3%update_board_Ok
    & (? & s4 & H4%update_board_Ok & H)%bind_Ok)%bind_Ok)%bind_Ok)%bind_Ok.
  exists s4. split; [|done].
  eapply same_but_trans; [eapply same_but_weaken, H1|eapply same_but_trans; [eapply same_but_weaken, H2|
    eapply same_but_trans; [eapply same_but_weaken, H3|eapply same_but_weaken, H4]]];
    unfold snapshot_key; naive_solver.
Qed.

Lemma snapshot_pers from to k : ~ snapshot_key from to (KPers k).
Proof. by intros [?|[?|?]]. Qed.

Lemma moved_around from to accrued cp s s0 s1 s' :
  same_but pause_key s s0 -> same_but (snapshot_key from to) s1 s' ->
  moved from to accrued cp s0 s1 -> moved from to accrued cp s s'.
Proof.
  intros [Hp Ep] [Hs Es] [H1 H2 H3 H4 H5 H6 H7 H8 H9 H10].
  assert (Hs' : forall k : pers_key, rd k s' = rd k s1) by (intros; apply Hs, snapshot_pers).
  assert (Hp' : forall k : pers_key, rd k s0 = rd k s) by (intros; apply Hp; intros []).
  unfold get_shares, get_accrued_reward, get_reward_checkpoint_ledger in *.
  rewrite !Hp' in *.
  split; unfold get_shares, get_accrued_reward, get_reward_checkpoint_ledger; rewrite ?Hs'; try done.
  - intros k Hk. unfold move_key in Hk. rewrite Hs, H9, Hp; [done|..].
    + intros Hc. apply Hk. auto.
    + unfold move_key. exact Hk.
    + intros [->|[->| ->]]; apply Hk; unfold owner_key; auto 10.
  - congruence.
Qed.

Lemma move_position_Ok from to s x s' :
  move_position_with_rewards env fuel from to s = Ok x s' ->
  moved from to (get_accrued_reward from s)
    (Some (default (sequence env) (get_reward_checkpoint_ledger from s))) s s'.
Proof.
  intros H. unfold move_position_with_rewards in H.
  apply bind_Ok in H as (? & s0 & H1 & H). apply not_paused_Ok in H1 as Hp.
  unfold reading at 1 in H. apply bind_Ok in H as (? & ? & H2 & H).
  apply fail_if_Ok in H2 as (Hf%Z.eqb_neq & _ & ->). unfold reading at 1 in H.
  apply bind_Ok in H as (? & ? & H2 & H). apply fail_if_Ok in H2 as (Ht%Z.ltb_ge & _ & ->).
  cbv zeta in H. unfold reading at 1 2 3 4 in H.
  apply bind_Ok in H as (pend & sp & H2 & H). apply catch_pending_Ok in H2 as Hpend.
  apply bind_Ok in H as (? & s1 & H3 & H). apply bind_Ok in H as (? & s2 & H4 & H).
  assert (Hne : to <> from).
  { intros ->. apply set_shares_Ok in H3 as (? & _). lia. }
  destruct (two_shares _ _ _ _ _ _ _ _ _ _ Hne H3 H4) as (Hs2 & Hs1 & Hn & _ & Hfr & He).
  do 2 (apply bind_Ok in H as (? & ? & H5 & H); apply set_accrued_Ok in H5 as [_ ->]).
  do 6 (apply bind_Ok in H as (? & ? & H5 & H); first [apply put_Ok in H5 as [_ ->] | apply del_Ok in H5 as [_ ->]]).
  apply snapshots_Ok in H as (s3 & Hsn & H). unfold reading in H. apply publish_Ok in H as [_ ->].
  match type of Hsn with same_but _ ?t _ => set (t1 := t) in * end.
  assert (Hcore : moved from to (get_accrued_reward from s0)
    (Some (default (sequence env) (get_reward_checkpoint_ledger from s0))) s0 t1).
  { destruct Hpend as [Hv Hve]. split; [done|lia|lia|..].
    - unfold get_shares in *. subst t1. by rdsimp.
    - unfold get_shares in *. subst t1. by rdsimp.
    - unfold get_accrued_reward. subst t1. by rdsimp.
    - unfold get_reward_checkpoint_ledger. subst t1. by rdsimp.
    - subst t1. by rdsimp.
    - intros k Hk. unfold move_key, owner_key in Hk. subst t1. rewrite !rd_upd_ne;
        [rewrite Hfr, Hv by naive_solver; done|..]; intros <-; naive_solver.
    - transitivity (st_ext s2); [done|]. by rewrite He. }
  assert (Hfix : get_accrued_reward from s0 = get_accrued_reward from s /\
                 get_reward_checkpoint_ledger from s0 = get_reward_checkpoint_ledger from s).
  { unfold get_accrued_reward, get_reward_checkpoint_ledger. by rewrite !(proj1 Hp) by (intros []). }
  destruct Hfix as [<- <-]. eapply moved_around; [exact Hp| |exact Hcore].
  destruct Hsn as [Hs Es]. split; [|exact Es]. intros k Hk. rewrite rd_emit. by apply Hs.
Qed.

End Moves.

(** ** Every operation keeps the books *)

Section Keep.
Context {W : World} {B : Bootstrap W} {BL : BootstrapLaws W B} (env : Env) (fuel : nat).
Implicit Types s : State.

Record relocated (from to : Address) s s' : Prop := {
  rl_distinct : from <> to;
  rl_had : 0 <= get_shares from s;
  rl_free : get_shares to s <= 0;
  rl_from : get_shares from s' = 0;
  rl_to : get_shares to s' = get_shares from s;
  rl_frame : forall k, acc k = true -> k <> KPers (ShareBalance from) -> k <> KPers (ShareBalance to) ->
               rd k s' = rd k s
}.

Lemma owner_acc u k : owner_key u k -> acc k = true -> k = KPers (ShareBalance u).
Proof. intros [Hk|Hk] Ha; [by apply share_write_acc|]. destruct k as [| [] | | | | | [] | | | | ]; done. Qed.

Lemma books_not_pause k : acc k = true -> ~ pause_key k.
Proof. intros Ha Hk. by destruct k as [[]| | [] | | | | | | | | ]. Qed.

Lemma moved_relocated from to a cp s s' : moved env from to a cp s s' -> relocated from to s s'.
Proof.
  intros [H1 H2 H3 H4 H5 _ _ _ Hf _]. split; try done; [apply H2|]. intros k Ha Hk1 Hk2. apply Hf.
  intros [Hk|[Hk|[Hk| ->]]]; [by apply owner_acc in Hk..| |done].
  by apply books_not_pause in Hk.
Qed.

Lemma relocated_books from to s s' : books s -> relocated from to s s' -> books s'.
Proof.
  intros HB [H1 H2 H3 H4 H5 Hf]. pose proof (bk_shares _ HB to) as Hto.
  assert (Hsp : forall v, get_split_positions v s' = get_split_positions v s).
  { intros v. unfold get_split_positions. by rewrite Hf. }
  assert (Hrq : forall v, requested v s' = requested v s).
  { intros v. unfold requested, get_request. by rewrite Hf. }
  apply (books_move s s' from to); try done; rewrite ?Hsp, ?H4, ?H5; try apply HB; try lia.
  - intros v Hv1 Hv2. split; [|done]. unfold get_shares. by rewrite Hf by first [done|congruence].
  - intros k Ha Hk. apply Hf; [done|apply Hk..].
  - unfold hold, own, split_total. rewrite !Hsp, !Hrq, H4, H5. lia.
Qed.

Lemma settling_relocated from to s x s' :
  transfer_position_settling env fuel from to s = Ok x s' -> relocated from to s s'.
Proof.
  intros H. unfold transfer_position_settling in H.
  apply bind_Ok in H as (? & ? & H1 & H). apply require_auth_Ok in H1 as (_ & _ & ->).
  apply bind_Ok in H as (? & s0 & H1 & H). apply not_paused_Ok in H1 as [Hp _]. unfold reading at 1 in H.
  apply bind_Ok in H as (? & ? & H2 & H). apply fail_if_Ok in H2 as (Hf%Z.eqb_neq & _ & ->).
  unfold reading at 1 in H. apply bind_Ok in H as (? & ? & H2 & H). apply fail_if_Ok in H2 as (Ht%Z.ltb_ge & _ & ->).
  unfold reading at 1 2 in H. apply bind_Ok in H as (? & ? & H2 & H). apply ok_or_Ok in H2 as [_ ->].
  apply bind_Ok in H as (? & sa & H2 & H).
  pose proof (fun k => touches_Ok _ _ _ _ _ k (touches_accrue env fuel from (get_shares from s0)) H2) as Ha.
  cbv zeta in H. apply bind_Ok in H as (? & s1 & H3 & H). apply bind_Ok in H as (? & s2 & H4 & H).
  assert (Hne : to <> from).
  { intros ->. apply set_shares_Ok in H3 as (? & _). lia. }
  destruct (two_shares _ _ _ _ _ _ _ _ _ _ _ Hne H3 H4) as (Hs2 & Hs1 & Hn & _ & Hfr & _).
  unfold reading at 1 in H.
  do 4 (apply bind_Ok in H as (? & ? & H5 & H); first [apply put_Ok in H5 as [_ ->] | apply del_Ok in H5 as [_ ->]]).
  apply bind_Ok in H as (? & ? & H5 & H). apply set_accrued_Ok in H5 as [_ ->].
  apply bind_Ok in H as (? & ? & H5 & H). apply put_Ok in H5 as [_ ->].
  apply snapshots_Ok in H as (s3 & [Hsn _] & H). apply publish_Ok in H as [_ ->].
  assert (Hrd : forall k, acc k = true -> rd k s0 = rd k s).
  { intros k Hk. by apply Hp, books_not_pause. }
  assert (Hend : forall k, acc k = true -> rd k s3 = rd k s2).
  { intros k Hk. rewrite Hsn by (intros [->|[->| ->]]; done). rewrite !rd_upd_ne; [done|..]; by intros <-. }
  assert (Hg : get_shares from s0 = get_shares from s /\ get_shares to s0 = get_shares to s)
    by (unfold get_shares; by rewrite !Hrd).
  destruct Hg as [Hg1 Hg2]. split; unfold get_shares in *; rewrite ?rd_emit, ?Hend by done;
    try (done || lia || congruence).
  intros k Hk H1 H2'. rewrite rd_emit, Hend, Hfr, Ha, Hrd; try done.
  - by apply books_not_settled.
  - intros Hc. by apply share_write_acc in Hc.
  - intros Hc. by apply share_write_acc in Hc.
Qed.

(** *** Claims leave the books alone *)

(** Nor do they touch the staker registry, or settle anything: the checkpoint,
    the remainder and the configuration that accrual reads stay as they are. *)
Definition claim_keeps (k : key) : bool :=
  match k with
  | KInst AllStakers | KInst HalvingCfg | KInst HalvingReduction | KInst BoostCampaign | KInst Seasons
  | KInst BoostSchedule | KInst RewardRateBps | KInst MinPoolSize | KInst RewardsActivatedAt
  | KGov BootstrapCfg | KPers (RewardRemainder _) | KPers (RewardCheckpointLedger _)
  | KPers (StakedAtLedger _) => true
  | _ => false
  end.
Definition claim_write (k : key) : Prop := acc k = false /\ claim_keeps k = false.
Lemma touches_do_claim u : touches claim_write (do_claim env u).
Proof.
  unfold do_claim, reward_token_address, token_address, set_accrued_reward, set_total_rewards_paid,
    net_of_deductions, pay_reward, pay_gas_rebate, set_gas_rebate_pool, deduct_bounty_contribution,
    set_fund_balance, apply_claim_fee, recycle_fee, set_claim_fee_reserve, set_reward_pool_balance,
    apply_mirror_perf_fee, claimed.
  repeat first
    [ progress frames | by apply touches_put | by apply touches_del | progress cbv zeta
    | progress unfold check_and_emit_low_balance, log_reward_movement, maybe_auto_snapshot, take_value_snapshot_inner, set_appreciation_log,
        record_receipt, set_count ].
Qed.

Lemma quiet_do_claim u : quiet (do_claim env u).
Proof. eapply touches_weaken, touches_do_claim. by intros k []. Qed.

Lemma quiet_books E A (m : M E A) s a s' : quiet m -> m s = Ok a s' -> books s -> books s'.
Proof. intros Hq Hm. apply books_same. by apply (quiet_same _ _ _ _ _ _ Hq Hm). Qed.

(** *** Splits and merges *)

Lemma position_split_Ok u x s r s' :
  position_split env u x s = Ok r s' ->
  0 < x < get_shares u s /\
  exists st s1, same_books s s1 /\ (forall k, claim_keeps k = true -> rd k s' = rd k s) /\ reshaped u (get_shares u s - x)
    (get_split_positions u s ++ [mkStakePosition x st (sequence env)]) s1 s'.
Proof.
  intros H. unfold position_split in H. apply bind_Ok in H as (? & ? & H1 & H).
  apply require_auth_Ok in H1 as (_ & _ & ->). unfold reading at 1 in H.
  apply bind_Ok in H as (? & ? & H1 & H). apply fail_if_Ok in H1 as (Hx & _ & ->).
  apply orb_false_iff in Hx as [Hx1%Z.leb_gt Hx2%Z.leb_gt]. unfold reading at 1 2 in H.
  apply bind_Ok in H as (? & ? & H1 & H). apply fail_if_Ok in H1 as (_ & _ & ->).
  apply bind_Ok in H as (paid & s1 & H1 & H). apply (proj1 (try_Ok _ _ _ _)) in H1.
  pose proof (quiet_same _ _ _ _ _ _ (quiet_do_claim u) H1) as Hq.
  assert (Hreg : forall k, claim_keeps k = true -> rd k s1 = rd k s).
  { intros k Hk. apply (touches_Ok _ _ _ _ _ k (touches_do_claim u) H1). intros [_ Hc]. congruence. }
  unfold reading at 1 in H. cbv zeta in H.
  apply bind_Ok in H as (rest & ? & H2 & H). apply (proj1 (try_Ok _ _ _ _)) in H2.
  apply ok_or_Ok in H2 as [[-> _]%checked_sub_Some ->].
  apply bind_Ok in H as (? & s2 & H2 & H). apply set_shares_Ok in H2 as (Hn & Hs & _ & Hf & He).
  apply bind_Ok in H as (? & ? & H3 & H). apply put_Ok in H3 as [_ ->]. unfold reading at 1 in H.
  apply bind_Ok in H as (? & ? & H3 & H). apply put_Ok in H3 as [_ ->]. apply publish_Ok in H as [_ ->].
  split; [lia|]. exists (default 0 (rd (StakedAtLedger u) s1)), s1. split; [done|].
  split.
  { intros k Hk. rewrite rd_emit, !rd_upd_ne by by intros <-. rewrite Hf; [by apply Hreg|].
    by intros [->|[->|[->|(t & [->| ->])]]]. }
  assert (Hsp : get_split_positions u s2 = get_split_positions u s).
  { unfold get_split_positions. rewrite Hf, Hq; [done|done|]. intros Hc. by apply share_write_acc in Hc. }
  split.
  - unfold get_shares in *. by rdsimp.
  - intros _. lia.
  - unfold get_split_positions in *. rdsimp. by rewrite Hsp.
  - intros k Ha Hk1 Hk2. rewrite rd_emit, !rd_upd_ne by first [congruence | by intros <-]. apply Hf.
    intros Hc. by apply share_write_acc in Hc.
  - intros k Ha. rewrite rd_emit, !rd_upd_ne by by intros <-. by apply Hf, beside_not_shares.
  - exact He.
Qed.

Lemma position_split_commits u x s : books s -> commits (position_split env u x) s.
Proof.
  intros HB r s' H. apply position_split_Ok in H as (Hx & st & s1 & Hq & _ & Hr).
  pose proof (books_same _ _ Hq HB) as HB1. eapply (reshaped_books u _ _ s1); [done|exact Hr|..].
  - apply Forall_app. split; [apply HB|]. repeat constructor. simpl. lia.
  - unfold split_total. rewrite (same_splits s s1), (same_shares s s1) by done. rewrite sum_of_app. simpl. lia.
Qed.

Lemma split_position_commits u id x s : books s -> commits (split_position env fuel u id x) s.
Proof.
  intros HB n s' H. apply split_position_Ok in H as (amt & st & Hp & Hx & Hn & Hr).
  eapply (reshaped_books u _ _ s); [done|exact Hr|..].
  - apply Forall_app. split; [apply written_nonneg; [done|lia]|]. repeat constructor. simpl. lia.
  - pose proof (written_sum u id s amt st (amt - x) st (sequence env) Hp) as Hw. cbv zeta in Hw.
    rewrite sum_of_app. simpl. lia.
Qed.

Lemma merge_positions_commits u a b s :
  0 <= a -> 0 <= b -> books s -> commits (merge_positions env fuel u a b) s.
Proof.
  intros Ha0 Hb0 HB n s' H. apply merge_positions_Ok in H as (x & y & st & Ha & Hb & Hne & _ & -> & Hr).
  pose proof (position_nonneg _ _ _ _ _ HB Ha). pose proof (position_nonneg _ _ _ _ _ HB Hb).
  specialize (Hr ltac:(lia)). cbv zeta in Hr.
  assert (Hsum : forall id other z w, position_of u id s = Some (z, st) -> position_of u other s = Some (w, st) ->
    0 <= id < other -> x + y = z + w ->
    let wr := written u id (x + y) st (sequence env) s in
    wr.1 + sum_of sp_amount (delete (Z.to_nat (other - 1)) wr.2) = get_shares u s + split_total u s).
  { intros id other z w Hz Hw Hio Hxy wr.
    pose proof (written_sum u id s z st (x + y) st (sequence env) Hz) as Hws. cbv zeta in Hws. fold wr in Hws.
    destruct (written_other u id other s (x + y) st (sequence env) w st Hio Hw) as (p & Hp & Hpw).
    fold wr in Hp. rewrite (sum_of_delete _ _ _ _ Hp). lia. }
  eapply (reshaped_books u _ _ s); [done|exact Hr|..].
  - apply Forall_delete, written_nonneg; [done|lia].
  - destruct (Z.lt_ge_cases a b).
    + rewrite Z.min_l, Z.max_r by lia. apply (Hsum a b x y); (done || lia).
    + rewrite Z.min_r, Z.max_l by lia. apply (Hsum b a y x); (done || lia).
Qed.

(** *** Moves and inheritance *)

Lemma transfer_commits from to s : books s -> commits (transfer_position env from to) s.
Proof.
  intros HB r s' H. apply transfer_position_Ok in H as [_ H]. by eapply relocated_books, moved_relocated.
Qed.
Lemma settling_commits from to s : books s -> commits (transfer_position_settling env fuel from to) s.
Proof. intros HB r s' H. apply settling_relocated in H. by eapply relocated_books. Qed.
Lemma with_rewards_commits from to s : books s -> commits (transfer_position_with_rewards env fuel from to) s.
Proof.
  intros HB r s' H. apply bind_Ok in H as (? & ? & H1 & H). apply require_auth_Ok in H1 as (_ & _ & ->).
  apply move_position_Ok in H. by eapply relocated_books, moved_relocated.
Qed.

(** Entries other than the two split lists are untouched. *)
Lemma move_splits_Ok E from to s r s' :
  from <> to -> move_splits (E:=E) from to s = Ok r s' ->
  get_split_positions to s' = get_split_positions to s ++ get_split_positions from s /\
  get_split_positions from s' = [] /\
  (forall k, k <> KPos (SplitPositions from) -> k <> KPos (SplitPositions to) -> rd k s' = rd k s) /\
  st_ext s' = st_ext s.
Proof.
  intros Hne H. unfold move_splits, reading in H. destruct (get_split_positions from s) as [|p l] eqn:Hl.
  - apply ret_Ok in H as [_ ->]. by rewrite app_nil_r.
  - apply bind_Ok in H as (? & ? & H1 & H). apply put_Ok in H1 as [_ ->]. apply put_Ok in H as [_ ->].
    unfold get_split_positions. rdsimp. split_and!; try done. intros k H1 H2. by rewrite !rd_upd_ne by congruence.
Qed.

Lemma move_splits_books E from to s r s' :
  from <> to -> move_splits (E:=E) from to s = Ok r s' -> books s -> books s'.
Proof.
  intros Hne H HB. apply move_splits_Ok in H as (H1 & H2 & Hf & _); [|done].
  assert (Hsh : forall v, get_shares v s' = get_shares v s) by (intros; unfold get_shares; by rewrite Hf).
  assert (Hrq : forall v, requested v s' = requested v s)
    by (intros; unfold requested, get_request; by rewrite Hf).
  apply (books_move s s' from to); try done; rewrite ?Hsh, ?H1, ?H2; try apply HB.
  - intros v Hv1 Hv2. split; [apply Hsh|]. unfold get_split_positions. by rewrite Hf by congruence.
  - intros k Ha Hk. apply Hf; apply Hk.
  - constructor.
  - apply Forall_app. split; apply HB.
  - unfold hold, own, split_total. rewrite !Hsh, !Hrq, H1, H2, sum_of_app. simpl. lia.
Qed.

(** What a successful inheritance call checked, and the moves it made. *)
Lemma claim_inheritance_Ok b u s r s' :
  claim_inheritance env fuel b u s = Ok r s' ->
  exists rec s1 s2 s3 s4 t1 t2 t3,
    get_record u s = Some rec /\ bf_beneficiary rec = b /\ signed env b = true /\
    bf_last_interaction rec + bf_inactivity_ledgers rec <= sequence env /\
    move_position_with_rewards env fuel u b s = Ok t1 s1 /\
    remove_from_staker_list (E:=VaultSafetyError.t) u s1 = Ok t2 s2 /\
    register_staker (E:=VaultSafetyError.t) b s2 = Ok t3 s3 /\
    move_splits (E:=VaultSafetyError.t) u b s3 = Ok tt s4 /\
    s' = emit (mkEvent [VSym "ben_claim"; VAddr u] [VAddr b; VInt (sequence env)]) (upd (BeneficiaryOf u) None s4).
Proof.
  intros H. unfold claim_inheritance in H. apply bind_Ok in H as (? & ? & H1 & H).
  apply require_auth_Ok in H1 as (Hsig & _ & ->). unfold reading at 1 in H.
  apply bind_Ok in H as (rec & ? & H1 & H). apply ok_or_Ok in H1 as [Hrec ->].
  apply bind_Ok in H as (? & ? & H1 & H). apply fail_if_Ok in H1 as (Hb & _ & ->).
  apply negb_false_iff, bool_decide_eq_true in Hb.
  apply bind_Ok in H as (at_ & ? & H1 & H). apply ok_or_Ok in H1 as [Hat ->].
  apply bind_Ok in H as (? & ? & H1 & H). apply fail_if_Ok in H1 as (Hnow & _ & ->).
  apply negb_false_iff, Z.leb_le in Hnow.
  apply bind_Ok in H as (? & s1 & H1 & H). apply (proj1 (try_Ok _ _ _ _)) in H1.
  apply bind_Ok in H as (? & s2 & H2 & H). apply bind_Ok in H as (? & s3 & H3 & H).
  apply bind_Ok in H as ([] & s4 & H4 & H). apply bind_Ok in H as (? & ? & H5 & H).
  apply del_Ok in H5 as [_ ->]. apply publish_Ok in H as [_ ->].
  apply to_u32_Some in Hat as [-> _]. eauto 20.
Qed.

Lemma quiet_remove_staker E u : quiet (remove_from_staker_list (E:=E) u).
Proof. unfold remove_from_staker_list, set_all_stakers, quiet. frames. Qed.

Lemma inheritance_commits b u s : books s -> commits (claim_inheritance env fuel b u) s.
Proof.
  intros HB r s' H.
  apply claim_inheritance_Ok in H as (rec & s1 & s2 & s3 & s4 & ? & ? & ? & _ & _ & _ & _ & H1 & H2 & H3 & H4 & ->).
  apply move_position_Ok in H1 as Hm. pose proof (mv_distinct _ _ _ _ _ _ _ Hm) as Hne.
  assert (HB1 : books s1) by (by eapply relocated_books, moved_relocated).
  pose proof (quiet_books _ _ _ _ _ _ (quiet_remove_staker _ u) H2 HB1) as HB2.
  pose proof (quiet_books _ _ _ _ _ _ (quiet_register_staker _ b) H3 HB2) as HB3.
  pose proof (move_splits_books _ _ _ _ _ _ Hne H4 HB3) as HB4.
  apply (books_same s4); [|done]. intros k Hk. rewrite rd_emit, rd_upd_ne; [done|by intros <-].
Qed.

End Keep.
