(* ===== verification/LoanProofs.v ===== *)
(** * What loans and flash stakes do

    Inversion lemmas for the operations of [Loans.v], then: the vault's funds
    cover its books over any trace of loans and flash stakes; interest is
    simple and rounded down at every touch; borrowing stays within the loan to
    value ratio; an open loan does not keep its collateral in the vault. *)

From S2P Require Import Prelude Errors Storage Host Events TokenFacts Concrete Accessors Admin Shares RewardMath.
From S2P Require Import Rewards Checkpoints Balance Pause Limits Mirror Strategies Vault ClaimFees ClaimProofs Leaderboard Positions VaultBooks VaultInv PositionProofs Loans.

Section Runs.
Context {W : World} (env : Env).
Implicit Types s : State.

(** ** Interest *)

Definition interest_due (config : LoanConfig) (loan : Loan) (now : Z) : Z :=
  if (now <=? ln_last_interest_at loan) || (ln_principal loan <=? 0) then 0
  else Z.quot (ln_principal loan * lc_interest_rate_bps config * (now - ln_last_interest_at loan))
         (BPS * STELLAR_LEDGERS_PER_YEAR).
Definition due_on (config : option LoanConfig) (loan : Loan) (now : Z) : Z :=
  match config with Some c => interest_due c loan now | None => 0 end.

Lemma accrue_Ok loan s l s' :
  accrue_loan_interest env loan s = Ok l s' ->
  s' = s /\ ln_principal l = ln_principal loan /\
  ln_interest_accrued l = ln_interest_accrued loan + due_on (get_loan_config s) loan (sequence env) /\
  ln_last_interest_at l =
    match get_loan_config s with Some _ => sequence env | None => ln_last_interest_at loan end.
Proof.
  unfold accrue_loan_interest, reading, due_on, interest_due.
  destruct (get_loan_config s) as [c|]; [|intros [-> ->]%ret_Ok; split_and!; (done || lia)].
  destruct (_ || _); [intros [-> ->]%ret_Ok; simpl; split_and!; (done || lia)|]. intros H.
  apply bind_Ok in H as (v & ? & H1 & H). apply ok_or_Ok in H1 as [[-> _]%checked_mul_Some ->].
  apply bind_Ok in H as (v & ? & H1 & H). apply ok_or_Ok in H1 as [[-> _]%checked_mul_Some ->].
  apply bind_Ok in H as (v & ? & H1 & H). apply ok_or_Ok in H1 as [[-> _]%checked_add_Some ->].
  apply ret_Ok in H as [-> ->]. by simpl.
Qed.

(** ** Collateral *)

Definition position_worth (u : Address) s : Z :=
  default 0 (shares_to_amount (get_total_shares s) (get_total_deposited s) (get_shares u s)).

Lemma build_position_Ok u s p s' :
  build_position u s = Ok p s' ->
  s' = s /\ (p = None <-> get_shares u s = 0) /\
  (forall pos, p = Some pos -> sp_amount pos = position_worth u s /\
     shares_to_amount (get_total_shares s) (get_total_deposited s) (get_shares u s) = Some (sp_amount pos)).
Proof.
  unfold build_position, reading, position_worth.
  destruct (Z.eqb_spec (get_shares u s) 0); [intros [-> ->]%ret_Ok; done|]. intros H.
  apply bind_Ok in H as (v & ? & H1 & H). apply ok_or_Ok in H1 as [Hv ->]. apply ret_Ok in H as [-> ->].
  rewrite Hv. split; [done|]. split; [done|]. by intros pos [= <-].
Qed.

Lemma ltv_ceiling_Ok config a s c s' :
  ltv_ceiling config a s = Ok c s' -> s' = s /\ c = Z.quot (a * lc_max_ltv_bps config) BPS.
Proof.
  unfold ltv_ceiling. intros H. apply bind_Ok in H as (v & ? & H1 & H).
  apply ok_or_Ok in H1 as [[-> _]%checked_mul_Some ->]. apply ret_Ok in H as [-> ->]. done.
Qed.

Lemma loan_token_Ok s t s' :
  loan_token s = Ok t s' -> s' = s /\ Some t = match get_reward_token s with Some r => Some r | None => rd Token s end.
Proof.
  unfold loan_token, reading. destruct (get_reward_token s); [intros [-> ->]%ret_Ok; done|].
  unfold token_address, reading. by intros [-> ->]%ok_or_Ok.
Qed.

(** ** The keys a loan touches *)

Definition loan_keys (u : Address) (k : key) : Prop := k = KFin (LoanOf u) \/ k = KInst RewardPoolBalance.

Lemma set_pool_Ok E a s x s' :
  set_reward_pool_balance (E:=E) a s = Ok x s' -> 0 <= a /\ s' = upd RewardPoolBalance (Some a) s.
Proof.
  unfold set_reward_pool_balance, assert_non_negative. intros H. apply bind_Ok in H as (? & ? & H1 & H).
  apply panic_if_Ok in H1 as (Hx & _ & ->). apply put_Ok in H as [_ ->]. split; [lia|done].
Qed.

Lemma borrow_Ok u amt s r s' :
  borrow env u amt s = Ok r s' ->
  exists c loan t s1, get_loan_config s = Some c /\ get_shares u s <> 0 /\ 0 < amt /\ signed env u = true /\
    loan = default (mkLoan 0 0 (sequence env) (sequence env)) (get_loan u s) /\
    ln_principal loan + (ln_interest_accrued loan + interest_due c loan (sequence env)) + amt
      <= Z.quot (position_worth u s * lc_max_ltv_bps c) BPS /\
    amt <= get_reward_pool_balance s /\
    Some t = match get_reward_token s with Some r => Some r | None => rd Token s end /\
    transfer (E:=VaultFeatureError.t) t (self env) u amt s = Ok tt s1 /\ st_ext s' = st_ext s1 /\
    get_reward_pool_balance s' = get_reward_pool_balance s - amt /\
    (exists l, get_loan u s' = Some l /\ ln_principal l = ln_principal loan + amt /\
       ln_interest_accrued l = ln_interest_accrued loan + interest_due c loan (sequence env) /\
       ln_last_interest_at l = sequence env) /\
    r = ln_principal loan + amt /\ (forall k, ~ loan_keys u k -> rd k s' = rd k s).
Proof.
  intros H. unfold borrow in H.
  apply bind_Ok in H as (? & ? & H1 & H). apply require_auth_Ok in H1 as (Hsig & _ & ->).
  apply bind_Ok in H as (? & ? & H1 & H). apply fail_if_Ok in H1 as (Hamt%Z.leb_gt & _ & ->). unfold reading at 1 in H.
  apply bind_Ok in H as (c & ? & H1 & H). apply ok_or_Ok in H1 as [Hc ->].
  apply bind_Ok in H as (b & ? & H1 & H). apply (proj1 (try_Ok _ _ _ _)), build_position_Ok in H1 as (-> & Hn & Hp).
  apply bind_Ok in H as (pos & ? & H1 & H). apply ok_or_Ok in H1 as [-> ->]. destruct (Hp pos eq_refl) as [Hw _].
  unfold reading at 1 in H. set (loan := default _ (get_loan u s)) in *.
  apply bind_Ok in H as (l & ? & H1 & H). apply (proj1 (try_Ok _ _ _ _)), accrue_Ok in H1 as (-> & Hl1 & Hl2 & Hl3).
  rewrite Hc in Hl2, Hl3. simpl in Hl2.
  apply bind_Ok in H as (ceil & ? & H1 & H). apply ltv_ceiling_Ok in H1 as [-> ->].
  apply bind_Ok in H as (nd & ? & H1 & H). apply ok_or_Ok in H1 as [Hd ->]. unfold debt_of in Hd.
  destruct (checked_add (ln_principal l) _) as [d0|] eqn:Hd0; [|done].
  apply checked_add_Some in Hd0 as [-> _]. apply checked_add_Some in Hd as [-> _].
  apply bind_Ok in H as (? & ? & H1 & H). apply fail_if_Ok in H1 as (Hle%Z.ltb_ge & _ & ->). unfold reading at 1 in H.
  apply bind_Ok in H as (? & ? & H1 & H). apply fail_if_Ok in H1 as (Hpool%Z.ltb_ge & _ & ->).
  apply bind_Ok in H as (t & ? & H1 & H). apply (proj1 (try_Ok _ _ _ _)), loan_token_Ok in H1 as [-> Ht].
  apply bind_Ok in H as ([] & s1 & Htr & H).
  assert (Hk : forall k, rd k s1 = rd k s) by (intros k; apply transfer_Ok in Htr as (w & _ & _ & ->); apply rd_set_ext).
  apply bind_Ok in H as (rest & ? & H1 & H). apply plain_Ok in H1 as [[-> _]%checked_sub_Some ->].
  apply bind_Ok in H as (? & s2 & H1 & H). apply set_pool_Ok in H1 as [_ ->].
  apply bind_Ok in H as (p & ? & H1 & H). apply plain_Ok in H1 as [[-> _]%checked_add_Some ->].
  apply bind_Ok in H as (? & ? & H1 & H). apply put_Ok in H1 as [_ ->].
  apply bind_Ok in H as (? & ? & H1 & H). apply publish_Ok in H1 as [_ ->]. apply ret_Ok in H as [-> ->].
  exists c, loan, t, s1. rewrite Hl1, Hl2, Hw in Hle. rewrite Hl1.
  split_and!; try done; try lia.
  - intros E. by apply Hn in E.
  - eexists. unfold get_loan. rdsimp. split; [done|]. simpl. split_and!; (done || lia).
  - intros k Hk'. rewrite rd_emit, !rd_upd_ne; [apply Hk|..]; intros <-; apply Hk'; by (left + right).
Qed.

(** What [settle_loan] leaves. *)
Definition settled_loan (loan : Loan) (applied : Z) : Z * Z :=
  let to_interest := Z.min applied (ln_interest_accrued loan) in
  (Z.max (ln_principal loan - (applied - to_interest)) 0, ln_interest_accrued loan - to_interest).

Lemma settle_loan_Ok E u loan applied s x s' :
  settle_loan (E:=E) env u loan applied s = Ok x s' ->
  let (principal, interest) := settled_loan loan applied in
  match get_loan u s' with
  | Some l => ln_principal l = principal /\ ln_interest_accrued l = interest /\ (principal <> 0 \/ interest <> 0)
  | None => principal = 0 /\ interest = 0
  end /\ (forall k, k <> KFin (LoanOf u) -> rd k s' = rd k s) /\ st_ext s' = st_ext s.
Proof.
  intros H. unfold settle_loan in H. unfold settled_loan.
  set (ti := if applied <? _ then _ else _) in H.
  assert (ti = Z.min applied (ln_interest_accrued loan)) as Hti by (subst ti; destruct (Z.ltb_spec applied (ln_interest_accrued loan)); lia).
  rewrite <- Hti. clearbody ti.
  apply bind_Ok in H as (i & ? & H1 & H). apply plain_Ok in H1 as [[-> _]%checked_sub_Some ->].
  apply bind_Ok in H as (tp & ? & H1 & H). apply plain_Ok in H1 as [[-> _]%checked_sub_Some ->].
  apply bind_Ok in H as (rest & ? & H1 & H). apply plain_Ok in H1 as [[-> _]%checked_sub_Some ->].
  apply bind_Ok in H as (? & s1 & H1 & H). apply publish_Ok in H as [_ ->].
  destruct ((_ =? 0) && (_ =? 0)) eqn:Hz.
  - apply del_Ok in H1 as [_ ->]. apply andb_true_iff in Hz as [?%Z.eqb_eq ?%Z.eqb_eq]. unfold get_loan.
    rewrite rd_emit, rd_upd_eq. split_and!; try done. intros k Hk. by rewrite rd_emit, rd_upd_ne.
  - apply put_Ok in H1 as [_ ->]. apply andb_false_iff in Hz. rewrite !Z.eqb_neq in Hz. unfold get_loan.
    rewrite rd_emit, rd_upd_eq. simpl. split_and!; try done. intros k Hk. by rewrite rd_emit, rd_upd_ne.
Qed.

Lemma repay_Ok u amt s r s' :
  repay env u amt s = Ok r s' ->
  exists loan debt applied, get_loan u s = Some loan /\ 0 < amt /\ signed env u = true /\
    debt = ln_principal loan + (ln_interest_accrued loan + due_on (get_loan_config s) loan (sequence env)) /\
    applied = Z.min amt debt /\ r = debt - applied /\
    (forall k, ~ loan_keys u k -> rd k s' = rd k s) /\
    (get_reward_pool_balance s' = get_reward_pool_balance s + Z.max applied 0) /\
    (if 0 <? applied
     then exists t s1, Some t = (match get_reward_token s with Some r => Some r | None => rd Token s end) /\
            transfer (E:=VaultFeatureError.t) t u (self env) applied s = Ok tt s1 /\ st_ext s' = st_ext s1
     else st_ext s' = st_ext s) /\
    (let (principal, interest) :=
       settled_loan (mkLoan (ln_principal loan)
         (ln_interest_accrued loan + due_on (get_loan_config s) loan (sequence env)) 0 0) applied in
     match get_loan u s' with
     | Some l => ln_principal l = principal /\ ln_interest_accrued l = interest /\ (principal <> 0 \/ interest <> 0)
     | None => principal = 0 /\ interest = 0
     end).
Proof.
  intros H. unfold repay in H.
  apply bind_Ok in H as (? & ? & H1 & H). apply require_auth_Ok in H1 as (Hsig & _ & ->).
  apply bind_Ok in H as (? & ? & H1 & H). apply fail_if_Ok in H1 as (Hamt%Z.leb_gt & _ & ->). unfold reading at 1 in H.
  apply bind_Ok in H as (loan & ? & H1 & H). apply ok_or_Ok in H1 as [Hloan ->].
  apply bind_Ok in H as (l & ? & H1 & H). apply (proj1 (try_Ok _ _ _ _)), accrue_Ok in H1 as (-> & Hl1 & Hl2 & _).
  apply bind_Ok in H as (d & ? & H1 & H). apply ok_or_Ok in H1 as [[-> _]%checked_add_Some ->].
  rewrite Hl1, Hl2 in H. set (i := ln_interest_accrued loan + _) in *. set (d := ln_principal loan + i) in *.
  set (ap := if amt <? d then amt else d) in H.
  assert (ap = Z.min amt d) as Hap by (subst ap; destruct (Z.ltb_spec amt d); lia). clearbody ap.
  apply bind_Ok in H as (? & s1 & H1 & H). apply bind_Ok in H as (? & s2 & H2 & H).
  apply plain_Ok in H as [[-> _]%checked_sub_Some ->].
  apply settle_loan_Ok in H2. unfold settled_loan in H2. rewrite Hl1, Hl2 in H2. fold i in H2.
  destruct H2 as (Hset & Hk2 & He2).
  assert (Hpay : (forall k, k <> KInst RewardPoolBalance -> rd k s1 = rd k s) /\
    get_reward_pool_balance s1 = get_reward_pool_balance s + Z.max ap 0 /\
    (if 0 <? ap then exists t s0, Some t = match get_reward_token s with Some r => Some r | None => rd Token s end /\
       transfer (E:=VaultFeatureError.t) t u (self env) ap s = Ok tt s0 /\ st_ext s1 = st_ext s0
     else st_ext s1 = st_ext s)).
  { destruct (Z.ltb_spec 0 ap).
    - apply bind_Ok in H1 as (t & ? & H3 & H1). apply (proj1 (try_Ok _ _ _ _)), loan_token_Ok in H3 as [-> Ht].
      apply bind_Ok in H1 as ([] & s0 & Htr & H1). unfold reading at 1 in H1.
      assert (Hk : forall k, rd k s0 = rd k s)
        by (intros k; apply transfer_Ok in Htr as (w & _ & _ & ->); apply rd_set_ext).
      apply bind_Ok in H1 as (p & ? & H3 & H1). apply plain_Ok in H3 as [[-> _]%checked_add_Some ->].
      apply set_pool_Ok in H1 as [_ ->]. split; [intros k Hk'; rewrite rd_upd_ne by congruence; apply Hk|].
      split; [|by exists t, s0]. unfold get_reward_pool_balance. rewrite rd_upd_eq, Hk. simpl. lia.
    - apply ret_Ok in H1 as [_ ->]. split; [done|]. split; [lia|done]. }
  destruct Hpay as (Hk1 & Hp1 & Ht1).
  exists loan, d, ap. split_and!; try done.
  - intros k Hk. unfold loan_keys in Hk. rewrite Hk2, Hk1; tauto.
  - unfold get_reward_pool_balance in *. by rewrite Hk2.
  - rewrite He2. done.
Qed.

Lemma liquidate_loan_Ok a u s r s' :
  liquidate_loan env a u s = Ok r s' ->
  exists loan debt slashed,
    get_loan u s = Some loan /\ get_shares u s <> 0 /\ 0 < position_worth u s /\
    shares_to_amount (get_total_shares s) (get_total_deposited s) (get_shares u s) = Some (position_worth u s) /\
    debt = ln_principal loan + (ln_interest_accrued loan + due_on (get_loan_config s) loan (sequence env)) /\
    LIQUIDATION_LTV_BPS <= Z.quot (debt * BPS) (position_worth u s) /\
    r = Z.min debt (position_worth u s) /\
    (exists sh, amount_to_shares (get_total_shares s) (get_total_deposited s) r = Some sh /\
       slashed = Z.min sh (get_shares u s)) /\
    rewritten s s' u (get_shares u s - slashed) (get_total_shares s - slashed) (Z.max (get_total_deposited s - r) 0) /\
    get_loan u s' = None /\ get_reward_pool_balance s' = get_reward_pool_balance s + r /\ st_ext s' = st_ext s /\
    (forall k, ~ share_write_keys u k -> k <> KInst TotalShares -> k <> KInst TotalDeposited ->
       k <> KPers TotalCheckpoints -> ~ loan_keys u k -> rd k s' = rd k s).
Proof.
  intros H. unfold liquidate_loan in H.
  apply bind_Ok in H as (? & ? & H1 & H). apply (proj1 (try_Ok _ _ _ _)), require_admin_as_Ok in H1 as (_ & _ & _ & _ & ->).
  unfold reading at 1 in H.
  apply bind_Ok in H as (loan & ? & H1 & H). apply ok_or_Ok in H1 as [Hloan ->].
  apply bind_Ok in H as (l & ? & H1 & H). apply (proj1 (try_Ok _ _ _ _)), accrue_Ok in H1 as (-> & Hl1 & Hl2 & _).
  apply bind_Ok in H as (b & ? & H1 & H). apply (proj1 (try_Ok _ _ _ _)), build_position_Ok in H1 as (-> & Hn & Hp).
  apply bind_Ok in H as (pos & ? & H1 & H). apply ok_or_Ok in H1 as [-> ->]. destruct (Hp pos eq_refl) as [Hw Hsa].
  apply bind_Ok in H as (? & ? & H1 & H). apply fail_if_Ok in H1 as (Hpos%Z.leb_gt & _ & ->).
  apply bind_Ok in H as (d & ? & H1 & H). apply ok_or_Ok in H1 as [[-> _]%checked_add_Some ->].
  rewrite Hl1, Hl2, Hw in H. rewrite Hw in Hpos, Hsa. clear Hw Hp Hl1 Hl2.
  set (d := ln_principal loan + _) in *. set (w := position_worth u s) in *.
  apply bind_Ok in H as (v & ? & H1 & H). apply ok_or_Ok in H1 as [[-> _]%checked_mul_Some ->].
  apply bind_Ok in H as (? & ? & H1 & H). apply fail_if_Ok in H1 as (Hltv%Z.ltb_ge & _ & ->).
  unfold reading at 1 in H. unfold reading at 1 in H. unfold reading at 1 in H.
  set (cov := if d <? w then d else w) in H.
  assert (cov = Z.min d w) as Hcov by (subst cov; destruct (Z.ltb_spec d w); lia). clearbody cov.
  apply bind_Ok in H as (sh & ? & H1 & H). apply ok_or_Ok in H1 as [Hsh ->].
  set (sl := if get_shares u s <? sh then _ else _) in H.
  assert (sl = Z.min sh (get_shares u s)) as Hsl by (subst sl; destruct (Z.ltb_spec (get_shares u s) sh); lia). clearbody sl.
  apply bind_Ok in H as (n1 & ? & H1 & H). apply plain_Ok in H1 as [[-> _]%checked_sub_Some ->].
  apply bind_Ok in H as (? & s1 & H1 & H).
  apply bind_Ok in H as (n2 & ? & H2 & H). apply plain_Ok in H2 as [[-> _]%checked_sub_Some ->].
  apply bind_Ok in H as (? & s2 & H2 & H).
  apply bind_Ok in H as (n3 & ? & H3 & H). apply plain_Ok in H3 as [[-> _]%checked_sub_Some ->].
  apply bind_Ok in H as (? & s3 & H3 & H).
  destruct (three_writes _ _ _ _ _ _ _ _ _ _ _ _ _ H1 H2 H3) as (Hr & He & Hk). clear H1 H2 H3.
  unfold reading at 1 in H. apply bind_Ok in H as (pool & ? & H1 & H). apply plain_Ok in H1 as [[-> _]%checked_add_Some ->].
  apply bind_Ok in H as (? & ? & H1 & H). apply set_pool_Ok in H1 as [_ ->].
  apply bind_Ok in H as (? & ? & H1 & H). apply del_Ok in H1 as [_ ->].
  apply bind_Ok in H as (? & ? & H1 & H). apply publish_Ok in H1 as [_ ->]. apply ret_Ok in H as [-> ->].
  assert (Hpool3 : get_reward_pool_balance s3 = get_reward_pool_balance s).
  { unfold get_reward_pool_balance. rewrite Hk; try done. intros [|[|[|(? & [|])]]]; done. }
  exists loan, d, sl. split_and!; try done.
  - intros E. by apply Hn in E.
  - by exists sh.
  - eapply rewritten_frame; [exact Hr|]. intros k Hk'. rewrite rd_emit, !rd_upd_ne; [done|..]; intros <-; done.
  - unfold get_loan. by rewrite rd_emit, rd_upd_eq.
  - rewrite <- Hpool3. unfold get_reward_pool_balance. by rdsimp.
  - intros k K1 K2 K3 K4 K5. unfold loan_keys in K5. rewrite rd_emit, !rd_upd_ne by (intros <-; tauto). by apply Hk.
Qed.

End Runs.

(** ** Flash stakes *)

Section Flash.
Context {W : World} {HT : StandardTokens W} (env : Env).
Implicit Types s : State.

Definition fee_key (k : key) : Prop := k = KInst RewardPoolBalance \/ k = KFin RevPool.

(** The terms the setters accept. *)
Record terms_ok s : Prop := {
  to_flash : 0 <= get_flash_stake_fee_bps s <= BPS;
  to_recycle : 0 <= get_fee_recycle_bps_internal s <= BPS;
  to_share : forall c, get_revenue_sharing_config s = Some c -> 0 <= rc_share_bps c <= BPS
}.

Lemma part_of_fee fee bps : 0 <= fee -> 0 <= bps <= BPS -> 0 <= Z.quot (fee * bps) BPS <= fee.
Proof.
  intros Hf Hb. assert (0 < BPS) by done. rewrite Z.quot_div_nonneg by nia. split; [apply Z.div_pos; nia|].
  apply Z.div_le_upper_bound; nia.
Qed.

Lemma revenue_portion_Ok E fee s r s' :
  0 <= fee -> terms_ok s -> revenue_portion (E:=E) fee s = Ok r s' -> s' = s /\ 0 <= r <= fee.
Proof.
  intros Hf Ht H. unfold revenue_portion, reading in H.
  destruct (get_revenue_sharing_config s) as [c|] eqn:Hc; [|apply ret_Ok in H as [-> ->]; split; [done|lia]].
  destruct (0 <? rc_share_bps c); [|apply ret_Ok in H as [-> ->]; split; [done|lia]].
  apply bind_Ok in H as (v & ? & H1 & H). apply plain_Ok in H1 as [[-> _]%checked_mul_Some ->].
  apply ret_Ok in H as [-> ->]. split; [done|]. apply part_of_fee; [done|by apply Ht].
Qed.

Lemma recycled_part_Ok fee s r s' :
  0 <= fee -> terms_ok s -> recycled_part fee s = Ok r s' ->
  0 <= r <= fee /\ get_reward_pool_balance s' = get_reward_pool_balance s + r /\
  (forall k, k <> KInst RewardPoolBalance -> rd k s' = rd k s) /\ st_ext s' = st_ext s.
Proof.
  intros Hf Ht H. unfold recycled_part in H. apply bind_Ok in H as (v & s1 & H1 & H).
  unfold catch in H1. destruct (recycle_fee fee s) as [a s0|e s0|t] eqn:Hr; [injection H1 as <- <-|injection H1 as <- <-; done|done].
  apply ret_Ok in H as [-> ->]. apply recycle_fee_Ok in Hr as (H1 & H2 & H3 & H4); [|done|by apply Ht].
  split_and!; (done || lia).
Qed.

Lemma route_flash_fee_Ok token fee s x s' :
  0 <= fee -> terms_ok s -> route_flash_fee env token fee s = Ok x s' ->
  exists rec rev, 0 <= rec /\ 0 <= rev /\ rec + rev <= fee /\
    get_reward_pool_balance s' = get_reward_pool_balance s + rec /\
    get_revenue_share_pool s' = get_revenue_share_pool s + rev /\
    balance_of token (self env) s - (fee - rec - rev) <= balance_of token (self env) s' /\
    (forall k, ~ fee_key k -> rd k s' = rd k s).
Proof.
  intros Hf Ht H. unfold route_flash_fee in H.
  apply bind_Ok in H as (rec & s1 & H1 & H). apply recycled_part_Ok in H1 as (Hr & Hp & Hk1 & He1); [|done..].
  apply bind_Ok in H as (rf & ? & H1 & H). apply plain_Ok in H1 as [[-> _]%checked_sub_Some ->].
  assert (Ht1 : terms_ok s1).
  { destruct Ht as [T1 T2 T3]. unfold get_flash_stake_fee_bps, get_fee_recycle_bps_internal, get_revenue_sharing_config in *.
    split; unfold get_flash_stake_fee_bps, get_fee_recycle_bps_internal, get_revenue_sharing_config; by rewrite !Hk1. }
  apply bind_Ok in H as (rev & ? & H1 & H). apply revenue_portion_Ok in H1 as [-> Hrev]; [|lia|done].
  apply bind_Ok in H as (tf & ? & H1 & H). apply plain_Ok in H1 as [[-> _]%checked_sub_Some ->].
  apply bind_Ok in H as (? & s2 & H1 & H). exists rec, rev.
  assert (Hs2 : get_revenue_share_pool s2 = get_revenue_share_pool s + rev /\
    (forall k, k <> KFin RevPool -> rd k s2 = rd k s1) /\ st_ext s2 = st_ext s1).
  { unfold get_revenue_share_pool at 2. rewrite <- (Hk1 RevPool) by done. change (default 0 _) with (get_revenue_share_pool s1).
    destruct (Z.ltb_spec 0 rev); [|apply ret_Ok in H1 as [_ ->]; split_and!; (done || lia)].
    unfold reading, set_revenue_share_pool, assert_non_negative in H1.
    apply bind_Ok in H1 as (v & ? & H2 & H1). apply plain_Ok in H2 as [[-> _]%checked_add_Some ->].
    apply bind_Ok in H1 as (? & ? & H2 & H1). apply panic_if_Ok in H2 as (_ & _ & ->). apply put_Ok in H1 as [_ ->].
    split; [unfold get_revenue_share_pool at 1; by rdsimp|]. split; [intros k Hk; by rdsimp|done]. }
  destruct Hs2 as (Hv & Hk2 & He2).
  assert (Hs' : balance_of token (self env) s - (fee - rec - rev) <= balance_of token (self env) s' /\
     forall k, rd k s' = rd k s2).
  { unfold balance_of at 1. rewrite <- He1, <- He2. change (tok_balance (st_ext s2) token (self env)) with (balance_of token (self env) s2).
    destruct (Z.ltb_spec 0 (fee - rec - rev)); [|apply ret_Ok in H as [_ ->]; split; [lia|done]].
    unfold reading in H. apply bind_Ok in H as (tr & s3 & H1' & H).
    assert (s3 = s2) as ->.
    { destruct (get_slash_treasury s2); [by apply ret_Ok in H1' as [_ ->]|].
      apply (proj1 (try_Ok _ _ _ _)) in H1'. by apply get_admin_Ok in H1' as (_ & _ & ->). }
    apply token_sent in H as (_ & Hk & Hb & _). split; [lia|done]. }
  destruct Hs' as [Hb Hk3]. split_and!; try done; try lia.
  - unfold get_reward_pool_balance in *. by rewrite Hk3, Hk2.
  - unfold get_revenue_share_pool in *. by rewrite Hk3.
  - intros k Hk. unfold fee_key in Hk. rewrite Hk3, Hk2, Hk1; tauto.
Qed.

Definition flash_key (k : key) : Prop :=
  fee_key k \/ pause_key k \/ k = KFin FlashSeq \/ exists id, k = KFin (FlashReceipt id).

Lemma flash_stake_Ok token u amt s r s' :
  rd Token s = Some token -> u <> self env -> terms_ok s -> flash_stake env u amt s = Ok r s' ->
  exists rec rev, 0 <= rec /\ 0 <= rev /\
    get_reward_pool_balance s' = get_reward_pool_balance s + rec /\
    get_revenue_share_pool s' = get_revenue_share_pool s + rev /\
    balance_of token (self env) s + rec + rev <= balance_of token (self env) s' /\
    (forall k, ~ flash_key k -> rd k s' = rd k s).
Proof.
  intros Htok Hne Ht H. unfold flash_stake in H.
  apply bind_Ok in H as (? & ? & H1 & H). apply require_auth_Ok in H1 as (_ & _ & ->).
  apply bind_Ok in H as (? & ? & H1 & H). apply fail_if_Ok in H1 as (Hamt%Z.leb_gt & _ & ->).
  apply bind_Ok in H as (? & s0 & H1 & H). apply (proj1 (try_Ok _ _ _ _)), not_paused_Ok in H1 as [Hk0 He0].
  apply bind_Ok in H as (t & ? & H1 & H). apply (proj1 (try_Ok _ _ _ _)) in H1. unfold token_address, reading in H1.
  apply ok_or_Ok in H1 as [Hto ->]. rewrite (Hk0 Token), Htok in Hto by (intros []). injection Hto as <-.
  apply bind_Ok in H as (? & s1 & H1 & H). apply token_received in H1 as (_ & Hk1 & Hb1); [|done].
  unfold next_flash_receipt_id in H.
  apply bind_Ok in H as (id & ? & H1 & H). unfold reading in H1. apply bind_Ok in H1 as (? & ? & H2 & H1).
  apply panic_if_Ok in H2 as (_ & _ & ->). apply bind_Ok in H1 as (? & ? & H2 & H1). apply put_Ok in H2 as [_ ->].
  apply ret_Ok in H1 as [-> ->].
  apply bind_Ok in H as (? & ? & H1 & H). apply put_Ok in H1 as [_ ->]. unfold reading at 1 in H.
  set (s2 := upd (FlashReceipt _) _ _) in H.
  assert (Hk2 : forall k, ~ flash_key k \/ fee_key k -> rd k s2 = rd k s).
  { intros k Hk. subst s2. rewrite !rd_upd_ne, Hk1, Hk0; [done|..]; unfold flash_key, fee_key in *.
    - destruct Hk as [Hk|[-> | ->]]; [tauto|by intros []..].
    - intros <-. destruct Hk as [Hk|[|]]; [tauto|done..].
    - intros <-. destruct Hk as [Hk|[|]]; [|done..]. apply Hk. right. right. right. by eexists. }
  assert (Hb2 : balance_of token (self env) s2 = balance_of token (self env) s + amt).
  { subst s2. rewrite !balance_of_upd, Hb1. unfold balance_of at 1. by rewrite He0. }
  clearbody s2.
  assert (Ht2 : terms_ok s2).
  { destruct Ht as [T1 T2 T3]. unfold get_flash_stake_fee_bps, get_fee_recycle_bps_internal, get_revenue_sharing_config in *.
    split; unfold get_flash_stake_fee_bps, get_fee_recycle_bps_internal, get_revenue_sharing_config;
      rewrite !Hk2; try done; left; unfold flash_key, fee_key; intros [[|]|[[]|[|[? ?]]]]; done. }
  apply bind_Ok in H as (v & ? & H1 & H). apply ok_or_Ok in H1 as [[-> _]%checked_mul_Some ->].
  set (fee := Z.quot _ _) in *. assert (Hfee : 0 <= fee <= amt) by (apply part_of_fee; [lia|apply Ht2]).
  apply bind_Ok in H as (? & s3 & H1 & H).
  assert (Hfeeway : exists rec rev, 0 <= rec /\ 0 <= rev /\
    get_reward_pool_balance s3 = get_reward_pool_balance s2 + rec /\
    get_revenue_share_pool s3 = get_revenue_share_pool s2 + rev /\
    balance_of token (self env) s2 - (fee - rec - rev) <= balance_of token (self env) s3 /\
    (forall k, ~ fee_key k -> rd k s3 = rd k s2)).
  { destruct (0 <? fee).
    - apply route_flash_fee_Ok in H1 as (rec & rev & ? & ? & ? & ?); [|lia|done]. exists rec, rev. tauto.
    - apply ret_Ok in H1 as [_ ->]. exists 0, 0. split_and!; (done || lia). }
  destruct Hfeeway as (rec & rev & Hr1 & Hr2 & Hp & Hrv & Hb3 & Hk3). exists rec, rev.
  apply bind_Ok in H as (ret' & ? & H1' & H). apply plain_Ok in H1' as [[-> _]%checked_sub_Some ->].
  apply bind_Ok in H as (? & s4 & H1' & H).
  assert (Hs4 : balance_of token (self env) s3 - (amt - fee) <= balance_of token (self env) s4 /\ forall k, rd k s4 = rd k s3).
  { destruct (Z.ltb_spec 0 (amt - fee)); [|apply ret_Ok in H1' as [_ ->]; split; [lia|done]].
    apply token_sent in H1' as (_ & Hk & Hb & _). split; [lia|done]. }
  destruct Hs4 as [Hb4 Hk4].
  apply bind_Ok in H as (? & ? & H2 & H). apply publish_Ok in H2 as [_ ->]. apply ret_Ok in H as [_ ->].
  unfold get_reward_pool_balance, get_revenue_share_pool in *. rewrite !rd_emit, !Hk4, balance_of_emit.
  rewrite (Hk2 RewardPoolBalance) in Hp by (right; by left). rewrite (Hk2 RevPool) in Hrv by (right; by right).
  split_and!; try done; try lia.
  intros k Hk. rewrite rd_emit, Hk4, Hk3, Hk2; [done|by left|]. intros Hf. apply Hk. by left.
Qed.

End Flash.

(** ** The funds behind loans *)

Inductive loan_op :=
| LSetTerms (admin : Address) (max_ltv_bps interest_rate_bps : Z)
| LBorrow (user : Address) (amount : Z)
| LRepay (user : Address) (amount : Z)
| LLiquidate (admin user : Address)
| LSetFlashFee (admin : Address) (bps : Z)
| LFlash (user : Address) (amount : Z).

Definition loan_perform {W : World} (env : Env) (o : loan_op) : State -> State :=
  match o with
  | LSetTerms a l i => invoke (set_loan_config env a l i)
  | LBorrow u x => invoke (borrow env u x)
  | LRepay u x => invoke (repay env u x)
  | LLiquidate a u => invoke (liquidate_loan env a u)
  | LSetFlashFee a b => invoke (set_flash_stake_fee_bps env a b)
  | LFlash u x => invoke (flash_stake env u x)
  end.

Section Backing.
Context {W : World} {HT : StandardTokens W} (token me : Address).
Implicit Types s : State.

(** What the vault holds beyond deposits, reward pool and revenue pool. *)
Definition loan_slack s : Z :=
  balance_of token me s - get_total_deposited s - get_reward_pool_balance s - get_revenue_share_pool s.

(** A vault that pays its rewards in the stake token. *)
Record lending_ok s : Prop := {
  lo_books : books s;
  lo_token : rd Token s = Some token;
  lo_reward : get_reward_token s = None \/ get_reward_token s = Some token;
  lo_terms : terms_ok s
}.

(** Basis points are [u32]; the contract does not act on its own behalf. *)
Definition loan_pre (o : loan_op) : Prop :=
  match o with
  | LRepay u _ | LFlash u _ => u <> me
  | LSetFlashFee _ b => in_u32 b
  | _ => True
  end.

Inductive loan_step : State -> State -> Prop :=
| ls_op env o s : self env = me -> loan_pre o -> loan_step s (loan_perform env o s)
| ls_other s s' : lending_ok s' -> loan_slack s <= loan_slack s' -> loan_step s s'.

Definition term_key (k : key) : Prop :=
  acc k = true \/ k = KInst Token \/ k = KInst RewardToken \/ k = KFin FlashFee \/ k = KClaim FeeRecycleBps \/
  k = KFin RevCfg.

Lemma lending_frame s s' : lending_ok s -> (forall k, term_key k -> rd k s' = rd k s) -> lending_ok s'.
Proof.
  intros [HB H1 H2 [T1 T2 T3]] Hk. unfold term_key in Hk.
  split; [eapply books_same; [|exact HB]; intros k Ha; apply Hk; tauto|by rewrite Hk by tauto| |].
  - unfold get_reward_token in *. by rewrite Hk by tauto.
  - split; [unfold get_flash_stake_fee_bps in *|unfold get_fee_recycle_bps_internal in *
      |unfold get_revenue_sharing_config in *]; rewrite Hk by tauto; assumption.
Qed.

Lemma lent_token s t : lending_ok s ->
  Some t = match get_reward_token s with Some r => Some r | None => rd Token s end -> t = token.
Proof. intros [_ H1 [H2|H2] _]; rewrite H2, ?H1; by intros [= ->]. Qed.

Lemma worth_le_deposits u s : books s -> 0 <= position_worth u s <= get_total_deposited s.
Proof.
  intros HB. pose proof (bk_deposited _ HB) as Hd. destruct (books_holding u s HB) as [H1 Hle].
  unfold position_worth, shares_to_amount, shares_to_amount_with_decimals.
  destruct (Z.eqb_spec (get_total_shares s) 0); [simpl; lia|].
  destruct (checked_mul _ _) as [v|] eqn:Hv; [|simpl; lia]. apply checked_mul_Some in Hv as [-> _]. simpl.
  destruct (checked_div _ _) as [q|] eqn:Hq; [|simpl; lia]. apply checked_div_Some in Hq as (_ & -> & _). simpl.
  rewrite Z.quot_div_nonneg by nia. split; [apply Z.div_pos; nia|apply Z.div_le_upper_bound; nia].
Qed.

Lemma borrow_backed env u x s r s' :
  self env = me -> lending_ok s -> borrow env u x s = Ok r s' -> lending_ok s' /\ loan_slack s <= loan_slack s'.
Proof.
  intros Hme HL H. apply borrow_Ok in H as (c & loan & t & s1 & _ & _ & Hx & _ & _ & _ & _ & Ht & Htr & He & Hp & _ & _ & Hk).
  apply lent_token in Ht as ->; [|done]. split.
  - apply (lending_frame s); [done|]. intros k Ht. apply Hk. unfold loan_keys, term_key in *.
    intros [-> | ->]; destruct Ht as [|[|[|[|[|]]]]]; done.
  - rewrite Hme in Htr. apply token_sent in Htr as (_ & Hk1 & Hb & _).
    unfold loan_slack. rewrite Hp. unfold balance_of in *. rewrite He.
    unfold get_total_deposited, get_revenue_share_pool. rewrite !Hk by (intros [|]; done). lia.
Qed.

Lemma repay_backed env u x s r s' :
  self env = me -> u <> me -> lending_ok s -> repay env u x s = Ok r s' -> lending_ok s' /\ loan_slack s <= loan_slack s'.
Proof.
  intros Hme Hu HL H.
  apply repay_Ok in H as (loan & d & ap & _ & Hx & _ & _ & _ & _ & Hk & Hp & Htr & _). split.
  - apply (lending_frame s); [done|]. intros k Ht. apply Hk. unfold loan_keys, term_key in *.
    intros [-> | ->]; destruct Ht as [|[|[|[|[|]]]]]; done.
  - assert (Hb : balance_of token me s' = balance_of token me s + Z.max ap 0).
    { destruct (Z.ltb_spec 0 ap).
      - destruct Htr as (t & s1 & Ht & Htr & He). apply lent_token in Ht as ->; [|done]. rewrite Hme in Htr.
        apply token_received in Htr as (_ & _ & Hb); [|done]. unfold balance_of in *. rewrite He. lia.
      - unfold balance_of. rewrite Htr. lia. }
    unfold loan_slack. rewrite Hb, Hp.
    unfold get_total_deposited, get_revenue_share_pool. rewrite !Hk by (intros [|]; done). lia.
Qed.

Lemma liquidate_commits env a u s : books s -> commits (liquidate_loan env a u) s.
Proof.
  intros HB r s' H. apply liquidate_loan_Ok in H as (? & ? & sl & _ & _ & _ & _ & _ & _ & _ & _ & Hr & _).
  eapply rewritten_books; [exact HB|exact Hr|]. lia.
Qed.

Lemma liquidate_backed env a u s r s' :
  lending_ok s -> liquidate_loan env a u s = Ok r s' -> lending_ok s' /\ loan_slack s <= loan_slack s'.
Proof.
  intros HL H. pose proof (liquidate_commits _ _ _ _ (lo_books _ HL) _ _ H) as HB.
  apply liquidate_loan_Ok in H as (loan & d & sl & _ & _ & _ & _ & _ & _ & Hrr & _ & (_ & _ & Hd & _) & _ & Hp & He & Hk).
  destruct (worth_le_deposits u s (lo_books _ HL)) as [Hw0 Hw].
  assert (Hk' : forall k, term_key k -> acc k = false -> rd k s' = rd k s).
  { intros k Ht Ha. apply Hk; unfold term_key, loan_keys in *.
    - intros Hc. destruct Hc as [-> |[-> |[-> |(t & [-> | ->])]]]; destruct Ht as [|[|[|[|[|]]]]]; done.
    - by intros ->. - by intros ->.
    - intros ->. destruct Ht as [|[|[|[|[|]]]]]; done.
    - intros [-> | ->]; destruct Ht as [|[|[|[|[|]]]]]; done. }
  split.
  - destruct HL as [_ H1 H2 [T1 T2 T3]]. split; [done|rewrite Hk' by (unfold term_key; tauto); done| |].
    + unfold get_reward_token in *. rewrite Hk' by (unfold term_key; tauto). done.
    + split; [unfold get_flash_stake_fee_bps in *|unfold get_fee_recycle_bps_internal in *
        |unfold get_revenue_sharing_config in *]; rewrite Hk' by (unfold term_key; tauto); assumption.
  - unfold loan_slack. rewrite Hd, Hp. unfold balance_of. rewrite He.
    assert (get_revenue_share_pool s' = get_revenue_share_pool s) as ->.
    { unfold get_revenue_share_pool. rewrite Hk; try done; [intros [|[|[|(t & [|])]]]; done|intros [|]; done]. }
    lia.
Qed.

Lemma flash_backed env u x s r s' :
  self env = me -> u <> me -> lending_ok s -> flash_stake env u x s = Ok r s' ->
  lending_ok s' /\ loan_slack s <= loan_slack s'.
Proof.
  intros Hme Hu HL H. apply (flash_stake_Ok env token) in H as (rec & rev & _ & _ & Hp & Hr & Hb & Hk);
    [|apply HL|congruence|apply HL]. rewrite Hme in Hb.
  assert (Hf : forall k, term_key k -> rd k s' = rd k s).
  { intros k Ht. apply Hk. unfold term_key, flash_key, fee_key in *.
    intros [[-> | ->]|[Hq|[-> |[id ->]]]]; try (destruct Ht as [|[|[|[|[|]]]]]; done).
    destruct Ht as [Ha|[-> |[-> |[-> |[-> | ->]]]]]; try done.
    by destruct k as [[]| |[] | | | | | | | | ]. }
  split; [by apply (lending_frame s)|]. unfold loan_slack. rewrite Hp, Hr.
  assert (get_total_deposited s' = get_total_deposited s) as ->
    by (unfold get_total_deposited; by rewrite Hf by (by left)). lia.
Qed.

Lemma loan_perform_backed env o s :
  self env = me -> loan_pre o -> lending_ok s ->
  lending_ok (loan_perform env o s) /\ loan_slack s <= loan_slack (loan_perform env o s).
Proof.
  intros Hme Hpre HL. destruct o; cbn [loan_perform loan_pre] in *; unfold invoke;
    match goal with |- context [match ?m with Ok _ _ => _ | _ => _ end] => destruct m as [r s'|e s'|t] eqn:H end;
    try (split; [done|lia]).
  - unfold set_loan_config in H. apply bind_Ok in H as (? & ? & H1 & H).
    apply (proj1 (try_Ok _ _ _ _)), require_admin_as_Ok in H1 as (_ & _ & _ & _ & ->).
    apply bind_Ok in H as (? & ? & H1 & H). apply fail_if_Ok in H1 as (_ & _ & ->). apply put_Ok in H as [_ ->].
    split.
    + apply (lending_frame s); [done|]. intros k Ht. apply rd_upd_ne. intros <-. unfold term_key in Ht.
      destruct Ht as [|[|[|[|[|]]]]]; done.
    + unfold loan_slack, get_total_deposited, get_reward_pool_balance, get_revenue_share_pool. rdsimp. lia.
  - by apply (borrow_backed env user amount _ r).
  - by apply (repay_backed env user amount _ r).
  - by apply (liquidate_backed env admin user _ r).
  - unfold set_flash_stake_fee_bps in H. apply bind_Ok in H as (? & ? & H1 & H).
    apply (proj1 (try_Ok _ _ _ _)), require_admin_as_Ok in H1 as (_ & _ & _ & _ & ->).
    apply bind_Ok in H as (? & ? & H1 & H). apply fail_if_Ok in H1 as (Hb%Z.ltb_ge & _ & ->). apply put_Ok in H as [_ ->].
    split.
    + destruct HL as [HB H1 H2 [T1 T2 T3]]. split.
      * eapply books_same; [|exact HB]. intros k Ha. apply rd_upd_ne. by intros <-.
      * by rdsimp.
      * unfold get_reward_token in *. by rdsimp.
      * unfold get_flash_stake_fee_bps, get_fee_recycle_bps_internal, get_revenue_sharing_config in *.
        split; unfold get_flash_stake_fee_bps, get_fee_recycle_bps_internal, get_revenue_sharing_config;
          rdsimp; [simpl; destruct Hpre; lia|done..].
    + unfold loan_slack, get_total_deposited, get_reward_pool_balance, get_revenue_share_pool. rdsimp. lia.
  - by apply (flash_backed env user amount _ r).
Qed.


End Backing.

(** ** Interest *)

Section Interest.
Context {W : World}.
Implicit Types s : State.

(** A loan touched in each of the contexts, one after the other. *)
Fixpoint touched (envs : list Env) (loan : Loan) : M VaultError.t Loan :=
  match envs with
  | [] => ret loan
  | env :: envs =>
      let! loan := accrue_loan_interest env loan in
      touched envs loan
  end.

(** The contexts are in order and start at ledger [a]. *)
Fixpoint in_sequence (a : Z) (envs : list Env) : Prop :=
  match envs with
  | [] => True
  | env :: envs => a < sequence env /\ in_sequence (sequence env) envs
  end.
Definition final (a : Z) (envs : list Env) : Z := default a (sequence <$> last envs).

Lemma final_cons a env envs : final a (env :: envs) = final (sequence env) envs.
Proof. unfold final. rewrite last_cons. by destruct (last envs). Qed.
Lemma in_sequence_final a envs : in_sequence a envs -> a <= final a envs.
Proof.
  revert a. induction envs as [|e envs IH]; intros a; [unfold final; simpl; lia|].
  intros [H1 H2]. rewrite final_cons. pose proof (IH _ H2). lia.
Qed.

Lemma div_add_bounds a b q : 0 < q -> 0 <= a -> 0 <= b -> a / q + b / q <= (a + b) / q <= a / q + b / q + 1.
Proof.
  intros Hq Ha Hb. pose proof (Z.div_mod a q ltac:(lia)). pose proof (Z.div_mod b q ltac:(lia)).
  pose proof (Z.mod_pos_bound a q Hq). pose proof (Z.mod_pos_bound b q Hq).
  pose proof (Z.div_mod (a + b) q ltac:(lia)). pose proof (Z.mod_pos_bound (a + b) q Hq). nia.
Qed.

Lemma touch_bounds (c : LoanConfig) envs loan s l s' :
  get_loan_config s = Some c -> 0 <= lc_interest_rate_bps c -> 0 < ln_principal loan ->
  in_sequence (ln_last_interest_at loan) envs -> touched envs loan s = Ok l s' ->
  let rate := ln_principal loan * lc_interest_rate_bps c in
  let year := BPS * STELLAR_LEDGERS_PER_YEAR in
  let whole := rate * (final (ln_last_interest_at loan) envs - ln_last_interest_at loan) / year in
  s' = s /\ ln_principal l = ln_principal loan /\
  whole - Z.of_nat (length envs) <= ln_interest_accrued l - ln_interest_accrued loan <= whole /\
  ((forall e1 env e2, envs = e1 ++ env :: e2 ->
      rate * (sequence env - final (ln_last_interest_at loan) e1) < year) ->
   ln_interest_accrued l = ln_interest_accrued loan).
Proof.
  intros Hc Hr. revert loan. induction envs as [|env envs IH]; intros loan Hp Hseq H; cbv zeta.
  { apply ret_Ok in H as [-> ->]. unfold final. simpl. rewrite Z.sub_diag, Z.mul_0_r, Z.div_0_l by done. split_and!; (done || lia). }
  destruct Hseq as [Hlt Hseq]. cbn [touched] in H.
  apply bind_Ok in H as (l1 & s1 & H1 & H). apply accrue_Ok in H1 as (-> & H1 & H2 & H3).
  rewrite Hc in H2, H3. unfold due_on, interest_due in H2.
  rewrite (proj2 (Z.leb_gt _ _)), (proj2 (Z.leb_gt (ln_principal loan) _)) in H2 by lia. simpl in H2.
  specialize (IH l1). rewrite H1, H3 in IH. specialize (IH Hp Hseq H) as (-> & Hpl & Hb & Hsmall).
  set (rate := ln_principal loan * lc_interest_rate_bps c) in *. set (year := BPS * STELLAR_LEDGERS_PER_YEAR) in *.
  assert (0 <= rate) by (subst rate; nia). assert (0 < year) by done.
  set (a := ln_last_interest_at loan) in *. pose proof (in_sequence_final _ _ Hseq).
  rewrite Z.quot_div_nonneg in H2 by nia. rewrite final_cons.
  pose proof (div_add_bounds (rate * (sequence env - a)) (rate * (final (sequence env) envs - sequence env)) year) as Hd.
  rewrite <- Z.mul_add_distr_l in Hd. specialize (Hd ltac:(lia) ltac:(nia) ltac:(nia)).
  replace (sequence env - a + (final (sequence env) envs - sequence env)) with (final (sequence env) envs - a) in Hd by lia.
  split; [done|]. split; [congruence|]. split; [cbn [length]; lia|]. intros Hgap.
  rewrite Hsmall.
  - rewrite H2, Z.div_small; [lia|]. split; [nia|]. apply (Hgap [] env envs eq_refl).
  - intros e1 e e2 ->. specialize (Hgap (env :: e1) e e2 eq_refl). by rewrite final_cons in Hgap.
Qed.

(** Interest is only ever rounded down.  Every draw, repayment, claim and
    liquidation first adds the simple interest since the last touch, rounded
    down, and moves the mark to the current ledger.  Over any increasing
    sequence of touches the interest charged lies between the simple interest
    of the whole period less one unit per touch and that interest itself.  A
    borrower that touches the loan so often that no single stretch earns a
    whole unit pays no interest at all. *)
Theorem interest_only_rounds_down (c : LoanConfig) (envs : list Env) (loan l : Loan) (s s' : State) :
  get_loan_config s = Some c -> 0 <= lc_interest_rate_bps c -> 0 < ln_principal loan ->
  in_sequence (ln_last_interest_at loan) envs -> touched envs loan s = Ok l s' ->
  let rate := ln_principal loan * lc_interest_rate_bps c in
  let year := BPS * STELLAR_LEDGERS_PER_YEAR in
  let whole := rate * (final (ln_last_interest_at loan) envs - ln_last_interest_at loan) / year in
  ln_principal l = ln_principal loan /\
  whole - Z.of_nat (length envs) <= ln_interest_accrued l - ln_interest_accrued loan <= whole /\
  ((forall e1 env e2, envs = e1 ++ env :: e2 ->
      rate * (sequence env - final (ln_last_interest_at loan) e1) < year) ->
   ln_interest_accrued l = ln_interest_accrued loan).
Proof. intros Hc Hr Hp Hs H. by apply (touch_bounds c envs loan s l s'). Qed.

End Interest.

(** ** Collateral *)

Section Collateral.
Context {W : World} (env : Env).
Implicit Types s : State.

Definition not_a_loan (k : key) : Prop := match k with KFin _ => False | _ => True end.

Lemma set_shares_no_loan E u a : touches not_a_loan (set_shares (E:=E) env u a).
Proof.
  eapply touches_weaken; [|apply set_shares_touches].
  intros k [-> |[-> |[-> |(t & [-> | ->])]]]; exact I.
Qed.
Lemma set_total_no_loan E t : touches not_a_loan (set_total_shares (E:=E) env t).
Proof. eapply touches_weaken; [|apply set_total_shares_touches]. intros k [-> | ->]; exact I. Qed.
Lemma put_no_loan E k v : not_a_loan k -> touches not_a_loan (put (E:=E) k v).
Proof. apply touches_put. Qed.
#[local] Hint Resolve set_shares_no_loan set_total_no_loan : frame.
Lemma del_no_loan E k : not_a_loan k -> touches not_a_loan (del (E:=E) k).
Proof. apply touches_del. Qed.
#[local] Hint Extern 3 (touches not_a_loan (put _ _)) => apply put_no_loan; exact I : frame.
#[local] Hint Extern 3 (touches not_a_loan (del _)) => apply del_no_loan; exact I : frame.

Lemma mirror_action_no_loan E u act amt : touches not_a_loan (maybe_mirror_action (E:=E) env u act amt).
Proof. unfold maybe_mirror_action, mirror_one. frames; unfold mirror_stake, mirror_unstake, mirror_failed, mirror_executed, set_total_deposited; frames. Qed.
#[local] Hint Resolve mirror_action_no_loan : frame.

Lemma pull_no_loan n : touches not_a_loan (pull_from_strategies env n).
Proof.
  unfold pull_from_strategies, set_strategy_records. frames.
  generalize 0 as z. induction a as [|r l IH]; intros z; cbn [pull_loop]; unfold pull_one, try_i128; frames.
Qed.
#[local] Hint Resolve pull_no_loan : frame.

Lemma unstake_all_no_loan u : touches not_a_loan (unstake_all env u).
Proof.
  unfold unstake_all, projected_unstake_amount, enforce_and_record, current_tracker, get_raw_tracker, set_tracker, do_unstake,
    token_address, enqueue_withdrawal, set_total_deposited. frames.
Qed.

(** A loan outlives its collateral.  Withdrawing a position, the whole of
    it included, neither looks at the owner's loan nor changes it; and once the
    owner holds no shares, no administrator can liquidate the loan, at whatever
    ledger and whatever the debt has grown to. *)
Theorem loan_outlives_collateral (u : Address) (x : Z) (s s' : State) :
  unstake_all env u s = Ok x s' ->
  get_loan u s' = get_loan u s /\
  (forall env2 a r (s2 s3 : State), get_shares u s2 = 0 -> liquidate_loan env2 a u s2 <> Ok r s3).
Proof.
  intros H. split.
  - unfold get_loan. apply (touches_Ok not_a_loan _ _ _ _ (LoanOf u) (unstake_all_no_loan u) H). by intros [].
  - intros env2 a r s2 s3 Hz Hl. apply liquidate_loan_Ok in Hl as (? & ? & ? & _ & Hn & _). done.
Qed.

(** A draw stays within the loan to value ratio and comes out of the pool:
    after a successful [borrow] the debt with the interest to date is at most
    the configured part of the value of the position, the borrower has received
    exactly the amount and the reward pool has given exactly that.  A repayment
    settles interest before principal, takes no more than the debt, pays what
    it takes into the pool, and clears the loan exactly when it covers the
    whole debt. *)
Theorem borrow_and_repay_exact `{!StandardTokens W} (u token : Address) (amt r : Z) (s s' : State) :
  (get_reward_token s = Some token \/ get_reward_token s = None /\ rd Token s = Some token) -> u <> self env ->
  (borrow env u amt s = Ok r s' ->
     exists c l, get_loan_config s = Some c /\ get_loan u s' = Some l /\ r = ln_principal l /\
       ln_principal l + ln_interest_accrued l <= Z.quot (position_worth u s * lc_max_ltv_bps c) BPS /\
       balance_of token u s' = balance_of token u s + amt /\ 0 < amt <= get_reward_pool_balance s /\
       get_reward_pool_balance s' = get_reward_pool_balance s - amt) /\
  (repay env u amt s = Ok r s' ->
     exists loan, get_loan u s = Some loan /\
       let interest := ln_interest_accrued loan + due_on (get_loan_config s) loan (sequence env) in
       let debt := ln_principal loan + interest in
       0 <= ln_principal loan -> 0 <= interest ->
       r = Z.max (debt - amt) 0 /\
       balance_of token u s' = balance_of token u s - (debt - r) /\
       get_reward_pool_balance s' = get_reward_pool_balance s + (debt - r) /\
       (get_loan u s' = None <-> r = 0) /\
       (forall l, get_loan u s' = Some l -> ln_interest_accrued l = Z.max (interest - amt) 0 /\
          ln_principal l + ln_interest_accrued l = r)).
Proof.
  intros Htok Hu. assert (Htoken : forall t, Some t = match get_reward_token s with Some r => Some r | None => rd Token s end -> t = token).
  { intros t. destruct Htok as [-> |[-> ->]]; by intros [= ->]. }
  split; intros H.
  - apply borrow_Ok in H as (c & loan & t & s1 & Hc & _ & Hx & _ & _ & Hle & Hp & Ht & Htr & He & Hp' & (l & Hl & L1 & L2 & _) & -> & _).
    apply Htoken in Ht as ->. apply token_sent in Htr as (_ & _ & _ & Hb). destruct (Hb Hu) as [_ Hb2].
    exists c, l. unfold balance_of in *. rewrite He, L1, L2. split_and!; (done || lia).
  - apply repay_Ok in H as (loan & d & ap & Hl & Hx & _ & Hd & Hap & -> & _ & Hp & Htr & Hset).
    exists loan. split; [done|]. cbv zeta. intros Hpr Hi. unfold settled_loan in Hset. simpl in Hset.
    set (i := ln_interest_accrued loan + _) in *.
    assert (Hb : balance_of token u s' = balance_of token u s - Z.max ap 0).
    { destruct (Z.ltb_spec 0 ap); [|unfold balance_of; rewrite Htr; lia].
      destruct Htr as (t & s1 & Ht & Htr & He). apply Htoken in Ht as ->. apply transfer_moves in Htr as (_ & _ & Hb).
      unfold balance_of in *. rewrite He, Hb, decide_True by done. unfold moved_amount.
      rewrite decide_False, decide_False, decide_True by done. lia. }
    rewrite Hb, Hp. split; [lia|]. split; [lia|]. split; [lia|].
    destruct (get_loan u s') as [l|].
    + destruct Hset as (H1 & H2 & H3). split; [split; [done|lia]|]. intros ? [= <-]. lia.
    + split; [|done]. split; [lia|done].
Qed.

End Collateral.

(** ** Witnesses *)

(** User 2 holds all 1000 shares, worth 1000; the pool has 600; 50 % may be
    borrowed at 10 % a year; user 7 is the administrator. *)
Definition lending_vault : State (W := token_world) :=
  upd LoanCfg (Some (mkLoanConfig 5000 1000)) (upd (ShareBalance 2) (Some 1000) (upd TotalShares (Some 1000)
    (upd TotalDeposited (Some 1000) (upd RewardPoolBalance (Some 600) (upd Token (Some 9%positive)
      (upd Admin (Some 7%positive) (start_state (fun _ _ => 5000)))))))).
Definition year_later : Env := at_ledger (10 + 6307200).
Definition loan_history : list (Env * loan_op) :=
  [(at_ledger 10, LBorrow 2 400); (year_later, LRepay 2 100); (year_later, LSetFlashFee 7 100);
   (year_later, LFlash 3 1000); (at_ledger (10 + 20 * 6307200), LLiquidate 7 2)].
Definition loan_replay (h : list (Env * loan_op)) (s : State (W := token_world)) : State :=
  fold_left (fun s eo => loan_perform eo.1 eo.2 s) h s.

Lemma loan_replay_steps h s :
  Forall (fun eo => self eo.1 = 1%positive /\ loan_pre 1 eo.2) h -> rtc (loan_step 9 1) s (loan_replay h s).
Proof.
  intros Hh. revert s. induction Hh as [|[e o] h (H1 & H2) _ IH]; intros s; [apply rtc_refl|].
  eapply rtc_l; [|apply IH]. by apply ls_op.
Qed.

Lemma lending_vault_books : books lending_vault.
Proof.
  apply (books_single 2 1000); try (vm_compute; split; discriminate || reflexivity); try (vm_compute; discriminate);
    intros; unfold requested, get_request, get_shares, get_split_positions, lending_vault.
  - case_decide as E; [subst; by rdsimp|]. rewrite rd_upd_ne by done. rewrite rd_upd_ne by congruence.
    by rewrite !rd_upd_ne by done.
Qed.

Lemma lending_vault_ok : lending_ok 9 lending_vault.
Proof.
  split; [exact lending_vault_books|reflexivity|left; reflexivity|].
  split; [split; vm_compute; discriminate..|]. intros c Hc. vm_compute in Hc. discriminate.
Qed.


(** 4000 at 10 %, touched three times in a year: 399 instead of 400. *)
Lemma interest_only_rounds_down_witness :
  exists l, touched [at_ledger 20; at_ledger 70000; year_later] (mkLoan 4000 0 10 10) lending_vault = Ok l lending_vault /\
    ln_interest_accrued l = 399 /\ 397 <= ln_interest_accrued l <= 400.
Proof.
  destruct (succeeds_run (touched [at_ledger 20; at_ledger 70000; year_later] (mkLoan 4000 0 10 10) lending_vault)
    (fun l _ => ln_interest_accrued l =? 399)) as (l & s' & H & Hl%Z.eqb_eq); [vm_compute; reflexivity|].
  destruct (interest_only_rounds_down (mkLoanConfig 5000 1000) [at_ledger 20; at_ledger 70000; year_later]
    (mkLoan 4000 0 10 10) l lending_vault s') as (_ & Hb & _);
    [vm_compute; reflexivity|vm_compute; discriminate|reflexivity|repeat split|exact H|].
  exists l. split; [|split; [exact Hl|vm_compute in Hb; lia]].
  rewrite H. f_equal. vm_compute in H. injection H as _ <-. vm_compute. reflexivity.
Defined.

(** User 2 borrows 400 and withdraws everything in the same ledger. *)
Lemma loan_outlives_collateral_witness :
  exists s', unstake_all (at_ledger 10) 2 (loan_replay (take 1 loan_history) lending_vault) = Ok 1000 s' /\
    (exists l, get_loan 2 s' = Some l /\ ln_principal l = 400) /\
    (forall r s3, liquidate_loan year_later 7 2 s' <> Ok r s3).
Proof.
  destruct (succeeds_run (unstake_all (at_ledger 10) 2 (loan_replay (take 1 loan_history) lending_vault))
    (fun r s' => (r =? 1000) && (get_shares 2 s' =? 0))) as (r & s' & H & Hr); [vm_compute; reflexivity|].
  apply andb_true_iff in Hr as [Hr%Z.eqb_eq Hs%Z.eqb_eq]. subst r. exists s'. split; [exact H|].
  destruct (loan_outlives_collateral (at_ledger 10) 2%positive 1000 (loan_replay (take 1 loan_history) lending_vault) s' H)
    as [H1 H2]. split.
  - rewrite H1. eexists. split; vm_compute; reflexivity.
  - intros r s3. apply H2. exact Hs.
Defined.

Lemma borrow_and_repay_exact_witness :
  exists s', borrow (at_ledger 10) 2 400 lending_vault = Ok 400 s' /\
    balance_of 9 2 s' = balance_of 9 2 lending_vault + 400 /\ get_reward_pool_balance s' = 200.
Proof.
  destruct (succeeds_run (borrow (at_ledger 10) 2 400 lending_vault) (fun r _ => r =? 400))
    as (r & s' & H & Hr%Z.eqb_eq); [vm_compute; reflexivity|]. subst r. exists s'. split; [exact H|].
  destruct (borrow_and_repay_exact (at_ledger 10) 2%positive 9%positive 400 400 lending_vault s') as [Hb _];
    [right; split; reflexivity|discriminate|].
  destruct (Hb H) as (c & l & _ & _ & _ & _ & Hbal & _ & Hp). split; [exact Hbal|exact Hp].
Defined.
