(* ===== verification/SwapProofs.v ===== *)
(** * What a swap does

    Between two stakers an accepted offer moves the offered and the requested
    shares and keeps the books; an offer to oneself creates shares. *)

From S2P Require Import Prelude Errors Storage Host Events Concrete Accessors Admin Shares RewardMath.
From S2P Require Import Rewards Checkpoints Balance Pause Limits Mirror Strategies Vault ClaimFees Claims Leaderboard Positions.
From S2P Require Import VaultBooks VaultInv PositionProofs Swaps.

Section Swaps.
Context {W : World} (env : Env).
Implicit Types s : State.

Lemma quiet_record_swap E o c x y : quiet (record_swap (E:=E) env o c x y).
Proof.
  unfold record_swap, record_stake_snapshot, update_leaderboard, set_last_claim_ledger, set_stake_history, quiet. frames.
Qed.

Lemma quiet_not_paused : quiet (require_not_paused env).
Proof.
  unfold require_not_paused, apply_scheduled_unpause_if_due, clear_scheduled_unpause, set_last_updated_ledger, quiet.
  frames.
Qed.

Definition worth_of (amount : Z) s : Z := Z.quot (amount * get_total_shares s) (get_total_deposited s).

Lemma offer_shares_Ok T D a s v s' :
  offer_shares T D a s = Ok v s' ->
  s' = s /\ (v <> 0 -> 0 < T /\ 0 < D /\ v = Z.quot (a * T) D).
Proof.
  unfold offer_shares. destruct (Z.ltb_spec 0 T), (Z.ltb_spec 0 D); cbn [andb]; intros Hr; try by apply ret_Ok in Hr as [-> ->].
  apply bind_Ok in Hr as (w & ? & H1 & Hr). apply plain_Ok in H1 as [[-> _]%checked_mul_Some ->].
  by apply ret_Ok in Hr as [-> ->].
Qed.

(** An accepted offer, for any two parties: [a] shares leave the offerer and
    [b] the counterparty.  The second write wins when they are the same. *)
Record swapped (o c : Address) (a b : Z) s s' : Prop := {
  sw_offerer : 0 <= get_shares o s - a + b;
  sw_counter : 0 <= get_shares c s - b + a;
  sw_c : get_shares c s' = get_shares c s - b + a;
  sw_o : o <> c -> get_shares o s' = get_shares o s - a + b;
  sw_rest : forall k, acc k = true -> k <> KPers (ShareBalance o) -> k <> KPers (ShareBalance c) -> rd k s' = rd k s
}.

Lemma two_shares_Ok E o c x y s r1 s1 r2 s' :
  set_shares (E:=E) env o x s = Ok r1 s1 -> set_shares (E:=E) env c y s1 = Ok r2 s' ->
  0 <= x /\ 0 <= y /\ get_shares c s' = y /\ (o <> c -> get_shares o s' = x) /\
  (forall k, acc k = true -> k <> KPers (ShareBalance o) -> k <> KPers (ShareBalance c) -> rd k s' = rd k s).
Proof.
  intros H1 H. apply set_shares_Ok in H1 as (Hx & Ho & _ & Hk1 & _).
  apply set_shares_Ok in H as (Hy & Hc & Hv & Hk2 & _). split_and!; try done.
  - intros Hne. by rewrite Hv.
  - intros k Ha K1 K2. rewrite Hk2, Hk1; [done|..]; intros Hc'; by apply share_write_acc in Hc'.
Qed.

Lemma swapped_around o c a b s s1 s2 s' :
  same_books s s1 -> swapped o c a b s1 s2 -> same_books s2 s' -> swapped o c a b s s'.
Proof.
  intros H1 [S1 S2 S3 S4 S5] H2. rewrite !(same_shares s s1) in * by done.
  split; try done.
  - by rewrite (same_shares s2 s').
  - intros Hne. rewrite (same_shares s2 s') by done. by apply S4.
  - intros k Ha K1 K2. by rewrite H2, S5, H1.
Qed.

Lemma accept_Ok c id s x s' :
  accept_swap_offer env c id s = Ok x s' ->
  exists offer, rd (OfferOf id) s = Some offer /\ so_requested_address offer = c /\ signed env c = true /\
    sequence env <= so_expires_at offer /\ 0 < get_total_shares s /\ 0 < get_total_deposited s /\
    worth_of (so_offered_amount offer) s <> 0 /\ worth_of (so_requested_amount offer) s <> 0 /\
    swapped (so_offerer offer) c (worth_of (so_offered_amount offer) s) (worth_of (so_requested_amount offer) s) s s' /\
    rd (OfferOf id) s' = None.
Proof.
  unfold accept_swap_offer. intros H.
  apply bind_Ok in H as (? & ? & H1 & H). apply require_auth_Ok in H1 as (Hsig & _ & ->).
  apply bind_Ok in H as (? & s1 & H1 & H). apply (proj1 (try_Ok _ _ _ _)) in H1.
  pose proof (not_paused_Ok _ _ _ _ H1) as [Hk1 _]. pose proof (quiet_same _ _ _ _ _ _ quiet_not_paused H1) as Q1. clear H1.
  unfold reading at 1 in H. apply bind_Ok in H as (offer & ? & H1 & H). apply ok_or_Ok in H1 as [Hoff ->].
  rewrite Hk1 in Hoff by (intros []). cbv zeta in H.
  apply bind_Ok in H as (? & ? & H1 & H). apply fail_if_Ok in H1 as (Hc & _ & ->).
  apply negb_false_iff, bool_decide_eq_true in Hc.
  apply bind_Ok in H as (? & ? & H1 & H). apply fail_if_Ok in H1 as (Hexp%Z.ltb_ge & _ & ->).
  apply bind_Ok in H as (? & s2 & H1 & H). apply (proj1 (try_Ok _ _ _ _)), (quiet_same _ _ _ _ _ _ (quiet_do_claim _ _)) in H1 as Q2.
  apply bind_Ok in H as (? & s3 & H2 & H). apply (proj1 (try_Ok _ _ _ _)), (quiet_same _ _ _ _ _ _ (quiet_do_claim _ _)) in H2 as Q3.
  assert (Q : same_books s s3) by (eapply same_trans; [exact Q1|eapply same_trans; [exact Q2|exact Q3]]). clear Q1 Q2 Q3 H1 H2.
  unfold reading at 1 2 3 4 in H. set (o := so_offerer offer) in *.
  rewrite (same_total s s3), (same_deposited s s3), !(same_shares s s3) in H by done.
  apply bind_Ok in H as (a & ? & H1 & H). apply offer_shares_Ok in H1 as [-> Ha].
  apply bind_Ok in H as (b & ? & H1 & H). apply offer_shares_Ok in H1 as [-> Hb].
  apply bind_Ok in H as (? & ? & H1 & H). apply fail_if_Ok in H1 as (Hz & _ & ->).
  apply orb_false_iff in Hz as [Hza%Z.eqb_neq Hzb%Z.eqb_neq].
  destruct (Ha Hza) as (HT & HD & Hva), (Hb Hzb) as (_ & _ & Hvb).
  apply bind_Ok in H as (v & ? & H1 & H). apply plain_Ok in H1 as [[-> _]%checked_sub_Some ->].
  apply bind_Ok in H as (v & ? & H1 & H). apply plain_Ok in H1 as [[-> _]%checked_add_Some ->].
  apply bind_Ok in H as (v & ? & H1 & H). apply plain_Ok in H1 as [[-> _]%checked_sub_Some ->].
  apply bind_Ok in H as (v & ? & H1 & H). apply plain_Ok in H1 as [[-> _]%checked_add_Some ->].
  apply bind_Ok in H as ([] & s4 & H1 & H). apply bind_Ok in H as ([] & s5 & H2 & H).
  destruct (two_shares_Ok _ _ _ _ _ _ _ _ _ _ H1 H2) as (P1 & P2 & P3 & P4 & P5).
  apply bind_Ok in H as ([] & s6 & H3 & H). apply (quiet_same _ _ _ _ _ _ (quiet_record_swap _ _ _ _ _)) in H3.
  apply bind_Ok in H as (? & ? & H4 & H). apply del_Ok in H4 as [_ ->]. apply publish_Ok in H as [_ ->].
  exists offer. unfold worth_of. rewrite <- Hva, <- Hvb. split_and!; try done; [|by rdsimp].
  apply (swapped_around _ _ _ _ _ s3 s5); [done| |].
  - split; rewrite ?(same_shares s s3) by done; done.
  - eapply same_trans; [exact H3|]. intros k Hk. rewrite rd_emit, rd_upd_ne; [done|]. by intros <-.
Qed.

(** Where there is no offer nobody accepts one. *)
Lemma gone_not_accepted env' c id s x s' : rd (OfferOf id) s = None -> accept_swap_offer env' c id s <> Ok x s'.
Proof.
  unfold accept_swap_offer. intros Hno H.
  apply bind_Ok in H as (? & ? & H1 & H). apply require_auth_Ok in H1 as (_ & _ & ->).
  apply bind_Ok in H as (? & s1 & H1 & H). apply (proj1 (try_Ok _ _ _ _)) in H1.
  pose proof (not_paused_Ok _ _ _ _ H1) as [Hk1 _].
  unfold reading at 1 in H. apply bind_Ok in H as (offer & ? & H1' & _). apply ok_or_Ok in H1' as [Hoff _].
  rewrite Hk1 in Hoff by (intros []). congruence.
Qed.

Lemma swapped_totals o c a b s s' : swapped o c a b s s' ->
  get_total_shares s' = get_total_shares s /\ get_total_deposited s' = get_total_deposited s /\
  (forall v, v <> o -> v <> c -> get_shares v s' = get_shares v s).
Proof.
  intros H. unfold get_total_shares, get_total_deposited. rewrite !(sw_rest _ _ _ _ _ _ H) by done.
  split; [done|]. split; [done|]. intros v Ho Hc. unfold get_shares. rewrite (sw_rest _ _ _ _ _ _ H); [done|done|congruence..].
Qed.

(** Between two parties the books are kept: through a state in between in
    which the offerer has its new shares and the total has moved along. *)
Lemma swapped_books o c a b s s' : o <> c -> books s -> swapped o c a b s s' -> books s'.
Proof.
  intros Hne HB H. destruct (swapped_totals _ _ _ _ _ _ H) as (HT & HD & Hv).
  set (sm := upd TotalShares (Some (get_total_shares s - a + b)) (upd (ShareBalance o) (Some (get_shares o s - a + b)) s)).
  assert (Hm : forall k, k <> KInst TotalShares -> k <> KPers (ShareBalance o) -> rd k sm = rd k s)
    by (intros k K1 K2; subst sm; by rewrite !rd_upd_ne by congruence).
  assert (HBm : books sm).
  { apply (rewritten_books s sm o (get_shares o s - a + b) (get_total_shares s - a + b) (get_total_deposited s)); [done| |lia].
    pose proof (bk_deposited _ HB). pose proof (sw_offerer _ _ _ _ _ _ H).
    pose proof (books_holding o s HB).
    split; [subst sm; unfold get_shares; by rdsimp|]. split; [subst sm; unfold get_total_shares; by rdsimp|].
    split; [subst sm; unfold get_total_deposited; by rdsimp|]. do 3 (split; [lia|]).
    intros k _ K1 K2 _. by apply Hm. }
  assert (Hsp : forall v, get_split_positions v s' = get_split_positions v sm)
    by (intros v; unfold get_split_positions; by rewrite (sw_rest _ _ _ _ _ _ H), Hm).
  assert (Hrq : forall v, requested v s' = requested v sm)
    by (intros v; unfold requested, get_request; by rewrite (sw_rest _ _ _ _ _ _ H), Hm).
  assert (Hq : get_queue s' = get_queue sm) by (unfold get_queue; by rewrite (sw_rest _ _ _ _ _ _ H), Hm).
  assert (Hn : nft_balances s' = nft_balances sm) by (unfold nft_balances; by rewrite (sw_rest _ _ _ _ _ _ H), Hm).
  assert (Hshm : forall v, v <> o -> get_shares v sm = get_shares v s) by (intros v Hv'; unfold get_shares; rewrite Hm; congruence).
  assert (Hsho : get_shares o sm = get_shares o s - a + b) by (subst sm; unfold get_shares; by rdsimp).
  assert (Htm : get_total_shares sm = get_total_shares s - a + b) by (subst sm; unfold get_total_shares; by rdsimp).
  apply (books_update sm s' c (a - b) 0 (a - b)); [done| |rewrite (sw_c _ _ _ _ _ _ H); apply H|rewrite Hrq; apply HBm
    |rewrite Hsp; apply HBm| |rewrite Hq; apply HBm|rewrite Hn; apply HBm| | |rewrite HD; apply HB|lia].
  - intros v Hvc. split; [|split; [apply Hrq|apply Hsp]].
    destruct (decide (v = o)) as [->|Hvo]; [rewrite Hsho; by apply H|]. rewrite Hshm by done. by apply Hv.
  - apply own_hold; [done|]. unfold own. rewrite Hrq, (sw_c _ _ _ _ _ _ H), Hshm by congruence. lia.
  - unfold queued, tokenized. rewrite Hq, Hn. lia.
  - rewrite HT, Htm. lia.
Qed.

Lemma accept_commits c id s :
  (forall offer, rd (OfferOf id) s = Some offer -> so_offerer offer <> so_requested_address offer) ->
  books s -> commits (accept_swap_offer env c id) s.
Proof.
  intros Hne HB x s' (offer & Hoff & Hc & _ & _ & _ & _ & _ & _ & Hsw & _)%accept_Ok.
  eapply swapped_books; [|exact HB|exact Hsw]. rewrite <- Hc. by apply Hne.
Qed.

(** C25. A swap between two stakers moves shares and creates none.  When the
    counterparty of an offer, another address than the offerer, has it
    accepted, it signed, the offer was to it and still open; exactly the
    shares of the offered amount go one way and those of the requested amount
    the other, both rounded down at the price before the swap; every other
    holder, the total and the deposits are untouched; the offer is removed, so
    that nobody can accept it again, and a vault whose books are in order keeps
    them so. *)
Theorem swap_conserves c id offer s x s' :
  books s -> rd (OfferOf id) s = Some offer -> so_offerer offer <> c ->
  accept_swap_offer env c id s = Ok x s' ->
  books s' /\ signed env c = true /\ so_requested_address offer = c /\ sequence env <= so_expires_at offer /\
  (let a := worth_of (so_offered_amount offer) s in
   let b := worth_of (so_requested_amount offer) s in
   get_shares (so_offerer offer) s' = get_shares (so_offerer offer) s - a + b /\
   get_shares c s' = get_shares c s + a - b) /\
  (forall v, v <> so_offerer offer -> v <> c -> get_shares v s' = get_shares v s) /\
  get_total_shares s' = get_total_shares s /\ get_total_deposited s' = get_total_deposited s /\
  rd (OfferOf id) s' = None /\ (forall env' c' y s2, accept_swap_offer env' c' id s' <> Ok y s2).
Proof.
  intros HB Hoff Hne H. apply accept_Ok in H as (offer' & Hoff' & Hc & Hsig & Hexp & _ & _ & _ & _ & Hsw & Hgone).
  rewrite Hoff in Hoff'. injection Hoff' as <-. destruct (swapped_totals _ _ _ _ _ _ Hsw) as (HT & HD & Hv).
  cbv zeta. split_and!; try done.
  - by eapply swapped_books.
  - by apply Hsw.
  - rewrite (sw_c _ _ _ _ _ _ Hsw). lia.
  - intros env' c' y s2. by apply gone_not_accepted.
Qed.

(** What [create_swap_offer] stores. *)
Lemma create_Ok err u c my their dur s id s' :
  create_swap_offer env err u c my their dur s = Ok id s' ->
  0 < my /\ 0 < their /\ my <= default 0 (shares_to_amount (get_total_shares s) (get_total_deposited s) (get_shares u s)) /\
  rd (OfferOf id) s' = Some (mkSwapOffer u my c their (sequence env + dur)) /\ same_books s s'.
Proof.
  unfold create_swap_offer. intros H.
  apply bind_Ok in H as (? & ? & H1 & H). apply require_auth_Ok in H1 as (_ & _ & ->).
  apply bind_Ok in H as (? & ? & H1 & H). apply fail_if_Ok in H1 as (Hz & _ & ->).
  apply orb_false_iff in Hz as [Hz1%Z.leb_gt Hz2%Z.leb_gt]. unfold reading at 1 2 in H.
  apply bind_Ok in H as (? & ? & H1 & H). apply fail_if_Ok in H1 as (_ & _ & ->). unfold reading at 1 2 in H.
  apply bind_Ok in H as (? & ? & H1 & H). apply fail_if_Ok in H1 as (Hle%Z.ltb_ge & _ & ->).
  apply bind_Ok in H as (? & ? & H1 & H). apply fail_if_Ok in H1 as (_ & _ & ->). unfold reading at 1 in H.
  apply bind_Ok in H as (? & ? & H1 & H). apply fail_if_Ok in H1 as (_ & _ & ->). unfold reading at 1 in H.
  apply bind_Ok in H as (n & ? & H1 & H). apply plain_Ok in H1 as [_ ->].
  apply bind_Ok in H as (? & ? & H1 & H). apply put_Ok in H1 as [_ ->].
  apply bind_Ok in H as (e & ? & H1 & H). apply plain_Ok in H1 as [[-> _]%to_u32_Some ->].
  apply bind_Ok in H as (? & ? & H1 & H). apply put_Ok in H1 as [_ ->]. unfold reading at 1 in H.
  apply bind_Ok in H as (? & ? & H1 & H). apply put_Ok in H1 as [_ ->]. apply ret_Ok in H as [-> ->].
  split_and!; try done; [by rdsimp|]. intros k Hk. rewrite !rd_upd_ne; [done|..]; by intros <-.
Qed.

End Swaps.

(** An offer to oneself creates shares.  Nothing keeps the offerer from
    naming itself as the counterparty: both new balances are computed from the
    balance before, and the second write wins, so accepting an offer to
    oneself of more than one asks for adds the difference to one's shares,
    while the total does not move.  A vault whose books were in order with all
    its shares held by one staker then has shares beyond its total. *)
Theorem self_swap_mints_shares {W : World} (env env' : Env) err u my their dur id s s1 s' x :
  books s -> create_swap_offer env err u u my their dur s = Ok id s1 ->
  accept_swap_offer env' u id s1 = Ok x s' ->
  get_shares u s' = get_shares u s + (worth_of my s - worth_of their s) /\
  get_total_shares s' = get_total_shares s /\ get_total_deposited s' = get_total_deposited s /\
  (worth_of their s < worth_of my s -> get_shares u s = get_total_shares s -> ~ books s').
Proof.
  intros HB Hcr Hac. apply create_Ok in Hcr as (Hmy & _ & _ & Hoff & Hs).
  apply accept_Ok in Hac as (offer & Hoff' & _ & _ & _ & _ & _ & _ & _ & Hsw & _).
  rewrite Hoff in Hoff'. injection Hoff' as <-. cbn [so_offerer so_offered_amount so_requested_amount] in Hsw.
  destruct (swapped_totals _ _ _ _ _ _ Hsw) as (HT & HD & _).
  pose proof (sw_c _ _ _ _ _ _ Hsw) as Hc. unfold worth_of in *.
  rewrite (same_shares s s1), (same_total s s1), (same_deposited s s1) in * by done.
  split; [lia|]. split; [done|]. split; [done|]. intros Hlt Hall HB'.
  pose proof (books_holding u s' HB').
  lia.
Qed.

(** ** Witnesses *)

Definition two_stakers : State (W := token_world) :=
  upd TotalDeposited (Some 100) (upd TotalShares (Some 100) (upd (ShareBalance 3%positive) (Some 50)
    (upd (ShareBalance 2%positive) (Some 50) (upd Token (Some 9%positive) (start_state (fun _ _ => 0)))))).
Definition offered := invoke (create_swap_offer (at_ledger 10) VaultFeatureError.ZeroAmount 2%positive 3%positive 20 5 100) two_stakers.

Definition one_staker : State (W := token_world) :=
  upd TotalDeposited (Some 100) (upd TotalShares (Some 100) (upd (ShareBalance 2%positive) (Some 100)
    (upd Token (Some 9%positive) (start_state (fun _ _ => 0))))).
Definition self_offered := invoke (create_swap_offer (at_ledger 10) VaultFeatureError.ZeroAmount 2%positive 2%positive 100 1 100) one_staker.

Lemma no_holdings (s : State (W := token_world)) :
  (forall u, rd (WithdrawalReq u) s = None) -> (forall u, rd (SplitPositions u) s = None) ->
  rd WqQueue s = None -> rd NftBalances s = None ->
  (forall v, requested v s = 0) /\ (forall v, get_split_positions v s = []) /\ get_queue s = [] /\ nft_balances s = ∅.
Proof.
  intros H1 H2 H3 H4. split_and!.
  - intros v. unfold requested, get_request. by rewrite H1.
  - intros v. unfold get_split_positions. by rewrite H2.
  - unfold get_queue. by rewrite H3.
  - unfold nft_balances. by rewrite H4.
Qed.

Lemma one_staker_books : books one_staker.
Proof.
  destruct (no_holdings one_staker) as (H1 & H2 & H3 & H4); [intros; unfold one_staker; by rdsimp..|].
  apply (books_single 2%positive 100); try assumption.
  - intros v. unfold get_shares, one_staker. rewrite !(rd_upd_ne TotalDeposited), !(rd_upd_ne TotalShares) by done.
    case_decide as Hv; [subst v; by rdsimp|]. rewrite rd_upd_ne by congruence. by rdsimp.
  - split; discriminate.
  - discriminate.
Qed.

(** Two stakers: one's books, then the other's shares with the total. *)
Lemma two_stakers_books : books two_stakers.
Proof.
  set (s0 := upd TotalDeposited (Some 100) (upd TotalShares (Some 50) (upd (ShareBalance 2%positive) (Some 50)
    (upd Token (Some 9%positive) (start_state (fun _ _ => 0)))))).
  assert (H0 : books s0).
  { destruct (no_holdings s0) as (H1 & H2 & H3 & H4); [intros; subst s0; by rdsimp..|].
    apply (books_single 2%positive 50); try assumption.
    - intros v. unfold get_shares, s0. rewrite !(rd_upd_ne TotalDeposited), !(rd_upd_ne TotalShares) by done.
      case_decide as Hv; [subst v; by rdsimp|]. rewrite rd_upd_ne by congruence. by rdsimp.
    - split; discriminate.
    - discriminate. }
  apply (rewritten_books s0 two_stakers 3%positive 50 100 100); [exact H0| |vm_compute; discriminate].
  split; [reflexivity|]. split; [reflexivity|]. split; [reflexivity|].
  do 3 (split; [discriminate|]).
  intros k _ K1 K2 K3. unfold two_stakers, s0.
  destruct (decide (k = KPers (ShareBalance 2%positive))) as [->|]; [by rdsimp|].
  destruct (decide (k = KInst Token)) as [->|]; [by rdsimp|].
  by rewrite !rd_upd_ne by congruence.
Qed.

Lemma offered_books : books offered.
Proof.
  apply (books_same two_stakers); [|exact two_stakers_books].
  assert (succeeds (create_swap_offer (at_ledger 10) VaultFeatureError.ZeroAmount 2%positive 3%positive 20 5 100 two_stakers)
            (fun _ _ => true) = true) as (id & s' & H & _)%succeeds_run by (vm_compute; reflexivity).
  unfold offered, invoke. rewrite H. apply create_Ok in H as (_ & _ & _ & _ & Hs). exact Hs.
Qed.

Lemma swap_conserves_witness :
  exists s', accept_swap_offer (at_ledger 20) 3%positive 1 offered = Ok tt s' /\ books s' /\
    get_shares 2%positive s' = get_shares 2%positive offered - worth_of 20 offered + worth_of 5 offered /\
    (forall env' c' y s2, accept_swap_offer env' c' 1 s' <> Ok y s2).
Proof.
  assert (succeeds (accept_swap_offer (at_ledger 20) 3%positive 1 offered) (fun _ _ => true) = true)
    as ([] & s' & H & _)%succeeds_run by (vm_compute; reflexivity).
  exists s'. split; [exact H|].
  destruct (swap_conserves (at_ledger 20) 3%positive 1 (mkSwapOffer 2%positive 20 3%positive 5 110) offered tt s')
    as (HB & _ & _ & _ & [Ho _] & _ & _ & _ & _ & Hag).
  - exact offered_books.
  - reflexivity.
  - discriminate.
  - exact H.
  - split; [exact HB|]. split; [exact Ho|exact Hag].
Defined.

Lemma self_swap_mints_shares_witness :
  exists s', accept_swap_offer (at_ledger 20) 2%positive 1 self_offered = Ok tt s' /\
    get_shares 2%positive s' = 199 /\ get_total_shares s' = 100 /\ ~ books s'.
Proof.
  assert (succeeds (create_swap_offer (at_ledger 10) VaultFeatureError.ZeroAmount 2%positive 2%positive 100 1 100 one_staker)
            (fun id _ => id =? 1) = true) as (id & s1 & H1 & Hid)%succeeds_run by (vm_compute; reflexivity).
  apply Z.eqb_eq in Hid. subst id.
  assert (self_offered = s1) as E by (unfold self_offered, invoke; by rewrite H1).
  assert (succeeds (accept_swap_offer (at_ledger 20) 2%positive 1 self_offered) (fun _ _ => true) = true)
    as ([] & s' & H2 & _)%succeeds_run by (vm_compute; reflexivity).
  exists s'. split; [exact H2|]. rewrite E in H2.
  destruct (self_swap_mints_shares (at_ledger 10) (at_ledger 20) VaultFeatureError.ZeroAmount 2%positive 100 1 100 1
              one_staker s1 s' tt one_staker_books H1 H2) as (Hs & Ht & _ & Hb).
  split; [rewrite Hs; reflexivity|]. split; [rewrite Ht; reflexivity|].
  apply Hb; reflexivity.
Defined.
