(* ===== verification/CapacityProofs.v ===== *)
(** * What the capacity auction does

    The ranking is a sorted permutation of the bids; bids are escrowed in full
    and settled once: a finalized auction stakes or refunds every bid, and the
    vault's funds cover the deposits and the escrow throughout. *)

From Stdlib Require Import Sorting.Sorted.
From S2P Require Import Prelude Errors Storage Host Events TokenFacts Concrete Accessors Admin Shares RewardMath Accrual.
From S2P Require Import Rewards Checkpoints Balance Pause Limits Mirror Strategies Vault ClaimFees Claims Leaderboard Positions.
From S2P Require Import Accumulator Smoothing CapacityAuction VaultBooks VaultInv PositionProofs.

(** ** The ranking *)

Lemma insert_bid_perm b l : insert_bid b l ≡ₚ b :: l.
Proof.
  induction l as [|x l IH]; simpl; [done|]. destruct (outranks b x); [done|]. rewrite IH. apply Permutation_swap.
Qed.
Lemma fold_insert_perm bids acc : fold_left (fun sorted bid => insert_bid bid sorted) bids acc ≡ₚ bids ++ acc.
Proof.
  revert acc. induction bids as [|b bids IH]; intros acc; [done|]. cbn [fold_left app]. rewrite IH, insert_bid_perm.
  by rewrite Permutation_middle.
Qed.

(** [x] may stand before [y]. *)
Definition before (x y : AuctionBid) : Prop := outranks y x = false.

Lemma outranks_spec b o :
  outranks b o = true <-> cb_amount o < cb_amount b \/ cb_amount b = cb_amount o /\ cb_placed_at b < cb_placed_at o.
Proof. unfold outranks. rewrite orb_true_iff, andb_true_iff, !Z.ltb_lt, Z.eqb_eq. done. Qed.
Lemma before_spec x y :
  before x y <-> cb_amount y < cb_amount x \/ cb_amount x = cb_amount y /\ cb_placed_at x <= cb_placed_at y.
Proof. unfold before. rewrite <- not_true_iff_false, outranks_spec. lia. Qed.
Lemma before_trans x y z : before x y -> before y z -> before x z.
Proof. rewrite !before_spec. lia. Qed.

Lemma insert_bid_sorted b l : StronglySorted before l -> StronglySorted before (insert_bid b l).
Proof.
  induction 1 as [|x l Hl IH Hx]; simpl; [repeat constructor|].
  destruct (outranks b x) eqn:Hb.
  - assert (before b x) as Hbx by (rewrite before_spec; apply outranks_spec in Hb; lia).
    constructor; [by constructor|]. constructor; [done|]. eapply Forall_impl; [exact Hx|]. intros y. by apply before_trans.
  - constructor; [done|]. rewrite insert_bid_perm. by constructor.
Qed.
Lemma fold_insert_sorted bids acc :
  StronglySorted before acc -> StronglySorted before (fold_left (fun sorted bid => insert_bid bid sorted) bids acc).
Proof. revert acc. induction bids as [|b bids IH]; intros acc H; [done|]. simpl. by apply IH, insert_bid_sorted. Qed.

Section Auction.
Context {W : World} {B : Bootstrap W} {BL : BootstrapLaws W B} (env : Env) (fuel : nat).
Implicit Types s : State.

Lemma sorted_perm s : sorted_auction_bids s ≡ₚ get_auction_bids s.
Proof. unfold sorted_auction_bids. by rewrite fold_insert_perm, app_nil_r. Qed.
Lemma sorted_sorted s : StronglySorted before (sorted_auction_bids s).
Proof. apply fold_insert_sorted. constructor. Qed.

(** ** Bids *)

Definition escrow s : Z := sum_of cb_amount (get_auction_bids s).

Lemma bid_index_Some u bids i b :
  bid_index u bids = Some (i, b) -> bids !! i = Some b /\ cb_bidder b = u.
Proof.
  revert i. induction bids as [|x bids IH]; intros i; simpl; [done|]. case_bool_decide as Hx; [by intros [= <- <-]|].
  destruct (bid_index u bids) as [[j y]|]; [|done]. intros [= <- <-]. simpl. by apply IH.
Qed.
Lemma bid_index_None u bids : bid_index u bids = None -> u ∉ (cb_bidder <$> bids).
Proof.
  induction bids as [|x bids IH]; simpl; [set_solver|]. case_bool_decide; [done|].
  destruct (bid_index u bids) as [[]|] eqn:E; [done|]. intros _. specialize (IH eq_refl). set_solver.
Qed.

Lemma place_bid_Ok u a s r s' :
  place_bid env u a s = Ok r s' ->
  exists auction token s1, 0 < a /\ signed env u = true /\ get_capacity_auction s = Some auction /\
    ca_finalized auction = false /\ sequence env < ca_ends_at auction /\ ca_min_bid auction <= r /\
    r = get_bid_of u s + a /\ rd Token s = Some token /\
    transfer (E:=VaultExtError.t) token u (self env) a s = Ok tt s1 /\ st_ext s' = st_ext s1 /\
    get_bid_of u s' = r /\ escrow s' = escrow s + a /\
    (exists at_, get_auction_bids s' =
       match bid_index u (get_auction_bids s) with
       | Some (i, _) => <[i := mkAuctionBid u r at_]> (get_auction_bids s)
       | None => get_auction_bids s ++ [mkAuctionBid u r at_]
       end) /\
    (exists auction', get_capacity_auction s' = Some auction' /\ ca_finalized auction' = false /\
       ca_ends_at auction' = ca_ends_at auction /\ ca_spots auction' = ca_spots auction) /\
    (forall k, k <> KMkt AuctBids -> k <> KMkt CapAuction -> rd k s' = rd k s).
Proof.
  unfold place_bid. intros H.
  apply bind_Ok in H as (? & ? & H1 & H). apply require_auth_Ok in H1 as (Hsig & _ & ->).
  apply bind_Ok in H as (? & ? & H1 & H). apply fail_if_Ok in H1 as (Ha%Z.leb_gt & _ & ->). unfold reading at 1 in H.
  apply bind_Ok in H as (auction & ? & H1 & H). apply ok_or_Ok in H1 as [Hauc ->].
  apply bind_Ok in H as (? & ? & H1 & H). apply fail_if_Ok in H1 as (Hfin & _ & ->).
  apply bind_Ok in H as (? & ? & H1 & H). apply fail_if_Ok in H1 as (Hend%Z.leb_gt & _ & ->). unfold reading at 1 in H.
  set (ex := bid_index u (get_auction_bids s)) in *.
  assert (Hprev : (match ex with Some (_, bid) => cb_amount bid | None => 0 end) = get_bid_of u s) by done.
  cbv zeta in H. rewrite Hprev in H.
  apply bind_Ok in H as (t & ? & H1 & H). apply ok_or_Ok in H1 as [[-> _]%checked_add_Some ->].
  apply bind_Ok in H as (? & ? & H1 & H). apply fail_if_Ok in H1 as (Hmin%Z.ltb_ge & _ & ->).
  apply bind_Ok in H as (? & ? & H1 & H). apply fail_if_Ok in H1 as (_ & _ & ->).
  apply bind_Ok in H as (token & ? & H1 & H). apply (proj1 (try_Ok _ _ _ _)) in H1.
  unfold token_address, reading in H1. apply ok_or_Ok in H1 as [Htok ->].
  apply bind_Ok in H as ([] & s1 & Htr & H). pose proof Htr as (w & _ & _ & ->)%transfer_Ok.
  apply bind_Ok in H as (? & ? & H1 & H). apply put_Ok in H1 as [_ ->].
  apply bind_Ok in H as (? & ? & H1 & H). apply put_Ok in H1 as [_ ->].
  apply bind_Ok in H as (? & ? & H1 & H). apply publish_Ok in H1 as [_ ->]. apply ret_Ok in H as [-> ->].
  set (at_ := match ex with Some (_, bid) => cb_placed_at bid | None => sequence env end).
  set (s2 := emit _ _). set (e := mkAuctionBid u (get_bid_of u s + a) at_).
  assert (Hb : get_auction_bids s2 = match ex with Some (i, _) => <[i := e]> (get_auction_bids s) | None => get_auction_bids s ++ [e] end)
    by (subst s2; unfold get_auction_bids at 1; by rdsimp).
  eexists auction, token, _. do 8 (split; [done|]). split; [exact Htr|]. split; [done|].
  split; [|split; [|split; [by exists at_|split]]].
  - unfold get_bid_of at 1. rewrite Hb. subst ex. destruct (bid_index u (get_auction_bids s)) as [[i b]|] eqn:Hi.
    + assert (bid_index u (<[i:=e]> (get_auction_bids s)) = Some (i, e)) as ->; [|done].
      clear -Hi. revert i Hi. generalize (get_auction_bids s) as bids.
      induction bids as [|x bids IH]; intros i; simpl; [done|]. case_bool_decide as Hx.
      * intros [= <- <-]. simpl. by rewrite bool_decide_true.
      * destruct (bid_index u bids) as [[j y]|] eqn:E; [|done]. intros [= <- <-]. simpl.
        rewrite bool_decide_false by done. by rewrite (IH j).
    + assert (exists i, bid_index u (get_auction_bids s ++ [e]) = Some (i, e)) as [i ->]; [|done].
      clear -Hi. revert Hi. generalize (get_auction_bids s) as bids.
      induction bids as [|x bids IH]; simpl; [intros _; exists 0%nat; by rewrite bool_decide_true|].
      case_bool_decide as Hx; [done|]. destruct (bid_index u bids) as [[]|] eqn:E; [done|]. intros _.
      destruct (IH eq_refl) as [i ->]. by exists (S i).
  - unfold escrow at 1. rewrite Hb. subst ex. unfold escrow, get_bid_of in *.
    destruct (bid_index u (get_auction_bids s)) as [[i b]|] eqn:Hi.
    + apply bid_index_Some in Hi as [Hi _]. rewrite (sum_of_insert _ _ i b) by done. subst e. simpl. lia.
    + rewrite sum_of_app. subst e. simpl. lia.
  - eexists. subst s2. unfold get_capacity_auction. rdsimp. by split.
  - intros k K1 K2. subst s2. by rdsimp.
Qed.

(** ** Settlement *)

(** What the settlement of a bid leaves alone besides the books. *)
Definition steady (k : key) : Prop := k = KInst Token \/ k = KMkt AuctBids \/ k = KMkt CapAuction.
Definition aside (k : key) : Prop := acc k = false /\ ~ steady k.

Lemma touches_enroll E u a c x : touches aside (enroll (E:=E) env u a c x).
Proof.
  unfold enroll, check_activation, maybe_activate_rewards, open_position, record_stake_snapshot, update_leaderboard,
    append_stake_history, set_total_ever_staked, set_stake_history, set_pool_was_active, set_rewards_activated_at,
    set_last_claim_ledger, set_all_stakers, set_last_updated_ledger.
  repeat first [ progress frames | apply touches_put; split; [done|by intros [|[|]]] | progress autounfold with mrun ].
Qed.
Lemma keeps_enroll E u a c x : keeps_ext (enroll (E:=E) env u a c x).
Proof.
  unfold enroll, check_activation, maybe_activate_rewards, open_position, record_stake_snapshot, update_leaderboard,
    append_stake_history, set_total_ever_staked, set_stake_history, set_pool_was_active, set_rewards_activated_at,
    set_last_claim_ledger, set_all_stakers, set_last_updated_ledger.
  repeat first [ progress frames | progress autounfold with mrun ].
Qed.

Lemma steady_not_settled u k : steady k -> ~ settle_key u k.
Proof. intros Hk Hs. unfold settle_key, accrual_key, accumulator_key in Hs. destruct Hk as [-> |[-> | ->]]; naive_solver. Qed.
Lemma steady_not_written u k : steady k -> ~ share_write_keys u k.
Proof. intros Hk Hs. destruct Hk as [-> |[-> | ->]]; destruct Hs as [|[|[|(t & [|])]]]; done. Qed.

Lemma credit_escrow_Ok u a s x s' :
  credit_escrow_stake env fuel u a s = Ok x s' ->
  amount_to_shares (get_total_shares s) (get_total_deposited s) a = Some x /\
  rewritten s s' u (get_shares u s + x) (get_total_shares s + x) (get_total_deposited s + a) /\
  (forall k, steady k -> rd k s' = rd k s) /\ st_ext s' = st_ext s.
Proof.
  unfold credit_escrow_stake. intros H. unfold reading at 1 2 3 in H.
  apply bind_Ok in H as (? & s1 & H1 & H). apply (proj1 (try_Ok _ _ _ _)) in H1.
  pose proof (fun k => touches_Ok _ _ _ _ _ k (touches_accrue env fuel _ _) H1) as Hk1.
  pose proof (keeps_ext_Ok _ _ _ _ (keeps_accrue env fuel _ _) H1) as He1. clear H1.
  apply bind_Ok in H as (sh & ? & H1 & H). apply ok_or_Ok in H1 as [Hsh ->].
  apply bind_Ok in H as (v & ? & H1 & H). apply plain_Ok in H1 as [[-> _]%checked_add_Some ->].
  apply bind_Ok in H as (? & s2 & H1 & H).
  apply bind_Ok in H as (v & ? & H2 & H). apply plain_Ok in H2 as [[-> _]%checked_add_Some ->].
  apply bind_Ok in H as (? & s3 & H2 & H).
  apply bind_Ok in H as (v & ? & H3 & H). apply plain_Ok in H3 as [[-> _]%checked_add_Some ->].
  apply bind_Ok in H as (? & s4 & H3 & H).
  destruct (three_writes _ _ _ _ _ _ _ _ _ _ _ _ _ H1 H2 H3) as (Hr & He2 & Hk2). clear H1 H2 H3.
  apply bind_Ok in H as ([] & s5 & H1 & H). apply ret_Ok in H as [-> ->].
  pose proof (fun k => touches_Ok _ _ _ _ _ k (touches_enroll _ _ _ _ _) H1) as Hk3.
  pose proof (keeps_ext_Ok _ _ _ _ (keeps_enroll _ _ _ _ _) H1) as He3.
  split; [done|]. split; [|split; [|congruence]].
  - assert (Hq : same_books s s1) by (intros k Ha; apply Hk1; by apply books_not_settled).
    destruct Hr as (R1 & R2 & R3 & R4 & R5 & R6 & R7).
    apply (rewritten_frame _ s4); [|intros k Ha; apply Hk3; intros [Hc _]; congruence].
    split; [done|]. split; [done|]. split; [done|]. do 3 (split; [done|]).
    intros k Ha K1 K2 K3. rewrite R7 by done. by apply Hq.
  - intros k Hk. rewrite Hk3 by (intros [_ Hc]; tauto).
    rewrite Hk2; [apply Hk1; by apply steady_not_settled|by apply steady_not_written|..];
      destruct Hk as [-> |[-> | ->]]; done.
Qed.

(** The settlement of ranked bids: those that win and those that do not. *)
Inductive settled_bids (me token : Address) : list AuctionBid -> list AuctionBid -> State -> State -> Prop :=
| sb_nil s s' : same_books s s' -> st_ext s' = st_ext s -> settled_bids me token [] [] s s'
| sb_win b win lose s s1 s' sh :
    amount_to_shares (get_total_shares s) (get_total_deposited s) (cb_amount b) = Some sh ->
    rewritten s s1 (cb_bidder b) (get_shares (cb_bidder b) s + sh) (get_total_shares s + sh)
      (get_total_deposited s + cb_amount b) ->
    st_ext s1 = st_ext s -> settled_bids me token win lose s1 s' ->
    settled_bids me token (b :: win) lose s s'
| sb_lose b win lose s w s1 s' :
    tok_transfer (st_ext s) token me (cb_bidder b) (cb_amount b) = Some w -> st_ext s1 = w -> same_books s s1 ->
    settled_bids me token win lose s1 s' -> settled_bids me token win (b :: lose) s s'.

Lemma settle_bids_Ok token allowed spots cap bids i counts s r s' :
  settle_bids env fuel token allowed spots cap bids i counts s = Ok r s' ->
  exists win lose, win ++ lose ≡ₚ bids /\ settled_bids (self env) token win lose s s' /\
    (forall k, steady k -> rd k s' = rd k s) /\
    Z.of_nat (length win) <= Z.max 0 (spots - i) /\ (allowed = false -> win = []) /\
    fst (fst r) = fst (fst counts) + Z.of_nat (length win).
Proof.
  revert i counts s. induction bids as [|b bids IH]; intros i [[wc ts] tr] s H; cbn [settle_bids] in H.
  { apply ret_Ok in H as [-> ->]. exists [], []. split_and!; try done; [by apply sb_nil|simpl; lia|simpl; lia]. }
  unfold reading at 1 in H. apply bind_Ok in H as (counts & s1 & H1 & H).
  destruct (allowed && (i <? spots) && _) eqn:Hwin.
  - apply andb_true_iff in Hwin as [[-> Hi%Z.ltb_lt]%andb_true_iff _].
    apply bind_Ok in H1 as (? & ? & H2 & H1). apply put_Ok in H2 as [_ ->].
    apply bind_Ok in H1 as (sh & s2 & H2 & H1). apply credit_escrow_Ok in H2 as (Hsh & Hr & Hk & He).
    apply bind_Ok in H1 as (? & ? & H2 & H1). apply publish_Ok in H2 as [_ ->]. apply ret_Ok in H1 as [-> ->].
    apply IH in H as (win & lose & Hp & Hs & Hk' & Hn & _ & Hw). exists (b :: win), lose.
    assert (Hb0 : same_books s (upd (PoolSpot (cb_bidder b)) (Some true) s)) by (intros k Ha; apply rd_upd_ne; by intros <-).
    rewrite (same_shares s), (same_total s), (same_deposited s) in Hr by done.
    rewrite (same_total s), (same_deposited s) in Hsh by done.
    split_and!; try done.
    + cbn [app]. by rewrite Hp.
    + eapply sb_win; [exact Hsh| | |exact Hs]; [|exact He].
      apply (rewritten_frame _ s2); [|intros k Ha; apply rd_emit].
      destruct Hr as (R1 & R2 & R3 & R4 & R5 & R6 & R7). do 6 (split; [done|]). intros k Ha K1 K2 K3. rewrite R7 by done. by apply Hb0.
    + intros k Hks. rewrite Hk', rd_emit, Hk by done. apply rd_upd_ne. intros <-. by destruct Hks as [|[|]].
    + cbn [length]. lia.
    + cbn [length fst] in *. lia.
  - apply bind_Ok in H1 as ([] & s2 & Htr & H1). apply transfer_Ok in Htr as (w & Hw & _ & ->).
    apply bind_Ok in H1 as (? & ? & H2 & H1). apply publish_Ok in H2 as [_ ->]. apply ret_Ok in H1 as [-> ->].
    apply IH in H as (win & lose & Hp & Hs & Hk' & Hn & Hno & Hwc). exists win, (b :: lose). split_and!; try done.
    + rewrite <- Permutation_middle. by rewrite Hp.
    + eapply sb_lose; [exact Hw| | |exact Hs]; [done|]. intros k Ha. by rewrite rd_emit, rd_set_ext.
    + lia.
Qed.

Lemma settled_trans_books me token win lose s s' :
  books s -> settled_bids me token win lose s s' -> books s'.
Proof.
  intros HB H. induction H as [s s' Hq _|b win lose s s1 s' sh _ Hr _ _ IH|b win lose s w s1 s' _ _ Hq _ IH].
  - by apply (books_same s).
  - apply IH. eapply rewritten_books; [exact HB|exact Hr|lia].
  - apply IH. by apply (books_same s).
Qed.

Lemma settled_amounts `{!StandardTokens W} me token win lose s s' :
  Forall (fun b => cb_bidder b <> me) (win ++ lose) -> settled_bids me token win lose s s' ->
  get_total_deposited s' = get_total_deposited s + sum_of cb_amount win /\
  balance_of token me s' = balance_of token me s - sum_of cb_amount lose /\
  (forall u, u <> me -> balance_of token u s' =
     balance_of token u s + sum_of (fun b => if decide (cb_bidder b = u) then cb_amount b else 0) lose).
Proof.
  intros Hne H. induction H as [s s' Hq He|b win lose s s1 s' sh _ Hr He _ IH|b win lose s w s1 s' Hw He Hq _ IH].
  - rewrite (same_deposited s) by done. unfold balance_of. rewrite He. cbn [sum_of foldr]. split; [lia|]. split; [lia|]. intros. lia.
  - apply Forall_cons in Hne as [_ Hne]. destruct (IH Hne) as (Hd & Hb & Hu). destruct Hr as (_ & _ & Hd1 & _).
    rewrite Hd, Hd1, Hb. cbn [sum_of foldr]. unfold sum_of in *. split; [lia|].
    unfold balance_of in *. rewrite He in *. split; [lia|done].
  - assert (Hne' : cb_bidder b <> me /\ Forall (fun b => cb_bidder b <> me) (win ++ lose)).
    { apply Forall_app in Hne as [H1 [H2 H3]%Forall_cons]. split; [done|]. by apply Forall_app. }
    destruct Hne' as [Hbm Hne']. destruct (IH Hne') as (Hd & Hb & Hu).
    destruct (std_moves _ _ _ _ _ _ (not_eq_sym Hbm) Hw) as [M1 M2].
    rewrite Hd, (same_deposited s), Hb by done. unfold balance_of in *. rewrite He in *. cbn [sum_of foldr]. unfold sum_of in *.
    split; [done|]. split; [lia|]. intros u Hum. rewrite Hu by done. case_decide as Hbu; [subst u; lia|].
    rewrite (std_frame _ _ _ _ _ _ token u Hw) by (right; split; congruence). lia.
Qed.

Lemma finalize_auction_Ok a s r s' :
  finalize_capacity_auction env fuel a s = Ok r s' ->
  exists auction token win lose s1,
    get_capacity_auction s = Some auction /\ ca_finalized auction = false /\ ca_ends_at auction <= sequence env /\
    rd Token s = Some token /\ win ++ lose ≡ₚ sorted_auction_bids s /\
    settled_bids (self env) token win lose s s1 /\ st_ext s' = st_ext s1 /\ same_books s1 s' /\
    r = Z.of_nat (length win) /\ r <= Z.max 0 (ca_spots auction) /\
    (paused s || default false (rd Stopped s) || default false (rd ShuttingDown s) = true -> win = []) /\
    get_auction_bids s' = [] /\ rd Token s' = rd Token s /\
    (exists auction', get_capacity_auction s' = Some auction' /\ ca_finalized auction' = true).
Proof.
  unfold finalize_capacity_auction. intros H.
  apply bind_Ok in H as (? & ? & H1 & H). apply (proj1 (try_Ok _ _ _ _)), require_admin_as_Ok in H1 as (_ & _ & _ & _ & ->).
  unfold reading at 1 in H. apply bind_Ok in H as (auction & ? & H1 & H). apply ok_or_Ok in H1 as [Hauc ->].
  apply bind_Ok in H as (? & ? & H1 & H). apply fail_if_Ok in H1 as (Hfin & _ & ->).
  apply bind_Ok in H as (? & ? & H1 & H). apply fail_if_Ok in H1 as (Hend%Z.ltb_ge & _ & ->).
  apply bind_Ok in H as (token & ? & H1 & H). apply (proj1 (try_Ok _ _ _ _)) in H1.
  unfold token_address, reading in H1. apply ok_or_Ok in H1 as [Htok ->].
  do 5 (unfold reading at 1 in H). cbv zeta in H.
  apply bind_Ok in H as ([[wc ts] tr] & s1 & H1 & H).
  apply settle_bids_Ok in H1 as (win & lose & Hp & Hs & Hk & Hn & Hno & Hwc). cbn [fst] in Hwc.
  apply bind_Ok in H as (? & ? & H1 & H). apply put_Ok in H1 as [_ ->].
  apply bind_Ok in H as (? & ? & H1 & H). apply put_Ok in H1 as [_ ->].
  apply bind_Ok in H as (? & ? & H1 & H). apply publish_Ok in H1 as [_ ->]. apply ret_Ok in H as [-> ->].
  exists auction, token, win, lose, s1. split_and!; try done; try lia.
  - intros k Ha. rewrite rd_emit, !rd_upd_ne; [done|..]; by intros <-.
  - intros Hstop. apply Hno. rewrite <- negb_orb, <- negb_orb. by rewrite Hstop.
  - rdsimp. apply Hk. by left.
  - eexists. unfold get_capacity_auction. rdsimp. by split.
Qed.

End Auction.

(** ** Theorems *)

(** The ranking is the sort it is meant to be: a permutation of the live
    bids in which no bid comes after one it outranks, that is by falling
    amount and, among equal amounts, by the time they were placed. *)
Theorem bids_are_ranked {W : World} (s : State) :
  sorted_auction_bids s ≡ₚ get_auction_bids s /\
  StronglySorted (fun x y => cb_amount y < cb_amount x \/ cb_amount x = cb_amount y /\ cb_placed_at x <= cb_placed_at y)
    (sorted_auction_bids s).
Proof.
  split; [apply sorted_perm|]. pose proof (sorted_sorted s) as H.
  induction H as [|x l _ IH Hx]; constructor; [done|]. eapply Forall_impl; [exact Hx|]. intros y. by apply before_spec.
Qed.

Section Theorems.
Context {W : World} {HT : StandardTokens W} {B : Bootstrap W} {BL : BootstrapLaws W B} (token me : Address).
Implicit Types s : State.

(** The auction's own consistency: no bid outside an open auction. *)
Record auction_ok s : Prop := {
  ao_books : books s;
  ao_token : rd Token s = Some token;
  ao_bidders : Forall (fun b => cb_bidder b <> me) (get_auction_bids s);
  ao_closed : match get_capacity_auction s with
              | Some a => ca_finalized a = true -> get_auction_bids s = []
              | None => get_auction_bids s = []
              end
}.

Definition staked_and_refunded s s' (win lose : list AuctionBid) : Prop :=
  get_total_deposited s' = get_total_deposited s + sum_of cb_amount win /\
  balance_of token me s' = balance_of token me s - sum_of cb_amount lose /\
  (forall u, u <> me -> balance_of token u s' =
     balance_of token u s + sum_of (fun b => if decide (cb_bidder b = u) then cb_amount b else 0) lose).

Lemma finalize_settles env fuel a s r s' :
  self env = me -> auction_ok s -> finalize_capacity_auction env fuel a s = Ok r s' ->
  auction_ok s' /\ get_auction_bids s' = [] /\
  exists win lose auction, win ++ lose ≡ₚ get_auction_bids s /\ get_capacity_auction s = Some auction /\
    r = Z.of_nat (length win) /\ r <= Z.max 0 (ca_spots auction) /\
    (paused s || default false (rd Stopped s) || default false (rd ShuttingDown s) = true -> win = []) /\
    staked_and_refunded s s' win lose.
Proof.
  intros Hme [HB Ht Hbid _] H. apply finalize_auction_Ok in H as (auc & t & win & lose & s1 & Hauc & _ & _ & Htok & Hp & Hs & He & Hq &
    Hr & Hle & Hstop & Hnil & Htok' & (auc' & Hauc' & Hfin')).
  rewrite Ht in Htok. injection Htok as <-. rewrite Hme in Hs. rewrite sorted_perm in Hp.
  assert (Hne : Forall (fun b => cb_bidder b <> me) (win ++ lose)) by (by rewrite Hp).
  destruct (settled_amounts me token win lose s s1 Hne Hs) as (Hd & Hb & Hu).
  split; [split|split; [done|]].
  - apply (books_same s1); [done|]. by eapply settled_trans_books.
  - by rewrite Htok'.
  - by rewrite Hnil.
  - by rewrite Hauc'.
  - exists win, lose, auc. do 5 (split; [done|]). split; [by rewrite (same_deposited s1)|].
    split; [unfold balance_of; by rewrite He|]. intros u Hum. unfold balance_of at 1. rewrite He. by apply Hu.
Qed.

(** C20. The end of an auction settles every bid once.  A successful
    finalization partitions the bids into winners, at most as many as there
    were spots and none while the pool is paused, stopped or shutting down,
    and the rest: the winners' amounts become deposits with shares at the
    price of the moment, every other bidder gets all of its tokens back, the
    contract parts with exactly the refunds, no bid is left, the share books
    stay in order, and the auction cannot be finalized again. *)
Theorem auction_settles_every_bid env fuel a s r s' :
  self env = me -> auction_ok s -> finalize_capacity_auction env fuel a s = Ok r s' ->
  books s' /\ get_auction_bids s' = [] /\
  (exists win lose auction, win ++ lose ≡ₚ get_auction_bids s /\ get_capacity_auction s = Some auction /\
    r = Z.of_nat (length win) /\ r <= Z.max 0 (ca_spots auction) /\
    (paused s || default false (rd Stopped s) || default false (rd ShuttingDown s) = true -> win = []) /\
    staked_and_refunded s s' win lose) /\
  (forall env' fuel' a' r' s'', finalize_capacity_auction env' fuel' a' s' <> Ok r' s'').
Proof.
  intros Hme HA H. pose proof H as H0. apply finalize_settles in H as ([HB _ _ _] & Hnil & Hx); [|done..].
  split; [done|]. split; [done|]. split; [done|]. intros env' fuel' a' r' s'' H'.
  apply finalize_auction_Ok in H0 as (? & ? & ? & ? & ? & _ & _ & _ & _ & _ & _ & _ & _ & _ & _ & _ & _ & _ & (auc & Hauc & Hfin)).
  apply finalize_auction_Ok in H' as (auc' & ? & ? & ? & ? & Hauc' & Hfin' & _). congruence.
Qed.

(** ** Escrow over a life of auctions *)

Definition auction_slack s : Z := balance_of token me s - get_total_deposited s - escrow s.

Inductive auction_step : State -> State -> Prop :=
| as_start env a spots dur min x s s' :
    start_capacity_auction env a spots dur min s = Ok x s' -> auction_step s s'
| as_bid env u x r s s' : self env = me -> u <> me -> place_bid env u x s = Ok r s' -> auction_step s s'
| as_finalize env fuel a r s s' :
    self env = me -> finalize_capacity_auction env fuel a s = Ok r s' -> auction_step s s'
| as_other s s' : auction_ok s' -> auction_slack s <= auction_slack s' -> auction_step s s'.

Lemma start_Ok env a spots dur min s x s' :
  start_capacity_auction env a spots dur min s = Ok x s' ->
  match get_capacity_auction s with Some auc => ca_finalized auc = true | None => True end /\
  get_auction_bids s' = [] /\ st_ext s' = st_ext s /\
  (forall k, k <> KMkt AuctBids -> k <> KMkt CapAuction -> rd k s' = rd k s) /\
  spots <> 0 /\ spots <= MAX_AUCTION_SPOTS.
Proof.
  unfold start_capacity_auction. intros H.
  apply bind_Ok in H as (? & ? & H1 & H). apply (proj1 (try_Ok _ _ _ _)), require_admin_as_Ok in H1 as (_ & _ & _ & _ & ->).
  apply bind_Ok in H as (? & ? & H1 & H). apply fail_if_Ok in H1 as (Hg & _ & ->).
  apply orb_false_iff in Hg as [[[Hz%Z.eqb_neq Hmax%Z.ltb_ge]%orb_false_iff _]%orb_false_iff _].
  unfold reading at 1 in H.
  apply bind_Ok in H as (? & s1 & H1 & H).
  assert (s1 = s /\ match get_capacity_auction s with Some auc => ca_finalized auc = true | None => True end) as [-> Hfin].
  { destruct (get_capacity_auction s); [|by apply ret_Ok in H1 as [_ ->]].
    by apply fail_if_Ok in H1 as (Hf%negb_false_iff & _ & ->). }
  cbv zeta in H. apply bind_Ok in H as (? & ? & H2 & H). apply put_Ok in H2 as [_ ->].
  apply bind_Ok in H as (? & ? & H2 & H). apply put_Ok in H2 as [_ ->]. apply publish_Ok in H as [_ ->].
  split_and!; try done. intros k K1 K2. by rewrite rd_emit, !rd_upd_ne by congruence.
Qed.

Lemma auction_step_keeps s0 s1 :
  auction_ok s0 -> auction_step s0 s1 -> auction_ok s1 /\ auction_slack s0 <= auction_slack s1.
Proof.
  intros HA H. destruct H as [env a spots dur min x s0 s1 H|env u x r s0 s1 Hme Hu H|env fuel a r s0 s1 Hme H|s0 s1 HA1 Hle].
  - apply start_Ok in H as (Hf & Hn & He & Hk & _). destruct HA as [HB Ht Hbid Hc].
    assert (Hq : same_books s0 s1) by (intros k Ha; apply Hk; by intros ->).
    assert (escrow s0 = 0) as H0.
    { unfold escrow. destruct (get_capacity_auction s0) as [auc|]; [rewrite Hc by done|rewrite Hc]; done. }
    split.
    + split; [by apply (books_same s0)|by rewrite Hk|by rewrite Hn|]. rewrite Hn. by destruct (get_capacity_auction s1).
    + unfold auction_slack. rewrite (same_deposited s0 s1), H0 by done. unfold balance_of, escrow. rewrite He, Hn. simpl. lia.
  - apply place_bid_Ok in H as (auc & t & st & Hx & _ & _ & Hfin & _ & _ & _ & Htok & Htr & He & _ & Hesc & (at_ & Hb) &
      (auc' & Hauc' & Hfin' & _) & Hk).
    destruct HA as [HB Ht Hbid Hc]. rewrite Ht in Htok. injection Htok as <-. rewrite Hme in Htr.
    apply token_received in Htr as (_ & _ & Hbal); [|done].
    assert (Hq : same_books s0 s1) by (intros k Ha; apply Hk; by intros ->).
    split.
    + split; [by apply (books_same s0)|by rewrite Hk| |rewrite Hauc'; congruence].
      rewrite Hb. destruct (bid_index u (get_auction_bids s0)) as [[i b]|]; [by apply Forall_insert|].
      apply Forall_app. split; [done|]. by constructor.
    + unfold auction_slack. rewrite (same_deposited s0 s1), Hesc by done. unfold balance_of in *. rewrite He. lia.
  - pose proof H as H0. apply finalize_settles in H as (HA1 & Hn & win & lose & auc & Hp & _ & _ & _ & _ & Hd & Hb & _); [|done..].
    split; [done|]. unfold auction_slack. rewrite Hd, Hb. unfold escrow. rewrite Hn, <- (sum_of_perm _ _ _ Hp), sum_of_app.
    simpl. lia.
  - done.
Qed.

Lemma auction_steps_keep s0 s :
  auction_ok s0 -> rtc auction_step s0 s -> auction_ok s /\ auction_slack s0 <= auction_slack s.
Proof.
  intros HA Hs. induction Hs as [s0|s0 s1 s2 H _ IH]; [split; [done|lia]|].
  destruct (auction_step_keeps _ _ HA H) as [HA1 Hle]. destruct (IH HA1). split; [done|lia].
Qed.

(** C21. Escrow is always there.  Over any life of auctions - rounds started one
    after the other, bids and top-ups, finalizations with any mix of winners
    and refunds - and anything else that keeps these books, what the vault
    holds beyond the deposits and the bids in escrow never shrinks. *)
Theorem auction_escrow_backed (s0 s : State) :
  auction_ok s0 -> rtc auction_step s0 s -> auction_ok s /\ auction_slack s0 <= auction_slack s.
Proof. apply auction_steps_keep. Qed.

End Theorems.

(** ** Witnesses *)

#[local] Existing Instances no_bootstrap no_bootstrap_laws.

(** Address 4 auctions one spot; 2 bids sixty and 3 bids forty. *)
Definition empty_vault : State (W := token_world) :=
  upd Admin (Some 4%positive) (upd Token (Some 9%positive)
    (start_state (fun t a => if decide (t = 9%positive /\ a <> 1%positive) then 1000 else 0))).
Definition auctioned := invoke (start_capacity_auction (at_ledger 10) 4%positive 1 40 5) empty_vault.
Definition bid_once := invoke (place_bid (at_ledger 20) 2%positive 60) auctioned.
Definition bid_twice := invoke (place_bid (at_ledger 21) 3%positive 40) bid_once.
Definition concluded := invoke (finalize_capacity_auction (at_ledger 60) 5 4%positive) bid_twice.

Lemma run_of {E A} (m : M (W := token_world) E A) s :
  succeeds (m s) (fun _ _ => true) = true -> exists r, m s = Ok r (invoke m s).
Proof. unfold invoke. destruct (m s) as [r s'|e s'|t]; [by exists r|done..]. Qed.

Lemma empty_vault_ok : auction_ok 9%positive 1%positive empty_vault.
Proof.
  split.
  - apply (books_single 2%positive 0); [..|split; discriminate|discriminate];
      intros; unfold get_shares, requested, get_request, get_split_positions, get_queue, nft_balances, empty_vault; rdsimp; try done.
    by case_decide.
  - unfold empty_vault. by rdsimp.
  - unfold get_auction_bids, empty_vault. rdsimp. constructor.
  - unfold get_capacity_auction, get_auction_bids, empty_vault. by rdsimp.
Qed.

Lemma auction_life : rtc (auction_step 9%positive 1%positive) empty_vault bid_twice.
Proof.
  destruct (run_of (start_capacity_auction (at_ledger 10) 4%positive 1 40 5) empty_vault) as [r1 H1]; [vm_compute; reflexivity|].
  destruct (run_of (place_bid (at_ledger 20) 2%positive 60) auctioned) as [r2 H2]; [vm_compute; reflexivity|].
  destruct (run_of (place_bid (at_ledger 21) 3%positive 40) bid_once) as [r3 H3]; [vm_compute; reflexivity|].
  eapply rtc_l; [eapply as_start, H1|]. eapply rtc_l; [eapply (as_bid _ _ (at_ledger 20) 2%positive); [reflexivity|discriminate|exact H2]|].
  eapply rtc_l; [eapply (as_bid _ _ (at_ledger 21) 3%positive); [reflexivity|discriminate|exact H3]|]. constructor.
Qed.

Lemma auction_escrow_backed_witness :
  rtc (auction_step 9%positive 1%positive) empty_vault concluded /\
  auction_slack 9%positive 1%positive empty_vault <= auction_slack 9%positive 1%positive concluded.
Proof.
  assert (H : rtc (auction_step 9%positive 1%positive) empty_vault concluded).
  { eapply rtc_r; [exact auction_life|].
    destruct (run_of (finalize_capacity_auction (at_ledger 60) 5 4%positive) bid_twice) as [r H]; [vm_compute; reflexivity|].
    eapply (as_finalize _ _ (at_ledger 60)); [reflexivity|exact H]. }
  split; [exact H|].
  apply (auction_escrow_backed 9%positive 1%positive empty_vault concluded empty_vault_ok H).
Defined.

Lemma bid_twice_ok : auction_ok 9%positive 1%positive bid_twice.
Proof. by destruct (auction_steps_keep _ _ _ _ empty_vault_ok auction_life). Qed.

Lemma auction_settles_every_bid_witness :
  exists r, finalize_capacity_auction (at_ledger 60) 5 4%positive bid_twice = Ok r concluded /\ get_auction_bids concluded = [].
Proof.
  destruct (run_of (finalize_capacity_auction (at_ledger 60) 5 4%positive) bid_twice) as [r H]; [vm_compute; reflexivity|].
  exists r. split; [exact H|].
  apply (auction_settles_every_bid 9%positive 1%positive (at_ledger 60) 5 4%positive bid_twice r concluded).
  - reflexivity.
  - exact bid_twice_ok.
  - exact H.
Defined.
