(* ===== verification/EpochProofs.v ===== *)
(** * What epoch distribution pays

    A finalized epoch promises no more than its pool; the preview of the
    current epoch is what finalizing would credit; a claim pays every epoch
    once; matured vesting entries are paid once, but a vested claim overwrites
    the entries it finds. *)

From S2P Require Import Prelude Errors Storage Host Events TokenFacts Concrete Accessors Admin Shares RewardMath Rewards.
From S2P Require Import Checkpoints Balance Pause Limits Mirror Strategies Vault VaultBooks SwapProofs Epochs.

Section Finalize.
Context {W : World} (env : Env).
Implicit Types s : State.

(** The amount a snapshot records. *)
Definition staked_of (u : Address) s : Z :=
  default 0 (shares_to_amount (get_total_shares s) (get_total_deposited s) (get_shares u s)).
Definition snapshots (u : Address) s : Prop := 0 < get_shares u s /\ 0 < get_total_shares s.

Definition snap_key (n : Z) (k : key) : Prop := exists u, k = KMkt (EpochSnap u n).

Lemma snapshot_loop_Ok E n T D l s x s' :
  for_each l (snapshot_staker (E:=E) n T D) s = Ok x s' ->
  (forall k, ~ snap_key n k -> rd k s' = rd k s) /\ st_ext s' = st_ext s /\
  (forall u, rd (EpochSnap u n) s' =
     if decide (u ∈ l /\ 0 < get_shares u s /\ 0 < T)
     then Some (default 0 (shares_to_amount T D (get_shares u s))) else rd (EpochSnap u n) s).
Proof.
  revert s. induction l as [|v l IH]; intros s H; cbn [for_each] in H.
  { apply ret_Ok in H as [_ ->]. split; [done|]. split; [done|]. intros u. rewrite decide_False by set_solver. done. }
  apply bind_Ok in H as (? & s1 & H1 & H). unfold snapshot_staker, reading in H1.
  apply IH in H as (Hk & He & Hu). clear IH.
  assert (Hs : forall u, get_shares u s1 = get_shares u s /\ st_ext s1 = st_ext s /\
    (forall k, ~ snap_key n k -> rd k s1 = rd k s) /\
    rd (EpochSnap u n) s1 = if decide (u = v /\ 0 < get_shares u s /\ 0 < T)
      then Some (default 0 (shares_to_amount T D (get_shares u s))) else rd (EpochSnap u n) s).
  { intros u. destruct ((0 <? get_shares v s) && (0 <? T)) eqn:Hc.
    - apply andb_true_iff in Hc as [Hc1%Z.ltb_lt Hc2%Z.ltb_lt]. apply put_Ok in H1 as [_ ->].
      split; [unfold get_shares; by rdsimp|]. split; [done|].
      split; [intros k Hk'; apply rd_upd_ne; intros <-; apply Hk'; by eexists|].
      destruct (decide (u = v)) as [->|Hne]; [rewrite decide_True by done; by rdsimp|].
      rewrite decide_False by tauto. apply rd_upd_ne. congruence.
    - apply ret_Ok in H1 as [_ ->]. do 3 (split; [done|]). rewrite decide_False; [done|].
      intros (-> & Hc1%Z.ltb_lt & Hc2%Z.ltb_lt). by rewrite Hc1, Hc2 in Hc. }
  destruct (Hs v) as (_ & He1 & Hk1 & _). split; [intros k Hk'; by rewrite Hk, Hk1|]. split; [congruence|].
  intros u. destruct (Hs u) as (Hsh & _ & _ & Hr). rewrite Hu, Hsh, Hr.
  destruct (decide (u ∈ l /\ _)) as [[Hin Hc]|Hn]; [rewrite decide_True by (split; [by right|done]); done|].
  destruct (decide (u = v /\ _)) as [[-> Hc]|Hn2]; [rewrite decide_True by (split; [by left|done]); done|].
  rewrite decide_False; [done|]. intros [[->|Hin]%elem_of_cons Hc]; tauto.
Qed.

Lemma finalize_epoch_Ok a s x s' :
  finalize_epoch env a s = Ok x s' ->
  exists st f, rd CurrentEpoch s = Some st /\ rd EpochMode s = Some true /\
    u32_sat_add (er_started_at st) (default 0 (rd EpochLedgers s)) <= sequence env /\
    factor_of (er_reward_pool st) (get_total_deposited s) = Some f /\
    rd (EpochRewardFactor (er_epoch_number st)) s' = Some f /\
    rd CurrentEpoch s' =
      Some (mkEpochRound (er_epoch_number st + 1) (sequence env) (default 0 (rd EpochRewardPerEpoch s)) 0) /\
    (forall u, rd (EpochSnap u (er_epoch_number st)) s' =
       if decide (u ∈ get_all_stakers s /\ snapshots u s) then Some (staked_of u s)
       else rd (EpochSnap u (er_epoch_number st)) s) /\
    (forall k, ~ snap_key (er_epoch_number st) k -> k <> KMkt CurrentEpoch ->
       k <> KMkt (EpochRewardFactor (er_epoch_number st)) -> rd k s' = rd k s) /\ st_ext s' = st_ext s.
Proof.
  unfold finalize_epoch. intros H.
  apply bind_Ok in H as (? & ? & H1 & H). apply require_admin_as_Ok in H1 as (_ & _ & _ & _ & ->). unfold reading at 1 in H.
  apply bind_Ok in H as (? & ? & H1 & H). apply fail_if_Ok in H1 as (Hmode & _ & ->). unfold reading at 1 in H.
  apply bind_Ok in H as (st & ? & H1 & H). apply ok_or_Ok in H1 as [Hst ->]. unfold reading at 1 in H. cbv zeta in H.
  apply bind_Ok in H as (? & ? & H1 & H). apply fail_if_Ok in H1 as (Hled%Z.ltb_ge & _ & ->). unfold reading at 1 in H.
  apply bind_Ok in H as (f & ? & H1 & H). apply ok_or_Ok in H1 as [Hf ->].
  apply bind_Ok in H as (? & ? & H1 & H). apply put_Ok in H1 as [_ ->]. set (s1 := upd (EpochRewardFactor _) _ _) in H.
  unfold reading at 1 2 3 in H.
  apply bind_Ok in H as (? & s2 & H1 & H). apply snapshot_loop_Ok in H1 as (Hk & He & Hu). unfold reading at 1 in H.
  apply bind_Ok in H as (n & ? & H1 & H). apply plain_Ok in H1 as [[-> _]%to_u32_Some ->]. apply put_Ok in H as [_ ->].
  assert (E1 : forall u, get_shares u s1 = get_shares u s) by (intros; subst s1; unfold get_shares; by rdsimp).
  assert (E2 : get_total_shares s1 = get_total_shares s) by (subst s1; unfold get_total_shares; by rdsimp).
  assert (E3 : get_total_deposited s1 = get_total_deposited s) by (subst s1; unfold get_total_deposited; by rdsimp).
  assert (E4 : get_all_stakers s1 = get_all_stakers s) by (subst s1; unfold get_all_stakers; by rdsimp).
  rewrite E2, E3, E4 in Hu.
  exists st, f. split; [done|].
  split. { destruct (rd EpochMode s) as [[]|]; [done|discriminate Hmode|discriminate Hmode]. }
  split; [done|]. split; [done|].
  split. { rewrite rd_upd_ne, Hk by (done || by intros [? ?]). subst s1. by rdsimp. }
  split. { rdsimp. rewrite Hk by (by intros [? ?]). subst s1. by rdsimp. }
  split.
  { intros u. rewrite rd_upd_ne, Hu, E1 by done. unfold snapshots, staked_of.
    repeat case_decide; try done; try (exfalso; tauto); subst s1; by rdsimp. }
  split; [|done]. intros k K1 K2 K3. rewrite rd_upd_ne, Hk by congruence. subst s1. by apply rd_upd_ne.
Qed.

(** The reward an epoch's factor and snapshot give, before the cap. *)
Definition share_of (staked f : Z) : Z := default 0 (v ← checked_mul staked f; checked_div v EPOCH_REWARD_SCALE).

Lemma share_of_nothing g : share_of 0 g = 0.
Proof. unfold share_of, checked_mul. rewrite Z.mul_0_l. reflexivity. Qed.
Lemma share_of_none g : share_of g 0 = 0.
Proof. unfold share_of, checked_mul. rewrite Z.mul_0_r. reflexivity. Qed.
Lemma cap_of_nothing s : apply_user_epoch_cap 0 s = 0.
Proof.
  unfold apply_user_epoch_cap.
  destruct (Z.ltb_spec 0 (get_user_epoch_cap s)), (Z.ltb_spec (get_user_epoch_cap s) 0); simpl; (done || lia).
Qed.

Lemma epoch_reward_eq u n s :
  epoch_reward u n s =
  apply_user_epoch_cap (share_of (default 0 (rd (EpochSnap u n) s)) (default 0 (rd (EpochRewardFactor n) s))) s.
Proof.
  unfold epoch_reward, share_of. set (f := default 0 (rd (EpochRewardFactor n) s)).
  set (st := default 0 (rd (EpochSnap u n) s)).
  assert (Hc0 : checked_div 0 EPOCH_REWARD_SCALE = Some 0) by (vm_compute; reflexivity).
  pose proof (cap_of_nothing s) as Hcap0.
  destruct (Z.eqb_spec f 0) as [->|].
  - assert (checked_mul st 0 = Some 0) as -> by (unfold checked_mul; rewrite Z.mul_0_r; vm_compute; reflexivity).
    cbn [mbind option_bind default]. by rewrite Hc0.
  - destruct (checked_mul st f) as [v|]; cbn [mbind option_bind]; [done|]. cbn [default]. by rewrite Hc0.
Qed.

(** The preview is the reward.  For a registered staker without a snapshot
    of the current epoch, what [get_user_epoch_rewards] answers just before
    the epoch is finalized is exactly what [epoch_reward] answers for the
    epoch right after: the same share of the pool, with the same rounding and
    the same cap. *)
Theorem epoch_preview_is_reward a s x s' u st :
  finalize_epoch env a s = Ok x s' -> rd CurrentEpoch s = Some st ->
  rd (EpochSnap u (er_epoch_number st)) s = None -> u ∈ get_all_stakers s ->
  epoch_reward u (er_epoch_number st) s' = get_user_epoch_rewards u s.
Proof.
  intros H Hst Hfresh Hin. apply finalize_epoch_Ok in H as (st' & f & Hst' & _ & _ & Hf & Hfs & _ & Hu & Hk & _).
  rewrite Hst in Hst'. injection Hst' as <-.
  rewrite epoch_reward_eq, Hfs, Hu, Hfresh. unfold get_user_epoch_rewards. rewrite Hst.
  assert (Hcap : forall r, apply_user_epoch_cap r s' = apply_user_epoch_cap r s).
  { intros r. unfold apply_user_epoch_cap, get_user_epoch_cap. rewrite Hk; [done|by intros [? ?]|done..]. }
  rewrite Hcap. cbn [default].
  unfold factor_of in Hf. cbv zeta. unfold snapshots, staked_of in *.
  destruct (Z.leb_spec (get_total_shares s) 0); cbn [orb].
  { rewrite decide_False by lia. rewrite share_of_nothing. apply cap_of_nothing. }
  destruct (Z.leb_spec (get_total_deposited s) 0); cbn [orb].
  { rewrite (proj2 (Z.ltb_ge _ _)) in Hf by lia. injection Hf as <-. rewrite share_of_none. apply cap_of_nothing. }
  destruct (Z.leb_spec (get_shares u s) 0); cbn [orb].
  { rewrite decide_False by lia. rewrite share_of_nothing. apply cap_of_nothing. }
  rewrite (proj2 (Z.ltb_lt _ _)) in Hf by lia. rewrite decide_True by (split; [done|lia]). rewrite Hf. done.
Qed.

End Finalize.

(** ** The pool of an epoch *)

Section Pool.
Context {W : World} (env : Env).
Implicit Types s : State.

Lemma staked_of_bound u s :
  0 <= get_shares u s -> 0 <= get_total_deposited s -> 0 < get_total_shares s ->
  0 <= staked_of u s /\ staked_of u s * get_total_shares s <= get_shares u s * get_total_deposited s.
Proof.
  intros Hs HD HT. unfold staked_of, shares_to_amount, shares_to_amount_with_decimals.
  rewrite (proj2 (Z.eqb_neq _ _)) by lia.
  destruct (checked_mul _ _) as [v|] eqn:Hv; [|simpl; nia]. apply checked_mul_Some in Hv as [-> _]. simpl.
  destruct (checked_div _ _) as [q|] eqn:Hq; [|simpl; nia]. apply checked_div_Some in Hq as (_ & -> & _). simpl.
  rewrite Z.quot_div_nonneg by nia. split; [apply Z.div_pos; nia|].
  rewrite Z.mul_comm. apply Z.mul_div_le. lia.
Qed.

Lemma share_of_bound st f :
  0 <= st -> 0 <= f -> 0 <= share_of st f /\ share_of st f * EPOCH_REWARD_SCALE <= st * f.
Proof.
  intros Hs Hf. unfold share_of. assert (0 < EPOCH_REWARD_SCALE) by reflexivity.
  destruct (checked_mul st f) as [v|] eqn:Hv; simpl; [|nia]. apply checked_mul_Some in Hv as [-> _].
  destruct (checked_div _ _) as [q|] eqn:Hq; simpl; [|nia]. apply checked_div_Some in Hq as (_ & -> & _).
  rewrite Z.quot_div_nonneg by nia. split; [apply Z.div_pos; nia|]. rewrite Z.mul_comm. apply Z.mul_div_le. lia.
Qed.

Lemma cap_bound r s : 0 <= r -> 0 <= apply_user_epoch_cap r s <= r.
Proof.
  intros Hr. unfold apply_user_epoch_cap.
  destruct (Z.ltb_spec 0 (get_user_epoch_cap s)), (Z.ltb_spec (get_user_epoch_cap s) r); simpl; lia.
Qed.

Lemma sum_of_scale {A} (f : A -> Z) c l : sum_of (fun x => f x * c) l = sum_of f l * c.
Proof. unfold sum_of. induction l as [|x l IH]; simpl; lia. Qed.

(** C14. A finalized epoch promises no more than its pool.  When the share books
    are in order and no snapshot of the epoch exists yet, the rewards the
    epoch credits to any set of addresses, added up, are at most the epoch's
    pool: the snapshots add up to at most the deposits, the factor and every
    share are rounded down, and the cap only lowers. *)
Theorem epoch_rewards_fit_pool a s x s' st us :
  books s -> finalize_epoch env a s = Ok x s' -> rd CurrentEpoch s = Some st -> 0 <= er_reward_pool st ->
  (forall u, rd (EpochSnap u (er_epoch_number st)) s = None) -> NoDup us ->
  0 <= sum_of (fun u => epoch_reward u (er_epoch_number st) s') us <= er_reward_pool st.
Proof.
  intros HB H Hst Hpool Hfresh Hnd. apply finalize_epoch_Ok in H as (st' & f & Hst' & _ & _ & Hf & Hfs & _ & Hu & _ & _).
  rewrite Hst in Hst'. injection Hst' as <-. pose proof (bk_deposited _ HB) as HD.
  assert (Hf0 : 0 <= f /\ f * get_total_deposited s <= er_reward_pool st * EPOCH_REWARD_SCALE).
  { unfold factor_of in Hf. destruct (Z.ltb_spec 0 (get_total_deposited s)); [|injection Hf as <-; assert (0 < EPOCH_REWARD_SCALE) by reflexivity; nia].
    destruct (checked_mul _ _) as [v|] eqn:Hv; [|done]. apply checked_mul_Some in Hv as [-> _]. simpl in Hf.
    apply checked_div_Some in Hf as (_ & -> & _). assert (0 < EPOCH_REWARD_SCALE) by reflexivity.
    rewrite Z.quot_div_nonneg by nia. split; [apply Z.div_pos; nia|]. rewrite Z.mul_comm. by apply Z.mul_div_le. }
  destruct Hf0 as [Hf0 Hf1]. set (snap u := default 0 (rd (EpochSnap u (er_epoch_number st)) s')).
  assert (Hsnap : forall u, 0 <= snap u /\ snap u * get_total_shares s <= get_shares u s * get_total_deposited s).
  { intros u. subst snap. cbv beta. rewrite Hu, Hfresh. pose proof (books_holding u s HB) as [Hs1 Hs2].
    match goal with |- context [@decide ?P ?d] => destruct (@decide P d) as [Hc|Hc] end;
      [|simpl; split; [lia|apply Z.mul_nonneg_nonneg; lia]]. cbn [default]. apply staked_of_bound; [done|done|apply Hc]. }
  assert (Hr : forall u, 0 <= epoch_reward u (er_epoch_number st) s' /\
    epoch_reward u (er_epoch_number st) s' * EPOCH_REWARD_SCALE <= snap u * f).
  { intros u. rewrite epoch_reward_eq, Hfs. cbn [default]. destruct (Hsnap u) as [Hs0 _].
    destruct (share_of_bound (snap u) f Hs0 Hf0) as [B1 B2]. destruct (cap_bound _ s' B1) as [B3 B4].
    fold (snap u). assert (0 < EPOCH_REWARD_SCALE) by reflexivity. split; [done|].
    etransitivity; [|exact B2]. apply Z.mul_le_mono_nonneg_r; [lia|exact B4]. }
  assert (Hsum : sum_of snap us <= get_total_deposited s).
  { destruct (decide (get_total_shares s <= 0)) as [HT|HT].
    - rewrite (sum_of_ext snap (fun _ => 0)); [clear -HD; induction us; simpl in *; lia|].
      intros u _. subst snap. cbv beta. rewrite Hu, Hfresh, decide_False; [done|]. intros [_ [_ ?]]. lia.
    - apply (Z.mul_le_mono_pos_r _ _ (get_total_shares s)); [lia|]. rewrite <- sum_of_scale.
      transitivity (sum_of (fun u => get_shares u s * get_total_deposited s) us); [apply sum_of_le; intros u _; apply Hsnap|].
      rewrite sum_of_scale. destruct (books_parked s HB) as [Hq Ht].
      assert (sum_of (fun u => get_shares u s) us <= get_total_shares s); [|nia].
      pose proof (bk_total _ HB us Hnd). transitivity (sum_of (fun u => hold u s) us); [|lia].
      apply sum_of_le. intros u _. unfold hold, own, split_total. pose proof (bk_request _ HB u).
      pose proof (sum_of_nonneg sp_amount _ (bk_splits _ HB u)). lia. }
  split; [apply sum_of_nonneg, Forall_forall; intros u _; apply Hr|].
  assert (0 < EPOCH_REWARD_SCALE) by reflexivity. apply (Z.mul_le_mono_pos_r _ _ EPOCH_REWARD_SCALE); [done|].
  rewrite <- sum_of_scale. transitivity (sum_of (fun u => snap u * f) us); [apply sum_of_le; intros u _; apply Hr|].
  rewrite sum_of_scale. transitivity (get_total_deposited s * f); [nia|rewrite Z.mul_comm; exact Hf1].
Qed.

End Pool.

(** ** Claims *)

Section Claims.
Context {W : World} (env : Env).
Implicit Types s : State.

(** What epochs [a], [a + 1], ... [a + n - 1] credit. *)
Definition epochs_total (u : Address) (a : Z) (n : nat) s : Z :=
  sum_of (fun i => epoch_reward u (a + Z.of_nat i) s) (seq 0 n).

Lemma epochs_total_S u a n s : epochs_total u a (S n) s = epoch_reward u a s + epochs_total u (a + 1) n s.
Proof.
  unfold epochs_total. rewrite <- cons_seq, <- fmap_S_seq. unfold sum_of. cbn [foldr]. rewrite Z.add_0_r. f_equal.
  rewrite foldr_fmap. generalize (seq 0 n) as l. induction l as [|i l IH]; [done|]. cbn [foldr]. rewrite IH.
  f_equal. f_equal. lia.
Qed.

Lemma accumulate_Ok u n a t s v s' :
  accumulate_epochs u n a t s = Ok v s' -> s' = s /\ v = t + epochs_total u a n s.
Proof.
  revert a t. induction n as [|n IH]; intros a t H; cbn [accumulate_epochs] in H.
  { apply ret_Ok in H as [-> ->]. split; [done|]. unfold epochs_total. simpl. lia. }
  unfold reading at 1 in H. apply bind_Ok in H as (t' & ? & H1 & H). apply ok_or_Ok in H1 as [[-> _]%checked_add_Some ->].
  apply IH in H as [-> ->]. split; [done|]. rewrite epochs_total_S. lia.
Qed.

Definition claimable_from (u : Address) s : Z := default 0 (rd (LastEpochClaimed u) s) + 1.

(** The rest of a claim is a payment or a vesting entry. *)
Lemma pay_or_vest_Ok u a s x s' :
  pay_or_vest env u a s = Ok x s' ->
  if 0 <? default 0 (rd VestingPeriod s)
  then s' = upd (VestingEntries u)
              (Some (get_vesting_entries u s ++
                     [mkVestingEntry a (u32_sat_add (sequence env) (default 0 (rd VestingPeriod s)))])) s
  else exists token, rd Token s = Some token /\ transfer (E:=VaultError.t) token (self env) u a s = Ok tt s'.
Proof.
  unfold pay_or_vest, reading. destruct (0 <? _); intros H.
  - apply bind_Ok in H as (? & ? & H1 & H). apply fail_if_Ok in H1 as (_ & _ & ->). by apply put_Ok in H as [_ ->].
  - apply bind_Ok in H as (t & ? & H1 & H). unfold token_address, reading in H1. apply ok_or_Ok in H1 as [Ht ->].
    exists t. by destruct x.
Qed.

Lemma claim_epochs_Ok u s v s' :
  claim_epoch_rewards env u s = Ok v s' ->
  exists st, rd CurrentEpoch s = Some st /\ signed env u = true /\
    v = epochs_total u (claimable_from u s) (Z.to_nat (er_epoch_number st - claimable_from u s)) s /\
    (v = 0 -> s' = s) /\
    (v <> 0 -> exists s1,
       pay_or_vest env u v s = Ok tt s1 /\ st_ext s' = st_ext s1 /\ v <= get_reward_pool_balance s /\
       get_reward_pool_balance s' = get_reward_pool_balance s - v /\
       get_total_rewards_paid s' = get_total_rewards_paid s + v /\
       rd (LastEpochClaimed u) s' = Some (er_epoch_number st - 1) /\
       (forall k, k <> KInst RewardPoolBalance -> k <> KInst TotalRewardsPaid -> k <> KMkt (LastEpochClaimed u) ->
          rd k s' = rd k s1)).
Proof.
  unfold claim_epoch_rewards. intros H.
  apply bind_Ok in H as (? & ? & H1 & H). apply require_auth_Ok in H1 as (Hsig & _ & ->). unfold reading at 1 in H.
  apply bind_Ok in H as (st & ? & H1 & H). apply ok_or_Ok in H1 as [Hst ->]. unfold reading at 1 in H. cbv zeta in H.
  apply bind_Ok in H as (t & ? & H1 & H). apply accumulate_Ok in H1 as [-> Ht]. rewrite Z.add_0_l in Ht.
  exists st. do 2 (split; [done|]).
  destruct (Z.eqb_spec t 0) as [Hz|Hz].
  { apply ret_Ok in H as [-> ->]. split; [unfold claimable_from; congruence|]. split; [done|]. congruence. }
  unfold reading at 1 in H. apply bind_Ok in H as (? & ? & H1 & H). apply fail_if_Ok in H1 as (Hp%Z.ltb_ge & _ & ->).
  apply bind_Ok in H as ([] & s1 & Hpay & H).
  assert (Hk1 : get_reward_pool_balance s1 = get_reward_pool_balance s /\ get_total_rewards_paid s1 = get_total_rewards_paid s).
  { apply pay_or_vest_Ok in Hpay. unfold get_reward_pool_balance, get_total_rewards_paid.
    destruct (0 <? _); [subst s1; by rdsimp|]. destruct Hpay as (tk & _ & (w & _ & _ & ->)%transfer_Ok). by rdsimp. }
  apply bind_Ok in H as (rest & ? & H1 & H). apply plain_Ok in H1 as [[-> _]%checked_sub_Some ->].
  apply bind_Ok in H as (? & ? & H1 & H). apply assert_put_Ok in H1 as (_ & ->). unfold reading at 1 in H.
  apply bind_Ok in H as (tp & ? & H1 & H). apply plain_Ok in H1 as [[-> _]%checked_add_Some ->].
  apply bind_Ok in H as (? & ? & H1 & H). apply assert_put_Ok in H1 as (_ & ->).
  apply bind_Ok in H as (? & ? & H1 & H). apply put_Ok in H1 as [_ ->].
  apply bind_Ok in H as (? & ? & H1 & H). apply publish_Ok in H1 as [_ ->]. apply ret_Ok in H as [-> ->].
  split; [done|]. split; [done|]. intros _. exists s1. split; [done|]. split; [done|]. split; [done|].
  unfold get_reward_pool_balance, get_total_rewards_paid in *. rdsimp. simpl. destruct Hk1 as [_ Hk1].
  split; [done|]. split; [rewrite Hk1; reflexivity|]. split; [done|]. intros k K1 K2 K3. by rdsimp.
Qed.

End Claims.

Section ClaimTheorems.
Context {W : World} (env : Env).
Implicit Types s : State.

(** C22. A claim pays each finalized epoch once.  A successful claim is worth
    what the epochs after the last claimed one, up to the current epoch
    exclusive, credit to the user; the reward pool goes down and the total
    paid up by exactly that, and a second claim before the next epoch is
    finalized is worth nothing and changes nothing. *)
Theorem epoch_claims_exact u s v s' st :
  rd CurrentEpoch s = Some st -> claim_epoch_rewards env u s = Ok v s' ->
  v = epochs_total u (claimable_from u s) (Z.to_nat (er_epoch_number st - claimable_from u s)) s /\
  get_reward_pool_balance s' = get_reward_pool_balance s - v /\
  get_total_rewards_paid s' = get_total_rewards_paid s + v /\
  (forall env' v' s'', claim_epoch_rewards env' u s' = Ok v' s'' -> v' = 0 /\ s'' = s').
Proof.
  intros Hst H. apply claim_epochs_Ok in H as (st' & Hst' & _ & Hv & H0 & Hpos).
  rewrite Hst in Hst'. injection Hst' as <-. split; [done|].
  destruct (decide (v = 0)) as [Hz|Hz].
  - rewrite (H0 Hz), Hz. split; [lia|]. split; [lia|]. intros env' v' s'' (st'' & Hst'' & _ & Hv' & H0' & _)%claim_epochs_Ok.
    rewrite Hst in Hst''. injection Hst'' as <-. assert (v' = 0) as -> by congruence. split; [done|]. by apply H0'.
  - destruct (Hpos Hz) as (s1 & Hpay & _ & _ & Hp & Ht & Hl & Hk). split; [done|]. split; [done|].
    intros env' v' s'' (st'' & Hst'' & _ & Hv' & H0' & _)%claim_epochs_Ok.
    assert (rd CurrentEpoch s1 = Some st) as Hst1.
    { apply pay_or_vest_Ok in Hpay. destruct (0 <? _); [subst s1; by rdsimp|].
      destruct Hpay as (tk & _ & (w & _ & _ & ->)%transfer_Ok). by rdsimp. }
    rewrite Hk, Hst1 in Hst'' by done. injection Hst'' as <-.
    assert (v' = 0) as ->.
    { rewrite Hv'. unfold claimable_from. rewrite Hl. cbn [from_option id].
      replace (Z.to_nat (er_epoch_number st - (er_epoch_number st - 1 + 1))) with 0%nat by lia. done. }
    split; [done|]. by apply H0'.
Qed.

(** A vested claim discards the entries it should extend.  [balance.rs] and
    [vault.rs] keep the vesting list under different keys, and only the
    [DataKey] is ever extended: while the other list is empty, a claim in
    vesting mode leaves its own entry as the user's whole vesting balance,
    whatever was there, although the pool was debited for every entry; and
    [withdraw_vested], which reads the empty list, refuses every user. *)
Theorem vested_claim_discards_entries u s v s' :
  rd (VestSym u) s = None -> 0 < default 0 (rd VestingPeriod s) -> claim_epoch_rewards env u s = Ok v s' -> v <> 0 ->
  vesting_balance u s' = [mkVestingEntry v (u32_sat_add (sequence env) (default 0 (rd VestingPeriod s)))] /\
  get_reward_pool_balance s' = get_reward_pool_balance s - v /\ st_ext s' = st_ext s /\
  (forall env', signed env' u = true -> withdraw_vested env' u s' = Err VaultError.NothingToWithdraw s').
Proof.
  intros Hsym Hper H Hv. apply claim_epochs_Ok in H as (st & _ & _ & _ & _ & Hpos).
  destruct (Hpos Hv) as (s1 & Hpay & He & _ & Hp & _ & _ & Hk).
  apply pay_or_vest_Ok in Hpay. rewrite (proj2 (Z.ltb_lt _ _)) in Hpay by done.
  unfold get_vesting_entries in Hpay. rewrite Hsym in Hpay. cbn [default app] in Hpay. subst s1.
  split; [unfold vesting_balance; rewrite Hk by done; by rdsimp|]. split; [done|]. split; [done|].
  intros env' Hsig. unfold withdraw_vested. rewrite (bind_run _ _ s' tt s') by by apply require_auth_Ok.
  unfold reading at 1. unfold get_vesting_entries. rewrite Hk by done. rewrite rd_upd_ne, Hsym by done. reflexivity.
Qed.

(** ** Vested withdrawals *)

Definition matured_sum (entries : list VestingEntry) : Z := sum_of ve_amount (List.filter (matured env) entries).
Definition unmatured (entries : list VestingEntry) : list VestingEntry :=
  List.filter (fun e => negb (matured env e)) entries.

Lemma mature_Ok entries rem t s r s' :
  mature env entries rem t s = Ok r s' -> s' = s /\ r = (t + matured_sum entries, rem ++ unmatured entries).
Proof.
  revert rem t. induction entries as [|e entries IH]; intros rem t H; cbn [mature] in H.
  { apply ret_Ok in H as [-> ->]. unfold matured_sum. simpl. rewrite app_nil_r, Z.add_0_r. done. }
  unfold matured_sum, unmatured in *. cbn [List.filter]. destruct (matured env e); cbn [negb].
  - apply bind_Ok in H as (t' & ? & H1 & H). apply ok_or_Ok in H1 as [[-> _]%checked_add_Some ->].
    apply IH in H as [-> ->]. split; [done|]. f_equal. unfold sum_of. cbn [foldr]. lia.
  - apply IH in H as [-> ->]. split; [done|]. f_equal. by rewrite <- app_assoc.
Qed.

(** Matured entries are paid once and in full.  [withdraw_all_vested] pays
    the sum of the entries that have matured, keeps the others in their order,
    and pays nothing more at the same ledger; it moves no other balance of the
    vault's books - the claim that made the entries had debited the pool. *)
Theorem vested_paid_once `{!StandardTokens W} u s v s' :
  u <> self env -> withdraw_all_vested env u s = Ok v s' ->
  v = matured_sum (vesting_balance u s) /\
  (v <> 0 -> vesting_balance u s' = unmatured (vesting_balance u s) /\
     exists token, rd Token s = Some token /\ balance_of token u s' = balance_of token u s + v /\
       balance_of token (self env) s' = balance_of token (self env) s - v) /\
  (forall k, k <> KMkt (VestingEntries u) -> rd k s' = rd k s) /\
  (forall v' s'', withdraw_all_vested env u s' = Ok v' s'' -> v' = 0).
Proof.
  assert (Hval : forall s v s', withdraw_all_vested env u s = Ok v s' -> v = matured_sum (vesting_balance u s) /\
    (v = 0 -> s' = s) /\ (v <> 0 -> exists token s1, rd Token s = Some token /\
      transfer (E:=VaultError.t) token (self env) u v s1 = Ok tt s' /\ st_ext s1 = st_ext s /\
      vesting_balance u s1 = unmatured (vesting_balance u s) /\
      (forall k, k <> KMkt (VestingEntries u) -> rd k s1 = rd k s))).
  { clear s v s'. intros s v s' H. unfold withdraw_all_vested in H.
    apply bind_Ok in H as (? & ? & H1 & H). apply require_auth_Ok in H1 as (_ & _ & ->). unfold reading at 1 in H.
    destruct (Nat.eqb_spec (length (vesting_balance u s)) 0) as [Hn|Hn].
    { apply ret_Ok in H as [-> ->]. apply nil_length_inv in Hn. rewrite Hn. split; [done|]. split; [done|]. done. }
    apply bind_Ok in H as (r & ? & H1 & H). apply mature_Ok in H1 as [-> ->]. rewrite Z.add_0_l in H. cbn [app] in H.
    destruct (Z.eqb_spec (matured_sum (vesting_balance u s)) 0) as [Hz|Hz].
    { apply ret_Ok in H as [-> ->]. split; [done|]. split; [done|]. done. }
    unfold reading at 1 in H. apply bind_Ok in H as (? & ? & H1 & H). apply fail_if_Ok in H1 as (_ & _ & ->).
    apply bind_Ok in H as (? & s1 & H1 & H). apply bind_Ok in H as (t & ? & H2 & H). unfold token_address, reading in H2.
    apply ok_or_Ok in H2 as [Ht ->]. apply bind_Ok in H as ([] & s2 & Htr & H). apply ret_Ok in H as [-> ->].
    assert (Hs1 : st_ext s1 = st_ext s /\ vesting_balance u s1 = unmatured (vesting_balance u s) /\
      (forall k, k <> KMkt (VestingEntries u) -> rd k s1 = rd k s)).
    { destruct (Nat.eqb_spec (length (unmatured (vesting_balance u s))) 0) as [Hl|Hl].
      - apply del_Ok in H1 as [_ ->]. apply nil_length_inv in Hl. rewrite Hl. unfold vesting_balance. rdsimp.
        do 2 (split; [done|]). intros k Hk. by rdsimp.
      - apply put_Ok in H1 as [_ ->]. unfold vesting_balance. rdsimp. do 2 (split; [done|]). intros k Hk. by rdsimp. }
    destruct Hs1 as (E1 & E2 & E3). split; [done|]. split; [done|]. intros _. exists t, s1. rewrite E3 in Ht by done. done. }
  intros Hu H. destruct (Hval _ _ _ H) as (Hv & H0 & Hpos). split; [done|].
  destruct (decide (v = 0)) as [Hz|Hz].
  - rewrite (H0 Hz). split; [done|]. split; [done|]. intros v' s'' (Hv' & _)%Hval. congruence.
  - destruct (Hpos Hz) as (t & s1 & Ht & Htr & He & Hb & Hk).
    pose proof Htr as (_ & Hk' & _ & Hbal)%token_sent. destruct (Hbal Hu) as [B1 B2].
    assert (Hvb : vesting_balance u s' = unmatured (vesting_balance u s)) by (unfold vesting_balance in *; by rewrite Hk').
    split; [intros _; split; [done|]; exists t; split; [done|]; unfold balance_of in *; rewrite He in *; lia|].
    split; [intros k Hk2; by rewrite Hk', Hk|]. intros v' s'' (Hv' & _)%Hval. rewrite Hv', Hvb.
    unfold matured_sum, unmatured. generalize (vesting_balance u s) as l. clear. induction l as [|e l IH]; [done|].
    simpl. destruct (matured env e) eqn:E; simpl; [done|]. by rewrite E.
Qed.

End ClaimTheorems.

(** ** Witnesses *)

(** Two stakers with half of the deposits each, in the first epoch. *)
Definition epoch_vault : State (W := token_world) :=
  upd CurrentEpoch (Some (mkEpochRound 1 0 100 0)) (upd EpochRewardPerEpoch (Some 100) (upd EpochLedgers (Some 10)
    (upd EpochMode (Some true) (upd RewardPoolBalance (Some 500) (upd AllStakers (Some [2%positive; 3%positive])
      (upd Admin (Some 4%positive) two_stakers)))))).
Definition funded_vault : State (W := token_world) :=
  set_ext (W := token_world) (fun t a => if decide (t = 9%positive /\ a = 1%positive) then 1000 else 0) epoch_vault.
Definition epoch_over := invoke (finalize_epoch (at_ledger 20) 4%positive) funded_vault.

Lemma funded_books : books funded_vault.
Proof.
  apply (books_same two_stakers); [|exact two_stakers_books].
  intros k Ha. unfold funded_vault, epoch_vault. rewrite rd_set_ext, !rd_upd_ne; [done|..]; by intros <-.
Qed.
Lemma epoch_finalized : finalize_epoch (at_ledger 20) 4%positive funded_vault = Ok tt epoch_over.
Proof.
  assert (succeeds (finalize_epoch (at_ledger 20) 4%positive funded_vault) (fun _ _ => true) = true)
    as ([] & s' & H & _)%succeeds_run by (vm_compute; reflexivity).
  unfold epoch_over, invoke. by rewrite H.
Qed.

Lemma epoch_preview_is_reward_witness :
  epoch_reward 2%positive 1 epoch_over = 50 /\
  epoch_reward 2%positive 1 epoch_over = get_user_epoch_rewards 2%positive funded_vault.
Proof.
  split; [vm_compute; reflexivity|].
  apply (epoch_preview_is_reward (at_ledger 20) 4%positive funded_vault tt epoch_over 2%positive (mkEpochRound 1 0 100 0)).
  - exact epoch_finalized.
  - reflexivity.
  - reflexivity.
  - vm_compute. left.
Defined.

Lemma epoch_rewards_fit_pool_witness :
  0 <= sum_of (fun u => epoch_reward u 1 epoch_over) [2%positive; 3%positive] <= 100.
Proof.
  apply (epoch_rewards_fit_pool (at_ledger 20) 4%positive funded_vault tt epoch_over (mkEpochRound 1 0 100 0)).
  - exact funded_books.
  - exact epoch_finalized.
  - reflexivity.
  - discriminate.
  - intros u. unfold funded_vault, epoch_vault, two_stakers. cbn [er_epoch_number]. by rdsimp.
  - repeat constructor; set_solver.
Defined.

Definition paid_epoch := invoke (claim_epoch_rewards (at_ledger 30) 2%positive) epoch_over.
Lemma epoch_claimed : claim_epoch_rewards (at_ledger 30) 2%positive epoch_over = Ok 50 paid_epoch.
Proof.
  assert (succeeds (claim_epoch_rewards (at_ledger 30) 2%positive epoch_over) (fun v _ => v =? 50) = true)
    as (v & s' & H & Hv)%succeeds_run by (vm_compute; reflexivity).
  apply Z.eqb_eq in Hv. subst v. unfold paid_epoch, invoke. by rewrite H.
Qed.

Lemma epoch_claims_exact_witness :
  claim_epoch_rewards (at_ledger 30) 2%positive epoch_over = Ok 50 paid_epoch /\
  get_reward_pool_balance paid_epoch = get_reward_pool_balance epoch_over - 50.
Proof.
  split; [exact epoch_claimed|].
  apply (epoch_claims_exact (at_ledger 30) 2%positive epoch_over 50 paid_epoch (mkEpochRound 2 20 100 0)).
  - vm_compute. reflexivity.
  - exact epoch_claimed.
Defined.

(** A vesting entry of seventy is there when the claim is vested. *)
Definition vesting_vault : State (W := token_world) :=
  upd VestingPeriod (Some 5) (upd (VestingEntries 2%positive) (Some [mkVestingEntry 70 35]) epoch_over).
Definition vested_claim := invoke (claim_epoch_rewards (at_ledger 30) 2%positive) vesting_vault.

Lemma vested_claim_discards_entries_witness :
  vesting_balance 2%positive vesting_vault = [mkVestingEntry 70 35] /\
  vesting_balance 2%positive vested_claim = [mkVestingEntry 50 35].
Proof.
  split; [vm_compute; reflexivity|].
  assert (succeeds (claim_epoch_rewards (at_ledger 30) 2%positive vesting_vault) (fun v _ => v =? 50) = true)
    as (v & s' & H & Hv)%succeeds_run by (vm_compute; reflexivity).
  apply Z.eqb_eq in Hv. subst v.
  assert (vested_claim = s') as -> by (unfold vested_claim, invoke; by rewrite H).
  apply (vested_claim_discards_entries (at_ledger 30) 2%positive vesting_vault 50 s').
  - vm_compute. reflexivity.
  - vm_compute. reflexivity.
  - exact H.
  - discriminate.
Defined.

Lemma vested_paid_once_witness :
  exists s', withdraw_all_vested (at_ledger 40) 2%positive vesting_vault = Ok 70 s' /\
    (forall v' s'', withdraw_all_vested (at_ledger 40) 2%positive s' = Ok v' s'' -> v' = 0).
Proof.
  assert (succeeds (withdraw_all_vested (at_ledger 40) 2%positive vesting_vault) (fun v _ => v =? 70) = true)
    as (v & s' & H & Hv)%succeeds_run by (vm_compute; reflexivity).
  apply Z.eqb_eq in Hv. subst v. exists s'. split; [exact H|].
  apply (vested_paid_once (at_ledger 40) 2%positive vesting_vault 70 s').
  - discriminate.
  - exact H.
Defined.
