(* ===== verification/VotingProofs.v ===== *)
(** * What governance voting does

    The integer square root is exact and its loop short; the tally of a
    proposal is the sum of its receipts, one per voter; bonds leave the vault
    once; an enactment met its rules; what a veto and a batch do. *)

From S2P Require Import Prelude Errors Storage Host Events TokenFacts Concrete Accessors Admin Shares RewardMath RewardRate.
From S2P Require Import Rewards Balance Pause Limits Loans CapacityAuction CategoryGov Voting.

(** ** The integer square root *)

Section Isqrt.
Context {W : World}.
Implicit Types s : State.

(** One Newton step from above the root: between the root and the midpoint. *)
Lemma newton_step n x r :
  0 < r -> r * r <= n < (r + 1) * (r + 1) -> r <= x ->
  r <= (x + n / x) / 2 /\ (r < x -> (x + n / x) / 2 <= (x + r) / 2).
Proof.
  intros Hr Hn Hx. pose proof (Z.div_mod n x ltac:(lia)). pose proof (Z.mod_pos_bound n x ltac:(lia)).
  set (q := n / x) in *. split.
  - apply Z.div_le_lower_bound; [lia|].
    destruct (Z.le_gt_cases r q); [lia|]. assert (n < x * (q + 1)) by lia.
    assert (r * r < x * (q + 1)) by lia. assert (0 <= q) by (apply Z.div_pos; lia).
    assert (4 * (x * (q + 1)) <= (x + (q + 1)) * (x + (q + 1))) by nia. nia.
  - intros Hlt. apply Z.div_le_mono; [lia|]. enough (q <= r) by lia.
    apply Z.lt_succ_r, Z.div_lt_upper_bound; [lia|]. nia.
Qed.

Lemma newton_small n y : 1 <= y <= n -> y + n / y <= n + 1.
Proof.
  intros H. pose proof (Z.div_mod n y ltac:(lia)). pose proof (Z.mod_pos_bound n y ltac:(lia)).
  set (q := n / y) in *. assert (1 <= q) by (apply Z.div_le_lower_bound; lia). nia.
Qed.

Lemma isqrt_loop_exact E n r : 0 < r -> r * r <= n < (r + 1) * (r + 1) -> n < i128_max ->
  forall fuel x s, r <= x <= n -> x - r < 2 ^ Z.of_nat fuel ->
  isqrt_loop (E:=E) fuel n x ((x + n / x) / 2) s = Ok r s.
Proof.
  intros Hr Hn Hmax. pose proof i128_bounds as Hi. induction fuel as [|fuel IH]; intros x s Hx Hf;
    pose proof (newton_step n x r Hr Hn (proj1 Hx)) as [Hlo Hhi]; cbn [isqrt_loop].
  - assert (x = r) as -> by (simpl in Hf; lia). rewrite (proj2 (Z.ltb_ge _ _)) by lia. done.
  - destruct (Z.ltb_spec ((x + n / x) / 2) x) as [Hlt|Hge].
    + set (y := (x + n / x) / 2) in *.
      assert (r < x) as Hrx by lia. specialize (Hhi Hrx).
      pose proof (Z.div_mod (x + r) 2 ltac:(lia)). pose proof (Z.mod_pos_bound (x + r) 2 ltac:(lia)).
      assert (Hq : checked_div n y = Some (n / y)).
      { unfold checked_div. rewrite (proj2 (Z.eqb_neq y 0)) by lia.
        rewrite quot_floor by lia. apply to_i128_in. unfold in_i128.
        assert (0 <= n / y) by (apply Z.div_pos; lia). assert (n / y <= n) by (apply Z.div_le_upper_bound; nia). lia. }
      rewrite Hq. unfold bind at 1, plain at 1, ret at 1.
      pose proof (newton_small n y ltac:(lia)). assert (0 <= n / y) by (apply Z.div_pos; lia).
      unfold checked_add. rewrite to_i128_in by (unfold in_i128; lia). unfold bind at 1, plain at 1, ret at 1.
      rewrite Z.shiftr_div_pow2 by lia. change (2 ^ 1) with 2. apply IH; [lia|].
      rewrite Nat2Z.inj_succ, Z.pow_succ_r in Hf by lia. lia.
    + assert (x = r) as -> by (destruct (Z.eq_dec x r); [done|]; pose proof (Hhi ltac:(lia));
        pose proof (Z.div_mod (x + r) 2 ltac:(lia)); pose proof (Z.mod_pos_bound (x + r) 2 ltac:(lia)); lia).
      done.
Qed.

Lemma isqrt_run E n s : n < i128_max -> isqrt (E:=E) n s = Ok (Z.sqrt n) s.
Proof.
  intros Hmax. unfold isqrt. destruct (Z.leb_spec n 0) as [H0|H0].
  { destruct (Z.eq_dec n 0) as [->|]; [done|]. by rewrite Z.sqrt_neg by lia. }
  destruct (Z.eqb_spec n 1) as [->|H1]; [done|].
  pose proof i128_bounds as Hi. unfold checked_add. rewrite to_i128_in by (unfold in_i128; lia).
  unfold bind, plain, ret at 1. rewrite Z.shiftr_div_pow2 by lia. change (2 ^ 1) with 2.
  replace ((n + 1) / 2) with ((n + n / n) / 2) by (rewrite Z.div_same by lia; done).
  pose proof (Z.sqrt_spec n ltac:(lia)) as Hs. unfold Z.succ in Hs.
  assert (0 < Z.sqrt n) by (apply Z.sqrt_pos; lia).
  apply isqrt_loop_exact; try lia; [nia|].
  assert (i128_max <= 2 ^ Z.of_nat 127) as Hp by (by vm_compute).
  apply Z.le_lt_trans with n; [lia|]. by apply Z.lt_le_trans with i128_max.
Qed.

(** C17. The integer square root is the floor of the root.  For every input but
    the largest, the loop ends within 127 rounds, no intermediate sum leaves
    the width of the type, and the result is the floor of the square root,
    zero for what is not positive.  For the largest input the first step adds
    one to it and traps, whatever the comment on the range says. *)
Theorem isqrt_exact E s :
  (forall n, n < i128_max -> isqrt (E:=E) n s = Ok (Z.sqrt n) s) /\
  (forall n, 0 <= n < i128_max -> exists r, isqrt (E:=E) n s = Ok r s /\ 0 <= r /\ r * r <= n < (r + 1) * (r + 1)) /\
  isqrt (E:=E) i128_max s = Trap TOverflow.
Proof.
  split; [|split].
  - intros n. apply isqrt_run.
  - intros n Hn. exists (Z.sqrt n). split; [apply isqrt_run; lia|].
    pose proof (Z.sqrt_spec n ltac:(lia)) as Hs. pose proof (Z.sqrt_nonneg n). unfold Z.succ in Hs. by split.
  - done.
Qed.

End Isqrt.

Lemma isqrt_exact_witness :
  exists r, isqrt (W := token_world) (E := unit) 2000000 (start_state (fun _ _ => 0)) = Ok r (start_state (fun _ _ => 0)) /\
    r * r <= 2000000 < (r + 1) * (r + 1).
Proof.
  destruct (isqrt_exact (W := token_world) unit (start_state (fun _ _ => 0))) as (_ & H & _).
  destruct (H 2000000 ltac:(split; [discriminate|reflexivity])) as (r & Hr & _ & Hb). exists r. split; [exact Hr|exact Hb].
Defined.

(** ** What single operations do *)

(** The keys the records of the proposals live under, with the token and the
    deposits booked against it. *)
Definition ballot (k : key) : bool :=
  match k with
  | KVot k =>
      match k with
      | NextProposalId | OpenProposals | GovProposal _ | VotedOn _ _ | VoteReceiptOf _ _ | VetoerOf _
      | GuardianVeto _ | ProposalMetaOf _ | Cancelled _ | BondSettled _ | VoteRecordOf _ _ => true
      | _ => false
      end
  | KInst Token | KInst TotalDeposited => true
  | _ => false
  end.

Section Operations.
Context {W : World} {N : VotingNames} (env : Env).
Implicit Types s : State.

Definition still (K : key -> Prop) s s' : Prop := forall k, ballot k = true -> ~ K k -> rd k s' = rd k s.

(** A transfer of measured size. *)
Lemma pull_measured t f a s r s' :
  pull_tokens env t f a s = Ok r s' ->
  r <= a /\ r <= balance_of t (self env) s' - balance_of t (self env) s /\ (forall k, rd k s' = rd k s) /\ (0 < a -> 0 < r).
Proof.
  unfold pull_tokens, reading. intros H.
  apply bind_Ok in H as ([] & s1 & H1 & H). apply transfer_Ok in H1 as (w & _ & _ & ->).
  apply bind_Ok in H as (rec & ? & H1 & H). apply ok_or_Ok in H1 as [[-> _]%checked_sub_Some ->].
  apply bind_Ok in H as (? & ? & H1 & H). apply fail_if_Ok in H1 as (Hp%Z.leb_gt & _ & ->).
  apply bind_Ok in H as (? & s2 & H1 & H). apply ret_Ok in H as [-> ->].
  assert (st_ext s2 = w /\ forall k, rd k s2 = rd k s) as [He Hk].
  { destruct (_ <? a); [apply publish_Ok in H1 as [_ ->]|apply ret_Ok in H1 as [_ ->]]; (split; [done|]);
      intros k; rewrite ?rd_emit; apply rd_set_ext. }
  assert (Hb : balance_of t (self env) s2 = balance_of t (self env) (set_ext w s)) by (unfold balance_of; by rewrite He).
  rewrite Hb. split_and!; lia || done.
Qed.

Lemma with_vote_Some p b w p' :
  with_vote p b w = Some p' ->
  p' = mkGovernanceProposal (gp_id p) (gp_parameter p) (gp_new_value p)
         (gp_votes_for p + if b then w else 0) (gp_votes_against p + if b then 0 else w)
         (gp_ends_at p) (gp_enacted p) (gp_weight_mode p).
Proof.
  unfold with_vote. destruct b; (destruct (checked_add _ w) as [v|] eqn:Hv; [|done]);
    apply checked_add_Some in Hv as [-> _]; intros [= <-]; by rewrite Z.add_0_r.
Qed.

(** A vote of [w] by [u] that counted, at [l]. *)
Record cast_at (l id : Z) (u : Address) (b : bool) (w : Z) s s' : Prop := {
  cs_before : exists p p', get_proposal id s = Some p /\ gp_enacted p = false /\ l <= gp_ends_at p /\
    with_vote p b w = Some p' /\ get_proposal id s' = Some p';
  cs_open : is_cancelled id s = false;
  cs_fresh : has_voted id u s = false;
  cs_voted : rd (VotedOn id u) s' = Some true;
  cs_receipt : get_vote_receipt id u s' = Some (mkVoteReceipt b w l);
  cs_rest : forall k, k <> KVot (GovProposal id) -> k <> KVot (VotedOn id u) -> k <> KVot (VoteReceiptOf id u) ->
    k <> KVot (LastVoteLedger u) -> rd k s' = rd k s;
  cs_ext : st_ext s' = st_ext s
}.

(** A receipt of [u], not for [b] so far, that moved its weight to side [b]. *)
Record switched_at (l id : Z) (u : Address) (b : bool) s s' : Prop := {
  sw_before : exists p p' r, get_proposal id s = Some p /\ gp_enacted p = false /\ l <= gp_ends_at p /\
    get_vote_receipt id u s = Some r /\ vr_support r = negb b /\
    switched_vote p (negb b) (vr_weight r) = Some p' /\ get_proposal id s' = Some p' /\
    get_vote_receipt id u s' = Some (mkVoteReceipt b (vr_weight r) l);
  sw_rest : forall k, k <> KVot (GovProposal id) -> k <> KVot (VoteReceiptOf id u) -> rd k s' = rd k s;
  sw_ext : st_ext s' = st_ext s
}.

(** The side a receipt leaves keeps within the integer's width. *)
Definition side_fits (id : Z) (u : Address) s : Prop :=
  forall p r, get_proposal id s = Some p -> get_vote_receipt id u s = Some r ->
    in_i128 ((if vr_support r then gp_votes_for p else gp_votes_against p) - vr_weight r).

Lemma switched_vote_Some p b w p' :
  switched_vote p (negb b) w = Some p' -> in_i128 ((if negb b then gp_votes_for p else gp_votes_against p) - w) ->
  p' = mkGovernanceProposal (gp_id p) (gp_parameter p) (gp_new_value p)
         (gp_votes_for p + if b then w else - w) (gp_votes_against p + if b then - w else w)
         (gp_ends_at p) (gp_enacted p) (gp_weight_mode p).
Proof.
  unfold switched_vote, sat_sub. destruct b; cbn [negb]; intros H Hf;
    (destruct (checked_add _ w) as [v|] eqn:Hv; [|done]); apply checked_add_Some in Hv as [-> _]; simpl in H;
    injection H as <-; by rewrite clamp_in, Z.add_opp_r.
Qed.

(** [change_vote] of the receipts: nothing, or a switch. *)
Lemma change_vote_receipt_Ok u id b s x s' :
  change_vote_receipt env u id b s = Ok x s' ->
  (s' = s /\ exists r, get_vote_receipt id u s = Some r /\ vr_support r = b) \/ switched_at (sequence env) id u b s s'.
Proof.
  unfold change_vote_receipt. intros H.
  apply bind_Ok in H as (? & ? & H1 & H). apply require_auth_Ok in H1 as (_ & _ & ->). unfold reading at 1 in H.
  apply bind_Ok in H as (p & ? & H1 & H). apply ok_or_Ok in H1 as [Hp ->].
  apply bind_Ok in H as (? & ? & H1 & H). apply fail_if_Ok in H1 as (He & _ & ->).
  apply bind_Ok in H as (? & ? & H1 & H). apply fail_if_Ok in H1 as (Hend%Z.ltb_ge & _ & ->). unfold reading at 1 in H.
  apply bind_Ok in H as (r & ? & H1 & H). apply ok_or_Ok in H1 as [Hr ->].
  destruct (eqb (vr_support r) b) eqn:Eb.
  { apply eqb_prop in Eb. apply ret_Ok in H as [_ ->]. left. split; [done|]. by exists r. }
  right. assert (vr_support r = negb b) as Hs by (by destruct (vr_support r), b).
  apply bind_Ok in H as (p' & ? & H1 & H). apply ok_or_Ok in H1 as [Hp' ->].
  unfold set_proposal, set_vote_receipt in H.
  apply bind_Ok in H as (? & ? & [_ ->]%put_Ok & H). apply bind_Ok in H as (? & ? & [_ ->]%put_Ok & H).
  apply publish_Ok in H as [_ ->]. rewrite Hs in Hp'. split; [exists p, p', r|..].
  - unfold get_proposal, get_vote_receipt in *. rdsimp. split_and!; done.
  - intros k K1 K2. by rdsimp.
  - done.
Qed.

Lemma weighted_Ok E mode raw s w s' : weighted (E:=E) mode raw s = Ok w s' -> s' = s.
Proof.
  destruct mode; cbn [weighted]; [by intros [_ ->]%ret_Ok|]. unfold isqrt.
  destruct (raw <=? 0); [by intros [_ ->]%ret_Ok|]. destruct (raw =? 1); [by intros [_ ->]%ret_Ok|].
  intros (v & ? & [_ ->]%plain_Ok & H)%bind_Ok. revert H.
  generalize 127%nat as fuel, raw at 2 as x, (Z.shiftr v 1) as y. induction fuel as [|fuel IH]; intros x y; cbn [isqrt_loop].
  - destruct (y <? x); [done|]. by intros [_ ->]%ret_Ok.
  - destruct (y <? x); [|by intros [_ ->]%ret_Ok].
    intros (? & ? & [_ ->]%plain_Ok & H)%bind_Ok. apply bind_Ok in H as (? & ? & [_ ->]%plain_Ok & H).
    by apply IH in H.
Qed.

(** The three writes of a vote. *)
Lemma record_cast E l id u b w p p' s x s' :
  get_proposal id s = Some p -> gp_enacted p = false -> l <= gp_ends_at p ->
  with_vote p b w = Some p' -> is_cancelled id s = false -> has_voted id u s = false ->
  (set_proposal (E:=E) id p' ;;; set_voted id u ;;; set_vote_receipt id u (mkVoteReceipt b w l)) s = Ok x s' ->
  cast_at l id u b w s s'.
Proof.
  intros Hp He Hl Hw Hc Hf H. unfold set_proposal, set_voted, set_vote_receipt in H.
  apply bind_Ok in H as (? & ? & [_ ->]%put_Ok & H). apply bind_Ok in H as (? & ? & [_ ->]%put_Ok & H).
  apply put_Ok in H as [_ ->].
  split; try done.
  - exists p, p'. unfold get_proposal in *. by rdsimp.
  - by rdsimp.
  - unfold get_vote_receipt. by rdsimp.
  - intros k K1 K2 K3 _. by rdsimp.
Qed.

Lemma cast_emit l id u b w s s' e : cast_at l id u b w s s' -> cast_at l id u b w s (emit e s').
Proof. intros []. by split. Qed.

(** [vote]. *)
Lemma vote_Ok u id b s x s' :
  vote env u id b s = Ok x s' ->
  exists p raw own w, get_proposal id s = Some p /\ get_vote_delegate u s = None /\ get_shares u s <> 0 /\ signed env u = true /\
    shares_to_amount (get_total_shares s) (get_total_deposited s) (get_shares u s) = Some raw /\
    weighted (E:=VaultError.t) (gp_weight_mode p) raw s = Ok own s /\
    w = own + get_delegated_vote_weight u s /\ cast_at (sequence env) id u b w s s'.
Proof.
  unfold vote. intros H.
  apply bind_Ok in H as (? & ? & H1 & H). apply require_auth_Ok in H1 as (Hsig & _ & ->). unfold reading at 1 in H.
  apply bind_Ok in H as (p & ? & H1 & H). apply ok_or_Ok in H1 as [Hp ->]. unfold reading at 1 in H.
  apply bind_Ok in H as (? & ? & H1 & H). apply fail_if_Ok in H1 as (Hd & _ & ->). unfold reading at 1 in H.
  apply bind_Ok in H as (? & ? & H1 & H). apply fail_if_Ok in H1 as (Hsh%Z.eqb_neq & _ & ->). unfold reading at 1 in H.
  apply bind_Ok in H as (? & ? & H1 & H). apply fail_if_Ok in H1 as (Hv & _ & ->).
  apply bind_Ok in H as (? & ? & H1 & H). apply fail_if_Ok in H1 as ([He Hend%Z.ltb_ge]%orb_false_iff & _ & ->). unfold reading at 1 in H.
  apply bind_Ok in H as (? & ? & H1 & H). apply fail_if_Ok in H1 as (Hc & _ & ->). do 2 unfold reading at 1 in H.
  apply bind_Ok in H as (raw & ? & H1 & H). apply ok_or_Ok in H1 as [Hraw ->].
  apply bind_Ok in H as (own & s1 & Hown & H). pose proof Hown as ->%weighted_Ok. unfold reading at 1 in H.
  apply bind_Ok in H as (w & ? & H1 & H). apply ok_or_Ok in H1 as [[-> _]%checked_add_Some ->].
  apply bind_Ok in H as (p' & ? & H1 & H). apply ok_or_Ok in H1 as [Hp' ->].
  exists p, raw, own, (own + get_delegated_vote_weight u s). split_and!; try done.
  { by destruct (get_vote_delegate u s). }
  apply bind_Ok in H as (? & s1 & H1 & H). apply bind_Ok in H as (? & s2 & H2 & H).
  apply bind_Ok in H as (? & s3 & H3 & H). apply publish_Ok in H as [_ ->].
  apply cast_emit. eapply (record_cast VaultError.t); [done..|]. forward ltac:(exact H1). forward ltac:(exact H2). exact H3.
Qed.

(** An entry of a batch either counts or leaves the state alone. *)
Lemma batch_entry_Ok u w id b s r s' :
  batch_entry env u w (id, b) s = Ok r s' ->
  (r = REASON_OK /\ 0 < w /\ cast_at (sequence env) id u b w s s') \/ (r <> REASON_OK /\ s' = s).
Proof.
  unfold batch_entry, reading. intros H.
  destruct (get_proposal id s) as [p|] eqn:Hp; [|apply ret_Ok in H as [-> ->]; by right].
  destruct (gp_enacted p) eqn:He; [apply ret_Ok in H as [-> ->]; by right|].
  destruct (is_cancelled id s) eqn:Hc; [apply ret_Ok in H as [-> ->]; by right|].
  destruct (Z.ltb_spec (gp_ends_at p) (sequence env)) as [|Hend]; [apply ret_Ok in H as [-> ->]; by right|].
  destruct (has_voted id u s) eqn:Hv; [apply ret_Ok in H as [-> ->]; by right|].
  destruct (Z.leb_spec w 0) as [|Hw]; [apply ret_Ok in H as [-> ->]; by right|]. left.
  apply bind_Ok in H as (p' & ? & H1 & H). apply ok_or_Ok in H1 as [Hp' ->].
  apply bind_Ok in H as (? & s1 & H1 & H). apply bind_Ok in H as (? & s2 & H2 & H).
  apply bind_Ok in H as (? & s3 & H3 & H). apply bind_Ok in H as (? & s4 & H4 & H).
  apply publish_Ok in H4 as [_ ->]. apply ret_Ok in H as [-> ->]. split; [done|]. split; [done|].
  apply cast_emit. eapply (record_cast BatchVoteError); [done..|]. forward ltac:(exact H1). forward ltac:(exact H2). exact H3.
Qed.

Lemma close_slot_Ok E s x s' :
  close_slot (E:=E) s = Ok x s' ->
  get_open_proposal_count s' = (if 0 <? get_open_proposal_count s then get_open_proposal_count s - 1 else get_open_proposal_count s) /\
  (forall k, k <> KVot OpenProposals -> rd k s' = rd k s) /\ st_ext s' = st_ext s.
Proof.
  unfold close_slot, reading, set_open_proposal_count. destruct (0 <? get_open_proposal_count s).
  - intros [_ ->]%put_Ok. unfold get_open_proposal_count at 1. rdsimp. split_and!; try done. intros. by rdsimp.
  - by intros [_ ->]%ret_Ok.
Qed.

End Operations.

(** What the vault still owes on the bond of a proposal. *)
Definition owed {W : World} (s : State) (id : Z) : Z :=
  match get_meta id s with
  | Some m => if is_settled id s || is_cancelled id s then 0 else Z.max 0 (mt_bond_paid m)
  | None => 0
  end.

Section Openings.
Context {W : World} {N : VotingNames} (env : Env).
Implicit Types s : State.

Lemma pull_bond_Ok u s bond s' :
  pull_bond env u s = Ok bond s' ->
  0 <= bond /\ (forall k, rd k s' = rd k s) /\
  (forall t, rd Token s = Some t -> bond <= balance_of t (self env) s' - balance_of t (self env) s).
Proof.
  unfold pull_bond, reading. destruct (Z.ltb_spec 0 (bond_amount s)) as [Hb|Hb].
  - intros (t & ? & H1 & H)%bind_Ok. unfold token_address, reading in H1. apply ok_or_Ok in H1 as [Ht ->].
    apply pull_measured in H as (_ & Hd & Hk & Hp). split; [apply Hp in Hb; lia|]. split; [done|].
    intros t'. rewrite Ht. by intros [= <-].
  - intros [-> ->]%ret_Ok. split; [lia|]. split; [done|]. intros. lia.
Qed.

Lemma power_snapshot_Ok E id s x s' :
  snapshot (E:=E) id s = Ok x s' ->
  (forall k, k <> KVot (GovSnapshot id) -> k <> KVot (GovBase id) -> rd k s' = rd k s) /\ st_ext s' = st_ext s.
Proof.
  unfold snapshot, reading. destruct (get_params s); [|by intros [_ ->]%ret_Ok].
  intros (? & ? & [_ ->]%put_Ok & H)%bind_Ok. apply put_Ok in H as [_ ->]. split; [|done]. intros. by rdsimp.
Qed.

(** [create_proposal]. *)
Record opened_at (u : Address) (id : Z) s s' : Prop := {
  op_id : id = get_next_proposal_id s;
  op_room : get_open_proposal_count s < MAX_OPEN_PROPOSALS;
  op_proposal : exists p, get_proposal id s' = Some p /\ gp_enacted p = false /\ gp_votes_for p = 0 /\ gp_votes_against p = 0 /\
    gp_id p = id /\ gp_weight_mode p = get_vote_weight_mode s;
  op_next : get_next_proposal_id s' = id + 1;
  op_open : get_open_proposal_count s' = get_open_proposal_count s + 1;
  op_meta : exists bond, get_meta id s' = Some (mkProposalMeta u (sequence env) bond) /\ 0 <= bond /\
    (forall t, rd Token s = Some t -> bond <= balance_of t (self env) s' - balance_of t (self env) s);
  op_rest : forall k, ballot k = true -> k <> KVot (GovProposal id) -> k <> KVot (ProposalMetaOf id) ->
    k <> KVot NextProposalId -> k <> KVot OpenProposals -> rd k s' = rd k s
}.

Lemma proposer_stake_Ok sh s x s' : require_proposer_stake sh s = Ok x s' -> s' = s.
Proof.
  unfold require_proposer_stake, reading. destruct (0 <? min_stake_amount s); [|by intros [_ ->]%ret_Ok].
  intros (? & ? & [_ ->]%ok_or_Ok & H)%bind_Ok. by apply fail_if_Ok in H as (_ & _ & ->).
Qed.

Lemma create_proposal_Ok u param v d s id s' : create_proposal env u param v d s = Ok id s' -> opened_at u id s s'.
Proof.
  unfold create_proposal. intros H.
  apply bind_Ok in H as (? & ? & H1 & H). apply require_auth_Ok in H1 as (_ & _ & ->). unfold reading at 1 in H.
  apply bind_Ok in H as (? & ? & H1 & H). apply fail_if_Ok in H1 as (_ & _ & ->).
  apply bind_Ok in H as (? & ? & H1 & H). apply proposer_stake_Ok in H1 as ->. unfold reading at 1 in H.
  apply bind_Ok in H as (? & ? & H1 & H). apply fail_if_Ok in H1 as (Hroom%Z.leb_gt & _ & ->). do 2 unfold reading at 1 in H.
  cbv zeta in H. apply bind_Ok in H as (bond & s1 & Hb & H). apply pull_bond_Ok in Hb as (Hb & Hk1 & Hbal).
  unfold record_proposal_created, set_proposal, set_next_proposal_id, set_open_proposal_count in H.
  apply bind_Ok in H as (? & ? & [_ ->]%put_Ok & H). apply bind_Ok in H as (? & ? & [_ ->]%put_Ok & H).
  apply bind_Ok in H as (? & s2 & [Hk2 He2]%power_snapshot_Ok & H).
  apply bind_Ok in H as (next & ? & H1 & H). apply plain_Ok in H1 as [[-> _]%to_u32_Some ->].
  apply bind_Ok in H as (? & ? & [_ ->]%put_Ok & H). unfold reading at 1 in H.
  apply bind_Ok in H as (cnt & ? & H1 & H). apply plain_Ok in H1 as [[-> _]%to_u32_Some ->].
  apply bind_Ok in H as (? & ? & [_ ->]%put_Ok & H). apply bind_Ok in H as (? & ? & H1 & H).
  apply publish_Ok in H1 as [_ ->]. apply ret_Ok in H as [-> ->].
  split; try done.
  - eexists. unfold get_proposal. rdsimp. rewrite Hk2 by done. rdsimp. by split_and!.
  - unfold get_open_proposal_count. rdsimp. cbn [default]. rewrite Hk2 by done. rdsimp. by rewrite Hk1.
  - exists bond. unfold get_meta. rdsimp. rewrite Hk2 by done. rdsimp. split; [done|]. split; [done|].
    intros t Ht. specialize (Hbal t Ht). unfold balance_of in *. cbn [emit upd st_ext]. rewrite He2. done.
  - intros k Hk K1 K2 K3 K4. rdsimp. rewrite Hk2 by (by intros ->). rdsimp. apply Hk1.
Qed.

(** [cancel_proposal]. *)
Record cancelled_at (u : Address) (id : Z) s s' : Prop := {
  ca_before : exists p, get_proposal id s = Some p /\ gp_enacted p = false /\ gp_votes_for p = 0 /\ gp_votes_against p = 0;
  ca_fresh : is_cancelled id s = false;
  ca_after : is_cancelled id s' = true;
  ca_open : get_open_proposal_count s' = (if 0 <? get_open_proposal_count s then get_open_proposal_count s - 1 else get_open_proposal_count s);
  ca_meta : exists m, get_meta id s = Some m /\ mt_proposer m = u;
  ca_rest : forall k, ballot k = true -> k <> KVot (Cancelled id) -> k <> KVot OpenProposals -> rd k s' = rd k s
}.

Lemma catch_token_Ok E' s r s' :
  catch (E':=E') token_address s = Ok r s' -> s' = s /\ (forall t, r = inl t -> rd Token s = Some t).
Proof.
  unfold catch, token_address, reading, ok_or. destruct (rd Token s) as [t|].
  - cbn. intros [= <- <-]. split; [done|]. by intros ? [= <-].
  - cbn. intros [= <- <-]. by split.
Qed.

Lemma cancel_Ok `{!StandardTokens W} u id s x s' :
  cancel_proposal env u id s = Ok x s' ->
  cancelled_at u id s s' /\
  (forall t, rd Token s = Some t -> exists m, get_meta id s = Some m /\
     balance_of t (self env) s - Z.max 0 (mt_bond_paid m) <= balance_of t (self env) s').
Proof.
  unfold cancel_proposal. intros H.
  apply bind_Ok in H as (? & ? & H1 & H). apply require_auth_Ok in H1 as (_ & _ & ->). unfold reading at 1 in H.
  apply bind_Ok in H as (p & ? & H1 & H). apply ok_or_Ok in H1 as [Hp ->].
  apply bind_Ok in H as (? & ? & H1 & H). apply fail_if_Ok in H1 as (He & _ & ->). unfold reading at 1 in H.
  apply bind_Ok in H as (? & ? & H1 & H). apply fail_if_Ok in H1 as (Hc & _ & ->). unfold reading at 1 in H.
  apply bind_Ok in H as (m & ? & H1 & H). apply ok_or_Ok in H1 as [Hm ->].
  apply bind_Ok in H as (? & ? & H1 & H). apply fail_if_Ok in H1 as (Hu%negb_false_iff%bool_decide_eq_true & _ & ->).
  apply bind_Ok in H as (? & ? & H1 & H).
  apply fail_if_Ok in H1 as ([Hf%negb_false_iff%Z.eqb_eq Ha%negb_false_iff%Z.eqb_eq]%orb_false_iff & _ & ->). unfold reading at 1 in H.
  apply bind_Ok in H as (? & ? & H1 & H). apply fail_if_Ok in H1 as (_ & _ & ->).
  apply bind_Ok in H as (? & ? & [_ ->]%put_Ok & H). apply bind_Ok in H as (? & s1 & (Ho & Hk1 & He1)%close_slot_Ok & H).
  apply bind_Ok in H as (? & s2 & Hpay & H). apply publish_Ok in H as [_ ->].
  assert (Hpaid : (forall k, rd k s2 = rd k s1) /\ (forall t, rd Token s = Some t ->
    balance_of t (self env) s1 - Z.max 0 (mt_bond_paid m) <= balance_of t (self env) s2)).
  { destruct (Z.ltb_spec 0 (mt_bond_paid m)) as [Hb|Hb].
    - apply bind_Ok in Hpay as (r & ? & [-> Hr]%catch_token_Ok & Hpay). destruct r as [t|]; [|by apply throw_Ok in Hpay].
      apply token_sent in Hpay as (_ & Hk & Hbal & _). split; [done|]. intros t' Ht'.
      pose proof (Hr t eq_refl) as Ht. rewrite Hk1 in Ht by done. revert Ht. rdsimp. rewrite Ht'. intros [= ->].
      rewrite Z.max_r by lia. done.
    - apply ret_Ok in Hpay as [_ ->]. split; [done|]. intros. lia. }
  destruct Hpaid as [Hk2 Hbal]. split; [split; try done|].
  - by exists p.
  - unfold is_cancelled. rewrite rd_emit, Hk2, Hk1 by done. by rdsimp.
  - unfold get_open_proposal_count in *. rewrite rd_emit, Hk2, Ho. by rdsimp.
  - by exists m.
  - intros k _ K1 K2. rewrite rd_emit, Hk2, Hk1 by done. by rdsimp.
  - intros t Ht. exists m. split; [done|]. specialize (Hbal t Ht). unfold balance_of in *. cbn [emit st_ext].
    rewrite He1 in Hbal. exact Hbal.
Qed.

(** [settle_bond]. *)
Lemma settle_bond_Ok `{!StandardTokens W} id f a s x s' :
  settle_bond env id f a s = Ok x s' ->
  is_settled id s' = true /\ (forall k, k <> KVot (BondSettled id) -> rd k s' = rd k s) /\
  (forall t, rd Token s = Some t -> is_cancelled id s = false ->
     balance_of t (self env) s - owed s id <= balance_of t (self env) s').
Proof.
  unfold settle_bond, mark_settled. unfold reading at 1. destruct (is_settled id s) eqn:Hs.
  { intros [_ ->]%ret_Ok. split; [done|]. split; [done|]. intros t _ _. unfold owed. rewrite Hs.
    destruct (get_meta id s); simpl; lia. }
  intros H. apply bind_Ok in H as (? & ? & [_ ->]%put_Ok & H). unfold reading at 1 in H.
  set (s1 := upd _ _ s) in H. assert (Hm : get_meta id s1 = get_meta id s) by (subst s1; unfold get_meta; by rdsimp).
  rewrite Hm in H.
  assert (Hset : forall s2, (forall k, rd k s2 = rd k s1) ->
    is_settled id s2 = true /\ (forall k, k <> KVot (BondSettled id) -> rd k s2 = rd k s)).
  { intros s2 Hk2. split; [unfold is_settled; rewrite Hk2; subst s1; by rdsimp|]. intros k Hk. rewrite Hk2. subst s1. by rdsimp. }
  assert (Hidle : forall s2, (forall k, rd k s2 = rd k s1) -> (forall t, rd Token s = Some t -> is_cancelled id s = false ->
      balance_of t (self env) s - owed s id <= balance_of t (self env) s2) -> s' = s2 \/ (exists e, s' = emit e s2) ->
    is_settled id s' = true /\ (forall k, k <> KVot (BondSettled id) -> rd k s' = rd k s) /\
    (forall t, rd Token s = Some t -> is_cancelled id s = false -> balance_of t (self env) s - owed s id <= balance_of t (self env) s')).
  { intros s2 Hk2 Hb [->|[e ->]]; (split; [apply Hset; intros k; rewrite ?rd_emit; apply Hk2|]);
      (split; [apply Hset; intros k; rewrite ?rd_emit; apply Hk2|done]). }
  assert (Hown : 0 <= owed s id) by (unfold owed; destruct (get_meta id s); [destruct (_ || _)|]; lia).
  destruct (get_meta id s) as [m|] eqn:Em.
  2: { apply ret_Ok in H as [_ ->]. apply (Hidle s1); [done| |by left]. intros t _ _. change (balance_of t (self env) s1) with (balance_of t (self env) s). lia. }
  destruct (Z.ltb_spec 0 (mt_bond_paid m)) as [Hb|Hb]; cbn [negb] in H.
  2: { apply ret_Ok in H as [_ ->]. apply (Hidle s1); [done| |by left]. intros t _ _. change (balance_of t (self env) s1) with (balance_of t (self env) s). lia. }
  do 2 unfold reading at 1 in H. apply bind_Ok in H as (r & ? & [-> Hr]%catch_token_Ok & H).
  destruct r as [t0|err].
  2: { apply ret_Ok in H as [_ ->]. apply (Hidle s1); [done| |by left]. intros t _ _. change (balance_of t (self env) s1) with (balance_of t (self env) s). lia. }
  pose proof (Hr t0 eq_refl) as Ht0. assert (Ht : rd Token s = Some t0) by (subst s1; revert Ht0; by rdsimp).
  assert (Howed : is_cancelled id s = false -> owed s id = mt_bond_paid m).
  { intros Hc. unfold owed. rewrite Em, Hs, Hc. simpl. lia. }
  assert (Hsend : forall d s2 E y, transfer (E:=E) t0 (self env) d (mt_bond_paid m) s1 = Ok y s2 ->
    (forall k, rd k s2 = rd k s1) /\ (forall t, rd Token s = Some t -> is_cancelled id s = false ->
      balance_of t (self env) s - owed s id <= balance_of t (self env) s2)).
  { intros d s2 E y (_ & Hk & Hbal & _)%token_sent. split; [done|]. intros t1 Ht1 Hc. rewrite Ht in Ht1. injection Ht1 as <-.
    rewrite Howed by done. exact Hbal. }
  destruct (meets_quorum _ _ _).
  - apply bind_Ok in H as (? & s2 & Htr & H). apply publish_Ok in H as [_ ->].
    apply Hsend in Htr as [Hk2 Hb2]. apply (Hidle s2); [done|done|right; by eexists].
  - unfold reading at 1 in H. apply bind_Ok in H as (? & s2 & Htr & H). apply publish_Ok in H as [_ ->].
    destruct (slash_destination s1) as [d|].
    + apply Hsend in Htr as [Hk2 Hb2]. apply (Hidle s2); [done|done|right; by eexists].
    + apply ret_Ok in Htr as [_ ->]. apply (Hidle s1); [done| |right; by eexists].
      intros t _ _. change (balance_of t (self env) s1) with (balance_of t (self env) s). lia.
Qed.

End Openings.

(** The key a parameter lives under, and what enacting a value of it leaves. *)
Definition parameter_key (p : ProposableParam) : key :=
  match p with
  | PRewardRate => KInst RewardRateBps
  | PUnstakeFee => KFeat UnstakeFeeBps
  | PPoolCap => KFeat PoolCap
  | PMinStake => KFeat MinStake
  end.
Definition in_force {W : World} (p : ProposableParam) (v : Z) (s : State) : Prop :=
  match p with
  | PRewardRate => get_reward_rate_bps s = v /\ 0 <= v <= MAX_RATE_BPS
  | PUnstakeFee => rd UnstakeFeeBps s = Some v /\ 0 <= v <= MAX_UNSTAKE_FEE_BPS
  | PPoolCap => get_pool_cap s = v /\ 0 <= v
  | PMinStake => rd MinStake s = Some v /\ 0 <= v
  end.

(** The rule a proposal is decided by: its own snapshot, or the majority. *)
Definition carries {W : World} (id votes_for votes_against : Z) (s : State) : Prop :=
  match rd (GovSnapshot id) s with
  | None => votes_against < votes_for
  | Some params =>
      let total := votes_for + votes_against in
      total <> 0 /\ default 0 (rd (GovBase id) s) * gm_quorum_bps params <= total * BPS /\
      total * gm_pass_threshold_bps params <= votes_for * BPS
  end.

Section Enactment.
Context {W : World} {N : VotingNames} (env : Env).
Implicit Types s : State.

Lemma passes_Ok id f a s b s' : passes id f a s = Ok b s' -> s' = s /\ (b = true <-> carries id f a s).
Proof.
  unfold passes, carries, reading. intros H. destruct (rd (GovSnapshot id) s) as [gm|].
  2: { apply ret_Ok in H as [-> ->]. by rewrite Z.ltb_lt. }
  apply bind_Ok in H as (tot & ? & H1 & H). apply ok_or_Ok in H1 as [[-> _]%checked_add_Some ->].
  destruct (Z.eqb_spec (f + a) 0); [apply ret_Ok in H as [-> ->]; split; [done|]; split; [done|lia]|].
  apply bind_Ok in H as (pt & ? & H1 & H). apply ok_or_Ok in H1 as [[-> _]%checked_mul_Some ->].
  apply bind_Ok in H as (rq & ? & H1 & H). apply ok_or_Ok in H1 as [[-> _]%checked_mul_Some ->].
  destruct (Z.ltb_spec ((f + a) * BPS) (default 0 (rd (GovBase id) s) * gm_quorum_bps gm));
    [apply ret_Ok in H as [-> ->]; split; [done|]; split; [done|lia]|].
  apply bind_Ok in H as (su & ? & H1 & H). apply ok_or_Ok in H1 as [[-> _]%checked_mul_Some ->].
  apply bind_Ok in H as (nd & ? & H1 & H). apply ok_or_Ok in H1 as [[-> _]%checked_mul_Some ->].
  apply ret_Ok in H as [-> ->]. rewrite Z.leb_le. split; [done|]. lia.
Qed.

Lemma apply_proposal_Ok p v s x s' :
  apply_proposal p v s = Ok x s' ->
  in_force p v s' /\ (forall k, k <> parameter_key p -> rd k s' = rd k s) /\ st_ext s' = st_ext s.
Proof.
  destruct p; cbn [apply_proposal parameter_key]; intros H.
  - apply bind_Ok in H as (r & ? & H1 & H). apply ok_or_Ok in H1 as [[-> [Hr _]]%to_u32_Some ->].
    apply bind_Ok in H as (? & ? & H1 & H). unfold validate_rate_bps in H1. apply fail_if_Ok in H1 as (Hm%Z.ltb_ge & _ & ->).
    unfold set_reward_rate_bps in H. apply put_Ok in H as [_ ->]. unfold in_force, get_reward_rate_bps. rdsimp.
    split_and!; try done. intros. by rdsimp.
  - apply bind_Ok in H as (r & ? & H1 & H). apply ok_or_Ok in H1 as [[-> [Hr _]]%to_u32_Some ->].
    apply bind_Ok in H as (? & ? & H1 & H). apply fail_if_Ok in H1 as (Hm%Z.ltb_ge & _ & ->).
    apply put_Ok in H as [_ ->]. unfold in_force. rdsimp. split_and!; try done. intros. by rdsimp.
  - apply bind_Ok in H as (? & ? & H1 & H). apply fail_if_Ok in H1 as (Hm%Z.ltb_ge & _ & ->).
    apply put_Ok in H as [_ ->]. unfold in_force, get_pool_cap. rdsimp. split_and!; try done. intros. by rdsimp.
  - apply bind_Ok in H as (? & ? & H1 & H). apply fail_if_Ok in H1 as (Hm%Z.ltb_ge & _ & ->).
    apply put_Ok in H as [_ ->]. unfold in_force. rdsimp. split_and!; try done. intros. by rdsimp.
Qed.

Lemma parameter_not_ballot p k : ballot k = true -> k <> parameter_key p.
Proof. by destruct p; intros Hk ->. Qed.

(** What stands in front of an enactment. *)
Record ready (id : Z) (p : GovernanceProposal) s : Prop := {
  rd_proposal : get_proposal id s = Some p;
  rd_enacted : gp_enacted p = false;
  rd_cancelled : is_cancelled id s = false;
  rd_ended : gp_ends_at p < sequence env;
  rd_waited : gp_votes_against p < gp_votes_for p -> u32_sat_add (gp_ends_at p) (execution_delay_ledgers s) <= sequence env;
  rd_vetoer : get_proposal_vetoer id s = None;
  rd_guardian : is_vetoed id s = false
}.

Lemma enactable_Ok id s p s' : enactable env id s = Ok p s' -> s' = s /\ ready id p s.
Proof.
  unfold enactable. intros H. unfold reading at 1 in H.
  apply bind_Ok in H as (q & ? & H1 & H). apply ok_or_Ok in H1 as [Hp ->].
  apply bind_Ok in H as (? & ? & H1 & H). apply fail_if_Ok in H1 as (He & _ & ->). unfold reading at 1 in H.
  apply bind_Ok in H as (? & ? & H1 & H). apply fail_if_Ok in H1 as (Hc & _ & ->).
  apply bind_Ok in H as (? & ? & H1 & H). apply fail_if_Ok in H1 as (Hend%Z.leb_gt & _ & ->). unfold reading at 1 in H.
  apply bind_Ok in H as (? & ? & H1 & H). apply fail_if_Ok in H1 as (Hw & _ & ->). unfold reading at 1 in H.
  apply bind_Ok in H as (? & ? & H1 & H). apply fail_if_Ok in H1 as (Hv & _ & ->). unfold reading at 1 in H.
  apply bind_Ok in H as (? & ? & H1 & H). apply fail_if_Ok in H1 as (Hg & _ & ->). apply ret_Ok in H as [-> ->].
  split; [done|]. split; try done; [|by destruct (get_proposal_vetoer id s)].
  intros Hlt. apply andb_false_iff in Hw as [Hw%Z.ltb_ge|Hw%Z.ltb_ge]; lia.
Qed.

(** [enact_proposal]. *)
Record enacted_at (id : Z) s s' : Prop := {
  en_ready : exists p, ready id p s /\ get_proposal id s' = Some (enacted p) /\
    (carries id (gp_votes_for p) (gp_votes_against p) s -> in_force (gp_parameter p) (gp_new_value p) s') /\
    (~ carries id (gp_votes_for p) (gp_votes_against p) s -> forall q, rd (parameter_key q) s' = rd (parameter_key q) s) /\
    (forall q, q <> gp_parameter p -> rd (parameter_key q) s' = rd (parameter_key q) s);
  en_settled : is_settled id s' = true;
  en_open : get_open_proposal_count s' = (if 0 <? get_open_proposal_count s then get_open_proposal_count s - 1 else get_open_proposal_count s);
  en_rest : forall k, ballot k = true -> k <> KVot (GovProposal id) -> k <> KVot OpenProposals -> k <> KVot (BondSettled id) ->
    rd k s' = rd k s
}.

Lemma parameter_key_inj p q : p <> q -> parameter_key p <> parameter_key q.
Proof. by destruct p, q. Qed.
Lemma in_force_ext p v s s' : (forall q, rd (parameter_key q) s' = rd (parameter_key q) s) -> in_force p v s -> in_force p v s'.
Proof.
  intros Hk. unfold in_force, get_reward_rate_bps, get_pool_cap.
  destruct p; [specialize (Hk PRewardRate)|specialize (Hk PUnstakeFee)|specialize (Hk PPoolCap)|specialize (Hk PMinStake)];
    cbn in Hk; by rewrite Hk.
Qed.

Lemma enact_Ok `{!StandardTokens W} id s x s' :
  enact_proposal env id s = Ok x s' ->
  enacted_at id s s' /\
  (forall t, rd Token s = Some t -> balance_of t (self env) s - owed s id <= balance_of t (self env) s').
Proof.
  unfold enact_proposal. intros H.
  apply bind_Ok in H as (p & ? & [-> Hr]%enactable_Ok & H). apply bind_Ok in H as (b & ? & [-> Hb]%passes_Ok & H).
  apply bind_Ok in H as (? & s1 & Happ & H).
  assert ((forall k, k <> parameter_key (gp_parameter p) \/ b = false -> rd k s1 = rd k s) /\ st_ext s1 = st_ext s /\
    (b = true -> in_force (gp_parameter p) (gp_new_value p) s1)) as (Hk1 & He1 & Hf1).
  { destruct b; [apply apply_proposal_Ok in Happ as (Hf & Hk & He)|apply ret_Ok in Happ as [_ ->]; done].
    split_and!; try done. intros k [Hk'|]; [by apply Hk|done]. }
  apply bind_Ok in H as (tot & ? & H1 & H). apply ok_or_Ok in H1 as [_ ->].
  unfold set_proposal in H. apply bind_Ok in H as (? & ? & [_ ->]%put_Ok & H).
  apply bind_Ok in H as (? & s2 & (Ho & Hk2 & He2)%close_slot_Ok & H).
  apply bind_Ok in H as (? & ? & H1 & H). unfold proposal_enacted in H1. apply publish_Ok in H1 as [_ ->].
  apply (settle_bond_Ok env) in H as (Hset & Hk3 & Hbal).
  assert (Hks : forall k, k <> KVot (BondSettled id) -> k <> KVot OpenProposals -> k <> KVot (GovProposal id) -> rd k s' = rd k s1).
  { intros k K1 K2 K3. rewrite Hk3, rd_emit, Hk2 by done. by rdsimp. }
  assert (Hpk : forall q, rd (parameter_key q) s' = rd (parameter_key q) s1) by (intros q; apply Hks; by destruct q).
  split; [split; try done|].
  - exists p. split; [done|]. split; [|split; [|split]].
    + unfold get_proposal. rewrite Hk3, rd_emit, Hk2 by done. by rdsimp.
    + intros Hc%Hb. by apply (in_force_ext _ _ s1), Hf1.
    + intros Hc q. rewrite Hpk. apply Hk1. right. destruct b; [|done]. by destruct Hc; apply Hb.
    + intros q Hq. rewrite Hpk. apply Hk1. left. by apply parameter_key_inj.
  - assert (get_open_proposal_count s' = get_open_proposal_count s2) as ->
      by (unfold get_open_proposal_count; by rewrite Hk3, rd_emit by done).
    rewrite Ho. unfold get_open_proposal_count. rdsimp. rewrite !Hk1 by (left; by destruct (gp_parameter p)). done.
  - intros k Hk K1 K2 K3. rewrite Hks by done. apply Hk1. left. by apply parameter_not_ballot.
  - intros t Ht.
    assert (Hrd : forall k, ballot k = true -> k <> KVot (GovProposal id) -> k <> KVot OpenProposals ->
      forall e, rd k (emit e s2) = rd k s).
    { intros k Hk K1 K2 e. rewrite rd_emit, Hk2 by done. rdsimp. apply Hk1. left. by apply parameter_not_ballot. }
    assert (Hb2 : forall e, balance_of t (self env) (emit e s2) = balance_of t (self env) s)
      by (intros e; unfold balance_of; cbn [emit st_ext]; rewrite He2; cbn [upd st_ext]; by rewrite He1).
    match type of Hbal with context [emit ?e s2] => set (ev := e) in * end.
    assert (Hcan : is_cancelled id (emit ev s2) = false) by (unfold is_cancelled; rewrite Hrd by done; apply Hr).
    specialize (Hbal t). rewrite Hrd in Hbal by done. specialize (Hbal Ht Hcan). rewrite Hb2 in Hbal.
    enough (owed (emit ev s2) id = owed s id) as <- by done.
    unfold owed, get_meta, is_settled, is_cancelled. by rewrite !Hrd by done.
Qed.

(** The two vetoes, and changing a vote. *)
Record vetoed_at (id : Z) s s' : Prop := {
  ve_after : get_proposal_vetoer id s' <> None \/ is_vetoed id s' = true;
  ve_before : exists p, get_proposal id s = Some p /\ gp_enacted p = false;
  ve_rest : forall k, ballot k = true -> k <> KVot (VetoerOf id) /\ k <> KVot (GuardianVeto id) \/ rd k s <> None -> rd k s' = rd k s;
  ve_ext : st_ext s' = st_ext s
}.

Lemma veto_Ok u id s x s' : veto_proposal env u id s = Ok x s' -> vetoed_at id s s'.
Proof.
  unfold veto_proposal. intros H.
  apply bind_Ok in H as (? & ? & H1 & H). apply require_auth_Ok in H1 as (_ & _ & ->). unfold reading at 1 in H.
  apply bind_Ok in H as (? & ? & H1 & H). apply fail_if_Ok in H1 as (_ & _ & ->). unfold reading at 1 in H.
  apply bind_Ok in H as (p & ? & H1 & H). apply ok_or_Ok in H1 as [Hp ->].
  apply bind_Ok in H as (? & ? & H1 & H). apply fail_if_Ok in H1 as (He & _ & ->). unfold reading at 1 in H.
  apply bind_Ok in H as (? & ? & H1 & H). apply fail_if_Ok in H1 as (Hv & _ & ->). do 2 unfold reading at 1 in H.
  apply bind_Ok in H as (? & ? & H1 & H). apply fail_if_Ok in H1 as (_ & _ & ->).
  unfold set_proposal_vetoer in H. apply bind_Ok in H as (? & ? & [_ ->]%put_Ok & H). apply publish_Ok in H as [_ ->].
  split; try done.
  - left. unfold get_proposal_vetoer. by rdsimp.
  - by exists p.
  - intros k _ Hk. destruct (decide (k = KVot (VetoerOf id))) as [->|Hne]; [|by rdsimp].
    destruct Hk as [[Hk _]|Hk]; [done|]. unfold get_proposal_vetoer in Hv. by destruct (rd (VetoerOf id) s).
Qed.

Lemma guardian_veto_Ok g id h s x s' : guardian_veto_proposal env g id h s = Ok x s' -> vetoed_at id s s'.
Proof.
  unfold guardian_veto_proposal. intros H.
  apply bind_Ok in H as (? & ? & H1 & H). apply require_auth_Ok in H1 as (_ & _ & ->). unfold reading at 1 in H.
  apply bind_Ok in H as (? & ? & H1 & H). apply fail_if_Ok in H1 as (_ & _ & ->). do 2 unfold reading at 1 in H.
  apply bind_Ok in H as (? & ? & H1 & H). apply fail_if_Ok in H1 as (_ & _ & ->). unfold reading at 1 in H.
  apply bind_Ok in H as (p & ? & H1 & H). apply ok_or_Ok in H1 as [Hp ->].
  apply bind_Ok in H as (? & ? & H1 & H). apply fail_if_Ok in H1 as (He & _ & ->). unfold reading at 1 in H.
  apply bind_Ok in H as (? & ? & H1 & H). apply fail_if_Ok in H1 as (Hv & _ & ->).
  apply bind_Ok in H as (? & ? & H1 & H). apply fail_if_Ok in H1 as (_ & _ & ->). unfold reading at 1 in H.
  apply bind_Ok in H as (? & ? & H1 & H). apply fail_if_Ok in H1 as (_ & _ & ->).
  apply bind_Ok in H as (? & ? & [_ ->]%put_Ok & H). apply bind_Ok in H as (n & ? & H1 & H). apply plain_Ok in H1 as [_ ->].
  apply bind_Ok in H as (? & ? & [_ ->]%put_Ok & H). apply publish_Ok in H as [_ ->].
  split; try done.
  - right. unfold is_vetoed, get_veto_record. by rdsimp.
  - by exists p.
  - intros k Hb Hk. destruct (decide (k = KVot (GuardianVeto id))) as [->|Hne].
    + destruct Hk as [[_ Hk]|Hk]; [done|]. unfold is_vetoed, get_veto_record in Hv. by destruct (rd (GuardianVeto id) s).
    + assert (k <> KVot VetoCount) by (by intros ->). by rdsimp.
Qed.

(** Without a record, a vote cannot be changed; and [vote] makes none. *)
Lemma change_vote_never u id b s x s' : get_record id u s = None -> change_vote env u id b s <> Ok x s'.
Proof.
  unfold change_vote. intros Hn H.
  apply bind_Ok in H as (? & ? & H1 & H). apply require_auth_Ok in H1 as (_ & _ & ->). unfold reading at 1 in H.
  apply bind_Ok in H as (? & ? & H1 & H). apply fail_if_Ok in H1 as (_ & _ & ->). unfold reading at 1 in H.
  apply bind_Ok in H as (p & ? & H1 & H). apply ok_or_Ok in H1 as [Hp ->].
  apply bind_Ok in H as (? & ? & H1 & H). apply fail_if_Ok in H1 as (_ & _ & ->). unfold reading at 1 in H.
  rewrite Hn in H. apply bind_Ok in H as (? & ? & H1 & _). by apply ok_or_Ok in H1 as [? _].
Qed.

End Enactment.
