(* ===== verification/VotingSystem.v ===== *)
(** * The system of all voting operations

    Every operation of [Voting.v] is a sequence of moves of a small abstract
    ballot machine - open, cast, switch, cancel, enact, veto, or nothing that concerns
    the ballot - and the invariants are shown for the moves: tallies are sums of
    receipts, the counter counts the open proposals, bonds are in escrow. *)

From S2P Require Import Prelude Errors Storage Host Events TokenFacts Concrete Accessors Admin Shares RewardMath RewardRate.
From S2P Require Import Rewards Balance Pause Limits Loans CapacityAuction CategoryGov Voting VotingProofs.

(** ** Operations and moves *)

Inductive voting_op :=
| OpCreate (u : Address) (p : ProposableParam) (v d : Z)
| OpVote (u : Address) (id : Z) (b : bool)
| OpBatch (u : Address) (votes : list (Z * bool))
| OpChange (u : Address) (id : Z) (b : bool)
| OpSwitch (u : Address) (id : Z) (b : bool)
| OpEnact (id : Z)
| OpCancel (u : Address) (id : Z)
| OpVeto (u : Address) (id : Z)
| OpGuardianVeto (g : Address) (id : Z) (h : list Byte.byte)
| OpDelegate (u d : Address)
| OpRevoke (u : Address)
| OpMode (a : Address) (m : VoteWeightMode)
| OpParams (a : Address) (q t : Z)
| OpDelay (a : Address) (l : Z)
| OpVetoLimit (a : Address) (n : Z)
| OpResetVetoes (a : Address)
| OpVetoThreshold (err : VaultExtError.t) (a : Address) (bps : Z)
| OpBond (a : Address) (x : Z)
| OpCutoff (a : Address) (l : Z)
| OpRequirements (a : Address) (x y : Z)
| OpQuorum (a : Address) (bps : Z)
| OpMaxChanges (a : Address) (n : Z).

Definition perform {W : World} {N : VotingNames} (env : Env) (o : voting_op) : State -> State :=
  match o with
  | OpCreate u p v d => invoke (create_proposal env u p v d)
  | OpVote u id b => invoke (vote env u id b)
  | OpBatch u votes => invoke (batch_vote env u votes)
  | OpChange u id b => invoke (change_vote env u id b)
  | OpSwitch u id b => invoke (change_vote_receipt env u id b)
  | OpEnact id => invoke (enact_proposal env id)
  | OpCancel u id => invoke (cancel_proposal env u id)
  | OpVeto u id => invoke (veto_proposal env u id)
  | OpGuardianVeto g id h => invoke (guardian_veto_proposal env g id h)
  | OpDelegate u d => invoke (delegate_vote_weight env u d)
  | OpRevoke u => invoke (revoke_vote_delegation env u)
  | OpMode a m => invoke (set_vote_weight_mode env a m)
  | OpParams a q t => invoke (set_governance_params env a q t)
  | OpDelay a l => invoke (set_execution_delay env a l)
  | OpVetoLimit a n => invoke (set_guardian_veto_limit env a n)
  | OpResetVetoes a => invoke (reset_guardian_veto_count env a)
  | OpVetoThreshold err a bps => invoke (set_veto_threshold_bps env err a bps)
  | OpBond a x => invoke (set_proposal_bond env a x)
  | OpCutoff a l => invoke (set_cancellation_cutoff env a l)
  | OpRequirements a x y => invoke (set_proposal_requirements env a x y)
  | OpQuorum a bps => invoke (set_proposal_quorum_bps env a bps)
  | OpMaxChanges a n => invoke (set_max_vote_changes env a n)
  end.

(** A switch that moves a receipt's weight does not run into the saturation of
    the side it leaves; nothing is asked of the other operations. *)
Definition unsaturated {W : World} (o : voting_op) (s : State) : Prop :=
  match o with OpSwitch u id _ => side_fits id u s | _ => True end.

Section Moves.
Context {W : World} {HT : StandardTokens W} {N : VotingNames} (me : Address) (L : Z).
Implicit Types s : State.

(** What leaves the ballot as it is and does not eat into the tokens the vault
    holds beyond its deposits. *)
Definition idle s s' : Prop :=
  (forall k, ballot k = true -> k <> KInst TotalDeposited -> rd k s' = rd k s) /\
  (forall t, rd Token s = Some t -> balance_of t me s - get_total_deposited s <= balance_of t me s' - get_total_deposited s').

(** A move of the ballot machine, at ledgers from [L] on. *)
Inductive ballot_move s : State -> Prop :=
| mv_idle s' : idle s s' -> ballot_move s s'
| mv_open env u id s' : self env = me -> opened_at env u id s s' -> ballot_move s s'
| mv_cast l id u b w s' : L <= l -> cast_at l id u b w s s' -> ballot_move s s'
| mv_switch l id u b s' : L <= l -> side_fits id u s -> switched_at l id u b s s' -> ballot_move s s'
| mv_cancel u id s' : cancelled_at u id s s' ->
    (forall t, rd Token s = Some t -> exists m, get_meta id s = Some m /\
       balance_of t me s - Z.max 0 (mt_bond_paid m) <= balance_of t me s') -> ballot_move s s'
| mv_enact env id s' : self env = me -> enacted_at env id s s' ->
    (forall t, rd Token s = Some t -> balance_of t me s - owed s id <= balance_of t me s') -> ballot_move s s'
| mv_veto id s' : vetoed_at id s s' -> ballot_move s s'.

(** Calls that do not concern the ballot. *)
Definition apart {E A} (m : M E A) : Prop := touches (fun k => ballot k = false) m /\ keeps_ext m.

Lemma still_idle s s' : (forall k, ballot k = true -> rd k s' = rd k s) -> st_ext s' = st_ext s -> idle s s'.
Proof.
  intros Hk He. split; [auto|]. intros t _. unfold balance_of, get_total_deposited. rewrite He, Hk by done. lia.
Qed.
Lemma apart_idle E A (m : M E A) s : apart m -> idle s (invoke m s).
Proof.
  intros [Ht Hk]. unfold invoke. specialize (Ht s). specialize (Hk s). destruct (m s) as [a s'|e s'|t]; apply still_idle; try done.
  intros k Hb. apply Ht. congruence.
Qed.

Lemma apart_bind E A B (m : M E A) (f : A -> M E B) : apart m -> (forall a, apart (f a)) -> apart (bind m f).
Proof. intros [H1 H2] Hf. split; [apply touches_bind|apply keeps_bind]; try done; intros a; apply Hf. Qed.
Lemma apart_reading E A B (r : State -> A) (k : A -> M E B) : (forall a, apart (k a)) -> apart (reading r k).
Proof. intros Hf. split; [apply touches_reading|apply keeps_reading]; intros a; apply Hf. Qed.
Lemma apart_put E k v : ballot k = false -> apart (put (E:=E) k v).
Proof. intros Hk. split; [by apply touches_put|apply keeps_put]. Qed.
Lemma apart_del E k : ballot k = false -> apart (del (E:=E) k).
Proof. intros Hk. split; [by apply touches_del|apply keeps_del]. Qed.
Lemma apart_fail_if E b (e : E) : apart (fail_if b e).
Proof. split; [apply touches_fail_if|apply keeps_fail_if]. Qed.
Lemma apart_ok_or E A (o : option A) (e : E) : apart (ok_or o e).
Proof. split; [apply touches_ok_or|apply keeps_ok_or]. Qed.
Lemma apart_plain E o : apart (plain (E:=E) o).
Proof. split; [apply touches_plain|apply keeps_plain]. Qed.
Lemma apart_ret E A (a : A) : apart (ret (E:=E) a).
Proof. split; [apply touches_ret|apply keeps_ret]. Qed.
Lemma apart_throw E A (e : E) : apart (throw (A:=A) e).
Proof. split; [apply touches_throw|apply keeps_throw]. Qed.
Lemma apart_auth E env u : apart (require_auth (E:=E) env u).
Proof. split; [apply touches_require_auth|apply keeps_require_auth]. Qed.
Lemma apart_publish E ts ds : apart (publish (E:=E) ts ds).
Proof. split; [apply touches_publish|apply keeps_publish]. Qed.
Lemma apart_emit E e : apart (E:=E) (fun s => Ok tt (emit e s)).
Proof. by split; intros s. Qed.
Lemma apart_catch E E' A (m : M E A) : apart m -> apart (catch (E':=E') m).
Proof. intros [H1 H2]. split; [by apply touches_catch|]. intros s. specialize (H2 s). unfold catch. by destruct (m s). Qed.
Lemma apart_try E1 E2 A `{From E1 E2} (m : M E1 A) : apart m -> apart (try_ (E2:=E2) m).
Proof. intros [H1 H2]. split; [by apply touches_try|by apply keeps_try]. Qed.

(** [aparts] takes a call apart. *)
Ltac aparts := repeat lazymatch goal with
  | |- apart (bind _ _) => apply apart_bind; [|intros ?]
  | |- apart (reading _ _) => apply apart_reading; intros ?
  | |- apart (put _ _) => apply apart_put; reflexivity
  | |- apart (del _) => apply apart_del; reflexivity
  | |- apart (fail_if _ _) => apply apart_fail_if
  | |- apart (ok_or _ _) => apply apart_ok_or
  | |- apart (plain _) => apply apart_plain
  | |- apart (ret _) => apply apart_ret
  | |- apart (throw _) => apply apart_throw
  | |- apart (require_auth _ _) => apply apart_auth
  | |- apart (publish _ _) => apply apart_publish
  | |- apart (catch _) => apply apart_catch
  | |- apart (try_ _) => apply apart_try
  | |- apart (fun s => Ok tt (emit _ s)) => apply apart_emit
  | |- apart (match ?x with _ => _ end) => destruct x
  end.

Lemma apart_require_admin env a : apart (require_admin_as env a).
Proof. unfold require_admin_as, get_admin. aparts. Qed.
Lemma apart_stored_admin env E (a b : E) u : apart (require_stored_admin env a b u).
Proof. unfold require_stored_admin, get_admin. aparts. Qed.

(** [configures] does so for the setters, the delegations and their helpers. *)
Ltac configures := repeat first
  [ apply apart_stored_admin | apply apart_require_admin | progress aparts
  | progress unfold set_vote_weight_mode_value, set_veto_threshold_bps_value, set_bond_amount, set_delegated_vote_weight,
      remove_delegated_weight_snapshot, set_vote_delegate, set_delegated_weight_snapshot, remove_vote_delegate,
      Ev.vote_delegated ].

Lemma move_refl s : rtc ballot_move s s.
Proof. apply rtc_refl. Qed.

Lemma apart_moves E A (m : M E A) s : apart m -> rtc ballot_move s (invoke m s).
Proof. intros Hm. apply rtc_once, mv_idle, apart_idle, Hm. Qed.

(** A batch is one cast after the other. *)
Lemma batch_loop_moves env u w votes s r s' :
  L <= sequence env -> batch_loop env u w votes s = Ok r s' -> rtc ballot_move s s'.
Proof.
  intros HL. revert s r. induction votes as [|[id b] votes IH]; intros s r; cbn [batch_loop].
  { intros [_ ->]%ret_Ok. apply move_refl. }
  intros (a & s1 & H1 & H)%bind_Ok. apply bind_Ok in H as (l & s2 & H2 & H). apply ret_Ok in H as [_ ->].
  apply batch_entry_Ok in H1 as [(_ & _ & Hc)|[_ ->]]; [|by eapply IH].
  eapply rtc_l; [by eapply mv_cast|]. by eapply IH.
Qed.

Lemma batch_moves env u votes s : L <= sequence env -> rtc ballot_move s (invoke (batch_vote env u votes) s).
Proof.
  intros HL. unfold invoke. destruct (batch_vote env u votes s) as [a s'|e s'|t] eqn:H; [|apply move_refl..].
  unfold batch_vote in H. apply bind_Ok in H as (? & ? & H1 & H). apply require_auth_Ok in H1 as (_ & _ & ->).
  apply bind_Ok in H as (? & ? & H1 & H). apply fail_if_Ok in H1 as (_ & _ & ->). unfold reading at 1 in H.
  apply bind_Ok in H as (? & ? & H1 & H). apply fail_if_Ok in H1 as (_ & _ & ->).
  apply bind_Ok in H as (w & ? & H1 & H).
  assert (forall s1, vote_weight (E:=BatchVoteError) u s = Ok w s1 -> s1 = s) as Hw.
  { intros s1. unfold vote_weight, reading. destruct (get_shares u s <=? 0); [by intros [_ ->]%ret_Ok|apply weighted_Ok]. }
  apply Hw in H1 as ->. apply bind_Ok in H as (l & s1 & Hl & H). apply bind_Ok in H as (? & s2 & H2 & H). apply ret_Ok in H as [_ ->].
  eapply rtc_r; [by eapply batch_loop_moves|]. apply mv_idle.
  destruct (existsb _ _); [|apply ret_Ok in H2 as [_ ->]; by apply still_idle].
  unfold set_last_vote_ledger in H2. apply put_Ok in H2 as [_ ->]. apply still_idle; [|done]. intros k Hk.
  assert (k <> KVot (LastVoteLedger u)) by (by intros ->). by rdsimp.
Qed.

(** Every operation is a sequence of moves. *)
Lemma perform_moves env o s :
  self env = me -> L <= sequence env -> unsaturated o s -> (forall id u, get_record id u s = None) ->
  rtc ballot_move s (perform env o s).
Proof.
  intros Hme HL Hfit Hrec. destruct o; cbn [perform];
    try (apply apart_moves;
      cbv beta delta [delegate_vote_weight withdraw_delegated_weight delegate_stake revoke_vote_delegation set_vote_weight_mode
        set_governance_params set_execution_delay set_guardian_veto_limit reset_guardian_veto_count set_veto_threshold_bps
        set_proposal_bond set_cancellation_cutoff set_proposal_requirements set_proposal_quorum_bps set_max_vote_changes];
      configures; done).
  - unfold invoke. destruct (create_proposal env u p v d s) as [id s'|e s'|t] eqn:H; [|apply move_refl..].
    eapply rtc_once, mv_open, create_proposal_Ok; [done|exact H].
  - unfold invoke. destruct (vote env u id b s) as [a s'|e s'|t] eqn:H; [|apply move_refl..].
    apply vote_Ok in H as (p & raw & own & w & _ & _ & _ & _ & _ & _ & _ & H). by eapply rtc_once, mv_cast.
  - by apply batch_moves.
  - unfold invoke. destruct (change_vote env u id b s) as [a s'|e s'|t] eqn:H; [|apply move_refl..].
    by apply change_vote_never in H.
  - unfold invoke. destruct (change_vote_receipt env u id b s) as [a s'|e s'|t] eqn:H; [|apply move_refl..].
    apply change_vote_receipt_Ok in H as [[-> _]|H]; [apply move_refl|]. by eapply rtc_once, mv_switch.
  - unfold invoke. destruct (enact_proposal env id s) as [a s'|e s'|t] eqn:H; [|apply move_refl..].
    apply (enact_Ok env) in H as [H Hb]. rewrite Hme in Hb. by eapply rtc_once, mv_enact.
  - unfold invoke. destruct (cancel_proposal env u id s) as [a s'|e s'|t] eqn:H; [|apply move_refl..].
    apply (cancel_Ok env) in H as [H Hb]. rewrite Hme in Hb. by eapply rtc_once, mv_cancel.
  - unfold invoke. destruct (veto_proposal env u id s) as [a s'|e s'|t] eqn:H; [|apply move_refl..].
    by eapply rtc_once, mv_veto, veto_Ok.
  - unfold invoke. destruct (guardian_veto_proposal env g id h s) as [a s'|e s'|t] eqn:H; [|apply move_refl..].
    by eapply rtc_once, mv_veto, guardian_veto_Ok.
Qed.

End Moves.

(** ** The invariant *)

Section Invariant.
Context {W : World}.
Implicit Types s : State.

(** The weight of [u]'s receipt on side [b] of a proposal. *)
Definition cast (id : Z) (b : bool) s (u : Address) : Z :=
  match get_vote_receipt id u s with
  | Some r => if eqb (vr_support r) b then vr_weight r else 0
  | None => 0
  end.

(** The tallies of a proposal are the receipts of its voters [vs]. *)
Record tallied (id : Z) (p : GovernanceProposal) (vs : list Address) s : Prop := {
  ta_once : NoDup vs;
  ta_voted : forall u, has_voted id u s = true <-> u ∈ vs;
  ta_for : gp_votes_for p = sum_of (cast id true s) vs;
  ta_against : gp_votes_against p = sum_of (cast id false s) vs
}.

(** A proposal that is neither enacted nor cancelled. *)
Definition is_open s (id : Z) : Z :=
  match get_proposal id s with
  | Some p => if gp_enacted p || is_cancelled id s then 0 else 1
  | None => 0
  end.
Definition ids s : list Z := seqZ 0 (get_next_proposal_id s).

Record ballot_ok s : Prop := {
  bo_next : 0 <= get_next_proposal_id s;
  bo_ids : forall id, get_proposal id s <> None -> 0 <= id < get_next_proposal_id s;
  bo_fresh : forall id, get_next_proposal_id s <= id -> get_meta id s = None /\ is_cancelled id s = false /\ forall u, has_voted id u s = false;
  bo_settled : forall id, is_settled id s = true -> exists p, get_proposal id s = Some p /\ gp_enacted p = true;
  bo_tally : forall id p, get_proposal id s = Some p -> exists vs, tallied id p vs s;
  bo_receipts : forall id u, get_vote_receipt id u s <> None -> has_voted id u s = true;
  bo_open : get_open_proposal_count s = sum_of (is_open s) (ids s);
  bo_room : get_open_proposal_count s <= MAX_OPEN_PROPOSALS;
  bo_records : forall id u, get_record id u s = None
}.

(** What the vault holds beyond its deposits and the bonds it owes. *)
Definition bonds s : Z := sum_of (owed s) (ids s).
Definition ballot_slack (token me : Address) s : Z := balance_of token me s - get_total_deposited s - bonds s.

Lemma ids_in s id : id ∈ ids s <-> 0 <= id < get_next_proposal_id s.
Proof. unfold ids. rewrite elem_of_seqZ. lia. Qed.
Lemma ids_NoDup s : NoDup (ids s).
Proof. apply NoDup_seqZ. Qed.
Lemma ids_next s s' : 0 <= get_next_proposal_id s -> get_next_proposal_id s' = get_next_proposal_id s + 1 ->
  ids s' = ids s ++ [get_next_proposal_id s].
Proof. intros H0 H. unfold ids. rewrite H, seqZ_app by lia. by rewrite Z.add_0_l. Qed.

Lemma is_open_01 s id : 0 <= is_open s id <= 1.
Proof. unfold is_open. destruct (get_proposal id s); [destruct (_ || _)|]; lia. Qed.
Lemma owed_nonneg s id : 0 <= owed s id.
Proof. unfold owed. destruct (get_meta id s); [destruct (_ || _)|]; lia. Qed.

Lemma tallied_same id p p' vs s s' :
  (forall u, has_voted id u s' = has_voted id u s) -> (forall u, get_vote_receipt id u s' = get_vote_receipt id u s) ->
  gp_votes_for p' = gp_votes_for p -> gp_votes_against p' = gp_votes_against p ->
  tallied id p vs s -> tallied id p' vs s'.
Proof.
  intros Hv Hr Hf Ha [T1 T2 T3 T4]. split; [done|intros u; by rewrite Hv| |]; rewrite ?Hf, ?Ha, ?T3, ?T4;
    apply sum_of_ext; intros u _; unfold cast; by rewrite Hr.
Qed.

(** A cast vote joins the tally. *)
Lemma tallied_cast l id u b w p p' vs s s' :
  cast_at l id u b w s s' -> with_vote p b w = Some p' -> (get_vote_receipt id u s <> None -> has_voted id u s = true) ->
  tallied id p vs s -> tallied id p' (vs ++ [u]) s'.
Proof.
  intros C Hw Hr [T1 T2 T3 T4].
  assert (u ∉ vs) as Hu by (intros Hin%T2; by rewrite (cs_fresh _ _ _ _ _ _ _ C) in Hin).
  assert (Hv' : forall v, v <> u -> has_voted id v s' = has_voted id v s /\ get_vote_receipt id v s' = get_vote_receipt id v s).
  { intros v Hv. unfold has_voted, get_vote_receipt. rewrite !(cs_rest _ _ _ _ _ _ _ C) by congruence. done. }
  assert (Hc : forall x, sum_of (cast id x s') (vs ++ [u]) = sum_of (cast id x s) vs + if eqb b x then w else 0).
  { intros x. rewrite sum_of_app. f_equal.
    - apply sum_of_ext. intros v Hv. unfold cast. by rewrite (proj2 (Hv' v ltac:(by intros ->))).
    - simpl. unfold cast. rewrite (cs_receipt _ _ _ _ _ _ _ C). simpl. lia. }
  apply with_vote_Some in Hw as ->. split; cbn [gp_votes_for gp_votes_against].
  - apply NoDup_app. split; [done|]. split; [set_solver|apply NoDup_singleton].
  - intros v. rewrite elem_of_app, list_elem_of_singleton, <- T2. destruct (decide (v = u)) as [->|Hne].
    + unfold has_voted at 1. rewrite (cs_voted _ _ _ _ _ _ _ C). simpl. tauto.
    + rewrite (proj1 (Hv' v Hne)). tauto.
  - rewrite Hc, T3. by destruct b.
  - rewrite Hc, T4. by destruct b.
Qed.

(** A switched vote moves from one sum to the other. *)
Lemma tallied_switch l id u b p vs s s' :
  switched_at l id u b s s' -> side_fits id u s -> get_proposal id s = Some p ->
  (get_vote_receipt id u s <> None -> has_voted id u s = true) ->
  tallied id p vs s -> exists p', get_proposal id s' = Some p' /\ gp_enacted p' = gp_enacted p /\ tallied id p' vs s'.
Proof.
  intros [(q & p' & r & Hp & _ & _ & Hr & Hb & Hw & Hp' & Hr') Hk _] Hf Hq Hvo [T1 T2 T3 T4].
  rewrite Hp in Hq. injection Hq as ->. pose proof (Hf p r Hp Hr) as Hfit. rewrite Hb in Hfit.
  apply switched_vote_Some in Hw as ->; [|done].
  assert (Hu : u ∈ vs) by (apply T2, Hvo; congruence).
  assert (Hv : forall v, has_voted id v s' = has_voted id v s) by (intros; unfold has_voted; by rewrite Hk).
  assert (Hc : forall x v, v <> u -> cast id x s v = cast id x s' v).
  { intros x v Hne. unfold cast, get_vote_receipt. rewrite Hk; congruence. }
  assert (Hs : forall x, sum_of (cast id x s') vs = sum_of (cast id x s) vs + if eqb b x then vr_weight r else - vr_weight r).
  { intros x. rewrite (sum_of_change (cast id x s) (cast id x s') vs u T1 Hu (Hc x)).
    unfold cast. rewrite Hr, Hr', Hb. cbn [vr_support vr_weight]. destruct b, x; cbn [negb eqb]; lia. }
  eexists. split; [exact Hp'|]. split; [done|]. split; cbn [gp_votes_for gp_votes_against].
  - done.
  - intros v. by rewrite Hv.
  - rewrite Hs, T3. by destruct b.
  - rewrite Hs, T4. by destruct b.
Qed.

End Invariant.

Section Preservation.
Context {W : World} (me : Address) (L : Z).
Implicit Types s : State.

Definition kept s s' : Prop :=
  ballot_ok s' /\ rd Token s' = rd Token s /\ forall t, rd Token s = Some t -> ballot_slack t me s <= ballot_slack t me s'.

(** The marks of the two vetoes. *)
Definition veto_mark (k : key) : bool := match k with KVot (VetoerOf _) | KVot (GuardianVeto _) => true | _ => false end.

Lemma quiet_keeps s s' :
  ballot_ok s -> (forall k, ballot k = true -> veto_mark k = false -> k <> KInst TotalDeposited -> rd k s' = rd k s) ->
  (forall t, rd Token s = Some t -> balance_of t me s - get_total_deposited s <= balance_of t me s' - get_total_deposited s') ->
  kept s s'.
Proof.
  intros [B1 B2 B3 B4 B5 B6 B7 B8 B9] Hk Hb.
  assert (forall id, get_proposal id s' = get_proposal id s) as Hp by (intros; unfold get_proposal; by rewrite Hk).
  assert (forall id, is_cancelled id s' = is_cancelled id s) as Hc by (intros; unfold is_cancelled; by rewrite Hk).
  assert (forall id, is_settled id s' = is_settled id s) as Hs by (intros; unfold is_settled; by rewrite Hk).
  assert (forall id, get_meta id s' = get_meta id s) as Hm by (intros; unfold get_meta; by rewrite Hk).
  assert (forall id u, has_voted id u s' = has_voted id u s) as Hv by (intros; unfold has_voted; by rewrite Hk).
  assert (forall id u, get_vote_receipt id u s' = get_vote_receipt id u s) as Hr by (intros; unfold get_vote_receipt; by rewrite Hk).
  assert (get_next_proposal_id s' = get_next_proposal_id s) as Hn by (unfold get_next_proposal_id; by rewrite Hk).
  assert (get_open_proposal_count s' = get_open_proposal_count s) as Ho by (unfold get_open_proposal_count; by rewrite Hk).
  split; [split|split].
  - by rewrite Hn.
  - intros id. rewrite Hp, Hn. apply B2.
  - intros id. rewrite Hn, Hm, Hc. setoid_rewrite Hv. apply B3.
  - intros id. rewrite Hs, Hp. apply B4.
  - intros id p. rewrite Hp. intros [vs Hvs]%B5. exists vs. by apply (tallied_same id p p vs s s').
  - intros id u. rewrite Hr, Hv. apply B6.
  - rewrite Ho, B7. unfold ids. rewrite Hn. apply sum_of_ext. intros id _. unfold is_open. by rewrite Hp, Hc.
  - by rewrite Ho.
  - intros id u. unfold get_record. rewrite Hk by done. apply B9.
  - by apply Hk.
  - intros t Ht. unfold ballot_slack. specialize (Hb t Ht).
    enough (bonds s' = bonds s) by lia. unfold bonds, ids. rewrite Hn. apply sum_of_ext. intros id _.
    unfold owed. by rewrite Hm, Hs, Hc.
Qed.

Lemma open_keeps env u id s s' : self env = me -> ballot_ok s -> opened_at env u id s s' -> kept s s'.
Proof.
  intros Hme [B1 B2 B3 B4 B5 B6 B7 B8 B9] [-> Hroom (p & Hp & He & Hf & Ha & _) Hn Ho (bond & Hm & Hb0 & Hbal) Hk].
  set (id := get_next_proposal_id s) in *. destruct (B3 id ltac:(lia)) as (Hm0 & Hc0 & Hv0).
  assert (Hp0 : get_proposal id s = None) by (destruct (get_proposal id s) eqn:E; [|done]; pose proof (B2 id ltac:(congruence)); lia).
  assert (Hp' : forall i, i <> id -> get_proposal i s' = get_proposal i s) by (intros; unfold get_proposal; by rewrite Hk by (done || congruence)).
  assert (Hm' : forall i, i <> id -> get_meta i s' = get_meta i s) by (intros; unfold get_meta; by rewrite Hk by (done || congruence)).
  assert (Hc : forall i, is_cancelled i s' = is_cancelled i s) by (intros; unfold is_cancelled; by rewrite Hk).
  assert (Hs : forall i, is_settled i s' = is_settled i s) by (intros; unfold is_settled; by rewrite Hk).
  assert (Hv : forall i u, has_voted i u s' = has_voted i u s) by (intros; unfold has_voted; by rewrite Hk).
  assert (Hr : forall i u, get_vote_receipt i u s' = get_vote_receipt i u s) by (intros; unfold get_vote_receipt; by rewrite Hk).
  assert (Hs0 : is_settled id s = false).
  { destruct (is_settled id s) eqn:E; [|done]. apply B4 in E as (q & Hq & _). congruence. }
  assert (Hids : ids s' = ids s ++ [id]) by (by apply ids_next).
  assert (Hne : forall i, i ∈ ids s -> i <> id) by (intros i Hi%ids_in; lia).
  split; [split|split].
  - lia.
  - intros i. rewrite Hn. destruct (decide (i = id)) as [->|Hi]; [lia|]. rewrite Hp' by done. intros H%B2. lia.
  - intros i. rewrite Hn. intros Hi. rewrite Hm', Hc by lia. setoid_rewrite Hv. apply B3. lia.
  - intros i. rewrite Hs. intros (q & Hq & Hqe)%B4. exists q. split; [|done]. rewrite Hp'; [done|]. intros ->. congruence.
  - intros i q. destruct (decide (i = id)) as [->|Hi].
    + rewrite Hp. intros [= <-]. exists []. split; [constructor| |by rewrite Hf|by rewrite Ha].
      intros v. rewrite Hv, Hv0. split; [done|by intros ?%elem_of_nil].
    + rewrite Hp' by done. intros [vs Hvs]%B5. exists vs. by apply (tallied_same i q q vs s s').
  - intros i v. rewrite Hr, Hv. apply B6.
  - rewrite Ho, B7, Hids, sum_of_app. f_equal.
    + apply sum_of_ext. intros i Hi%Hne. unfold is_open. by rewrite Hp', Hc.
    + simpl. unfold is_open. by rewrite Hp, He, Hc, Hc0.
  - lia.
  - intros i v. unfold get_record. rewrite Hk by done. apply B9.
  - by apply Hk.
  - intros t Ht. specialize (Hbal t Ht). rewrite Hme in Hbal. unfold ballot_slack.
    assert (get_total_deposited s' = get_total_deposited s) as -> by (unfold get_total_deposited; by rewrite Hk).
    enough (bonds s' = bonds s + bond) by lia. unfold bonds. rewrite Hids, sum_of_app. f_equal.
    + apply sum_of_ext. intros i Hi%Hne. unfold owed. by rewrite Hm', Hc, Hs.
    + simpl. unfold owed. rewrite Hm, Hs, Hs0, Hc, Hc0. simpl. lia.
Qed.

Lemma cast_keeps l id u b w s s' : ballot_ok s -> cast_at l id u b w s s' -> kept s s'.
Proof.
  intros [B1 B2 B3 B4 B5 B6 B7 B8 B9] C. pose proof C as [(p & p' & Hp & He & _ & Hw & Hp') Hc0 Hf0 Hv0 Hr0 Hk Hext].
  pose proof (with_vote_Some _ _ _ _ Hw) as Hw'.
  assert (Hid : 0 <= id < get_next_proposal_id s) by (apply B2; congruence).
  assert (Hpo : forall i, i <> id -> get_proposal i s' = get_proposal i s) by (intros; unfold get_proposal; by rewrite Hk by (done || congruence)).
  assert (Hm : forall i, get_meta i s' = get_meta i s) by (intros; unfold get_meta; by rewrite Hk).
  assert (Hc : forall i, is_cancelled i s' = is_cancelled i s) by (intros; unfold is_cancelled; by rewrite Hk).
  assert (Hs : forall i, is_settled i s' = is_settled i s) by (intros; unfold is_settled; by rewrite Hk).
  assert (Hvo : forall i v, i <> id \/ v <> u -> has_voted i v s' = has_voted i v s).
  { intros i v Hne. unfold has_voted. rewrite Hk; [done|..]; congruence || (intros [= -> ->]; tauto). }
  assert (Hro : forall i v, i <> id \/ v <> u -> get_vote_receipt i v s' = get_vote_receipt i v s).
  { intros i v Hne. unfold get_vote_receipt. rewrite Hk; [done|..]; congruence || (intros [= -> ->]; tauto). }
  assert (Hn : get_next_proposal_id s' = get_next_proposal_id s) by (unfold get_next_proposal_id; by rewrite Hk).
  assert (Ho : get_open_proposal_count s' = get_open_proposal_count s) by (unfold get_open_proposal_count; by rewrite Hk).
  split; [split|split].
  - lia.
  - intros i. rewrite Hn. destruct (decide (i = id)) as [->|Hi]; [lia|]. rewrite Hpo by done. apply B2.
  - intros i. rewrite Hn. intros Hi. rewrite Hm, Hc. destruct (B3 i Hi) as (F1 & F2 & F3). split_and!; try done.
    intros v. rewrite Hvo by (left; lia). apply F3.
  - intros i. rewrite Hs. intros (q & Hq & Hqe)%B4. destruct (decide (i = id)) as [->|Hi]; [congruence|]. exists q. by rewrite Hpo.
  - intros i q. destruct (decide (i = id)) as [->|Hi].
    + rewrite Hp'. intros [= <-]. destruct (B5 id p Hp) as [vs Hvs]. exists (vs ++ [u]). by eapply tallied_cast; [..|apply B6|].
    + rewrite Hpo by done. intros [vs Hvs]%B5. exists vs. apply (tallied_same i q q vs s s'); [intros; apply Hvo; by left|intros; apply Hro; by left|done..].
  - intros i v. destruct (decide (i = id /\ v = u)) as [[-> ->]|Hne].
    + intros _. unfold has_voted. by rewrite Hv0.
    + rewrite Hvo, Hro by (apply not_and_l in Hne; tauto). apply B6.
  - rewrite Ho, B7. unfold ids. rewrite Hn. apply sum_of_ext. intros i _. unfold is_open. rewrite Hc.
    destruct (decide (i = id)) as [->|Hi]; [|by rewrite Hpo]. rewrite Hp, Hp', Hw'. done.
  - lia.
  - intros i v. unfold get_record. rewrite Hk by done. apply B9.
  - by apply Hk.
  - intros t Ht. unfold ballot_slack, balance_of. rewrite Hext. fold (balance_of t me s).
    assert (get_total_deposited s' = get_total_deposited s) as -> by (unfold get_total_deposited; by rewrite Hk).
    enough (bonds s' = bonds s) by (unfold balance_of; lia). unfold bonds, ids. rewrite Hn. apply sum_of_ext. intros i _.
    unfold owed. by rewrite Hm, Hs, Hc.
Qed.

Lemma switch_keeps l id u b s s' : ballot_ok s -> side_fits id u s -> switched_at l id u b s s' -> kept s s'.
Proof.
  intros [B1 B2 B3 B4 B5 B6 B7 B8 B9] Hf C.
  pose proof C as [(p & p' & r & Hp & He & _ & Hr & _ & _ & Hp' & Hr') Hk Hext].
  destruct (B5 id p Hp) as [vs Hvs]. destruct (tallied_switch _ _ _ _ _ _ _ _ C Hf Hp (B6 id u) Hvs) as (q & Hq & Hqe & Hqt).
  rewrite Hp' in Hq. injection Hq as <-.
  assert (Hpo : forall i, i <> id -> get_proposal i s' = get_proposal i s) by (intros; unfold get_proposal; by rewrite Hk by (done || congruence)).
  assert (Hm : forall i, get_meta i s' = get_meta i s) by (intros; unfold get_meta; by rewrite Hk).
  assert (Hc : forall i, is_cancelled i s' = is_cancelled i s) by (intros; unfold is_cancelled; by rewrite Hk).
  assert (Hs : forall i, is_settled i s' = is_settled i s) by (intros; unfold is_settled; by rewrite Hk).
  assert (Hvo : forall i v, has_voted i v s' = has_voted i v s) by (intros; unfold has_voted; by rewrite Hk).
  assert (Hro : forall i v, i <> id \/ v <> u -> get_vote_receipt i v s' = get_vote_receipt i v s).
  { intros i v Hne. unfold get_vote_receipt. rewrite Hk; [done|..]; congruence || (intros [= -> ->]; tauto). }
  assert (Hn : get_next_proposal_id s' = get_next_proposal_id s) by (unfold get_next_proposal_id; by rewrite Hk).
  assert (Ho : get_open_proposal_count s' = get_open_proposal_count s) by (unfold get_open_proposal_count; by rewrite Hk).
  split; [split|split].
  - lia.
  - intros i. rewrite Hn. destruct (decide (i = id)) as [->|Hi]; [intros _; apply B2; congruence|]. rewrite Hpo by done. apply B2.
  - intros i. rewrite Hn, Hm, Hc. setoid_rewrite Hvo. apply B3.
  - intros i. rewrite Hs. intros (x & Hx & Hxe)%B4. destruct (decide (i = id)) as [->|Hi]; [congruence|]. exists x. by rewrite Hpo.
  - intros i x. destruct (decide (i = id)) as [->|Hi]; [rewrite Hp'; intros [= <-]; by exists vs|].
    rewrite Hpo by done. intros [ws Hws]%B5. exists ws. apply (tallied_same i x x ws s s'); [done|intros; apply Hro; by left|done..].
  - intros i v. destruct (decide (i = id /\ v = u)) as [[-> ->]|Hne].
    + intros _. rewrite Hvo. apply B6. congruence.
    + rewrite Hvo, Hro by (apply not_and_l in Hne; tauto). apply B6.
  - rewrite Ho, B7. unfold ids. rewrite Hn. apply sum_of_ext. intros i _. unfold is_open. rewrite Hc.
    destruct (decide (i = id)) as [->|Hi]; [|by rewrite Hpo]. by rewrite Hp, Hp', Hqe.
  - lia.
  - intros i v. unfold get_record. rewrite Hk by done. apply B9.
  - by apply Hk.
  - intros t Ht. unfold ballot_slack, balance_of. rewrite Hext. fold (balance_of t me s).
    assert (get_total_deposited s' = get_total_deposited s) as -> by (unfold get_total_deposited; by rewrite Hk).
    enough (bonds s' = bonds s) by (unfold balance_of; lia). unfold bonds, ids. rewrite Hn. apply sum_of_ext. intros i _.
    unfold owed. by rewrite Hm, Hs, Hc.
Qed.

(** An open proposal closes: one slot is free and its bond no longer owed. *)
Lemma close_keeps id p p' s s' :
  ballot_ok s ->
  get_proposal id s = Some p -> gp_enacted p = false -> is_cancelled id s = false ->
  get_proposal id s' = Some p' -> gp_votes_for p' = gp_votes_for p -> gp_votes_against p' = gp_votes_against p ->
  gp_enacted p' || is_cancelled id s' = true -> (is_settled id s' = true -> gp_enacted p' = true) -> owed s' id = 0 ->
  get_open_proposal_count s' = (if 0 <? get_open_proposal_count s then get_open_proposal_count s - 1 else get_open_proposal_count s) ->
  (forall k, ballot k = true -> k <> KVot (GovProposal id) -> k <> KVot OpenProposals -> k <> KVot (BondSettled id) ->
    k <> KVot (Cancelled id) -> rd k s' = rd k s) ->
  (forall t, rd Token s = Some t -> balance_of t me s - owed s id <= balance_of t me s') -> kept s s'.
Proof.
  intros [B1 B2 B3 B4 B5 B6 B7 B8 B9] Hp He Hc0 Hp' Hf Ha Hcl Hset Hd Ho Hk Hbal.
  assert (Hid : 0 <= id < get_next_proposal_id s) by (apply B2; congruence).
  assert (Hpo : forall i, i <> id -> get_proposal i s' = get_proposal i s) by (intros; unfold get_proposal; by rewrite Hk by (done || congruence)).
  assert (Hco : forall i, i <> id -> is_cancelled i s' = is_cancelled i s) by (intros; unfold is_cancelled; by rewrite Hk by (done || congruence)).
  assert (Hso : forall i, i <> id -> is_settled i s' = is_settled i s) by (intros; unfold is_settled; by rewrite Hk by (done || congruence)).
  assert (Hm : forall i, get_meta i s' = get_meta i s) by (intros; unfold get_meta; by rewrite Hk).
  assert (Hv : forall i v, has_voted i v s' = has_voted i v s) by (intros; unfold has_voted; by rewrite Hk).
  assert (Hr : forall i v, get_vote_receipt i v s' = get_vote_receipt i v s) by (intros; unfold get_vote_receipt; by rewrite Hk).
  assert (Hn : get_next_proposal_id s' = get_next_proposal_id s) by (unfold get_next_proposal_id; by rewrite Hk).
  assert (Hin : id ∈ ids s) by (by apply ids_in).
  assert (Hop : is_open s id = 1) by (unfold is_open; by rewrite Hp, He, Hc0).
  assert (Hcl' : is_open s' id = 0) by (unfold is_open; by rewrite Hp', Hcl).
  assert (Hoo : forall i, i <> id -> is_open s i = is_open s' i) by (intros i Hi; unfold is_open; by rewrite Hpo, Hco).
  assert (Hpos : 1 <= sum_of (is_open s) (ids s)).
  { transitivity (sum_of (is_open s) [id]); [simpl; lia|].
    apply sum_of_sub; [apply NoDup_singleton|set_solver|intros i; apply is_open_01]. }
  rewrite B7, (proj2 (Z.ltb_lt _ _)) in Ho by lia.
  split; [split|split].
  - lia.
  - intros i. rewrite Hn. destruct (decide (i = id)) as [->|Hi]; [lia|]. rewrite Hpo by done. apply B2.
  - intros i. rewrite Hn. intros Hi. rewrite Hm, Hco by lia. setoid_rewrite Hv. by apply B3.
  - intros i. destruct (decide (i = id)) as [->|Hi]; [|rewrite Hso, Hpo by done; apply B4]. intros H%Hset. by exists p'.
  - intros i q. destruct (decide (i = id)) as [->|Hi].
    + rewrite Hp'. intros [= <-]. destruct (B5 id p Hp) as [vs Hvs]. exists vs. by apply (tallied_same id p p' vs s s').
    + rewrite Hpo by done. intros [vs Hvs]%B5. exists vs. by apply (tallied_same i q q vs s s').
  - intros i v. rewrite Hr, Hv. apply B6.
  - unfold ids. rewrite Hn, Ho. fold (ids s).
    rewrite (sum_of_change (is_open s) (is_open s') _ id (ids_NoDup s) Hin Hoo). lia.
  - lia.
  - intros i v. unfold get_record. rewrite Hk by done. apply B9.
  - by apply Hk.
  - intros t Ht. specialize (Hbal t Ht). unfold ballot_slack, bonds, ids. rewrite Hn. fold (ids s).
    assert (get_total_deposited s' = get_total_deposited s) as -> by (unfold get_total_deposited; by rewrite Hk).
    rewrite (sum_of_change (owed s) (owed s') _ id (ids_NoDup s) Hin); [lia|].
    intros i Hi. unfold owed. by rewrite Hm, Hso, Hco.
Qed.

Lemma cancel_keeps u id s s' :
  ballot_ok s -> cancelled_at u id s s' ->
  (forall t, rd Token s = Some t -> exists m, get_meta id s = Some m /\
     balance_of t me s - Z.max 0 (mt_bond_paid m) <= balance_of t me s') -> kept s s'.
Proof.
  intros HB [(p & Hp & He & Hf & Ha) Hc0 Hc Ho (m & Hm & _) Hk] Hbal.
  assert (Hs0 : is_settled id s = false).
  { destruct (is_settled id s) eqn:E; [|done]. apply (bo_settled _ HB) in E as (q & Hq & Hqe). congruence. }
  apply (close_keeps id p p s s'); try done.
  - unfold get_proposal. by rewrite Hk.
  - by rewrite Hc, orb_true_r.
  - unfold is_settled. rewrite Hk by done. unfold is_settled in Hs0. by rewrite Hs0.
  - unfold owed. rewrite Hc, orb_true_r. by destruct (get_meta id s').
  - auto.
  - intros t Ht. destruct (Hbal t Ht) as (m' & Hm' & Hb). unfold owed. by rewrite Hm', Hs0, Hc0.
Qed.

Lemma enact_keeps env id s s' :
  ballot_ok s -> enacted_at env id s s' ->
  (forall t, rd Token s = Some t -> balance_of t me s - owed s id <= balance_of t me s') -> kept s s'.
Proof.
  intros HB [(p & [Hp He Hc _ _ _ _] & Hp' & _) Hs Ho Hk] Hbal.
  apply (close_keeps id p (enacted p) s s'); try done.
  - unfold owed. rewrite Hs. by destruct (get_meta id s').
  - auto.
Qed.

Lemma veto_keeps id s s' : ballot_ok s -> vetoed_at id s s' -> kept s s'.
Proof.
  intros HB [_ _ Hk He].
  assert (forall k, ballot k = true -> veto_mark k = false -> rd k s' = rd k s) as Hq.
  { intros k Hb Hv. apply Hk; [done|]. left. split; by intros ->. }
  apply quiet_keeps; [done|auto|]. intros t _. unfold balance_of, get_total_deposited. rewrite He, Hq by done. lia.
Qed.

Lemma move_keeps s s' : ballot_ok s -> ballot_move me L s s' -> kept s s'.
Proof.
  intros HB H; destruct H as [s1 [Hk Hb]| | | | | |]; [by apply quiet_keeps; auto|by eapply open_keeps|by eapply cast_keeps
    |by eapply switch_keeps|by eapply cancel_keeps
    |by eapply enact_keeps|by eapply veto_keeps].
Qed.

Lemma kept_refl s : ballot_ok s -> kept s s.
Proof. intros HB. split; [done|]. split; [done|]. intros. lia. Qed.
Lemma kept_trans s1 s2 s3 : kept s1 s2 -> kept s2 s3 -> kept s1 s3.
Proof.
  intros (H1 & T1 & L1) (H2 & T2 & L2). split; [done|]. split; [congruence|]. intros t Ht.
  specialize (L1 t Ht). specialize (L2 t ltac:(congruence)). lia.
Qed.
Lemma moves_keep s s' : ballot_ok s -> rtc (ballot_move me L) s s' -> kept s s'.
Proof.
  intros HB H. induction H as [s|s s1 s' H _ IH]; [by apply kept_refl|].
  pose proof (move_keeps _ _ HB H) as Hk. eapply kept_trans; [exact Hk|]. apply IH, Hk.
Qed.

End Preservation.

(** ** Theorems *)

(** A vault without any proposal yet. *)
Definition no_ballots {W : World} (s : State) : Prop :=
  forall k, ballot k = true -> k <> KInst Token -> k <> KInst TotalDeposited -> rd k s = None.

Lemma no_ballots_ok {W : World} s : no_ballots s -> ballot_ok s.
Proof.
  intros H. split; unfold get_next_proposal_id, get_proposal, get_meta, is_cancelled, has_voted, is_settled, get_vote_receipt,
    get_open_proposal_count, get_record, ids, get_next_proposal_id; intros; rewrite ?H in * by done; try done.
  split_and!; try done. intros u. by rewrite H.
Qed.

Section Theorems.
Context {W : World} {HT : StandardTokens W} {N : VotingNames} (me : Address) (L : Z).
Implicit Types s : State.

(** Any voting operation at a ledger from [L] on - a switch within the width of
    the integers -, or anything else that leaves the ballot alone and keeps the
    deposits as covered as they were. *)
Inductive voting_step s : State -> Prop :=
| vs_op env o : self env = me -> L <= sequence env -> unsaturated o s -> voting_step s (perform env o s)
| vs_other s' : idle me s s' -> voting_step s s'.

Lemma steps_moves s s' : ballot_ok s -> rtc voting_step s s' -> rtc (ballot_move me L) s s'.
Proof.
  intros HB H. induction H as [s|s s1 s' H _ IH]; [apply rtc_refl|].
  assert (rtc (ballot_move me L) s s1) as Hm.
  { destruct H as [env o He HL Hf|s1 Hi]; [apply perform_moves; try done; apply HB|by apply rtc_once, mv_idle]. }
  etransitivity; [exact Hm|]. apply IH. eapply moves_keep; [exact HB|exact Hm].
Qed.
Lemma steps_keep s s' : ballot_ok s -> rtc voting_step s s' -> kept me s s'.
Proof. intros HB H. by eapply moves_keep, steps_moves. Qed.

(** C8. The tallies are the receipts.  Over any life of a vault that starts
    without proposals - any sequence of proposals, single and batch votes,
    changes of votes, cancellations, enactments, vetoes, delegations and
    settings, with anything else in between - the votes for and against every
    proposal are exactly the sums of the weights in the receipts of its voters,
    each of whom voted once, and the counter is the number of proposals neither
    enacted nor cancelled and at most ten.  Of the two [change_vote]s, the one
    of [vault_extensions_757_760.rs] either finds the receipt on the side asked
    for and does nothing, or moves it, while the vote lasts, with its weight and
    nothing else to the other side (the tally stays exact provided the side it leaves keeps within the integer's width,
    as it does when no weight is negative); the one of [vote_change.rs] never
    succeeds, since nothing writes the records it looks for. *)
Theorem tally_is_receipts (s0 s : State) :
  no_ballots s0 -> rtc voting_step s0 s ->
  (forall id p, get_proposal id s = Some p -> exists vs, tallied id p vs s) /\
  get_open_proposal_count s = sum_of (is_open s) (ids s) /\ get_open_proposal_count s <= MAX_OPEN_PROPOSALS /\
  (forall env u id b x s', change_vote_receipt env u id b s = Ok x s' ->
     (s' = s /\ exists r, get_vote_receipt id u s = Some r /\ vr_support r = b) \/ switched_at (sequence env) id u b s s') /\
  (forall env u id b r s', change_vote env u id b s <> Ok r s').
Proof.
  intros H0 H. apply no_ballots_ok in H0. destruct (steps_keep _ _ H0 H) as ([_ _ _ _ HT' _ HO HR Hrec] & _ & _).
  split; [done|]. split; [done|]. split; [done|]. split; intros env u id b r s'; [apply change_vote_receipt_Ok|].
  by apply change_vote_never.
Qed.

(** C9. Bonds are in escrow.  If the vault starts without proposals and holds at
    least its deposits, then after any life of voting it still holds its
    deposits and every bond of every proposal that is neither cancelled nor
    settled: a bond is paid out once, and never out of another's. *)
Theorem bonds_escrowed (s0 s : State) token :
  no_ballots s0 -> rd Token s0 = Some token -> get_total_deposited s0 <= balance_of token me s0 ->
  rtc voting_step s0 s ->
  rd Token s = Some token /\ get_total_deposited s + bonds s <= balance_of token me s /\
  (forall id, 0 <= owed s id) /\ (forall id, 0 <= id < get_next_proposal_id s -> get_total_deposited s + owed s id <= balance_of token me s).
Proof.
  intros H0 Ht Hb H. pose proof (no_ballots_ok _ H0) as HB. destruct (steps_keep _ _ HB H) as (HB' & Ht' & Hle).
  specialize (Hle token Ht). unfold ballot_slack in Hle.
  assert (bonds s0 = 0) as Hz by (unfold bonds, ids, get_next_proposal_id; by rewrite H0).
  assert (get_total_deposited s + bonds s <= balance_of token me s) as Hall by lia.
  split; [congruence|]. split; [done|]. split; [intros; apply owed_nonneg|]. intros id Hid.
  enough (owed s id <= bonds s) by lia. transitivity (sum_of (owed s) [id]); [simpl; lia|].
  apply sum_of_sub; [apply NoDup_singleton| |intros; apply owed_nonneg]. intros i ->%list_elem_of_singleton. by apply ids_in.
Qed.

(** A proposal that was voted on, whose vote is over, and that was vetoed. *)
Definition dead (id : Z) s : Prop :=
  exists p, get_proposal id s = Some p /\ gp_enacted p = false /\ is_cancelled id s = false /\
    (gp_votes_for p <> 0 \/ gp_votes_against p <> 0) /\ gp_ends_at p < L /\
    (get_proposal_vetoer id s <> None \/ is_vetoed id s = true).

Lemma dead_frame id s s' :
  dead id s -> (forall k, k = KVot (GovProposal id) \/ k = KVot (Cancelled id) \/ k = KVot (ProposalMetaOf id) \/ k = KVot (BondSettled id) -> rd k s' = rd k s) ->
  (get_proposal_vetoer id s <> None \/ is_vetoed id s = true -> get_proposal_vetoer id s' <> None \/ is_vetoed id s' = true) ->
  dead id s' /\ get_proposal id s' = get_proposal id s /\ owed s' id = owed s id.
Proof.
  intros (p & Hp & He & Hc & Hvo & Hl & Hv) Hk Hv'. split; [exists p|]; unfold owed, get_proposal, is_cancelled, get_meta, is_settled in *.
  - rewrite !Hk by tauto. split_and!; auto.
  - by rewrite !Hk by tauto.
Qed.

Lemma dead_move id s s' :
  ballot_ok s -> dead id s -> ballot_move me L s s' ->
  dead id s' /\ get_proposal id s' = get_proposal id s /\ owed s' id = owed s id.
Proof.
  intros HB HD H. pose proof HD as (p & Hp & He & Hc & Hvo & Hl & Hv).
  assert (Hid : id < get_next_proposal_id s) by (apply (bo_ids _ HB); congruence).
  assert (Hvk : forall s', rd (VetoerOf id) s' = rd (VetoerOf id) s -> rd (GuardianVeto id) s' = rd (GuardianVeto id) s ->
    get_proposal_vetoer id s <> None \/ is_vetoed id s = true -> get_proposal_vetoer id s' <> None \/ is_vetoed id s' = true).
  { intros t H1 H2. unfold get_proposal_vetoer, is_vetoed, get_veto_record. by rewrite H1, H2. }
  destruct H as [s' [Hk _]|env u i s' _ O|l i u b w s' HL C|l i u b s' HL _ C|u i s' C _|env i s' _ E _|i s' V].
  - apply dead_frame; [done| |apply Hvk; by apply Hk]. intros k Hk'. apply Hk; by intuition subst.
  - pose proof (op_id _ _ _ _ _ O) as ->. assert (id <> get_next_proposal_id s) by lia. pose proof (op_rest _ _ _ _ _ O) as Hk.
    apply dead_frame; [done| |apply Hvk; by apply Hk]. intros k Hk'. apply Hk; intuition subst; done || congruence.
  - destruct (cs_before _ _ _ _ _ _ _ C) as (q & q' & Hq & _ & Hlq & _). pose proof (cs_rest _ _ _ _ _ _ _ C) as Hk.
    assert (i <> id) by (intros ->; rewrite Hp in Hq; injection Hq as ->; lia).
    apply dead_frame; [done| |apply Hvk; by apply Hk]. intros k Hk'. apply Hk; intuition subst; congruence.
  - destruct (sw_before _ _ _ _ _ _ C) as (q & q' & r & Hq & _ & Hlq & _). pose proof (sw_rest _ _ _ _ _ _ C) as Hk.
    assert (i <> id) by (intros ->; rewrite Hp in Hq; injection Hq as ->; lia).
    apply dead_frame; [done| |apply Hvk; by apply Hk]. intros k Hk'. apply Hk; intuition subst; congruence.
  - destruct (ca_before _ _ _ _ C) as (q & Hq & _ & Hf & Ha). pose proof (ca_rest _ _ _ _ C) as Hk.
    assert (i <> id) by (intros ->; rewrite Hp in Hq; injection Hq as ->; lia).
    apply dead_frame; [done| |apply Hvk; by apply Hk]. intros k Hk'. apply Hk; intuition subst; done || congruence.
  - destruct (en_ready _ _ _ _ E) as (q & [_ _ _ _ _ Hv1 Hv2] & _). pose proof (en_rest _ _ _ _ E) as Hk.
    assert (i <> id) by (intros ->; destruct Hv; congruence).
    apply dead_frame; [done| |apply Hvk; by apply Hk]. intros k Hk'. apply Hk; intuition subst; done || congruence.
  - pose proof (ve_rest _ _ _ V) as Hk. apply dead_frame; [done| |].
    + intros k Hk'. apply Hk; intuition subst; try done; left; by split.
    + unfold get_proposal_vetoer, is_vetoed, get_veto_record. intros [Hn|Hn]; [left|right]; rewrite Hk; try done; right; [done|].
      by destruct (rd (GuardianVeto id) s).
Qed.

Lemma dead_steps id s s' :
  ballot_ok s -> dead id s -> rtc voting_step s s' -> dead id s' /\ get_proposal id s' = get_proposal id s /\ owed s' id = owed s id.
Proof.
  intros HB HD H. pose proof (steps_moves _ _ HB H) as Hm. clear H. induction Hm as [s|s s1 s' H _ IH]; [done|].
  destruct (dead_move id _ _ HB HD H) as (D1 & P1 & O1). destruct (move_keeps _ _ _ _ HB H) as [HB1 _].
  destruct (IH HB1 D1) as (D2 & P2 & O2). split; [done|]. split; congruence.
Qed.

(** Vetoed proposals are never cleared away.  A proposal that received a
    vote, whose voting is over and that was vetoed is never enacted or
    cancelled by anything that happens later: its record stays, what the vault
    owes on its bond stays owed, its slot stays taken; and once there are ten of
    them no proposal can be created ever again. *)
Theorem vetoed_slots_are_lost s s' (jammed : list Z) :
  ballot_ok s -> NoDup jammed -> Forall (fun id => dead id s) jammed -> rtc voting_step s s' ->
  (forall id, id ∈ jammed -> get_proposal id s' = get_proposal id s /\ owed s' id = owed s id) /\
  (MAX_OPEN_PROPOSALS <= Z.of_nat (length jammed) ->
     forall env u param v d r s2, create_proposal env u param v d s' <> Ok r s2).
Proof.
  intros HB Hnd HD H. rewrite Forall_forall in HD. split.
  { intros id Hid. by destruct (dead_steps id _ _ HB (HD id Hid) H) as (_ & ? & ?). }
  intros Hten env u param v d r s2 Hc%create_proposal_Ok. destruct (steps_keep _ _ HB H) as [HB' _].
  enough (Z.of_nat (length jammed) <= get_open_proposal_count s') by (pose proof (op_room _ _ _ _ _ Hc); lia).
  rewrite (bo_open _ HB').
  assert (Hop : forall id, id ∈ jammed -> is_open s' id = 1 /\ id ∈ ids s').
  { intros id Hid. destruct (dead_steps id _ _ HB (HD id Hid) H) as ((p & Hp & He & Hcn & _) & _ & _).
    split; [unfold is_open; by rewrite Hp, He, Hcn|]. apply ids_in, (bo_ids _ HB'). congruence. }
  transitivity (sum_of (is_open s') jammed).
  - clear - Hop. assert (forall id, id ∈ jammed -> is_open s' id = 1) as H1 by (intros id Hid; by apply Hop). clear Hop.
    induction jammed as [|i l IH]; [done|]. cbn [length sum_of foldr]. rewrite H1 by set_solver.
    specialize (IH ltac:(intros; apply H1; set_solver)). unfold sum_of in IH. lia.
  - apply sum_of_sub; [done| |intros; apply is_open_01]. intros id Hid. by apply Hop.
Qed.

(** C35. What an enactment did.  An enactment that succeeds found the proposal
    neither enacted, cancelled nor vetoed, its vote over and - if it was ahead -
    its delay waited out; the new value is in force, within the parameter's
    bounds, exactly when the quorum and threshold frozen at its creation (or,
    without any, the bare majority) were met, and otherwise no parameter moved;
    no other parameter moves; the bond is settled, out of the vault by no more
    than it owed; and a second enactment is refused with the state unchanged. *)
Theorem enactment_exact env id s x s' :
  enact_proposal env id s = Ok x s' ->
  enacted_at env id s s' /\
  (forall t, rd Token s = Some t -> balance_of t (self env) s - owed s id <= balance_of t (self env) s') /\
  owed s' id = 0 /\
  (forall env', enact_proposal env' id s' = Err VaultError.AlreadyInitialized s').
Proof.
  intros H. apply (enact_Ok env) in H as [E Hb]. split; [done|]. split; [done|]. split.
  - unfold owed. rewrite (en_settled _ _ _ _ E). by destruct (get_meta id s').
  - intros env'. destruct (en_ready _ _ _ _ E) as (p & _ & Hp & _). unfold enact_proposal, enactable, reading, bind. by rewrite Hp.
Qed.

(** What an account's shares are worth. *)
Definition worth (u : Address) s : option Z := shares_to_amount (get_total_shares s) (get_total_deposited s) (get_shares u s).

Lemma worth_same u s s' : (forall k, ballot k = false -> (forall v, k <> KVot v) -> rd k s' = rd k s) ->
  rd TotalDeposited s' = rd TotalDeposited s -> worth u s' = worth u s.
Proof. intros Hk Hd. unfold worth, get_total_shares, get_total_deposited, get_shares. by rewrite Hd, !Hk by done. Qed.

Lemma delegate_Ok env u d s x s' :
  d <> u -> get_vote_delegate u s = None -> delegate_vote_weight env u d s = Ok x s' ->
  exists w, worth u s = Some w /\ get_vote_delegate u s' = Some d /\
    get_delegated_vote_weight d s' = get_delegated_vote_weight d s + w /\
    (forall k, k <> KVot (VoteDelegate u) -> k <> KVot (DelegSnap u) -> k <> KVot (DelegWeight d) -> rd k s' = rd k s).
Proof.
  intros Hne Hnone H. unfold delegate_vote_weight in H.
  apply bind_Ok in H as (? & ? & H1 & H). apply require_auth_Ok in H1 as (_ & _ & ->).
  rewrite bool_decide_eq_false_2 in H by done. unfold reading at 1 in H.
  apply bind_Ok in H as (? & ? & H1 & H). apply fail_if_Ok in H1 as (_ & _ & ->). unfold reading at 1 in H.
  apply bind_Ok in H as (? & ? & H1 & H). apply fail_if_Ok in H1 as (_ & _ & ->). unfold reading at 1 in H. rewrite Hnone in H.
  unfold delegate_stake in H. do 2 unfold reading at 1 in H.
  apply bind_Ok in H as (w & ? & H1 & H). apply ok_or_Ok in H1 as [Hw ->].
  unfold set_vote_delegate, set_delegated_weight_snapshot, set_delegated_vote_weight in H.
  apply bind_Ok in H as (? & ? & [_ ->]%put_Ok & H). apply bind_Ok in H as (? & ? & [_ ->]%put_Ok & H). unfold reading at 1 in H.
  apply bind_Ok in H as (c & ? & H1 & H). apply ok_or_Ok in H1 as [[-> _]%checked_add_Some ->].
  apply bind_Ok in H as (? & ? & [_ ->]%put_Ok & H). apply publish_Ok in H as [_ ->].
  exists w. split; [done|]. unfold get_vote_delegate, get_delegated_vote_weight. rdsimp. split; [done|]. split; [done|].
  intros k K1 K2 K3. by rdsimp.
Qed.

Lemma batch_one_Ok env u id b s s' :
  get_vote_weight_mode s = VLinear -> batch_vote env u [(id, b)] s = Ok [(id, REASON_OK)] s' ->
  exists w s1, worth u s = Some w /\ cast_at (sequence env) id u b w s s1 /\ (forall k, k <> KVot (LastVoteLedger u) -> rd k s' = rd k s1).
Proof.
  intros Hm H. unfold batch_vote in H. apply bind_Ok in H as (? & ? & H1 & H). apply require_auth_Ok in H1 as (_ & _ & ->).
  apply bind_Ok in H as (? & ? & H1 & H). apply fail_if_Ok in H1 as (_ & _ & ->). unfold reading at 1 in H.
  apply bind_Ok in H as (? & ? & H1 & H). apply fail_if_Ok in H1 as (Hs & _ & ->).
  apply bind_Ok in H as (w & ? & H1 & H). unfold vote_weight in H1. do 4 unfold reading at 1 in H1. rewrite Hs, Hm in H1.
  apply ret_Ok in H1 as [-> ->]. fold (worth u s) in H. apply bind_Ok in H as (l & s1 & Hl & H).
  apply bind_Ok in H as (? & s2 & H2 & H). apply ret_Ok in H as [<- ->].
  cbn [batch_loop] in Hl. apply bind_Ok in Hl as (r & s3 & Hr & Hl). apply bind_Ok in Hl as (? & ? & H3 & Hl).
  apply ret_Ok in H3 as [-> ->]. apply ret_Ok in Hl as [[= <-] ->].
  apply batch_entry_Ok in Hr as [(_ & Hpos & C)|[Hbad _]]; [|done].
  destruct (worth u s) as [w|]; [|simpl in Hpos; lia]. simpl in C. exists w, s3. split; [done|]. split; [done|].
  cbn [existsb snd succeeded orb] in H2. unfold set_last_vote_ledger in H2. apply put_Ok in H2 as [_ ->]. intros k Hk. by rdsimp.
Qed.

(** C40. A batch counts delegated stake again.  With linear weights: after [u]
    has delegated to [d], a single vote of [u] is refused, but a batch of [u]
    that reports success adds all of [u]'s stake to the tally, and [d]'s vote
    adds it a second time together with [d]'s own. *)
Theorem batch_counts_delegated_stake_twice env1 env2 env3 u d id b s s1 s2 s3 x1 x3 p :
  d <> u -> get_vote_delegate u s = None -> get_vote_weight_mode s = VLinear ->
  get_proposal id s = Some p -> gp_weight_mode p = VLinear ->
  delegate_vote_weight env1 u d s = Ok x1 s1 -> batch_vote env2 u [(id, b)] s1 = Ok [(id, REASON_OK)] s2 ->
  vote env3 d id b s2 = Ok x3 s3 ->
  (forall env y s4, vote env u id b s1 <> Ok y s4) /\
  exists wu wd p', worth u s = Some wu /\ worth d s = Some wd /\ get_proposal id s3 = Some p' /\
    let added := wu + (wd + get_delegated_vote_weight d s + wu) in
    gp_votes_for p' = gp_votes_for p + (if b then added else 0) /\
    gp_votes_against p' = gp_votes_against p + (if b then 0 else added).
Proof.
  intros Hne Hnone Hmode Hp Hlin H1 H2 H3.
  apply delegate_Ok in H1 as (wu & Hwu & Hdel & Hwd & Hk1); [|done..].
  assert (Hmode1 : get_vote_weight_mode s1 = VLinear) by (unfold get_vote_weight_mode; by rewrite Hk1).
  assert (Hw1 : forall v, worth v s1 = worth v s) by (intros v; apply worth_same; [intros; by apply Hk1|by apply Hk1]).
  apply batch_one_Ok in H2 as (wu' & sc & Hwu' & C & Hk2); [|done]. rewrite Hw1, Hwu in Hwu'. injection Hwu' as <-.
  pose proof (cs_rest _ _ _ _ _ _ _ C) as Hkc. destruct (cs_before _ _ _ _ _ _ _ C) as (q & q' & Hq & _ & _ & Hqw & Hq').
  assert (Hqp : q = p) by (unfold get_proposal in Hq, Hp; rewrite Hk1 in Hq by done; congruence). subst q.
  assert (Hw2 : worth d s2 = worth d s).
  { rewrite <- (Hw1 d). apply worth_same; [intros k _ Hv|]; rewrite Hk2, Hkc; done || apply Hv. }
  apply vote_Ok in H3 as (p2 & raw & own & w & Hp2 & _ & _ & _ & Hraw & Hown & -> & C3).
  fold (worth d s2) in Hraw. rewrite Hw2 in Hraw.
  unfold get_proposal in Hp2. rewrite Hk2 in Hp2 by done. unfold get_proposal in Hq'. rewrite Hq' in Hp2. injection Hp2 as <-.
  apply with_vote_Some in Hqw as ->. cbn [gp_weight_mode] in Hown. rewrite Hlin in Hown. apply ret_Ok in Hown as [-> _].
  destruct (cs_before _ _ _ _ _ _ _ C3) as (r & r' & Hr & _ & _ & Hrw & Hr').
  unfold get_proposal in Hr. rewrite Hk2, Hq' in Hr by done. injection Hr as <-. apply with_vote_Some in Hrw as ->.
  assert (Hd2 : get_delegated_vote_weight d s2 = get_delegated_vote_weight d s1) by (unfold get_delegated_vote_weight; by rewrite Hk2, Hkc).
  split.
  - intros env y s4 (? & ? & ? & ? & _ & Hn & _)%vote_Ok. congruence.
  - exists wu, raw. eexists. split; [done|]. split; [done|]. split; [exact Hr'|].
    cbn [gp_votes_for gp_votes_against]. rewrite Hd2, Hwd. destruct b; lia.
Qed.

End Theorems.

(** ** Witnesses *)

#[local] Existing Instances no_bootstrap no_bootstrap_laws.
#[local] Instance some_voting_names : VotingNames :=
  { vote_weight_mode_changed a m l := mkEvent [VSym "vote_mode"; VAddr a] [VInt l];
    VaultBoostGaugeError := VoteChangeError; BgProposalNotFound := VcProposalNotFound; BgProposalEnacted := VcProposalClosed;
    BgVotingEnded := VcProposalClosed; BgNotVoted := VcNotVoted; BgArithmeticError := VcArithmeticError }.

(** Addresses 2 and 3 hold a hundred shares each, 4 is the admin. *)
Definition polling_place : State (W := token_world) :=
  upd Admin (Some 4%positive) (upd Token (Some 9%positive) (upd TotalShares (Some 200) (upd TotalDeposited (Some 200)
    (upd (ShareBalance 2%positive) (Some 100) (upd (ShareBalance 3%positive) (Some 100) (upd SlashTreasury (Some 5%positive)
      (start_state (fun t a => if decide (t = 9%positive) then (if decide (a = 1%positive) then 200 else 1000) else 0)))))))).

Definition play (h : list (Z * voting_op)) (s : State (W := token_world)) : State := foldl (fun s '(l, o) => perform (at_ledger l) o s) s h.

(** The operations of [h] are steps, decided along the run. *)
Definition unsaturatedb (o : voting_op) (s : State (W := token_world)) : bool :=
  match o with
  | OpSwitch u id _ =>
      match get_proposal id s, get_vote_receipt id u s with
      | Some p, Some r => bool_decide (in_i128 ((if vr_support r then gp_votes_for p else gp_votes_against p) - vr_weight r))
      | _, _ => true
      end
  | _ => true
  end.
Fixpoint playable (L : Z) (h : list (Z * voting_op)) (s : State (W := token_world)) : bool :=
  match h with
  | [] => true
  | (l, o) :: h => (L <=? l) && unsaturatedb o s && playable L h (perform (at_ledger l) o s)
  end.

Lemma unsaturatedb_ok o s : unsaturatedb o s = true -> unsaturated o s.
Proof.
  destruct o; try done. cbn [unsaturatedb unsaturated]. intros H p r Hp Hr. rewrite Hp, Hr in H. by apply bool_decide_eq_true in H.
Qed.
Lemma vote_play_steps L h s : playable L h s = true -> rtc (voting_step 1%positive L) s (play h s).
Proof.
  revert s. induction h as [|[l o] h IH]; intros s; [intros _; apply rtc_refl|]. cbn [playable].
  intros [[Hl%Z.leb_le Hf%unsaturatedb_ok]%andb_true_iff Hh]%andb_true_iff.
  eapply rtc_l; [|by apply IH]. by apply vs_op.
Qed.

Lemma polling_place_empty : no_ballots polling_place.
Proof.
  intros k Hb H1 H2. unfold polling_place. rewrite !rd_upd_ne by (intros E; subst k; done). done.
Qed.
Lemma polling_place_ok : ballot_ok polling_place.
Proof. apply no_ballots_ok, polling_place_empty. Qed.

(** A bond of ten; a proposal for a pool cap of 900, carried by both; another,
    cancelled; a third, whose only voter changes sides. *)
Definition a_life : list (Z * voting_op) :=
  [(10, OpBond 4%positive 10); (10, OpCreate 2%positive PPoolCap 900 100); (11, OpCreate 3%positive PMinStake 7 100);
   (12, OpCreate 3%positive PUnstakeFee 30 100);
   (20, OpVote 2%positive 0 true); (21, OpBatch 3%positive [(0, true); (1, false)]); (22, OpVote 3%positive 0 false);
   (23, OpVote 2%positive 1 true); (24, OpSwitch 2%positive 1 false); (30, OpCancel 3%positive 2)].
Definition life_state := play a_life polling_place.

Lemma a_life_steps : rtc (voting_step 1%positive 0) polling_place life_state.
Proof. apply vote_play_steps. vm_compute. reflexivity. Qed.

Lemma tally_is_receipts_witness :
  get_open_proposal_count life_state = 2 /\
  (exists p, get_proposal 0 life_state = Some p /\ gp_votes_for p = 200 /\ gp_votes_against p = 0 /\ exists vs, tallied 0 p vs life_state) /\
  (exists p, get_proposal 1 life_state = Some p /\ gp_votes_for p = 0 /\ gp_votes_against p = 200 /\ exists vs, tallied 1 p vs life_state).
Proof.
  destruct (tally_is_receipts 1%positive 0 polling_place life_state polling_place_empty a_life_steps) as (H & _).
  assert (Hv : forall id f a, fmap (fun p => (gp_votes_for p, gp_votes_against p)) (get_proposal id life_state) = Some (f, a) ->
    exists p, get_proposal id life_state = Some p /\ gp_votes_for p = f /\ gp_votes_against p = a /\ exists vs, tallied id p vs life_state).
  { intros id f a E. destruct (get_proposal id life_state) as [p|] eqn:Hp; [|discriminate E]. simpl in E.
    injection E as E1 E2. exists p. split; [reflexivity|]. split; [exact E1|]. split; [exact E2|exact (H id p Hp)]. }
  split; [vm_compute; reflexivity|]. split; apply Hv; vm_compute; reflexivity.
Defined.

Lemma bonds_escrowed_witness :
  bonds life_state = 20 /\ balance_of 9%positive 1%positive life_state = 220 /\
  get_total_deposited life_state + bonds life_state <= balance_of 9%positive 1%positive life_state.
Proof.
  destruct (bonds_escrowed 1%positive 0 polling_place life_state 9%positive polling_place_empty
              ltac:(unfold polling_place; by rdsimp) ltac:(vm_compute; discriminate) a_life_steps) as (_ & H & _).
  split; [vm_compute; reflexivity|]. split; [vm_compute; reflexivity|exact H].
Defined.

(** Ten proposals, each with a vote, each vetoed. *)
Definition jam : list (Z * voting_op) :=
  (1, OpVetoThreshold VaultExtError.NotInitialized 4%positive 1000) ::
  map (fun _ => (10, OpCreate 2%positive PPoolCap 900 100)) (seqZ 0 10) ++
  map (fun id => (20, OpVote 3%positive id true)) (seqZ 0 10) ++
  map (fun id => (30, OpVeto 2%positive id)) (seqZ 0 10).
Definition jammed_state := play jam polling_place.

Definition deadb {W : World} (L : Z) (s : State) (id : Z) : bool :=
  match get_proposal id s with
  | Some p => negb (gp_enacted p) && negb (is_cancelled id s) && negb ((gp_votes_for p =? 0) && (gp_votes_against p =? 0)) &&
              (gp_ends_at p <? L) && (is_vetoed id s || match get_proposal_vetoer id s with Some _ => true | None => false end)
  | None => false
  end.
Lemma deadb_dead {W : World} L s id : deadb L s id = true -> dead L id s.
Proof.
  unfold deadb, dead. destruct (get_proposal id s) as [p|]; [|done]. intros H. exists p. split; [done|].
  repeat (apply andb_true_iff in H as [H ?Hx]). apply negb_true_iff in H, Hx2, Hx1. apply Z.ltb_lt in Hx0.
  split; [done|]. split; [done|]. split; [apply andb_false_iff in Hx1 as [?%Z.eqb_neq|?%Z.eqb_neq]; tauto|].
  split; [done|]. apply orb_true_iff in Hx as [?|?]; [by right|left]. by destruct (get_proposal_vetoer id s).
Qed.

Lemma vetoed_slots_are_lost_witness :
  let s' := play [(300, OpEnact 0); (40000, OpEnact 3); (40000, OpCancel 2%positive 5)] jammed_state in
  Forall (fun id => dead 200 id jammed_state) (seqZ 0 10) /\
  (forall env u param v d r s2, create_proposal env u param v d s' <> Ok r s2).
Proof.
  intros s'.
  assert (HD : Forall (fun id => dead 200 id jammed_state) (seqZ 0 10)).
  { assert (Hb : forallb (deadb 200 jammed_state) (seqZ 0 10) = true) by (vm_compute; reflexivity).
    rewrite forallb_forall in Hb. apply Forall_forall. intros id Hid. apply deadb_dead, Hb. by apply list_elem_of_In. }
  split; [exact HD|].
  apply (vetoed_slots_are_lost 1%positive 200 jammed_state s' (seqZ 0 10)).
  - eapply (steps_keep 1%positive 0); [exact polling_place_ok|]. apply vote_play_steps. vm_compute. reflexivity.
  - apply NoDup_seqZ.
  - exact HD.
  - apply vote_play_steps. vm_compute. reflexivity.
  - vm_compute. discriminate.
Defined.

Lemma enactment_exact_witness :
  exists x s', enact_proposal (at_ledger 20000) 0 life_state = Ok x s' /\ get_pool_cap s' = 900 /\ owed s' 0 = 0 /\
    (forall env', enact_proposal env' 0 s' = Err VaultError.AlreadyInitialized s').
Proof.
  destruct (succeeds_run (enact_proposal (at_ledger 20000) 0 life_state) (fun _ (s1 : State (W := token_world)) => get_pool_cap s1 =? 900)) as (x & s' & H & Hc);
    [vm_compute; reflexivity|].
  exists x, s'. split; [exact H|]. split; [by apply Z.eqb_eq|].
  destruct (enactment_exact (at_ledger 20000) 0 life_state x s' H) as (_ & _ & Ho & Hag). split; [exact Ho|exact Hag].
Defined.

Definition one_poll := play [(10, OpCreate 2%positive PPoolCap 900 100)] polling_place.
Lemma batch_counts_delegated_stake_twice_witness :
  exists s3 p', get_proposal 0 (s3 : State (W := token_world)) = Some p' /\ get_total_deposited polling_place = 200 /\ gp_votes_for p' = 300.
Proof.
  destruct (succeeds_run (delegate_vote_weight (at_ledger 20) 2%positive 3%positive one_poll) (fun _ (s1 : State (W := token_world)) =>
    succeeds (batch_vote (at_ledger 21) 2%positive [(0, true)] s1) (fun l (s2 : State (W := token_world)) =>
      match l with [(0, REASON_OK)] => succeeds (vote (at_ledger 22) 3%positive 0 true s2) (fun _ _ => true) | _ => false end)))
    as (x1 & s1 & H1 & Hr); [vm_compute; reflexivity|].
  apply succeeds_run in Hr as (l & s2 & H2 & Hr).
  destruct l as [|[[] []] [|]]; try discriminate Hr.
  apply succeeds_run in Hr as (x3 & s3 & H3 & _).
  assert (Hp : fmap (fun p => (gp_weight_mode p, gp_votes_for p)) (get_proposal 0 one_poll) = Some (VLinear, 0)) by (vm_compute; reflexivity).
  destruct (get_proposal 0 one_poll) as [p|] eqn:Ep; [|discriminate Hp]. simpl in Hp. injection Hp as Hp1 Hp2.
  destruct (batch_counts_delegated_stake_twice (at_ledger 20) (at_ledger 21) (at_ledger 22) 2%positive 3%positive 0 true
    one_poll s1 s2 s3 x1 x3 p ltac:(discriminate) ltac:(vm_compute; reflexivity) ltac:(vm_compute; reflexivity) Ep Hp1 H1 H2 H3)
    as (_ & wu & wd & p' & Hwu & Hwd & Hp' & Hf & _).
  exists s3, p'. split; [exact Hp'|]. split; [unfold polling_place, get_total_deposited; by rdsimp|].
  assert (Hu : worth 2%positive one_poll = Some 100) by (vm_compute; reflexivity).
  assert (Hd : worth 3%positive one_poll = Some 100) by (vm_compute; reflexivity).
  rewrite Hf, Hp2. rewrite Hu in Hwu. rewrite Hd in Hwd. injection Hwu as <-. injection Hwd as <-.
  vm_compute. reflexivity.
Defined.
