(* ===== verification/SubPoolProofs.v ===== *)
(** * The books of the sub-pools

    The total of every pool is the sum of its positions and within its
    capacity, through deposits, withdrawals, moves and rebalancing; and the
    vault holds what the pools hold.  What a change of rate does to rewards
    that were earned before it. *)

From S2P Require Import Prelude Errors Storage Host TokenFacts Concrete Accessors Admin RewardMath RewardRate Rewards SubPools.

(** ** Abstract books *)

Section Books.
Implicit Types (pools : list SubPool) (pos : Address -> Z -> Z).

Record books pools pos (next : Z) : Prop := {
  bk_ids : NoDup (sp_id <$> pools);
  bk_next : forall p, p ∈ pools -> sp_id p < next;
  bk_five : (length pools <= 5)%nat;
  bk_fresh : forall u id, next <= id -> pos u id = 0;
  bk_nonneg : forall u id, 0 <= pos u id;
  bk_total : forall p, p ∈ pools -> sums_to (fun u => pos u (sp_id p)) (sp_total_staked p);
  bk_cap : forall p, p ∈ pools -> sp_total_staked p <= sp_max_capacity p < i128_max
}.

Definition staked pools : Z := sum_of sp_total_staked pools.

Lemma books_ext pools pos pos' next : (forall u id, pos' u id = pos u id) -> books pools pos next -> books pools pos' next.
Proof.
  intros He [B1 B2 B3 B4 B5 B6 B7]. split; try done.
  - intros u id Hid. rewrite He. by apply B4.
  - intros u id. rewrite He. apply B5.
  - intros p Hp. apply (sums_to_ext (fun u => pos u (sp_id p))); [done|]. by apply B6.
Qed.

Lemma books_pool_unique pools pos next i j p q :
  books pools pos next -> pools !! i = Some p -> pools !! j = Some q -> sp_id p = sp_id q -> i = j.
Proof.
  intros B Hi Hj He. apply (NoDup_lookup (sp_id <$> pools) i j (sp_id p)); [apply B|..]; rewrite list_lookup_fmap.
  - by rewrite Hi.
  - by rewrite Hj, He.
Qed.

Lemma insert_ids pools i p p' : pools !! i = Some p -> sp_id p' = sp_id p -> sp_id <$> <[i:=p']> pools = sp_id <$> pools.
Proof.
  intros Hi He. rewrite list_fmap_insert. apply list_insert_id. by rewrite list_lookup_fmap, Hi, He.
Qed.
Lemma insert_elem pools i p p' q : pools !! i = Some p -> q ∈ <[i:=p']> pools -> q = p' \/ (exists j, j <> i /\ pools !! j = Some q).
Proof.
  intros Hi [j Hj]%list_elem_of_lookup. destruct (decide (j = i)) as [->|Hne].
  - rewrite list_lookup_insert_eq in Hj by (by eapply lookup_lt_Some). injection Hj as ->. by left.
  - rewrite list_lookup_insert_ne in Hj by done. right. by exists j.
Qed.

(** One position of one pool changes by [d]. *)
Lemma books_adjust pools pos pos' next i p u d :
  books pools pos next -> pools !! i = Some p -> 0 <= pos u (sp_id p) + d -> sp_total_staked p + d <= sp_max_capacity p ->
  pos' u (sp_id p) = pos u (sp_id p) + d -> (forall v id, v <> u \/ id <> sp_id p -> pos' v id = pos v id) ->
  books (<[i := with_total p (sp_total_staked p + d)]> pools) pos' next /\
  staked (<[i := with_total p (sp_total_staked p + d)]> pools) = staked pools + d.
Proof.
  intros B Hi H0 Hc Hu Hne. pose proof B as [B1 B2 B3 B4 B5 B6 B7].
  assert (p ∈ pools) as Hp by (by eapply list_elem_of_lookup_2).
  assert (Hid : sp_id p < next) by (by apply B2).
  split; [split|].
  - by rewrite (insert_ids _ _ p).
  - intros q [->|(j & _ & Hj)]%(insert_elem _ _ p); [done| |done]. by apply B2; eapply list_elem_of_lookup_2.
  - by rewrite length_insert.
  - intros v id Hn. rewrite Hne by lia. by apply B4.
  - intros v id. destruct (decide (v = u /\ id = sp_id p)) as [[-> ->]|Hd]; [lia|].
    rewrite Hne by (apply not_and_l in Hd; tauto). apply B5.
  - intros q [->|(j & Hj & Hq)]%(insert_elem _ _ p); [..|done]; cbn [with_total sp_id sp_total_staked].
    + apply (sums_to_change (fun v => pos v (sp_id p)) _ _ u); [by apply B6| |done]. intros v Hv. apply Hne. by left.
    + assert (sp_id q <> sp_id p) as Hqp by (intros He; apply Hj; by eapply books_pool_unique).
      apply (sums_to_ext (fun v => pos v (sp_id q))); [intros v; apply Hne; by right|]. by apply B6; eapply list_elem_of_lookup_2.
  - intros q [->|(j & Hj & Hq)]%(insert_elem _ _ p); [..|done]; cbn [with_total sp_max_capacity sp_total_staked].
    + destruct (B7 p Hp). lia.
    + by apply B7; eapply list_elem_of_lookup_2.
  - unfold staked. rewrite (sum_of_insert _ _ i p) by done. cbn [with_total sp_total_staked]. lia.
Qed.

(** A pool keeps its id and its total. *)
Lemma books_replace pools pos next i p p' :
  books pools pos next -> pools !! i = Some p -> sp_id p' = sp_id p -> sp_total_staked p' = sp_total_staked p ->
  sp_total_staked p <= sp_max_capacity p' < i128_max ->
  books (<[i := p']> pools) pos next /\ staked (<[i := p']> pools) = staked pools.
Proof.
  intros B Hi Hid Ht Hc. pose proof B as [B1 B2 B3 B4 B5 B6 B7]. assert (p ∈ pools) as Hp by (by eapply list_elem_of_lookup_2).
  split; [split; try done|].
  - by rewrite (insert_ids _ _ p).
  - intros q [->|(j & _ & Hj)]%(insert_elem _ _ p); [rewrite Hid; by apply B2| |done]. by apply B2; eapply list_elem_of_lookup_2.
  - by rewrite length_insert.
  - intros q [->|(j & _ & Hj)]%(insert_elem _ _ p); [rewrite Hid, Ht; by apply B6| |done]. by apply B6; eapply list_elem_of_lookup_2.
  - intros q [->|(j & _ & Hj)]%(insert_elem _ _ p); [by rewrite Ht| |done]. by apply B7; eapply list_elem_of_lookup_2.
  - unfold staked. rewrite (sum_of_insert _ _ i p) by done. lia.
Qed.

Lemma books_create pools pos next p :
  books pools pos next -> (length pools < 5)%nat -> sp_id p = next -> sp_total_staked p = 0 -> 0 < sp_max_capacity p < i128_max ->
  books (pools ++ [p]) pos (next + 1) /\ staked (pools ++ [p]) = staked pools.
Proof.
  intros [B1 B2 B3 B4 B5 B6 B7] Hl Hid Ht Hc. split; [split|].
  - rewrite fmap_app. apply NoDup_app. split; [done|]. split; [|apply NoDup_singleton].
    intros i (q & -> & Hq)%list_elem_of_fmap. apply B2 in Hq. simpl. rewrite list_elem_of_singleton. lia.
  - intros q [Hq| ->%list_elem_of_singleton]%elem_of_app; [apply B2 in Hq|]; lia.
  - rewrite length_app. simpl. lia.
  - intros u id Hn. apply B4. lia.
  - done.
  - intros q [Hq| ->%list_elem_of_singleton]%elem_of_app; [by apply B6|]. rewrite Hid, Ht.
    apply (sums_to_ext (fun _ => 0)); [intros u; apply B4; lia|apply sums_to_zero].
  - intros q [Hq| ->%list_elem_of_singleton]%elem_of_app; [by apply B7|]. lia.
  - unfold staked. rewrite sum_of_app. simpl. lia.
Qed.

Lemma find_pool pools id i p : find_sub_pool_index pools id = Some (i, p) -> pools !! i = Some p /\ sp_id p = id.
Proof. unfold find_sub_pool_index. intros (H1 & H2 & _)%list_find_Some. done. Qed.

End Books.

(** ** The operations *)

Section Operations.
Context {W : World} {HT : StandardTokens W} (token me : Address).
Implicit Types s : State.

Definition posf s : Address -> Z -> Z := fun u id => get_sub_pool_position u id s.
Record good s : Prop := {
  gd_books : books (get_sub_pools s) (posf s) (get_next_sub_pool_id s);
  gd_bounds : forall id b, get_bounds id s = Some b -> snd b < i128_max;
  gd_token : rd Token s = Some token
}.
(** What the vault holds beyond the sub-pools. *)
Definition sub_slack s : Z := balance_of token me s - staked (get_sub_pools s).
Definition kept s s' : Prop := good s' /\ sub_slack s <= sub_slack s'.

(** The keys of the books. *)
Definition sub_key (k : key) : bool :=
  match k with
  | KMod SubPools | KMod SubPoolCount | KMod (SubPos _ _) | KMod (RbBounds _) => true
  | KInst Token => true
  | _ => false
  end.

Lemma same_good s s' : (forall k, sub_key k = true -> rd k s' = rd k s) -> good s -> good s'.
Proof.
  intros Hk [B1 B2 B3]. split.
  - unfold get_sub_pools, get_next_sub_pool_id in *. rewrite !Hk by done. apply (books_ext _ (posf s)); [|done].
    intros u id. unfold posf, get_sub_pool_position. by rewrite Hk.
  - intros id b. unfold get_bounds. rewrite Hk by done. apply B2.
  - by rewrite Hk.
Qed.
Lemma same_kept s s' :
  (forall k, sub_key k = true -> rd k s' = rd k s) -> balance_of token me s <= balance_of token me s' -> good s -> kept s s'.
Proof.
  intros Hk Hb HG. split; [by apply (same_good s)|]. unfold sub_slack, get_sub_pools. rewrite Hk by done. lia.
Qed.

Lemma sat_add_small a b : 0 <= a -> 0 <= b -> sat_add a b < i128_max -> sat_add a b = a + b.
Proof. unfold sat_add, clamp_i128, i128_min, i128_max. lia. Qed.
Lemma sat_add_in a b : 0 <= a + b <= i128_max -> sat_add a b = a + b.
Proof. unfold sat_add, clamp_i128, i128_min, i128_max. lia. Qed.
Lemma sat_sub_in a b : 0 <= a - b <= i128_max -> sat_sub a b = a - b.
Proof. unfold sat_sub, clamp_i128, i128_min, i128_max. lia. Qed.

Lemma set_position_Ok E u id amount s x s' :
  set_sub_pool_position (E:=E) u id amount s = Ok x s' ->
  get_sub_pool_position u id s' = amount /\ (forall k, k <> KMod (SubPos u id) -> rd k s' = rd k s) /\ st_ext s' = st_ext s.
Proof.
  unfold set_sub_pool_position, get_sub_pool_position. destruct (Z.eqb_spec amount 0) as [->|].
  - intros [_ ->]%del_Ok. rdsimp. split_and!; try done. intros. by rdsimp.
  - intros [_ ->]%put_Ok. rdsimp. split_and!; try done. intros. by rdsimp.
Qed.
Lemma set_sub_accrued_Ok E u id amount s x s' :
  set_sub_pool_accrued (E:=E) u id amount s = Ok x s' ->
  get_sub_pool_accrued u id s' = amount /\ (forall k, k <> KMod (SubAccrued u id) -> rd k s' = rd k s) /\ st_ext s' = st_ext s.
Proof.
  unfold set_sub_pool_accrued, get_sub_pool_accrued. destruct (Z.eqb_spec amount 0) as [->|].
  - intros [_ ->]%del_Ok. rdsimp. split_and!; try done. intros. by rdsimp.
  - intros [_ ->]%put_Ok. rdsimp. split_and!; try done. intros. by rdsimp.
Qed.

Lemma settle_Ok env E u id rate position s x s' :
  settle_sub_pool_rewards (E:=E) env u id rate position s = Ok x s' ->
  (forall k, k <> KMod (SubCheckpoint u id) -> k <> KMod (SubAccrued u id) -> rd k s' = rd k s) /\ st_ext s' = st_ext s.
Proof.
  unfold settle_sub_pool_rewards. unfold reading at 1. intros H. apply bind_Ok in H as (? & s1 & H1 & H).
  assert ((forall k, k <> KMod (SubAccrued u id) -> rd k s1 = rd k s) /\ st_ext s1 = st_ext s) as [Hk1 He1].
  { destruct (0 <? _); [|by apply ret_Ok in H1 as [_ ->]]. unfold reading at 1 in H1. by apply set_sub_accrued_Ok in H1 as (_ & ? & ?). }
  unfold set_sub_pool_reward_checkpoint in H. apply bind_Ok in H as (? & ? & [_ ->]%put_Ok & H). apply ret_Ok in H as [_ ->].
  split; [|done]. intros k K1 K2. rdsimp. by apply Hk1.
Qed.

(** Settling touches none of the books. *)
Lemma settle_still env E u id rate position s x s' :
  settle_sub_pool_rewards (E:=E) env u id rate position s = Ok x s' -> (forall k, sub_key k = true -> rd k s' = rd k s) /\ st_ext s' = st_ext s.
Proof. intros [Hk He]%settle_Ok. split; [|done]. intros k Hs. apply Hk; by intros ->. Qed.

Lemma find_in id s i p : good s -> find_sub_pool_index (get_sub_pools s) id = Some (i, p) ->
  get_sub_pools s !! i = Some p /\ sp_id p = id /\ sp_total_staked p <= sp_max_capacity p < i128_max /\
  (forall u, 0 <= get_sub_pool_position u id s <= sp_total_staked p).
Proof.
  intros HG [Hi Hid]%find_pool. pose proof (gd_books _ HG) as B. assert (p ∈ get_sub_pools s) as Hp by (by eapply list_elem_of_lookup_2).
  split; [done|]. split; [done|]. split; [by apply (bk_cap _ _ _ B)|]. intros u.
  split; [apply (bk_nonneg _ _ _ B)|]. pose proof (bk_total _ _ _ B p Hp) as Ht. rewrite Hid in Ht.
  apply (sums_to_bound (fun v => posf s v id)); [intros v; apply (bk_nonneg _ _ _ B)|done].
Qed.

(** A change of one position, from the store before to the store after. *)
Lemma adjusted_kept s s' i p u id d :
  good s -> get_sub_pools s !! i = Some p -> sp_id p = id -> 0 <= get_sub_pool_position u id s + d -> sp_total_staked p + d <= sp_max_capacity p ->
  get_sub_pools s' = <[i := with_total p (sp_total_staked p + d)]> (get_sub_pools s) ->
  get_sub_pool_position u id s' = get_sub_pool_position u id s + d ->
  (forall k, sub_key k = true -> k <> KMod SubPools -> k <> KMod (SubPos u id) -> rd k s' = rd k s) ->
  balance_of token me s + d <= balance_of token me s' -> kept s s'.
Proof.
  intros HG Hi Hid H0 Hc Hpools Hp Hk Hb. subst id.
  destruct (books_adjust (get_sub_pools s) (posf s) (posf s') (get_next_sub_pool_id s) i p u d) as [HB Hst]; try done.
  - apply HG.
  - intros v j Hne. unfold posf, get_sub_pool_position. rewrite Hk; [done..|]. intros [= -> ->]. tauto.
  - split; [split|].
    + rewrite Hpools. unfold get_next_sub_pool_id. by rewrite Hk.
    + intros j b. unfold get_bounds. rewrite Hk by done. apply HG.
    + rewrite Hk by done. apply HG.
    + unfold sub_slack. rewrite Hpools, Hst. lia.
Qed.

Lemma stake_keeps env u id amount s x s' :
  self env = me -> u <> me -> good s -> stake_into_sub_pool env u id amount s = Ok x s' -> kept s s'.
Proof.
  intros Hme Hu HG H. unfold stake_into_sub_pool in H.
  apply bind_Ok in H as (? & ? & H1 & H). apply require_auth_Ok in H1 as (_ & _ & ->).
  apply bind_Ok in H as (? & ? & H1 & H). apply fail_if_Ok in H1 as (Ha%Z.leb_gt & _ & ->). unfold reading at 1 in H.
  apply bind_Ok in H as ([i p] & ? & H1 & H). apply ok_or_Ok in H1 as [Hf ->].
  apply bind_Ok in H as (? & ? & H1 & H). apply fail_if_Ok in H1 as (Hcap%Z.ltb_ge & _ & ->). unfold reading at 1 in H.
  apply bind_Ok in H as (? & s1 & Hset & H). apply settle_still in Hset as [Hk1 He1]. unfold reading at 1 in H.
  apply bind_Ok in H as (t & ? & H1 & H). apply ok_or_Ok in H1 as [Ht ->].
  pose proof (gd_token _ HG) as Htok. rewrite Hk1, Htok in Ht by done. injection Ht as <-.
  apply bind_Ok in H as (? & s2 & Htr & H). rewrite Hme in Htr. apply token_received in Htr as (_ & Hk2 & Hb2); [|done].
  unfold set_sub_pools in H. apply bind_Ok in H as (? & ? & [_ ->]%put_Ok & H).
  apply bind_Ok in H as (? & s3 & Hpos & H). apply publish_Ok in H as [_ ->]. apply set_position_Ok in Hpos as (Hp & Hk3 & He3).
  destruct (find_in id s i p HG Hf) as (Hi & Hid & Hc & Hpb). specialize (Hpb u) as Hpu.
  rewrite (sat_add_small (sp_total_staked p)) in * by lia. rewrite sat_add_in in Hp by lia.
  apply (adjusted_kept s _ i p u id amount); try done; try lia.
  - unfold get_sub_pools. rewrite rd_emit, Hk3 by done. by rdsimp.
  - intros k Hk K1 K2. rewrite rd_emit, Hk3 by done. rdsimp. rewrite Hk2. by apply Hk1.
  - rewrite balance_of_emit. unfold balance_of in *. rewrite He3. cbn [upd st_ext]. rewrite Hb2, He1. lia.
Qed.

Lemma unstake_keeps env u id amount s x s' :
  self env = me -> good s -> unstake_from_sub_pool env u id amount s = Ok x s' -> kept s s'.
Proof.
  intros Hme HG H. unfold unstake_from_sub_pool in H.
  apply bind_Ok in H as (? & ? & H1 & H). apply require_auth_Ok in H1 as (_ & _ & ->).
  apply bind_Ok in H as (? & ? & H1 & H). apply fail_if_Ok in H1 as (Ha%Z.leb_gt & _ & ->). unfold reading at 1 in H.
  apply bind_Ok in H as (? & ? & H1 & H). apply fail_if_Ok in H1 as (Hcur%Z.ltb_ge & _ & ->). unfold reading at 1 in H.
  apply bind_Ok in H as ([i p] & ? & H1 & H). apply ok_or_Ok in H1 as [Hf ->].
  apply bind_Ok in H as (? & s1 & Hset & H). apply settle_still in Hset as [Hk1 He1].
  unfold set_sub_pools in H. apply bind_Ok in H as (? & ? & [_ ->]%put_Ok & H).
  apply bind_Ok in H as (rest & ? & H1 & H). apply plain_Ok in H1 as [[-> _]%checked_sub_Some ->].
  apply bind_Ok in H as (? & s3 & Hpos & H). apply set_position_Ok in Hpos as (Hp & Hk3 & He3). unfold reading at 1 in H.
  apply bind_Ok in H as (t & ? & H1 & H). apply ok_or_Ok in H1 as [Ht ->].
  rewrite Hk3 in Ht by done. revert Ht. rdsimp. rewrite Hk1, (gd_token _ HG) by done. intros [= <-].
  apply bind_Ok in H as (? & s4 & Htr & H). rewrite Hme in Htr. apply token_sent in Htr as (_ & Hk4 & Hb4 & _).
  apply publish_Ok in H as [_ ->].
  destruct (find_in id s i p HG Hf) as (Hi & Hid & Hc & Hpb). specialize (Hpb u) as Hpu.
  apply (adjusted_kept s _ i p u id (- amount)); try done; try lia.
  - unfold get_sub_pools. rewrite rd_emit, Hk4, Hk3 by done. rdsimp. cbn [default]. rewrite sat_sub_in by lia. done.
  - unfold get_sub_pool_position in *. rewrite rd_emit, Hk4, Hp. lia.
  - intros k Hk K1 K2. rewrite rd_emit, Hk4, Hk3 by done. rdsimp. by apply Hk1.
  - rewrite balance_of_emit. unfold balance_of in *. rewrite He3 in Hb4. cbn [upd st_ext] in Hb4. rewrite He1 in Hb4. lia.
Qed.

Lemma members_move_keeps env u from_id to_id amount s x s' :
  good s -> move_between_sub_pools env u from_id to_id amount s = Ok x s' -> kept s s'.
Proof.
  intros HG H. unfold move_between_sub_pools in H.
  apply bind_Ok in H as (? & ? & H1 & H). apply require_auth_Ok in H1 as (_ & _ & ->).
  apply bind_Ok in H as (? & ? & H1 & H). apply fail_if_Ok in H1 as (Ha%Z.leb_gt & _ & ->).
  apply bind_Ok in H as (? & ? & H1 & H). apply fail_if_Ok in H1 as (Hne%Z.eqb_neq & _ & ->). unfold reading at 1 in H.
  apply bind_Ok in H as (? & ? & H1 & H). apply fail_if_Ok in H1 as (Hcur%Z.ltb_ge & _ & ->). unfold reading at 1 in H.
  apply bind_Ok in H as ([i p] & ? & H1 & H). apply ok_or_Ok in H1 as [Hf ->].
  apply bind_Ok in H as ([j q] & ? & H1 & H). apply ok_or_Ok in H1 as [Hg ->]. unfold reading at 1 in H.
  apply bind_Ok in H as (? & ? & H1 & H). apply fail_if_Ok in H1 as (Hcap%Z.ltb_ge & _ & ->).
  apply bind_Ok in H as (? & s1 & Hset & H). apply settle_still in Hset as [Hk1 He1].
  apply bind_Ok in H as (? & s2 & Hset & H). apply settle_still in Hset as [Hk2 He2].
  unfold set_sub_pools in H. apply bind_Ok in H as (? & ? & [_ ->]%put_Ok & H).
  apply bind_Ok in H as (rest & ? & H1 & H). apply plain_Ok in H1 as [[-> _]%checked_sub_Some ->].
  apply bind_Ok in H as (? & s3 & Hpos & H). apply set_position_Ok in Hpos as (Hp3 & Hk3 & He3).
  apply bind_Ok in H as (? & s4 & Hpos & H). apply set_position_Ok in Hpos as (Hp4 & Hk4 & He4). apply publish_Ok in H as [_ ->].
  destruct (find_in from_id s i p HG Hf) as (Hi & Hid & Hc & Hpb). specialize (Hpb u) as Hpu.
  destruct (find_in to_id s j q HG Hg) as (Hj & Hjd & Hcj & Hqb). specialize (Hqb u) as Hqu.
  rewrite (sat_add_small (sp_total_staked q)) in * by lia. rewrite sat_add_in in Hp4 by lia. rewrite sat_sub_in in * by lia.
  assert (Hrest : forall k, sub_key k = true -> k <> KMod SubPools -> k <> KMod (SubPos u from_id) -> k <> KMod (SubPos u to_id) ->
    rd k (emit (mkEvent [VSym "sub_move"; VAddr u] [VInt from_id; VInt to_id; VInt amount; VInt (sequence env)]) s4) = rd k s).
  { intros k Hk K1 K2 K3. rewrite rd_emit, Hk4, Hk3 by done. rdsimp. rewrite Hk2 by done. by apply Hk1. }
  set (s' := emit _ s4) in *.
  pose (mid := fun v k => if decide (v = u /\ k = from_id) then posf s u from_id - amount else posf s v k).
  assert (i <> j) as Hij by (intros ->; congruence).
  destruct (books_adjust (get_sub_pools s) (posf s) mid (get_next_sub_pool_id s) i p u (- amount)) as [HB Hst]; try done; try lia.
  - apply HG.
  - rewrite Hid. unfold posf. lia.
  - rewrite Hid. unfold mid. rewrite decide_True by done. lia.
  - intros v k Hvk. unfold mid. rewrite decide_False; [done|]. rewrite <- Hid. tauto.
  - set (pools1 := <[i:=_]> (get_sub_pools s)) in HB.
    assert (Hj1 : pools1 !! j = Some q) by (unfold pools1; by rewrite list_lookup_insert_ne).
    assert (Hs' : get_sub_pools s' = <[j := with_total q (sp_total_staked q + amount)]> pools1).
    { subst s'. unfold get_sub_pools. rewrite rd_emit, Hk4, Hk3 by done. rdsimp. done. }
    destruct (books_adjust pools1 mid (posf s') (get_next_sub_pool_id s) j q u amount) as [HB2 Hst2]; try done; try lia.
    + rewrite Hjd. unfold mid. rewrite decide_False by (intros [_ ?]; congruence). unfold posf. lia.
    + rewrite Hjd. unfold mid. rewrite decide_False by (intros [_ ?]; congruence). subst s'. unfold posf, get_sub_pool_position in *.
      by rewrite rd_emit, Hp4.
    + intros v k Hvk. rewrite Hjd in Hvk. unfold mid. case_decide as Hd.
      * destruct Hd as [-> ->]. subst s'. unfold posf, get_sub_pool_position in *. rewrite rd_emit, Hk4, Hp3; [done|]. congruence.
      * unfold posf, get_sub_pool_position. rewrite Hrest; [done|done|done|intros [= -> ->]; tauto|intros [= -> ->]; tauto].
    + split; [split|].
      * rewrite Hs'. unfold get_next_sub_pool_id. by rewrite Hrest.
      * intros k b. unfold get_bounds. rewrite Hrest by done. apply HG.
      * rewrite Hrest by done. apply HG.
      * unfold sub_slack. rewrite Hs', Hst2. unfold pools1 at 1. rewrite Hst. subst s'. rewrite balance_of_emit.
        unfold balance_of. rewrite He4, He3. cbn [upd st_ext]. rewrite He2, He1. lia.
Qed.

(** A pool changes nothing but its rate or its capacity. *)
Lemma replaced_kept s s' i p p' :
  good s -> get_sub_pools s !! i = Some p -> sp_id p' = sp_id p -> sp_total_staked p' = sp_total_staked p ->
  sp_total_staked p <= sp_max_capacity p' < i128_max -> get_sub_pools s' = <[i := p']> (get_sub_pools s) ->
  (forall k, sub_key k = true -> k <> KMod SubPools -> rd k s' = rd k s) -> st_ext s' = st_ext s -> kept s s'.
Proof.
  intros HG Hi Hid Ht Hc Hpools Hk He.
  destruct (books_replace (get_sub_pools s) (posf s) (get_next_sub_pool_id s) i p p') as [HB Hst]; try done; [apply HG|].
  split; [split|].
  - rewrite Hpools. unfold get_next_sub_pool_id. rewrite Hk by done. eapply books_ext; [|exact HB].
    intros v j. unfold posf, get_sub_pool_position. by rewrite Hk.
  - intros j b. unfold get_bounds. rewrite Hk by done. apply HG.
  - rewrite Hk by done. apply HG.
  - unfold sub_slack, balance_of. rewrite Hpools, Hst, He. lia.
Qed.

Lemma require_sub_rate_Ok r s x s' : require_sub_rate r s = Ok x s' -> s' = s.
Proof.
  unfold require_sub_rate. intros (? & ? & H1 & H)%bind_Ok. apply fail_if_Ok in H1 as (_ & _ & ->).
  unfold reading at 1 in H. by apply fail_if_Ok in H as (_ & _ & ->).
Qed.

Lemma rate_keeps env u id rate s x s' : good s -> set_sub_pool_rate env u id rate s = Ok x s' -> kept s s'.
Proof.
  intros HG H. unfold set_sub_pool_rate in H.
  apply bind_Ok in H as (? & ? & H1 & H). apply require_auth_Ok in H1 as (_ & _ & ->). do 2 unfold reading at 1 in H.
  apply bind_Ok in H as ([i p] & ? & H1 & H). apply ok_or_Ok in H1 as [Hf ->].
  apply bind_Ok in H as (? & ? & H1 & H). apply fail_if_Ok in H1 as (_ & _ & ->).
  apply bind_Ok in H as (? & ? & ->%require_sub_rate_Ok & H).
  unfold set_sub_pools in H. apply bind_Ok in H as (? & ? & [_ ->]%put_Ok & H). apply publish_Ok in H as [_ ->].
  destruct (find_in id s i p HG Hf) as (Hi & Hid & Hc & _).
  apply (replaced_kept s _ i p (with_rate p rate)); try done. intros k Hk K1. by rdsimp.
Qed.

Lemma admin_Ok env s x s' : require_admin env s = Ok x s' -> s' = s.
Proof. intros H. by apply require_admin_Ok in H as (? & _ & _ & _ & _ & ->). Qed.

Lemma create_keeps env a name u rate cap s x s' :
  good s -> cap < i128_max -> create_sub_pool env a name u rate cap s = Ok x s' -> kept s s'.
Proof.
  intros HG Hmax H. unfold create_sub_pool in H.
  apply bind_Ok in H as (? & ? & H1 & H). apply require_auth_Ok in H1 as (_ & _ & ->).
  apply bind_Ok in H as (? & ? & H1 & H). apply (proj1 (try_Ok _ _ _ _)), admin_Ok in H1 as ->.
  apply bind_Ok in H as (? & ? & H1 & H). apply fail_if_Ok in H1 as (_ & _ & ->).
  apply bind_Ok in H as (? & ? & H1 & H). apply fail_if_Ok in H1 as (Hc%Z.leb_gt & _ & ->).
  apply bind_Ok in H as (? & ? & ->%require_sub_rate_Ok & H). unfold reading at 1 in H.
  apply bind_Ok in H as (? & ? & H1 & H). apply fail_if_Ok in H1 as (Hl%Nat.leb_gt & _ & ->). unfold reading at 1 in H.
  unfold set_sub_pools, set_next_sub_pool_id in H. apply bind_Ok in H as (? & ? & [_ ->]%put_Ok & H).
  apply bind_Ok in H as (next & ? & H1 & H). apply plain_Ok in H1 as [[-> _]%to_u32_Some ->].
  apply bind_Ok in H as (? & ? & [_ ->]%put_Ok & H). apply bind_Ok in H as (? & ? & H1 & H). apply publish_Ok in H1 as [_ ->].
  apply ret_Ok in H as [_ ->].
  destruct (books_create (get_sub_pools s) (posf s) (get_next_sub_pool_id s)
    (mkSubPool (get_next_sub_pool_id s) name u rate 0 cap)) as [HB Hst]; try done; [apply HG|].
  split; [split|].
  - unfold get_sub_pools, get_next_sub_pool_id in *. rdsimp. cbn [default]. eapply books_ext; [|exact HB].
    intros v j. unfold posf, get_sub_pool_position. by rdsimp.
  - intros j b. unfold get_bounds. rdsimp. apply HG.
  - rdsimp. apply HG.
  - match goal with |- sub_slack s <= sub_slack ?z => set (s' := z) end.
    assert (get_sub_pools s' = get_sub_pools s ++ [mkSubPool (get_next_sub_pool_id s) name u rate 0 cap]) as Hp'
      by (subst s'; unfold get_sub_pools; by rdsimp).
    unfold sub_slack. rewrite Hp', Hst. unfold balance_of. subst s'. cbn [emit upd st_ext]. lia.
Qed.

Lemma require_admin_rb_Ok env s x s' : require_admin_rb env s = Ok x s' -> s' = s.
Proof.
  unfold require_admin_rb. intros (r & s1 & H1 & H)%bind_Ok.
  assert (s1 = s) as ->.
  { unfold catch, require_admin, get_admin, bind, reading, fail_if, ok_or, require_auth, throw, ret in H1.
    destruct (is_renounced s); [by simplify_eq|]. destruct (rd Admin s) as [a|]; [|by simplify_eq].
    destruct (signed env a); by simplify_eq. }
  destruct r; [by apply ret_Ok in H as [_ ->]|by apply throw_Ok in H].
Qed.

Lemma bounds_keeps env id lo hi s x s' :
  good s -> hi < i128_max -> set_sub_pool_rebalance_bounds env id lo hi s = Ok x s' -> kept s s'.
Proof.
  intros HG Hmax H. unfold set_sub_pool_rebalance_bounds in H. apply bind_Ok in H as (? & ? & ->%require_admin_rb_Ok & H).
  apply bind_Ok in H as (? & ? & H1 & H). apply fail_if_Ok in H1 as (_ & _ & ->). unfold reading at 1 in H.
  apply bind_Ok in H as (? & ? & H1 & H). apply fail_if_Ok in H1 as (_ & _ & ->). unfold set_bounds in H.
  apply bind_Ok in H as (? & ? & [_ ->]%put_Ok & H). apply publish_Ok in H as [_ ->]. pose proof HG as [B1 B2 B3].
  split; [split|].
  - unfold get_sub_pools, get_next_sub_pool_id in *. rdsimp. eapply books_ext; [|exact B1].
    intros v j. unfold posf, get_sub_pool_position. by rdsimp.
  - intros j b. unfold get_bounds in *. rewrite rd_emit. destruct (decide (j = id)) as [->|Hne].
    + rdsimp. by intros [= <-].
    + rewrite rd_upd_ne by congruence. apply B2.
  - by rdsimp.
  - unfold sub_slack, balance_of, get_sub_pools. rdsimp. cbn [emit upd st_ext]. lia.
Qed.

Lemma shift_Ok id c s x s' :
  shift_capacity id c s = Ok x s' ->
  exists i p, find_sub_pool_index (get_sub_pools s) id = Some (i, p) /\ s' = upd SubPools (Some (<[i := with_capacity p c]> (get_sub_pools s))) s.
Proof.
  unfold shift_capacity. intros (r & s1 & H1 & H)%bind_Ok. destruct r as [[]|e]; [|by apply throw_Ok in H].
  apply ret_Ok in H as [_ ->]. unfold catch, set_sub_pool_max_capacity, reading in H1.
  destruct (find_sub_pool_index (get_sub_pools s) id) as [[i p]|] eqn:E; [|done].
  exists i, p. split; [done|]. cbn in H1. by injection H1 as <-.
Qed.

Lemma members_kept_trans s1 s2 s3 : kept s1 s2 -> kept s2 s3 -> kept s1 s3.
Proof. intros [_ L1] [G2 L2]. split; [done|]. lia. Qed.
Lemma members_kept_refl s : good s -> kept s s.
Proof. intros HG. split; [done|]. lia. Qed.

Lemma shift_keeps id c s x s' :
  good s -> (forall t c0, get_sub_pool_capacity_state id s = Some (t, c0) -> t <= c < i128_max) -> shift_capacity id c s = Ok x s' -> kept s s'.
Proof.
  intros HG Hc (i & p & Hf & ->)%shift_Ok. destruct (find_in id s i p HG Hf) as (Hi & Hid & _ & _).
  apply (replaced_kept s _ i p (with_capacity p c)); try done.
  - apply (Hc _ (sp_max_capacity p)). unfold get_sub_pool_capacity_state. by rewrite Hf.
  - intros k _ K. by rdsimp.
Qed.

(** Shifting one pool's capacity leaves another pool's state alone. *)
Lemma shift_other from_id to_id c s x s' :
  good s -> good s' -> from_id <> to_id -> shift_capacity from_id c s = Ok x s' ->
  forall st, get_sub_pool_capacity_state to_id s' = Some st -> get_sub_pool_capacity_state to_id s = Some st.
Proof.
  intros HG HG' Hne (i & p & Hf & ->)%shift_Ok st. unfold get_sub_pool_capacity_state.
  destruct (find_in from_id s i p HG Hf) as (Hi & Hid & _).
  destruct (find_sub_pool_index (get_sub_pools (upd _ _ s)) to_id) as [[j q]|] eqn:E; [|done]. intros <-.
  apply find_pool in E as [Hj Hq].
  assert (get_sub_pools (upd SubPools (Some (<[i := with_capacity p c]> (get_sub_pools s))) s) =
          <[i := with_capacity p c]> (get_sub_pools s)) as Hg by (unfold get_sub_pools; by rdsimp).
  rewrite Hg in Hj. assert (j <> i) as Hji.
  { intros ->. rewrite list_lookup_insert_eq in Hj by (by eapply lookup_lt_Some).
    injection Hj as <-. cbn [with_capacity sp_id] in Hq. congruence. }
  rewrite list_lookup_insert_ne in Hj by done.
  assert (find_sub_pool_index (get_sub_pools s) to_id = Some (j, q)) as ->; [|done].
  unfold find_sub_pool_index. apply list_find_Some. split; [done|]. split; [done|]. intros n y Hn Hlt Hy.
  assert (n = j) by (eapply (books_pool_unique _ _ _ n j y q (gd_books _ HG)); [done..|congruence]). lia.
Qed.

Lemma record_action_still E k e s x s' :
  record_keeper_action (E:=E) k e s = Ok x s' -> (forall k, sub_key k = true -> rd k s' = rd k s) /\ st_ext s' = st_ext s.
Proof.
  unfold record_keeper_action. unfold reading at 1. destruct (get_record k s).
  - unfold set_record. intros [_ ->]%put_Ok. split; [|done]. intros k' Hk. apply rd_upd_ne. by intros <-.
  - by intros [_ ->]%ret_Ok.
Qed.

Lemma rebalance_keeps env keeper from_id to_id amount s x s' :
  good s -> rebalance_sub_pool_capacity env keeper from_id to_id amount s = Ok x s' -> kept s s'.
Proof.
  intros HG H. unfold rebalance_sub_pool_capacity in H.
  apply bind_Ok in H as (? & ? & H1 & H). apply require_auth_Ok in H1 as (_ & _ & ->). unfold reading at 1 in H.
  apply bind_Ok in H as (? & ? & H1 & H). apply fail_if_Ok in H1 as (_ & _ & ->).
  apply bind_Ok in H as (? & ? & H1 & H). apply fail_if_Ok in H1 as (Ha%Z.leb_gt & _ & ->).
  apply bind_Ok in H as (? & ? & H1 & H). apply fail_if_Ok in H1 as (Hne%Z.eqb_neq & _ & ->). unfold reading at 1 in H.
  apply bind_Ok in H as (? & ? & H1 & H). apply fail_if_Ok in H1 as (_ & _ & ->). do 2 unfold reading at 1 in H.
  apply bind_Ok in H as (? & ? & H1 & H). apply fail_if_Ok in H1 as (_ & _ & ->). unfold reading at 1 in H.
  apply bind_Ok in H as (fb & ? & H1 & H). apply ok_or_Ok in H1 as [_ ->]. unfold reading at 1 in H.
  apply bind_Ok in H as (tb & ? & H1 & H). apply ok_or_Ok in H1 as [Htb ->]. unfold reading at 1 in H.
  apply bind_Ok in H as ([ft fc] & ? & H1 & H). apply ok_or_Ok in H1 as [Hfs ->]. unfold reading at 1 in H.
  apply bind_Ok in H as ([tt_ tc] & ? & H1 & H). apply ok_or_Ok in H1 as [Hts ->].
  apply bind_Ok in H as (nf & ? & H1 & H). apply ok_or_Ok in H1 as [[-> _]%checked_sub_Some ->].
  apply bind_Ok in H as (? & ? & H1 & H). apply fail_if_Ok in H1 as ([Hlo%Z.ltb_ge _]%orb_false_iff & _ & ->).
  apply bind_Ok in H as (nt & ? & H1 & H). apply ok_or_Ok in H1 as [[-> _]%checked_add_Some ->].
  apply bind_Ok in H as (? & ? & H1 & H). apply fail_if_Ok in H1 as (Hhi%Z.ltb_ge & _ & ->).
  apply bind_Ok in H as (? & s1 & Hs1 & H). apply bind_Ok in H as (? & s2 & Hs2 & H).
  apply bind_Ok in H as (? & ? & [_ ->]%put_Ok & H). apply bind_Ok in H as (? & s3 & Hs3 & H). apply publish_Ok in H as [_ ->].
  assert (forall id t c, get_sub_pool_capacity_state id s = Some (t, c) -> t <= c < i128_max) as Hcap.
  { intros id t c. unfold get_sub_pool_capacity_state. destruct (find_sub_pool_index (get_sub_pools s) id) as [[i p]|] eqn:E; [|done].
    intros [= <- <-]. by destruct (find_in id s i p HG E) as (_ & _ & ? & _). }
  assert (kept s s1) as K1.
  { eapply shift_keeps; [done| |exact Hs1]. intros t c Hst. rewrite Hfs in Hst. injection Hst as <- <-. specialize (Hcap _ _ _ Hfs). lia. }
  assert (kept s1 s2) as K2.
  { eapply shift_keeps; [apply K1| |exact Hs2]. intros t c Hst.
    eapply shift_other in Hst; [..|exact Hs1]; [|done|apply K1|done]. rewrite Hts in Hst. injection Hst as <- <-.
    specialize (Hcap _ _ _ Hts). pose proof (gd_bounds _ HG _ _ Htb). lia. }
  apply record_action_still in Hs3 as [Hk3 He3].
  eapply members_kept_trans; [exact K1|]. eapply members_kept_trans; [exact K2|]. apply same_kept; [| |apply K2].
  - intros k Hk. rewrite rd_emit, Hk3 by done. apply rd_upd_ne. by intros <-.
  - rewrite balance_of_emit. unfold balance_of. rewrite He3. cbn [upd st_ext]. lia.
Qed.

(** ** The system *)

Inductive sub_op :=
| OpSubCreate (a : Address) (name : string) (u : Address) (rate cap : Z)
| OpSubStake (u : Address) (id amount : Z)
| OpSubUnstake (u : Address) (id amount : Z)
| OpSubMove (u : Address) (from_id to_id amount : Z)
| OpSubRate (u : Address) (id rate : Z)
| OpSubBounds (id lo hi : Z)
| OpSubLimits (amount cooldown : Z)
| OpSubRebalance (k : Address) (from_id to_id amount : Z)
| OpKeeper (k : Address)
| OpDropKeeper (k : Address).

Definition perform (env : Env) (o : sub_op) : State -> State :=
  match o with
  | OpSubCreate a name u rate cap => invoke (create_sub_pool env a name u rate cap)
  | OpSubStake u id amount => invoke (stake_into_sub_pool env u id amount)
  | OpSubUnstake u id amount => invoke (unstake_from_sub_pool env u id amount)
  | OpSubMove u f t amount => invoke (move_between_sub_pools env u f t amount)
  | OpSubRate u id rate => invoke (set_sub_pool_rate env u id rate)
  | OpSubBounds id lo hi => invoke (set_sub_pool_rebalance_bounds env id lo hi)
  | OpSubLimits amount cooldown => invoke (set_sub_pool_rebalance_limits env amount cooldown)
  | OpSubRebalance k f t amount => invoke (rebalance_sub_pool_capacity env k f t amount)
  | OpKeeper k => invoke (register_keeper env k)
  | OpDropKeeper k => invoke (deregister_keeper env k)
  end.

(** No capacity is the largest number of the type, and the vault itself does
    not deposit. *)
Definition sound (o : sub_op) : Prop :=
  match o with
  | OpSubCreate _ _ _ _ cap => cap < i128_max
  | OpSubBounds _ _ hi => hi < i128_max
  | OpSubStake u _ _ => u <> me
  | _ => True
  end.

Inductive sub_step s : State -> Prop :=
| ss_op env o : self env = me -> sound o -> sub_step s (perform env o s)
| ss_other s' : (forall k, sub_key k = true -> rd k s' = rd k s) -> balance_of token me s <= balance_of token me s' -> sub_step s s'.

Lemma keepers_keep env o s : good s -> (match o with OpSubLimits _ _ | OpKeeper _ | OpDropKeeper _ => True | _ => False end) -> kept s (perform env o s).
Proof.
  intros HG Ho. apply same_kept; [..|done].
  all: destruct o; try done; cbn [perform]; unfold invoke.
  all: try (destruct (set_sub_pool_rebalance_limits env amount cooldown s) as [x s'|e s'|t] eqn:H; try done;
    unfold set_sub_pool_rebalance_limits in H; apply bind_Ok in H as (? & ? & ->%require_admin_rb_Ok & H);
    apply bind_Ok in H as (? & ? & H1 & H); apply fail_if_Ok in H1 as (_ & _ & ->);
    apply bind_Ok in H as (? & ? & [_ ->]%put_Ok & H); apply put_Ok in H as [_ ->]).
  all: try (destruct (register_keeper env k s) as [x s'|e s'|t] eqn:H; try done;
    unfold register_keeper, set_record, set_keeper_list in H; apply bind_Ok in H as (? & ? & ->%admin_Ok & H); unfold reading at 1 in H;
    apply bind_Ok in H as (r & s1 & H1 & H); apply bind_Ok in H as (? & ? & [_ ->]%put_Ok & H); apply publish_Ok in H as [_ ->];
    assert ((forall k, sub_key k = true -> rd k s1 = rd k s) /\ st_ext s1 = st_ext s) as [Hk1 He1]
      by (destruct (get_record k s); [by apply ret_Ok in H1 as [_ ->]|]; unfold reading at 1 in H1;
          apply bind_Ok in H1 as (? & ? & [_ ->]%put_Ok & H1); apply ret_Ok in H1 as [_ ->];
          split; [|done]; intros k' Hk'; apply rd_upd_ne; by intros <-)).
  all: try (destruct (deregister_keeper env k s) as [x s'|e s'|t] eqn:H; try done;
    unfold deregister_keeper, set_record in H; apply bind_Ok in H as (? & ? & ->%admin_Ok & H); unfold reading at 1 in H;
    apply bind_Ok in H as (r & ? & H1 & H); apply ok_or_Ok in H1 as [_ ->];
    apply bind_Ok in H as (? & ? & [_ ->]%put_Ok & H); apply publish_Ok in H as [_ ->]).
  all: try (unfold balance_of; cbn [emit upd st_ext]; rewrite ?He1; lia).
  all: intros k' Hk'; rewrite ?rd_emit; rewrite !rd_upd_ne by (by intros <-); try done; by apply Hk1.
Qed.

Lemma step_keeps s s' : good s -> sub_step s s' -> kept s s'.
Proof.
  intros HG [env o Hme Ho|s1 Hk Hb]; [|by apply same_kept].
  destruct o; try (by apply keepers_keep); cbn [perform sound] in *; unfold invoke.
  - destruct (create_sub_pool _ _ _ _ _ _ s) eqn:H; [by eapply create_keeps|by apply members_kept_refl..].
  - destruct (stake_into_sub_pool _ _ _ _ s) eqn:H; [by eapply stake_keeps|by apply members_kept_refl..].
  - destruct (unstake_from_sub_pool _ _ _ _ s) eqn:H; [by eapply unstake_keeps|by apply members_kept_refl..].
  - destruct (move_between_sub_pools _ _ _ _ _ s) eqn:H; [by eapply members_move_keeps|by apply members_kept_refl..].
  - destruct (set_sub_pool_rate _ _ _ _ s) eqn:H; [by eapply rate_keeps|by apply members_kept_refl..].
  - destruct (set_sub_pool_rebalance_bounds _ _ _ _ s) eqn:H; [by eapply bounds_keeps|by apply members_kept_refl..].
  - destruct (rebalance_sub_pool_capacity _ _ _ _ _ s) eqn:H; [by eapply rebalance_keeps|by apply members_kept_refl..].
Qed.

(** A vault without sub-pools. *)
Record no_sub_pools s : Prop := {
  ns_pools : rd SubPools s = None;
  ns_count : rd SubPoolCount s = None;
  ns_pos : forall u id, rd (SubPos u id) s = None;
  ns_bounds : forall id, rd (RbBounds id) s = None;
  ns_token : rd Token s = Some token
}.

(** C10. The sub-pools are backed.  Over any sequence of sub-pool creations,
    deposits, withdrawals, moves, changes of rate, bounds and limits, keeper
    registrations and rebalancings, with anything else in between that leaves
    these records and the vault's balance alone, the total of every pool is the
    sum of its positions, none of which is negative, and lies within the pool's
    capacity; there are at most five pools, with different ids; and the vault
    holds at least what the pools hold on top of what it held before. *)
Theorem sub_pools_backed s0 s :
  no_sub_pools s0 -> rtc sub_step s0 s ->
  (length (get_sub_pools s) <= 5)%nat /\ NoDup (sp_id <$> get_sub_pools s) /\
  (forall u id, 0 <= get_sub_pool_position u id s) /\
  (forall p, p ∈ get_sub_pools s ->
     sums_to (fun u => get_sub_pool_position u (sp_id p) s) (sp_total_staked p) /\ sp_total_staked p <= sp_max_capacity p) /\
  balance_of token me s0 + staked (get_sub_pools s) <= balance_of token me s.
Proof.
  intros [N1 N2 N3 N4 N5] H.
  assert (get_sub_pools s0 = []) as Hp0 by (unfold get_sub_pools; by rewrite N1).
  assert (good s0) as HG0.
  { split; [|intros id b; unfold get_bounds; by rewrite N4|done]. rewrite Hp0. split; try done; try (by intros p Hp%elem_of_nil).
    - constructor.
    - simpl. lia.
    - intros u id _. unfold posf, get_sub_pool_position. by rewrite N3.
    - intros u id. unfold posf, get_sub_pool_position. by rewrite N3. }
  assert (kept s0 s) as [HG Hs].
  { clear - H HG0 HT. induction H as [s|s s1 s2 H _ IH]; [by apply members_kept_refl|].
    pose proof (step_keeps _ _ HG0 H) as K. eapply members_kept_trans; [exact K|]. apply IH, K. }
  destruct (gd_books _ HG) as [B1 B2 B3 B4 B5 B6 B7]. split_and!; try done.
  - intros p Hp. split; [by apply B6|]. by apply B7.
  - unfold sub_slack in Hs. rewrite Hp0 in Hs. unfold staked in *. simpl in Hs. lia.
Qed.

(** A change of rate prices the whole time since the last settlement anew. *)
Lemma rate_change_is_retroactive env caller u id rate i p s x s' :
  set_sub_pool_rate env caller id rate s = Ok x s' -> find_sub_pool_index (get_sub_pools s) id = Some (i, p) ->
  get_sub_pool_position u id s <> 0 -> rate <> 0 -> get_sub_pool_reward_checkpoint env u id s < sequence env ->
  calc_sub_pool_pending env u id s' =
    sub_pool_reward (get_sub_pool_position u id s) rate (sequence env - get_sub_pool_reward_checkpoint env u id s).
Proof.
  intros H Hf Hp Hr Hc. unfold set_sub_pool_rate in H.
  apply bind_Ok in H as (? & ? & H1 & H). apply require_auth_Ok in H1 as (_ & _ & ->). do 2 unfold reading at 1 in H.
  rewrite Hf in H. apply bind_Ok in H as ([i' p'] & ? & H1 & H). apply ok_or_Ok in H1 as [[= <- <-] ->].
  apply bind_Ok in H as (? & ? & H1 & H). apply fail_if_Ok in H1 as (_ & _ & ->).
  apply bind_Ok in H as (? & ? & ->%require_sub_rate_Ok & H).
  unfold set_sub_pools in H. apply bind_Ok in H as (? & ? & [_ ->]%put_Ok & H). apply publish_Ok in H as [_ ->].
  apply find_pool in Hf as Hi. destruct Hi as [Hi Hid].
  unfold calc_sub_pool_pending.
  match goal with |- context [get_sub_pools ?z] => set (s' := z) end.
  assert (get_sub_pools s' = <[i := with_rate p rate]> (get_sub_pools s)) as -> by (subst s'; unfold get_sub_pools; by rdsimp).
  assert (find_sub_pool_index (<[i := with_rate p rate]> (get_sub_pools s)) id = Some (i, with_rate p rate)) as ->.
  { apply list_find_Some in Hf as (_ & _ & Hfirst). apply list_find_Some.
    split; [by rewrite list_lookup_insert_eq by (by eapply lookup_lt_Some)|]. split; [done|].
    intros n y Hn Hlt. rewrite list_lookup_insert_ne in Hn by lia. by eapply Hfirst. }
  assert (get_sub_pool_position u id s' = get_sub_pool_position u id s) as -> by (subst s'; unfold get_sub_pool_position; by rdsimp).
  assert (get_sub_pool_reward_checkpoint env u id s' = get_sub_pool_reward_checkpoint env u id s) as ->
    by (subst s'; unfold get_sub_pool_reward_checkpoint; by rdsimp).
  cbn [with_rate sp_reward_rate_bps]. rewrite (proj2 (Z.eqb_neq _ _) Hp), (proj2 (Z.eqb_neq _ _) Hr). simpl.
  by rewrite (proj2 (Z.leb_gt _ _) Hc).
Qed.

End Operations.

(** ** Witness *)

(** Address 4 is the admin, 5 runs two pools, 6 is a keeper. *)
Definition parent_vault : State (W := token_world) :=
  upd Admin (Some 4%positive) (upd Token (Some 9%positive)
    (start_state (fun t a => if decide (t = 9%positive) then 1000 else 0))).
Definition sub_replay (h : list (Z * sub_op)) (s : State (W := token_world)) : State (W := token_world) :=
  foldl (fun s '(l, o) => perform (at_ledger l) o s) s h.
Definition sub_life : list (Z * sub_op) :=
  [(10, OpSubCreate 4%positive "a" 5%positive 500 100); (10, OpSubCreate 4%positive "b" 5%positive 300 50);
   (20, OpSubStake 2%positive 0 80); (21, OpSubStake 3%positive 1 50); (30, OpSubMove 2%positive 0 1 10);
   (40, OpSubBounds 0 10 200); (40, OpSubBounds 1 10 200); (41, OpKeeper 6%positive);
   (50, OpSubRebalance 6%positive 0 1 20); (51, OpSubMove 2%positive 0 1 15); (60, OpSubUnstake 2%positive 1 5);
   (61, OpSubRate 5%positive 0 100)].

Lemma sub_replay_steps h s : Forall (fun e => sound 1%positive (snd e)) h -> rtc (sub_step 9%positive 1%positive) s (sub_replay h s).
Proof.
  intros Hh. revert s. induction Hh as [|[l o] h Hl _ IH]; intros s; [apply rtc_refl|].
  eapply rtc_l; [|apply IH]. by apply ss_op.
Qed.

Lemma sub_pools_backed_witness :
  let s := sub_replay sub_life parent_vault in
  map sp_total_staked (get_sub_pools s) = [65; 60] /\ map sp_max_capacity (get_sub_pools s) = [80; 70] /\
  balance_of 9%positive 1%positive parent_vault + staked (get_sub_pools s) <= balance_of 9%positive 1%positive s.
Proof.
  intros s. split; [vm_compute; reflexivity|]. split; [vm_compute; reflexivity|].
  apply (sub_pools_backed 9%positive 1%positive parent_vault s).
  - split; intros; unfold parent_vault; by rdsimp.
  - apply sub_replay_steps. repeat constructor; try done.
Defined.
