(* ===== verification/VaultSystem.v ===== *)
(** * No operation over-issues shares

    The operations of [Vault.v] and [Positions.v] as one system: they are
    collected in [vault_op]; [vault_step] is one committed invocation, or
    anything the rest of the contract and the world do without writing the
    share books. *)

From S2P Require Import Prelude Errors Storage Host Concrete Accessors Admin Shares RewardMath MultiReward.
From S2P Require Import Rewards Checkpoints Balance Pause RewardRate Limits Notify Mirror Strategies Vault.
From S2P Require Import Claims Leaderboard Positions VaultBooks VaultInv PositionProofs.

(** ** The operations *)

Inductive vault_op :=
| OStake (user : Address) (amount : Z)
| OStakeWithMin (user : Address) (amount min_shares_out : Z)
| OUnstake (staker : Address) (shares : Z)
| OUnstakeAll (user : Address)
| OWithdraw (withdrawer : Address) (shares : Z)
| OEmergencyWithdraw (user : Address)
| OAddYield (admin : Address) (amount : Z)
| OEnableQueue (admin : Address) (enabled : bool)
| OProcessQueue (admin : Address) (max_entries : Z)
| OSetCooldown (admin : Address) (ledgers : Z)
| ORequestWithdrawal (user : Address) (shares : Z)
| OExecuteWithdrawal (user : Address)
| OTokenize (user : Address)
| ORedeemToken (user : Address) (token_id : Z)
| OMirror (follower leader : Address) (ratio max fee : Z)
| OCancelMirroring (follower : Address)
| OPositionSplit (user : Address) (split_amount : Z)
| OSplit (user : Address) (position_id : N) (shares : Z)
| OMerge (user : Address) (id_a id_b : N)
| OTransfer (from to : Address)
| OTransferSettling (from to : Address)
| OTransferWithRewards (from to : Address)
| OInherit (beneficiary user : Address).

Section System.
Context {W : World} {B : Bootstrap W}.
Implicit Types s : State.

(** One committed or rolled-back invocation; [fuel] is the budget the host
    grants its accrual walk. *)
Definition perform (env : Env) (fuel : nat) (o : vault_op) : State -> State :=
  match o with
  | OStake u a => invoke (stake env u a)
  | OStakeWithMin u a m => invoke (do_stake_inner env u a m)
  | OUnstake u x => invoke (unstake env u x)
  | OUnstakeAll u => invoke (unstake_all env u)
  | OWithdraw u x => invoke (withdraw env u x)
  | OEmergencyWithdraw u => invoke (emergency_withdraw env u)
  | OAddYield a x => invoke (add_yield env a x)
  | OEnableQueue a b => invoke (enable_withdrawal_queue env a b)
  | OProcessQueue a n => invoke (process_withdrawal_queue env a n)
  | OSetCooldown a n => invoke (set_withdrawal_cooldown env a n)
  | ORequestWithdrawal u x => invoke (request_withdrawal env u x)
  | OExecuteWithdrawal u => invoke (execute_withdrawal env u)
  | OTokenize u => invoke (tokenize_position env u)
  | ORedeemToken u id => invoke (redeem_position_nft env u id)
  | OMirror f l r m fee => invoke (set_mirror_config env f l r m fee)
  | OCancelMirroring f => invoke (cancel_mirroring env f)
  | OPositionSplit u x => invoke (position_split env u x)
  | OSplit u id x => invoke (split_position env fuel u (Z.of_N id) x)
  | OMerge u a b => invoke (merge_positions env fuel u (Z.of_N a) (Z.of_N b))
  | OTransfer f t => invoke (transfer_position env f t)
  | OTransferSettling f t => invoke (transfer_position_settling env fuel f t)
  | OTransferWithRewards f t => invoke (transfer_position_with_rewards env fuel f t)
  | OInherit b u => invoke (claim_inheritance env fuel b u)
  end.

Inductive vault_step : State -> State -> Prop :=
| step_op env fuel o s : vault_step s (perform env fuel o s)
| step_elsewhere s s' : same_books s s' -> vault_step s s'.

Lemma commits_invoke E A (m : M E A) s : books s -> commits m s -> books (invoke m s).
Proof. intros HB H. unfold invoke. destruct (m s) as [a s'|e s'|t] eqn:Hm; [by apply (H a s')|done..]. Qed.

Context {BL : BootstrapLaws W B}.

Lemma perform_books env fuel o s : books s -> books (perform env fuel o s).
Proof.
  intros HB. destruct o; cbn [perform]; apply commits_invoke; try done.
  - by apply stake_commits.
  - by apply do_stake_inner_commits.
  - by apply fine_commits, unstake_fine.
  - by apply fine_commits, unstake_all_fine.
  - by apply fine_commits, withdraw_fine.
  - by apply fine_commits, emergency_withdraw_fine.
  - by apply add_yield_commits.
  - apply fine_commits, fine_quiet; [|done]. unfold enable_withdrawal_queue, quiet.
    frames.
  - by apply process_queue_commits.
  - apply fine_commits, fine_quiet; [|done]. unfold set_withdrawal_cooldown, quiet.
    frames.
  - by apply request_withdrawal_commits.
  - by apply execute_withdrawal_commits.
  - by apply tokenize_commits.
  - by apply redeem_commits.
  - apply fine_commits, fine_quiet; [|done]. unfold set_mirror_config, remove_follower, add_follower,
      set_followers, quiet. frames.
  - apply fine_commits, fine_quiet; [|done]. unfold cancel_mirroring, remove_follower, set_followers, quiet.
    frames.
  - by apply position_split_commits.
  - by apply split_position_commits.
  - apply merge_positions_commits; (done || lia).
  - by apply transfer_commits.
  - by apply settling_commits.
  - by apply with_rewards_commits.
  - by apply inheritance_commits.
Qed.

Lemma steps_books s0 s : books s0 -> rtc vault_step s0 s -> books s.
Proof.
  intros HB Hs. induction Hs as [|s0 s1 s2 [env fuel o s0'|s0' s1' Hk] _ IH]; [done|..]; apply IH.
  - by apply perform_books.
  - by apply (books_same s0').
Qed.

(** Nobody has shares yet. *)
Definition fresh s : Prop := forall k, acc k = true -> rd k s = None.

Lemma fresh_books s : fresh s -> books s.
Proof.
  intros H. assert (Hn : nft_balances s = ∅) by (unfold nft_balances; by rewrite H).
  assert (Hq : get_queue s = []) by (unfold get_queue; by rewrite H).
  assert (Hs : forall u, get_shares u s = 0) by (intros; unfold get_shares; by rewrite H).
  assert (Hr : forall u, requested u s = 0) by (intros; unfold requested, get_request; by rewrite H).
  assert (Hsp : forall u, get_split_positions u s = []) by (intros; unfold get_split_positions; by rewrite H).
  split.
  - intros u. by rewrite Hs.
  - intros u. by rewrite Hr.
  - intros u. rewrite Hsp. constructor.
  - rewrite Hq. constructor.
  - rewrite Hn. apply map_Forall_empty.
  - unfold get_total_deposited. by rewrite H.
  - intros U _. unfold queued, tokenized. rewrite Hq, Hn, map_to_list_empty.
    rewrite (sum_of_ext _ (fun _ => 0)) by (intros; unfold hold, own, split_total; rewrite Hs, Hr, Hsp; done).
    unfold get_total_shares. rewrite H by done. induction U; simpl in *; lia.
Qed.

(** What [u]'s shares would redeem at the current price. *)
Definition redeemable (u : Address) s : Z :=
  default 0 (shares_to_amount (get_total_shares s) (get_total_deposited s) (get_shares u s)).

Lemma redeemable_sum s U :
  books s -> 0 <= get_total_shares s -> sum_of (fun u => get_shares u s) U <= get_total_shares s ->
  sum_of (fun u => redeemable u s) U <= get_total_deposited s.
Proof.
  intros HB HS Hle. pose proof (bk_deposited _ HB) as HD.
  destruct (decide (get_total_shares s = 0)) as [H0|H0].
  - rewrite (sum_of_ext _ (fun _ => 0)).
    + induction U; simpl in *; [lia|]. apply IHU. pose proof (bk_shares _ HB a). lia.
    + intros u _. unfold redeemable, shares_to_amount, shares_to_amount_with_decimals. by rewrite H0.
  - apply (Z.mul_le_mono_pos_r _ _ (get_total_shares s)); [lia|].
    transitivity (sum_of (fun u => get_shares u s) U * get_total_deposited s); [|nia].
    clear Hle. induction U as [|u U IH]; simpl; [lia|].
    assert (redeemable u s * get_total_shares s <= get_shares u s * get_total_deposited s); [|lia].
    pose proof (bk_shares _ HB u) as Hu. unfold redeemable.
    destruct (shares_to_amount _ _ _) as [r|] eqn:Hr; simpl; [|nia].
    apply redeem_Some in Hr as [-> _]; [|lia..]. apply div_le_mul. lia.
Qed.

End System.

(** ** Theorem *)

(** C1. Shares are never over-issued.  Starting from a vault in which nobody
    has shares, after any sequence of stakes, unstakes, withdrawals, emergency
    exits, yield injections, queued and delayed withdrawals, tokenised
    positions, mirrored actions, position splits, merges, transfers and
    inheritances, interleaved with anything that does not write the share
    books, and whatever tokens, hooks and strategies do: the shares of any set
    of users, split positions included, together with those parked in
    withdrawal requests, the queue and position tokens do not exceed the total,
    and what the users could redeem at the current price does not exceed the
    deposits on the books. *)
Theorem never_overissued {W : World} {B : Bootstrap W} {BL : BootstrapLaws W B}
    (s0 s : State) (U : list Address) :
  fresh s0 -> rtc vault_step s0 s -> NoDup U ->
  sum_of (fun u => hold u s) U + queued s + tokenized s <= get_total_shares s /\
  sum_of (fun u => redeemable u s) U <= get_total_deposited s.
Proof.
  intros Hf Hs HU. pose proof (steps_books _ _ (fresh_books _ Hf) Hs) as HB.
  pose proof (bk_total _ HB U HU) as Ht. split; [done|].
  pose proof (sum_of_nonneg _ _ (bk_queue _ HB)) as Hq. fold (queued s) in Hq.
  assert (Hn : 0 <= tokenized s).
  { apply sum_of_nonneg, Forall_forall. intros [i x] Hi%elem_of_map_to_list. apply (bk_nft _ HB i x Hi). }
  assert (Hle : sum_of (fun u => get_shares u s) U <= sum_of (fun u => hold u s) U).
  { clear -HB. induction U as [|u U IH]; simpl; [lia|].
    pose proof (bk_request _ HB u). pose proof (sum_of_nonneg _ _ (bk_splits _ HB u)).
    unfold hold at 1, own, split_total. lia. }
  assert (H0 : 0 <= sum_of (fun u => get_shares u s) U).
  { apply sum_of_nonneg, Forall_forall. intros u _. apply HB. }
  apply redeemable_sum; [done|lia..].
Qed.

(** Two users stake; one requests a delayed withdrawal and splits the rest of
    the position, the other tokenises it. *)
#[local] Existing Instances no_bootstrap no_bootstrap_laws.
Definition funded_vault : State (W := token_world) :=
  upd Token (Some 9%positive) (upd Admin (Some 7%positive) (start_state (fun _ _ => 5000))).
Definition busy_vault : State (W := token_world) :=
  perform (at_ledger 50) 5 (OSplit 2 0 25) (perform (at_ledger 40) 5 (OTokenize 3)
    (perform (at_ledger 30) 5 (ORequestWithdrawal 2 40)
      (perform (at_ledger 20) 5 (OStake 3 50) (perform (at_ledger 10) 5 (OStake 2 100) funded_vault)))).

Lemma never_overissued_witness :
  get_total_shares busy_vault = 150 /\ get_shares 2 busy_vault = 35 /\ requested 2 busy_vault = 40 /\
  split_total 2 busy_vault = 25 /\ tokenized busy_vault = 50 /\
  (sum_of (fun u => hold u busy_vault) [2%positive; 3%positive] + queued busy_vault + tokenized busy_vault
     <= get_total_shares busy_vault /\
   sum_of (fun u => redeemable u busy_vault) [2%positive; 3%positive] <= get_total_deposited busy_vault).
Proof.
  do 5 (split; [by vm_compute|]). apply (never_overissued funded_vault).
  - intros k Hk. unfold funded_vault. by rewrite !rd_upd_ne by (intros <-; done).
  - unfold busy_vault. do 5 (eapply rtc_r; [|apply step_op]). apply rtc_refl.
  - apply (bool_decide_unpack _). by vm_compute.
Defined.
