(* ===== verification/SunsetProofs.v ===== *)
(** * What the sunset guarantees

    Its stages only advance, one at a time; a forced resolution pays a position
    in full and keeps the share books; a pool that closed has no registered
    staker with shares. *)

From S2P Require Import Prelude Errors Storage Host Events TokenFacts Concrete Accessors Admin Shares RewardMath Accrual.
From S2P Require Import Rewards Checkpoints Balance Pause Limits Mirror Strategies Vault ClaimFees Claims Leaderboard Positions.
From S2P Require Import Accumulator VaultBooks VaultInv PositionProofs Sunset VaultSystem.

Section Stages.
Context {W : World} {B : Bootstrap W} {BL : BootstrapLaws W B} (env : Env) (fuel : nat).
Implicit Types s : State.

Definition stage_number (st : SunsetState) : Z :=
  match st with Active => 0 | SunsetAnnounced => 1 | GracePeriodActive => 2 | ForceResolutionActive => 3 | Closed => 4 end.

Inductive sunset_op :=
| OpAnnounce (a : Address) (l : Z) | OpGrace (a : Address) | OpForce (a : Address)
| OpResolve (a u : Address) | OpClose (a : Address).
Definition sunset_perform (o : sunset_op) : State -> State :=
  match o with
  | OpAnnounce a l => invoke (announce_sunset env a l)
  | OpGrace a => invoke (start_grace_period env a)
  | OpForce a => invoke (start_force_resolution env a)
  | OpResolve a u => invoke (force_resolve_position env fuel a u)
  | OpClose a => invoke (close_pool env a)
  end.

Lemma require_stage_Ok a st s x s' : require_stage env a st s = Ok x s' -> s' = s /\ get_sunset_state s = st /\ rd Admin s = Some a /\ signed env a = true.
Proof.
  unfold require_stage. intros (? & ? & H1 & H)%bind_Ok.
  apply (proj1 (try_Ok _ _ _ _)), require_admin_as_Ok in H1 as (_ & Ha & Hs & _ & ->). unfold reading at 1 in H.
  apply fail_if_Ok in H as (Hst%negb_false_iff%bool_decide_eq_true & _ & ->). done.
Qed.

(** A resolution leaves the stage alone. *)
Lemma resolve_touches a u : touches (fun k => k <> KVot SunsetSt) (force_resolve_position env fuel a u).
Proof.
  unfold force_resolve_position, close_out, require_stage, require_admin_as, get_admin, debit_pool, strike_staker, remove_from_staker_list,
    set_total_deposited, set_reward_pool_balance, set_total_rewards_paid, set_accrued_reward, set_reward_checkpoint_ledger,
    set_last_claim_ledger, set_all_stakers, token_address, assert_non_negative.
  repeat first
    [ eapply touches_weaken; [|apply touches_accrue]; intros k Hk ->; unfold settle_key, accrual_key, accumulator_key in Hk; naive_solver
    | eapply touches_weaken; [|apply set_shares_touches]; intros k [->|[->|[->|(t & [->| ->])]]]; done
    | eapply touches_weaken; [|apply set_total_shares_touches]; intros k [->| ->]; done
    | apply touches_put; discriminate | apply touches_del; discriminate | apply touches_try
    | apply touches_publish | progress frames | progress cbv zeta ].
Qed.

(** ** What a resolution pays *)

Lemma debit_pool_Ok x s a s' : debit_pool x s = Ok a s' ->
  get_reward_pool_balance s' = get_reward_pool_balance s - Z.max 0 x /\ (0 < x -> x <= get_reward_pool_balance s) /\
  st_ext s' = st_ext s /\
  (forall k, k <> KInst RewardPoolBalance -> k <> KInst TotalRewardsPaid -> rd k s' = rd k s).
Proof.
  unfold debit_pool. destruct (Z.ltb_spec 0 x) as [Hx|Hx]; [|intros [_ ->]%ret_Ok; split_and!; try done; lia].
  unfold set_reward_pool_balance, set_total_rewards_paid, assert_non_negative. intros H. unfold reading at 1 in H.
  apply bind_Ok in H as (? & ? & (Hle%Z.ltb_ge & _ & ->)%fail_if_Ok & H).
  apply bind_Ok in H as (v & ? & ((-> & _)%checked_sub_Some & ->)%plain_Ok & H).
  apply bind_Ok in H as (? & ? & (? & ? & (_ & _ & ->)%panic_if_Ok & [_ ->]%put_Ok)%bind_Ok & H). unfold reading at 1 in H.
  apply bind_Ok in H as (v & ? & ((-> & _)%checked_add_Some & ->)%plain_Ok & (? & ? & (_ & _ & ->)%panic_if_Ok & [_ ->]%put_Ok)%bind_Ok).
  split_and!; [|done|done|].
  - unfold get_reward_pool_balance. rdsimp. cbn. unfold get_reward_pool_balance. lia.
  - intros k H1 H2. by rewrite !rd_upd_ne by (intros <-; done).
Qed.

Lemma strike_staker_Ok u s a s' : strike_staker u s = Ok a s' ->
  get_all_stakers s' = filter (fun v => v <> u) (get_all_stakers s) /\ st_ext s' = st_ext s /\
  (forall k, k <> KPers (StakedAtLedger u) -> k <> KInst TotalStakers -> k <> KInst AllStakers -> rd k s' = rd k s).
Proof.
  unfold strike_staker, remove_from_staker_list, set_all_stakers. intros H.
  apply bind_Ok in H as (? & ? & [_ ->]%del_Ok & H). unfold reading at 1 in H.
  apply bind_Ok in H as (? & s2 & H2 & H). unfold reading at 1 in H. apply put_Ok in H as [_ ->].
  assert (Hk : st_ext s2 = st_ext s /\ forall k, k <> KPers (StakedAtLedger u) -> k <> KInst TotalStakers -> rd k s2 = rd k s).
  { destruct (0 <? _); [apply put_Ok in H2 as [_ ->]|apply ret_Ok in H2 as [_ ->]]; (split; [done|]);
      intros k H1 H3; by rewrite ?rd_upd_ne by (intros <-; done). }
  destruct Hk as [He Hk]. split_and!; [|done|].
  - unfold get_all_stakers. rdsimp. cbn. by rewrite Hk.
  - intros k H1 H3 H4. rewrite rd_upd_ne by (intros <-; done). by apply Hk.
Qed.

(** What a forced resolution of the whole position of [u] leaves, where the
    settlement of its rewards ended in [s1]: [r] is paid. *)
Record resolved_at (u token : Address) (principal r : Z) s s1 s' : Prop := {
  ra_paid : r = principal + get_accrued_reward u s1;
  ra_shares : get_shares u s' = 0;
  ra_owed : get_accrued_reward u s' = 0;
  ra_total : get_total_shares s' = get_total_shares s - get_shares u s;
  ra_deposited : get_total_deposited s' = get_total_deposited s - principal;
  ra_pool : get_reward_pool_balance s' = get_reward_pool_balance s - Z.max 0 (get_accrued_reward u s1);
  ra_list : get_all_stakers s' = filter (fun v => v <> u) (get_all_stakers s);
  ra_stage : get_sunset_state s' = ForceResolutionActive;
  ra_token : 0 < r -> tok_transfer (st_ext s) token (self env) u r = Some (st_ext s')
}.

Definition closing_out_key (u : Address) (k : key) : Prop :=
  k = KPers (AccruedReward u) \/ k = KPers (RewardCheckpointLedger u) \/ k = KPos (LastClaimLedger u) \/
  k = KPers (StakedAtLedger u) \/ k = KInst TotalStakers \/ k = KInst AllStakers.

Lemma close_out_Ok u token p x s r s' :
  rd Token s = Some token -> close_out env u p x s = Ok r s' ->
  r = p + x /\ get_accrued_reward u s' = 0 /\
  get_all_stakers s' = filter (fun v => v <> u) (get_all_stakers s) /\
  (0 < r -> tok_transfer (st_ext s) token (self env) u r = Some (st_ext s')) /\
  (forall k, ~ closing_out_key u k -> rd k s' = rd k s).
Proof.
  intros Ht H. unfold close_out, set_accrued_reward, set_reward_checkpoint_ledger, set_last_claim_ledger, assert_non_negative in H.
  apply bind_Ok in H as (? & ? & (? & ? & (_ & _ & ->)%panic_if_Ok & [_ ->]%put_Ok)%bind_Ok & H).
  apply bind_Ok in H as (? & ? & [_ ->]%put_Ok & H). apply bind_Ok in H as (? & ? & [_ ->]%put_Ok & H).
  apply bind_Ok in H as (? & s4 & (Hl & He & Hf)%strike_staker_Ok & H).
  apply bind_Ok in H as (? & ? & ((-> & _)%checked_add_Some & ->)%ok_or_Ok & H).
  apply bind_Ok in H as (? & s5 & H5 & H).
  apply bind_Ok in H as (? & s6 & [_ E6]%publish_Ok & H). apply bind_Ok in H as (? & s7 & [_ E7]%publish_Ok & H).
  apply ret_Ok in H as [-> ->].
  assert (Hk7 : forall k, rd k s7 = rd k s5) by (intros k; by rewrite E7, E6).
  assert (He7 : st_ext s7 = st_ext s5) by (by rewrite E7, E6). clear E6 E7.
  assert (H5' : (forall k, rd k s5 = rd k s4) /\ (0 < p + x -> tok_transfer (st_ext s4) token (self env) u (p + x) = Some (st_ext s5))).
  { destruct (Z.ltb_spec 0 (p + x)) as [Hp|Hp]; [|apply ret_Ok in H5 as [_ ->]; split; [done|lia]].
    apply bind_Ok in H5 as (t & ? & H6 & (w & Hw & _ & ->)%transfer_Ok). split; [intros k|intros _].
    all: apply (proj1 (try_Ok _ _ _ _)) in H6; unfold token_address in H6; unfold reading at 1 in H6.
    all: rewrite Hf, !rd_upd_ne, Ht in H6 by (try discriminate; intros <-; done); apply ret_Ok in H6 as [-> ->].
    - done.
    - exact Hw. }
  destruct H5' as [Hk5 H5']. split_and!; [done|..].
  - unfold get_accrued_reward. rewrite Hk7, Hk5, Hf by discriminate. by rdsimp.
  - unfold get_all_stakers at 1. rewrite Hk7, Hk5. transitivity (get_all_stakers s4); [done|]. by rewrite Hl.
  - intros H0. rewrite He7. rewrite He in H5'. by apply H5'.
  - intros k Hk. unfold closing_out_key in Hk. rewrite Hk7, Hk5, Hf by naive_solver.
    by rewrite !rd_upd_ne by (intros <-; naive_solver).
Qed.

(** The steps of a resolution: the settlement, the pool, the three writes of the
    books, and the rest. *)
Lemma force_resolve_Ok a u r s s' :
  force_resolve_position env fuel a u s = Ok r s' ->
  (rd Admin s = Some a /\ signed env a = true /\ get_sunset_state s = ForceResolutionActive /\ get_shares u s <> 0) /\
  exists s1 s2 s5 principal,
    accrue_rewards env fuel u (get_shares u s) s = Ok tt s1 /\
    st_ext s1 = st_ext s /\ (forall k, ~ settle_key u k -> rd k s1 = rd k s) /\
    shares_to_amount (get_total_shares s1) (get_total_deposited s1) (get_shares u s) = Some principal /\
    get_reward_pool_balance s2 = get_reward_pool_balance s1 - Z.max 0 (get_accrued_reward u s1) /\ st_ext s2 = st_ext s1 /\
    (forall k, k <> KInst RewardPoolBalance -> k <> KInst TotalRewardsPaid -> rd k s2 = rd k s1) /\
    rewritten s2 s5 u 0 (get_total_shares s1 - get_shares u s) (get_total_deposited s1 - principal) /\ st_ext s5 = st_ext s2 /\
    (forall k, ~ share_write_keys u k -> k <> KInst TotalShares -> k <> KInst TotalDeposited ->
       k <> KPers TotalCheckpoints -> rd k s5 = rd k s2) /\
    close_out env u principal (get_accrued_reward u s1) s5 = Ok r s'.
Proof.
  intros H. unfold force_resolve_position in H.
  apply bind_Ok in H as (? & ? & (-> & Hst & Ha & Hs)%require_stage_Ok & H). unfold reading at 1 in H.
  apply bind_Ok in H as (? & ? & (Hz%Z.eqb_neq & _ & ->)%fail_if_Ok & H).
  apply bind_Ok in H as ([] & s1 & H1 & H). apply (proj1 (try_Ok _ _ _ _)) in H1.
  assert (He1 := keeps_ext_Ok _ _ _ _ (keeps_accrue env fuel _ _) H1).
  assert (Hf1 : forall k, ~ settle_key u k -> rd k s1 = rd k s)
    by (intros k; apply (touches_Ok _ _ _ _ _ _ (touches_accrue env fuel _ _) H1)).
  do 3 unfold reading at 1 in H.
  apply bind_Ok in H as (principal & ? & (Hp & ->)%ok_or_Ok & H).
  apply bind_Ok in H as ([] & s2 & (Hpool & Hle & He2 & Hf2)%debit_pool_Ok & H).
  apply bind_Ok in H as ([] & s3 & H3 & H).
  apply bind_Ok in H as (t & ? & ((-> & _)%checked_sub_Some & ->)%plain_Ok & H).
  apply bind_Ok in H as ([] & s4 & H4 & H).
  apply bind_Ok in H as (d & ? & ((-> & _)%checked_sub_Some & ->)%plain_Ok & H).
  apply bind_Ok in H as ([] & s5 & H5 & H).
  destruct (three_writes _ _ _ _ _ _ _ _ _ _ _ _ _ H3 H4 H5) as (Hrw & He5 & Hf5).
  split; [done|]. by exists s1, s2, s5, principal.
Qed.

(** C5. A forced resolution that succeeds was asked by the administrator at the
    stage for it and pays the whole position: the deposited value of its shares
    and, from the reward pool, the reward settled for it.  The share totals
    shrink by exactly that, the staker leaves the registry, the share books hold
    as before, and the pool's tokens move once. *)
Theorem force_resolve_exact (a u token : Address) (r : Z) s s' :
  rd Token s = Some token -> books s -> force_resolve_position env fuel a u s = Ok r s' ->
  rd Admin s = Some a /\ signed env a = true /\ get_sunset_state s = ForceResolutionActive /\ 0 < get_shares u s /\
  books s' /\
  exists s1 principal,
    accrue_rewards env fuel u (get_shares u s) s = Ok tt s1 /\
    shares_to_amount (get_total_shares s) (get_total_deposited s) (get_shares u s) = Some principal /\
    resolved_at u token principal r s s1 s'.
Proof.
  intros Ht HB H. destruct (force_resolve_Ok _ _ _ _ _ H) as ((Ha & Hs & Hst & Hz) & s1 & s2 & s5 & principal &
    H1 & He1 & Hf1 & Hp & Hpool & He2 & Hf2 & Hrw & He5 & Hf5 & Hout). clear H.
  assert (Hpos : 0 < get_shares u s) by (pose proof (bk_shares s HB u); lia).
  assert (Hfar : forall k, ~ settle_key u k -> ~ share_write_keys u k -> k <> KInst TotalShares ->
    k <> KInst TotalDeposited -> k <> KPers TotalCheckpoints -> k <> KInst RewardPoolBalance -> k <> KInst TotalRewardsPaid ->
    rd k s5 = rd k s) by (intros; by rewrite Hf5, Hf2, Hf1).
  apply (close_out_Ok u token) in Hout as (Hr & Ha' & Hl' & Ht' & Hf');
    [|rewrite Hfar, Ht; [done|..]; unfold settle_key, accrual_key, accumulator_key, share_write_keys; naive_solver].
  assert (Hs1 : same_books s s1) by (intros k Hk; by apply Hf1, books_not_settled).
  assert (Hs2 : same_books s s2) by (intros k Hk; rewrite Hf2, <- (Hs1 k Hk); [done|..]; intros ->; done).
  rewrite (same_total _ _ Hs1), (same_deposited _ _ Hs1) in *.
  assert (HB5 : books s5).
  { eapply rewritten_books; [exact (books_same _ _ Hs2 HB)|exact Hrw|].
    rewrite (same_shares _ _ u Hs2), (same_total _ _ Hs2). lia. }
  destruct Hrw as (Hsh & Htot & Hdep & _).
  assert (Hs5 : same_books s5 s') by (intros k Hk; apply Hf'; unfold closing_out_key; naive_solver).
  split_and!; [done..|by apply (books_same s5)|]. exists s1, principal. split_and!; [done..|]. constructor; [done|..].
  - by rewrite (same_shares _ _ u Hs5).
  - done.
  - by rewrite (same_total _ _ Hs5).
  - by rewrite (same_deposited _ _ Hs5).
  - unfold get_reward_pool_balance in *. rewrite Hf', Hf5, Hpool, Hf1; [done|..];
      unfold settle_key, accrual_key, accumulator_key, closing_out_key, share_write_keys; naive_solver.
  - rewrite Hl'. unfold get_all_stakers. rewrite Hfar; [done|..];
      unfold settle_key, accrual_key, accumulator_key, share_write_keys; naive_solver.
  - rewrite <- Hst. unfold get_sunset_state. rewrite Hf', Hfar; [done|..];
      unfold settle_key, accrual_key, accumulator_key, closing_out_key, share_write_keys; naive_solver.
  - intros H0. rewrite <- (Ht' H0). congruence.
Qed.

Lemma advance_Ok st s x s' : (set_sunset_state st ;;; sunset_stage_changed (E:=VaultFeatureError.t) env st (sequence env)) s = Ok x s' ->
  get_sunset_state s' = st.
Proof. intros (? & ? & [_ ->]%put_Ok & [_ ->]%publish_Ok)%bind_Ok. unfold get_sunset_state. by rdsimp. Qed.

(** The caller of an operation. *)
Definition sunset_caller (o : sunset_op) : Address :=
  match o with OpAnnounce a _ | OpGrace a | OpForce a | OpResolve a _ | OpClose a => a end.

(** The stage after an operation that moved it, and what allowed the move. *)
Record advanced (o : sunset_op) s s' : Prop := {
  ad_next : stage_number (get_sunset_state s') = stage_number (get_sunset_state s) + 1;
  ad_admin : rd Admin s = Some (sunset_caller o) /\ signed env (sunset_caller o) = true;
  ad_grace : get_sunset_state s' = ForceResolutionActive -> default 0 (get_grace_period_end s) <= sequence env;
  ad_closed : get_sunset_state s' = Closed -> Forall (fun u => get_shares u s <= 0) (get_all_stakers s)
}.

(** C11. The stages of the sunset only move forward, one at a time, and only when
    the administrator signs: an operation leaves the stage as it is or advances
    it by one.  Forced resolutions begin only when the announced grace period is
    over, and the pool closes only when no registered staker has shares. *)
Theorem sunset_one_way (o : sunset_op) s :
  get_sunset_state (sunset_perform o s) = get_sunset_state s \/ advanced o s (sunset_perform o s).
Proof.
  destruct o as [a l|a|a|a u|a]; cbn [sunset_perform]; unfold invoke.
  - destruct (announce_sunset env a l s) as [x s'|?|?] eqn:H; [right|by left..].
    apply bind_Ok in H as (? & ? & (-> & Hst & Ha & Hs)%require_stage_Ok & H). cbv zeta in H.
    apply bind_Ok in H as (? & ? & [_ ->]%put_Ok & H). apply bind_Ok in H as (? & ? & [_ ->]%put_Ok & H).
    apply bind_Ok in H as (? & ? & [_ ->]%publish_Ok & [_ ->]%publish_Ok).
    assert (Hst' : forall y, get_sunset_state y = SunsetAnnounced -> advanced (OpAnnounce a l) s y).
    { intros y Hy. constructor; rewrite ?Hy, ?Hst; done. }
    apply Hst'. unfold get_sunset_state. by rdsimp.
  - destruct (start_grace_period env a s) as [x s'|?|?] eqn:H; [right|by left..].
    apply bind_Ok in H as (? & ? & (-> & Hst & Ha & Hs)%require_stage_Ok & H%advance_Ok).
    constructor; rewrite ?H, ?Hst; done.
  - destruct (start_force_resolution env a s) as [x s'|?|?] eqn:H; [right|by left..].
    apply bind_Ok in H as (? & ? & (-> & Hst & Ha & Hs)%require_stage_Ok & H). unfold reading at 1 in H. cbv zeta in H.
    apply bind_Ok in H as (? & ? & (Hg%Z.ltb_ge & _ & ->)%fail_if_Ok & H%advance_Ok).
    constructor; rewrite ?H, ?Hst; done.
  - left. destruct (force_resolve_position env fuel a u s) as [x s'|?|?] eqn:H; [|done..].
    unfold get_sunset_state. rewrite (touches_Ok _ _ _ _ _ (KVot SunsetSt) (resolve_touches a u) H); [done|]. by intros [].
  - destruct (close_pool env a s) as [x s'|?|?] eqn:H; [right|by left..].
    apply bind_Ok in H as (? & ? & (-> & Hst & Ha & Hs)%require_stage_Ok & H). unfold reading at 1 in H.
    apply bind_Ok in H as (? & ? & (Hg & _ & ->)%fail_if_Ok & H%advance_Ok).
    constructor; rewrite ?H, ?Hst; [done..|]. intros _. apply Forall_forall. intros v Hv%list_elem_of_In.
    destruct (Z.ltb_spec 0 (get_shares v s)) as [Hp|]; [|done].
    assert (existsb (fun staker => 0 <? get_shares staker s) (get_all_stakers s) = true); [|congruence].
    apply existsb_exists. exists v. split; [done|by apply Z.ltb_lt].
Qed.

End Stages.

(** ** On a concrete vault *)

#[local] Existing Instance no_bootstrap.
#[local] Existing Instance no_bootstrap_laws.

(** Two stakers, the reward of one not yet settled, and the resolution stage. *)
Definition winding_base : State (W := token_world) :=
  perform (at_ledger 12) 0 (OStake 3 1000000000) (perform (at_ledger 10) 0 (OStake 2 5000000000)
    (upd Token (Some 9%positive) (upd Admin (Some 7%positive) (start_state (fun _ _ => 9000000000))))).
Definition winding : State (W := token_world) :=
  upd SunsetSt (Some ForceResolutionActive) (upd (RewardCheckpointLedger 2) (Some 10) (upd (StakedAtLedger 2) (Some 10)
    (upd RewardPoolBalance (Some 4000) (upd RewardRateBps (Some 700) winding_base)))).
Lemma winding_books : books winding.
Proof.
  apply (books_same winding_base).
  - intros k Hk. unfold winding. by rewrite !rd_upd_ne by (intros <-; done).
  - unfold winding_base. do 2 apply perform_books. apply fresh_books. intros k Hk.
    by rewrite !rd_upd_ne by (intros <-; done).
Qed.

(** The five thousand million staked and the 2774 owed leave at once. *)
Lemma force_resolve_exact_witness :
  exists s', force_resolve_position (at_ledger 60) 60 7 2 winding = Ok 5000002774 s' /\
    get_shares 2 s' = 0 /\ books s' /\ get_all_stakers s' = [3%positive].
Proof.
  destruct (succeeds_run (force_resolve_position (at_ledger 60) 60 7 2 winding) (fun r _ => r =? 5000002774))
    as (r & s' & H & Hr%Z.eqb_eq); [by vm_compute|]. subst r. exists s'. split; [exact H|].
  destruct (force_resolve_exact (at_ledger 60) 60 7 2 9 5000002774 winding s') as (_ & _ & _ & _ & HB & s1 & p & _ & _ & HR);
    [reflexivity|exact winding_books|exact H|].
  split; [exact (ra_shares _ _ _ _ _ _ _ _ HR)|]. split; [exact HB|].
  rewrite (ra_list _ _ _ _ _ _ _ _ HR). by vm_compute.
Defined.

(** The grace period of an announced sunset ends at ledger 50: at 49 the stage
    stays, at 50 forced resolutions begin. *)
Definition in_grace : State (W := token_world) :=
  upd SunsetSt (Some GracePeriodActive) (upd GracePeriodEnd (Some 50) winding_base).
Lemma sunset_one_way_witness :
  get_sunset_state (sunset_perform (at_ledger 49) 0 (OpForce 7%positive) in_grace) = GracePeriodActive /\
  advanced (at_ledger 50) (OpForce 7%positive) in_grace (sunset_perform (at_ledger 50) 0 (OpForce 7%positive) in_grace).
Proof.
  split; [by vm_compute|]. destruct (sunset_one_way (at_ledger 50) 0 (OpForce 7%positive) in_grace) as [H|H]; [|exact H].
  assert (get_sunset_state (sunset_perform (at_ledger 50) 0 (OpForce 7%positive) in_grace) <> get_sunset_state in_grace) as Hne
    by (by vm_compute). by destruct (Hne H).
Defined.
