(* ===== verification/HealthCheck.v ===== *)
(** * The accounting check ([invariants.rs])

    [check_invariants] runs every check and returns the first violation;
    [assert_invariants] is the public entrypoint.  [healthy] says what the
    checks amount to, and the theorems compare the two, and the check with what
    splits and transfers leave behind. *)

From S2P Require Import Prelude Errors Storage Host Concrete Accessors Admin Shares RewardMath MultiReward.
From S2P Require Import Accumulator Accrual Rewards Checkpoints Balance Pause RewardRate Limits Notify Mirror.
From S2P Require Import Strategies Vault ClaimFees Peg Claims Leaderboard Positions VaultBooks VaultInv PositionProofs.

Section Check.
Context {W : World} (env : Env).
Implicit Types s : State.

(** The loop over the registry. *)
Fixpoint sum_stakers (stakers : list Address) (share_sum : Z) : M VaultFeature4Error.t Z :=
  match stakers with
  | [] => ret share_sum
  | staker :: stakers =>
      let& shares := get_shares staker in
      fail_if (shares <? 0) VaultFeature4Error.NegativeAccounting ;;;
      let! share_sum := ok_or (checked_add share_sum shares) VaultFeature4Error.SharesMismatch in
      sum_stakers stakers share_sum
  end.

Definition check_invariants : M VaultFeature4Error.t unit :=
  let& total_shares := get_total_shares in
  let& total_deposited := get_total_deposited in
  let& reward_pool := get_reward_pool_balance in
  fail_if ((total_shares <? 0) || (total_deposited <? 0) || (reward_pool <? 0))
    VaultFeature4Error.NegativeAccounting ;;;
  let& stakers := get_all_stakers in
  let! share_sum := sum_stakers stakers 0 in
  fail_if (negb (share_sum =? total_shares)) VaultFeature4Error.SharesMismatch ;;;
  let& token := rd Token in
  let! stake_token := ok_or token VaultFeature4Error.NotInitialized in
  let& reward_token := get_reward_token in
  let! required :=
    if bool_decide (reward_token = Some stake_token)
    then ok_or (checked_add total_deposited reward_pool) VaultFeature4Error.Undercollateralized
    else ret total_deposited in
  let& held := balance_of stake_token (self env) in
  fail_if (held <? required) VaultFeature4Error.Undercollateralized.

Definition assert_invariants : M VaultFeature4Error.t unit := check_invariants.

(** ** What it checks *)

Definition registered_shares s : Z := sum_of (fun u => get_shares u s) (get_all_stakers s).
Definition required_backing (token : Address) s : Z :=
  get_total_deposited s + (if bool_decide (get_reward_token s = Some token) then get_reward_pool_balance s else 0).

Record in_order s : Prop := {
  io_shares : 0 <= get_total_shares s;
  io_deposited : 0 <= get_total_deposited s;
  io_pool : 0 <= get_reward_pool_balance s;
  io_stakers : Forall (fun u => 0 <= get_shares u s) (get_all_stakers s)
}.

Lemma sum_stakers_spec stakers n s :
  Forall (fun u => 0 <= get_shares u s) stakers -> 0 <= n ->
  sum_stakers stakers n s =
    (if n + sum_of (fun u => get_shares u s) stakers <=? i128_max
     then Ok (n + sum_of (fun u => get_shares u s) stakers) s
     else match stakers with
          | [] => Ok n s
          | _ => Err VaultFeature4Error.SharesMismatch s
          end).
Proof.
  pose proof i128_bounds as Hi. intros Hall. revert n. induction Hall as [|u stakers Hu Hall IH]; intros n Hn.
  - cbn. rewrite Z.add_0_r. by destruct (_ <=? _).
  - cbn [sum_stakers]. unfold reading. rewrite (proj2 (Z.ltb_ge _ _)) by done.
    unfold fail_if at 1, bind at 1, ret at 1. simpl sum_of.
    pose proof (sum_of_nonneg (fun u => get_shares u s) stakers Hall) as Hs.
    destruct (Z.leb_spec (n + get_shares u s) i128_max).
    + unfold checked_add. rewrite to_i128_in by (unfold in_i128; lia). unfold ok_or, bind, ret at 1.
      rewrite IH by lia. rewrite Z.add_assoc. destruct (_ <=? _) eqn:Hle; [done|].
      destruct stakers; [|done]. apply Z.leb_gt in Hle. simpl in Hle. lia.
    + rewrite (proj2 (Z.leb_gt _ _)) by lia. unfold checked_add.
      destruct (to_i128 _) eqn:Ht; [|done]. apply to_i128_Some in Ht as [-> Ht]. unfold in_i128 in Ht. lia.
Qed.

(** The loop ends well only on shares that are not negative. *)
Lemma sum_stakers_Ok stakers n s r s' :
  sum_stakers stakers n s = Ok r s' ->
  s' = s /\ Forall (fun u => 0 <= get_shares u s) stakers /\ r = n + sum_of (fun u => get_shares u s) stakers.
Proof.
  revert n. induction stakers as [|u stakers IH]; intros n; cbn [sum_stakers].
  - intros [-> ->]%ret_Ok. split; [done|]. split; [constructor|simpl; lia].
  - unfold reading. intros (? & ? & (Hu%Z.ltb_ge & _ & ->)%fail_if_Ok & H)%bind_Ok.
    apply bind_Ok in H as (m & ? & [[-> _]%checked_add_Some ->]%ok_or_Ok & H).
    apply IH in H as (-> & Hall & ->). split; [done|]. split; [by constructor|simpl; lia].
Qed.

(** A staker with negative shares, reached before the sum overflows. *)
Definition negative_staker (n : Z) (stakers : list Address) s : Prop :=
  exists l1 u l2, stakers = l1 ++ u :: l2 /\ Forall (fun v => 0 <= get_shares v s) l1 /\
    n + sum_of (fun v => get_shares v s) l1 <= i128_max /\ get_shares u s < 0.

Lemma sum_stakers_negative stakers n s :
  0 <= n <= i128_max ->
  sum_stakers stakers n s = Err VaultFeature4Error.NegativeAccounting s <-> negative_staker n stakers s.
Proof.
  pose proof i128_bounds as Hi. revert n. induction stakers as [|u stakers IH]; intros n Hn; cbn [sum_stakers].
  - split; [done|]. intros (l1 & u & l2 & Hl & _). by destruct l1.
  - unfold reading, fail_if. destruct (Z.ltb_spec (get_shares u s) 0) as [Hu|Hu].
    { split; [|done]. intros _. exists [], u, stakers. split; [done|]. split; [constructor|]. simpl. split; [lia|done]. }
    unfold bind at 1, ret at 1. unfold checked_add.
    assert (Hcons : negative_staker n (u :: stakers) s <-> negative_staker (n + get_shares u s) stakers s).
    { split.
      - intros ([|v l1] & w & l2 & [= -> Hl] & Hf & Hs & Hw); [lia|]. apply Forall_cons in Hf as [_ Hf].
        exists l1, w, l2. simpl in Hs. split_and!; [done..|lia|done].
      - intros (l1 & w & l2 & -> & Hf & Hs & Hw). exists (u :: l1), w, l2. simpl. split_and!; [done|by constructor|lia|done]. }
    rewrite Hcons. destruct (Z.leb_spec (n + get_shares u s) i128_max) as [Hle|Hgt].
    + rewrite to_i128_in by (unfold in_i128; lia). unfold ok_or, bind, ret at 1. apply IH. lia.
    + destruct (to_i128 _) eqn:Ht; [apply to_i128_Some in Ht as [-> Ht]; unfold in_i128 in Ht; lia|].
      split; [done|]. intros (l1 & w & l2 & _ & Hf & Hs & _). pose proof (sum_of_nonneg _ l1 Hf). lia.
Qed.

(** The whole run. *)
Lemma check_run token s :
  in_order s -> get_total_shares s <= i128_max -> rd Token s = Some token -> balance_of token (self env) s <= i128_max ->
  assert_invariants s =
    if negb (registered_shares s =? get_total_shares s) then Err VaultFeature4Error.SharesMismatch s
    else if balance_of token (self env) s <? required_backing token s
         then Err VaultFeature4Error.Undercollateralized s else Ok tt s.
Proof.
  intros [H1 H2 H3 H4] HT Ht Hmax. pose proof i128_bounds as Hi.
  unfold assert_invariants, check_invariants, reading.
  rewrite !(proj2 (Z.ltb_ge _ _)) by lia. cbn [orb]. unfold fail_if at 1, bind at 1, ret at 1.
  unfold bind at 1. rewrite sum_stakers_spec by (done || lia). rewrite Z.add_0_l. fold (registered_shares s).
  destruct (Z.leb_spec (registered_shares s) i128_max) as [Hr|Hr].
  - destruct (Z.eqb_spec (registered_shares s) (get_total_shares s)); [|done]. cbn [negb].
    unfold fail_if at 1, bind at 1, ret at 1. rewrite Ht. unfold ok_or at 1, bind at 1, ret at 1.
    unfold required_backing.
    destruct (decide (get_reward_token s = Some token)) as [He|He];
      [rewrite !(bool_decide_eq_true_2 _ He)|rewrite !(bool_decide_eq_false_2 _ He)].
    + unfold checked_add. destruct (decide (get_total_deposited s + get_reward_pool_balance s <= i128_max)).
      * rewrite to_i128_in by (unfold in_i128; lia). unfold ok_or, bind, ret, fail_if. by destruct (_ <? _).
      * rewrite (proj2 (Z.ltb_lt _ _)) by lia.
        destruct (to_i128 _) eqn:Ho; [|done]. apply to_i128_Some in Ho as [-> Ho]. unfold in_i128 in Ho. lia.
    + rewrite Z.add_0_r. unfold bind, ret, fail_if. by destruct (_ <? _).
  - rewrite (proj2 (Z.eqb_neq (registered_shares s) _)) by lia. cbn [negb].
    unfold registered_shares in Hr. destruct (get_all_stakers s); [simpl in Hr; lia|done].
Qed.

(** A check that ends well found the amounts in order. *)
Lemma check_Ok s x s' : assert_invariants s = Ok x s' -> in_order s.
Proof.
  unfold assert_invariants, check_invariants, reading.
  intros (? & ? & (H1 & _ & ->)%fail_if_Ok & H)%bind_Ok.
  apply orb_false_iff in H1 as [[H1%Z.ltb_ge H2%Z.ltb_ge]%orb_false_iff H3%Z.ltb_ge].
  by apply bind_Ok in H as (? & ? & (_ & Hall & _)%sum_stakers_Ok & _).
Qed.

Lemma check_negative s :
  assert_invariants s = Err VaultFeature4Error.NegativeAccounting s <->
  get_total_shares s < 0 \/ get_total_deposited s < 0 \/ get_reward_pool_balance s < 0 \/
  negative_staker 0 (get_all_stakers s) s.
Proof.
  pose proof i128_bounds as Hi. rewrite <- sum_stakers_negative by lia.
  unfold assert_invariants, check_invariants, reading.
  destruct (Z.ltb_spec (get_total_shares s) 0); [by split; [left|]|].
  destruct (Z.ltb_spec (get_total_deposited s) 0); [by split; [right; left|]|].
  destruct (Z.ltb_spec (get_reward_pool_balance s) 0); [by split; [right; right; left|]|]. cbn [orb].
  unfold fail_if at 1, bind at 1, ret at 1. unfold bind at 1.
  destruct (sum_stakers (get_all_stakers s) 0 s) as [r s1|e s1|t] eqn:Hs;
    [apply sum_stakers_Ok in Hs as [-> _]|split; [intros [= -> ->]; by do 3 right|intros [?|[?|[?|[= -> ->]]]]; (lia || done)]|split; [done|intros [?|[?|[?|?]]]; (lia || done)]].
  split; [|intros [?|[?|[?|?]]]; lia || done]. intros Hc. exfalso. revert Hc.
  unfold bind, fail_if, ok_or, ret, throw. destruct (negb _); [done|]. destruct (rd Token s); [|done].
  destruct (bool_decide _); [destruct (checked_add _ _); [|done]|]; by destruct (_ <? _).
Qed.

(** C30. The check is exact.  For a vault with a token, whose stored total and
    whose balance are within 128 bits, [assert_invariants] succeeds exactly if
    the totals, the reward pool and the shares of every registered staker are
    non-negative, the shares of the registered stakers sum to the total, and
    the vault's balance of the stake token covers the deposits - plus the reward
    pool if the stake token is also set as the reward token.  It answers
    [NegativeAccounting] exactly if a total or the pool is negative or a staker
    with negative shares is reached before the sum overflows; on amounts in
    order it names the share mismatch first and the missing tokens second; and
    it never changes the state.  (With no reward token set, rewards are paid in
    the stake token, but the pool is not counted.) *)
Theorem check_is_exact (token : Address) (s : State) :
  rd Token s = Some token -> get_total_shares s <= i128_max -> balance_of token (self env) s <= i128_max ->
  (forall s', assert_invariants s = Ok tt s' <-> s' = s /\
     in_order s /\ registered_shares s = get_total_shares s /\ required_backing token s <= balance_of token (self env) s) /\
  (assert_invariants s = Err VaultFeature4Error.NegativeAccounting s <->
     get_total_shares s < 0 \/ get_total_deposited s < 0 \/ get_reward_pool_balance s < 0 \/
     negative_staker 0 (get_all_stakers s) s) /\
  (in_order s -> registered_shares s <> get_total_shares s ->
     assert_invariants s = Err VaultFeature4Error.SharesMismatch s) /\
  (in_order s -> registered_shares s = get_total_shares s -> balance_of token (self env) s < required_backing token s ->
     assert_invariants s = Err VaultFeature4Error.Undercollateralized s).
Proof.
  intros Ht HT Hmax. split; [|split; [apply check_negative|]].
  - intros s'. split.
    + intros H. pose proof (check_Ok _ _ _ H) as Hio. rewrite (check_run token) in H by done.
      destruct (Z.eqb_spec (registered_shares s) (get_total_shares s)); [|done]. cbn [negb] in H.
      destruct (Z.ltb_spec (balance_of token (self env) s) (required_backing token s)); [done|]. by injection H as <-.
    + intros (-> & Hio & He & Hb). rewrite (check_run token) by done.
      by rewrite (proj2 (Z.eqb_eq _ _) He), (proj2 (Z.ltb_ge _ _) Hb).
  - split; intros Hio; rewrite (check_run token) by done;
      destruct (Z.eqb_spec (registered_shares s) (get_total_shares s)); cbn [negb];
      destruct (Z.ltb_spec (balance_of token (self env) s) (required_backing token s)); done || lia.
Qed.

End Check.

(** ** Sound books the check rejects *)

Section Rejected.
Context {W : World} {B : Bootstrap W} {BL : BootstrapLaws W B} (env : Env) (fuel : nat).
Implicit Types s : State.

(** A state that differs from a checked one in fewer registered shares. *)
Lemma fewer_registered token s s' :
  in_order s -> get_total_shares s <= i128_max -> rd Token s = Some token -> balance_of token (self env) s <= i128_max ->
  assert_invariants env s = Ok tt s ->
  (forall k, k = KInst TotalShares \/ k = KInst TotalDeposited \/ k = KInst RewardPoolBalance \/ k = KInst Token ->
     rd k s' = rd k s) -> st_ext s' = st_ext s ->
  Forall (fun v => 0 <= get_shares v s') (get_all_stakers s') -> registered_shares s' < registered_shares s ->
  assert_invariants env s' = Err VaultFeature4Error.SharesMismatch s' /\ get_total_shares s' = get_total_shares s.
Proof.
  intros Hio HT Ht Hmax Hok Hf He Hn Hlt.
  rewrite (check_run env token) in Hok by done.
  destruct (Z.eqb_spec (registered_shares s) (get_total_shares s)) as [Hsum|]; [|done]. clear Hok.
  destruct Hio as [I1 I2 I3 I4].
  assert (T : get_total_shares s' = get_total_shares s) by (unfold get_total_shares; by rewrite Hf by auto).
  split; [|done]. rewrite (check_run env token); [| |by rewrite T|by rewrite Hf by auto|].
  - by rewrite (proj2 (Z.eqb_neq _ _)) by lia.
  - split; [by rewrite T| | |done].
    + unfold get_total_deposited. by rewrite Hf by auto.
    + unfold get_reward_pool_balance. by rewrite Hf by auto.
  - unfold balance_of. by rewrite He.
Qed.

Lemma split_registered u x n s s' :
  split_position env fuel u 0 x s = Ok n s' -> NoDup (get_all_stakers s) -> u ∈ get_all_stakers s ->
  0 < x /\ registered_shares s' = registered_shares s - x /\ hold u s' = hold u s /\
  get_all_stakers s' = get_all_stakers s /\ 0 <= get_shares u s' /\
  (forall v, v <> u -> get_shares v s' = get_shares v s) /\
  (forall k, k = KInst TotalShares \/ k = KInst TotalDeposited \/ k = KInst RewardPoolBalance \/ k = KInst Token ->
     rd k s' = rd k s) /\ st_ext s' = st_ext s.
Proof.
  intros H Hnd Hu. apply split_position_Ok in H as (amt & st & Hp & Hx & _ & Hr).
  assert (amt = get_shares u s) as ->.
  { unfold position_of in Hp. cbn in Hp. destruct (_ <=? 0); [done|]. by injection Hp. }
  destruct Hr as [H1 _ H2 Hb Hs He]. cbn in H1, H2.
  assert (Hsh : forall v, v <> u -> get_shares v s' = get_shares v s).
  { intros v Hv. unfold get_shares. by rewrite Hb by first [done|congruence]. }
  assert (Hreg : get_all_stakers s' = get_all_stakers s) by (unfold get_all_stakers; by rewrite Hs).
  split; [lia|]. split.
  { unfold registered_shares. rewrite Hreg.
    rewrite (sum_of_change (fun v => get_shares v s) (fun v => get_shares v s') _ u); [lia|done..|].
    intros v Hv. by rewrite Hsh. }
  split; [|split; [done|split; [lia|split; [done|split; [|done]]]]].
  - assert (requested u s' = requested u s) as Hq by (unfold requested, get_request; by rewrite Hb).
    unfold hold, own, split_total. rewrite H1, H2, Hq, sum_of_app. simpl. lia.
  - intros k [->|[->|[->| ->]]]; [by apply Hb..|by apply Hs|by apply Hs].
Qed.

Lemma transfer_registered u to r s s' :
  transfer_position env u to s = Ok r s' -> NoDup (get_all_stakers s) -> u ∈ get_all_stakers s ->
  to ∉ get_all_stakers s ->
  0 < get_shares u s /\ registered_shares s' = registered_shares s - get_shares u s /\
  (0 <= get_shares to s -> hold u s' + hold to s' = hold u s + hold to s) /\
  get_all_stakers s' = get_all_stakers s /\ get_shares u s' = 0 /\
  (forall v, v ∈ get_all_stakers s -> v <> u -> get_shares v s' = get_shares v s) /\
  (forall k, k = KInst TotalShares \/ k = KInst TotalDeposited \/ k = KInst RewardPoolBalance \/ k = KInst Token ->
     rd k s' = rd k s) /\ st_ext s' = st_ext s.
Proof.
  intros H Hnd Hu Hto. apply transfer_position_Ok in H as [_ Hm].
  pose proof (rl_frame _ _ _ _ (moved_relocated _ _ _ _ _ _ _ Hm)) as Hb.
  assert (Ho : forall k, beside k = true -> (forall v, k <> KPers (StakedAtLedger v)) -> rd k s' = rd k s).
  { intros k Hk Hv. apply (mv_frame _ _ _ _ _ _ _ Hm). unfold move_key, owner_key.
    intros [[Hc|Hc]|[[Hc|Hc]|[Hc|Hc]]]; first [by apply (beside_not_shares _ _ Hk) in Hc | idtac];
      destruct k as [[]|[]| [] | | | |[]| | | | ]; try done; by apply (Hv u0). }
  destruct Hm as [M1 M2 M3 M4 M5 _ _ _ _ He].
  assert (Hsh : forall v, v ∈ get_all_stakers s -> v <> u -> get_shares v s' = get_shares v s).
  { intros v Hv Hvu. assert (v <> to) by (intros ->; done). unfold get_shares.
    by rewrite Hb by first [done|congruence]. }
  assert (Hreg : get_all_stakers s' = get_all_stakers s) by (unfold get_all_stakers; by rewrite Ho).
  split; [lia|]. split.
  { unfold registered_shares. rewrite Hreg.
    rewrite (sum_of_ext (fun v => get_shares v s') (fun v => if bool_decide (v = u) then 0 else get_shares v s)).
    - rewrite (sum_of_change (fun v => get_shares v s) _ _ u);
        [rewrite bool_decide_eq_true_2 by done; lia|done..|].
      intros v Hv. by rewrite bool_decide_eq_false_2.
    - intros v Hv. case_bool_decide as Hvu; [by subst v|by apply Hsh]. }
  split; [|split; [done|split; [done|split; [done|split; [|done]]]]].
  - intros Hto0. assert (Hq : forall v, requested v s' = requested v s)
      by (intros; unfold requested, get_request; by rewrite Hb).
    assert (Hsp : forall v, get_split_positions v s' = get_split_positions v s)
      by (intros; unfold get_split_positions; by rewrite Hb).
    unfold hold, own, split_total. rewrite !Hq, !Hsp, M4, M5. lia.
  - intros k [->|[->|[->| ->]]]; [by apply Hb..|by apply Ho|by apply Ho].
Qed.

(** The check and the operations on positions disagree.  From a state
    that passes the check, with each staker registered once: a successful
    split of the primary position of a registered user, and a successful
    transfer of a registered user's position to an address that is not
    registered, leave a state that the check rejects with [SharesMismatch],
    although neither changes the total or what all users hold together: split
    shares are not in the share balances the check sums, and a transfer
    registers nobody. *)
Theorem check_rejects_splits_and_transfers (token u to : Address) (x n r : Z) (s s1 s2 : State) :
  in_order s -> get_total_shares s <= i128_max -> rd Token s = Some token -> balance_of token (self env) s <= i128_max ->
  assert_invariants env s = Ok tt s -> NoDup (get_all_stakers s) ->
  u ∈ get_all_stakers s -> to ∉ get_all_stakers s -> 0 <= get_shares to s ->
  split_position env fuel u 0 x s = Ok n s1 -> transfer_position env u to s = Ok r s2 ->
  assert_invariants env s1 = Err VaultFeature4Error.SharesMismatch s1 /\
  assert_invariants env s2 = Err VaultFeature4Error.SharesMismatch s2 /\
  get_total_shares s1 = get_total_shares s /\ hold u s1 = hold u s /\
  get_total_shares s2 = get_total_shares s /\ hold u s2 + hold to s2 = hold u s + hold to s.
Proof.
  intros Hio HT Ht Hmax Hok Hnd Hu Hto Hto0 H1 H2.
  pose proof (io_stakers _ Hio) as Hall. rewrite Forall_forall in Hall.
  apply split_registered in H1 as (X1 & X2 & X3 & X4 & X5 & X6 & X7 & X8); [|done..].
  apply transfer_registered in H2 as (Y1 & Y2 & Y3 & Y4 & Y5 & Y6 & Y7 & Y8); [|done..].
  destruct (fewer_registered token s s1) as [C1 T1]; try done; [|lia|].
  { rewrite X4. apply Forall_forall. intros v Hv. destruct (decide (v = u)) as [->|Hne]; [done|].
    rewrite X6 by done. by apply Hall. }
  destruct (fewer_registered token s s2) as [C2 T2]; try done; [|lia|].
  { rewrite Y4. apply Forall_forall. intros v Hv. destruct (decide (v = u)) as [->|Hne]; [lia|].
    rewrite Y6 by done. by apply Hall. }
  auto 10.
Qed.

End Rejected.

(** ** Witnesses *)

#[local] Existing Instances no_bootstrap no_bootstrap_laws.

Definition checked_vault : State (W := token_world) :=
  upd Token (Some 9%positive) (set_ext (W := token_world) (fun _ _ => 1000) three_stakers).

Lemma checked_in_order : in_order checked_vault.
Proof.
  split; [by vm_compute..|].
  repeat (constructor; [by vm_compute|]). constructor.
Qed.

Lemma checked_ok : assert_invariants (at_ledger 5) checked_vault = Ok tt checked_vault.
Proof. reflexivity. Qed.

(** The same vault with a negative reward pool. *)
Definition negative_pool : State (W := token_world) := upd RewardPoolBalance (Some (-1)) checked_vault.

Lemma check_is_exact_witness :
  assert_invariants (at_ledger 5) checked_vault = Ok tt checked_vault /\
  registered_shares checked_vault = get_total_shares checked_vault /\
  assert_invariants (at_ledger 5) negative_pool = Err VaultFeature4Error.NegativeAccounting negative_pool.
Proof.
  destruct (check_is_exact (at_ledger 5) 9%positive checked_vault eq_refl ltac:(by vm_compute) ltac:(by vm_compute)) as (H & _).
  destruct (check_is_exact (at_ledger 5) 9%positive negative_pool eq_refl ltac:(by vm_compute) ltac:(by vm_compute)) as (_ & Hn & _).
  assert (Hok : assert_invariants (at_ledger 5) checked_vault = Ok tt checked_vault).
  { apply H. split; [reflexivity|]. split; [exact checked_in_order|]. split; by vm_compute. }
  split; [exact Hok|]. split; [apply (H checked_vault); exact Hok|]. apply Hn. right. right. left. by vm_compute.
Defined.

Lemma check_rejects_splits_and_transfers_witness :
  exists n s1 r s2,
    split_position (at_ledger 5) 10 2 0 20 checked_vault = Ok n s1 /\
    transfer_position (at_ledger 5) 2 6 checked_vault = Ok r s2 /\
    assert_invariants (at_ledger 5) s1 = Err VaultFeature4Error.SharesMismatch s1 /\
    assert_invariants (at_ledger 5) s2 = Err VaultFeature4Error.SharesMismatch s2.
Proof.
  destruct (succeeds_run (split_position (at_ledger 5) 10 2 0 20 checked_vault) (fun _ _ => true))
    as (n & s1 & H1 & _); [by vm_compute|].
  destruct (succeeds_run (transfer_position (at_ledger 5) 2 6 checked_vault) (fun _ _ => true))
    as (r & s2 & H2 & _); [by vm_compute|].
  exists n, s1, r, s2. split; [exact H1|]. split; [exact H2|].
  destruct (check_rejects_splits_and_transfers (at_ledger 5) 10 9%positive 2%positive 6%positive 20 n r
    checked_vault s1 s2) as (A & B' & _); [exact checked_in_order|by vm_compute|reflexivity|by vm_compute
    |exact checked_ok| | | |by vm_compute|exact H1|exact H2|].
  - apply (bool_decide_unpack _). by vm_compute.
  - apply (bool_decide_unpack _). by vm_compute.
  - apply (bool_decide_unpack _). by vm_compute.
  - exact (conj A B').
Defined.
