(* ===== verification/VaultExact.v ===== *)
(** * What deposits and withdrawals do

    The functional behaviour of the operations of [Vault.v]: what a stake
    mints and pays, what an unstake pays, who can start one, and what the
    cooldown, the queue and mirrored stakes do to shares and tokens. *)

From S2P Require Import Prelude Errors Storage Host Concrete Accessors Admin Shares RewardMath MultiReward Rewards.
From S2P Require Import Checkpoints Balance Pause RewardRate Limits Notify Mirror Strategies Vault VaultBooks.
From S2P Require Import VaultInv VaultSystem.

(** ** Bookkeeping beside the books *)

(** Entries only the bookkeeping of the deposit path writes. *)
Definition plumbing (k : key) : bool :=
  match k with
  | KPers (DepositorReg _) | KPers (Tranches _) | KPers (BeneficiaryOf _) | KPers (ActivityLog _)
  | KInst AllStakers | KInst TotalStakers | KInst DepositorCount | KInst LowNotified => true
  | _ => false
  end.

Section Exact.
Context {W : World} (env : Env).
Implicit Types s : State.

(** [m] writes bookkeeping entries only, and moves nothing. *)
Definition aside {E A} (m : M E A) : Prop :=
  touches (fun k => plumbing k = true) m /\ keeps_ext m.

Definition unchanged s s' : Prop :=
  (forall k, plumbing k = false -> rd k s' = rd k s) /\ st_ext s' = st_ext s.

Lemma aside_Ok E A (m : M E A) s a s' : aside m -> m s = Ok a s' -> unchanged s s'.
Proof.
  intros [Ht He] H. split; [|by apply (keeps_ext_Ok _ _ _ _ He H)].
  intros k Hk. apply (touches_Ok _ _ _ _ _ k Ht H). congruence.
Qed.
Lemma unchanged_trans s1 s2 s3 : unchanged s1 s2 -> unchanged s2 s3 -> unchanged s1 s3.
Proof. intros [H1 E1] [H2 E2]. split; [|congruence]. intros k Hk. rewrite H2, H1; done. Qed.

Lemma aside_register_depositor u : aside (register_depositor u).
Proof. unfold register_depositor. split; frames. Qed.
Lemma aside_first_stake E u (b : bool) : aside (if b then register_staker (E:=E) u else ret tt).
Proof. unfold register_staker. split; frames. Qed.
Lemma aside_prune E u : aside (prune_expired (E:=E) env u).
Proof. unfold prune_expired, set_tranches. split; frames. Qed.
Lemma aside_lock E u a m : aside (maybe_lock_deposit (E:=E) env u a m).
Proof.
  pose proof (aside_prune E u) as [H1 H2]. unfold maybe_lock_deposit, set_tranches. split; frames.
Qed.
Lemma aside_record E u k a m : aside (record (E:=E) env u k a m).
Proof. unfold record, touch. split; frames. Qed.
Lemma aside_low E : aside (check_and_emit_low_balance (E:=E) env).
Proof. unfold check_and_emit_low_balance. split; frames. Qed.

Lemma unchanged_refl s : unchanged s s.
Proof. done. Qed.
Lemma un_shares s s' u : unchanged s s' -> get_shares u s' = get_shares u s.
Proof. intros [H _]. unfold get_shares. by rewrite H. Qed.
Lemma un_total s s' : unchanged s s' -> get_total_shares s' = get_total_shares s.
Proof. intros [H _]. unfold get_total_shares. by rewrite H. Qed.
Lemma un_deposited s s' : unchanged s s' -> get_total_deposited s' = get_total_deposited s.
Proof. intros [H _]. unfold get_total_deposited. by rewrite H. Qed.
Lemma un_balance s s' t a : unchanged s s' -> balance_of t a s' = balance_of t a s.
Proof. intros [_ H]. unfold balance_of. by rewrite H. Qed.
Lemma un_emit s e : unchanged s (emit e s).
Proof. done. Qed.

(** With a token that takes no fee, [pull_tokens] takes what it is asked for. *)
Lemma pull_exact `{!StandardTokens W} t from a s r s' :
  from <> self env -> pull_tokens env t from a s = Ok r s' ->
  r = a /\ 0 < a <= balance_of t from s /\
  balance_of t from s' = balance_of t from s - a /\
  balance_of t (self env) s' = balance_of t (self env) s + a /\ (forall k, rd k s' = rd k s).
Proof.
  intros Hne H. unfold pull_tokens in H. apply (proj1 (bind_Ok _ _ _ _ _)) in H as ([] & s1 & H1 & H).
  apply transfer_Ok in H1 as (w & Hw & _ & ->).
  pose proof (std_amount _ _ _ _ _ _ Hw) as Ha. destruct (std_moves _ _ _ _ _ _ Hne Hw) as [Hf Hto].
  assert (Hb : forall x, balance_of t x (set_ext w s) = tok_balance w t x) by done.
  unfold reading in H. rewrite Hb, Hto in H.
  apply bind_Ok in H as (rec & s2 & H2 & H). apply ok_or_Ok in H2 as [H2 ->].
  apply checked_sub_Some in H2 as [-> _].
  assert (Hrec : tok_balance (st_ext s) t (self env) + a - balance_of t (self env) s = a)
    by (unfold balance_of; lia). rewrite Hrec in H.
  apply bind_Ok in H as (? & s2 & H2 & H). apply fail_if_Ok in H2 as (Hp & _ & ->).
  apply Z.leb_gt in Hp. rewrite Z.ltb_irrefl in H.
  apply bind_Ok in H as (? & s2 & H2 & H). apply ret_Ok in H2 as [_ ->]. apply ret_Ok in H as [-> ->].
  rewrite Z.min_id. split; [done|]. split; [unfold balance_of; lia|]. rewrite !Hb.
  split; [done|]. split; [done|]. intros k. apply rd_set_ext.
Qed.

(** The backing the books promise: deposits on the books that are there. *)
Definition backed (token : Address) s : Prop :=
  get_total_deposited s <= balance_of token (self env) s.

Lemma token_address_Ok t s r s' : rd Token s = Some t -> token_address s = Ok r s' -> r = t /\ s' = s.
Proof.
  intros Ht H. unfold token_address, reading in H. rewrite Ht in H.
  apply ok_or_Ok in H as [[= <-] ->]. done.
Qed.

Lemma no_followers E u act x s r s' :
  get_followers u s = [] -> maybe_mirror_action (E:=E) env u act x s = Ok r s' -> s' = s.
Proof. intros Hf H. unfold maybe_mirror_action, reading in H. rewrite Hf in H. by apply ret_Ok in H as [_ ->]. Qed.
Lemma no_hooks E u a x s r s' :
  hooks s = [] -> notify (E:=E) env u a x s = Ok r s' -> s' = s.
Proof. intros Hf H. unfold notify, reading in H. rewrite Hf in H. by apply ret_Ok in H as [_ ->]. Qed.

(** The book entries after a share, a total and a deposit write. *)
Lemma rewritten_others s s' u v sh t d :
  rewritten s s' u sh t d -> v <> u -> get_shares v s' = get_shares v s.
Proof.
  intros (_ & _ & _ & _ & _ & _ & H) Hv. unfold get_shares. rewrite H; first [done|congruence].
Qed.

End Exact.

(** ** Theorems *)

Section Theorems.
Context {W : World} (env : Env).
Implicit Types s : State.

Lemma no_sunset_Ok s r s' : require_no_sunset s = Ok r s' -> s' = s.
Proof. unfold require_no_sunset, reading. intros H. by apply fail_if_Ok in H as (_ & _ & ->). Qed.
Lemma seeded_Ok s r s' : require_pool_seeded s = Ok r s' -> s' = s.
Proof. unfold require_pool_seeded, reading. intros H. by apply fail_if_Ok in H as (_ & _ & ->). Qed.
Lemma deposit_cap_Ok E u a s r s' : enforce_deposit_cap (E:=E) u a s = Ok r s' -> s' = s.
Proof.
  unfold enforce_deposit_cap, reading. destruct (_ =? 0); intros H; [by apply ret_Ok in H as [_ ->]|].
  by apply panic_if_Ok in H as (_ & _ & ->).
Qed.

(** The calls after a stake's three writes only keep records. *)
Lemma after_stake E user amount m (b : bool) (n : Z) s n' s' :
  get_followers user s = [] -> hooks s = [] ->
  ((if b then register_staker user else ret tt) ;;; maybe_lock_deposit env user amount m ;;;
   maybe_mirror_action env user MStake amount ;;; record env user Deposit amount m ;;;
   check_and_emit_low_balance env ;;; notify (E:=E) env user "stake" amount ;;; ret n) s = Ok n' s' ->
  n' = n /\ unchanged s s'.
Proof.
  intros Hf Hh H.
  apply bind_Ok in H as (? & s1 & H1 & H). apply aside_Ok in H1 as U1; [|apply aside_first_stake]. clear H1.
  apply bind_Ok in H as (? & s2 & H1 & H). apply aside_Ok in H1 as U2; [|apply aside_lock]. clear H1.
  pose proof (unchanged_trans _ _ _ U1 U2) as U3. clear U1 U2.
  apply bind_Ok in H as (? & s3 & H1 & H).
  apply no_followers in H1 as ->; [|unfold get_followers in *; by rewrite (proj1 U3)].
  apply bind_Ok in H as (? & s3 & H1 & H). apply aside_Ok in H1 as U1; [|apply aside_record]. clear H1.
  apply bind_Ok in H as (? & s4 & H1 & H). apply aside_Ok in H1 as U2; [|apply aside_low]. clear H1.
  pose proof (unchanged_trans _ _ _ U3 (unchanged_trans _ _ _ U1 U2)) as U. clear U1 U2 U3.
  apply bind_Ok in H as (? & s5 & H1 & H).
  apply no_hooks in H1 as ->; [|unfold hooks in *; by rewrite (proj1 U)].
  apply ret_Ok in H as [-> ->]. done.
Qed.

(** A successful stake is: the payment ([s] to [s2]), the three writes ([s2]
    to [s5]), and record keeping. *)
Lemma stake_runs `{!StandardTokens W} user amount token s n s' :
  rd Token s = Some token -> user <> self env -> get_followers user s = [] -> hooks s = [] ->
  stake env user amount s = Ok n s' -> signed env user = true /\
  exists s2 s5, 0 < amount <= balance_of token user s /\
    balance_of token user s2 = balance_of token user s - amount /\
    balance_of token (self env) s2 = balance_of token (self env) s + amount /\
    (forall k, plumbing k = false -> rd k s2 = rd k s) /\
    amount_to_shares_with_decimals (get_total_shares s2) (get_total_deposited s2) amount
      (get_stake_decimals s2) = Some n /\
    rewritten s2 s5 user (get_shares user s2 + n) (get_total_shares s2 + n)
      (get_total_deposited s2 + amount) /\
    st_ext s5 = st_ext s2 /\ unchanged s5 s'.
Proof.
  intros Htok Hne Hfol Hhk H. unfold stake in H.
  apply bind_Ok in H as (? & s1 & H1 & H). apply require_auth_Ok in H1 as (Hsig & _ & ->). split; [done|].
  apply bind_Ok in H as (? & s1 & H1 & H). apply no_sunset_Ok in H1 as ->.
  apply bind_Ok in H as (? & s1 & H1 & H). apply fail_if_Ok in H1 as (_ & _ & ->).
  apply bind_Ok in H as (? & s1 & H1 & H). apply seeded_Ok in H1 as ->.
  apply bind_Ok in H as (? & s1 & H1 & H). apply aside_Ok in H1 as U1; [|apply aside_register_depositor].
  apply bind_Ok in H as (t & s2 & H2 & H).
  apply (token_address_Ok token) in H2 as [-> ->]; [|by rewrite (proj1 U1)].
  apply bind_Ok in H as (a & s2 & H2 & H).
  destruct (pull_exact env _ _ _ _ _ _ Hne H2) as (-> & Ha & Hb1 & Hb2 & Hrd2). clear H1 H2.
  apply bind_Ok in H as (? & s3 & H1 & H). apply deposit_cap_Ok in H1 as ->.
  rewrite !(un_balance s s1) in Ha, Hb1, Hb2 by done.
  assert (Hrd : forall k, plumbing k = false -> rd k s2 = rd k s) by (intros; rewrite Hrd2; by apply U1).
  unfold reading at 1 2 3 in H.
  apply bind_Ok in H as (m & s3 & H1 & H). apply ok_or_Ok in H1 as [Hm ->]. unfold reading at 1 in H.
  apply bind_Ok in H as (sh & s3 & H1 & H). apply ok_or_Ok in H1 as [Hsh ->].
  apply bind_Ok in H as (? & s3 & W1 & H).
  apply bind_Ok in H as (tot & s4 & H1 & H). apply ok_or_Ok in H1 as [Htot ->].
  apply bind_Ok in H as (? & s4 & W2 & H).
  apply bind_Ok in H as (dep & s5 & H1 & H). apply ok_or_Ok in H1 as [Hdep ->].
  apply bind_Ok in H as (? & s5 & W3 & H).
  destruct (three_writes _ _ _ _ _ _ _ _ _ _ _ _ _ W1 W2 W3) as (Hrw & Hext & Hoth).
  assert (Hkeep : forall k, (k = KPers (MirrorFollowers user) \/ k = KInst StakeHooks) -> rd k s5 = rd k s).
  { intros k [-> | ->]; (rewrite Hoth; [by rewrite Hrd|unfold share_write_keys; naive_solver|done..]). }
  apply after_stake in H as [-> HU];
    [|unfold get_followers in *; by rewrite Hkeep by auto|unfold hooks in *; by rewrite Hkeep by auto].
  apply checked_add_Some in Hsh as [-> _], Htot as [-> _], Hdep as [-> _].
  exists s2, s5. do 7 (split; [assumption|]). assumption.
Qed.


Lemma set_total_deposited_goes E t s :
  0 <= t -> set_total_deposited (E:=E) t s = Ok tt (upd TotalDeposited (Some t) s).
Proof.
  intros Ht. unfold set_total_deposited, assert_non_negative.
  by rewrite (proj2 (Z.ltb_ge t 0)) by done.
Qed.

(** The three writes of a withdrawal go through. *)
Lemma three_go E A u x amt (k : M E A) s :
  load s = [] -> 0 <= x <= get_shares u s -> x <= get_total_shares s -> 0 <= amt <= get_total_deposited s ->
  in_i128 (get_shares u s) -> in_i128 (get_total_shares s) -> in_i128 (get_total_deposited s) ->
  exists s3, rewritten s s3 u (get_shares u s - x) (get_total_shares s - x) (get_total_deposited s - amt) /\
    st_ext s3 = st_ext s /\ rd (MirrorFollowers u) s3 = rd (MirrorFollowers u) s /\
    (let! r := plain (checked_sub (get_shares u s) x) in set_shares env u r ;;;
     let! t := plain (checked_sub (get_total_shares s) x) in set_total_shares env t ;;;
     let! d := plain (checked_sub (get_total_deposited s) amt) in set_total_deposited d ;;; k) s = k s3.
Proof.
  intros Hl Hx Ht Ha I1 I2 I3.
  assert (Hsub : forall a b, in_i128 a -> 0 <= b <= a -> plain (E:=E) (checked_sub a b) = ret (a - b)).
  { intros a b Hi Hb. rewrite (proj2 (checked_sub_Some a b (a - b))); [done|]. split; [done|].
    unfold in_i128 in *. pose proof i128_bounds. lia. }
  rewrite !Hsub by (done || lia).
  destruct (set_shares_goes env E u (get_shares u s - x) s Hl ltac:(lia)) as [s1 W1].
  destruct (set_total_shares_goes env E (get_total_shares s - x) s1 ltac:(lia)) as [s2 W2].
  pose proof (set_total_deposited_goes E (get_total_deposited s - amt) s2 ltac:(lia)) as W3.
  destruct (three_writes _ _ _ _ _ _ _ _ _ _ _ _ _ W1 W2 W3) as (Hr & He & Hf).
  eexists. split; [exact Hr|]. split; [exact He|]. split.
  { apply Hf; [|done..]. unfold share_write_keys. naive_solver. }
  unfold bind at 1, ret at 1. rewrite (bind_run _ _ _ _ _ W1). unfold bind at 1, ret at 1.
  rewrite (bind_run _ _ _ _ _ W2). unfold bind at 1, ret at 1. by rewrite (bind_run _ _ _ _ _ W3).
Qed.


(** No withdrawal entrypoint looks at who signed: [unstake], [unstake_all]
    and [withdraw] behave the same whatever the set of signers, so anyone can
    unstake anyone's position (the payment still goes to its owner). *)
Theorem unstake_needs_no_signature q t a (signed1 signed2 : Address -> bool) u x s :
  unstake (mkEnv q t a signed1) u x s = unstake (mkEnv q t a signed2) u x s /\
  unstake_all (mkEnv q t a signed1) u s = unstake_all (mkEnv q t a signed2) u s /\
  withdraw (mkEnv q t a signed1) u x s = withdraw (mkEnv q t a signed2) u x s.
Proof. split; [reflexivity|]. split; reflexivity. Qed.

(** A second withdrawal request forfeits the first: while a request for
    [r] is pending, a successful request for [x] moves [x] more shares out of
    the balance and replaces the record, so the user holds [r] shares less in
    total, while the pool still counts them; executing can give back [x] only. *)
Theorem second_request_forfeits u x r s s' :
  get_request u s = Some r -> request_withdrawal env u x s = Ok tt s' ->
  get_shares u s' = get_shares u s - x /\ get_request u s' = Some (mkWithdrawalRequest x (sequence env)) /\
  hold u s' = hold u s - wr_shares r /\ get_total_shares s' = get_total_shares s.
Proof.
  intros Hreq H. unfold request_withdrawal in H.
  apply bind_Ok in H as (? & ? & H1 & H). apply require_auth_Ok in H1 as (_ & _ & ->).
  apply bind_Ok in H as (? & ? & H1 & H). apply fail_if_Ok in H1 as (_ & _ & ->). unfold reading at 1 in H.
  apply bind_Ok in H as (? & ? & H1 & H). apply fail_if_Ok in H1 as (_ & _ & ->).
  apply bind_Ok in H as (rest & ? & H1 & H). apply plain_Ok in H1 as [[-> _]%checked_sub_Some ->].
  apply bind_Ok in H as (? & s1 & H1 & H). apply set_shares_Ok in H1 as (_ & Hs & _ & Hf & _).
  apply bind_Ok in H as (? & s2 & H1 & H). apply put_Ok in H1 as [_ ->]. apply publish_Ok in H as [_ ->].
  set (s2 := emit _ _). 
  assert (H1 : get_shares u s2 = get_shares u s - x) by (unfold get_shares in *; by subst s2; rdsimp).
  assert (H2 : get_request u s2 = Some (mkWithdrawalRequest x (sequence env)))
    by (unfold get_request; by subst s2; rdsimp).
  assert (H3 : get_split_positions u s2 = get_split_positions u s).
  { unfold get_split_positions. subst s2. rdsimp. rewrite Hf; [done|]. intros Hc. by apply share_write_acc in Hc. }
  split; [done|]. split; [done|]. split.
  - unfold hold, own, requested, split_total. rewrite Hreq, H1, H2, H3. simpl. lia.
  - unfold get_total_shares. subst s2. rdsimp. rewrite Hf; [done|]. intros Hc. by apply share_write_acc in Hc.
Qed.

(** What a stake mirrored to a follower does: shares and deposits are booked,
    and no token moves. *)
Lemma mirror_stake_Ok E leader f capped token s x s' :
  rd Token s = Some token -> capped <= balance_of token f s ->
  mirror_stake (E:=E) env leader f capped s = Ok x s' ->
  get_shares f s' = get_shares f s +
    default capped (amount_to_shares (get_total_shares s) (get_total_deposited s) capped) /\
  get_total_deposited s' = get_total_deposited s + capped /\ st_ext s' = st_ext s.
Proof.
  intros Ht Hb H. unfold mirror_stake in H. unfold reading at 1 in H. rewrite Ht in H.
  unfold reading at 1 in H. rewrite (proj2 (Z.ltb_ge _ _)) in H by done. unfold reading at 1 2 in H.
  cbv zeta in H. unfold reading at 1 in H.
  apply bind_Ok in H as (sh & ? & H1 & H). apply plain_Ok in H1 as [[-> _]%checked_add_Some ->].
  apply bind_Ok in H as (? & s1 & W1 & H).
  apply bind_Ok in H as (tot & ? & H1 & H). apply plain_Ok in H1 as [_ ->].
  apply bind_Ok in H as (? & s2 & W2 & H).
  apply bind_Ok in H as (dep & ? & H1 & H). apply plain_Ok in H1 as [[-> _]%checked_add_Some ->].
  apply bind_Ok in H as (? & s3 & W3 & H).
  destruct (three_writes _ _ _ _ _ _ _ _ _ _ _ _ _ W1 W2 W3) as ((R1 & _ & R3 & _) & He & _).
  unfold mirror_executed in H. apply publish_Ok in H as [_ ->].
  rewrite (un_shares s3 _ _ (un_emit s3 _)), (un_deposited s3 _ (un_emit s3 _)). done.
Qed.

(** A mirrored stake is not paid for: the follower's balance is only
    looked at, the deposits on the books grow by the mirrored amount and the
    follower gets shares for it, but no token moves; a vault whose deposits
    were exactly covered is left owing the whole mirrored amount. *)
Theorem mirrored_stake_unbacked leader f capped token s s' :
  rd Token s = Some token -> 0 < capped <= balance_of token f s ->
  mirror_stake (E:=VaultError.t) env leader f capped s = Ok tt s' ->
  balance_of token f s' = balance_of token f s /\
  balance_of token (self env) s' = balance_of token (self env) s /\
  get_shares f s' = get_shares f s +
    default capped (amount_to_shares (get_total_shares s) (get_total_deposited s) capped) /\
  get_total_deposited s' = get_total_deposited s + capped /\
  (get_total_deposited s = balance_of token (self env) s -> ~ backed env token s').
Proof.
  intros Ht Hc H. destruct (mirror_stake_Ok _ _ _ _ _ _ _ _ Ht (proj2 Hc) H) as (Hs & Hd & He).
  assert (Hb : forall a, balance_of token a s' = balance_of token a s)
    by (intros; unfold balance_of; by rewrite He).
  rewrite !Hb. do 4 (split; [done|]). unfold backed. rewrite Hb. lia.
Qed.

(** While the queue is on, an unstake moves shares into it and nothing else. *)
Definition parked s s' : Prop :=
  st_ext s' = st_ext s /\ get_total_shares s' = get_total_shares s /\
  get_total_deposited s' = get_total_deposited s /\
  is_withdrawal_queue_enabled s' = is_withdrawal_queue_enabled s.

Lemma parked_refl s : parked s s.
Proof. done. Qed.
Lemma parked_trans s1 s2 s3 : parked s1 s2 -> parked s2 s3 -> parked s1 s3.
Proof. unfold parked. intuition congruence. Qed.

Lemma queued_unstake u x s :
  is_withdrawal_queue_enabled s = true ->
  match do_unstake env u x s with
  | Ok a s' => a = 0 /\ get_shares u s' = get_shares u s - x /\ parked s s'
  | Err _ s' => parked s s'
  | Trap _ => True
  end.
Proof.
  intros Hq. unfold do_unstake. destruct (x <=? 0); [done|]. unfold fail_if at 1, bind at 1, ret at 1.
  unfold reading at 1. destruct (get_pause_state s).2; [done|]. unfold fail_if at 1, bind at 1, ret at 1.
  unfold reading at 1. destruct (get_lock_status env u s); [done|]. unfold fail_if at 1, bind at 1, ret at 1.
  unfold reading at 1 2. rewrite Hq. destruct (get_shares u s <? x); [done|].
  unfold fail_if at 1, bind at 1, ret at 1. unfold enqueue_withdrawal, reading.
  set (s1 := emit (mkEvent [VSym "wq_queued"] [VAddr u; VInt x])
    (upd WqQueue (Some (get_queue s ++ [mkQueueEntry u x (timestamp env)])) s)).
  change (match (let! rest := plain (checked_sub (get_shares u s) x) in
            set_shares (E:=VaultError.t) env u rest ;;; ret 0) s1 with
    | Ok a s' => a = 0 /\ get_shares u s' = get_shares u s - x /\ parked s s'
    | Err _ s' => parked s s' | Trap _ => True end).
  destruct (checked_sub (get_shares u s) x) as [r|] eqn:Hr; [|done]. apply checked_sub_Some in Hr as [-> _].
  unfold plain, bind at 1, ret at 1. unfold bind.
  destruct (set_shares env u (get_shares u s - x) s1) as [[] s2|er s2|t] eqn:Hset; [| |done].
  - pose proof (set_shares_rd env _ _ _ _ _ _ (KInst TotalShares) Hset eq_refl ltac:(done)) as T1.
    pose proof (set_shares_rd env _ _ _ _ _ _ (KInst TotalDeposited) Hset eq_refl ltac:(done)) as T2.
    apply set_shares_Ok in Hset as (_ & Hs & _ & Hf & He).
    split; [done|]. split; [done|]. split; [exact He|].
    unfold get_total_shares, get_total_deposited, is_withdrawal_queue_enabled. rewrite T1, T2, Hf.
    + subst s1. by rdsimp.
    + unfold share_write_keys. naive_solver.
  - by destruct (no_err_set_shares env VaultError.t u (get_shares u s - x) s1 er s2).
Qed.

Lemma queued_loop n q s q' s' :
  is_withdrawal_queue_enabled s = true -> process_loop env n q s = Ok q' s' -> parked s s'.
Proof.
  revert q s. induction n as [|n IH]; intros [|e q] s Hq H; cbn [process_loop] in H;
    try (by apply ret_Ok in H as [_ ->]).
  apply bind_Ok in H as (r & s1 & H1 & H). unfold catch in H1.
  pose proof (queued_unstake (qe_user e) (qe_shares e) s Hq) as Hu.
  destruct (do_unstake env (qe_user e) (qe_shares e) s) as [a s2|er s2|t]; [..|done]; injection H1 as <- <-.
  - destruct Hu as (_ & _ & Hp). apply bind_Ok in H as (? & s3 & H1 & H). apply publish_Ok in H1 as [_ ->].
    eapply parked_trans; [exact Hp|]. apply (IH _ (emit _ s2)) in H; [exact H|].
    transitivity (is_withdrawal_queue_enabled s2); [done|]. destruct Hp as (_ & _ & _ & Hp). congruence.
  - apply ret_Ok in H as [_ ->]. exact Hu.
Qed.

(** The withdrawal queue never pays while it is on.  Processing it runs
    each entry through [do_unstake], which only queues again: no token moves,
    no deposit and no share is taken off the books, however many entries are
    processed.  An entry at the head is dropped all the same, and its owner
    loses the entry's shares a second time. *)
Theorem queue_never_pays admin n s s' :
  is_withdrawal_queue_enabled s = true -> process_withdrawal_queue env admin n s = Ok tt s' ->
  st_ext s' = st_ext s /\ get_total_shares s' = get_total_shares s /\
  get_total_deposited s' = get_total_deposited s /\
  (forall e, get_queue s = [e] -> 0 < n -> get_queue s' = [] ->
     get_shares (qe_user e) s' = get_shares (qe_user e) s - qe_shares e).
Proof.
  intros Hq H. unfold process_withdrawal_queue in H.
  apply bind_Ok in H as (? & ? & H1 & H). apply require_auth_Ok in H1 as (_ & _ & ->).
  apply bind_Ok in H as (? & s1 & H1 & H).
  assert (s1 = s) as ->.
  { unfold require_admin, get_admin, reading in H1. apply bind_Ok in H1 as (a & s2 & H1 & H2).
    apply require_auth_Ok in H2 as (_ & _ & ->). apply bind_Ok in H1 as (? & ? & H1 & H2).
    apply ok_or_Ok in H2 as [_ ->]. by apply fail_if_Ok in H1 as (_ & _ & ->). }
  clear H1. unfold reading in H. apply bind_Ok in H as (q & s2 & Hl & H). apply put_Ok in H as [_ ->].
  destruct (queued_loop _ _ _ _ _ Hq Hl) as (He & Ht & Hd & _).
  assert (Hk : forall k, k <> KGov WqQueue -> rd k (upd WqQueue (Some q) s2) = rd k s2)
    by (intros; apply rd_upd_ne; congruence).
  split; [exact He|]. unfold get_total_shares, get_total_deposited in *. rewrite !Hk by done.
  split; [done|]. split; [done|]. intros e Hqe Hn Hempty.
  unfold get_queue in Hempty. rewrite rd_upd_eq in Hempty. simpl in Hempty. subst q.
  unfold get_shares at 1. rewrite Hk by done. fold (get_shares (qe_user e) s2).
  rewrite Hqe in Hl. destruct (Z.to_nat n) as [|m] eqn:Hm; [lia|]. cbn [process_loop] in Hl.
  apply bind_Ok in Hl as (r & s3 & H1 & H). unfold catch in H1.
  pose proof (queued_unstake (qe_user e) (qe_shares e) s Hq) as Hu.
  destruct (do_unstake env (qe_user e) (qe_shares e) s) as [a s4|er s4|t]; [..|done]; injection H1 as <- <-.
  - destruct Hu as (_ & Hs & _). apply bind_Ok in H as (? & s5 & H1 & H). apply publish_Ok in H1 as [_ ->].
    destruct m; apply ret_Ok in H as [_ ->]; rewrite <- Hs; unfold get_shares; by rewrite rd_emit.
  - by apply ret_Ok in H as [[=] _].
Qed.

Lemma unpause_cases E s x s' :
  apply_scheduled_unpause_if_due (E:=E) env s = Ok x s' -> s' = s \/ paused s' = false.
Proof.
  unfold apply_scheduled_unpause_if_due, reading. destruct (get_scheduled_unpause s) as [l|];
    [destruct (l <=? sequence env)|]; intros H; [|by apply ret_Ok in H as [_ ->]; left..].
  right. unfold clear_scheduled_unpause, set_last_updated_ledger in H. mrun H. unfold paused. by rdsimp.
Qed.

(** The emergency exit pays a position in full and closes it: it works
    only while the vault is paused and for the owner's signature, pays all the
    user's shares at the current price, rounded down, burns them, forfeits the
    accrued reward, and takes exactly the payment off the books. *)
Theorem emergency_exit_closes `{!StandardTokens W} u token s amount s' :
  rd Token s = Some token -> u <> self env -> 0 < get_total_shares s -> 0 <= get_total_deposited s ->
  emergency_withdraw env u s = Ok amount s' ->
  let x := get_shares u s in
  signed env u = true /\ paused s = true /\ 0 < x /\
  amount = x * get_total_deposited s / get_total_shares s /\
  get_shares u s' = 0 /\ get_accrued_reward u s' = 0 /\
  get_total_shares s' = get_total_shares s - x /\
  get_total_deposited s' = get_total_deposited s - amount /\
  balance_of token u s' = balance_of token u s + amount /\
  balance_of token (self env) s' = balance_of token (self env) s - amount.
Proof.
  intros Htok Hne HS HD H x. unfold emergency_withdraw in H.
  apply bind_Ok in H as (? & ? & H1 & H). apply require_auth_Ok in H1 as (Hsig & _ & ->).
  apply bind_Ok in H as (? & s1 & H1 & H). apply unpause_cases in H1. unfold reading at 1 in H.
  apply bind_Ok in H as (? & s1' & H2 & H). apply fail_if_Ok in H2 as (Hp%negb_false_iff & _ & ->).
  destruct H1 as [-> |H1]; [|congruence]. unfold reading at 1 in H.
  apply bind_Ok in H as (? & s1 & H1 & H). apply fail_if_Ok in H1 as (Hx%Z.leb_gt & _ & ->).
  unfold reading at 1 2 in H. fold x in H, Hx.
  apply bind_Ok in H as (amt & s1 & H1 & H). apply ok_or_Ok in H1 as [Hamt ->].
  apply redeem_Some in Hamt as [Hamt _]; [|lia..]. unfold reading at 1 in H.
  apply bind_Ok in H as (t & s1 & H1 & H). apply (token_address_Ok token) in H1 as [-> ->]; [|done].
  apply bind_Ok in H as (? & s1 & H1 & H). apply transfer_Ok in H1 as (w & Hw & _ & ->).
  destruct (std_moves _ _ _ _ _ _ (not_eq_sym Hne) Hw) as [Hfrom Hto].
  apply bind_Ok in H as (? & s2 & W1 & H).
  apply bind_Ok in H as (tot & ? & H1 & H). apply plain_Ok in H1 as [[-> _]%checked_sub_Some ->].
  apply bind_Ok in H as (? & s3 & W2 & H).
  apply bind_Ok in H as (dep & ? & H1 & H). apply plain_Ok in H1 as [[-> _]%checked_sub_Some ->].
  apply bind_Ok in H as (? & s4 & W3 & H).
  destruct (three_writes _ _ _ _ _ _ _ _ _ _ _ _ _ W1 W2 W3) as ((R1 & R2 & R3 & _) & He & _).
  apply bind_Ok in H as (? & s5 & H1 & H).
  unfold set_accrued_reward, assert_non_negative in H1. mrun H1. mrun H. subst x.
  set (s5 := emit _ _).
  assert (Hb : forall a, balance_of token a s5 = tok_balance w token a)
    by (intros a; transitivity (balance_of token a s4); [done|unfold balance_of; by rewrite He]).
  rewrite !Hb. do 4 (split; [done|]). unfold get_shares, get_accrued_reward, get_total_shares,
    get_total_deposited in *. subst s5. rdsimp. rewrite R1, R2, R3. split; [done|]. split; [done|].
  split; [done|]. split; [done|]. unfold balance_of in *. lia.
Qed.

End Theorems.

(** ** The theorems at work *)

#[local] Existing Instances no_bootstrap no_bootstrap_laws.


Ltac evaluate := vm_compute; reflexivity.
Ltac in_range := split; vm_compute; discriminate.

Definition two_holders : State (W := token_world) :=
  perform (at_ledger 15) 0 (OAddYield 7%positive 30) (perform (at_ledger 12) 0 (OStake 3 50)
    (perform (at_ledger 10) 0 (OStake 2 100) funded_vault)).

Lemma two_holders_books : books two_holders.
Proof.
  unfold two_holders. do 3 apply perform_books. apply fresh_books. intros k Hk.
  unfold funded_vault. by rewrite !rd_upd_ne by (intros <-; done).
Qed.


Definition requested_once : State (W := token_world) :=
  perform (at_ledger 20) 0 (ORequestWithdrawal 2 10) two_holders.

Lemma second_request_forfeits_witness :
  exists s', request_withdrawal (at_ledger 30) 2 5 requested_once = Ok tt s' /\
    hold 2 requested_once = 100 /\ hold 2 s' = 90.
Proof.
  destruct (succeeds_run (request_withdrawal (at_ledger 30) 2 5 requested_once) (fun _ _ => true))
    as ([] & s' & H & _); [vm_compute; reflexivity|].
  exists s'. split; [exact H|]. split; [vm_compute; reflexivity|].
  destruct (second_request_forfeits (at_ledger 30) 2 5 (mkWithdrawalRequest 10 20) requested_once s')
    as (_ & _ & Hh & _); [vm_compute; reflexivity|exact H|].
  rewrite Hh. vm_compute. reflexivity.
Defined.

(** The follower 4 never deposits; the leader's stake is mirrored to it. *)
Lemma mirrored_stake_unbacked_witness :
  exists s', mirror_stake (E:=VaultError.t) (at_ledger 20) 2 4 500 two_holders = Ok tt s' /\
    balance_of 9 4 s' = 5000 /\ get_shares 4 s' = 416 /\ get_total_deposited s' = 680.
Proof.
  destruct (succeeds_run (mirror_stake (E:=VaultError.t) (at_ledger 20) 2 4 500 two_holders) (fun _ _ => true))
    as ([] & s' & H & _); [vm_compute; reflexivity|].
  exists s'. split; [exact H|].
  destruct (mirrored_stake_unbacked (at_ledger 20) 2 4 500 9%positive two_holders s')
    as (H1 & _ & H2 & H3 & _); [reflexivity|split; vm_compute; [reflexivity|discriminate]|exact H|].
  rewrite H1, H2, H3. vm_compute. split; [|split]; reflexivity.
Defined.

Definition queue_on : State (W := token_world) :=
  perform (at_ledger 21) 0 (OUnstake 2 30) (perform (at_ledger 20) 0 (OEnableQueue 7%positive true) two_holders).

Lemma queue_never_pays_witness :
  exists s', process_withdrawal_queue (at_ledger 30) 7%positive 1 queue_on = Ok tt s' /\
    get_shares 2 queue_on = 70 /\ get_shares 2 s' = 40.
Proof.
  destruct (succeeds_run (process_withdrawal_queue (at_ledger 30) 7%positive 1 queue_on)
    (fun _ s' => match get_queue s' with [] => true | _ => false end))
    as ([] & s' & H & Hq); [vm_compute; reflexivity|].
  exists s'. split; [exact H|]. split; [vm_compute; reflexivity|].
  destruct (queue_never_pays (at_ledger 30) 7%positive 1 queue_on s') as (_ & _ & _ & Hs);
    [vm_compute; reflexivity|exact H|].
  specialize (Hs (mkQueueEntry 2 30 105)). cbn [qe_user qe_shares] in Hs. rewrite Hs.
  - vm_compute. reflexivity.
  - vm_compute. reflexivity.
  - reflexivity.
  - destruct (get_queue s'); [reflexivity|discriminate Hq].
Defined.

Lemma emergency_exit_closes_witness :
  exists s', emergency_withdraw (at_ledger 20) 2 (upd Paused (Some true) two_holders) = Ok 120 s' /\
    get_shares 2 s' = 0 /\ get_total_deposited s' = 60.
Proof.
  destruct (succeeds_run (emergency_withdraw (at_ledger 20) 2 (upd Paused (Some true) two_holders))
    (fun a _ => a =? 120)) as (a & s' & H & ->%Z.eqb_eq); [vm_compute; reflexivity|].
  exists s'. split; [exact H|].
  destruct (emergency_exit_closes (at_ledger 20) 2 9%positive (upd Paused (Some true) two_holders) 120 s')
    as (_ & _ & _ & _ & H1 & _ & _ & H2 & _); [reflexivity|done|vm_compute; reflexivity|vm_compute; discriminate|exact H|].
  split; [exact H1|]. rewrite H2. vm_compute. reflexivity.
Defined.
