(* ===== verification/PresaleProofs.v ===== *)
(** * What the redemption of a presale reservation does

    It is a deposit of exactly the reserved amount, at the price before it, and
    happens once; the registry of stakers never hears of it. *)

From S2P Require Import Prelude Errors Storage Host TokenFacts Concrete Accessors Admin Shares Balance RewardMath Vault VaultBooks VaultInv VaultSystem VaultExact Presale.

Section Redemption.
Context {W : World} {HT : StandardTokens W} (env : Env).
Implicit Types s : State.

(** The reservation as a redemption leaves it. *)
Definition redeemed (v : PresaleReservation) : PresaleReservation :=
  mkPresaleReservation (pv_reserved_amount v) (pv_fee_paid v) true.

(** The redemption of [v] for [r] shares, from [s] to [s']. *)
Record redemption (buyer token : Address) (c : PresaleConfig) (v : PresaleReservation) (r : Z) s s' : Prop := {
  rp_open : get_config s = Some c /\ pz_active c = true /\ pz_opens_at c <= sequence env;
  rp_first : get_reservation buyer s = Some v /\ pv_redeemed v = false /\ 0 < pv_reserved_amount v;
  rp_price : presale_shares (pv_reserved_amount v) (get_total_shares s) (get_total_deposited s) = Some r;
  rp_shares : get_shares buyer s' = get_shares buyer s + r;
  rp_total : get_total_shares s' = get_total_shares s + r;
  rp_deposited : get_total_deposited s' = get_total_deposited s + pv_reserved_amount v;
  rp_paid : balance_of token (self env) s' = balance_of token (self env) s + pv_reserved_amount v;
  rp_once : get_reservation buyer s' = Some (redeemed v);
  rp_stakers : get_total_stakers s' = get_total_stakers s + (if get_shares buyer s =? 0 then 1 else 0);
  rp_unlisted : get_all_stakers s' = get_all_stakers s
}.

(** A redeemed reservation is never redeemed again. *)
Lemma redeemed_refused env' buyer v s x s' :
  get_reservation buyer s = Some v -> pv_redeemed v = true -> redeem_presale_reservation env' buyer s <> Ok x s'.
Proof.
  intros Hv Hr H. unfold redeem_presale_reservation in H.
  apply bind_Ok in H as (? & ? & (_ & _ & ->)%require_auth_Ok & H). unfold reading at 1 in H.
  apply bind_Ok in H as (c & ? & (_ & ->)%ok_or_Ok & H). apply bind_Ok in H as (? & ? & (_ & _ & ->)%fail_if_Ok & H).
  apply bind_Ok in H as (? & ? & (_ & _ & ->)%fail_if_Ok & H). unfold reading at 1 in H. rewrite Hv in H.
  apply bind_Ok in H as (v' & ? & ([= <-] & ->)%ok_or_Ok & H).
  apply bind_Ok in H as (? & ? & (Hf & _ & _)%fail_if_Ok & _). congruence.
Qed.

(** A new buyer is counted. *)
Lemma enroll_Ok (b : bool) s x s' :
  (if b then let& stakers := get_total_stakers in let! v := plain (to_u32 (stakers + 1)) in put TotalStakers v
   else ret (E:=VaultError.t) tt) s = Ok x s' ->
  get_total_stakers s' = get_total_stakers s + (if b then 1 else 0) /\ st_ext s' = st_ext s /\
  (forall k, k <> KInst TotalStakers -> rd k s' = rd k s).
Proof.
  destruct b; [|intros [_ ->]%ret_Ok; split_and!; try done; lia]. intros H. unfold reading at 1 in H.
  apply bind_Ok in H as (v & ? & (Hv & ->)%plain_Ok & [_ ->]%put_Ok). apply to_u32_Some in Hv as [-> _].
  split_and!; [unfold get_total_stakers; by rdsimp|done|]. intros k Hk. apply rd_upd_ne. by intros <-.
Qed.

(** The steps of a redemption: the transfer, the three writes of the books, the
    count of stakers and the mark. *)
Lemma redeem_Ok buyer token r s s' :
  rd Token s = Some token -> buyer <> self env -> redeem_presale_reservation env buyer s = Ok r s' ->
  exists c v s1 s4 s5,
    (get_config s = Some c /\ pz_active c = true /\ pz_opens_at c <= sequence env) /\
    (get_reservation buyer s = Some v /\ pv_redeemed v = false /\ 0 < pv_reserved_amount v) /\
    presale_shares (pv_reserved_amount v) (get_total_shares s) (get_total_deposited s) = Some r /\
    (forall k, rd k s1 = rd k s) /\
    balance_of token (self env) s1 = balance_of token (self env) s + pv_reserved_amount v /\
    rewritten s1 s4 buyer (get_shares buyer s + r) (get_total_shares s + r) (get_total_deposited s + pv_reserved_amount v) /\
    st_ext s4 = st_ext s1 /\
    (forall k, ~ share_write_keys buyer k -> k <> KInst TotalShares -> k <> KInst TotalDeposited ->
       k <> KPers TotalCheckpoints -> rd k s4 = rd k s1) /\
    get_total_stakers s5 = get_total_stakers s4 + (if get_shares buyer s =? 0 then 1 else 0) /\ st_ext s5 = st_ext s4 /\
    (forall k, k <> KInst TotalStakers -> rd k s5 = rd k s4) /\
    st_ext s' = st_ext s5 /\ get_reservation buyer s' = Some (redeemed v) /\
    (forall k, k <> KMod (PresaleRes buyer) -> rd k s' = rd k s5).
Proof.
  intros Ht Hne H. unfold redeem_presale_reservation, set_reservation in H.
  apply bind_Ok in H as (? & ? & (_ & _ & ->)%require_auth_Ok & H). unfold reading at 1 in H.
  apply bind_Ok in H as (c & ? & (Hc & ->)%ok_or_Ok & H).
  apply bind_Ok in H as (? & ? & (Ha%negb_false_iff & _ & ->)%fail_if_Ok & H).
  apply bind_Ok in H as (? & ? & (Ho%Z.ltb_ge & _ & ->)%fail_if_Ok & H). unfold reading at 1 in H.
  apply bind_Ok in H as (v & ? & (Hv & ->)%ok_or_Ok & H).
  apply bind_Ok in H as (? & ? & (Hr & _ & ->)%fail_if_Ok & H).
  apply bind_Ok in H as (? & ? & (Hpos%Z.leb_gt & _ & ->)%fail_if_Ok & H). cbv zeta in H.
  apply bind_Ok in H as (t & ? & Ht1 & H). unfold token_address, reading in Ht1. rewrite Ht in Ht1.
  apply ok_or_Ok in Ht1 as ([= <-] & ->).
  apply bind_Ok in H as (? & s1 & (_ & Hk1 & Hb1)%token_received & H); [|done].
  assert (Hs1 : same_books s s1) by (intros k _; apply Hk1). do 2 unfold reading at 1 in H.
  rewrite (same_total _ _ Hs1), (same_deposited _ _ Hs1) in H.
  apply bind_Ok in H as (m & ? & (Hm & ->)%ok_or_Ok & H). unfold reading at 1 in H.
  rewrite (same_shares _ _ buyer Hs1) in H.
  apply bind_Ok in H as (a & ? & ((-> & _)%checked_add_Some & ->)%plain_Ok & H).
  apply bind_Ok in H as ([] & s2 & H2 & H).
  apply bind_Ok in H as (b & ? & ((-> & _)%checked_add_Some & ->)%plain_Ok & H).
  apply bind_Ok in H as ([] & s3 & H3 & H).
  apply bind_Ok in H as (d & ? & ((-> & _)%checked_add_Some & ->)%plain_Ok & H).
  apply bind_Ok in H as ([] & s4 & H4 & H).
  destruct (three_writes _ _ _ _ _ _ _ _ _ _ _ _ _ H2 H3 H4) as (Hrw & He4 & Hf4).
  apply bind_Ok in H as ([] & s5 & H5 & H). apply bind_Ok in H as (? & s6 & [_ E6]%put_Ok & H).
  apply bind_Ok in H as (? & s7 & [_ E7]%publish_Ok & [-> ->]%ret_Ok).
  apply enroll_Ok in H5 as (Hn5 & He5 & Hf5). exists c, v, s1, s4, s5. split_and!; try done.
  - by rewrite E7, E6.
  - unfold get_reservation. rewrite E7, E6. by rdsimp.
  - intros k Hk. rewrite E7, E6, rd_emit. apply rd_upd_ne. by intros <-.
Qed.

(** C4. A redemption that succeeds found the presale active and past its opening
    and the reservation of the buyer unredeemed; it takes exactly the reserved
    amount, mints at the price before it, keeps the share books, and can never be
    repeated.  The number of stakers grows when the buyer is new, yet the
    registry of stakers does not list it. *)
Theorem presale_redemption_exact (buyer token : Address) (r : Z) s s' :
  rd Token s = Some token -> buyer <> self env -> books s -> redeem_presale_reservation env buyer s = Ok r s' ->
  books s' /\ (exists c v, redemption buyer token c v r s s') /\
  (forall env' x s2, redeem_presale_reservation env' buyer s' <> Ok x s2).
Proof.
  intros Ht Hne HB H. destruct (redeem_Ok _ _ _ _ _ Ht Hne H)
    as (c & v & s1 & s4 & s5 & Hc & Hv & Hm & Hk1 & Hb1 & Hrw & He4 & Hf4 & Hn5 & He5 & Hf5 & He7 & Hv7 & Hf7).
  assert (Hs1 : same_books s s1) by (intros k _; apply Hk1).
  assert (Hfar : forall k, k <> KMod (PresaleRes buyer) -> k <> KInst TotalStakers -> ~ share_write_keys buyer k ->
    k <> KInst TotalShares -> k <> KInst TotalDeposited -> k <> KPers TotalCheckpoints -> rd k s' = rd k s).
  { intros. by rewrite Hf7, Hf5, Hf4, Hk1. }
  assert (HB4 : books s4).
  { eapply rewritten_books; [exact (books_same _ _ Hs1 HB)|exact Hrw|].
    rewrite (same_shares _ _ buyer Hs1), (same_total _ _ Hs1). lia. }
  assert (Hs7 : same_books s4 s') by (intros k Hk; rewrite Hf7, Hf5; [done|..]; intros ->; done).
  destruct Hrw as (Hsh & Htot & Hdep & _). split; [by apply (books_same s4)|].
  split; [|by intros env' y s8; eapply redeemed_refused; [exact Hv7|]].
  exists c, v. split; [done|done|done| | | | |exact Hv7| |].
  - by rewrite (same_shares _ _ buyer Hs7).
  - by rewrite (same_total _ _ Hs7).
  - by rewrite (same_deposited _ _ Hs7).
  - unfold balance_of in *. by rewrite He7, He5, He4.
  - transitivity (get_total_stakers s5); [unfold get_total_stakers; by rewrite Hf7|]. rewrite Hn5. f_equal.
    unfold get_total_stakers. rewrite Hf4, Hk1; [done|..]; unfold share_write_keys; naive_solver.
  - unfold get_all_stakers. rewrite Hfar; [done|..]; unfold share_write_keys; naive_solver.
Qed.

End Redemption.

(** ** Witness *)

(** Two holders share 180 tokens by 150 shares; address 4 has reserved 100. *)
Definition opening_pool : State (W := token_world) :=
  upd PresaleCfg (Some (mkPresaleConfig 500 200 1000 100 20 true))
    (upd (PresaleRes 4) (Some (mkPresaleReservation 100 5 false)) two_holders).
Lemma opening_books : books opening_pool.
Proof.
  apply (books_same two_holders); [|exact two_holders_books].
  intros k Hk. unfold opening_pool. by rewrite !rd_upd_ne by (intros <-; done).
Qed.

Lemma presale_redemption_exact_witness :
  exists s', redeem_presale_reservation (at_ledger 25) 4 opening_pool = Ok 83 s' /\ books s' /\
    get_all_stakers s' = get_all_stakers opening_pool /\
    (forall env x s2, redeem_presale_reservation env 4 s' <> Ok x s2).
Proof.
  destruct (succeeds_run (redeem_presale_reservation (at_ledger 25) 4 opening_pool) (fun r _ => r =? 83))
    as (r & s' & H & Hr%Z.eqb_eq); [by vm_compute|]. subst r. exists s'. split; [exact H|].
  destruct (presale_redemption_exact (at_ledger 25) 4%positive 9%positive 83 opening_pool s') as (HB & (c & v & HR) & Hno);
    [reflexivity|done|exact opening_books|exact H|].
  split; [exact HB|]. split; [exact (rp_unlisted _ _ _ _ _ _ _ _ HR)|exact Hno].
Defined.
