(* ===== verification/PositionExact.v ===== *)
(** * What splits, merges, transfers and inheritance mean for the user

    Merging undoes a split; inheritance hands over the whole position with the
    reward it has earned; a transfer and the older split lose reward that has
    not been settled. *)

From S2P Require Import Prelude Errors Storage Host Concrete Accessors Admin Shares RewardMath MultiReward.
From S2P Require Import Accumulator Accrual Rewards Checkpoints Balance Pause RewardRate Limits Notify Mirror.
From S2P Require Import Strategies Vault ClaimFees Peg Claims Leaderboard Positions VaultBooks VaultInv PositionProofs.

(** ** Rewards of a moved position *)

Section Pending.
Context {W : World} {B : Bootstrap W} (env : Env) (fuel : nat).
Implicit Types s : State.

(** The entries the accrual configuration is read from. *)
Definition config_key (k : key) : bool :=
  match k with
  | KInst HalvingCfg | KInst HalvingReduction | KInst BoostCampaign | KInst Seasons | KInst BoostSchedule
  | KInst RewardRateBps | KInst MinPoolSize | KInst RewardsActivatedAt | KGov BootstrapCfg
  | KPers (RewardRemainder _) => true
  | _ => false
  end.

Definition same_config s s' : Prop := forall k, config_key k = true -> rd k s' = rd k s.

Lemma same_config_dust sh st fl a b s s' : same_config s s' -> dust_of sh st fl a b s' = dust_of sh st fl a b s.
Proof.
  intros H. unfold dust_of, load_cfg, get_halving_config, get_halving_reduction_bps, get_seasons,
    get_boost_schedule, get_reward_rate_bps. by rewrite !H.
Qed.

Lemma same_config_accruing u v st fl b s s' :
  same_config s s' -> rd (StakedAtLedger v) s' = Some st -> 0 <= get_reward_remainder v s < DIVISOR ->
  accruing u st fl b s -> accruing v st fl b s'.
Proof.
  intros H Hst Hrem [H1 H2 H3 H4 H5 H6 H7]. split; try done.
  - unfold load_cfg, get_halving_config, get_halving_reduction_bps, get_seasons, get_boost_schedule in *.
    by rewrite !H.
  - by rewrite H.
  - unfold get_reward_rate_bps in *. by rewrite H.
  - unfold reward_accrual_floor, get_min_pool_size, get_rewards_activated_at in *. by rewrite !H.
  - unfold get_reward_remainder in *. by rewrite H.
Qed.

(** What a position settled at [a] is owed at the current ledger. *)
Lemma pending_exact u st fl a s :
  accruing u st fl (sequence env) s -> default (sequence env) (get_reward_checkpoint_ledger u s) = a ->
  0 <= a -> 0 <= get_shares u s -> 0 <= get_accrued_reward u s ->
  (Z.to_nat (sequence env - a) <= fuel)%nat ->
  let earned := get_reward_remainder u s + dust_of (get_shares u s) st fl a (sequence env) s in
  earned <= i128_max -> get_accrued_reward u s + earned / DIVISOR <= i128_max ->
  exists s2, pending_reward env fuel u s = Ok (get_accrued_reward u s + earned / DIVISOR) s2.
Proof.
  intros Hac Hcp Ha Hsh Hacc Hfuel earned Hmax Hmax2. pose proof i128_bounds as Hi. pose proof DIVISOR_pos.
  assert (Hn : 0 <= earned).
  { pose proof (dust_nonneg u st fl _ (sequence env) a _ s Hac Hsh). pose proof (ac_rem _ _ _ _ _ Hac).
    unfold earned. lia. }
  destruct (between_exact env fuel u st fl (get_shares u s) a (sequence env) false s)
    as (sv & Hv & _); auto. fold earned in Hv.
  exists sv. unfold pending_reward, reading. rewrite Hcp. rewrite (bind_run _ _ _ _ _ Hv).
  pose proof (Z.div_pos earned DIVISOR ltac:(lia) ltac:(lia)).
  unfold checked_add. rewrite to_i128_in by (unfold in_i128; lia). done.
Qed.

Lemma move_key_config from to k : config_key k = true -> ~ move_key from to k.
Proof.
  intros Hk Hm. destruct Hm as [[Hc|Hc]|[[Hc|Hc]|[Hc|Hc]]];
    try (destruct Hc as [->|[->|[->|(t & [->| ->])]]]; done); destruct k as [[]|[]|[]| | | |[]| | | | ]; done.
Qed.

(** The entries [pending_reward] reads for [u]. *)
Definition pending_key (u : Address) (k : key) : bool :=
  config_key k ||
  match k with
  | KPers (ShareBalance v) | KPers (AccruedReward v) | KPers (RewardCheckpointLedger v)
  | KPers (StakedAtLedger v) => bool_decide (v = u)
  | _ => false
  end.

(** A moved position is owed what its new owner's entries say. *)
Lemma moved_pending from to accrued cp a st fl s s1 s' :
  moved env from to accrued cp s s1 -> (forall k, pending_key to k = true -> rd k s' = rd k s1) ->
  accruing from st fl (sequence env) s ->
  0 <= get_reward_remainder to s < DIVISOR -> default (sequence env) cp = a -> 0 <= a -> 0 <= accrued ->
  (Z.to_nat (sequence env - a) <= fuel)%nat ->
  let earned := get_reward_remainder to s + dust_of (get_shares from s) st fl a (sequence env) s in
  earned <= i128_max -> accrued + earned / DIVISOR <= i128_max ->
  exists s2, pending_reward env fuel to s' = Ok (accrued + earned / DIVISOR) s2.
Proof.
  intros Hm Hafter Hac Hrem Hcp Ha Hacc Hfuel earned H1 H2.
  assert (Hcfg : same_config s s').
  { intros k Hk. rewrite Hafter by (unfold pending_key; by rewrite Hk).
    apply (mv_frame _ _ _ _ _ _ _ Hm). by apply move_key_config. }
  destruct Hm as [_ [_ M2] _ _ M5 [M6 _] M7 [M8 _] _ _].
  assert (Hto : forall k, k = ShareBalance to \/ k = AccruedReward to \/ k = RewardCheckpointLedger to \/
            k = StakedAtLedger to -> rd (KPers k) s' = rd (KPers k) s1).
  { intros k Hk. apply Hafter. destruct Hk as [->|[->|[->| ->]]]; by apply bool_decide_eq_true. }
  assert (Hst : rd (StakedAtLedger to) s' = Some st) by (by rewrite Hto, M8, (ac_staked _ _ _ _ _ Hac) by auto).
  pose proof (same_config_accruing _ _ _ _ _ _ _ Hcfg Hst Hrem Hac) as Hac'.
  assert (Hr : get_reward_remainder to s' = get_reward_remainder to s)
    by (unfold get_reward_remainder; by rewrite Hcfg).
  assert (Hs : get_shares to s' = get_shares from s) by (unfold get_shares in *; by rewrite Hto by auto).
  assert (Hw : get_accrued_reward to s' = accrued) by (unfold get_accrued_reward in *; by rewrite Hto by auto).
  assert (Hc : get_reward_checkpoint_ledger to s' = cp)
    by (unfold get_reward_checkpoint_ledger in *; by rewrite Hto by auto).
  destruct (pending_exact to st fl a s') as [s2 Hs2]; rewrite ?Hs, ?Hw, ?Hc, ?Hr, ?(same_config_dust _ _ _ _ _ s s');
    try done. exists s2. by rewrite Hs2, Hs, Hw, Hr, (same_config_dust _ _ _ _ _ s s').
Qed.

End Pending.

Section Moves.
Context {W : World} {B : Bootstrap W} (env : Env) (fuel : nat).
Implicit Types s : State.

(** What the owner of a settled-at-[a] position with the remainder of [v] is
    owed: the whole units of the remainder and the dust since [a]. *)
Definition due (u v : Address) (st fl a : Z) s : Z :=
  (get_reward_remainder v s + dust_of (get_shares u s) st fl a (sequence env) s) / DIVISOR.
Definition due_fits (u v : Address) (st fl a : Z) s : Prop :=
  get_reward_remainder v s + dust_of (get_shares u s) st fl a (sequence env) s <= i128_max /\
  get_accrued_reward u s + due u v st fl a s <= i128_max.

(** A transfer does not carry unsettled reward over.  After a successful
    [transfer_position] the recipient holds the shares and the sender's
    credited reward, but what accrued since the sender's checkpoint is
    replaced by the same position's reward since the recipient's own
    checkpoint: a recipient that has none is owed the credited reward and
    nothing else, and one with an old checkpoint [c] is owed the reward of
    all ledgers since [c], those before the sender even staked or had already
    been paid for included.  The sender is owed nothing. *)
Theorem transfer_replaces_unsettled_reward (from to : Address) (st fl r : Z) (s s' : State) :
  transfer_position env from to s = Ok r s' -> accruing from st fl (sequence env) s ->
  0 <= get_reward_remainder to s < DIVISOR -> 0 <= get_accrued_reward from s ->
  let c := default (sequence env) (get_reward_checkpoint_ledger to s) in
  0 <= c -> (Z.to_nat (sequence env - c) <= fuel)%nat -> due_fits from to st fl c s ->
  get_shares to s' = get_shares from s /\
  (exists s2, pending_reward env fuel to s' = Ok (get_accrued_reward from s + due from to st fl c s) s2) /\
  (get_reward_checkpoint_ledger to s = None ->
     exists s2, pending_reward env fuel to s' = Ok (get_accrued_reward from s) s2) /\
  (exists s2, pending_reward env fuel from s' = Ok 0 s2).
Proof.
  intros H Hac Hrem Hacc c Hc Hfuel [Hf1 Hf2]. apply transfer_position_Ok in H as [_ Hm].
  assert (Hp : exists s2, pending_reward env fuel to s' = Ok (get_accrued_reward from s + due from to st fl c s) s2)
    by (by eapply (moved_pending env fuel from to _ _ c st fl s s' s')).
  split; [apply Hm|]. split; [exact Hp|]. split.
  - intros Hnone. destruct Hp as [s2 Hp]. exists s2. rewrite Hp. f_equal. unfold c, due. rewrite Hnone. cbn.
    unfold dust_of. rewrite ref_dust_empty by lia. rewrite Z.add_0_r, Z.div_small by done. lia.
  - destruct Hm as [_ _ _ M4 _ [_ M6] _ _ _ _].
    exists s'. unfold pending_reward, reading. rewrite M4, M6. unfold reward_between_ledgers. cbn [Z.eqb orb].
    unfold bind, ret. done.
Qed.

(** *** Inheritance *)

Lemma registry_Ok b u s1 s2 s3 t2 t3 :
  u <> b -> remove_from_staker_list (E:=VaultSafetyError.t) u s1 = Ok t2 s2 ->
  register_staker (E:=VaultSafetyError.t) b s2 = Ok t3 s3 ->
  ~ (u ∈ get_all_stakers s3) /\ b ∈ get_all_stakers s3 /\
  get_total_stakers s3 = Z.of_nat (length (get_all_stakers s3)) /\
  (forall v, v <> u -> v <> b -> (v ∈ get_all_stakers s3 <-> v ∈ get_all_stakers s1)) /\
  (forall k, k <> KInst AllStakers -> k <> KInst TotalStakers -> rd k s3 = rd k s1) /\ st_ext s3 = st_ext s1.
Proof.
  intros Hne H2 H3. unfold remove_from_staker_list, reading in H2. apply put_Ok in H2 as [_ ->].
  unfold register_staker in H3. unfold reading at 1 in H3.
  set (L := filter (fun a => a <> u) (get_all_stakers s1)) in *.
  replace (get_all_stakers (upd AllStakers (Some L) s1)) with L in H3 by (unfold get_all_stakers; by rdsimp).
  assert (HL : forall v, v ∈ L <-> v <> u /\ v ∈ get_all_stakers s1)
    by (intros v; subst L; by rewrite list_elem_of_filter).
  case_bool_decide as Hb.
  - apply put_Ok in H3 as [_ ->]. set (s3 := upd TotalStakers _ _).
    assert (Hall : get_all_stakers s3 = L) by (unfold get_all_stakers; subst s3; by rdsimp).
    assert (Htot : get_total_stakers s3 = Z.of_nat (length L)) by (unfold get_total_stakers; subst s3; by rdsimp).
    rewrite Hall, Htot. split_and!; try done.
    + rewrite HL. naive_solver.
    + intros v Hv _. rewrite HL. naive_solver.
    + intros k Hk1 Hk2. subst s3. by rewrite !rd_upd_ne by congruence.
  - apply bind_Ok in H3 as (? & ? & H1 & H3). apply put_Ok in H1 as [_ ->]. apply put_Ok in H3 as [_ ->].
    set (s3 := upd TotalStakers _ _).
    assert (Hall : get_all_stakers s3 = L ++ [b]) by (unfold get_all_stakers; subst s3; by rdsimp).
    assert (Htot : get_total_stakers s3 = Z.of_nat (length (L ++ [b])))
      by (unfold get_total_stakers; subst s3; by rdsimp).
    rewrite Hall, Htot. split_and!; try done.
    + rewrite elem_of_app, HL. set_solver.
    + set_solver.
    + intros v Hv1 Hv2. rewrite elem_of_app, HL. set_solver.
    + intros k Hk1 Hk2. subst s3. by rewrite !rd_upd_ne by congruence.
Qed.

(** C29. Inheritance hands over the whole position.  A call of
    [claim_inheritance] succeeds only for the beneficiary the owner last named,
    who signed, and only once the owner's inactivity period has run out.  It
    moves the primary position, the split positions and the credited reward to
    the beneficiary, keeps the stake ledger, consumes the designation, replaces
    the owner by the beneficiary in the registry, and leaves totals and tokens
    alone.  Unlike a transfer it also moves the settlement checkpoint: the
    beneficiary is owed exactly what the owner had accrued, counted with the
    beneficiary's own remainder of less than one unit. *)
Theorem inheritance_hands_over (b u : Address) (x : unit) (s s' : State) :
  claim_inheritance env fuel b u s = Ok x s' ->
  (exists rec, get_record u s = Some rec /\ bf_beneficiary rec = b /\ signed env b = true /\
     bf_last_interaction rec + bf_inactivity_ledgers rec <= sequence env) /\
  get_record u s' = None /\
  get_shares u s' = 0 /\ get_shares b s' = get_shares u s /\
  get_split_positions u s' = [] /\
  get_split_positions b s' = get_split_positions b s ++ get_split_positions u s /\
  get_accrued_reward u s' = 0 /\ get_accrued_reward b s' = get_accrued_reward u s /\
  rd (StakedAtLedger b) s' = Some (default (sequence env) (rd (StakedAtLedger u) s)) /\
  ~ (u ∈ get_all_stakers s') /\ b ∈ get_all_stakers s' /\
  get_total_stakers s' = Z.of_nat (length (get_all_stakers s')) /\
  get_total_shares s' = get_total_shares s /\ get_total_deposited s' = get_total_deposited s /\
  st_ext s' = st_ext s /\
  (forall st fl,
     let a := default (sequence env) (get_reward_checkpoint_ledger u s) in
     accruing u st fl (sequence env) s -> 0 <= get_reward_remainder b s < DIVISOR -> 0 <= a ->
     0 <= get_accrued_reward u s -> (Z.to_nat (sequence env - a) <= fuel)%nat -> due_fits u b st fl a s ->
     exists s2, pending_reward env fuel b s' = Ok (get_accrued_reward u s + due u b st fl a s) s2).
Proof.
  intros H. apply claim_inheritance_Ok in H
    as (rec & s1 & s2 & s3 & s4 & ? & ? & ? & Hrec & Hb & Hsig & Hnow & H1 & H2 & H3 & H4 & ->).
  apply move_position_Ok in H1 as Hm. pose proof (mv_distinct _ _ _ _ _ _ _ Hm) as Hne.
  destruct (registry_Ok b u s1 s2 s3 _ _ Hne H2 H3) as (R1 & R2 & R3 & _ & Hf3 & He3).
  apply move_splits_Ok in H4 as (P1 & P2 & Hf4 & He4); [|done].
  set (s' := emit _ _).
  assert (Hto1 : forall k, k <> KPos (SplitPositions u) -> k <> KPos (SplitPositions b) -> k <> KInst AllStakers ->
            k <> KInst TotalStakers -> k <> KPers (BeneficiaryOf u) -> rd k s' = rd k s1).
  { intros k K1 K2 K3 K4 K5. subst s'. rewrite rd_emit, rd_upd_ne by congruence. by rewrite Hf4, Hf3. }
  assert (Hsp : forall v, get_split_positions v s3 = get_split_positions v s).
  { intros v. unfold get_split_positions. rewrite Hf3 by done. rewrite (mv_frame _ _ _ _ _ _ _ Hm); [done|].
    intros Hk. by destruct Hk as [[[?|[?|[?|(t & [?|?])]]]|?]|[[[?|[?|[?|(t & [?|?])]]]|?]|[?|?]]]. }
  assert (Hreg : get_all_stakers s' = get_all_stakers s3 /\ get_total_stakers s' = get_total_stakers s3).
  { subst s'. unfold get_all_stakers, get_total_stakers. rdsimp. by rewrite !Hf4. }
  destruct Hreg as [-> ->].
  assert (Hbooks : rd TotalShares s1 = rd TotalShares s /\ rd TotalDeposited s1 = rd TotalDeposited s).
  { split; apply (rl_frame _ _ _ _ (moved_relocated _ _ _ _ _ _ _ Hm)); done. }
  split; [by exists rec|]. split; [unfold get_record; subst s'; by rdsimp|].
  pose proof Hm as [_ _ _ M4 M5 [M6 M6'] _ [M8 _] _ M10].
  assert (Hsh : forall v, get_shares v s' = get_shares v s1) by (intros; unfold get_shares; by rewrite Hto1).
  assert (Hrw : forall v, get_accrued_reward v s' = get_accrued_reward v s1)
    by (intros; unfold get_accrued_reward; by rewrite Hto1).
  assert (Hsp' : forall v, get_split_positions v s' = get_split_positions v s4)
    by (intros; unfold get_split_positions; subst s'; by rdsimp).
  assert (Htot : get_total_shares s' = get_total_shares s /\ get_total_deposited s' = get_total_deposited s).
  { destruct Hbooks as [Hb1 Hb2]. unfold get_total_shares, get_total_deposited.
    by rewrite !Hto1, Hb1, Hb2 by done. }
  rewrite !Hsh, !Hrw, !Hsp', P1, P2, !Hsp, (Hto1 (StakedAtLedger b)) by done.
  split_and!; try done; try apply Htot.
  - etransitivity; [exact He4|]. by rewrite He3.
  - intros st fl a Hac Hrem Ha Hacc Hfuel [Hf1 Hf2].
    apply (moved_pending env fuel u b _ _ a st fl s s1 s' Hm); try done.
    intros k Hk. apply Hto1; by intros ->.
Qed.

End Moves.

(** ** Merging undoes a split *)

Section RoundTrip.
Context {W : World} {B : Bootstrap W} {BL : BootstrapLaws W B} (env : Env) (fuel : nat).
Implicit Types s : State.

(** A position list up to the ledgers of the last claim. *)
Definition terms (l : list StakePosition) : list (Z * Z) := (fun p => (sp_amount p, sp_staked_at_ledger p)) <$> l.

Lemma position_of_terms u id s :
  position_of u id s =
    if id =? 0 then
      if get_shares u s <=? 0 then None else Some (get_shares u s, default 0 (rd (StakedAtLedger u) s))
    else terms (get_split_positions u s) !! Z.to_nat (id - 1).
Proof. unfold position_of, terms. by rewrite list_lookup_fmap. Qed.

(** The two halves of a split, as positions of the new state. *)
Lemma halves u id x s n s1 :
  0 <= id -> split_position env fuel u id x s = Ok n s1 ->
  exists amt st, position_of u id s = Some (amt, st) /\ 0 < x < amt /\ id < n /\
    position_of u id s1 = Some (amt - x, st) /\ position_of u n s1 = Some (x, st) /\
    get_split_positions u s1 = (written u id (amt - x) st (sequence env) s).2 ++ [mkStakePosition x st (sequence env)] /\
    get_shares u s1 = (written u id (amt - x) st (sequence env) s).1 /\
    n = Z.of_nat (length (get_split_positions u s)) + 1.
Proof.
  intros Hid H. apply split_position_Ok in H as (amt & st & Hp & Hx & Hn & Hr). cbv zeta in *.
  destruct Hr as [R1 _ R2 _ R5 _]. exists amt, st.
  assert (Hlen : length (written u id (amt - x) st (sequence env) s).2 = length (get_split_positions u s)).
  { unfold written. destruct (id =? 0); cbn; [done|by rewrite length_insert]. }
  rewrite length_app, Hlen in Hn. cbn in Hn.
  split; [done|]. split; [done|].
  assert (Hlt : id < n).
  { unfold position_of in Hp. destruct (Z.eqb_spec id 0); [lia|].
    apply fmap_Some in Hp as (p & Hp & _). apply lookup_lt_Some in Hp. lia. }
  split; [done|]. split; [|split; [|split; [done|split; [done|lia]]]].
  - unfold position_of in *. rewrite R1, R2. unfold written in *. destruct (Z.eqb_spec id 0); cbn [fst snd].
    + rewrite (proj2 (Z.leb_gt _ _)) by lia. destruct (_ <=? _); [done|]. injection Hp as Hp1 Hp2.
      by rewrite R5, Hp2.
    + apply fmap_Some in Hp as (p & Hp & _). pose proof (lookup_lt_Some _ _ _ Hp).
      rewrite lookup_app_l by (rewrite length_insert; lia). by rewrite list_lookup_insert_eq by lia.
  - unfold position_of. rewrite (proj2 (Z.eqb_neq n 0)) by lia. rewrite R2.
    rewrite lookup_app_r by lia. replace (Z.to_nat (n - 1) - _)%nat with 0%nat by lia. done.
Qed.

(** Two operations on the positions of [u] leave everything else as it was. *)
Definition beside_positions (u : Address) s s' : Prop :=
  (forall v, rd (StakedAtLedger v) s' = rd (StakedAtLedger v) s) /\
  (forall v, v <> u -> get_shares v s' = get_shares v s /\ get_split_positions v s' = get_split_positions v s) /\
  get_total_shares s' = get_total_shares s /\ get_total_deposited s' = get_total_deposited s /\ st_ext s' = st_ext s.

Lemma reshaped_twice u sh1 l1 sh2 l2 s s1 s2 : reshaped u sh1 l1 s s1 -> reshaped u sh2 l2 s1 s2 -> beside_positions u s s2.
Proof.
  intros [_ _ _ B1 S1 E1] [_ _ _ B2 S2 E2]. split; [intros v; by rewrite S2, S1|].
  split; [|unfold get_total_shares, get_total_deposited; rewrite !B2, !B1 by done; split_and!; congruence].
  intros v Hv. unfold get_shares, get_split_positions. by rewrite !B2, !B1 by (done || congruence).
Qed.

(** What a merge of the two halves restores, whatever their order. *)
Lemma merge_halves u id x s n s1 a b k s2 :
  0 <= id -> split_position env fuel u id x s = Ok n s1 -> (a = id /\ b = n) \/ (a = n /\ b = id) ->
  merge_positions env fuel u a b s1 = Ok k s2 ->
  k = id /\ get_shares u s2 = get_shares u s /\
  terms (get_split_positions u s2) = terms (get_split_positions u s) /\ beside_positions u s s2.
Proof.
  intros Hid Hs Hab Hm. pose proof Hs as (? & ? & _ & _ & _ & Hr0)%split_position_Ok.
  destruct (halves _ _ _ _ _ _ Hid Hs) as (amt & st & Hp & Hx & Hlt & Hh1 & Hh2 & Hl & Hsh & Hn).
  apply merge_positions_Ok in Hm as (y & z & st' & Ha & Hb & _ & _ & -> & Hr).
  assert (Hyz : y + z = amt /\ st' = st) by (destruct Hab as [[-> ->]|[-> ->]]; split; congruence || (simplify_eq; lia)).
  destruct Hyz as [Hyz ->]. specialize (Hr ltac:(lia)). cbv zeta in Hr. rewrite Hyz in Hr.
  replace (Z.min a b) with id in * by lia. replace (Z.max a b) with n in Hr by lia.
  pose proof (reshaped_twice _ _ _ _ _ _ _ _ Hr0 Hr) as Hbeside.
  destruct Hr as [R1 _ R2 _ _ _]. split; [done|]. rewrite R1, R2.
  match goal with |- ?A /\ ?B /\ _ => enough (A /\ B) as [? ?] by (by split_and!) end.
  unfold written, position_of in *. destruct (Z.eqb_spec id 0) as [->|Hne]; cbn [fst snd] in *.
  - destruct (_ <=? _) in Hp; [done|]. injection Hp as Hp _. split; [done|]. f_equal. rewrite Hl.
    rewrite delete_take_drop, take_app_length', drop_app_ge by lia.
    rewrite drop_ge by (cbn; lia). by rewrite app_nil_r.
  - split; [by rewrite Hsh|]. apply fmap_Some in Hp as (p & Hp & [= -> ->]).
    pose proof (lookup_lt_Some _ _ _ Hp). rewrite Hl.
    rewrite insert_app_l by (rewrite length_insert; lia). rewrite list_insert_insert_eq.
    rewrite delete_take_drop, take_app_length' by (rewrite length_insert; lia).
    rewrite drop_app_ge by (rewrite length_insert; lia).
    rewrite drop_ge by (rewrite ?length_insert; cbn; lia). rewrite app_nil_r.
    unfold terms. rewrite list_fmap_insert. cbn. apply list_insert_id. by rewrite list_lookup_fmap, Hp.
Qed.

(** Settling at the ledger of the last settlement goes through. *)
Lemma settle_again u s :
  get_reward_checkpoint_ledger u s = Some (sequence env) -> rd EpochCfg s = None ->
  exists s', settle_position env fuel u s = Ok tt s'.
Proof.
  intros Hcp Hcfg. unfold settle_position. unfold reading at 1.
  assert (exists s1, accrue_rewards env fuel u (get_shares u s) s = Ok tt s1) as [s1 H1].
  { unfold accrue_rewards. unfold reading at 1. destruct (default false _); [by eexists|].
    unfold reading at 1. rewrite Hcp. cbn [from_option id].
    assert (Hz : reward_between_ledgers env fuel u (get_shares u s) (sequence env) (sequence env) true s = Ok 0 s).
    { unfold reward_between_ledgers. by rewrite Z.leb_refl, orb_true_r. }
    rewrite (bind_run _ _ _ _ _ Hz).
    assert (Hb : apply_budget (E:=VaultError.t) env 0 s = Ok 0 s) by (unfold apply_budget, reading; by rewrite Hcfg).
    rewrite (bind_run _ _ _ _ _ Hb). cbn [Z.ltb Z.compare].
    rewrite (bind_run _ _ _ _ s) by done.
    destruct (close_accrual_Ok env u s) as (s1 & H1 & _). by exists s1. }
  unfold bind, try_. rewrite H1. unfold touch, reading. destruct (get_record u s1); by eexists.
Qed.

(** A settlement leaves its ledger as the checkpoint. *)
Lemma settle_checkpoint u s x s' :
  settle_position env fuel u s = Ok x s' -> get_reward_checkpoint_ledger u s' = Some (sequence env).
Proof.
  intros H. unfold settle_position in H. unfold reading at 1 in H. apply bind_Ok in H as (? & s1 & H1 & H).
  apply (proj1 (try_Ok _ _ _ _)) in H1.
  assert (Ht : forall k, k <> KPers (BeneficiaryOf u) -> rd k s' = rd k s1).
  { unfold touch, reading in H. destruct (get_record u s1).
    - apply put_Ok in H as [_ ->]. intros k Hk. by rewrite rd_upd_ne by congruence.
    - by apply ret_Ok in H as [_ ->]. }
  unfold get_reward_checkpoint_ledger. rewrite Ht by done. clear H Ht.
  unfold accrue_rewards in H1. unfold reading at 1 in H1. destruct (default false _).
  - apply put_Ok in H1 as [_ ->]. by rdsimp.
  - unfold reading at 1 in H1. apply bind_Ok in H1 as (q & ? & _ & H1).
    apply bind_Ok in H1 as (q' & ? & _ & H1). apply bind_Ok in H1 as (? & s2 & _ & H1).
    destruct (close_accrual_Ok env u s2) as (s3 & H3 & Hc & _). rewrite H3 in H1. injection H1 as <- <-. exact Hc.
Qed.

Lemma split_signed u id x s n s1 :
  split_position env fuel u id x s = Ok n s1 ->
  signed env u = true /\ get_reward_checkpoint_ledger u s1 = Some (sequence env).
Proof.
  intros H. unfold split_position in H. apply bind_Ok in H as (? & ? & H1 & H).
  apply require_auth_Ok in H1 as (Hs & _ & ->). split; [done|].
  apply bind_Ok in H as ([amt st] & ? & H1 & H). apply bind_Ok in H as (? & ? & H2 & H).
  apply bind_Ok in H as (? & ? & H3 & H). apply bind_Ok in H as (? & s2 & H4 & H).
  apply settle_checkpoint in H4. apply bind_Ok in H as (rest & ? & H5 & H). apply plain_Ok in H5 as [_ ->].
  unfold reading at 1 in H. apply bind_Ok in H as (l & s3 & H6 & H).
  apply write_position_Ok in H6 as (_ & _ & _ & Hf & _).
  apply bind_Ok in H as (? & ? & H7 & H). apply put_Ok in H7 as [_ ->].
  apply bind_Ok in H as (? & ? & H7 & H). apply publish_Ok in H7 as [_ ->]. apply ret_Ok in H as [_ ->].
  unfold get_reward_checkpoint_ledger in *. rdsimp.
  rewrite (Hf (RewardCheckpointLedger u)); [done| |done]. by apply plain_key_not_shares.
Qed.

(** A merge of two positions with the same stake ledger goes through. *)
Lemma merge_goes u a b id xa xb st v s1 :
  (if a <? b then a else b) = id -> a <> b -> signed env u = true ->
  position_of u a s1 = Some (xa, st) -> position_of u b s1 = Some (xb, st) ->
  position_of u id s1 <> None -> 0 <= xa + xb -> in_i128 (xa + xb) ->
  get_reward_checkpoint_ledger u s1 = Some (sequence env) -> load s1 = [] -> rd EpochCfg s1 = None ->
  shares_to_amount (get_total_shares s1) (get_total_deposited s1) (xa + xb) = Some v ->
  exists k s2, merge_positions env fuel u a b s1 = Ok k s2.
Proof.
  intros Hkept Hab Hsig Ha Hb Hid Hn Hamt Hcp Hload Hcfg Hv. set (amt := xa + xb) in *.
  destruct (settle_again u s1 Hcp Hcfg) as [s3 H3]. pose proof (settle_position_Ok _ _ _ _ _ _ H3) as Hf3.
  unfold merge_positions.
  assert (E1 : require_auth (E:=VaultSafetyError.t) env u s1 = Ok tt s1)
    by (unfold require_auth; by rewrite Hsig).
  rewrite (bind_run _ _ _ _ _ E1). rewrite (proj2 (Z.eqb_neq a b)) by done.
  rewrite (bind_run _ _ _ tt s1) by done.
  rewrite (bind_run _ _ _ _ _ (proj2 (position_info_Ok u a s1 _ s1) (conj eq_refl Ha))).
  rewrite (bind_run _ _ _ _ _ (proj2 (position_info_Ok u b s1 _ s1) (conj eq_refl Hb))).
  rewrite Z.eqb_refl. rewrite (bind_run _ _ _ tt s1) by done.
  unfold checked_add. fold amt. rewrite to_i128_in by done. rewrite (bind_run _ _ _ amt s1) by done.
  rewrite (bind_run _ _ _ _ _ H3). unfold reading at 1. rewrite Hkept. cbv zeta.
  assert (exists l s4, write_position (E:=VaultSafetyError.t) env u id amt st (get_split_positions u s3) s3 = Ok l s4)
    as (l & s4 & H4).
  { unfold write_position. destruct (Z.eqb_spec id 0) as [->|Hne].
    - assert (Hl3 : load s3 = []).
      { unfold load. rewrite Hf3; [done|]. unfold settle_key, accrual_key, accumulator_key. naive_solver. }
      destruct (set_shares_goes env VaultSafetyError.t u amt s3 Hl3 Hn) as [s4 H4].
      rewrite (bind_run _ _ _ _ _ H4). by eexists _, _.
    - unfold vec_set. unfold position_of in Hid. rewrite (proj2 (Z.eqb_neq id 0)) in Hid by done.
      assert (Hsp : get_split_positions u s3 = get_split_positions u s1).
      { unfold get_split_positions. by rewrite Hf3 by by apply books_not_settled. }
      rewrite Hsp. destruct (_ !! _); [by eexists _, _|done]. }
  rewrite (bind_run _ _ _ _ _ H4). apply write_position_Ok in H4 as (_ & _ & _ & Hf4 & _).
  rewrite (bind_run _ _ _ tt (upd (SplitPositions u) _ s4)) by done. unfold reading.
  match goal with |- context [get_total_shares ?t] => set (s5 := t) end.
  assert (Htot : get_total_shares s5 = get_total_shares s1 /\ get_total_deposited s5 = get_total_deposited s1).
  { unfold get_total_shares, get_total_deposited. subst s5. rdsimp.
    by rewrite !Hf4, !Hf3 by first [done | by apply books_not_settled | intros Hc; by apply share_write_acc in Hc]. }
  destruct Htot as [-> ->]. rewrite Hv. by eexists _, _.
Qed.

(** C28. Merging undoes a split.  After a successful [split_position] of the
    primary position or of a split position, [merge_positions] of the two
    halves at the same ledger, in either order, succeeds: it returns the id of
    the position that was split and restores the share balance and the amounts
    and stake ledgers of the split list; the stake ledger of the primary
    position, everybody else's positions, the totals and the tokens are as they
    were before the split.  (No extra reward tokens and no epoch budget
    configured; the position's value fits 128 bits.) *)
Theorem merge_undoes_split (u : Address) (id x n : Z) (s s1 : State) (a b : Z) :
  0 <= id -> split_position env fuel u id x s = Ok n s1 ->
  (a = id /\ b = n) \/ (a = n /\ b = id) ->
  load s1 = [] -> rd EpochCfg s1 = None ->
  (forall amt st, position_of u id s = Some (amt, st) -> in_i128 amt /\
     exists v, shares_to_amount (get_total_shares s) (get_total_deposited s) amt = Some v) ->
  exists s2, merge_positions env fuel u a b s1 = Ok id s2 /\
    get_shares u s2 = get_shares u s /\
    terms (get_split_positions u s2) = terms (get_split_positions u s) /\
    (forall v, rd (StakedAtLedger v) s2 = rd (StakedAtLedger v) s) /\
    (forall v, v <> u -> get_shares v s2 = get_shares v s /\ get_split_positions v s2 = get_split_positions v s) /\
    get_total_shares s2 = get_total_shares s /\ get_total_deposited s2 = get_total_deposited s /\ st_ext s2 = st_ext s.
Proof.
  intros Hid Hs Hab Hload Hcfg Hval.
  destruct (halves _ _ _ _ _ _ Hid Hs) as (amt & st & Hp & Hx & Hlt & Hh1 & Hh2 & _).
  destruct (Hval _ _ Hp) as [Hamt [v Hv]]. destruct (split_signed _ _ _ _ _ _ Hs) as [Hsig Hcp].
  enough (exists k s2, merge_positions env fuel u a b s1 = Ok k s2) as (k & s2 & Hm).
  { destruct (merge_halves _ _ _ _ _ _ _ _ _ _ Hid Hs Hab Hm) as [-> ?]. by exists s2. }
  apply split_position_Ok in Hs as (? & ? & _ & _ & _ & Hr). pose proof (rs_books _ _ _ _ _ Hr) as Hb.
  assert (Hv1 : shares_to_amount (get_total_shares s1) (get_total_deposited s1) amt = Some v)
    by (unfold get_total_shares, get_total_deposited in *; by rewrite !Hb).
  destruct Hab as [[-> ->]|[-> ->]].
  - apply (merge_goes u id n id (amt - x) x st v); rewrite ?Z.sub_add; try (done || lia || congruence).
    by rewrite (proj2 (Z.ltb_lt _ _)) by lia.
  - apply (merge_goes u n id id x (amt - x) st v); rewrite ?Zplus_minus; try (done || lia || congruence).
    by rewrite (proj2 (Z.ltb_ge _ _)) by lia.
Qed.

End RoundTrip.

(** ** The older split *)

Section OldSplit.
Context {W : World} {B : Bootstrap W} {BL : BootstrapLaws W B} (env : Env) (fuel : nat).
Implicit Types s : State.

(** [position_split] does not settle.  Before the split a position with
    checkpoint [a] was owed its credited reward and the reward of all its shares
    since [a]; after a successful [position_split] of [x] shares, with whatever
    the claim inside it paid out of the credited reward, the user is owed the
    remaining credited reward and the reward since [a] of the remaining shares
    only: the reward of the [x] split-off shares over that window is gone, and
    as split positions do not accrue, so is all their later reward. *)
Theorem position_split_forfeits_unsettled (u : Address) (x st fl a : Z) (r : unit) (s s' : State) :
  position_split env u x s = Ok r s' -> accruing u st fl (sequence env) s ->
  default (sequence env) (get_reward_checkpoint_ledger u s) = a -> 0 <= a ->
  0 <= get_accrued_reward u s' -> (Z.to_nat (sequence env - a) <= fuel)%nat ->
  let earned sh := get_reward_remainder u s + dust_of sh st fl a (sequence env) s in
  earned (get_shares u s) <= i128_max -> 0 <= get_accrued_reward u s ->
  get_accrued_reward u s + earned (get_shares u s) / DIVISOR <= i128_max ->
  earned (get_shares u s - x) <= i128_max ->
  get_accrued_reward u s' + earned (get_shares u s - x) / DIVISOR <= i128_max ->
  get_shares u s' = get_shares u s - x /\
  (exists s2, pending_reward env fuel u s = Ok (get_accrued_reward u s + earned (get_shares u s) / DIVISOR) s2) /\
  (exists s2, pending_reward env fuel u s' = Ok (get_accrued_reward u s' + earned (get_shares u s - x) / DIVISOR) s2).
Proof.
  intros H Hac Hcp Ha Hacc' Hfuel earned H1 Hacc H2 H3 H4.
  apply position_split_Ok in H as (Hx & st' & s1 & _ & Hk & Hr).
  pose proof (rs_shares _ _ _ _ _ Hr) as Hsh.
  assert (Hcfg : same_config s s').
  { intros k Hc. apply Hk. destruct k as [[]|[]|[]| | | | | | | |]; done. }
  assert (Hst : rd (StakedAtLedger u) s' = Some st) by (rewrite Hk by done; apply Hac).
  pose proof (same_config_accruing _ _ _ _ _ _ _ Hcfg Hst (ac_rem _ _ _ _ _ Hac) Hac) as Hac'.
  assert (Hcp' : get_reward_checkpoint_ledger u s' = get_reward_checkpoint_ledger u s)
    by (unfold get_reward_checkpoint_ledger; by rewrite Hk).
  assert (Hrem : get_reward_remainder u s' = get_reward_remainder u s)
    by (unfold get_reward_remainder; by rewrite Hk).
  split; [done|]. split; [apply pending_exact; (done || lia)|].
  destruct (pending_exact env fuel u st fl a s') as [s2 Hs2];
    rewrite ?Hsh, ?Hcp', ?Hrem, ?(same_config_dust _ _ _ _ _ s s'); try (done || lia).
  exists s2. by rewrite Hs2, Hsh, Hrem, (same_config_dust _ _ _ _ _ s s').
Qed.

End OldSplit.

(** ** Witnesses *)

#[local] Existing Instances no_bootstrap no_bootstrap_laws.

(** [earning] with a beneficiary and a pool total. *)
Definition inheriting : State (W := token_world) :=
  upd AllStakers (Some [2%positive]) (upd TotalShares (Some 5000000000) (upd TotalDeposited (Some 5000000000)
    (upd (BeneficiaryOf 2) (Some (mkBeneficiary 3 20 10)) earning))).

Lemma inheriting_config : same_config earning inheriting.
Proof. intros k Hk. unfold inheriting. rewrite !rd_upd_ne; [done|..]; by intros <-. Qed.

Lemma inheriting_accruing b : in_u32 b -> accruing 2 10 0 b inheriting.
Proof.
  intros Hb. apply (same_config_accruing 2 _ _ _ _ earning); [exact inheriting_config| | |by apply earning_accruing].
  - unfold inheriting. rewrite !rd_upd_ne by done. by earning_reads.
  - earning_reads. by vm_compute.
Qed.

Lemma inheriting_at_60 : accruing 2 10 0 (sequence (at_ledger 60)) inheriting.
Proof. apply inheriting_accruing. split; by vm_compute. Qed.

Ltac on_earning :=
  unfold due_fits, due; rewrite ?(same_config_dust _ _ _ _ _ _ _ inheriting_config);
  unfold dust_of; rewrite ?earning_cfg.

(** [owed H n] evaluates the amount in a run [H : pending_reward ... = Ok _ _]. *)
Ltac owed H n :=
  lazymatch type of H with _ = Ok ?v _ => replace v with n in H by (on_earning; by vm_compute) end.

Lemma transfer_replaces_unsettled_reward_witness :
  exists s', transfer_position (at_ledger 60) 2 3 inheriting = Ok 5000000000 s' /\
    (exists s2, pending_reward (at_ledger 60) 60 2 inheriting = Ok 3163 s2) /\
    (exists s2, pending_reward (at_ledger 60) 60 3 s' = Ok 0 s2).
Proof.
  destruct (succeeds_run (transfer_position (at_ledger 60) 2 3 inheriting) (fun r _ => r =? 5000000000))
    as (r & s' & H & Hr%Z.eqb_eq); [by vm_compute|]. subst r. exists s'. split; [exact H|].
  destruct (succeeds_run (pending_reward (at_ledger 60) 60 2 inheriting) (fun r _ => r =? 3163))
    as (r & sv & Hv & Hr%Z.eqb_eq); [by vm_compute|]. subst r. split; [by exists sv|].
  destruct (transfer_replaces_unsettled_reward (at_ledger 60) 60 2%positive 3%positive 10 0 5000000000 inheriting s' H)
    as (_ & _ & Hp & _); [exact inheriting_at_60|split; by vm_compute|by vm_compute|by vm_compute
      |by apply Nat.leb_le; vm_compute| |].
  - on_earning. split; by vm_compute.
  - exact (Hp eq_refl).
Defined.

Lemma inheritance_hands_over_witness :
  exists s', claim_inheritance (at_ledger 60) 60 3 2 inheriting = Ok tt s' /\
    get_shares 3 s' = 5000000000 /\ get_all_stakers s' = [3%positive] /\
    (exists s2, pending_reward (at_ledger 60) 60 3 s' = Ok 3163 s2).
Proof.
  destruct (succeeds_run (claim_inheritance (at_ledger 60) 60 3 2 inheriting)
    (fun _ s' => bool_decide (get_all_stakers s' = [3%positive]))) as ([] & s' & H & Hr%bool_decide_eq_true);
    [by vm_compute|]. exists s'. split; [exact H|].
  destruct (inheritance_hands_over (at_ledger 60) 60 3%positive 2%positive tt inheriting s' H)
    as (_ & _ & _ & Hs & _ & _ & _ & _ & _ & _ & _ & _ & _ & _ & _ & Hp).
  split; [exact Hs|]. split; [exact Hr|].
  destruct (Hp 10 0) as [s2 Hs2]; [exact inheriting_at_60|split; by vm_compute|by vm_compute|by vm_compute
      |by apply Nat.leb_le; vm_compute|on_earning; split; by vm_compute|].
  owed Hs2 3163. by exists s2.
Defined.

Lemma inheriting_valued amt st :
  position_of 2 0 inheriting = Some (amt, st) -> in_i128 amt /\
    exists v, shares_to_amount (get_total_shares inheriting) (get_total_deposited inheriting) amt = Some v.
Proof.
  assert (position_of 2 0 inheriting = Some (5000000000, 10)) as -> by (vm_compute; reflexivity).
  intros [= <- <-]. split; [split; by vm_compute|]. exists 5000000000. by vm_compute.
Qed.

Lemma merge_undoes_split_witness :
  exists n s1 s2, split_position (at_ledger 60) 60 2 0 2000000000 inheriting = Ok n s1 /\
    merge_positions (at_ledger 60) 60 2 n 0 s1 = Ok 0 s2 /\ get_shares 2 s1 = 3000000000 /\
    get_shares 2 s2 = 5000000000 /\ rd (StakedAtLedger 2) s2 = rd (StakedAtLedger 2) inheriting.
Proof.
  destruct (succeeds_run (split_position (at_ledger 60) 60 2 0 2000000000 inheriting)
    (fun _ s1 => (get_shares 2 s1 =? 3000000000) && bool_decide (rd ExtraTokens s1 = None) &&
       bool_decide (rd EpochCfg s1 = None)))
    as (n & s1 & H & Hr); [by vm_compute|].
  apply andb_true_iff in Hr as [[Hr He%bool_decide_eq_true]%andb_true_iff Hc%bool_decide_eq_true].
  apply Z.eqb_eq in Hr.
  destruct (merge_undoes_split (at_ledger 60) 60 2%positive 0 2000000000 n inheriting s1 n 0)
    as (s2 & H2 & Hs & _ & Hst & _); [discriminate|exact H|right; split; reflexivity|unfold load; rewrite He; reflexivity|exact Hc|exact inheriting_valued|].
  exists n, s1, s2. split; [exact H|]. split; [exact H2|]. split; [exact Hr|].
  split; [rewrite Hs; by vm_compute|apply Hst].
Defined.

Lemma position_split_forfeits_unsettled_witness :
  exists s', position_split (at_ledger 60) 2 2000000000 inheriting = Ok tt s' /\
    (exists s2, pending_reward (at_ledger 60) 60 2 inheriting = Ok 3163 s2) /\
    (exists s2, pending_reward (at_ledger 60) 60 2 s' = Ok 1897 s2).
Proof.
  destruct (succeeds_run (position_split (at_ledger 60) 2 2000000000 inheriting)
    (fun _ s' => get_accrued_reward 2 s' =? 0)) as ([] & s' & H & Hr%Z.eqb_eq); [by vm_compute|].
  exists s'. split; [exact H|].
  destruct (position_split_forfeits_unsettled (at_ledger 60) 60 2%positive 2000000000 10 0 10 tt inheriting s' H)
    as (_ & (s1 & H1) & (s2 & H2)); rewrite ?Hr;
    [exact inheriting_at_60|by vm_compute|done|done|by apply Nat.leb_le; vm_compute
    |on_earning; by vm_compute..|].
  split.
  - owed H1 3163. by exists s1.
  - rewrite Hr in H2. owed H2 1897. by exists s2.
Defined.
